(* ===== verification/_CoqProject ===== *)
-Q . S2P
Prelude.v
Json.v
Pretty.v
Lines.v
Tree.v
Window.v
Capabilities.v
JobModel.v
Executor.v
Hardware.v
Operations.v
Graph.v
Journal.v
Store.v
Service.v
Production.v
Lineage.v
Clock.v
Resources.v
Activity.v
Manifest.v
Retention.v
Harvest.v
Quarantine.v
Recovery.v
Provenance.v
Artifacts.v
Promotion.v
Records.v
Csource.v
Apply.v
Patchset.v
Selection.v
Rebase.v
KnownGood.v
Wire.v
Winners.v
Replay.v
Campaign.v
Planner.v
Execution.v
