(* ===== verification/Prelude.v ===== *)
(** * BigCherry: a verification library of its job service and its durable records

    BigCherry tunes, patches and qualifies builds of an inference engine on
    shared GPU hosts.  Its Python packages ([src/tools/bigcherry]) submit runs
    to executors, bind them to GPUs, keep what happened on disk in records that
    must survive a crash, and decide what may be reused, replaced or deleted.
    This library models that core and proves what it promises.

    ** Parts and how they interact

    A batch ([JobModel]) is planned by the job service ([Service]) into runs,
    each bound to the GPUs of an accepted inventory ([Hardware]); the runs are
    recorded in the durable store ([Store]), whose inbox the service drains into
    an executor ([Executor]).  A run on shared GPUs needs a measurement window
    ([Window]) and a decision about production ([Production]).  A campaign is a
    graph of operations ([Graph]) whose results are published and reused by
    content ([Operations]); the bytes themselves are kept, under an identity that
    covers where they came from ([Provenance]), in a store of immutable artifacts
    ([Artifacts]).  The build campaigns that fill this store are planned as lanes
    ([Planner]), each a graph of stages that is passed over with the locks of its
    resources held ([Campaign]), by an executor that checks the bytes and the
    provenance of everything that crosses a stage ([Execution]).  Tuning appends to a checksummed journal
    ([Journal]) and identifies what a build can do by capability masks
    ([Capabilities]).  The winners of tuning are exported to a binary cache that
    the engine replays ([Wire], [Winners], [Replay]).  A patch whose subject moves with a pin keeps its evidence
    through a recorded lineage ([Lineage]).  A resource of the host is claimed by
    a lock directory ([Resources]), and a tree that runners use is kept from
    maintenance by their leases ([Activity]).  Every run directory has a manifest
    ([Manifest]); from the manifests the workspace plans its cleanup
    ([Retention]), and quarantine moves away, brings back or deletes the bulk of
    a run whose evidence bundle verifies ([Harvest], [Quarantine]); what a
    quarantine that died leaves can be taken up again ([Recovery]).  The engine
    itself is patched: the patches a source
    selects, alone, with an experiment or with a focal patch, are composed from
    the sets the configuration names ([Selection]); a set of patches is expanded
    to what it requires and put in order ([Patchset]), and their anchored edits are placed in the sources
    ([Apply]), in a text blanked of comments and literals ([Csource]); at a new
    revision every patch is probed first, and the subset that is known to be
    good is written to a report ([Rebase]), which is applied while it is fresh
    ([KnownGood]).  A comparison of measurements is turned into a
    pointer that promotes a build ([Promotion]), and what is known of a pin is
    kept in a record that promotions append to and an index lists ([Records]).

    ** Files

    - [Prelude]: Python's exceptions as values ([result], [exn]), the monad of
      methods that write state and may raise ([stm]) with its invariant and
      triple rules, [sorted], strings, decimal numbers, [repr].
    - [Json], [Lines], [Clock]: canonical JSON text with its reader and digest
      ([jobs/model.py]), text lines, UTC stamps and binary64 arithmetic.
    - [Window] ([jobs/window.py]), [Capabilities] ([tuning/capabilities.py]),
      [Production] ([jobs/production.py]), [Lineage] ([patch/lineage.py]).
    - [JobModel] ([jobs/model.py]): the records; [new_x] is the constructor of
      [x] with its [__post_init__], [x_to_dict] and [x_from_mapping] the codecs.
    - [Executor] ([jobs/executor.py], [jobs/fake.py]): the protocol as the class
      [Executor] with [ExecutorLaws]; the in-memory executor is an instance.
    - [Hardware] ([hardware/model.py], [inventory.py], [drift.py], [runtime.py]).
    - [Operations] ([jobs/operations.py], [jobs/rehydrate.py]), [Graph]
      ([jobs/graph.py]), [Journal] ([tuning/journal.py]).
    - [Store] ([jobs/store.py]) and [Service] ([jobs/service.py],
      [jobs/status.py]).
    - [Manifest] ([core/run_manifest.py]), [Retention] ([core/retention.py]),
      [Harvest] ([core/harvest.py]), [Quarantine] ([core/quarantine.py]), and
      [Recovery], the theorem about interrupted quarantines, with no
      definitions of code of its own; [Resources] ([core/resources.py]).
    - [Activity] ([core/tree_activity.py]), [Provenance] ([core/provenance.py]),
      [Artifacts] ([core/artifacts.py]); [Pretty], the indented JSON text, and
      [Tree], a tree of files whose every operation may fail, shared by
      [Artifacts] and [Apply].
    - [Promotion] ([tuning/promotion.py], with the check of a corpus in
      [campaign/benchmark.py]) and [Records] ([release/records.py]).
    - [Csource] ([core/csource.py]), [Apply] ([patch/apply.py]), [Patchset]
      ([patch/patchset.py]), [Selection] ([campaign/resolution.py]), and, on
      [patch/rebase.py], [Rebase], the probe, and [KnownGood], the report, its
      freshness and its application (with [patch/overlay.py] and the marker of
      [pin_transition.py]).
    - [Campaign] ([campaign/graph.py], [campaign/plan.py],
      [campaign/campaign.py]), [Planner] ([campaign/planner.py]) and [Execution]
      ([core/pipeline.py], [campaign/execution.py]).
    - [Wire], the format of the replay cache and its readers, and [Replay], the
      gates and the export ([tuning/replay.py]); [Winners], the identity and the
      choice of the newest winners ([identity_separation.py],
      [tuning/replay.py]).

    A definition has the name of the Python function it translates, without a
    leading underscore; a method of a class is a function of the object's state.

    ** Conventions

    A function that may raise returns [res]; a method that writes state is in
    [stm], and what it wrote before raising stays written.  A dictionary is an
    association list in insertion order where order shows, a [gmap] elsewhere;
    a set that is printed or compared is a sorted list.  Strings hold one-byte
    code points, and the names of a replay cache are their UTF-8 bytes; files of
    the cache are lists of integers below 256.  Hash functions, clocks, random identifiers and the executors
    are parameters.  The queries of the dispatch database that the export makes
    are the record [DispatchDb].

    Crashes: the disk of [Store] and the run directory of [Manifest] carry a
    budget of writes; when it is used up the process dies in front of the next
    one, no handler runs, and what was written stays.  A theorem for every
    budget is a theorem for every point of a crash.  In [Resources] and
    [Activity], where processes run at the same time, every system call is a
    step of its own and a history is any interleaving of them.  The disk of
    [Tree] carries instead a list of faults, one for each operation to come: it
    may succeed, or raise anything and leave a file half written; in [Artifacts]
    one that raises [Killed] ends the process, and no handler runs.

    Regular expressions: those of [Csource] are constants of the source and are
    written out as scanners; those of a patch come from the patch, so [Apply]
    takes the matcher as the class [Regex] with the laws [RegexLaws], and the
    matcher of literal expressions is the instance that shows the laws can hold.

    ** What is proved

    - Windows: every transition of the code is one of the life cycle, production
      restarts only after a release, and a window can always be released.
    - Round trips and bounds: capability masks, whose words never overlap or
      overflow, and job documents through their canonical text.
    - Executors: an execution is launched once per identifier, and the log of
      the in-memory executor replays to its state.
    - Hardware: a binding satisfies the requirement and does not depend on the
      order of the inventory; drift is fail-closed.
    - Operations and graphs: results are reused only when spec, inputs and
      artifact bytes agree; the order of a campaign is topological, stable and
      ends; what a change invalidates is exactly what depends on it.
    - Journal and store: after a crash at any byte or write the events that were
      acknowledged are read back; a key binds one request; every accepted run is
      launched once, whatever crashes and replays happen, and the inbox drains.
    - Manifests: whatever updates are made and wherever they die, a manifest
      stays valid, keeps what identifies its run, follows the table of states,
      and its generation tells two versions apart.
    - Locks: in every interleaving, with processes dying anywhere, at most one
      instance has a resource, and nobody else's release takes it away; runners
      and maintenance of a tree never overlap, and neither is kept out of an
      idle tree.
    - Artifacts: provenance documents round trip, and nothing with a tainted
      ancestor is ever promotable; a publication is atomic; what was published
      is given back for ever, whatever other publications do; and rehydrating
      relies on nothing but the hash.
    - Releases: a promotion pointer exists only on the evidence it names, whole
      and of the same build; a record is validated only by the last promotion in
      its history, which nothing removes; a save leaves the old file or the new
      one; and what is saved is loaded and listed once in the index.
    - Cleanup: a run is a candidate exactly under the stated conditions;
      whatever sequence of interrupted quarantines and restores happens, every
      file is in exactly one place; a quarantine interrupted any number of times
      is completed by the next one that is not; a purge deletes only what the
      journal lists, and only when it may.
    - Patching: stripping keeps every offset; an edit changes a text only where
      its anchor was found, and a second time not at all; what the trial showed
      is what is written; and whatever fails on the way, unless the rollback
      itself fails or the process is interrupted, the tree is the one before up
      to line ends and new directories.  The order of a patch set exists exactly
      when nothing is circular, depends only on the set, and is the least;
      an expansion is the closure of the request, and resolves.  What a source
      selects is one composition, closed under requirements and free of
      conflicts across its layers, each patch under the policy of its own set;
      it resolves again to itself, and its identity is written and read exactly.  What a probe
      proved clean applies cleanly, in the order it was probed in, also later and
      in a repository that has changed, as long as the report is found fresh; and
      a report is fresh as long as nothing changes.  The rounds that look for the
      good subset end, with one verdict for every patch and the reason for it.
      No application leaves a record with the evidence of another tree.
    - Campaigns: a pass executes each stage at most once, in an order that exists
      unless the graph is circular, after what it depends on and under its locks,
      and isolates what a stage raises; a plan is run lane by lane as it was
      asked for; what a stage returns is stored, verified and names the campaign,
      and what a run records is what its executor has.
    - Replay cache: the readers accept exactly the files that are laid out as
      stated and never look outside of them; each key keeps its newest
      generations, and records that disagree are refused; nothing is exported
      that did not pass the gates with evidence of its own binding; and what is
      exported is read back.
    Where the code does not do what it means to, an [Example] in the file shows
    the run that goes wrong.

    ** Fuel and bounds

    Loops whose end is not structural have fuel.  [Graph]: the number of
    operations bounds the rounds.  [Lineage]: a walk visits each recorded digest
    once.  [Retention.reach]: a run enters the frontier at most once, so the
    number of roots and runs is enough.  [Json.loads]: every call consumes a
    character.  [Patchset]: each round of the order takes one patch, and a
    search is never deeper than the catalog is large.  [Rebase]: each round that
    fails puts a patch out, each pass over the blocked ones blocks one, and the
    closure of a patch follows each requirement once.  [Campaign]: each round of
    the sorter gives out a node.  In each case the theorem states the result itself, not that a
    result would be right.

    ** Not modelled

    Host locks of the store, symbolic links outside [Quarantine], the text of
    messages that print a float, and the drivers of other programs: command
    lines, git, cmake, slurm, ssh, rocprof, HTTP servers; the workers of a
    stage and the execution of a lane are parameters.  The remaining
    tuning readers, the patch registry, which runs the patches' own Python code,
    experiment statistics and release drivers are not modelled. *)

From stdpp Require Export base strings gmap list sorting pretty.
From Stdlib Require Ascii String.
Export Ascii.AsciiSyntax.
Delimit Scope char_scope with char.
From Stdlib Require Export ZArith Lia.

#[global] Open Scope Z_scope.
#[global] Open Scope string_scope.
#[global] Open Scope list_scope.
#[global] Open Scope nat_scope.

(** * Results: Python's exceptions as values *)

(** A call that returns or raises.  [E] is the component's error type. *)
Inductive result (E A : Type) : Type :=
| Ok (a : A)
| Err (e : E).
Arguments Ok {E A} a.
Arguments Err {E A} e.

#[global] Instance result_ret {E} : MRet (result E) := fun A a => Ok a.
#[global] Instance result_bind {E} : MBind (result E) :=
  fun A B f m => match m with Ok a => f a | Err e => Err e end.
#[global] Instance result_fmap {E} : FMap (result E) :=
  fun A B f m => match m with Ok a => Ok (f a) | Err e => Err e end.

#[global] Instance result_eq_dec {E A} `{EqDecision E, EqDecision A} :
  EqDecision (result E A).
Proof. solve_decision. Defined.

(** [if not b: raise e] *)
Definition ensure {E} (b : bool) (e : E) : result E unit :=
  if b then Ok tt else Err e.

Definition is_ok {E A} (m : result E A) : bool :=
  match m with Ok _ => true | Err _ => false end.

Definition result_map_err {E F A} (f : E -> F) (m : result E A) : result F A :=
  match m with Ok a => Ok a | Err e => Err (f e) end.

(** [option] to [result]: a dictionary lookup that raises when it misses. *)
Definition of_option {E A} (e : E) (o : option A) : result E A :=
  match o with Some a => Ok a | None => Err e end.

(** A comprehension whose body may raise: the first failing element aborts. *)
Fixpoint mapR {E A B} (f : A -> result E B) (l : list A) : result E (list B) :=
  match l with
  | [] => Ok []
  | a :: l' => b ← f a; bs ← mapR f l'; Ok (b :: bs)
  end.

(** A loop over a state whose body may raise. *)
Fixpoint foldR {E A S} (f : S -> A -> result E S) (l : list A) (s : S) : result E S :=
  match l with
  | [] => Ok s
  | a :: l' => s' ← f s a; foldR f l' s'
  end.

Lemma bind_Ok {E A B} (m : result E A) (f : A -> result E B) b :
  (m ≫= f) = Ok b <-> exists a, m = Ok a /\ f a = Ok b.
Proof. destruct m; simpl; split; [by eauto | by intros (? & [= ->] & ?) | done | by intros (? & ? & ?)]. Qed.

Lemma ensure_Ok {E} b (e : E) u : ensure b e = Ok u <-> b = true.
Proof. destruct b, u; simpl; split; congruence. Qed.

Lemma of_option_Ok {E A} (e : E) (o : option A) a :
  of_option e o = Ok a <-> o = Some a.
Proof. destruct o; simpl; split; congruence. Qed.

Lemma mapR_Ok {E A B} (f : A -> result E B) l bs :
  mapR f l = Ok bs <-> Forall2 (fun a b => f a = Ok b) l bs.
Proof.
  revert bs; induction l as [|a l IH]; intros bs; simpl.
  - split; [intros [= <-]; constructor | inversion 1; done].
  - rewrite bind_Ok. split.
    + intros (b & Hb & (bs' & Hbs & [= <-])%bind_Ok).
      constructor; [done | by apply IH].
    + inversion 1 as [|? b ? bs' Hb Hbs]; subst. exists b. split; [done|].
      apply bind_Ok. exists bs'. split; [by apply IH | done].
Qed.

Lemma mapR_all_ok {E A B} (f : A -> result E B) (g : A -> B) l :
  (forall a, a ∈ l -> f a = Ok (g a)) -> mapR f l = Ok (g <$> l).
Proof.
  intros H. apply mapR_Ok. induction l as [|a l IH]; constructor.
  - apply H. left.
  - apply IH. intros. apply H. by right.
Qed.

(** Loop invariant rule for [foldR]. *)
Lemma foldR_ind {E A S} (P : S -> Prop) (f : S -> A -> result E S) l s s' :
  P s ->
  (forall s a s', a ∈ l -> P s -> f s a = Ok s' -> P s') ->
  foldR f l s = Ok s' -> P s'.
Proof.
  revert s; induction l as [|a l IH]; simpl; intros s Hs Hstep.
  - by intros [= <-].
  - intros (s1 & H1 & H2)%bind_Ok. eapply IH; [| |done].
    + eapply Hstep; [left | exact Hs | done].
    + intros. eapply Hstep; [by right | done | done].
Qed.

(** Boolean quantifiers over lists, by membership. *)
Lemma forallb_true {A} (f : A -> bool) l :
  forallb f l = true <-> forall x, x ∈ l -> f x = true.
Proof. rewrite forallb_forall. by setoid_rewrite list_elem_of_In. Qed.

Lemma existsb_true {A} (f : A -> bool) l :
  existsb f l = true <-> exists x, x ∈ l /\ f x = true.
Proof. rewrite existsb_exists. by setoid_rewrite list_elem_of_In. Qed.

Lemma forallb_false {A} (f : A -> bool) l :
  forallb f l = false <-> exists x, x ∈ l /\ f x = false.
Proof.
  split.
  - induction l as [|x l IH]; simpl; [done|]. intros H. destruct (f x) eqn:E.
    + destruct (IH H) as (y & ? & ?). exists y. split; [by right|done].
    + exists x. split; [left|done].
  - intros (x & Hx & Hf). apply not_true_iff_false. rewrite forallb_true. intros H.
    rewrite H in Hf; done.
Qed.

Lemma existsb_false {A} (f : A -> bool) l :
  existsb f l = false <-> forall x, x ∈ l -> f x = false.
Proof.
  rewrite <- not_true_iff_false, existsb_true. split.
  - intros H x Hx. apply not_true_iff_false. eauto.
  - intros H (x & Hx & Hf). rewrite H in Hf; done.
Qed.

(** [List.filter], the comprehension with a condition. *)
Lemma elem_of_filterb {A} (f : A -> bool) l x : x ∈ List.filter f l <-> x ∈ l /\ f x = true.
Proof. by rewrite !list_elem_of_In, filter_In. Qed.

Lemma filterb_nil {A} (f : A -> bool) l :
  List.filter f l = [] <-> forall x, x ∈ l -> f x = false.
Proof.
  split.
  - intros H x Hx. destruct (f x) eqn:E; [|done].
    assert (x ∈ List.filter f l) as Hin by (by apply elem_of_filterb). rewrite H in Hin.
    by apply elem_of_nil in Hin.
  - induction l as [|y l IH]; simpl; intros H; [done|]. rewrite (H y) by left.
    apply IH. intros x Hx. apply H. by right.
Qed.

Lemma filterb_all {A} (f : A -> bool) l : (forall x, x ∈ l -> f x = true) -> List.filter f l = l.
Proof.
  induction l as [|x l IH]; intros H; simpl; [done|].
  rewrite (H x) by left. f_equal. apply IH. intros y Hy. apply H. by right.
Qed.

Lemma filterb_sublist {A} (f : A -> bool) l : List.filter f l `sublist_of` l.
Proof. induction l as [|x l IH]; simpl; [constructor|]. destruct (f x); by constructor. Qed.

Lemma filterb_map {A B} (f : B -> bool) (g : A -> B) l :
  List.filter f (map g l) = map g (List.filter (fun x => f (g x)) l).
Proof. induction l as [|x l IH]; simpl; [done|]. rewrite IH. by destruct (f (g x)). Qed.

Lemma filterb_ext {A} (f g : A -> bool) l :
  (forall x, x ∈ l -> f x = g x) -> List.filter f l = List.filter g l.
Proof.
  induction l as [|x l IH]; simpl; intros H; [done|]. rewrite (H x) by left.
  rewrite IH; [done|]. intros y Hy. apply H. by right.
Qed.

#[global] Instance filterb_perm {A} (f : A -> bool) : Proper ((≡ₚ) ==> (≡ₚ)) (List.filter f).
Proof.
  induction 1 as [|x l k _ IH|x y l|l k m _ IH1 _ IH2]; simpl; [done| | |by etrans].
  - destruct (f x); [by f_equiv | done].
  - destruct (f x), (f y); try done. apply Permutation_swap.
Qed.

Lemma sublist_StronglySorted {A} (R : A -> A -> Prop) l k :
  l `sublist_of` k -> StronglySorted R k -> StronglySorted R l.
Proof.
  induction 1 as [|x l k Hs IH|x l k Hs IH]; intros Hk; [done| |].
  - apply StronglySorted_inv in Hk as [Hk Hx]. constructor; [by apply IH|].
    rewrite Forall_forall in *. intros y Hy. apply Hx. by eapply elem_of_sublist.
  - apply StronglySorted_inv in Hk as [Hk _]. by apply IH.
Qed.

Lemma sublist_map {A B} (f : A -> B) l k : l `sublist_of` k -> map f l `sublist_of` map f k.
Proof. induction 1; simpl; by constructor. Qed.

Lemma StronglySorted_map {A B} (f : A -> B) (R : B -> B -> Prop) l :
  StronglySorted (fun x y => R (f x) (f y)) l -> StronglySorted R (map f l).
Proof.
  induction 1 as [|x l Hl IH Hx]; simpl; constructor; [done|]. by apply Forall_map.
Qed.

(** [len(set(l)) == len(l)] *)
Lemma NoDup_omap_inj {A B} (f : A -> option B) (l : list A) :
  (forall x y z, x ∈ l -> y ∈ l -> f x = Some z -> f y = Some z -> x = y) ->
  NoDup l -> NoDup (omap f l).
Proof.
  intros Hinj Hnd. induction Hnd as [|x l Hx Hnd IH]; [constructor|]. simpl.
  assert (NoDup (omap f l)) as Hl.
  { apply IH. intros y y' z Hy Hy'. apply Hinj; by right. }
  destruct (f x) as [z|] eqn:E; [|done]. constructor; [|done].
  intros (y & Hy & Ey)%list_elem_of_omap. apply Hx.
  by rewrite (Hinj x y z (list_elem_of_here _ _) (list_elem_of_further _ _ _ Hy) E Ey).
Qed.

Lemma length_remove_dups_NoDup {A} `{EqDecision A} (l : list A) :
  length (remove_dups l) = length l <-> NoDup l.
Proof.
  assert (length (remove_dups l) <= length l) as Hle.
  { induction l as [|y l IH]; simpl; [lia|]. case_decide; simpl; lia. }
  split.
  - induction l as [|x l IH]; simpl; intros H; [constructor|].
    assert (length (remove_dups l) <= length l) as Hl.
    { clear. induction l as [|y l IH]; simpl; [lia|]. case_decide; simpl; lia. }
    case_decide; simpl in H; [lia|]. constructor; [done|]. apply IH; [done|lia].
  - intros Hn. clear Hle. induction Hn as [|x l Hx Hl IH]; simpl; [done|].
    case_decide; [done|]. simpl. by rewrite IH.
Qed.

(** * Tactics *)

(** Destructs binds, guards and option lookups of hypotheses [_ = Ok _]. *)
Ltac inv_ok :=
  repeat match goal with
  | H : (_ ≫= _) = Ok _ |- _ =>
      apply bind_Ok in H as (? & ? & H)
  | H : ensure _ _ = Ok _ |- _ => apply ensure_Ok in H
  | H : of_option _ _ = Ok _ |- _ => apply of_option_Ok in H
  | H : Ok _ = Ok _ |- _ => injection H as H; try subst
  | H : Err _ = Ok _ |- _ => discriminate H
  | u : unit |- _ => destruct u
  end.

(** Turns the boolean tests of the code into propositions. *)
Ltac bools :=
  repeat match goal with
  | H : andb _ _ = true |- _ => apply andb_true_iff in H as [? ?]
  | H : orb _ _ = false |- _ => apply orb_false_iff in H as [? ?]
  | H : negb _ = true |- _ => apply negb_true_iff in H
  | H : negb _ = false |- _ => apply negb_false_iff in H
  | H : bool_decide _ = true |- _ => apply bool_decide_eq_true in H
  | H : bool_decide _ = false |- _ => apply bool_decide_eq_false in H
  | H : (_ =? _)%Z = true |- _ => apply Z.eqb_eq in H
  | H : (_ =? _)%Z = false |- _ => apply Z.eqb_neq in H
  | H : (_ <? _)%Z = true |- _ => apply Z.ltb_lt in H
  | H : (_ <? _)%Z = false |- _ => apply Z.ltb_ge in H
  | H : (_ <=? _)%Z = true |- _ => apply Z.leb_le in H
  | H : (_ <=? _)%Z = false |- _ => apply Z.leb_gt in H
  | H : String.eqb _ _ = true |- _ => apply String.eqb_eq in H
  | H : String.eqb _ _ = false |- _ => apply String.eqb_neq in H
  end.

(** Case analysis on the innermost scrutinee of the goal or of a hypothesis. *)
Ltac case_scrutinee :=
  match goal with
  | |- context [match ?x with _ => _ end] =>
      lazymatch x with context [match _ with _ => _ end] => fail | _ => destruct x eqn:? end
  | _ : context [match ?x with _ => _ end] |- _ =>
      lazymatch x with context [match _ with _ => _ end] => fail | _ => destruct x eqn:? end
  end.

(** * Sorting: Python's [sorted] *)

(** A boolean total order, as [sorted] needs it of its keys. *)
Class TotalLeb {A} (leb : A -> A -> bool) : Prop := {
  leb_refl x : leb x x = true;
  leb_trans x y z : leb x y = true -> leb y z = true -> leb x z = true;
  leb_total x y : leb x y = true \/ leb y x = true;
}.

Class AntisymLeb {A} (leb : A -> A -> bool) : Prop :=
  leb_antisym x y : leb x y = true -> leb y x = true -> x = y.

Section Sort.
Context {A : Type} (leb : A -> A -> bool).

Fixpoint insert_sorted (x : A) (l : list A) : list A :=
  match l with
  | [] => [x]
  | y :: l' => if leb x y then x :: y :: l' else y :: insert_sorted x l'
  end.

(** [sorted]: insertion from the right keeps equal keys in their order, so
    it is stable as Python's sort is. *)
Definition py_sorted (l : list A) : list A := foldr insert_sorted [] l.

Definition leb_rel (x y : A) : Prop := leb x y = true.

Lemma insert_sorted_perm x l : insert_sorted x l ≡ₚ x :: l.
Proof.
  induction l as [|y l IH]; simpl; [done|].
  destruct (leb x y); [done|]. rewrite IH. apply Permutation_swap.
Qed.

Lemma py_sorted_perm l : py_sorted l ≡ₚ l.
Proof.
  induction l as [|x l IH]; simpl; [done|]. by rewrite insert_sorted_perm, IH.
Qed.

Lemma elem_of_py_sorted x l : x ∈ py_sorted l <-> x ∈ l.
Proof. by rewrite py_sorted_perm. Qed.

Lemma length_py_sorted l : length (py_sorted l) = length l.
Proof. by rewrite py_sorted_perm. Qed.

Lemma NoDup_py_sorted l : NoDup (py_sorted l) <-> NoDup l.
Proof. by rewrite py_sorted_perm. Qed.

Context `{Htot : !TotalLeb leb}.

Lemma insert_sorted_StronglySorted x l :
  StronglySorted leb_rel l -> StronglySorted leb_rel (insert_sorted x l).
Proof.
  induction 1 as [|y l Hl IH Hy]; simpl; [repeat constructor|].
  destruct (leb x y) eqn:E.
  - constructor; [by constructor|]. constructor; [done|].
    eapply Forall_impl; [exact Hy|]. intros z Hz. by eapply leb_trans.
  - constructor; [done|]. rewrite insert_sorted_perm. constructor; [|done].
    unfold leb_rel. destruct (leb_total x y); congruence.
Qed.

Lemma py_sorted_StronglySorted l : StronglySorted leb_rel (py_sorted l).
Proof.
  induction l; simpl; [constructor | by apply insert_sorted_StronglySorted].
Qed.

Lemma insert_sorted_head x l :
  Forall (leb_rel x) l -> insert_sorted x l = x :: l.
Proof. destruct 1 as [|y l Hy]; simpl; [done|]. by rewrite Hy. Qed.

(** Sorting a sorted list changes nothing. *)
Lemma py_sorted_id l : StronglySorted leb_rel l -> py_sorted l = l.
Proof.
  induction 1 as [|x l Hl IH Hx]; simpl; [done|].
  rewrite IH. by apply insert_sorted_head.
Qed.

Lemma py_sorted_idem l : py_sorted (py_sorted l) = py_sorted l.
Proof. apply py_sorted_id, py_sorted_StronglySorted. Qed.

Lemma StronglySorted_perm_eq `{!AntisymLeb leb} l k :
  StronglySorted leb_rel l -> StronglySorted leb_rel k -> l ≡ₚ k -> l = k.
Proof.
  intros Hl. revert k; induction Hl as [|x l Hl IH Hx]; intros k Hk Hp.
  - by apply Permutation_nil_l in Hp.
  - destruct Hk as [|y k Hk Hy]; [by apply Permutation_nil_r in Hp|].
    rewrite Forall_forall in Hx, Hy.
    assert (x = y) as <-.
    { assert (x ∈ y :: k) as Hxk by (rewrite <- Hp; left).
      assert (y ∈ x :: l) as Hyl by (rewrite Hp; left).
      apply elem_of_cons in Hxk as [->|Hxk]; [done|].
      apply elem_of_cons in Hyl as [->|Hyl]; [done|].
      apply leb_antisym; [by apply Hx | by apply Hy]. }
    f_equal. apply IH; [done|]. by apply (inj (cons x)).
Qed.

(** With an antisymmetric order the result depends on the elements only. *)
Lemma py_sorted_proper `{!AntisymLeb leb} l k : l ≡ₚ k -> py_sorted l = py_sorted k.
Proof.
  intros H. apply StronglySorted_perm_eq; try apply py_sorted_StronglySorted.
  by rewrite !py_sorted_perm.
Qed.
End Sort.
#[global] Instance py_sorted_Permutation_Proper {A} (leb : A -> A -> bool)
  `{!TotalLeb leb, !AntisymLeb leb} : Proper ((≡ₚ) ==> eq) (py_sorted leb).
Proof. intros l k ?. by apply py_sorted_proper. Qed.

(** Sorting commutes with a map that keeps the order of the keys. *)
Lemma py_sorted_map {A B} (la : A -> A -> bool) (lb : B -> B -> bool) (f : A -> B) l :
  (forall x y, lb (f x) (f y) = la x y) -> py_sorted lb (map f l) = map f (py_sorted la l).
Proof.
  intros H.
  assert (forall x k, insert_sorted lb (f x) (map f k) = map f (insert_sorted la x k)) as Hins.
  { intros x k; induction k as [|y k IH]; simpl; [done|]. rewrite H.
    destruct (la x y); simpl; [done|]. by rewrite IH. }
  induction l as [|x l IH]; simpl; [done|]. by rewrite IH, Hins.
Qed.

(** [sorted(..., key=f)] *)
Definition on_key {A B} (f : A -> B) (leb : B -> B -> bool) (x y : A) : bool :=
  leb (f x) (f y).

#[global] Instance on_key_total {A B} (f : A -> B) leb `{!TotalLeb leb} :
  TotalLeb (on_key f leb).
Proof.
  split; unfold on_key; intros.
  - apply leb_refl.
  - by eapply leb_trans.
  - apply leb_total.
Qed.

(** Elements with distinct keys come out in one order, whatever order they
    were put in. *)
Lemma py_sorted_key_perm {A B} (f : A -> B) (leb : B -> B -> bool)
    `{!TotalLeb leb, !AntisymLeb leb} (l k : list A) :
  NoDup (map f l) -> l ≡ₚ k -> py_sorted (on_key f leb) l = py_sorted (on_key f leb) k.
Proof.
  intros Hnd Hp.
  assert (py_sorted (on_key f leb) l ≡ₚ py_sorted (on_key f leb) k) as Hp'
    by (by rewrite !py_sorted_perm).
  pose proof (py_sorted_StronglySorted (on_key f leb) l) as H1.
  pose proof (py_sorted_StronglySorted (on_key f leb) k) as H2.
  assert (NoDup (map f (py_sorted (on_key f leb) l))) as Hn by (by rewrite py_sorted_perm).
  revert H1 H2 Hp' Hn. generalize (py_sorted (on_key f leb) l) (py_sorted (on_key f leb) k).
  clear Hnd Hp l k. intros l k Hl. revert k. induction Hl as [|x l Hl IH Hx]; intros k Hk Hp Hn.
  - by apply Permutation_nil_l in Hp.
  - destruct Hk as [|y k Hk Hy]; [by apply Permutation_nil_r in Hp|].
    rewrite Forall_forall in Hx, Hy. simpl in Hn. apply NoDup_cons in Hn as [Hnx Hn].
    assert (x = y) as <-.
    { assert (x ∈ y :: k) as Hxk by (rewrite <- Hp; left).
      assert (y ∈ x :: l) as Hyl by (rewrite Hp; left).
      apply elem_of_cons in Hxk as [->|Hxk]; [done|].
      apply elem_of_cons in Hyl as [->|Hyl]; [done|].
      exfalso. apply Hnx. specialize (Hx _ Hyl). specialize (Hy _ Hxk).
      rewrite (leb_antisym (f x) (f y)); [by apply list_elem_of_fmap_2 | done | done]. }
    f_equal. apply IH; [done | by apply (inj (cons x)) | done].
Qed.

(** * Strings *)

Lemma ascii_compare_refl a : Ascii.compare a a = Eq.
Proof. unfold Ascii.compare. apply N.compare_refl. Qed.

Lemma ascii_compare_eq a b : Ascii.compare a b = Eq <-> a = b.
Proof.
  split; [apply Ascii.compare_eq_iff | intros ->; apply ascii_compare_refl].
Qed.

Lemma ascii_compare_lt_trans a b c :
  Ascii.compare a b = Lt -> Ascii.compare b c = Lt -> Ascii.compare a c = Lt.
Proof. unfold Ascii.compare. rewrite !N.compare_lt_iff. lia. Qed.

Lemma str_compare_refl s : String.compare s s = Eq.
Proof. induction s as [|a s IH]; simpl; [done|]. by rewrite ascii_compare_refl. Qed.

Lemma str_compare_lt_trans s t u :
  String.compare s t = Lt -> String.compare t u = Lt -> String.compare s u = Lt.
Proof.
  revert t u; induction s as [|a s IH]; intros [|b t] [|c u]; simpl; try done.
  destruct (Ascii.compare a b) eqn:Eab, (Ascii.compare b c) eqn:Ebc; try done;
    try apply ascii_compare_eq in Eab as ->; try apply ascii_compare_eq in Ebc as ->;
    try rewrite ascii_compare_refl; rewrite ?Eab, ?Ebc; try done; try apply IH.
  by rewrite (ascii_compare_lt_trans _ _ _ Eab Ebc).
Qed.

#[global] Instance str_leb_total : TotalLeb String.leb.
Proof.
  split.
  - intros x. unfold String.leb. by rewrite str_compare_refl.
  - intros x y z. unfold String.leb.
    destruct (String.compare x y) eqn:E1, (String.compare y z) eqn:E2; try done; intros _ _.
    + apply String.compare_eq_iff in E1 as ->. apply String.compare_eq_iff in E2 as ->.
      by rewrite str_compare_refl.
    + apply String.compare_eq_iff in E1 as ->. by rewrite E2.
    + apply String.compare_eq_iff in E2 as ->. by rewrite E1.
    + by rewrite (str_compare_lt_trans _ _ _ E1 E2).
  - apply String.leb_total.
Qed.

#[global] Instance str_leb_antisym : AntisymLeb String.leb.
Proof. intros x y. apply String.leb_antisym. Qed.

#[global] Instance Z_leb_total : TotalLeb Z.leb.
Proof. split; intros; rewrite ?Z.leb_le in *; lia. Qed.

(** Tuple comparison, for keys that are tuples. *)
Definition lex_leb {A B} `{EqDecision A} (la : A -> A -> bool) (lb : B -> B -> bool)
    (p q : A * B) : bool :=
  if decide (p.1 = q.1) then lb p.2 q.2 else la p.1 q.1.

#[global] Instance lex_leb_total {A B} `{EqDecision A} (la : A -> A -> bool)
  (lb : B -> B -> bool) `{!TotalLeb la, !AntisymLeb la, !TotalLeb lb} :
  TotalLeb (lex_leb la lb).
Proof.
  split; unfold lex_leb.
  - intros [a b]; simpl. rewrite decide_True by done. apply leb_refl.
  - intros [a b] [a' b'] [a'' b'']; simpl; intros.
    repeat case_decide; subst; try done; try by eapply leb_trans.
    exfalso. eauto using leb_antisym.
  - intros [a b] [a' b']; simpl. repeat case_decide; subst; try done; apply leb_total.
Qed.

#[global] Instance lex_leb_antisym {A B} `{EqDecision A} (la : A -> A -> bool)
  (lb : B -> B -> bool) `{!AntisymLeb la, !AntisymLeb lb} :
  AntisymLeb (lex_leb la lb).
Proof.
  intros [a b] [a' b']; unfold lex_leb; simpl; intros.
  repeat case_decide; subst; try done; [f_equal; by apply leb_antisym|].
  exfalso. eauto using leb_antisym.
Qed.

(** Comparison of two tuples of the same element type, element by element. *)
Fixpoint list_leb {A} `{EqDecision A} (la : A -> A -> bool) (l k : list A) : bool :=
  match l, k with
  | [], _ => true
  | _ :: _, [] => false
  | x :: l', y :: k' => if decide (x = y) then list_leb la l' k' else la x y
  end.

#[global] Instance list_leb_total {A} `{EqDecision A} (la : A -> A -> bool)
  `{!TotalLeb la, !AntisymLeb la} : TotalLeb (list_leb la).
Proof.
  split.
  - intros l; induction l; simpl; [done|]. by rewrite decide_True.
  - intros l; induction l as [|x l IH]; intros [|y k] [|z m]; simpl; try done.
    repeat case_decide; subst; try done; try apply IH; try by eapply leb_trans.
    intros. exfalso. eauto using leb_antisym.
  - intros l; induction l as [|x l IH]; intros [|y k]; simpl; try by auto.
    destruct (decide (x = y)) as [->|Hne].
    + rewrite decide_True by done. apply IH.
    + rewrite decide_False by done. apply leb_total.
Qed.

#[global] Instance list_leb_antisym {A} `{EqDecision A} (la : A -> A -> bool)
  `{!AntisymLeb la} : AntisymLeb (list_leb la).
Proof.
  intros l; induction l as [|x l IH]; intros [|y k]; simpl; try done.
  repeat case_decide; subst; try done.
  - intros. f_equal. by apply IH.
  - intros. exfalso. eauto using leb_antisym.
Qed.

(** [tuple(sorted(set(xs)))] *)
Definition sorted_set (l : list string) : list string :=
  py_sorted String.leb (remove_dups l).

Lemma elem_of_sorted_set x l : x ∈ sorted_set l <-> x ∈ l.
Proof. unfold sorted_set. by rewrite elem_of_py_sorted, elem_of_remove_dups. Qed.

Lemma NoDup_sorted_set l : NoDup (sorted_set l).
Proof. apply NoDup_py_sorted, NoDup_remove_dups. Qed.

Lemma sorted_set_StronglySorted l : StronglySorted (leb_rel String.leb) (sorted_set l).
Proof. apply py_sorted_StronglySorted, _. Qed.

Lemma sorted_set_ext l k : (forall x, x ∈ l <-> x ∈ k) -> sorted_set l = sorted_set k.
Proof.
  intros H. unfold sorted_set. apply py_sorted_proper; try apply _.
  apply NoDup_Permutation; try apply NoDup_remove_dups.
  intros x. by rewrite !elem_of_remove_dups.
Qed.

Lemma sorted_set_idem l : sorted_set (sorted_set l) = sorted_set l.
Proof. apply sorted_set_ext. intros x. apply elem_of_sorted_set. Qed.

Lemma sorted_set_id l :
  StronglySorted (leb_rel String.leb) l -> NoDup l -> sorted_set l = l.
Proof.
  intros Hs Hn. apply (StronglySorted_perm_eq String.leb); [|done|].
  - apply sorted_set_StronglySorted.
  - apply NoDup_Permutation; [apply NoDup_sorted_set | done |]. intros x. apply elem_of_sorted_set.
Qed.

Lemma length_sorted_set_le l : length (sorted_set l) <= length l.
Proof.
  unfold sorted_set. rewrite length_py_sorted. induction l; simpl; [lia|].
  case_decide; simpl; lia.
Qed.

Lemma sorted_set_length_NoDup l : length (sorted_set l) = length l <-> NoDup l.
Proof.
  unfold sorted_set. rewrite length_py_sorted. split.
  - induction l as [|x l IH]; simpl; intros H; [constructor|].
    pose proof (length_sorted_set_le l) as Hle. unfold sorted_set in Hle.
    rewrite length_py_sorted in Hle.
    case_decide; simpl in H; [lia|]. constructor; [done | apply IH; lia].
  - induction 1 as [|x l Hx Hl IH]; simpl; [done|].
    case_decide; [done|]. simpl. by rewrite IH.
Qed.

(** [str.isspace] on the code points of a one-byte character. *)
Definition py_isspace (c : Ascii.ascii) : bool :=
  let n := Ascii.nat_of_ascii c in
  bool_decide (9 <= n <= 13) || bool_decide (28 <= n <= 32)
  || (n =? 133)%nat || (n =? 160)%nat.

Fixpoint lstrip (s : string) : string :=
  match s with
  | String c s' => if py_isspace c then lstrip s' else s
  | EmptyString => EmptyString
  end.

Fixpoint rstrip (s : string) : string :=
  match s with
  | EmptyString => EmptyString
  | String c s' =>
      match rstrip s' with
      | EmptyString => if py_isspace c then EmptyString else String c EmptyString
      | t => String c t
      end
  end.

(** [str.strip()] *)
Definition py_strip (s : string) : string := rstrip (lstrip s).

(** The truth value of a string. *)
Definition truthy (s : string) : bool := negb (String.eqb s "").

(** [not s.strip()] *)
Definition blank (s : string) : bool := String.eqb (py_strip s) "".

(** [any(ch.isspace() for ch in s)] *)
Fixpoint has_space (s : string) : bool :=
  match s with
  | EmptyString => false
  | String c s' => py_isspace c || has_space s'
  end.

(** [s.split(c)] on a one-character separator: never empty. *)
Fixpoint split_on (c : Ascii.ascii) (s : string) : list string :=
  match s with
  | EmptyString => [""]
  | String d s' =>
      if Ascii.eqb c d then "" :: split_on c s'
      else match split_on c s' with
           | w :: ws => String d w :: ws
           | [] => [String d ""]
           end
  end.

Fixpoint str_drop (n : nat) (s : string) : string :=
  match n, s with
  | S n', String _ s' => str_drop n' s'
  | _, _ => s
  end.

(** [s.startswith(p)] *)
Fixpoint startswith (p s : string) : bool :=
  match p, s with
  | EmptyString, _ => true
  | String c p', String d s' => Ascii.eqb c d && startswith p' s'
  | _, _ => false
  end.

Definition str_in (x : string) (l : list string) : bool := bool_decide (x ∈ l).

Lemma str_in_true x l : str_in x l = true <-> x ∈ l.
Proof. apply bool_decide_eq_true. Qed.

Lemma truthy_true s : truthy s = true <-> s <> "".
Proof. unfold truthy. rewrite negb_true_iff. apply String.eqb_neq. Qed.

(** * Paths, as their components *)

(** The directories above [p], the outermost first. *)
Fixpoint above (p : list string) : list (list string) :=
  match p with
  | [] | [_] => []
  | c :: p' => [c] :: map (cons c) (above p')
  end.

Lemma above_length p q : q ∈ above p -> length q < length p.
Proof.
  revert q. induction p as [|c p IH]; intros q H; [by apply elem_of_nil in H|].
  destruct p as [|d p]; [by apply elem_of_nil in H|].
  apply elem_of_cons in H as [->|H]; [simpl; lia|].
  apply list_elem_of_fmap in H as (q' & -> & Hq'). apply IH in Hq'. simpl in *. lia.
Qed.

Lemma above_ne p q : q ∈ above p -> q <> p.
Proof. intros Hq%above_length ->. lia. Qed.

(** * Optional fields *)

(** Python's [a or b] for an optional string. *)
Definition opt_or (o : option string) (d : string) : string :=
  match o with Some s => if truthy s then s else d | None => d end.

(** The truth value of an optional string. *)
Definition opt_truthy (o : option string) : bool :=
  match o with Some s => truthy s | None => false end.

(** * Decimal numbers *)

Definition digit_char (d : N) : Ascii.ascii := Ascii.ascii_of_N (48 + d).

(** Value of a decimal digit character. *)
Definition digit_val (c : Ascii.ascii) : option N :=
  let n := Ascii.N_of_ascii c in
  if ((48 <=? n) && (n <=? 57))%N then Some (n - 48)%N else None.

Fixpoint show_N_go (fuel : nat) (n : N) (acc : string) : string :=
  match fuel with
  | O => acc
  | S fuel' =>
      let acc' := String (digit_char (n mod 10)) acc in
      if (n <? 10)%N then acc' else show_N_go fuel' (n / 10) acc'
  end.

(** The decimal digits of [n]: a number has at most as many as it has bits. *)
Definition show_N (n : N) : string := show_N_go (S (N.to_nat (N.log2 n))) n "".

(** [str] of an integer. *)
Definition show_Z (z : Z) : string :=
  if (z <? 0)%Z then String (Ascii.ascii_of_nat 45) (show_N (Z.to_N (- z)))
  else show_N (Z.to_N z).

Definition show_nat (n : nat) : string := show_N (N.of_nat n).

(** Reads digits from the front of a text onto the number [k]. *)
Fixpoint read_digits (k : N) (s : string) : N * string :=
  match s with
  | EmptyString => (k, s)
  | String c s' =>
      match digit_val c with
      | Some d => read_digits (k * 10 + d) s'
      | None => (k, s)
      end
  end.

(** The text does not start with a digit. *)
Definition no_digit (s : string) : Prop :=
  match s with EmptyString => True | String c _ => digit_val c = None end.

Lemma digit_val_char d : (d < 10)%N -> digit_val (digit_char d) = Some d.
Proof.
  intros H. unfold digit_val, digit_char. rewrite Ascii.N_ascii_embedding by lia.
  destruct ((48 <=? 48 + d) && (48 + d <=? 57))%N eqn:E; [f_equal; lia|].
  apply andb_false_iff in E as [E|E]; [apply N.leb_gt in E | apply N.leb_gt in E]; lia.
Qed.

Lemma log2_div10 n : (10 <= n)%N -> (N.log2 (n / 10) < N.log2 n)%N.
Proof.
  intros H. assert (0 < n / 10)%N by (apply N.div_str_pos; lia).
  assert (2 * (n / 10) <= n)%N.
  { pose proof (N.mul_div_le n 10). lia. }
  apply N.log2_le_mono in H1. rewrite N.log2_double in H1 by done. lia.
Qed.

Lemma show_N_go_read fuel n acc k rest :
  N.to_nat (N.log2 n) < fuel ->
  exists m, read_digits k (show_N_go fuel n acc +:+ rest)
            = read_digits (k * 10 ^ m + n) (acc +:+ rest) /\ (n < 10 ^ m)%N.
Proof.
  revert n acc k; induction fuel as [|fuel IH]; intros n acc k Hf; [lia|].
  cbn [show_N_go]. destruct (N.ltb_spec n 10) as [Hlt|Hge].
  - exists 1%N. rewrite N.mod_small by done.
    change (String (digit_char n) acc +:+ rest) with (String (digit_char n) (acc +:+ rest)).
    cbn [read_digits]. rewrite digit_val_char by done. split; [f_equal; lia | lia].
  - pose proof (log2_div10 n Hge).
    destruct (IH (n / 10)%N (String (digit_char (n mod 10)) acc) k ltac:(lia)) as (m & Hm & Hb).
    exists (N.succ m). rewrite Hm. pose proof (N.mod_lt n 10 ltac:(done)).
    change (String (digit_char (n mod 10)) acc +:+ rest)
      with (String (digit_char (n mod 10)) (acc +:+ rest)).
    cbn [read_digits]. rewrite digit_val_char by done.
    rewrite N.pow_succ_r'. pose proof (N.div_mod n 10 ltac:(done)).
    split; [f_equal; lia | lia].
Qed.

(** Reading the digits that were printed gives the number back. *)
Lemma read_show_N n rest : no_digit rest -> read_digits 0 (show_N n +:+ rest) = (n, rest).
Proof.
  intros Hr. unfold show_N.
  destruct (show_N_go_read (S (N.to_nat (N.log2 n))) n "" 0 rest ltac:(lia)) as (m & -> & _).
  change ("" +:+ rest) with rest. rewrite N.mul_0_l, N.add_0_l.
  destruct rest as [|c rest]; [done|]. simpl in *. by rewrite Hr.
Qed.

Lemma str_app_nil_r (s : string) : s +:+ "" = s.
Proof. induction s as [|c s IH]; [done|]. change (String c (s +:+ "") = String c s). by rewrite IH. Qed.

Lemma str_app_assoc (s t u : string) : (s +:+ t) +:+ u = s +:+ (t +:+ u).
Proof.
  induction s as [|c s IH]; [done|].
  change (String c ((s +:+ t) +:+ u) = String c (s +:+ (t +:+ u))). by rewrite IH.
Qed.

Lemma str_app_cons c (s t : string) : String c s +:+ t = String c (s +:+ t).
Proof. done. Qed.

Lemma str_length_app (s t : string) :
  String.length (s +:+ t) = String.length s + String.length t.
Proof.
  induction s as [|c s IH]; [done|].
  change (S (String.length (s +:+ t)) = S (String.length s + String.length t)). by rewrite IH.
Qed.

Lemma str_concat_cons sep (x : string) l :
  String.concat sep (x :: l) = x +:+ (match l with [] => "" | _ => sep +:+ String.concat sep l end).
Proof. destruct l; simpl; [by rewrite str_app_nil_r | done]. Qed.

#[global] Instance show_N_inj : Inj (=) (=) show_N.
Proof.
  intros x y H. pose proof (read_show_N x "" I) as Hx. pose proof (read_show_N y "" I) as Hy.
  rewrite H in Hx. congruence.
Qed.

(** The first character of a printed number: a digit, and [0] only for zero. *)
Lemma show_N_go_head fuel n acc :
  N.to_nat (N.log2 n) < fuel ->
  exists d s, show_N_go fuel n acc = String (digit_char d) s /\ (d < 10)%N /\
              (n <> 0%N -> d <> 0%N) /\ (n = 0%N -> s = acc).
Proof.
  revert n acc; induction fuel as [|fuel IH]; intros n acc Hf; [lia|].
  cbn [show_N_go]. destruct (N.ltb_spec n 10) as [Hlt|Hge].
  - exists n, acc. rewrite N.mod_small by done. done.
  - pose proof (log2_div10 n Hge). assert (n / 10 <> 0)%N.
    { intros E. pose proof (N.div_mod n 10 ltac:(done)).
      pose proof (N.mod_lt n 10 ltac:(done)). lia. }
    destruct (IH (n / 10)%N (String (digit_char (n mod 10)) acc) ltac:(lia))
      as (d & s & -> & ? & ? & _).
    exists d, s. split_and!; [done | done | by auto | lia].
Qed.

Lemma show_N_head n :
  exists d s, show_N n = String (digit_char d) s /\ (d < 10)%N /\
              (n <> 0%N -> d <> 0%N) /\ (n = 0%N -> s = "").
Proof. apply show_N_go_head. lia. Qed.

#[global] Instance show_nat_inj : Inj (=) (=) show_nat.
Proof. intros x y H. apply (inj show_N) in H. lia. Qed.

#[global] Instance show_Z_inj : Inj (=) (=) show_Z.
Proof.
  assert (forall n m, show_N n <> String (Ascii.ascii_of_nat 45) (show_N m)) as Hne.
  { intros n m E. destruct (show_N_head n) as (d & s & Hd & Hlt & _).
    rewrite Hd in E. injection E as E _.
    assert (digit_val (digit_char d) = None) as Hv by (rewrite E; reflexivity).
    rewrite digit_val_char in Hv by done. done. }
  intros x y. unfold show_Z. destruct (Z.ltb_spec x 0), (Z.ltb_spec y 0); intros E.
  - injection E as E. apply (inj show_N) in E. lia.
  - by symmetry in E; apply Hne in E.
  - by apply Hne in E.
  - apply (inj show_N) in E. lia.
Qed.

(** [int(text)]: surrounding white space, an optional sign, digits with single
    underscores between them. *)
Fixpoint int_digits (k : N) (s : string) : option N :=
  match s with
  | EmptyString => Some k
  | String c s' =>
      match digit_val c with
      | Some d => int_digits (k * 10 + d) s'
      | None =>
          if Ascii.eqb c (Ascii.ascii_of_nat 95) then
            match s' with
            | String c' s'' =>
                match digit_val c' with
                | Some d => int_digits (k * 10 + d) s''
                | None => None
                end
            | EmptyString => None
            end
          else None
      end
  end.

Definition int_unsigned (s : string) : option N :=
  match s with
  | String c s' => match digit_val c with Some d => int_digits d s' | None => None end
  | EmptyString => None
  end.

Definition py_int (s : string) : option Z :=
  match py_strip s with
  | String c s' =>
      if Ascii.eqb c (Ascii.ascii_of_nat 45) then (fun n => - Z.of_N n)%Z <$> int_unsigned s'
      else if Ascii.eqb c (Ascii.ascii_of_nat 43) then Z.of_N <$> int_unsigned s'
      else Z.of_N <$> int_unsigned (String c s')
  | EmptyString => None
  end.

(** * Exceptions and their texts *)

(** A raised Python exception: its class and its message. *)
Record exn : Type := Exn { exn_class : string; exn_message : string }.

#[global] Instance exn_eq_dec : EqDecision exn.
Proof. solve_decision. Defined.

Definition ValueError (msg : string) : exn := Exn "ValueError" msg.
Definition KeyError (msg : string) : exn := Exn "KeyError" msg.

(** Every function of the model raises [exn]. *)
Abbreviation res := (result exn).

Definition dquote : string := String (Ascii.ascii_of_nat 34) "".
Definition newline : string := String (Ascii.ascii_of_nat 10) "".

Definition hexdigit (n : nat) : Ascii.ascii :=
  if (n <? 10)%nat then Ascii.ascii_of_nat (48 + n) else Ascii.ascii_of_nat (87 + n).

Definition hex2 (c : Ascii.ascii) : string :=
  let n := Ascii.nat_of_ascii c in
  String (hexdigit (n / 16)) (String (hexdigit (n mod 16)) "").

(** One character of [repr] of a string quoted with [q]. *)
Definition repr_char (q c : Ascii.ascii) : string :=
  let n := Ascii.nat_of_ascii c in
  if Ascii.eqb c q || (n =? 92)%nat then String (Ascii.ascii_of_nat 92) (String c "")
  else if (n =? 9)%nat then "\t" else if (n =? 10)%nat then "\n"
  else if (n =? 13)%nat then "\r"
  else if (n <? 32)%nat || bool_decide (127 <= n <= 160) || (n =? 173)%nat
  then "\x" +:+ hex2 c
  else String c "".

Fixpoint repr_chars (q : Ascii.ascii) (s : string) : string :=
  match s with
  | EmptyString => ""
  | String c s' => repr_char q c +:+ repr_chars q s'
  end.

Fixpoint str_has (c : Ascii.ascii) (s : string) : bool :=
  match s with
  | EmptyString => false
  | String d s' => Ascii.eqb c d || str_has c s'
  end.

(** [repr] of a string, the [!r] of a format string. *)
Definition py_repr (s : string) : string :=
  let sq := Ascii.ascii_of_nat 39 in
  let dq := Ascii.ascii_of_nat 34 in
  let q := if str_has sq s && negb (str_has dq s) then dq else sq in
  String q (repr_chars q s +:+ String q "").

(** [repr] of a list of strings. *)
Definition py_repr_list (l : list string) : string :=
  "[" +:+ String.concat ", " (py_repr <$> l) +:+ "]".

(** [str] and [repr] of a tuple of strings. *)
Definition py_repr_tuple (l : list string) : string :=
  match l with
  | [x] => "(" +:+ py_repr x +:+ ",)"
  | _ => "(" +:+ String.concat ", " (py_repr <$> l) +:+ ")"
  end.


(** * State and exceptions *)

(** A method that reads and writes an object's state and may raise; what it
    wrote before raising stays written. *)
Definition stm (S A : Type) : Type := S -> res A * S.

#[global] Instance stm_ret {S} : MRet (stm S) := fun A a s => (Ok a, s).
#[global] Instance stm_bind {S} : MBind (stm S) := fun A B f m s =>
  match m s with
  | (Ok a, s') => f a s'
  | (Err e, s') => (Err e, s')
  end.

Definition get {S} : stm S S := fun s => (Ok s, s).
Definition put {S} (s : S) : stm S unit := fun _ => (Ok tt, s).
Definition gets {S A} (f : S -> A) : stm S A := fun s => (Ok (f s), s).
Definition modify {S} (f : S -> S) : stm S unit := fun s => (Ok tt, f s).
Definition raise {S A} (e : exn) : stm S A := fun s => (Err e, s).
Definition lift {S A} (m : res A) : stm S A := fun s => (m, s).

(** [for a in l: body(a)] *)
Fixpoint iterM {S A} (body : A -> stm S unit) (l : list A) : stm S unit :=
  match l with
  | [] => mret tt
  | a :: l' => _ ← body a; iterM body l'
  end.

(** A comprehension whose body has effects. *)
Fixpoint mapM_st {S A B} (f : A -> stm S B) (l : list A) : stm S (list B) :=
  match l with
  | [] => mret []
  | a :: l' => b ← f a; bs ← mapM_st f l'; mret (b :: bs)
  end.

Lemma stm_bind_Ok {S A B} (m : stm S A) (f : A -> stm S B) s b s' :
  (m ≫= f) s = (Ok b, s') <-> exists a s1, m s = (Ok a, s1) /\ f a s1 = (Ok b, s').
Proof.
  unfold mbind, stm_bind. destruct (m s) as [[a|e] s1]; split.
  - by eauto.
  - by intros (? & ? & [= -> ->] & ?).
  - done.
  - by intros (? & ? & ? & ?).
Qed.

(** Invariant rule: a state predicate every step keeps is kept by the whole,
    also when it raises. *)
Definition keeps {S A} (P : S -> Prop) (m : stm S A) : Prop :=
  forall s r s', P s -> m s = (r, s') -> P s'.

Lemma keeps_ret {S A} (P : S -> Prop) (a : A) : keeps P (mret a).
Proof. by intros s r s' Hs [= <- <-]. Qed.

Lemma keeps_bind {S A B} (P : S -> Prop) (m : stm S A) (f : A -> stm S B) :
  keeps P m -> (forall a, keeps P (f a)) -> keeps P (m ≫= f).
Proof.
  intros Hm Hf s r s' Hs. unfold mbind, stm_bind.
  destruct (m s) as [[a|e] s1] eqn:E.
  - intros H. eapply Hf; [|exact H]. by eapply Hm.
  - intros [= <- <-]. by eapply Hm.
Qed.

Lemma keeps_gets {S A} (P : S -> Prop) (f : S -> A) : keeps P (gets f).
Proof. by intros s r s' Hs [= <- <-]. Qed.

Lemma keeps_get {S} (P : S -> Prop) : keeps P (get (S:=S)).
Proof. by intros s r s' Hs [= <- <-]. Qed.

Lemma keeps_raise {S A} (P : S -> Prop) e : keeps P (raise (A:=A) e).
Proof. by intros s r s' Hs [= <- <-]. Qed.

Lemma keeps_lift {S A} (P : S -> Prop) (m : res A) : keeps P (lift m).
Proof. by intros s r s' Hs [= <- <-]. Qed.

Lemma keeps_modify {S} (P : S -> Prop) f : (forall s, P s -> P (f s)) -> keeps P (modify f).
Proof. by intros H s r s' Hs [= <- <-]; apply H. Qed.

Lemma keeps_iterM {S A} (P : S -> Prop) (body : A -> stm S unit) l :
  (forall a, keeps P (body a)) -> keeps P (iterM body l).
Proof.
  intros H. induction l; simpl; [apply keeps_ret|]. by apply keeps_bind.
Qed.

(** The same for comprehensions. *)
Lemma keeps_mapM_st {S A B} (P : S -> Prop) (f : A -> stm S B) l :
  (forall a, keeps P (f a)) -> keeps P (mapM_st f l).
Proof.
  intros H. induction l; simpl; [apply keeps_ret|].
  apply keeps_bind; [apply H|intros b]. apply keeps_bind; [apply IHl|intros; apply keeps_ret].
Qed.

Lemma keeps_mapM_Forall {S A B} (P : S -> Prop) (f : A -> stm S B) l :
  Forall (fun a => keeps P (f a)) l -> keeps P (mapM_st f l).
Proof.
  induction 1 as [|a l Ha Hl IH]; simpl; [apply keeps_ret|].
  apply keeps_bind; [exact Ha|intros b]. apply keeps_bind; [exact IH|intros; apply keeps_ret].
Qed.

(** Triples: what holds before, and what holds after of result and state. *)
Definition hoare {S A} (P : S -> Prop) (m : stm S A) (Q : res A -> S -> Prop) : Prop :=
  forall s r s', P s -> m s = (r, s') -> Q r s'.

Lemma hoare_bind {S A B} (P : S -> Prop) (m : stm S A) (f : A -> stm S B) Q R :
  hoare P m Q -> (forall a, hoare (Q (Ok a)) (f a) R) -> (forall e s, Q (Err e) s -> R (Err e) s) ->
  hoare P (m ≫= f) R.
Proof.
  intros Hm Hf He s r s' Hs. unfold mbind, stm_bind.
  destruct (m s) as [[a|e] s1] eqn:E; pose proof (Hm _ _ _ Hs E) as HQ.
  - by apply Hf.
  - intros [= <- <-]. by apply He.
Qed.

Lemma hoare_weaken {S A} (P P' : S -> Prop) (m : stm S A) (Q Q' : res A -> S -> Prop) :
  hoare P m Q -> (forall s, P' s -> P s) -> (forall r s, Q r s -> Q' r s) -> hoare P' m Q'.
Proof. intros H HP HQ s r s' Hs E. by eapply HQ, H; [apply HP|]. Qed.

Lemma hoare_pure {S A} (F : Prop) (P : S -> Prop) (m : stm S A) Q :
  (F -> hoare P m Q) -> hoare (fun s => F /\ P s) m Q.
Proof. intros H s r s' [HF Hs]. by apply H. Qed.

Lemma hoare_keeps {S A} (P : S -> Prop) (m : stm S A) : keeps P m -> hoare P m (fun _ => P).
Proof. intros H s r s'. apply H. Qed.

Lemma keeps_hoare {S A} (P : S -> Prop) (m : stm S A) Q :
  hoare P m Q -> (forall r s, Q r s -> P s) -> keeps P m.
Proof. intros H HQ s r s' Hs E. by eapply HQ, H. Qed.

Lemma hoare_bind_lift {S A B} (P : S -> Prop) (a : A) (f : A -> stm S B) Q :
  hoare P (f a) Q -> hoare P (lift (Ok a) ≫= f) Q.
Proof. done. Qed.

(** A pure part that may raise. *)
Lemma hoare_lift {S A B} (P : S -> Prop) (m : res A) (f : A -> stm S B) Q :
  (forall a, m = Ok a -> hoare P (f a) Q) -> (forall e s, m = Err e -> P s -> Q (Err e) s) ->
  hoare P (lift m ≫= f) Q.
Proof.
  intros Hf He s r s' Hs. unfold mbind, stm_bind, lift.
  destruct m as [a|e]; [by apply Hf|]. intros [= <- <-]. by apply He.
Qed.

(** A part that keeps the precondition, its result not looked at. *)
Lemma hoare_skip {S A B} (P : S -> Prop) (m : stm S A) (f : A -> stm S B) (Q : res B -> S -> Prop) :
  keeps P m -> (forall a, hoare P (f a) Q) -> (forall e s, P s -> Q (Err e) s) -> hoare P (m ≫= f) Q.
Proof. intros Hm Hf He. apply (hoare_bind _ _ _ (fun _ => P)); [by apply hoare_keeps|done|done]. Qed.

Create HintDb keeps.
#[global] Hint Resolve keeps_ret keeps_gets keeps_get keeps_raise keeps_lift keeps_bind
  keeps_iterM keeps_mapM_st : keeps.

(** Take a method apart down to its primitive steps. *)
Ltac keeps_step :=
  lazymatch goal with
  | |- keeps _ (mret _) => apply keeps_ret
  | |- keeps _ (raise _) => apply keeps_raise
  | |- keeps _ (lift _) => apply keeps_lift
  | |- keeps _ get => apply keeps_get
  | |- keeps _ (gets _) => apply keeps_gets
  | |- keeps _ (_ ≫= _) => apply keeps_bind; [|intros ?]
  | |- keeps _ (iterM _ _) => apply keeps_iterM; intros ?
  | |- keeps _ (mapM_st _ _) => apply keeps_mapM_st; intros ?
  | |- keeps _ (match ?x with _ => _ end) => destruct x
  end.
