(* ===== verification/Json.v ===== *)
(** JSON values, their canonical text and its reader, and the digest taken of
    them: [canonical_bytes] and [digest] of [src/tools/bigcherry/jobs/model.py],
    and what the source uses of Python's [json] and of [str], [int] and [bool]
    on decoded values.

    Strings hold code points below 256; the canonical text is ASCII. *)

From S2P Require Import Prelude.

Module Json.

Inductive json : Type :=
| JNull
| JBool (b : bool)
| JInt (z : Z)
| JFloat (repr : string)     (**r a float, by the text Python prints for it *)
| JStr (s : string)
| JArr (l : list json)
| JObj (o : list (string * json)).

(** Induction that reaches the elements of arrays and objects. *)
Section json_ind.
Variable P : json -> Prop.
Hypothesis Hnull : P JNull.
Hypothesis Hbool : forall b, P (JBool b).
Hypothesis Hint : forall z, P (JInt z).
Hypothesis Hfloat : forall r, P (JFloat r).
Hypothesis Hstr : forall s, P (JStr s).
Hypothesis Harr : forall l, Forall P l -> P (JArr l).
Hypothesis Hobj : forall o, Forall (fun kv => P kv.2) o -> P (JObj o).

Fixpoint json_ind' (v : json) : P v :=
  match v with
  | JNull => Hnull
  | JBool b => Hbool b
  | JInt z => Hint z
  | JFloat r => Hfloat r
  | JStr s => Hstr s
  | JArr l => Harr l ((fix go (l : list json) : Forall P l :=
      match l with
      | [] => Forall_nil_2 P
      | x :: l' => Forall_cons_2 P x l' (json_ind' x) (go l')
      end) l)
  | JObj o => Hobj o ((fix go (o : list (string * json)) : Forall (fun kv => P kv.2) o :=
      match o with
      | [] => Forall_nil_2 _
      | kv :: o' => Forall_cons_2 (fun kv => P kv.2) kv o' (json_ind' kv.2) (go o')
      end) o)
  end.
End json_ind.

(** ** The canonical text: [json.dumps(v, sort_keys=True, separators=(",", ":"),
    ensure_ascii=True)] *)

Definition backslash : Ascii.ascii := Ascii.ascii_of_nat 92.
Definition quote : Ascii.ascii := Ascii.ascii_of_nat 34.

Definition esc_char (c : Ascii.ascii) : string :=
  let n := Ascii.nat_of_ascii c in
  if (n =? 34)%nat || (n =? 92)%nat then String backslash (String c "")
  else if (n =? 8)%nat then String backslash "b"
  else if (n =? 9)%nat then String backslash "t"
  else if (n =? 10)%nat then String backslash "n"
  else if (n =? 12)%nat then String backslash "f"
  else if (n =? 13)%nat then String backslash "r"
  else if bool_decide (32 <= n <= 126) then String c ""
  else String backslash ("u00" +:+ hex2 c).

Fixpoint esc (s : string) : string :=
  match s with
  | EmptyString => ""
  | String c s' => esc_char c +:+ esc s'
  end.

Definition dumps_str (s : string) : string := String quote (esc s +:+ String quote "").

Definition by_key {A} : (string * A) -> (string * A) -> bool := on_key fst String.leb.

Definition member_text (kv : string * string) : string := dumps_str kv.1 +:+ ":" +:+ kv.2.

Fixpoint dumps (v : json) : string :=
  match v with
  | JNull => "null"
  | JBool b => if b then "true" else "false"
  | JInt z => show_Z z
  | JFloat r => r
  | JStr s => dumps_str s
  | JArr l => "[" +:+ String.concat "," (map dumps l) +:+ "]"
  | JObj o =>
      "{" +:+ String.concat ","
        (map member_text (py_sorted by_key (map (fun kv => (kv.1, dumps kv.2)) o))) +:+ "}"
  end.

(** ** Reading: [json.loads] *)

Definition json_ws (c : Ascii.ascii) : bool :=
  let n := Ascii.nat_of_ascii c in
  (n =? 32)%nat || (n =? 9)%nat || (n =? 10)%nat || (n =? 13)%nat.

Fixpoint skip_ws (s : string) : string :=
  match s with
  | String c s' => if json_ws c then skip_ws s' else s
  | EmptyString => s
  end.

Definition hex_val (c : Ascii.ascii) : option nat :=
  let n := Ascii.nat_of_ascii c in
  if bool_decide (48 <= n <= 57) then Some (n - 48)
  else if bool_decide (97 <= n <= 102) then Some (n - 87)
  else if bool_decide (65 <= n <= 70) then Some (n - 55)
  else None.

(** The character that an escape letter stands for. *)
Definition unescape (c : Ascii.ascii) : option Ascii.ascii :=
  match Ascii.nat_of_ascii c with
  | 34 => Some quote | 92 => Some backslash | 47 => Some c
  | 98 => Some (Ascii.ascii_of_nat 8) | 102 => Some (Ascii.ascii_of_nat 12)
  | 110 => Some (Ascii.ascii_of_nat 10) | 114 => Some (Ascii.ascii_of_nat 13)
  | 116 => Some (Ascii.ascii_of_nat 9) | _ => None
  end.

(** The rest of a string literal, after its opening quote: [None] when it is
    not closed, has a control character or an escape that is not one (or names
    a code point the model has no character for). *)
Fixpoint read_string (s : string) : option (string * string) :=
  match s with
  | EmptyString => None
  | String c s' =>
      let n := Ascii.nat_of_ascii c in
      if (n =? 34)%nat then Some ("", s')
      else if (n =? 92)%nat then
        match s' with
        | EmptyString => None
        | String e s'' =>
            if (Ascii.nat_of_ascii e =? 117)%nat then
              match s'' with
              | String a (String b (String c1 (String d r))) =>
                  match hex_val a, hex_val b, hex_val c1, hex_val d with
                  | Some 0, Some 0, Some h, Some l =>
                      '(t, rest) ← read_string r;
                      Some (String (Ascii.ascii_of_nat (h * 16 + l)) t, rest)
                  | _, _, _, _ => None
                  end
              | _ => None
              end
            else
              u ← unescape e;
              '(t, rest) ← read_string s''; Some (String u t, rest)
        end
      else if (n <? 32)%nat then None
      else '(t, rest) ← read_string s'; Some (String c t, rest)
  end.

(** The digits at the front of a text, and what follows them. *)
Fixpoint span_digits (s : string) : string * string :=
  match s with
  | String c s' =>
      match digit_val c with
      | Some _ => let '(ds, r) := span_digits s' in (String c ds, r)
      | None => ("", s)
      end
  | EmptyString => ("", "")
  end.

(** A fraction, or nothing when none is well formed. *)
Definition read_frac (s : string) : string * string :=
  match s with
  | String c s' =>
      if (Ascii.nat_of_ascii c =? 46)%nat then
        let '(ds, r) := span_digits s' in
        if String.eqb ds "" then ("", s) else (String c ds, r)
      else ("", s)
  | EmptyString => ("", s)
  end.

Definition read_exp (s : string) : string * string :=
  match s with
  | String c s' =>
      let n := Ascii.nat_of_ascii c in
      if (n =? 101)%nat || (n =? 69)%nat then
        let '(sign, s'') :=
          match s' with
          | String d t =>
              let m := Ascii.nat_of_ascii d in
              if (m =? 43)%nat || (m =? 45)%nat then (String d "", t) else ("", s')
          | EmptyString => ("", s')
          end in
        let '(ds, r) := span_digits s'' in
        if String.eqb ds "" then ("", s) else (String c (sign +:+ ds), r)
      else ("", s)
  | EmptyString => ("", s)
  end.

(** A number: the longest prefix that is one; no leading zeros. *)
Definition read_unsigned (s : string) : option (N * string * string) :=
  match s with
  | String c s' =>
      match digit_val c with
      | Some 0%N => Some (0%N, String c "", s')
      | Some d => let '(n, r) := read_digits d s' in
                  Some (n, String c (span_digits s').1, r)
      | None => None
      end
  | EmptyString => None
  end.

Definition read_number (s : string) : option (json * string) :=
  let '(neg, body) := match s with
    | String c s' => if (Ascii.nat_of_ascii c =? 45)%nat then (true, s') else (false, s)
    | EmptyString => (false, s) end in
  '(n, text, r) ← read_unsigned body;
  let '(frac, r1) := read_frac r in
  let '(ex, r2) := read_exp r1 in
  if String.eqb frac "" && String.eqb ex "" then
    Some (JInt (if neg then - Z.of_N n else Z.of_N n)%Z, r2)
  else Some (JFloat ((if neg then "-" else "") +:+ text +:+ frac +:+ ex), r2).

(** [dict(pairs)]: a repeated key keeps its place and takes the last value. *)
Fixpoint dict_set {A} (d : list (string * A)) (k : string) (v : A) : list (string * A) :=
  match d with
  | [] => [(k, v)]
  | (k', v') :: d' => if String.eqb k k' then (k', v) :: d' else (k', v') :: dict_set d' k v
  end.

Definition dict_of_pairs {A} (l : list (string * A)) : list (string * A) :=
  fold_left (fun d kv => dict_set d kv.1 kv.2) l [].

(** Recursive descent; every call consumes a character, so the length of the
    text is fuel enough. *)
Fixpoint read_value (fuel : nat) (s : string) : option (json * string) :=
  match fuel with
  | O => None
  | S n =>
      let s := skip_ws s in
      if startswith "null" s then Some (JNull, str_drop 4 s)
      else if startswith "true" s then Some (JBool true, str_drop 4 s)
      else if startswith "false" s then Some (JBool false, str_drop 5 s)
      else if startswith "NaN" s then Some (JFloat "nan", str_drop 3 s)
      else if startswith "Infinity" s then Some (JFloat "inf", str_drop 8 s)
      else if startswith "-Infinity" s then Some (JFloat "-inf", str_drop 9 s)
      else
        match s with
        | EmptyString => None
        | String c s' =>
            match Ascii.nat_of_ascii c with
            | 34 => '(t, r) ← read_string s'; Some (JStr t, r)
            | 91 => match skip_ws s' with
                    | String "]"%char r => Some (JArr [], r)
                    | _ => '(l, r) ← read_elements n s'; Some (JArr l, r)
                    end
            | 123 => match skip_ws s' with
                     | String "}"%char r => Some (JObj [], r)
                     | _ => '(o, r) ← read_members n s'; Some (JObj (dict_of_pairs o), r)
                     end
            | _ => read_number s
            end
        end
  end
with read_elements (fuel : nat) (s : string) : option (list json * string) :=
  match fuel with
  | O => None
  | S n =>
      '(v, r) ← read_value n s;
      match skip_ws r with
      | String "]"%char r' => Some ([v], r')
      | String ","%char r' => '(l, r'') ← read_elements n r'; Some (v :: l, r'')
      | _ => None
      end
  end
with read_members (fuel : nat) (s : string) : option (list (string * json) * string) :=
  match fuel with
  | O => None
  | S n =>
      match skip_ws s with
      | String q s' =>
          if Ascii.eqb q quote then
            '(k, r) ← read_string s';
            match skip_ws r with
            | String ":"%char r1 =>
                '(v, r2) ← read_value n r1;
                match skip_ws r2 with
                | String "}"%char r3 => Some ([(k, v)], r3)
                | String ","%char r3 => '(o, r4) ← read_members n r3; Some ((k, v) :: o, r4)
                | _ => None
                end
            | _ => None
            end
          else None
      | EmptyString => None
      end
  end.

Definition loads (s : string) : option json :=
  '(v, r) ← read_value (S (2 * String.length s)) s;
  if String.eqb (skip_ws r) "" then Some v else None.

(** ** Decoded objects *)

(** [dict.get(key)] *)
Fixpoint jget {A} (o : list (string * A)) (k : string) : option A :=
  match o with
  | [] => None
  | (k', v) :: o' => if String.eqb k k' then Some v else jget o' k
  end.

Definition jremove {A} (o : list (string * A)) (k : string) : list (string * A) :=
  List.filter (fun kv => negb (String.eqb k kv.1)) o.

(** Truth value. *)
Definition jtruthy (v : json) : bool :=
  match v with
  | JNull => false
  | JBool b => b
  | JInt z => negb (z =? 0)%Z
  | JFloat r => negb (existsb (String.eqb r) ["0.0"; "-0.0"])
  | JStr s => truthy s
  | JArr l => match l with [] => false | _ => true end
  | JObj o => match o with [] => false | _ => true end
  end.

(** [repr(v)] *)
Fixpoint jrepr (v : json) : string :=
  match v with
  | JNull => "None"
  | JBool b => if b then "True" else "False"
  | JInt z => show_Z z
  | JFloat r => r
  | JStr s => py_repr s
  | JArr l => "[" +:+ String.concat ", " (map jrepr l) +:+ "]"
  | JObj o =>
      "{" +:+ String.concat ", " (map (fun kv => py_repr kv.1 +:+ ": " +:+ jrepr kv.2) o) +:+ "}"
  end.

(** [str(v)] *)
Definition jstr (v : json) : string :=
  match v with JStr s => s | _ => jrepr v end.

(** Python's dictionary equality: the same keys with equal values, whatever
    their order; and [True == 1]. *)
Fixpoint sort_keys (v : json) : json :=
  match v with
  | JArr l => JArr (map sort_keys l)
  | JObj o => JObj (py_sorted by_key (map (fun kv => (kv.1, sort_keys kv.2)) o))
  | _ => v
  end.

(** ** Lemmas *)

Lemma by_key_map {A B} (f : A -> B) (o : list (string * A)) :
  py_sorted by_key (map (fun kv => (kv.1, f kv.2)) o)
  = map (fun kv => (kv.1, f kv.2)) (py_sorted by_key o).
Proof. by apply py_sorted_map. Qed.

Lemma dumps_obj o :
  dumps (JObj o) = "{" +:+ String.concat ","
    (map (fun kv => dumps_str kv.1 +:+ ":" +:+ dumps kv.2) (py_sorted by_key o)) +:+ "}".
Proof. simpl. by rewrite by_key_map, map_map. Qed.

Lemma sort_keys_obj o :
  sort_keys (JObj o) = JObj (map (fun kv => (kv.1, sort_keys kv.2)) (py_sorted by_key o)).
Proof. simpl. by rewrite by_key_map. Qed.

(** A decoded document without floats: the keys of an object are distinct. *)
Fixpoint jwf (v : json) : Prop :=
  match v with
  | JFloat _ => False
  | JArr l => (fix all l := match l with [] => True | x :: l' => jwf x /\ all l' end) l
  | JObj o => NoDup (map fst o) /\
      (fix all o := match o with [] => True | kv :: o' => jwf kv.2 /\ all o' end) o
  | _ => True
  end.

Lemma jwf_arr l : jwf (JArr l) <-> Forall jwf l.
Proof. simpl. induction l as [|x l IH]; [by split|]. rewrite Forall_cons, <- IH. done. Qed.

Lemma jwf_obj o : jwf (JObj o) <-> NoDup (map fst o) /\ Forall (fun kv => jwf kv.2) o.
Proof.
  simpl. apply and_iff_compat_l. induction o as [|x o IH]; [by split|].
  rewrite Forall_cons, <- IH. done.
Qed.

(** Fuel that reading a printed value takes. *)
Fixpoint jsize (v : json) : nat :=
  match v with
  | JArr l => S (list_sum (map (fun x => S (jsize x)) l))
  | JObj o => S (list_sum (map (fun kv => S (jsize kv.2)) o))
  | _ => 1
  end.

Definition delim (s : string) : Prop :=
  match s with
  | EmptyString => True
  | String c _ => c = ","%char \/ c = "]"%char \/ c = "}"%char \/ c = Ascii.ascii_of_nat 10
  end.

Lemma delim_no_digit s : delim s -> no_digit s.
Proof. destruct s as [|c s]; [done|]. by intros [->|[->|[->| ->]]]. Qed.

Lemma delim_number s : delim s -> read_frac s = ("", s) /\ read_exp s = ("", s).
Proof. destruct s as [|c s]; [done|]. by intros [->|[->|[->| ->]]]. Qed.

Lemma read_string_esc c t :
  read_string (esc_char c +:+ t) = '(u, r) ← read_string t; Some (String c u, r).
Proof.
  assert (forall s, String c "" +:+ s = String c s) by done.
  destruct c as [[] [] [] [] [] [] [] []]; reflexivity.
Qed.

Lemma read_string_dumps s rest :
  read_string (esc s +:+ String quote rest) = Some (s, rest).
Proof.
  induction s as [|c s IH]; [done|].
  change (esc (String c s)) with (esc_char c +:+ esc s).
  rewrite str_app_assoc, read_string_esc, IH. done.
Qed.

Lemma dumps_str_app s rest :
  dumps_str s +:+ rest = String quote (esc s +:+ String quote rest).
Proof. unfold dumps_str. by rewrite str_app_cons, str_app_assoc. Qed.

Lemma read_unsigned_show n rest :
  delim rest -> exists text, read_unsigned (show_N n +:+ rest) = Some (n, text, rest).
Proof.
  intros Hr. pose proof (read_show_N n rest (delim_no_digit _ Hr)) as Hread.
  destruct (show_N_head n) as (d & s & Hs & Hd & Hnz & Hz). rewrite Hs in *.
  rewrite str_app_cons in *. cbn [read_digits read_unsigned] in *.
  rewrite digit_val_char in * by done. change (0 * 10 + d)%N with d in Hread.
  destruct d as [|p].
  - assert (n = 0%N) as ->. { destruct (N.eq_dec n 0); [done|]. by apply Hnz in n0. }
    rewrite Hz by done. eauto.
  - rewrite Hread. eauto.
Qed.

Lemma read_number_show z rest :
  delim rest -> read_number (show_Z z +:+ rest) = Some (JInt z, rest).
Proof.
  intros Hr. destruct (delim_number _ Hr) as [Hf He]. unfold show_Z, read_number.
  destruct (Z.ltb_spec z 0).
  - rewrite str_app_cons. change (Ascii.nat_of_ascii (Ascii.ascii_of_nat 45) =? 45)%nat with true.
    cbv iota. destruct (read_unsigned_show (Z.to_N (- z)) rest Hr) as (t & ->). simpl.
    rewrite Hf, He. simpl. do 3 f_equal. lia.
  - destruct (show_N_head (Z.to_N z)) as (d & s & Hs & Hd & _).
    destruct (read_unsigned_show (Z.to_N z) rest Hr) as (t & Ht).
    rewrite Hs, str_app_cons in *.
    assert ((Ascii.nat_of_ascii (digit_char d) =? 45)%nat = false) as ->.
    { apply Nat.eqb_neq. unfold digit_char. unfold Ascii.nat_of_ascii.
      rewrite Ascii.N_ascii_embedding by lia. lia. }
    rewrite Ht. simpl. rewrite Hf, He. simpl. do 3 f_equal. lia.
Qed.

Lemma digit_cases (Q : Ascii.ascii -> Prop) :
  Q "0"%char -> Q "1"%char -> Q "2"%char -> Q "3"%char -> Q "4"%char ->
  Q "5"%char -> Q "6"%char -> Q "7"%char -> Q "8"%char -> Q "9"%char ->
  forall d, (d < 10)%N -> Q (digit_char d).
Proof.
  intros; assert (d = 0 \/ d = 1 \/ d = 2 \/ d = 3 \/ d = 4 \/ d = 5 \/ d = 6 \/ d = 7
    \/ d = 8 \/ d = 9)%N as Hd by lia.
  by repeat destruct Hd as [->|Hd]; [..|rewrite Hd].
Qed.

(** A printed integer starts with a digit, or with a sign and a digit. *)
Lemma show_Z_head z :
  exists d s, (d < 10)%N /\
    (show_Z z = String (digit_char d) s \/ show_Z z = String "-" (String (digit_char d) s)).
Proof.
  unfold show_Z. destruct (z <? 0)%Z.
  - destruct (show_N_head (Z.to_N (- z))) as (d & s & -> & ? & _). exists d, s. by auto.
  - destruct (show_N_head (Z.to_N z)) as (d & s & -> & ? & _). exists d, s. by auto.
Qed.

Lemma read_value_int n z rest :
  delim rest -> read_value (S n) (show_Z z +:+ rest) = Some (JInt z, rest).
Proof.
  intros Hr. rewrite <- (read_number_show z rest Hr).
  destruct (show_Z_head z) as (d & s & Hd & [E|E]); rewrite E, ?str_app_cons; clear E.
  - refine (digit_cases (fun c => read_value (S n) (String c (s +:+ rest))
              = read_number (String c (s +:+ rest))) _ _ _ _ _ _ _ _ _ _ d Hd); reflexivity.
  - refine (digit_cases (fun c => read_value (S n) (String "-" (String c (s +:+ rest)))
              = read_number (String "-" (String c (s +:+ rest)))) _ _ _ _ _ _ _ _ _ _ d Hd);
      reflexivity.
Qed.

(** The first character of a printed value is not white space and closes nothing. *)
Lemma dumps_head v :
  jwf v -> exists c s, dumps v = String c s /\ json_ws c = false /\ c <> "]"%char /\ c <> "}"%char.
Proof.
  assert (forall t, json_ws t = false /\ t <> "]"%char /\ t <> "}"%char ->
    forall s, exists c s', String t s = String c s' /\ json_ws c = false /\ c <> "]"%char
      /\ c <> "}"%char) as Hc by (intros; naive_solver).
  destruct v as [|[]|z|r|s|l|o]; simpl; intros Hwf; try done; try (by apply Hc).
  destruct (show_Z_head z) as (d & s & Hd & [-> | ->]); apply Hc; [|by split].
  by refine (digit_cases (fun t => json_ws t = false /\ t <> "]"%char /\ t <> "}"%char)
              _ _ _ _ _ _ _ _ _ _ d Hd).
Qed.

Lemma skip_ws_head c s : json_ws c = false -> skip_ws (String c s) = String c s.
Proof. intros H. simpl. by rewrite H. Qed.

Definition reads_back (v : json) : Prop :=
  jwf v -> forall n rest, delim rest -> jsize v <= n ->
    read_value n (dumps v +:+ rest) = Some (sort_keys v, rest).

Lemma jsize_pos v : 1 <= jsize v.
Proof. destruct v; simpl; lia. Qed.

Lemma read_elements_back l n rest :
  Forall reads_back l -> Forall jwf l -> l <> [] -> delim rest ->
  list_sum (map (fun x => S (jsize x)) l) <= n ->
  read_elements n (String.concat "," (map dumps l) +:+ String "]" rest)
  = Some (map sort_keys l, rest).
Proof.
  intros Hb Hw. revert n. induction Hb as [|x l Hx Hb IH]; intros n Hne Hr Hn; [done|].
  inversion Hw as [|?? Hwx Hwl]; subst. cbn [map list_sum fold_right] in *.
  rewrite str_concat_cons. destruct n as [|n]; [lia|]. cbn [read_elements].
  pose proof (jsize_pos x). destruct l as [|y l].
  - rewrite str_app_assoc. change ("" +:+ String "]" rest) with (String "]" rest).
    rewrite Hx by (simpl in *; auto; lia). done.
  - cbn [map]. rewrite !str_app_assoc, str_app_cons. change ("" +:+ ?t) with t.
    rewrite Hx by (simpl; auto; simpl in *; lia). cbn [mbind option_bind].
    rewrite skip_ws_head by done. fold (map dumps (y :: l)).
    change (dumps y :: map dumps l) with (map dumps (y :: l)).
    rewrite IH; [done | done | done | done |]. unfold list_sum in *. simpl in *. lia.
Qed.

Lemma read_members_back (o : list (string * json)) n rest :
  Forall (fun kv => reads_back kv.2) o -> Forall (fun kv => jwf kv.2) o -> o <> [] -> delim rest ->
  list_sum (map (fun kv => S (jsize kv.2)) o) <= n ->
  read_members n (String.concat "," (map (fun kv => dumps_str kv.1 +:+ ":" +:+ dumps kv.2) o)
                  +:+ String "}" rest)
  = Some (map (fun kv => (kv.1, sort_keys kv.2)) o, rest).
Proof.
  intros Hb Hw. revert n. induction Hb as [|[k x] o Hx Hb IH]; intros n Hne Hr Hn; [done|].
  inversion Hw as [|?? Hwx Hwl]; subst. cbn [map list_sum fold_right fst snd] in *.
  rewrite str_concat_cons. destruct n as [|n]; [lia|]. cbn [read_members].
  pose proof (jsize_pos x).
  rewrite !str_app_assoc, dumps_str_app.
  rewrite skip_ws_head by done. change (Ascii.eqb quote quote) with true. cbv iota.
  rewrite read_string_dumps. cbn [mbind option_bind].
  rewrite str_app_cons. change ("" +:+ ?t) with t. rewrite skip_ws_head by done.
  destruct o as [|[k' y] o].
  - cbn [map]. change ("" +:+ String "}" rest) with (String "}" rest).
    rewrite Hx; [done | done | simpl; auto | simpl in Hn; lia].
  - cbn [map]. rewrite !str_app_assoc, str_app_cons. change ("" +:+ ?t) with t.
    rewrite Hx; [|done | simpl; auto | simpl in Hn; lia]. cbn [mbind option_bind].
    rewrite skip_ws_head by done.
    change ((dumps_str (k', y).1 +:+ ":" +:+ dumps (k', y).2)
      :: map (fun kv => dumps_str kv.1 +:+ ":" +:+ dumps kv.2) o)
      with (map (fun kv => dumps_str kv.1 +:+ ":" +:+ dumps kv.2) ((k', y) :: o)).
    rewrite IH; [done | done | done | done |]. unfold list_sum in *. simpl in *. lia.
Qed.

Lemma list_sum_perm (l k : list nat) : l ≡ₚ k -> list_sum l = list_sum k.
Proof. unfold list_sum. induction 1; simpl in *; lia. Qed.

Lemma str_concat_length sep l :
  String.length (String.concat sep l)
  = list_sum (map String.length l) + String.length sep * (length l - 1).
Proof.
  induction l as [|x l IH]; [simpl; lia|]. rewrite str_concat_cons, str_length_app.
  destruct l as [|y l]; [simpl; lia|]. rewrite str_length_app, IH. unfold list_sum.
  simpl. lia.
Qed.

Lemma list_sum_map_le {A} (f g : A -> nat) l :
  Forall (fun x => f x <= g x) l -> list_sum (map f l) <= list_sum (map g l).
Proof. unfold list_sum. induction 1; simpl; lia. Qed.

Lemma list_sum_map_S {A} (f : A -> nat) l :
  list_sum (map (fun x => S (f x)) l) = list_sum (map f l) + length l.
Proof. unfold list_sum. induction l; simpl; lia. Qed.

Lemma list_sum_map_double {A} (f : A -> nat) l :
  list_sum (map (fun x => 2 * f x) l) = 2 * list_sum (map f l).
Proof. unfold list_sum. induction l; simpl in *; lia. Qed.

(** The reader's fuel is enough for every printed value. *)
Lemma jsize_dumps v : jwf v -> jsize v <= 2 * String.length (dumps v).
Proof.
  induction v as [|[]|z|r|s|l IH|o IH] using json_ind'; intros Hwf; try (simpl; lia);
    try (by destruct Hwf).
  - simpl. destruct (show_Z_head z) as (d & s & _ & [-> | ->]); simpl; lia.
  - apply jwf_arr in Hwf. cbn [jsize dumps].
    rewrite !str_length_app, str_concat_length, map_map, length_map, list_sum_map_S.
    assert (list_sum (map jsize l) <= list_sum (map (fun x => 2 * String.length (dumps x)) l)).
    { apply list_sum_map_le. rewrite Forall_forall in *. auto. }
    rewrite (list_sum_map_double (fun x => String.length (dumps x))) in *.
    destruct l as [|x l]; simpl in *; lia.
  - apply jwf_obj in Hwf as [_ Hwf]. rewrite dumps_obj. cbn [jsize].
    rewrite !str_length_app, str_concat_length, map_map, length_map, length_py_sorted.
    rewrite (list_sum_perm (map (fun kv => String.length _) _)
               (map (fun kv => String.length (dumps_str kv.1 +:+ ":" +:+ dumps kv.2)) o))
      by (by rewrite py_sorted_perm).
    rewrite list_sum_map_S.
    assert (list_sum (map (fun kv : string * json => jsize kv.2) o)
      <= list_sum (map (fun kv => 2 * String.length (dumps_str kv.1 +:+ ":" +:+ dumps kv.2)) o)).
    { apply list_sum_map_le. rewrite Forall_forall in *. intros x Hx.
      rewrite !str_length_app. specialize (IH x Hx (Hwf x Hx)). lia. }
    rewrite (list_sum_map_double (fun kv : string * json =>
      String.length (dumps_str kv.1 +:+ ":" +:+ dumps kv.2))) in *.
    destruct o as [|kv o]; simpl in *; lia.
Qed.

(** Building a dictionary from pairs with distinct keys keeps them as they are. *)
Lemma dict_set_fresh {A} (d : list (string * A)) k v :
  k ∉ map fst d -> dict_set d k v = d ++ [(k, v)].
Proof.
  induction d as [|[k' v'] d IH]; simpl; [done|]. intros H. apply not_elem_of_cons in H as [Hk Hd].
  destruct (String.eqb_spec k k'); [done|]. by rewrite IH.
Qed.

Lemma dict_of_pairs_NoDup {A} (l : list (string * A)) :
  NoDup (map fst l) -> dict_of_pairs l = l.
Proof.
  intros H. unfold dict_of_pairs.
  cut (forall d, NoDup (map fst (d ++ l)) -> fold_left (fun d kv => dict_set d kv.1 kv.2) l d = d ++ l).
  { intros Hc. by apply (Hc []). }
  clear H. induction l as [|[k v] l IH]; intros d Hd; simpl; [by rewrite app_nil_r|].
  rewrite dict_set_fresh.
  - rewrite IH; [by rewrite <- app_assoc|]. by rewrite <- app_assoc.
  - rewrite map_app in Hd. simpl in Hd. apply NoDup_app in Hd as (_ & Hd & _).
    intros Hk. apply (Hd k Hk). left.
Qed.

Lemma map_fst_sorted {A} (o : list (string * A)) :
  map fst (py_sorted by_key o) = py_sorted String.leb (map fst o).
Proof. symmetry. by apply (py_sorted_map by_key String.leb fst). Qed.

Lemma Forall_sorted {A} (P : A -> Prop) leb l : Forall P l -> Forall P (py_sorted leb l).
Proof. by rewrite py_sorted_perm. Qed.

Lemma dumps_reads_back v : reads_back v.
Proof.
  induction v as [|[]|z|r|s|l IH|o IH] using json_ind'; intros Hwf n rest Hr Hn;
    pose proof Hn as Hn'; (destruct n as [|n]; [cbn [jsize] in Hn'; lia|]); try reflexivity; try (by destruct Hwf).
  - by apply read_value_int.
  - cbn [dumps sort_keys]. rewrite dumps_str_app. cbn [read_value].
    rewrite skip_ws_head by done.
    change (read_string (esc s +:+ String quote rest) ≫= (fun '(t, r) => Some (JStr t, r))
            = Some (JStr s, rest)).
    by rewrite read_string_dumps.
  - apply jwf_arr in Hwf. cbn [dumps sort_keys jsize] in *.
    rewrite !str_app_assoc. destruct l as [|x l]; [done|].
    pose proof (read_elements_back (x :: l) n rest IH Hwf ltac:(done) Hr ltac:(lia)) as Hread.
    apply Forall_cons_1 in Hwf as [Hx _]. destruct (dumps_head x Hx) as (c & t & E & Hws & Hc & _).
    change (map dumps (x :: l)) with (dumps x :: map dumps l) in *.
    set (m := String.concat "," (dumps x :: map dumps l) +:+ String "]" rest) in *.
    assert (exists u, m = String c u) as [u Hu].
    { subst m. rewrite str_concat_cons, E, !str_app_cons. by eauto. }
    change ("[" +:+ String.concat "," (dumps x :: map dumps l) +:+ "]" +:+ rest)
      with (String "[" m).
    cbn [read_value]. rewrite skip_ws_head by done.
    change (match skip_ws m with
            | String "]"%char r => Some (JArr [], r)
            | _ => '(l, r) ← read_elements n m; Some (JArr l, r)
            end = Some (JArr (map sort_keys (x :: l)), rest)).
    rewrite Hread, Hu, skip_ws_head by done. simpl.
    destruct c as [[] [] [] [] [] [] [] []]; done.
  - apply jwf_obj in Hwf as [Hnd Hwf]. rewrite sort_keys_obj, dumps_obj. cbn [jsize] in *.
    rewrite !str_app_assoc. set (o' := py_sorted by_key o).
    assert (o' ≡ₚ o) as Hp by apply py_sorted_perm.
    assert (list_sum (map (fun kv : string * json => S (jsize kv.2)) o') <= n) as Hsum.
    { rewrite (list_sum_perm _ (map (fun kv => S (jsize kv.2)) o)) by (by rewrite Hp). lia. }
    assert (NoDup (map fst (map (fun kv => (kv.1, sort_keys kv.2)) o'))) as Hnd'.
    { rewrite map_map. simpl. by rewrite Hp. }
    rewrite <- Hp in IH, Hwf. clearbody o'. clear Hp Hnd Hn Hn'.
    destruct o' as [|[k x] o']; [done|].
    pose proof (read_members_back ((k, x) :: o') n rest IH Hwf ltac:(done) Hr Hsum) as Hread.
    set (m := String.concat "," (map (fun kv => dumps_str kv.1 +:+ ":" +:+ dumps kv.2)
                ((k, x) :: o')) +:+ String "}" rest) in *.
    assert (exists u, m = String quote u) as [u Hu].
    { subst m. cbn [map]. rewrite str_concat_cons, !str_app_assoc. cbn [fst].
      rewrite dumps_str_app. by eauto. }
    change ("{" +:+ String.concat "," (map (fun kv => dumps_str kv.1 +:+ ":" +:+ dumps kv.2)
                ((k, x) :: o')) +:+ "}" +:+ rest) with (String "{" m).
    cbn [read_value]. rewrite skip_ws_head by done.
    change (match skip_ws m with
            | String "}"%char r => Some (JObj [], r)
            | _ => '(o, r) ← read_members n m; Some (JObj (dict_of_pairs o), r)
            end = Some (JObj (map (fun kv => (kv.1, sort_keys kv.2)) ((k, x) :: o')), rest)).
    rewrite Hread, Hu, skip_ws_head by done. simpl.
    by rewrite dict_of_pairs_NoDup.
Qed.

(** The same with a line feed after it. *)
Lemma loads_dumps_line v : jwf v -> loads (dumps v +:+ newline) = Some (sort_keys v).
Proof.
  intros Hwf. unfold loads.
  assert (delim newline) as Hd by (simpl; by auto).
  rewrite (dumps_reads_back v Hwf _ newline Hd); [done|].
  rewrite str_length_app. pose proof (jsize_dumps v Hwf). lia.
Qed.

(** What was printed reads back, with the keys of every object in order. *)
Lemma loads_dumps v : jwf v -> loads (dumps v) = Some (sort_keys v).
Proof.
  intros Hwf. unfold loads. pose proof (dumps_reads_back v Hwf
    (S (2 * String.length (dumps v))) "" I) as H.
  rewrite str_app_nil_r in H. rewrite H; [done|]. pose proof (jsize_dumps v Hwf). lia.
Qed.

(** Members with distinct keys come out in one order. *)
Lemma by_key_perm {A} (o o' : list (string * A)) :
  NoDup (map fst o) -> o ≡ₚ o' -> py_sorted by_key o = py_sorted by_key o'.
Proof. apply (py_sorted_key_perm fst String.leb). Qed.

(** ** [canonical_bytes] and [digest] *)

(** No value in it is one that JSON has no text for ([allow_nan=False]). *)
Fixpoint jfinite (v : json) : bool :=
  match v with
  | JFloat r => negb (existsb (String.eqb r) ["nan"; "inf"; "-inf"])
  | JArr l => forallb jfinite l
  | JObj o => forallb (fun kv => jfinite kv.2) o
  | _ => true
  end.

Definition canonical_bytes (value : json) : res string :=
  if jfinite value then Ok (dumps value)
  else Err (ValueError "Out of range float values are not JSON compliant").

Section digest.
(** [hashlib.blake2b(data, digest_size=20, person=person).hexdigest()] *)
Context (blake2b : string -> string -> string).

Definition digest (person : string) (value : json) : res string :=
  data ← canonical_bytes value; Ok (blake2b (String.substring 0 16 person) data).

(** The digest of a value that has one. *)
Definition digest_of (person : string) (value : json) : string :=
  blake2b (String.substring 0 16 person) (dumps value).

Lemma digest_finite person value :
  jfinite value = true -> digest person value = Ok (digest_of person value).
Proof. intros H. unfold digest, canonical_bytes. by rewrite H. Qed.
End digest.

Lemma jwf_finite v : jwf v -> jfinite v = true.
Proof.
  induction v as [|[]|z|r|s|l IH|o IH] using json_ind'; intros Hwf; try done.
  - apply jwf_arr in Hwf. simpl. apply forallb_true. intros x Hx.
    rewrite Forall_forall in *. auto.
  - apply jwf_obj in Hwf as [_ Hwf]. simpl. apply forallb_true. intros x Hx.
    rewrite Forall_forall in *. auto.
Qed.

(** ** Reading fields of a decoded object *)

Definition TypeError (msg : string) : exn := Exn "TypeError" msg.
Definition AttributeError (msg : string) : exn := Exn "AttributeError" msg.

Definition type_name (v : json) : string :=
  match v with
  | JNull => "NoneType" | JBool _ => "bool" | JInt _ => "int" | JFloat _ => "float"
  | JStr _ => "str" | JArr _ => "list" | JObj _ => "dict"
  end.

(** [value[key]] *)
Definition item {A} (o : list (string * A)) (k : string) : res A :=
  of_option (KeyError (py_repr k)) (jget o k).

(** [value.get(key, default)] *)
Definition get_or {A} (o : list (string * A)) (k : string) (d : A) : A :=
  default d (jget o k).

(** The integer part of a float, by its text. *)
Definition float_int (r : string) : option Z :=
  let '(neg, body) := match r with
    | String "-"%char s' => (true, s') | _ => (false, r) end in
  '(n, text, r0) ← read_unsigned body;
  let '(frac, r1) := read_frac r0 in
  let '(ex, _) := read_exp r1 in
  let fds := str_drop 1 frac in
  let mant := (read_digits 0 (text +:+ fds)).1 in
  e ← (if String.eqb ex "" then Some 0%Z else
       py_int (str_drop 1 ex));
  let shift := (e - Z.of_nat (String.length fds))%Z in
  let m := if (0 <=? shift)%Z then (Z.of_N mant * 10 ^ shift)%Z
           else (Z.of_N mant / 10 ^ (- shift))%Z in
  Some (if neg : bool then - m else m)%Z.

(** [int(value)] *)
Definition json_int (v : json) : res Z :=
  match v with
  | JInt z => Ok z
  | JBool b => Ok (if b then 1 else 0)%Z
  | JStr s => of_option (ValueError ("invalid literal for int() with base 10: " +:+ py_repr s))
                (py_int s)
  | JFloat r =>
      if String.eqb r "nan" then Err (ValueError "cannot convert float NaN to integer")
      else of_option (Exn "OverflowError" "cannot convert float infinity to integer") (float_int r)
  | _ => Err (TypeError ("int() argument must be a string, a bytes-like object or a real number, not '"
                +:+ type_name v +:+ "'"))
  end.

(** The error of [value.get(key)] on a value that is not a mapping. *)
Definition no_get (v : json) : exn :=
  AttributeError ("'" +:+ type_name v +:+ "' object has no attribute 'get'").

(** What [for item in value] goes through. *)
Definition json_iter (v : json) : res (list json) :=
  match v with
  | JArr l => Ok l
  | JObj o => Ok (map (fun kv => JStr kv.1) o)
  | JStr s => Ok (map (fun c => JStr (String c "")) (String.list_ascii_of_string s))
  | _ => Err (TypeError ("'" +:+ type_name v +:+ "' object is not iterable"))
  end.

(** [None if value.get(key) is None else str(value[key])] *)
Definition opt_str (o : list (string * json)) (k : string) : option string :=
  match jget o k with None | Some JNull => None | Some v => Some (jstr v) end.

(** The same with [int]. *)
Definition opt_int (o : list (string * json)) (k : string) : res (option Z) :=
  match jget o k with
  | None | Some JNull => Ok None
  | Some v => z ← json_int v; Ok (Some z)
  end.

(** [str(value[key])] *)
Definition item_str (o : list (string * json)) (k : string) : res string :=
  v ← item o k; Ok (jstr v).

Definition item_int (o : list (string * json)) (k : string) : res Z :=
  v ← item o k; json_int v.

Definition get_str (o : list (string * json)) (k d : string) : string :=
  jstr (get_or o k (JStr d)).

Definition get_int (o : list (string * json)) (k : string) (d : Z) : res Z :=
  json_int (get_or o k (JInt d)).

Definition get_bool (o : list (string * json)) (k : string) (d : bool) : bool :=
  jtruthy (get_or o k (JBool d)).

(** [tuple(str(item) for item in value.get(key, []))] *)
Definition get_strs (o : list (string * json)) (k : string) : res (list string) :=
  l ← json_iter (get_or o k (JArr [])); Ok (map jstr l).

(** The values [asdict] makes of strings, lists of them and optional fields. *)
Definition jstrs (l : list string) : json := JArr (map JStr l).
Definition jopt {A} (f : A -> json) (o : option A) : json :=
  match o with Some a => f a | None => JNull end.

Lemma jget_Some {A} (o : list (string * A)) k v :
  NoDup (map fst o) -> (jget o k = Some v <-> (k, v) ∈ o).
Proof.
  induction o as [|[k' v'] o IH]; simpl; intros Hnd.
  - split; [done|]. by intros ?%elem_of_nil.
  - apply NoDup_cons in Hnd as [Hk Hnd]. rewrite elem_of_cons.
    destruct (String.eqb_spec k k') as [->|Hne].
    + split; [intros [= ->]; by left|]. intros [[= ->]|Hin]; [done|].
      exfalso. apply Hk. by apply (list_elem_of_fmap_2 fst _ (k', v)).
    + rewrite IH by done. split; [by right|]. by intros [[= -> ->]|].
Qed.

(** Looking a key up does not depend on the order of the members. *)
Lemma jget_perm {A} (o o' : list (string * A)) k :
  NoDup (map fst o) -> o ≡ₚ o' -> jget o k = jget o' k.
Proof.
  intros Hnd Hp. assert (NoDup (map fst o')) as Hnd' by (by rewrite <- Hp).
  apply option_eq. intros v. rewrite !jget_Some by done. by rewrite Hp.
Qed.

Lemma jget_map {A B} (f : A -> B) (o : list (string * A)) k :
  jget (map (fun kv => (kv.1, f kv.2)) o) k = f <$> jget o k.
Proof.
  induction o as [|[k' v] o IH]; simpl; [done|]. by destruct (String.eqb k k').
Qed.

(** The members of an object as they are read back from its text. *)
Definition sorted_members (o : list (string * json)) : list (string * json) :=
  map (fun kv => (kv.1, sort_keys kv.2)) (py_sorted by_key o).

(** Putting the keys in order does not change the text. *)
Lemma dumps_sort_keys v : dumps (sort_keys v) = dumps v.
Proof.
  induction v as [|[]|z|r|s|l IH|o IH] using json_ind'; try done.
  - cbn [sort_keys dumps]. do 2 f_equal. f_equal. rewrite map_map. apply map_ext_in.
    intros x Hx. rewrite Forall_forall in IH. by apply IH, list_elem_of_In.
  - rewrite sort_keys_obj, !dumps_obj. do 2 f_equal. f_equal.
    rewrite by_key_map, py_sorted_idem by apply _. rewrite map_map. apply map_ext_in.
    intros kv Hin. cbn [fst snd]. rewrite Forall_forall in IH. rewrite IH; [done|].
    apply list_elem_of_In in Hin. by rewrite py_sorted_perm in Hin.
Qed.

Lemma jwf_sort_keys v : jwf v -> jwf (sort_keys v).
Proof.
  induction v as [|[]|z|r|s|l IH|o IH] using json_ind'; try done.
  - intros Hwf%jwf_arr. cbn [sort_keys]. apply jwf_arr. rewrite Forall_map.
    rewrite Forall_forall in *. auto.
  - intros [Hnd Hwf]%jwf_obj. rewrite sort_keys_obj. apply jwf_obj. rewrite map_map. cbn [fst].
    split; [by rewrite py_sorted_perm|]. rewrite Forall_map, py_sorted_perm. cbn [snd].
    rewrite Forall_forall in *. auto.
Qed.

Lemma jget_sorted_members o k :
  NoDup (map fst o) -> jget (sorted_members o) k = sort_keys <$> jget o k.
Proof.
  intros Hnd. unfold sorted_members. rewrite jget_map. f_equal.
  apply jget_perm; rewrite ?py_sorted_perm; done.
Qed.

Lemma sort_keys_members o : sort_keys (JObj o) = JObj (sorted_members o).
Proof. apply sort_keys_obj. Qed.

Lemma sort_keys_jstrs l : sort_keys (jstrs l) = jstrs l.
Proof. unfold jstrs. simpl. by rewrite map_map. Qed.

Lemma sort_keys_jopt (o : option string) : sort_keys (jopt JStr o) = jopt JStr o.
Proof. by destruct o. Qed.

Lemma jwf_jstrs l : jwf (jstrs l).
Proof. apply jwf_arr. by induction l; constructor. Qed.

Lemma jwf_jopt (o : option string) : jwf (jopt JStr o).
Proof. by destruct o. Qed.

Lemma map_jstr l : map jstr (map JStr l) = l.
Proof. rewrite map_map. by apply map_id. Qed.

(** ** Comparing decoded values *)

Definition num_of_bool (b : bool) : Z := if b then 1%Z else 0%Z.

Definition num_eqb (z : Z) (v : json) : bool :=
  match v with
  | JInt y => (z =? y)%Z
  | JBool b => (z =? num_of_bool b)%Z
  | JFloat r => String.eqb r (show_Z z +:+ ".0")
  | _ => false
  end.

(** [value == n] for what [get] gives and an integer. *)
Definition is_int (v : option json) (n : Z) : bool :=
  match v with Some v => num_eqb n v | None => false end.

Definition is_str (v : option json) (s : string) : bool :=
  match v with Some (JStr t) => String.eqb t s | _ => false end.

Definition has_key {A} (e : list (string * A)) (k : string) : bool :=
  match jget e k with Some _ => true | None => false end.

Lemma jget_dict_set {A} (d : list (string * A)) k v k' :
  jget (dict_set d k v) k' = if String.eqb k' k then Some v else jget d k'.
Proof.
  induction d as [|[a b] d IH]; simpl; [done|].
  destruct (String.eqb_spec k a) as [->|Hne]; simpl.
  - by destruct (String.eqb k' a).
  - destruct (String.eqb_spec k' a) as [->|]; [|exact IH].
    by rewrite (proj2 (String.eqb_neq a k)) by done.
Qed.

Lemma elem_of_dict_set {A} (d : list (string * A)) k v x :
  x ∈ map fst (dict_set d k v) <-> x = k \/ x ∈ map fst d.
Proof.
  induction d as [|[a b] d IH]; simpl; [set_solver|].
  destruct (String.eqb_spec k a) as [->|]; simpl; [set_solver|].
  rewrite !elem_of_cons, IH. tauto.
Qed.

Lemma dict_set_keys {A} (d : list (string * A)) k v :
  NoDup (map fst d) -> NoDup (map fst (dict_set d k v)).
Proof.
  induction d as [|[a b] d IH]; simpl; intros Hnd; [by repeat constructor; set_solver|].
  apply NoDup_cons in Hnd as [Ha Hd].
  destruct (String.eqb_spec k a) as [->|Hne]; simpl; constructor; auto.
  rewrite elem_of_dict_set. by intros [->|].
Qed.

(** [a == b] on decoded values: objects without regard to order, [True == 1],
    and a float equal to the integer it prints as. *)
Fixpoint py_eqb (a b : json) : bool :=
  match a, b with
  | JNull, JNull => true
  | JInt z, _ => num_eqb z b
  | JBool t, _ => num_eqb (num_of_bool t) b
  | JFloat r, JFloat r' => String.eqb r r' && negb (String.eqb r "nan")
  | JFloat r, JInt z => String.eqb r (show_Z z +:+ ".0")
  | JFloat r, JBool t => String.eqb r (show_Z (num_of_bool t) +:+ ".0")
  | JStr s, JStr t => String.eqb s t
  | JArr l, JArr k =>
      (fix eqb_list (l k : list json) : bool :=
         match l, k with
         | [], [] => true
         | x :: l', y :: k' => py_eqb x y && eqb_list l' k'
         | _, _ => false
         end) l k
  | JObj o, JObj p =>
      (length o =? length p)%nat
      && forallb (fun kv => match jget p kv.1 with Some v => py_eqb kv.2 v | None => false end) o
  | _, _ => false
  end.

Lemma py_eqb_refl v : jwf v -> py_eqb v v = true.
Proof.
  induction v as [| | | | |l IH|o IH] using json_ind'; simpl; intros Hv; try done.
  - by destruct b.
  - apply Z.eqb_refl.
  - apply String.eqb_refl.
  - apply jwf_arr in Hv. induction IH as [|x l Hx Hl IH']; [done|].
    apply Forall_cons in Hv as [Hwx Hwl]. by rewrite Hx, IH'.
  - apply jwf_obj in Hv as [Hnd Hv]. rewrite Nat.eqb_refl. simpl. apply forallb_true.
    intros [k v] Hin. simpl. rewrite (proj2 (jget_Some o k v Hnd) Hin).
    rewrite Forall_forall in IH, Hv. by apply (IH (k, v)), (Hv (k, v)).
Qed.

(** [d.update(changes)] *)
Definition dict_update {A} (d changes : list (string * A)) : list (string * A) :=
  fold_left (fun d kv => dict_set d kv.1 kv.2) changes d.

(** What equals a string, null, an integer or an array. *)
Lemma py_eqb_str v s : py_eqb v (JStr s) = true <-> v = JStr s.
Proof.
  split; [|intros ->; cbn; apply String.eqb_refl].
  destruct v as [|[]|z|r|t|l|o]; cbn; try done. by intros ->%String.eqb_eq.
Qed.

Lemma py_eqb_opt v o : py_eqb v (jopt JStr o) = true <-> v = jopt JStr o.
Proof. destruct o; cbn [jopt]; [apply py_eqb_str|]. split; [by destruct v as [|[]| | | | |]|by intros ->]. Qed.

Lemma py_eqb_int v z : py_eqb v (JInt z) = num_eqb z v.
Proof. destruct v as [|b|y|r|t|l|o]; cbn; try done; apply Z.eqb_sym. Qed.

Lemma py_eqb_arr v l : py_eqb v (JArr l) = true <-> exists k, v = JArr k /\ Forall2 (fun a b => py_eqb a b = true) k l.
Proof.
  split.
  - destruct v as [|[]|z|r|t|k|o]; try done. intros He. exists k. split; [done|]. revert l He.
    induction k as [|x k IH]; intros [|y l]; cbn; try done. intros [Hx Hl]%andb_true_iff. constructor; [done|]. by apply IH.
  - intros (k & -> & Hk). cbn. induction Hk as [|x y k l Hx _ IH]; [done|]. by rewrite Hx.
Qed.

(** Two dictionaries are equal when they have equal values under the same keys. *)
Lemma py_eqb_obj (o p : list (string * json)) : NoDup (map fst o) -> NoDup (map fst p) ->
  py_eqb (JObj o) (JObj p) = true <->
  map fst o ≡ₚ map fst p /\ forall k v, jget p k = Some v -> exists u, jget o k = Some u /\ py_eqb u v = true.
Proof.
  intros Hnd Hndp. cbn [py_eqb]. rewrite andb_true_iff, Nat.eqb_eq, forallb_forall. setoid_rewrite <- list_elem_of_In. split.
  - intros [Hlen Hall].
    assert (map fst o ≡ₚ map fst p) as Hp.
    { apply submseteq_length_Permutation; [|rewrite !length_map, Hlen; done]. apply NoDup_submseteq; [done|].
      intros k ([k' v] & -> & Hin)%list_elem_of_fmap. specialize (Hall _ Hin). cbn [fst snd] in *.
      destruct (jget p k') as [w|] eqn:E; [|done]. apply jget_Some in E; [|done]. by apply (list_elem_of_fmap_2 fst) in E. }
    split; [done|]. intros k v Hk. assert (k ∈ map fst o) as ([k' u] & -> & Hin)%list_elem_of_fmap.
    { rewrite Hp. apply jget_Some in Hk; [|done]. by apply (list_elem_of_fmap_2 fst) in Hk. }
    specialize (Hall _ Hin). cbn [fst snd] in *. rewrite Hk in Hall. exists u. split; [by apply jget_Some|done].
  - intros [Hp Hc]. split.
    { rewrite <- (length_map fst), Hp. by rewrite length_map. }
    intros [k u] Hin. cbn [fst snd]. destruct (jget p k) as [v|] eqn:E.
    + destruct (Hc k v E) as (u' & Hu & He). apply jget_Some in Hin; [|done]. rewrite Hin in Hu. by injection Hu as ->.
    + exfalso. assert (k ∈ map fst p) as ([k' v] & -> & Hv)%list_elem_of_fmap.
      { rewrite <- Hp. by apply (list_elem_of_fmap_2 fst) in Hin. }
      apply jget_Some in Hv; [|done]. cbn [fst] in E. congruence.
Qed.

(** Putting the keys in order keeps the value. *)
Lemma py_eqb_sort v : jwf v -> py_eqb (sort_keys v) v = true.
Proof.
  induction v as [| | | | |l IH|o IH] using json_ind'; intros Hv; try by apply py_eqb_refl.
  - apply jwf_arr in Hv. cbn [sort_keys]. apply py_eqb_arr. eexists. split; [done|].
    induction IH as [|x l Hx Hl IH']; [constructor|]. apply Forall_cons in Hv as [Hwx Hwl]. constructor; [by apply Hx|by apply IH'].
  - apply jwf_obj in Hv as [Hnd Hv]. rewrite sort_keys_members. apply py_eqb_obj; [|done|].
    + unfold sorted_members. rewrite map_map. cbn [fst]. by rewrite py_sorted_perm.
    + split; [unfold sorted_members; rewrite map_map; cbn [fst]; by rewrite py_sorted_perm|].
      intros k v Hk. rewrite jget_sorted_members, Hk by done. eexists. split; [done|]. apply jget_Some in Hk; [|done].
      rewrite Forall_forall in IH, Hv. by apply (IH (k, v)), (Hv (k, v)).
Qed.

(** The reader keeps one value for a key. *)
Fixpoint unique (v : json) : Prop :=
  match v with
  | JArr l => (fix all l := match l with [] => True | x :: l' => unique x /\ all l' end) l
  | JObj o => NoDup (map fst o) /\ (fix all o := match o with [] => True | kv :: o' => unique kv.2 /\ all o' end) o
  | _ => True
  end.

Lemma unique_arr l : unique (JArr l) <-> Forall unique l.
Proof. simpl. induction l as [|x l IH]; [by split|]. rewrite Forall_cons, <- IH. done. Qed.

Lemma unique_obj o : unique (JObj o) <-> NoDup (map fst o) /\ Forall (fun kv => unique kv.2) o.
Proof. simpl. apply and_iff_compat_l. induction o as [|x o IH]; [by split|]. rewrite Forall_cons, <- IH. done. Qed.

Lemma Forall_dict_set {A} (P : string * A -> Prop) d k v : (forall k', P (k', v)) -> Forall P d -> Forall P (dict_set d k v).
Proof.
  intros Hv. induction 1 as [|[a b] d Hd Hds IH]; simpl; [by constructor|]. destruct (String.eqb k a); by constructor.
Qed.

Lemma dict_of_pairs_unique (l : list (string * json)) : Forall (fun kv => unique kv.2) l -> unique (JObj (dict_of_pairs l)).
Proof.
  intros Hl. rewrite unique_obj. unfold dict_of_pairs.
  assert (forall d : list (string * json), NoDup (map fst d) -> Forall (fun kv => unique kv.2) d ->
    NoDup (map fst (fold_left (fun d kv => dict_set d kv.1 kv.2) l d)) /\
    Forall (fun kv => unique kv.2) (fold_left (fun d kv => dict_set d kv.1 kv.2) l d)) as H; [|apply H; constructor].
  induction Hl as [|[k v] l Hv _ IH]; intros d Hnd Hd; [done|]. cbn [fold_left fst snd]. apply IH.
  - by apply dict_set_keys.
  - by apply Forall_dict_set.
Qed.

Lemma read_number_unique s v r : read_number s = Some (v, r) -> unique v.
Proof.
  unfold read_number. destruct (match s with EmptyString => _ | _ => _ end) as [neg body].
  destruct (read_unsigned body) as [[[n t] q]|]; [|done]. cbn [mbind option_bind].
  destruct (read_frac q) as [f r1]. destruct (read_exp r1) as [x r2]. by destruct (_ && _); intros [= <- _].
Qed.

Lemma read_unique n :
  (forall s v r, read_value n s = Some (v, r) -> unique v) /\
  (forall s l r, read_elements n s = Some (l, r) -> Forall unique l) /\
  (forall s o r, read_members n s = Some (o, r) -> Forall (fun kv => unique kv.2) o).
Proof.
  induction n as [|n (IHv & IHe & IHm)]; [done|].
  assert (forall s' v r, match skip_ws s' with String "]"%char r => Some (JArr [], r)
            | _ => '(l, r) ← read_elements n s'; Some (JArr l, r) end = Some (v, r) -> unique v) as Harr.
  { intros s' v r H. assert ((exists q, v = JArr [] /\ r = q) \/ exists l, read_elements n s' = Some (l, r) /\ v = JArr l) as [(q & -> & _)|(l & Hl & ->)].
    { destruct (skip_ws s') as [|[[] [] [] [] [] [] [] []] q]; try (by left; injection H as <- <-; eexists); right;
        (destruct (read_elements n s') as [[l r']|]; [injection H as <- <-; by eexists|done]). }
    - done.
    - apply unique_arr. by eapply IHe. }
  assert (forall s' v r, match skip_ws s' with String "}"%char r => Some (JObj [], r)
            | _ => '(o, r) ← read_members n s'; Some (JObj (dict_of_pairs o), r) end = Some (v, r) -> unique v) as Hobj.
  { intros s' v r H. assert (v = JObj [] \/ exists l, read_members n s' = Some (l, r) /\ v = JObj (dict_of_pairs l)) as [->|(l & Hl & ->)].
    { destruct (skip_ws s') as [|[[] [] [] [] [] [] [] []] q]; try (by left; injection H as <- <-); right;
        (destruct (read_members n s') as [[l r']|]; [injection H as <- <-; by eexists|done]). }
    - split; [constructor|done].
    - apply dict_of_pairs_unique. by eapply IHm. }
  split_and!.
  - intros s v r H. cbn [read_value] in H.
    repeat match type of H with (if ?b then _ else _) = _ => destruct b; [injection H as <- _; done|] end.
    destruct (skip_ws s) as [|c s']; [done|]. revert H. generalize (Ascii.nat_of_ascii c) as k. intros k H.
    assert (k = 34 \/ k = 91 \/ k = 123 \/ (k <> 34 /\ k <> 91 /\ k <> 123)) as [->|[->|[->|(H1 & H2 & H3)]]] by lia.
    + destruct (read_string s') as [[t q]|]; [|done]. by injection H as <- _.
    + by apply (Harr s' v r).
    + by apply (Hobj s' v r).
    + assert (read_number (String c s') = Some (v, r)) as Hn; [|by apply read_number_unique in Hn].
      do 124 (destruct k as [|k]; [first [exact H|lia]|]). exact H.
  - intros s l r H. cbn [read_elements] in H. destruct (read_value n s) as [[v q]|] eqn:Ev; [|done]. cbn [mbind option_bind] in H.
    pose proof (IHv _ _ _ Ev) as Hv.
    assert (l = [v] \/ exists q' l', read_elements n q' = Some (l', r) /\ l = v :: l') as [->|(q' & l' & Hl & ->)].
    { destruct (skip_ws q) as [|[[] [] [] [] [] [] [] []] q']; try done; try (by left; injection H as <- <-);
        right; (destruct (read_elements n q') as [[l' r']|] eqn:E; [injection H as <- <-; by exists q', l'|done]). }
    + by repeat constructor.
    + constructor; [done|]. by eapply IHe.
  - intros s o r H. cbn [read_members] in H. destruct (skip_ws s) as [|c s']; [done|]. destruct (Ascii.eqb c quote); [|done].
    destruct (read_string s') as [[k q]|]; [|done]. cbn [mbind option_bind] in H.
    assert (exists q1 v q2, read_value n q1 = Some (v, q2) /\
      (o = [(k, v)] \/ exists q3 o', read_members n q3 = Some (o', r) /\ o = (k, v) :: o')) as (q1 & v & q2 & Ev & Ho).
    { destruct (skip_ws q) as [|[[] [] [] [] [] [] [] []] q1]; try done.
      destruct (read_value n q1) as [[v q2]|] eqn:Ev; [|done]. cbn [mbind option_bind] in H. exists q1, v, q2. split; [done|].
      destruct (skip_ws q2) as [|[[] [] [] [] [] [] [] []] q3]; try done; try (by left; injection H as <- <-);
        right; (destruct (read_members n q3) as [[o' r']|] eqn:E; [injection H as <- <-; by exists q3, o'|done]). }
    pose proof (IHv _ _ _ Ev) as Hv. destruct Ho as [->|(q3 & o' & Hm & ->)]; [by repeat constructor|].
    constructor; [done|]. by eapply IHm.
Qed.

Lemma loads_unique s v : loads s = Some v -> unique v.
Proof.
  unfold loads. destruct (read_value _ s) as [[w r]|] eqn:E; [|done]. cbn [mbind option_bind].
  destruct (String.eqb _ _); [|done]. intros [= ->]. by eapply (proj1 (read_unique _)).
Qed.

End Json.
