(* ===== verification/Pretty.v ===== *)
(** The indented text of a JSON value, [json.dumps(v, indent=2,
    sort_keys=True)], with which the records on disk are written, and that it
    reads back. *)

From S2P Require Import Prelude Json.

Module Pretty.
Import Json.

Fixpoint spaces (n : nat) : string := match n with O => "" | S n' => String " " (spaces n') end.

(** A new line at a level. *)
Definition nl (level : nat) : string := newline +:+ spaces (2 * level).

Definition member (kv : string * string) : string := dumps_str kv.1 +:+ ": " +:+ kv.2.

Fixpoint pretty (level : nat) (v : json) : string :=
  match v with
  | JArr ((_ :: _) as l) =>
      "[" +:+ nl (S level) +:+ String.concat ("," +:+ nl (S level)) (map (pretty (S level)) l) +:+ nl level +:+ "]"
  | JObj ((_ :: _) as o) =>
      "{" +:+ nl (S level) +:+ String.concat ("," +:+ nl (S level))
        (map member (py_sorted by_key (map (fun kv => (kv.1, pretty (S level) kv.2)) o))) +:+ nl level +:+ "}"
  | v => dumps v
  end.

Definition dumps_indent (v : json) : string := pretty 0 v.

Example demo_indent :
  dumps_indent (JObj [("b", JArr [JInt 1; JInt 2]); ("a", JObj []); ("c", JArr [])])
  = "{" +:+ newline +:+ "  " +:+ dquote +:+ "a" +:+ dquote +:+ ": {}," +:+ newline +:+ "  " +:+ dquote +:+ "b" +:+ dquote
    +:+ ": [" +:+ newline +:+ "    1," +:+ newline +:+ "    2" +:+ newline +:+ "  ]," +:+ newline +:+ "  " +:+ dquote +:+ "c"
    +:+ dquote +:+ ": []" +:+ newline +:+ "}".
Proof. by vm_compute. Qed.

(** ** Reading it back *)

Lemma skip_ws_nl k s : skip_ws (nl k +:+ s) = skip_ws s.
Proof.
  unfold nl. change (skip_ws ((newline +:+ spaces (2 * k)) +:+ s)) with (skip_ws (spaces (2 * k) +:+ s)).
  induction (2 * k) as [|n IH]; [done|]. exact IH.
Qed.

Lemma read_value_skip n s : read_value (S n) (skip_ws s) = read_value (S n) s.
Proof.
  assert (skip_ws (skip_ws s) = skip_ws s) as E; [|cbn [read_value]; by rewrite E].
  induction s as [|c s IH]; [done|]. cbn [skip_ws]. destruct (json_ws c) eqn:Ec; [done|]. cbn [skip_ws]. by rewrite Ec.
Qed.

Lemma read_value_nl n k s : read_value (S n) (nl k +:+ s) = read_value (S n) s.
Proof. by rewrite <- read_value_skip, skip_ws_nl, read_value_skip. Qed.

Lemma nl_delim k s : delim (nl k +:+ s).
Proof. unfold nl. simpl. auto. Qed.

Lemma pretty_arr level x l :
  pretty level (JArr (x :: l)) = "[" +:+ nl (S level) +:+ String.concat ("," +:+ nl (S level)) (map (pretty (S level)) (x :: l))
    +:+ nl level +:+ "]".
Proof. done. Qed.

Lemma pretty_obj level kv o :
  pretty level (JObj (kv :: o)) = "{" +:+ nl (S level) +:+ String.concat ("," +:+ nl (S level))
    (map (fun kv => dumps_str kv.1 +:+ ": " +:+ pretty (S level) kv.2) (py_sorted by_key (kv :: o))) +:+ nl level +:+ "}".
Proof.
  change (pretty level (JObj (kv :: o))) with ("{" +:+ nl (S level) +:+ String.concat ("," +:+ nl (S level))
    (map member (py_sorted by_key (map (fun kv => (kv.1, pretty (S level) kv.2)) (kv :: o)))) +:+ nl level +:+ "}").
  by rewrite by_key_map, map_map.
Qed.

Definition reads_pretty (v : json) : Prop :=
  jwf v -> forall level n rest, delim rest -> jsize v <= n ->
    read_value n (pretty level v +:+ rest) = Some (sort_keys v, rest).

Lemma read_elements_pretty l k j n rest :
  Forall reads_pretty l -> Forall jwf l -> l <> [] ->
  list_sum (map (fun x => S (jsize x)) l) <= n ->
  read_elements n (String.concat ("," +:+ nl k) (map (pretty k) l) +:+ nl j +:+ String "]" rest)
  = Some (map sort_keys l, rest).
Proof.
  intros Hb Hw. revert n. induction Hb as [|x l Hx Hb IH]; intros n Hne Hn; [done|].
  inversion Hw as [|?? Hwx Hwl]; subst. cbn [map list_sum fold_right] in *.
  rewrite str_concat_cons. destruct n as [|n]; [lia|]. cbn [read_elements].
  pose proof (jsize_pos x). destruct l as [|y l].
  - cbn [map]. rewrite str_app_assoc. change ("" +:+ ?t) with t.
    rewrite Hx; [|done|apply nl_delim|simpl in *; lia]. cbn [mbind option_bind]. by rewrite skip_ws_nl.
  - cbn [map]. rewrite !str_app_assoc, str_app_cons. change ("" +:+ ?t) with t.
    rewrite Hx by (simpl; auto; simpl in *; lia). cbn [mbind option_bind].
    rewrite skip_ws_head by done. change (pretty k y :: map (pretty k) l) with (map (pretty k) (y :: l)).
    assert (read_elements n (nl k +:+ String.concat ("," +:+ nl k) (map (pretty k) (y :: l)) +:+ nl j +:+ String "]" rest)
      = read_elements n (String.concat ("," +:+ nl k) (map (pretty k) (y :: l)) +:+ nl j +:+ String "]" rest)) as ->.
    { destruct n as [|n]; [done|]. cbn [read_elements]. destruct n; [done|]. by rewrite read_value_nl. }
    rewrite IH; [done|done|done|]. unfold list_sum in *. simpl in *. lia.
Qed.

Lemma read_members_pretty (o : list (string * json)) k j n rest :
  Forall (fun kv => reads_pretty kv.2) o -> Forall (fun kv => jwf kv.2) o -> o <> [] ->
  list_sum (map (fun kv => S (jsize kv.2)) o) <= n ->
  read_members n (String.concat ("," +:+ nl k) (map (fun kv => dumps_str kv.1 +:+ ": " +:+ pretty k kv.2) o)
                  +:+ nl j +:+ String "}" rest)
  = Some (map (fun kv => (kv.1, sort_keys kv.2)) o, rest).
Proof.
  intros Hb Hw. revert n. induction Hb as [|[key x] o Hx Hb IH]; intros n Hne Hn; [done|].
  inversion Hw as [|?? Hwx Hwl]; subst. cbn [map list_sum fold_right fst snd] in *.
  rewrite str_concat_cons. destruct n as [|n]; [lia|]. cbn [read_members].
  pose proof (jsize_pos x). rewrite !str_app_assoc, dumps_str_app.
  rewrite skip_ws_head by done. change (Ascii.eqb quote quote) with true. cbv iota.
  rewrite read_string_dumps. cbn [mbind option_bind].
  rewrite str_app_cons. change (String " " "" +:+ ?t) with (String " " t). rewrite skip_ws_head by done.
  assert (forall t, read_value n (String " " t) = read_value n t) as Hsp.
  { intros t. destruct n; [done|]. by rewrite <- (read_value_skip n t), <- read_value_skip. }
  destruct o as [|[k' y] o].
  - cbn [map]. change ("" +:+ ?t) with t. rewrite Hsp.
    rewrite Hx; [|done|apply nl_delim|simpl in Hn; lia]. cbn [mbind option_bind]. by rewrite skip_ws_nl.
  - cbn [map]. rewrite !str_app_assoc, str_app_cons, Hsp. change ("" +:+ ?t) with t.
    rewrite Hx; [|done | simpl; auto | simpl in Hn; lia]. cbn [mbind option_bind].
    rewrite skip_ws_head by done.
    change ((dumps_str (k', y).1 +:+ ": " +:+ pretty k (k', y).2)
      :: map (fun kv => dumps_str kv.1 +:+ ": " +:+ pretty k kv.2) o)
      with (map (fun kv => dumps_str kv.1 +:+ ": " +:+ pretty k kv.2) ((k', y) :: o)).
    set (u := String.concat _ (map _ ((k', y) :: o)) +:+ _) in *.
    assert (read_members n (nl k +:+ u) = read_members n u) as ->.
    { destruct n as [|n]; [done|]. cbn [read_members]. by rewrite skip_ws_nl. }
    subst u. rewrite IH; [done|done|done|]. unfold list_sum in *. simpl in *. lia.
Qed.

Lemma pretty_head level v :
  jwf v -> exists c s, pretty level v = String c s /\ json_ws c = false /\ c <> "]"%char /\ c <> "}"%char.
Proof.
  intros Hwf. destruct v as [| | | | |[|x l]|[|kv o]]; try (by apply dumps_head).
  - rewrite pretty_arr. by eexists _, _.
  - rewrite pretty_obj. by eexists _, _.
Qed.

Lemma pretty_reads_back v : reads_pretty v.
Proof.
  induction v as [|b|z|r|s|l IH|o IH] using json_ind'; intros Hwf level n rest Hr Hn;
    pose proof Hn as Hn'; (destruct n as [|n]; [cbn [jsize] in Hn'; lia|]); try (by apply dumps_reads_back).
  - destruct l as [|x l]; [by apply dumps_reads_back|].
    apply jwf_arr in Hwf. rewrite pretty_arr. cbn [sort_keys jsize] in *. rewrite !str_app_assoc.
    pose proof (read_elements_pretty (x :: l) (S level) level n rest IH Hwf ltac:(done) ltac:(lia)) as Hread.
    apply Forall_cons_1 in Hwf as [Hx _]. destruct (pretty_head (S level) x Hx) as (c & t & E & Hws & Hc & _).
    set (m := String.concat _ (map _ (x :: l)) +:+ _) in *.
    assert (exists u, m = String c u) as [u Hu].
    { subst m. cbn [map]. rewrite str_concat_cons, E, !str_app_cons. by eauto. }
    change ("[" +:+ ?q) with (String "[" q).
    cbn [read_value]. rewrite skip_ws_head by done.
    change (match skip_ws (nl (S level) +:+ m) with
            | String "]"%char r => Some (JArr [], r)
            | _ => '(l, r) ← read_elements n (nl (S level) +:+ m); Some (JArr l, r)
            end = Some (JArr (map sort_keys (x :: l)), rest)).
    assert (read_elements n (nl (S level) +:+ m) = read_elements n m) as ->.
    { destruct n as [|[|n]]; [done|done|]. cbn [read_elements]. by rewrite read_value_nl. }
    rewrite skip_ws_nl, Hread, Hu, skip_ws_head by done. simpl.
    destruct c as [[] [] [] [] [] [] [] []]; done.
  - destruct o as [|kv o]; [by apply dumps_reads_back|].
    apply jwf_obj in Hwf as [Hnd Hwf]. rewrite sort_keys_obj, pretty_obj. cbn [jsize] in *.
    rewrite !str_app_assoc. set (o' := py_sorted by_key (kv :: o)).
    assert (o' ≡ₚ kv :: o) as Hp by apply py_sorted_perm.
    assert (list_sum (map (fun kv : string * json => S (jsize kv.2)) o') <= n) as Hsum.
    { rewrite (list_sum_perm _ (map (fun kv => S (jsize kv.2)) (kv :: o))) by (by rewrite Hp). lia. }
    assert (NoDup (map fst (map (fun kv => (kv.1, sort_keys kv.2)) o'))) as Hnd'.
    { rewrite map_map. simpl. by rewrite Hp. }
    rewrite <- Hp in IH, Hwf. clearbody o'.
    destruct o' as [|[k x] o']; [by apply Permutation_nil_cons in Hp|]. clear Hp Hnd Hn Hn'.
    pose proof (read_members_pretty ((k, x) :: o') (S level) level n rest IH Hwf ltac:(done) Hsum) as Hread.
    set (m := String.concat _ (map _ ((k, x) :: o')) +:+ _) in *.
    assert (exists u, m = String quote u) as [u Hu].
    { subst m. cbn [map]. rewrite str_concat_cons, !str_app_assoc. cbn [fst]. rewrite dumps_str_app. by eauto. }
    change ("{" +:+ ?q) with (String "{" q).
    cbn [read_value]. rewrite skip_ws_head by done.
    change (match skip_ws (nl (S level) +:+ m) with
            | String "}"%char r => Some (JObj [], r)
            | _ => '(o, r) ← read_members n (nl (S level) +:+ m); Some (JObj (dict_of_pairs o), r)
            end = Some (JObj (map (fun kv => (kv.1, sort_keys kv.2)) ((k, x) :: o')), rest)).
    assert (read_members n (nl (S level) +:+ m) = read_members n m) as ->.
    { destruct n as [|n]; [done|]. cbn [read_members]. by rewrite skip_ws_nl. }
    rewrite skip_ws_nl, Hread, Hu, skip_ws_head by done. simpl. by rewrite dict_of_pairs_NoDup.
Qed.

(** The indented text is no shorter than the compact one. *)
Lemma dumps_shorter v level : String.length (dumps v) <= String.length (pretty level v).
Proof.
  revert level. induction v as [|b|z|r|s|l IH|o IH] using json_ind'; intros level; try done.
  - destruct l as [|x l]; [done|]. rewrite pretty_arr. cbn [dumps].
    rewrite !str_length_app, !str_concat_length, !length_map, !map_map, str_length_app.
    assert (list_sum (map (fun x => String.length (dumps x)) (x :: l))
      <= list_sum (map (fun x => String.length (pretty (S level) x)) (x :: l))).
    { apply list_sum_map_le. eapply Forall_impl; [exact IH|]. cbn. auto. }
    cbn [length] in *. lia.
  - destruct o as [|kv o]; [done|]. rewrite pretty_obj, dumps_obj.
    rewrite !str_length_app, !str_concat_length, !length_map, !map_map, str_length_app.
    assert (list_sum (map (fun kv : string * json => String.length (dumps_str kv.1 +:+ ":" +:+ dumps kv.2)) (py_sorted by_key (kv :: o)))
      <= list_sum (map (fun kv => String.length (dumps_str kv.1 +:+ ": " +:+ pretty (S level) kv.2)) (py_sorted by_key (kv :: o)))).
    { apply list_sum_map_le. apply Forall_sorted. eapply Forall_impl; [exact IH|]. cbn. intros x Hx.
      rewrite !str_length_app. specialize (Hx (S level)). cbn. lia. }
    set (len := length (py_sorted by_key (kv :: o))) in *. cbn [String.length] in *. nia.
Qed.

Lemma loads_indent v : jwf v -> loads (dumps_indent v +:+ newline) = Some (sort_keys v).
Proof.
  intros Hwf. unfold loads. assert (delim newline) as Hd by (simpl; by auto).
  unfold dumps_indent. rewrite (pretty_reads_back v Hwf 0 _ newline Hd); [done|].
  rewrite str_length_app. pose proof (jsize_dumps v Hwf). pose proof (dumps_shorter v 0). lia.
Qed.

End Pretty.
