(* ===== verification/Lines.v ===== *)
(** Line-oriented records: Python's [bytes.splitlines] and the lines that
    canonical JSON texts make.  Shared by the tuning journal and the event log
    of the job store, which both recover from a torn last line. *)

From S2P Require Import Prelude Json.
Import Json.

Module Lines.

Definition is_lf (c : Ascii.ascii) : bool := (Ascii.nat_of_ascii c =? 10)%nat.
Definition is_cr (c : Ascii.ascii) : bool := (Ascii.nat_of_ascii c =? 13)%nat.

(** [data.splitlines(keepends=True)] *)
Fixpoint splitlines (s : string) : list string :=
  match s with
  | EmptyString => []
  | String c s' =>
      if is_lf c then String c "" :: splitlines s'
      else if is_cr c then
        match s' with
        | String d s'' =>
            if is_lf d then String c (String d "") :: splitlines s''
            else String c "" :: splitlines s'
        | EmptyString => [String c ""]
        end
      else
        match splitlines s' with
        | [] => [String c ""]
        | l :: ls => String c l :: ls
        end
  end.

Fixpoint str_all (f : Ascii.ascii -> bool) (s : string) : bool :=
  match s with EmptyString => true | String c s' => f c && str_all f s' end.

(** The last character, if any. *)
Fixpoint str_last (s : string) : option Ascii.ascii :=
  match s with
  | EmptyString => None
  | String c EmptyString => Some c
  | String _ s' => str_last s'
  end.

Definition ends_lf (s : string) : bool :=
  match str_last s with Some c => is_lf c | None => false end.
Definition ends_eol (s : string) : bool :=
  match str_last s with Some c => is_lf c || is_cr c | None => false end.

(** [raw.rstrip(b"\r\n")] *)
Fixpoint rstrip_eol (s : string) : string :=
  match s with
  | EmptyString => EmptyString
  | String c s' =>
      match rstrip_eol s' with
      | EmptyString => if is_lf c || is_cr c then EmptyString else String c EmptyString
      | t => String c t
      end
  end.

Fixpoint str_take (n : nat) (s : string) : string :=
  match n, s with S n', String c s' => String c (str_take n' s') | _, _ => "" end.

(** A printable ASCII character. *)
Definition printable (c : Ascii.ascii) : bool :=
  let n := Ascii.nat_of_ascii c in (32 <=? n)%nat && (n <=? 126)%nat.

(** The text of a list of records, one per line. *)
Definition line_of (v : json) : string := dumps v +:+ newline.
Definition text_of (vs : list json) : string := String.concat "" (map line_of vs).

(** ** Lemmas *)

Lemma str_all_app f s t : str_all f (s +:+ t) = str_all f s && str_all f t.
Proof.
  induction s as [|c s IH]; [done|]. rewrite str_app_cons. cbn [str_all]. by rewrite IH, andb_assoc.
Qed.

Lemma str_all_concat f sep l :
  str_all f sep = true -> Forall (fun s => str_all f s = true) l ->
  str_all f (String.concat sep l) = true.
Proof.
  intros Hs. induction 1 as [|x l Hx Hl IH]; [done|]. rewrite str_concat_cons, str_all_app, Hx.
  destruct l; [done|]. by rewrite str_all_app, Hs, IH.
Qed.

Lemma printable_esc_char c : str_all printable (esc_char c) = true.
Proof. destruct c as [[] [] [] [] [] [] [] []]; reflexivity. Qed.

Lemma printable_dumps_str s : str_all printable (dumps_str s) = true.
Proof.
  unfold dumps_str. cbn [str_all]. rewrite str_all_app. change (printable quote) with true.
  change (str_all printable (String quote "")) with true. rewrite andb_true_r. simpl.
  induction s as [|c s IH]; [done|]. change (esc (String c s)) with (esc_char c +:+ esc s).
  by rewrite str_all_app, printable_esc_char, IH.
Qed.

Lemma printable_show_N_go fuel n acc :
  str_all printable acc = true -> str_all printable (show_N_go fuel n acc) = true.
Proof.
  revert n acc. induction fuel as [|fuel IH]; intros n acc Ha; [done|]. cbn [show_N_go].
  assert (str_all printable (String (digit_char (n mod 10)) acc) = true) as Hc.
  { cbn [str_all]. rewrite Ha, andb_true_r.
    refine (digit_cases (fun c => printable c = true) _ _ _ _ _ _ _ _ _ _ (n mod 10) _);
      try reflexivity. by apply N.mod_lt. }
  destruct (n <? 10)%N; [done|by apply IH].
Qed.

Lemma printable_show_Z z : str_all printable (show_Z z) = true.
Proof.
  unfold show_Z, show_N. destruct (z <? 0)%Z; cbn [str_all]; by rewrite printable_show_N_go.
Qed.

(** The canonical text of a value is printable ASCII. *)
Lemma printable_dumps v : jwf v -> str_all printable (dumps v) = true.
Proof.
  induction v as [|[]|z|r|s|l IH|o IH] using json_ind'; intros Hwf; try done.
  - apply printable_show_Z.
  - apply printable_dumps_str.
  - apply jwf_arr in Hwf. cbn [dumps]. rewrite !str_all_app. simpl. rewrite andb_true_r.
    apply str_all_concat; [done|]. rewrite Forall_map. rewrite Forall_forall in *. auto.
  - apply jwf_obj in Hwf as [_ Hwf]. rewrite dumps_obj, !str_all_app. simpl. rewrite andb_true_r.
    apply str_all_concat; [done|]. rewrite Forall_map, py_sorted_perm.
    rewrite Forall_forall in *. intros kv Hin. rewrite !str_all_app, printable_dumps_str. simpl. auto.
Qed.

Lemma printable_not_eol c : printable c = true -> is_lf c = false /\ is_cr c = false.
Proof.
  unfold printable, is_lf, is_cr. intros [H1%Nat.leb_le H2%Nat.leb_le]%andb_true_iff.
  split; apply Nat.eqb_neq; lia.
Qed.

Lemma splitlines_line body rest :
  str_all printable body = true ->
  splitlines (body +:+ newline +:+ rest) = (body +:+ newline) :: splitlines rest.
Proof.
  induction body as [|c body IH]; [done|]. cbn [str_all]. intros [Hc Hb]%andb_true_iff.
  apply printable_not_eol in Hc as [H1 H2]. rewrite !str_app_cons. cbn [splitlines].
  by rewrite H1, H2, IH.
Qed.

Lemma splitlines_tail t :
  str_all printable t = true -> splitlines t = if String.eqb t "" then [] else [t].
Proof.
  induction t as [|c t IH]; [done|]. cbn [str_all]. intros [Hc Ht]%andb_true_iff.
  apply printable_not_eol in Hc as [H1 H2]. cbn [splitlines]. rewrite H1, H2, IH by done.
  by destruct t.
Qed.

Lemma str_last_app s c : str_last (s +:+ String c "") = Some c.
Proof. induction s as [|d s IH]; [done|]. rewrite str_app_cons. cbn [str_last]. rewrite IH. by destruct s. Qed.

Lemma ends_lf_line s : ends_lf (s +:+ newline) = true.
Proof. unfold ends_lf, newline. by rewrite str_last_app. Qed.

Lemma ends_eol_line s : ends_eol (s +:+ newline) = true.
Proof. unfold ends_eol, newline. by rewrite str_last_app. Qed.

Lemma printable_last t : str_all printable t = true -> ends_eol t = false /\ ends_lf t = false.
Proof.
  unfold ends_eol, ends_lf. induction t as [|c t IH]; [done|]. cbn [str_all].
  intros [Hc Ht]%andb_true_iff. destruct t as [|d t].
  - simpl. by apply printable_not_eol in Hc as [-> ->].
  - by apply IH.
Qed.

Lemma rstrip_eol_printable t : str_all printable t = true -> rstrip_eol t = t.
Proof.
  induction t as [|c t IH]; [done|]. cbn [str_all]. intros [Hc Ht]%andb_true_iff.
  cbn [rstrip_eol]. rewrite IH by done. apply printable_not_eol in Hc as [-> ->]. by destruct t.
Qed.

Lemma rstrip_eol_line t : str_all printable t = true -> rstrip_eol (t +:+ newline) = t.
Proof.
  induction t as [|c t IH]; [done|]. cbn [str_all]. intros [Hc Ht]%andb_true_iff.
  rewrite str_app_cons. cbn [rstrip_eol]. rewrite IH by done.
  apply printable_not_eol in Hc as [-> ->]. by destruct t.
Qed.

Lemma text_of_cons v vs : text_of (v :: vs) = dumps v +:+ newline +:+ text_of vs.
Proof.
  unfold text_of, line_of. cbn [map]. rewrite str_concat_cons, str_app_assoc.
  by destruct (map _ vs).
Qed.

Lemma text_of_app vs ws : text_of (vs ++ ws) = text_of vs +:+ text_of ws.
Proof.
  induction vs as [|v vs IH]; [done|]. cbn [app]. rewrite !text_of_cons, IH.
  by rewrite !str_app_assoc.
Qed.

(** Whole lines and a torn rest are split into the lines and the rest. *)
Lemma splitlines_text vs t :
  Forall jwf vs -> str_all printable t = true ->
  splitlines (text_of vs +:+ t) = map line_of vs ++ (if String.eqb t "" then [] else [t]).
Proof.
  induction 1 as [|v vs Hv Hvs IH]; intros Ht; [by apply splitlines_tail|].
  rewrite text_of_cons, !str_app_assoc, splitlines_line by (by apply printable_dumps).
  by rewrite IH.
Qed.

Lemma str_take_app n s t :
  str_take n (s +:+ t) = str_take n s +:+ str_take (n - String.length s) t.
Proof.
  revert n. induction s as [|c s IH]; intros n.
  - simpl. rewrite Nat.sub_0_r. by destruct n.
  - destruct n as [|n]; [done|]. rewrite !str_app_cons. cbn [str_take]. rewrite IH. done.
Qed.

Lemma str_take_all n s : String.length s <= n -> str_take n s = s.
Proof.
  revert n. induction s as [|c s IH]; intros [|n]; simpl; try done; [lia|].
  intros H. rewrite IH by lia. done.
Qed.

Lemma str_take_printable n s : str_all printable s = true -> str_all printable (str_take n s) = true.
Proof.
  revert n. induction s as [|c s IH]; intros [|n]; simpl; try done.
  intros [-> Hs]%andb_true_iff. by apply IH.
Qed.

(** Cutting a text of records at any byte leaves some whole records and the
    front of the next, without its line feed. *)
Lemma str_take_text n vs :
  Forall jwf vs ->
  exists k t, str_take n (text_of vs) = text_of (take k vs) +:+ t /\
    str_all printable t = true /\ (t <> "" -> k < length vs) /\ k <= length vs /\
    (n < String.length (text_of vs) -> k < length vs) /\
    String.length (text_of (take k vs)) <= n /\
    (forall j, j <= length vs -> String.length (text_of (take j vs)) <= n -> j <= k).
Proof.
  intros H. revert n. induction H as [|v vs Hv Hvs IH]; intros n.
  - exists 0, "". split_and!; simpl; try done; intros; try lia. by destruct n.
  - destruct (decide (n < String.length (dumps v +:+ newline))) as [Hlt|Hge].
    + exists 0, (str_take n (dumps v)). rewrite text_of_cons, str_take_app.
      rewrite str_length_app in Hlt. simpl in Hlt.
      replace (n - String.length (dumps v)) with 0 by lia.
      change (str_take 0 (newline +:+ text_of vs)) with "". rewrite str_app_nil_r.
      split_and!; simpl; try done; intros; try lia.
      * by apply str_take_printable, printable_dumps.
      * destruct j as [|j]; [lia|]. simpl take in *. rewrite text_of_cons in *.
        rewrite !str_length_app in *. simpl in *. lia.
    + destruct (IH (n - String.length (dumps v +:+ newline))) as (k & t & E & Ht & H1 & H2 & H3 & H4 & H5).
      exists (S k), t. cbn [take]. rewrite !text_of_cons, <- !str_app_assoc.
      rewrite str_take_app, str_take_all by lia. rewrite E, !str_app_assoc.
      split_and!; simpl; try done.
      * intros Hne. specialize (H1 Hne). lia.
      * lia.
      * intros Hn. rewrite !str_length_app in *. simpl in *. lia.
      * rewrite !str_length_app in *. simpl in *. lia.
      * intros [|j] Hj Hlen; [lia|]. apply le_n_S, H5; [lia|]. simpl take in Hlen.
        rewrite text_of_cons, !str_length_app in *. simpl in *. lia.
Qed.

End Lines.
