(* ===== verification/Tree.v ===== *)
(** A tree of files whose every write may fail, for the components that work on
    whole trees ([Apply], [Artifacts]).

    Reading never fails; each operation that writes takes one entry of the
    list of faults, which says whether it fails, what it raises then and what
    it leaves in the file.  A statement for every list of faults is one about
    every failure. *)

From S2P Require Import Prelude Json Lines.
Import Lines.

Module Tree.

Notation path := (list string).

Definition OSError (msg : string) : exn := Exn "OSError" msg.

Inductive node : Type :=
| File (content : string)
| Symlink
| Directory.

#[global] Instance node_eq_dec : EqDecision node.
Proof. solve_decision. Defined.

Notation tree := (gmap path node).

(** How the next write fails: what it raises, and what it leaves in the file. *)
Record fault : Type := mkFault { raised : exn; left : option string }.

Record Disk : Type := mkDisk { files : tree; faults : list (option fault) }.

Definition node_at (t : tree) (p : path) : option node :=
  match p with [] => Some Directory | _ => t !! p end.

Definition is_file (t : tree) (p : path) : bool :=
  match node_at t p with Some (File _) => true | _ => false end.

(** [read_text]: universal newlines. *)
Fixpoint universal (s : string) : string :=
  match s with
  | EmptyString => EmptyString
  | String c s' =>
      if is_cr c then
        String "010" (match s' with String d s'' => if is_lf d then universal s'' else universal s' | _ => "" end)
      else String c (universal s')
  end.

Definition read_text (t : tree) (p : path) : option string :=
  match node_at t p with Some (File c) => Some (universal c) | _ => None end.

Definition next_fault : stm Disk (option fault) := fun w =>
  match faults w with
  | [] => (Ok None, w)
  | f :: fs => (Ok f, mkDisk (files w) fs)
  end.

Definition set_node (p : path) (n : node) : stm Disk unit :=
  modify (fun w => mkDisk (<[p := n]> (files w)) (faults w)).

(** Opening a file for writing and writing it: a directory refuses. *)
Definition write_file (p : path) (s : string) : stm Disk unit :=
  w ← get;
  match node_at (files w) p with
  | Some Directory => raise (OSError "[Errno 21] Is a directory")
  | Some Symlink => raise (OSError "[Errno 40] Too many levels of symbolic links")
  | _ =>
      f ← next_fault;
      match f with
      | None => set_node p (File s)
      | Some f => _ ← (match left f with Some c => set_node p (File c) | None => mret tt end); raise (raised f)
      end
  end.

(** One directory of [mkdir(parents=True, exist_ok=True)]. *)
Definition make_dir (p : path) : stm Disk unit :=
  w ← get;
  match node_at (files w) p with
  | Some Directory => mret tt
  | Some _ => raise (OSError "[Errno 17] File exists")
  | None => f ← next_fault; match f with None => set_node p Directory | Some f => raise (raised f) end
  end.

Definition unlink (p : path) : stm Disk unit :=
  f ← next_fault;
  match f with
  | None => modify (fun w => mkDisk (delete p (files w)) (faults w))
  | Some f => raise (raised f)
  end.

(** ** Lemmas *)

Lemma next_fault_run w r w' : next_fault w = (r, w') -> exists f, r = Ok f /\ files w' = files w.
Proof. unfold next_fault. destruct (faults w); intros [= <- <-]; by eexists. Qed.

Lemma make_dir_run p w r w' : make_dir p w = (r, w') ->
  files w' = files w \/ (files w !! p = None /\ files w' = <[p := Directory]> (files w)).
Proof.
  unfold make_dir. unfold mbind at 1, stm_bind at 1, get.
  destruct (node_at (files w) p) as [[c0| |]|] eqn:E; try by intros [= <- <-]; left.
  assert (files w !! p = None) as Hn by (by destruct p).
  unfold mbind, stm_bind. destruct (next_fault w) as [r1 w1] eqn:Ef.
  destruct (next_fault_run _ _ _ Ef) as ([f|] & -> & Hf); intros [= <- <-]; [by left|].
  right. cbn. by rewrite Hf.
Qed.

Lemma read_text_Some t p s : read_text t p = Some s -> exists c, t !! p = Some (File c) /\ s = universal c.
Proof. unfold read_text. destruct p as [|x p]; [done|]. cbn. destruct (_ !! _) as [[c| |]|]; try done. intros [= <-]. by exists c. Qed.

Lemma read_text_None t p : read_text t p = None -> p = [] \/ (forall c, t !! p <> Some (File c)).
Proof. unfold read_text. destruct p as [|x p]; [by left|]. cbn. intros Hn. right. intros c Hc. by rewrite Hc in Hn. Qed.


Fixpoint no_cr (s : string) : bool :=
  match s with EmptyString => true | String c s' => negb (is_cr c) && no_cr s' end.

Lemma no_cr_app s t : no_cr (s +:+ t) = no_cr s && no_cr t.
Proof. induction s as [|c s IH]; [done|]. rewrite str_app_cons. cbn. by rewrite IH, andb_assoc. Qed.

Lemma universal_no_cr s : no_cr s = true -> universal s = s.
Proof.
  induction s as [|c s IH]; [done|]. cbn. destruct (is_cr c); [done|]. cbn. intros H1. by rewrite IH.
Qed.

Lemma write_file_run p s w r w' : write_file p s w = (r, w') ->
  files w' = files w \/
  (p <> [] /\ (files w !! p = None \/ exists c, files w !! p = Some (File c)) /\
   exists c, files w' = <[p := File c]> (files w) /\ (is_ok r = true -> c = s)).
Proof.
  unfold write_file. unfold mbind at 1, stm_bind at 1, get.
  destruct (node_at (files w) p) as [[c0| |]|] eqn:E; try by intros [= <- <-]; left.
  all: assert (node_at (files w) p = files w !! p) as Hn by (by destruct p).
  all: assert (p <> []) as Hp by (by intros ->).
  all: unfold mbind at 1, stm_bind at 1; destruct (next_fault w) as [r1 w1] eqn:Ef;
    destruct (next_fault_run _ _ _ Ef) as ([f|] & -> & Hf).
  all: rewrite <- Hn, E; unfold set_node, modify, mbind, stm_bind, raise, mret, stm_ret.
  all: try (destruct (left f) as [c|]); intros [= <- <-]; try (left; exact Hf); right;
    (split; [done|]); (split; [eauto|]); eexists; cbn; rewrite Hf; split; done.
Qed.

Lemma write_file_ok p s w u w' : write_file p s w = (Ok u, w') -> files w' = <[p := File s]> (files w).
Proof.
  unfold write_file. unfold mbind at 1, stm_bind at 1, get.
  destruct (node_at (files w) p) as [[c| |]|]; try done; unfold mbind at 1, stm_bind at 1;
    destruct (next_fault w) as [r1 w1] eqn:Ef; destruct (next_fault_run _ _ _ Ef) as ([f|] & -> & Hf);
    [by destruct (left f)|intros [= _ <-]; cbn; by rewrite Hf|by destruct (left f)|intros [= _ <-]; cbn; by rewrite Hf].
Qed.

End Tree.
