(* ===== verification/Window.v ===== *)
(** The measurement window: [src/tools/bigcherry/jobs/window.py].

    The window is the lease under which a timed run takes GPUs away from the
    production backend.  [transition] is the whole of the Python function; the
    step relation [wstep] is the life cycle it promises, and the theorems show
    that it implements that life cycle and no other. *)

From S2P Require Import Prelude.

Module Window.

Inductive WindowState : Set :=
| CLOSED | REQUESTED | DRAINING | ACTIVE | CLOSING | RECOVERY.

#[global] Instance WindowState_eq_dec : EqDecision WindowState.
Proof. solve_decision. Defined.

(** The [str] value of the enum member. *)
Definition state_value (s : WindowState) : string :=
  match s with
  | CLOSED => "closed" | REQUESTED => "requested" | DRAINING => "draining"
  | ACTIVE => "active" | CLOSING => "closing" | RECOVERY => "recovery"
  end.

Record WindowRequest : Set := mkWindowRequest {
  window_id : string;
  execution_id : string;
  target_device_ids : list string;
  inventory_hash : string;
  production_config_hash : string;
  deadline_unix_ns : Z;
}.

#[global] Instance WindowRequest_eq_dec : EqDecision WindowRequest.
Proof. solve_decision. Defined.

(** [WindowRequest.__post_init__] *)
Definition check_request (r : WindowRequest) : res unit :=
  _ ← ensure (negb (blank (window_id r)) && negb (blank (execution_id r)))
        (ValueError "window_id and execution_id are required");
  _ ← ensure (bool_decide (target_device_ids r <> []))
        (ValueError "measurement window needs target_device_ids");
  _ ← ensure (bool_decide (length (remove_dups (target_device_ids r))
                           = length (target_device_ids r)))
        (ValueError "target_device_ids contains duplicates");
  _ ← ensure (truthy (inventory_hash r) && truthy (production_config_hash r))
        (ValueError "inventory and production config hashes are required");
  ensure (0 <? deadline_unix_ns r)%Z (ValueError "deadline must be positive").

(** Constructing a request runs the checks. *)
Definition new_request (r : WindowRequest) : res WindowRequest :=
  _ ← check_request r; Ok r.

Record WindowRecord : Set := mkWindowRecord {
  state : WindowState;
  request : option WindowRequest;
  reason : option string;
}.

#[global] Instance WindowRecord_eq_dec : EqDecision WindowRecord.
Proof. solve_decision. Defined.

Definition WindowError (msg : string) : exn := Exn "WindowError" msg.

(** [==] of two members of a string enum. *)
Definition state_eqb (s t : WindowState) : bool := String.eqb (state_value s) (state_value t).

Definition transition (record : WindowRecord) (action : string)
    (req : option WindowRequest) (why : option string) : res WindowRecord :=
  let st := state record in
  if String.eqb action "request" then
    match req with
    | None => Err (WindowError "request action requires WindowRequest")
    | Some r =>
        if state_eqb st CLOSED then Ok (mkWindowRecord REQUESTED (Some r) None)
        else if state_eqb st REQUESTED && bool_decide (request record = Some r) then Ok record
        else Err (WindowError ("cannot request window from " +:+ state_value st))
    end
  else if String.eqb action "begin-drain" then
    if state_eqb st DRAINING then Ok record
    else if negb (state_eqb st REQUESTED) then
      Err (WindowError ("cannot begin drain from " +:+ state_value st))
    else Ok (mkWindowRecord DRAINING (request record) None)
  else if String.eqb action "activate" then
    if state_eqb st ACTIVE then Ok record
    else if negb (state_eqb st DRAINING) then
      Err (WindowError ("cannot activate from " +:+ state_value st))
    else Ok (mkWindowRecord ACTIVE (request record) None)
  else if String.eqb action "close" then
    if state_eqb st CLOSED then Ok record
    else if state_eqb st CLOSING then Ok record
    else if existsb (state_eqb st) [REQUESTED; DRAINING; ACTIVE] then
      Ok (mkWindowRecord CLOSING (request record) why)
    else if state_eqb st RECOVERY then Ok record
    else Err (WindowError ("cannot close from " +:+ state_value st))
  else if String.eqb action "closed" then
    if state_eqb st CLOSED then Ok record
    else if negb (existsb (state_eqb st) [CLOSING; RECOVERY]) then
      Err (WindowError ("cannot mark closed from " +:+ state_value st))
    else Ok (mkWindowRecord CLOSED None why)
  else if String.eqb action "recover" then
    if state_eqb st CLOSED then Ok record
    else if state_eqb st RECOVERY then Ok record
    else Ok (mkWindowRecord RECOVERY (request record) (Some (opt_or why "recovery")))
  else Err (WindowError ("unknown measurement-window action: " +:+ action)).

Definition deadline_expired (record : WindowRecord) (now_unix_ns : Z) : bool :=
  match request record with
  | Some r => negb (state_eqb (state record) CLOSED) && (deadline_unix_ns r <=? now_unix_ns)%Z
  | None => false
  end.

(** ** The life cycle, as an abstract step relation *)

(** What the window promises: a lease [r] is requested, drained, activated and
    released, and only a closing or a recovering window becomes closed. *)
Inductive wstep : WindowState * option WindowRequest ->
                  WindowState * option WindowRequest -> Prop :=
| ws_request r : wstep (CLOSED, None) (REQUESTED, Some r)
| ws_drain r : wstep (REQUESTED, Some r) (DRAINING, Some r)
| ws_activate r : wstep (DRAINING, Some r) (ACTIVE, Some r)
| ws_close s r : s = REQUESTED \/ s = DRAINING \/ s = ACTIVE ->
    wstep (s, Some r) (CLOSING, Some r)
| ws_recover s r : s <> CLOSED -> s <> RECOVERY -> wstep (s, Some r) (RECOVERY, Some r)
| ws_closed s r : s = CLOSING \/ s = RECOVERY -> wstep (s, Some r) (CLOSED, None).

Definition view (record : WindowRecord) : WindowState * option WindowRequest :=
  (state record, request record).

(** The request is held exactly while the window is not closed. *)
Definition window_wf (record : WindowRecord) : Prop :=
  is_Some (request record) <-> state record <> CLOSED.

(** A request made by a caller of [transition]. *)
Record call : Set := mkCall {
  c_action : string; c_request : option WindowRequest; c_reason : option string }.

(** The records seen while a list of accepted calls is made. *)
Fixpoint run_calls (record : WindowRecord) (cs : list call) : res (list WindowRecord) :=
  match cs with
  | [] => Ok []
  | c :: cs' =>
      r' ← transition record (c_action c) (c_request c) (c_reason c);
      rest ← run_calls r' cs';
      Ok (r' :: rest)
  end.

Definition initial : WindowRecord := mkWindowRecord CLOSED None None.

(** ** Lemmas *)

(** Case analysis on the action of one accepted call, the state being known. *)
Ltac window_cases H :=
  unfold transition in H; cbn in H;
  repeat match type of H with
  | context [if String.eqb ?a ?b then _ else _] => destruct (String.eqb_spec a b); [subst|]
  | context [if bool_decide ?P then _ else _] => destruct (bool_decide_reflect P)
  | context [match ?x with Some _ => _ | None => _ end] => destruct x
  end;
  try discriminate H; injection H as H; subst.

Lemma window_wf_initial : window_wf initial.
Proof. split; [by intros [? [=]] | done]. Qed.

(** A well-formed record, state by state. *)
Lemma window_wf_inv record :
  window_wf record ->
  (state record = CLOSED /\ request record = None) \/
  (state record <> CLOSED /\ exists r, request record = Some r).
Proof.
  unfold window_wf. destruct record as [st [rq|] rs]; simpl; intros Hwf.
  - right. split; [by apply Hwf | by eauto].
  - left. split; [|done]. destruct (decide (st = CLOSED)); [done|].
    exfalso. by apply Hwf in n as [? ?].
Qed.

(** Every accepted call is a stutter or one step of the life cycle. *)
Lemma transition_simulates record a req why record' :
  window_wf record -> transition record a req why = Ok record' ->
  record' = record \/ wstep (view record) (view record').
Proof.
  intros Hwf%window_wf_inv H. unfold view.
  destruct record as [st rq rs]; simpl in *.
  destruct Hwf as [[-> ->]|[Hne [r ->]]]; [|destruct st]; try done; window_cases H;
    simpl; auto using wstep.
  all: right; constructor; by auto.
Qed.

Lemma wstep_wf s o s' o' :
  (is_Some o <-> s <> CLOSED) -> wstep (s, o) (s', o') -> (is_Some o' <-> s' <> CLOSED).
Proof.
  intros _ H. inversion H; subst; simpl; split; try done; try (by eauto); by intros [? [=]].
Qed.

Lemma transition_wf record a req why record' :
  window_wf record -> transition record a req why = Ok record' -> window_wf record'.
Proof.
  intros Hwf H. destruct (transition_simulates _ _ _ _ _ Hwf H) as [->|Hs]; [done|].
  by apply (wstep_wf _ _ _ _ Hwf Hs).
Qed.
#[export] Hint Resolve transition_wf window_wf_initial : window.

(** Every step of the life cycle is made by some call. *)
Lemma wstep_realised s o s' o' rs :
  wstep (s, o) (s', o') ->
  exists a req why record',
    transition (mkWindowRecord s o rs) a req why = Ok record' /\ view record' = (s', o').
Proof.
  inversion 1; subst.
  - by exists "request", (Some r), None; eexists.
  - by exists "begin-drain", None, None; eexists.
  - by exists "activate", None, None; eexists.
  - exists "close", None, None. destruct s; naive_solver.
  - exists "recover", None, None. destruct s; naive_solver.
  - exists "closed", None, None. destruct s; naive_solver.
Qed.

(** A run of accepted calls as a run of the life cycle with stutters. *)
Inductive lifecycle_run :
  WindowState * option WindowRequest -> list (WindowState * option WindowRequest) -> Prop :=
| lr_nil v : lifecycle_run v []
| lr_stutter v vs : lifecycle_run v vs -> lifecycle_run v (v :: vs)
| lr_step v v' vs : wstep v v' -> lifecycle_run v' vs -> lifecycle_run v (v' :: vs).
#[export] Hint Constructors lifecycle_run : window.

Lemma run_calls_lifecycle record cs recs :
  window_wf record -> run_calls record cs = Ok recs ->
  Forall window_wf recs /\ lifecycle_run (view record) (view <$> recs).
Proof.
  revert record recs; induction cs as [|c cs IH]; simpl; intros record recs Hwf H; inv_ok.
  - by split; [|constructor].
  - assert (window_wf x) as Hx by eauto with window.
    destruct (IH _ _ Hx H1) as [Hall Hrun]. split; [by constructor|]. simpl.
    destruct (transition_simulates _ _ _ _ _ Hwf H0) as [->|Hs]; eauto with window.
Qed.

Definition held (s : WindowState) : Prop := s = REQUESTED \/ s = DRAINING \/ s = ACTIVE.
Definition releasing (s : WindowState) : Prop := s = CLOSING \/ s = RECOVERY.

(** From a held window the life cycle reaches [CLOSED] through a releasing state. *)
Lemma lifecycle_release v vs i r :
  lifecycle_run v vs -> held v.1 -> vs !! i = Some (CLOSED, r) ->
  exists j w, j < i /\ vs !! j = Some w /\ releasing w.1.
Proof.
  intros Hrun. revert i; induction Hrun as [v|v vs Hrun IH|v v' vs Hs Hrun IH];
    intros i Hheld Hi; [done| |].
  - destruct i as [|i]; [injection Hi as ->; by destruct Hheld as [?|[?|?]]|].
    destruct (IH i Hheld Hi) as (j & w & ? & ? & ?). exists (S j), w. split; [lia|done].
  - assert (releasing v'.1 \/ held v'.1) as [Hr|Hh].
    { unfold held, releasing in *. inversion Hs; subst; simpl in *; naive_solver. }
    + destruct i as [|i]; [injection Hi as ->; by destruct Hr|]. exists 0, v'. split; [lia|done].
    + destruct i as [|i]; [injection Hi as ->; by destruct Hh as [?|[?|?]]|].
      destruct (IH i Hh Hi) as (j & w & ? & ? & ?). exists (S j), w. split; [lia|done].
Qed.

(** ** Theorems *)

(** C25 Every run of accepted calls of [transition] from the closed window is
    a run, up to stutters, of the abstract life cycle, keeps "a request is held
    exactly while the window is not closed", and every step of the life cycle
    is available as a call. *)
Theorem window_refines_lifecycle cs recs :
  run_calls initial cs = Ok recs ->
  Forall window_wf recs /\ lifecycle_run (view initial) (view <$> recs) /\
  (forall record v', window_wf record -> wstep (view record) v' ->
     exists a req why record', transition record a req why = Ok record' /\ view record' = v').
Proof.
  intros H. destruct (run_calls_lifecycle _ _ _ window_wf_initial H) as [? ?].
  split_and!; [done|done|]. intros [s o rs] [s' o'] _ Hs.
  by apply (wstep_realised s o s' o' rs).
Qed.

(** A window that holds or is taking GPUs (requested, draining or active)
    is marked closed - the point at which production may restart - only after
    it was closing or in recovery, whatever calls are made. *)
Theorem window_no_restart_before_release record cs recs i rec :
  window_wf record -> held (state record) ->
  run_calls record cs = Ok recs -> recs !! i = Some rec -> state rec = CLOSED ->
  exists j rec', j < i /\ recs !! j = Some rec' /\ releasing (state rec').
Proof.
  intros Hwf Hh Hrun Hi Hc.
  destruct (run_calls_lifecycle _ _ _ Hwf Hrun) as [_ Hl].
  destruct (lifecycle_release _ _ i (request rec) Hl Hh) as (j & w & Hj & Hw & Hr).
  { rewrite list_lookup_fmap, Hi. simpl. unfold view. by rewrite Hc. }
  rewrite list_lookup_fmap in Hw. destruct (recs !! j) as [rec'|] eqn:E; [|done].
  injection Hw as <-. eauto.
Qed.

(** Every action of the window is idempotent: repeating an accepted call
    with the same arguments is accepted and changes nothing. *)
Theorem transition_idempotent record a req why record' :
  transition record a req why = Ok record' -> transition record' a req why = Ok record'.
Proof.
  destruct record as [[] rq rs]; intros H; window_cases H; unfold transition; simpl;
    rewrite ?bool_decide_eq_true_2 by done; done.
Qed.

(** Whatever state a window is in, recovering it and marking it closed are
    accepted in this order and release it; in particular once its deadline has
    passed. *)
Theorem window_can_always_be_released record why :
  exists recs rec, run_calls record [mkCall "recover" None why; mkCall "closed" None why] = Ok recs
    /\ last recs = Some rec /\ state rec = CLOSED
    /\ forall now, deadline_expired rec now = false.
Proof.
  destruct record as [[] rq rs]; (do 2 eexists; split; [reflexivity|]);
    (split; [reflexivity|]); (split; [reflexivity|]); intros; unfold deadline_expired;
    simpl; try done; by destruct rq.
Qed.

(** ** Concrete runs *)

Definition demo_request : WindowRequest :=
  mkWindowRequest "w1" "r-1:a1" ["gpu0"; "gpu1"] "inv" "cfg" 1000.

Definition demo_calls : list call :=
  [mkCall "request" (Some demo_request) None; mkCall "begin-drain" None None;
   mkCall "activate" None None; mkCall "close" None (Some "done"); mkCall "closed" None None].

Example new_request_ok : new_request demo_request = Ok demo_request.
Proof. reflexivity. Qed.

Example new_request_duplicate :
  new_request (mkWindowRequest "w1" "e" ["a"; "a"] "i" "c" 1)
  = Err (ValueError "target_device_ids contains duplicates").
Proof. reflexivity. Qed.

Lemma window_refines_lifecycle_witness :
  exists recs, run_calls initial demo_calls = Ok recs /\ length recs = 5
    /\ lifecycle_run (view initial) (view <$> recs).
Proof.
  eexists. split; [reflexivity|]. split; [reflexivity|].
  refine (proj1 (proj2 (window_refines_lifecycle demo_calls _ eq_refl))).
Defined.

Lemma window_no_restart_witness :
  exists recs rec j rec', run_calls (mkWindowRecord REQUESTED (Some demo_request) None)
      (drop 1 demo_calls) = Ok recs /\ recs !! 3 = Some rec
    /\ j < 3 /\ recs !! j = Some rec' /\ releasing (state rec').
Proof.
  do 2 eexists.
  destruct (window_no_restart_before_release
    (mkWindowRecord REQUESTED (Some demo_request) None) (drop 1 demo_calls)
    _ 3 _ ltac:(split; [done | by eauto]) ltac:(by left) eq_refl eq_refl eq_refl)
    as (j & rec' & ? & ? & ?).
  exists j, rec'. split; [reflexivity|]. split; [reflexivity|]. done.
Defined.

Lemma transition_idempotent_witness :
  transition (mkWindowRecord REQUESTED (Some demo_request) None) "close" None (Some "x")
  = Ok (mkWindowRecord CLOSING (Some demo_request) (Some "x")) /\
  transition (mkWindowRecord CLOSING (Some demo_request) (Some "x")) "close" None (Some "x")
  = Ok (mkWindowRecord CLOSING (Some demo_request) (Some "x")).
Proof.
  split; [reflexivity|]. apply (transition_idempotent
    (mkWindowRecord REQUESTED (Some demo_request) None)). reflexivity.
Defined.

End Window.
