(* ===== verification/Capabilities.v ===== *)
(** The 128-bit capability mask: [src/tools/bigcherry/tuning/capabilities.py].

    A mask is an unsigned 128-bit integer with three external forms: two 64-bit
    words, 16 big-endian bytes and 32 lower-case hexadecimal digits.  The type
    tests of the Python code ([isinstance]) are the types of the model. *)

From S2P Require Import Prelude.

Module Capabilities.

Definition BIT_WIDTH : Z := 128.
Definition BYTE_LENGTH : nat := 16.
Definition HEX_LENGTH : nat := 32.
Definition MAX_VALUE : Z := (Z.shiftl 1 BIT_WIDTH - 1)%Z.
Definition WORD_MASK : Z := (Z.shiftl 1 64 - 1)%Z.

Definition CapabilityMaskError (msg : string) : exn := Exn "CapabilityMaskError" msg.

Record CapabilityMask128 : Set := mkMask { value : Z }.

#[global] Instance CapabilityMask128_eq_dec : EqDecision CapabilityMask128.
Proof. solve_decision. Defined.

(** [CapabilityMask128.__post_init__], run by the constructor. *)
Definition new_mask (v : Z) : res CapabilityMask128 :=
  if (v <? 0)%Z || (MAX_VALUE <? v)%Z then
    Err (CapabilityMaskError ("capability mask value " +:+ show_Z v
           +:+ " is outside the unsigned 128-bit domain [0, " +:+ show_Z MAX_VALUE +:+ "]"))
  else Ok (mkMask v).

Definition check_word (name : string) (word : Z) : res unit :=
  if (word <? 0)%Z || (WORD_MASK <? word)%Z then
    Err (CapabilityMaskError (name +:+ " word " +:+ show_Z word
           +:+ " does not fit in an unsigned 64-bit word"))
  else Ok tt.

Definition from_words (lo hi : Z) : res CapabilityMask128 :=
  _ ← check_word "lo" lo;
  _ ← check_word "hi" hi;
  new_mask (Z.lor (Z.shiftl hi 64) lo).

(** [int.from_bytes(data, byteorder="big")] *)
Definition int_of_bytes (data : list Z) : Z :=
  fold_left (fun acc b => (acc * 256 + b)%Z) data 0%Z.

(** [v.to_bytes(n, byteorder="big")] for [v] that fits. *)
Fixpoint bytes_of_int (n : nat) (v : Z) : list Z :=
  match n with
  | O => []
  | S n' => bytes_of_int n' (v / 256)%Z ++ [(v mod 256)%Z]
  end.

Definition from_bytes (data : list Z) : res CapabilityMask128 :=
  if negb (length data =? BYTE_LENGTH)%nat then
    Err (CapabilityMaskError ("capability mask must be exactly " +:+ show_nat BYTE_LENGTH
           +:+ " bytes, got " +:+ show_nat (length data)))
  else new_mask (int_of_bytes data).

(** [str.lower] on code points below 256. *)
Definition lower_char (c : Ascii.ascii) : Ascii.ascii :=
  let n := Ascii.nat_of_ascii c in
  if bool_decide (65 <= n <= 90) || (bool_decide (192 <= n <= 222) && negb (n =? 215)%nat)
  then Ascii.ascii_of_nat (n + 32) else c.

Fixpoint py_lower (s : string) : string :=
  match s with
  | EmptyString => EmptyString
  | String c s' => String (lower_char c) (py_lower s')
  end.

(** A hexadecimal digit of either case. *)
Definition digit_value (c : Ascii.ascii) : option Z :=
  let n := Ascii.nat_of_ascii c in
  if bool_decide (48 <= n <= 57) then Some (Z.of_nat n - 48)%Z
  else if bool_decide (97 <= n <= 102) then Some (Z.of_nat n - 87)%Z
  else if bool_decide (65 <= n <= 70) then Some (Z.of_nat n - 55)%Z
  else None.

Definition ascii_space (c : Ascii.ascii) : bool :=
  let n := Ascii.nat_of_ascii c in bool_decide (9 <= n <= 13) || (n =? 32)%nat.

(** [bytes.fromhex]: pairs of digits, white space allowed between pairs. *)
Fixpoint bytes_fromhex (s : string) : option (list Z) :=
  match s with
  | EmptyString => Some []
  | String c s' =>
      if ascii_space c then bytes_fromhex s'
      else match s' with
           | EmptyString => None
           | String d s'' =>
               top ← digit_value c; bot ← digit_value d;
               rest ← bytes_fromhex s''; Some ((top * 16 + bot)%Z :: rest)
           end
  end.

Definition from_hex (s : string) : res CapabilityMask128 :=
  if negb (String.length s =? HEX_LENGTH)%nat || negb (String.eqb s (py_lower s)) then
    Err (CapabilityMaskError ("capability mask hex must be exactly " +:+ show_nat HEX_LENGTH
           +:+ " lowercase hex characters, got " +:+ py_repr s))
  else
    match bytes_fromhex s with
    | None => Err (CapabilityMaskError
                ("capability mask hex is not valid hexadecimal: " +:+ py_repr s))
    | Some raw => from_bytes raw
    end.

Definition to_words (m : CapabilityMask128) : Z * Z :=
  (Z.land (value m) WORD_MASK, Z.land (Z.shiftr (value m) 64) WORD_MASK).

Definition to_bytes (m : CapabilityMask128) : list Z := bytes_of_int BYTE_LENGTH (value m).

(** [bytes.hex()] *)
Definition hex_byte (b : Z) : string :=
  String (hexdigit (Z.to_nat (b / 16))) (String (hexdigit (Z.to_nat (b mod 16))) "").

Fixpoint bytes_hex (l : list Z) : string :=
  match l with [] => "" | b :: l' => hex_byte b +:+ bytes_hex l' end.

Definition to_hex (m : CapabilityMask128) : string := bytes_hex (to_bytes m).

Definition contains (m required : CapabilityMask128) : bool :=
  (Z.land (value m) (value required) =? value required)%Z.

Definition mask_or (m other : CapabilityMask128) : res CapabilityMask128 :=
  new_mask (Z.lor (value m) (value other)).

(** The class invariant. *)
Definition mask_wf (m : CapabilityMask128) : Prop := (0 <= value m <= MAX_VALUE)%Z.

(** ** Lemmas *)

Definition byte (b : Z) : Prop := (0 <= b < 256)%Z.

Lemma new_mask_Ok v m : new_mask v = Ok m <-> (0 <= v <= MAX_VALUE)%Z /\ m = mkMask v.
Proof.
  unfold new_mask. destruct ((v <? 0)%Z || (MAX_VALUE <? v)%Z) eqn:E; simpl.
  - split; [done|]. intros [? _]. apply orb_true_iff in E.
    rewrite !Z.ltb_lt in E. lia.
  - apply orb_false_iff in E. rewrite !Z.ltb_ge in E. naive_solver lia.
Qed.

Lemma new_mask_wf v m : new_mask v = Ok m -> mask_wf m.
Proof. by intros [? ->]%new_mask_Ok. Qed.

Lemma new_mask_value m : mask_wf m -> new_mask (value m) = Ok m.
Proof. intros H. apply new_mask_Ok. split; [done|]. by destruct m. Qed.

Lemma MAX_VALUE_pow : MAX_VALUE = (256 ^ Z.of_nat BYTE_LENGTH - 1)%Z.
Proof. reflexivity. Qed.

Lemma length_bytes_of_int n v : length (bytes_of_int n v) = n.
Proof.
  revert v; induction n as [|n IH]; intros v; [done|]. cbn [bytes_of_int].
  rewrite length_app, IH. simpl. lia.
Qed.

Lemma bytes_of_int_byte n v : Forall byte (bytes_of_int n v).
Proof.
  revert v; induction n as [|n IH]; intros v; [constructor|]. cbn [bytes_of_int].
  apply Forall_app. split; [apply IH|]. constructor; [|constructor].
  unfold byte. apply Z.mod_pos_bound. lia.
Qed.

Lemma int_of_bytes_snoc l b : int_of_bytes (l ++ [b]) = (int_of_bytes l * 256 + b)%Z.
Proof. unfold int_of_bytes. by rewrite fold_left_app. Qed.

Lemma int_of_bytes_of_int n v :
  (0 <= v < 256 ^ Z.of_nat n)%Z -> int_of_bytes (bytes_of_int n v) = v.
Proof.
  revert v; induction n as [|n IH]; intros v Hv; [simpl in *; unfold int_of_bytes; simpl; lia|].
  cbn [bytes_of_int]. rewrite int_of_bytes_snoc, IH.
  - pose proof (Z.div_mod v 256). lia.
  - rewrite Nat2Z.inj_succ, Z.pow_succ_r in Hv by lia.
    split; [apply Z.div_pos; lia | apply Z.div_lt_upper_bound; lia].
Qed.

Lemma int_of_bytes_bounds l :
  Forall byte l -> (0 <= int_of_bytes l < 256 ^ Z.of_nat (length l))%Z.
Proof.
  induction l as [|b l IH] using rev_ind; intros Hl; [unfold int_of_bytes; simpl; lia|].
  apply Forall_app in Hl as [Hl Hb]. inversion Hb as [|?? Hb' _]; subst.
  rewrite int_of_bytes_snoc, length_app. simpl length.
  rewrite Nat2Z.inj_add. change (Z.of_nat 1) with 1%Z.
  rewrite Z.pow_add_r by lia. specialize (IH Hl). unfold byte in Hb'. nia.
Qed.

Lemma bytes_of_int_of_bytes l :
  Forall byte l -> bytes_of_int (length l) (int_of_bytes l) = l.
Proof.
  induction l as [|b l IH] using rev_ind; intros Hl; [done|].
  apply Forall_app in Hl as [Hl Hb]. inversion Hb as [|?? Hb' _]; subst. unfold byte in Hb'.
  rewrite length_app, Nat.add_1_r. cbn [bytes_of_int]. rewrite int_of_bytes_snoc.
  rewrite Z.div_add_l, Z.div_small, Z.add_0_r by lia.
  rewrite IH by done. do 2 f_equal.
  rewrite Z.add_comm, Z_mod_plus_full. apply Z.mod_small. lia.
Qed.

Ltac digits n := do 16 (destruct n as [|n]; [vm_compute; auto|]); lia.

Lemma hexdigit_value n : n < 16 -> digit_value (hexdigit n) = Some (Z.of_nat n).
Proof. intros. digits n. Qed.

Lemma hexdigit_not_space n : n < 16 -> ascii_space (hexdigit n) = false.
Proof. intros. digits n. Qed.

Lemma hexdigit_lower n : n < 16 -> lower_char (hexdigit n) = hexdigit n.
Proof. intros. digits n. Qed.

(** A lower-case digit is the one its value is written with. *)
Lemma digit_value_lower c v :
  digit_value c = Some v -> lower_char c = c -> c = hexdigit (Z.to_nat v) /\ (0 <= v < 16)%Z.
Proof.
  destruct c as [[] [] [] [] [] [] [] []]; vm_compute;
    intros H1 H2; try discriminate; injection H1 as <-; (split; [reflexivity|]);
    split; congruence.
Qed.

Lemma nibbles b : byte b ->
  (0 <= b / 16 < 16)%Z /\ (0 <= b mod 16 < 16)%Z /\ (b / 16 * 16 + b mod 16 = b)%Z.
Proof.
  unfold byte. intros. pose proof (Z.div_mod b 16). pose proof (Z.mod_pos_bound b 16).
  split_and!; first [lia | apply Z.div_pos; lia | apply Z.div_lt_upper_bound; lia].
Qed.

Lemma bytes_fromhex_byte b s :
  (0 <= b / 16 < 16)%Z -> (0 <= b mod 16 < 16)%Z ->
  bytes_fromhex (hex_byte b +:+ s)
  = (rest ← bytes_fromhex s;
     Some ((Z.of_nat (Z.to_nat (b / 16)) * 16 + Z.of_nat (Z.to_nat (b mod 16)))%Z :: rest)).
Proof.
  intros H1 H2. unfold hex_byte. generalize (b / 16)%Z (b mod 16)%Z H1 H2. intros x y ??.
  change (bytes_fromhex (String (hexdigit (Z.to_nat x)) (String (hexdigit (Z.to_nat y)) s))
    = (rest ← bytes_fromhex s;
       Some ((Z.of_nat (Z.to_nat x) * 16 + Z.of_nat (Z.to_nat y))%Z :: rest))).
  cbn [bytes_fromhex]. rewrite hexdigit_not_space, !hexdigit_value by lia. done.
Qed.

Lemma bytes_fromhex_hex l : Forall byte l -> bytes_fromhex (bytes_hex l) = Some l.
Proof.
  induction 1 as [|b l Hb Hl IH]; [done|]. apply nibbles in Hb as (H1 & H2 & H3).
  cbn [bytes_hex]. rewrite bytes_fromhex_byte by lia. rewrite IH. simpl. rewrite !Z2Nat.id by lia. by rewrite H3.
Qed.

Lemma length_bytes_hex l : String.length (bytes_hex l) = 2 * length l.
Proof.
  induction l as [|b l IH]; [done|].
  change (S (S (String.length (bytes_hex l))) = 2 * S (length l)). rewrite IH. lia.
Qed.

Lemma py_lower_hex l : Forall byte l -> py_lower (bytes_hex l) = bytes_hex l.
Proof.
  induction 1 as [|b l Hb Hl IH]; [done|]. apply nibbles in Hb as (H1 & H2 & _).
  change (String (lower_char (hexdigit (Z.to_nat (b / 16))))
    (String (lower_char (hexdigit (Z.to_nat (b mod 16)))) (py_lower (bytes_hex l)))
    = hex_byte b +:+ bytes_hex l).
  rewrite IH, !hexdigit_lower by lia. done.
Qed.

(** Decoding consumes at least two characters per byte, and exactly two only
    when there is no white space. *)
Lemma bytes_fromhex_inv n s l :
  String.length s <= n -> bytes_fromhex s = Some l ->
  2 * length l <= String.length s /\
  (2 * length l = String.length s -> py_lower s = s -> s = bytes_hex l /\ Forall byte l).
Proof.
  revert s l; induction n as [|n IH]; intros [|c s] l Hn H; simpl in *;
    try (injection H as <-; by auto); [lia|].
  destruct (ascii_space c) eqn:Ec.
  { destruct (IH s l ltac:(lia) H). split; [lia|]. intros; lia. }
  destruct s as [|d s]; [done|].
  destruct (digit_value c) as [vc|] eqn:Vc, (digit_value d) as [vd|] eqn:Vd,
    (bytes_fromhex s) as [r|] eqn:Vs; try done.
  injection H as <-. simpl in *. destruct (IH s r ltac:(lia) Vs) as [IHl IHeq].
  split; [lia|]. intros Hlen [= Hc Hd Hs].
  destruct (IHeq ltac:(lia) Hs) as [-> Hr].
  destruct (digit_value_lower c vc Vc Hc) as [-> ?].
  destruct (digit_value_lower d vd Vd Hd) as [-> ?].
  assert ((vc * 16 + vd) / 16 = vc)%Z as E1.
  { rewrite Z.div_add_l, Z.div_small, Z.add_0_r by lia. done. }
  assert ((vc * 16 + vd) mod 16 = vd)%Z as E2.
  { rewrite Z.add_comm, Z_mod_plus_full. apply Z.mod_small. lia. }
  split.
  { cbn [bytes_hex]. unfold hex_byte. by rewrite E1, E2. }
  constructor; [|done]. unfold byte. lia.
Qed.

Lemma WORD_MASK_ones : WORD_MASK = Z.ones 64.
Proof. reflexivity. Qed.

Lemma MAX_VALUE_ones : MAX_VALUE = Z.ones 128.
Proof. reflexivity. Qed.

Lemma word_bounds name w : (0 <= w <= WORD_MASK)%Z -> check_word name w = Ok tt.
Proof.
  intros. unfold check_word. destruct ((w <? 0)%Z || (WORD_MASK <? w)%Z) eqn:E; [|done].
  apply orb_true_iff in E. rewrite !Z.ltb_lt in E. lia.
Qed.

Lemma land_word w : (0 <= Z.land w WORD_MASK <= WORD_MASK)%Z.
Proof.
  rewrite WORD_MASK_ones, Z.land_ones by lia.
  pose proof (Z.mod_pos_bound w (2 ^ 64) ltac:(done)).
  change (Z.ones 64) with (2 ^ 64 - 1)%Z. lia.
Qed.

Lemma words_join v :
  (0 <= v <= MAX_VALUE)%Z ->
  Z.lor (Z.shiftl (Z.land (Z.shiftr v 64) WORD_MASK) 64) (Z.land v WORD_MASK) = v.
Proof.
  intros Hv. apply Z.bits_inj'. intros i Hi.
  rewrite Z.lor_spec, Z.land_spec, WORD_MASK_ones.
  destruct (Z.lt_ge_cases i 64) as [Hlt|Hge].
  - rewrite Z.shiftl_spec_low, Z.ones_spec_low by lia. simpl. apply andb_true_r.
  - rewrite Z.shiftl_spec_high, Z.land_spec, Z.shiftr_spec by lia.
    rewrite (Z.ones_spec_high 64 i) by lia. rewrite andb_false_r, orb_false_r.
    replace (i - 64 + 64)%Z with i by lia.
    destruct (Z.lt_ge_cases i 128) as [Hlt|Hge2].
    + rewrite Z.ones_spec_low by lia. apply andb_true_r.
    + rewrite (Z.bits_above_log2 v i); [done|lia|].
      destruct (Z.eq_dec v 0) as [->|]; [simpl; lia|].
      apply Z.log2_lt_pow2; [lia|]. rewrite MAX_VALUE_ones in Hv.
      change (Z.ones 128) with (2 ^ 128 - 1)%Z in Hv.
      pose proof (Z.pow_le_mono_r 2 128 i ltac:(lia) ltac:(lia)). lia.
Qed.

Lemma lor_bounds a b :
  (0 <= a <= MAX_VALUE)%Z -> (0 <= b <= MAX_VALUE)%Z -> (0 <= Z.lor a b <= MAX_VALUE)%Z.
Proof.
  intros. split; [apply Z.lor_nonneg; lia|].
  destruct (Z.eq_dec (Z.lor a b) 0) as [->|]; [lia|].
  assert (0 <= Z.lor a b)%Z by (apply Z.lor_nonneg; lia).
  enough (Z.lor a b < 2 ^ 128)%Z by (change MAX_VALUE with (2 ^ 128 - 1)%Z; lia).
  apply Z.log2_lt_pow2; [lia|]. rewrite Z.log2_lor by lia.
  assert (forall x, (0 <= x <= MAX_VALUE)%Z -> (Z.log2 x < 128)%Z) as Hlog.
  { intros x Hx. destruct (Z.eq_dec x 0) as [->|]; [simpl; lia|].
    apply Z.log2_lt_pow2; [lia|].
    change MAX_VALUE with (2 ^ 128 - 1)%Z in Hx. lia. }
  pose proof (Hlog a). pose proof (Hlog b). lia.
Qed.

(** ** Theorems *)

(** The three external forms of a mask decode to the mask they were
    encoded from: 64-bit words, 16 big-endian bytes, 32 hexadecimal digits. *)
Theorem mask_roundtrips m :
  mask_wf m ->
  from_words (to_words m).1 (to_words m).2 = Ok m /\
  from_bytes (to_bytes m) = Ok m /\ from_hex (to_hex m) = Ok m.
Proof.
  intros Hm.
  assert (from_bytes (to_bytes m) = Ok m) as Hbytes.
  { unfold from_bytes, to_bytes. rewrite length_bytes_of_int. simpl negb. cbv iota.
    rewrite int_of_bytes_of_int; [by apply new_mask_value|].
    destruct Hm. rewrite MAX_VALUE_pow in *. lia. }
  split_and!; [|done|].
  - unfold from_words, to_words. cbn [fst snd].
    rewrite !word_bounds by apply land_word. cbn [mbind result_bind].
    rewrite words_join by done. by apply new_mask_value.
  - unfold from_hex, to_hex. rewrite length_bytes_hex.
    unfold to_bytes at 1. rewrite length_bytes_of_int, py_lower_hex by apply bytes_of_int_byte.
    rewrite String.eqb_refl. cbn [negb orb Nat.mul Nat.add Nat.eqb BYTE_LENGTH HEX_LENGTH].
    rewrite bytes_fromhex_hex by apply bytes_of_int_byte. done.
Qed.

(** The hexadecimal form is canonical: the only text that decodes to a mask
    is the one it is written with, so equal masks have equal text; and every
    decoded mask is in the 128-bit domain. *)
Theorem from_hex_canonical s m :
  from_hex s = Ok m -> s = to_hex m /\ mask_wf m.
Proof.
  unfold from_hex.
  destruct (String.length s =? HEX_LENGTH)%nat eqn:Elen; [|done].
  destruct (String.eqb_spec s (py_lower s)) as [Elow|]; [|done]. simpl.
  destruct (bytes_fromhex s) as [raw|] eqn:Eraw; [|done].
  unfold from_bytes. destruct (length raw =? BYTE_LENGTH)%nat eqn:E16; [|done]. simpl.
  intros Hm. apply Nat.eqb_eq in Elen, E16.
  destruct (bytes_fromhex_inv _ s raw ltac:(done) Eraw) as [_ Hs].
  destruct Hs as [-> Hraw]; [unfold HEX_LENGTH, BYTE_LENGTH in *; lia | done |].
  split; [|by eapply new_mask_wf]. apply new_mask_Ok in Hm as [_ ->].
  unfold to_hex, to_bytes. cbn [value]. rewrite <- E16, bytes_of_int_of_bytes by done. done.
Qed.

Lemma words_split lo hi :
  (0 <= lo <= WORD_MASK)%Z -> (0 <= hi <= WORD_MASK)%Z ->
  to_words (mkMask (hi * 2 ^ 64 + lo)) = (lo, hi) /\ (0 <= hi * 2 ^ 64 + lo <= MAX_VALUE)%Z.
Proof.
  change WORD_MASK with (2 ^ 64 - 1)%Z. change MAX_VALUE with (2 ^ 64 * 2 ^ 64 - 1)%Z. intros Hlo Hhi.
  split; [|nia]. unfold to_words. cbn [value]. rewrite WORD_MASK_ones, !Z.land_ones, Z.shiftr_div_pow2 by lia.
  rewrite Z.div_add_l, (Z.div_small lo), Z.add_0_r, (Z.mod_small hi) by lia.
  by rewrite Z.add_comm, Z_mod_plus_full, Z.mod_small by lia.
Qed.

(** Words are accepted exactly in the unsigned 64-bit range, by an error of
    the mask's own type otherwise; two accepted words make the number
    [hi * 2^64 + lo], which is in the 128-bit domain, and are the words of it:
    nothing overlaps and nothing overflows. *)
Theorem words_exact lo hi :
  (exists m, from_words lo hi = Ok m /\ mask_wf m /\ value m = (hi * 2 ^ 64 + lo)%Z /\ to_words m = (lo, hi) /\
     (0 <= lo < 2 ^ 64)%Z /\ (0 <= hi < 2 ^ 64)%Z) \/
  (exists msg, from_words lo hi = Err (CapabilityMaskError msg) /\
     ~ ((0 <= lo < 2 ^ 64)%Z /\ (0 <= hi < 2 ^ 64)%Z)).
Proof.
  unfold from_words, check_word. destruct ((lo <? 0)%Z || (WORD_MASK <? lo)%Z) eqn:Elo; cbn [mbind result_bind].
  { right. eexists. split; [done|]. rewrite orb_true_iff, !Z.ltb_lt in Elo.
    change WORD_MASK with (2 ^ 64 - 1)%Z in Elo. lia. }
  destruct ((hi <? 0)%Z || (WORD_MASK <? hi)%Z) eqn:Ehi; cbn [mbind result_bind].
  { right. eexists. split; [done|]. rewrite orb_true_iff, !Z.ltb_lt in Ehi.
    change WORD_MASK with (2 ^ 64 - 1)%Z in Ehi. lia. }
  left. apply orb_false_iff in Elo, Ehi. rewrite !Z.ltb_ge in Elo, Ehi.
  destruct (words_split lo hi) as [Hw Hv]; [lia..|]. pose proof (words_join _ Hv) as Hj.
  unfold to_words in Hw. cbn [value] in Hw. injection Hw as Hl Hh. rewrite Hl, Hh in Hj. rewrite Hj.
  exists (mkMask (hi * 2 ^ 64 + lo)). split; [by apply new_mask_Ok|]. unfold to_words. cbn [value].
  rewrite Hl, Hh. change WORD_MASK with (2 ^ 64 - 1)%Z in *. split_and!; try done; try apply Hv; lia.
Qed.

(** [contains] is exactly inclusion of bits, and the union built by [|] is
    the least mask that contains both operands; it never leaves the domain. *)
Theorem contains_or_lattice a b c :
  mask_wf a -> mask_wf b -> mask_wf c ->
  (contains a b = true <->
     forall i, (0 <= i)%Z -> Z.testbit (value b) i = true -> Z.testbit (value a) i = true) /\
  exists u, mask_or a b = Ok u /\ mask_wf u /\
    (contains c u = true <-> contains c a = true /\ contains c b = true).
Proof.
  intros Ha Hb Hc.
  assert (forall x y, contains x y = true <->
     forall i, (0 <= i)%Z -> Z.testbit (value y) i = true -> Z.testbit (value x) i = true)
    as Hcont.
  { intros x y. unfold contains. rewrite Z.eqb_eq. split.
    - intros E i Hi Hy. rewrite <- E, Z.land_spec in Hy. by apply andb_true_iff in Hy as [? ?].
    - intros Hi. apply Z.bits_inj'. intros i H0. rewrite Z.land_spec.
      specialize (Hi i H0). destruct (Z.testbit (value y) i); [|apply andb_false_r].
      by rewrite Hi. }
  split; [apply Hcont|].
  exists (mkMask (Z.lor (value a) (value b))).
  assert (mask_wf (mkMask (Z.lor (value a) (value b)))) as Hu by by apply lor_bounds.
  split_and!; [by apply new_mask_Ok | done |].
  rewrite !Hcont. simpl. split.
  - intros H; split; intros i Hi Hbit; apply H; try done; rewrite Z.lor_spec, Hbit;
      [done | apply orb_true_r].
  - intros [H1 H2] i Hi. rewrite Z.lor_spec. intros [?|?]%orb_true_iff; eauto.
Qed.

(** ** Concrete masks *)

Definition demo_mask : CapabilityMask128 := mkMask 0x1f.

Example demo_hex : to_hex demo_mask = "0000000000000000000000000000001f".
Proof. vm_compute. reflexivity. Qed.

Example upper_case_refused : is_ok (from_hex "0000000000000000000000000000001F") = false.
Proof. vm_compute. reflexivity. Qed.

Example white_space_refused : is_ok (from_hex "00 00000000000000000000000000001") = false.
Proof. vm_compute. reflexivity. Qed.

Lemma mask_roundtrips_witness :
  from_words (to_words demo_mask).1 (to_words demo_mask).2 = Ok demo_mask /\
  from_bytes (to_bytes demo_mask) = Ok demo_mask /\ from_hex (to_hex demo_mask) = Ok demo_mask.
Proof. apply mask_roundtrips. split; vm_compute; congruence. Defined.

Lemma from_hex_canonical_witness :
  "000000000000000000000000000000ff" = to_hex (mkMask 255) /\ mask_wf (mkMask 255).
Proof. apply from_hex_canonical. vm_compute. reflexivity. Defined.

Lemma contains_or_lattice_witness :
  exists u, mask_or (mkMask 5) (mkMask 2) = Ok u /\ mask_wf u /\ contains (mkMask 15) u = true.
Proof.
  destruct (contains_or_lattice (mkMask 5) (mkMask 2) (mkMask 15)
    ltac:(split; vm_compute; congruence) ltac:(split; vm_compute; congruence)
    ltac:(split; vm_compute; congruence)) as [_ (u & Hu & Hwf & Hc)].
  exists u. split; [done|]. split; [done|]. apply Hc. split; vm_compute; reflexivity.
Defined.

End Capabilities.
