(* ===== verification/JobModel.v ===== *)
(** The records of the job service: [src/tools/bigcherry/jobs/model.py].

    A record's constructor runs its [__post_init__]: here [new_<record>] takes
    the fields and returns the normalised record or raises.  [*_from_mapping]
    read decoded JSON objects, [*_to_dict] write them. *)

From S2P Require Import Prelude Json.
Import Json.

Module JobModel.

Definition SCHEMA_VERSION : string := "bigcherry.jobs.v1".

(** Tuples of two strings, compared as Python compares them. *)
Definition pair_leb : string * string -> string * string -> bool :=
  lex_leb String.leb String.leb.

(** [_pairs], once the items are known. *)
Definition pairs (items : list (string * string)) : res (list (string * string)) :=
  let normalized := py_sorted pair_leb items in
  if (length (remove_dups (map fst normalized)) =? length normalized)%nat then Ok normalized
  else Err (ValueError "duplicate mapping keys").

(** One item of the sequence, unpacked as [k, v]. *)
Definition unpack_pair (item : json) : res (string * string) :=
  l ← result_map_err (fun _ => TypeError ("cannot unpack non-iterable " +:+ type_name item
                        +:+ " object")) (json_iter item);
  match l with
  | [k; v] => Ok (jstr k, jstr v)
  | [] | [_] => Err (ValueError ("not enough values to unpack (expected 2, got "
                      +:+ show_nat (length l) +:+ ")"))
  | _ => Err (ValueError "too many values to unpack (expected 2)")
  end.

(** [_pairs] of a decoded value: a mapping, a sequence of pairs or nothing. *)
Definition pairs_of_json (value : json) : res (list (string * string)) :=
  match value with
  | JNull => Ok []
  | JObj o => pairs (map (fun kv => (kv.1, jstr kv.2)) o)
  | _ => items ← json_iter value; ps ← mapR unpack_pair items; pairs ps
  end.

Record GpuRequirement : Set := mkGpuRequirement {
  gr_architecture : string;
  gr_count : Z;
  gr_min_vram_bytes : Z;
  gr_homogeneous_model : bool;
  gr_model : option string;
  gr_require_peer_access : bool;
  gr_exact_device_ids : list string;
}.

#[global] Instance GpuRequirement_eq_dec : EqDecision GpuRequirement.
Proof. solve_decision. Defined.

Definition new_gpu (g : GpuRequirement) : res GpuRequirement :=
  _ ← ensure (truthy (gr_architecture g) && negb (has_space (gr_architecture g)))
        (ValueError "GPU architecture must be a non-empty token");
  _ ← ensure (1 <=? gr_count g)%Z (ValueError "GPU count must be >= 1");
  _ ← ensure (0 <=? gr_min_vram_bytes g)%Z (ValueError "min_vram_bytes must be >= 0");
  _ ← ensure (bool_decide (gr_exact_device_ids g = [])
              || (Z.of_nat (length (gr_exact_device_ids g)) =? gr_count g)%Z)
        (ValueError "exact_device_ids length must equal count");
  Ok g.

Record TargetPolicy : Set := mkTargetPolicy {
  tp_executor_id : string;
  tp_host_id : option string;
  tp_platform_family : option string;
}.

#[global] Instance TargetPolicy_eq_dec : EqDecision TargetPolicy.
Proof. solve_decision. Defined.

Definition new_target (t : TargetPolicy) : res TargetPolicy :=
  _ ← ensure (negb (blank (tp_executor_id t))) (ValueError "executor_id is required"); Ok t.

Record JobSpec : Set := mkJobSpec {
  js_patch : string;
  js_architecture : string;
  js_model : string;
  js_session : Z;
  js_planned_sessions : Z;
  js_producer : option string;
  js_hip_path : option string;
  js_baseline_source : string;
  js_common_patches : list string;
  js_producer_inputs : list (string * string);
  js_producer_corpus : option string;
  js_production_lane : bool;
  js_code_ref : string;
  js_gpu : option GpuRequirement;
  js_target : TargetPolicy;
  js_timeout_seconds : Z;
  js_priority : Z;
}.

#[global] Instance JobSpec_eq_dec : EqDecision JobSpec.
Proof. solve_decision. Defined.

(** [JobSpec.__post_init__]: the checks, then the two normalised fields. *)
Definition new_job (j : JobSpec) : res JobSpec :=
  _ ← ensure (negb (blank (js_patch j))) (ValueError "patch is required");
  _ ← ensure (negb (blank (js_architecture j))) (ValueError "architecture is required");
  _ ← ensure (negb (blank (js_model j))) (ValueError "model is required");
  _ ← ensure (negb ((js_session j <? 1)%Z || (js_planned_sessions j <? 1)%Z
                    || (js_planned_sessions j <? js_session j)%Z))
        (ValueError "session must be in 1..planned_sessions");
  _ ← ensure (1 <=? js_timeout_seconds j)%Z (ValueError "timeout_seconds must be >= 1");
  _ ← ensure (match js_gpu j with
              | Some g => String.eqb (gr_architecture g) (js_architecture j)
              | None => true
              end)
        (ValueError "gpu architecture must match job architecture");
  inputs ← pairs (js_producer_inputs j);
  Ok (mkJobSpec (js_patch j) (js_architecture j) (js_model j) (js_session j)
        (js_planned_sessions j) (js_producer j) (js_hip_path j) (js_baseline_source j)
        (sorted_set (js_common_patches j)) inputs (js_producer_corpus j)
        (js_production_lane j) (js_code_ref j) (js_gpu j) (js_target j)
        (js_timeout_seconds j) (js_priority j)).

Definition jpairs (l : list (string * string)) : json :=
  JArr (map (fun kv => JArr [JStr kv.1; JStr kv.2]) l).

Definition gpu_to_dict (g : GpuRequirement) : json :=
  JObj [("architecture", JStr (gr_architecture g)); ("count", JInt (gr_count g));
        ("min_vram_bytes", JInt (gr_min_vram_bytes g));
        ("homogeneous_model", JBool (gr_homogeneous_model g));
        ("model", jopt JStr (gr_model g));
        ("require_peer_access", JBool (gr_require_peer_access g));
        ("exact_device_ids", jstrs (gr_exact_device_ids g))].

Definition target_to_dict (t : TargetPolicy) : json :=
  JObj [("executor_id", JStr (tp_executor_id t)); ("host_id", jopt JStr (tp_host_id t));
        ("platform_family", jopt JStr (tp_platform_family t))].

(** [JobSpec.to_dict]: [dataclasses.asdict], then the schema. *)
Definition job_fields (j : JobSpec) : list (string * json) :=
  [("patch", JStr (js_patch j)); ("architecture", JStr (js_architecture j));
   ("model", JStr (js_model j)); ("session", JInt (js_session j));
   ("planned_sessions", JInt (js_planned_sessions j));
   ("producer", jopt JStr (js_producer j)); ("hip_path", jopt JStr (js_hip_path j));
   ("baseline_source", JStr (js_baseline_source j));
   ("common_patches", jstrs (js_common_patches j));
   ("producer_inputs", jpairs (js_producer_inputs j));
   ("producer_corpus", jopt JStr (js_producer_corpus j));
   ("production_lane", JBool (js_production_lane j)); ("code_ref", JStr (js_code_ref j));
   ("gpu", jopt gpu_to_dict (js_gpu j)); ("target", target_to_dict (js_target j));
   ("timeout_seconds", JInt (js_timeout_seconds j)); ("priority", JInt (js_priority j));
   ("schema", JStr SCHEMA_VERSION)].

Definition job_to_dict (j : JobSpec) : json := JObj (job_fields j).

Definition job_request_hash (blake2b : string -> string -> string) (j : JobSpec) : string :=
  digest_of blake2b "bc-job-request" (job_to_dict j).

Record BatchSpec : Set := mkBatchSpec {
  bs_patch : string;
  bs_architectures : list string;
  bs_model : string;
  bs_planned_sessions : Z;
  bs_producer : option string;
  bs_hip_path : option string;
  bs_baseline_source : string;
  bs_common_patches : list string;
  bs_producer_inputs : list (string * string);
  bs_producer_corpus : option string;
  bs_production_lane : bool;
  bs_code_ref : string;
  bs_gpu_count : Z;
  bs_min_vram_bytes : Z;
  bs_require_peer_access : bool;
  bs_target : TargetPolicy;
  bs_timeout_seconds : Z;
  bs_priority : Z;
}.

#[global] Instance BatchSpec_eq_dec : EqDecision BatchSpec.
Proof. solve_decision. Defined.

Definition new_batch (b : BatchSpec) : res BatchSpec :=
  let architectures := sorted_set (bs_architectures b) in
  _ ← ensure (bool_decide (architectures <> []))
        (ValueError "at least one architecture is required");
  _ ← ensure (1 <=? bs_planned_sessions b)%Z (ValueError "planned_sessions must be >= 1");
  _ ← ensure (1 <=? bs_gpu_count b)%Z (ValueError "gpu_count must be >= 1");
  inputs ← pairs (bs_producer_inputs b);
  Ok (mkBatchSpec (bs_patch b) architectures (bs_model b) (bs_planned_sessions b)
        (bs_producer b) (bs_hip_path b) (bs_baseline_source b)
        (sorted_set (bs_common_patches b)) inputs (bs_producer_corpus b)
        (bs_production_lane b) (bs_code_ref b) (bs_gpu_count b) (bs_min_vram_bytes b)
        (bs_require_peer_access b) (bs_target b) (bs_timeout_seconds b) (bs_priority b)).

(** The fields [expand] gives to one session of one architecture. *)
Definition batch_gpu (b : BatchSpec) (architecture : string) : GpuRequirement :=
  mkGpuRequirement architecture (bs_gpu_count b) (bs_min_vram_bytes b) true None
    (bs_require_peer_access b) [].

Definition batch_job (b : BatchSpec) (architecture : string) (gpu : GpuRequirement)
    (session : Z) : JobSpec :=
  mkJobSpec (bs_patch b) architecture (bs_model b) session (bs_planned_sessions b)
    (bs_producer b) (bs_hip_path b) (bs_baseline_source b) (bs_common_patches b)
    (bs_producer_inputs b) (bs_producer_corpus b) (bs_production_lane b) (bs_code_ref b)
    (Some gpu) (bs_target b) (bs_timeout_seconds b) (bs_priority b).

(** [range(1, n + 1)] *)
Definition sessions (n : Z) : list Z := map Z.of_nat (seq 1 (Z.to_nat n)).

(** [BatchSpec.expand] *)
Definition expand (b : BatchSpec) : res (list JobSpec) :=
  per_arch ← mapR (fun architecture =>
      gpu ← new_gpu (batch_gpu b architecture);
      mapR (fun session => new_job (batch_job b architecture gpu session))
        (sessions (bs_planned_sessions b)))
    (bs_architectures b);
  Ok (concat per_arch).

Definition batch_to_dict (b : BatchSpec) : json :=
  JObj [("patch", JStr (bs_patch b)); ("architectures", jstrs (bs_architectures b));
        ("model", JStr (bs_model b)); ("planned_sessions", JInt (bs_planned_sessions b));
        ("producer", jopt JStr (bs_producer b)); ("hip_path", jopt JStr (bs_hip_path b));
        ("baseline_source", JStr (bs_baseline_source b));
        ("common_patches", jstrs (bs_common_patches b));
        ("producer_inputs", jpairs (bs_producer_inputs b));
        ("producer_corpus", jopt JStr (bs_producer_corpus b));
        ("production_lane", JBool (bs_production_lane b)); ("code_ref", JStr (bs_code_ref b));
        ("gpu_count", JInt (bs_gpu_count b)); ("min_vram_bytes", JInt (bs_min_vram_bytes b));
        ("require_peer_access", JBool (bs_require_peer_access b));
        ("target", target_to_dict (bs_target b));
        ("timeout_seconds", JInt (bs_timeout_seconds b)); ("priority", JInt (bs_priority b));
        ("schema", JStr SCHEMA_VERSION)].

Definition batch_request_hash (blake2b : string -> string -> string) (b : BatchSpec) : string :=
  digest_of blake2b "bc-batch-request" (batch_to_dict b).

Definition target_from_mapping (value : option json) : res TargetPolicy :=
  o ← (match value with
       | None => Ok []
       | Some v => if jtruthy v then match v with JObj o => Ok o | _ => Err (no_get v) end
                   else Ok []
       end);
  new_target (mkTargetPolicy (get_str o "executor_id" "dev") (opt_str o "host_id")
    (opt_str o "platform_family")).

Definition gpu_from_mapping (value : option json) : res (option GpuRequirement) :=
  match value with
  | None | Some JNull => Ok None
  | Some (JObj o) =>
      architecture ← item_str o "architecture";
      count ← get_int o "count" 1;
      min_vram ← get_int o "min_vram_bytes" 0;
      ids ← get_strs o "exact_device_ids";
      g ← new_gpu (mkGpuRequirement architecture count min_vram
             (get_bool o "homogeneous_model" true) (opt_str o "model")
             (get_bool o "require_peer_access" false) ids);
      Ok (Some g)
  | Some v => Err (TypeError ("'" +:+ type_name v +:+ "' object is not a mapping"))
  end.

(** [schema = value.get("schema", SCHEMA_VERSION); if schema != ...: raise] *)
Definition check_schema (o : list (string * json)) : res unit :=
  match get_or o "schema" (JStr SCHEMA_VERSION) with
  | JStr s => if String.eqb s SCHEMA_VERSION then Ok tt
              else Err (ValueError ("unsupported jobs schema: " +:+ py_repr s))
  | v => Err (ValueError ("unsupported jobs schema: " +:+ jrepr v))
  end.

Definition job_from_mapping (o : list (string * json)) : res JobSpec :=
  _ ← check_schema o;
  patch ← item_str o "patch";
  architecture ← item_str o "architecture";
  model ← item_str o "model";
  session ← item_int o "session";
  planned ← item_int o "planned_sessions";
  common ← get_strs o "common_patches";
  inputs ← pairs_of_json (get_or o "producer_inputs" JNull);
  gpu ← gpu_from_mapping (jget o "gpu");
  target ← target_from_mapping (jget o "target");
  timeout ← get_int o "timeout_seconds" 2700;
  priority ← get_int o "priority" 0;
  new_job (mkJobSpec patch architecture model session planned (opt_str o "producer")
    (opt_str o "hip_path") (get_str o "baseline_source" "bigcherry-tuning") common inputs
    (opt_str o "producer_corpus") (get_bool o "production_lane" false)
    (get_str o "code_ref" "patch-refactor") gpu target timeout priority).

Definition batch_from_mapping (o : list (string * json)) : res BatchSpec :=
  _ ← check_schema o;
  architectures ← (match jget o "architectures" with
                   | Some (JStr s) => Ok [JStr s]
                   | Some (JArr l) => Ok l
                   | _ => Err (ValueError "architectures must be an array")
                   end);
  patch ← item_str o "patch";
  model ← item_str o "model";
  planned ← get_int o "planned_sessions" 4;
  common ← get_strs o "common_patches";
  inputs ← pairs_of_json (get_or o "producer_inputs" (JObj []));
  count ← get_int o "gpu_count" 1;
  min_vram ← get_int o "min_vram_bytes" 0;
  target ← target_from_mapping (jget o "target");
  timeout ← get_int o "timeout_seconds" 2700;
  priority ← get_int o "priority" 0;
  new_batch (mkBatchSpec patch (map jstr architectures) model planned (opt_str o "producer")
    (opt_str o "hip_path") (get_str o "baseline_source" "bigcherry-tuning") common inputs
    (opt_str o "producer_corpus") (get_bool o "production_lane" false)
    (get_str o "code_ref" "patch-refactor") count min_vram
    (get_bool o "require_peer_access" false) target timeout priority).

(** ** Lemmas *)

(** What a constructed record satisfies: constructing it again changes nothing. *)
Record job_ok (j : JobSpec) : Prop := {
  jo_job : new_job j = Ok j;
  jo_gpu : forall g, js_gpu j = Some g -> new_gpu g = Ok g;
  jo_target : new_target (js_target j) = Ok (js_target j);
}.

Lemma pairs_Ok items ps :
  pairs items = Ok ps <-> ps = py_sorted pair_leb items /\ NoDup (map fst items).
Proof.
  unfold pairs.
  assert (length (remove_dups (map fst (py_sorted pair_leb items)))
          = length (py_sorted pair_leb items) <-> NoDup (map fst items)) as Hnd.
  { rewrite <- (length_map fst (py_sorted pair_leb items)).
    pose proof (sorted_set_length_NoDup (map fst (py_sorted pair_leb items))) as H.
    unfold sorted_set in H. rewrite length_py_sorted in H. rewrite H.
    by rewrite py_sorted_perm. }
  destruct (Nat.eqb_spec (length (remove_dups (map fst (py_sorted pair_leb items))))
              (length (py_sorted pair_leb items))) as [E|E]; rewrite Hnd in E;
    split; [by intros [= ->] | by intros [-> _] | done | by intros [_ ?]].
Qed.

Lemma pairs_idem items ps : pairs items = Ok ps -> pairs ps = Ok ps.
Proof.
  rewrite !pairs_Ok. intros [-> Hnd]. split; [|by rewrite py_sorted_perm].
  by rewrite py_sorted_idem by apply _.
Qed.

Lemma new_job_idem j j' : new_job j = Ok j' -> new_job j' = Ok j'.
Proof.
  unfold new_job. intros H. inv_ok. simpl.
  rewrite H0, H1, H2, H3, H4, H5. simpl.
  by rewrite (pairs_idem _ _ H6), sorted_set_idem.
Qed.

Lemma new_gpu_idem g g' : new_gpu g = Ok g' -> new_gpu g' = Ok g'.
Proof.
  intros H. assert (g' = g) as ->; [|done]. unfold new_gpu in H. by inv_ok.
Qed.

Lemma new_target_idem t t' : new_target t = Ok t' -> new_target t' = Ok t'.
Proof.
  intros H. assert (t' = t) as ->; [|done]. unfold new_target in H. by inv_ok.
Qed.

Lemma mapR_unpack l : mapR unpack_pair (map (fun kv => JArr [JStr kv.1; JStr kv.2]) l) = Ok l.
Proof. induction l as [|[k v] l IH]; simpl; [done|]. by rewrite IH. Qed.

Lemma gpu_members_NoDup g : exists o, gpu_to_dict g = JObj o /\ NoDup (map fst o).
Proof. eexists. split; [reflexivity|]. simpl. apply (bool_decide_unpack _). by compute. Qed.

Ltac read_members :=
  repeat rewrite jget_sorted_members by (apply (bool_decide_unpack _); by compute);
  cbn [jget String.eqb Ascii.eqb Bool.eqb fmap option_fmap option_map from_option].

Lemma gpu_reads_back g :
  new_gpu g = Ok g -> gpu_from_mapping (Some (sort_keys (gpu_to_dict g))) = Ok (Some g).
Proof.
  intros Hg. unfold gpu_to_dict. rewrite sort_keys_members.
  unfold gpu_from_mapping, item_str, item, get_int, get_strs, get_bool, opt_str, get_or.
  read_members. rewrite sort_keys_jstrs, sort_keys_jopt. simpl. rewrite map_jstr.
  destruct g as [a c m h [mo|] p ids]; simpl in *; by rewrite Hg.
Qed.

Lemma target_reads_back t :
  new_target t = Ok t -> target_from_mapping (Some (sort_keys (target_to_dict t))) = Ok t.
Proof.
  intros Ht. unfold target_to_dict. rewrite sort_keys_members.
  unfold target_from_mapping.
  assert (forall o, jtruthy (JObj (sorted_members (("executor_id", JStr (tp_executor_id t)) :: o)))
                    = true) as ->.
  { intros o. simpl. unfold sorted_members.
    destruct (map _ _) eqn:E; [|done]. apply (f_equal length) in E.
    rewrite length_map, length_py_sorted in E. done. }
  cbn [mbind result_bind]. unfold get_str, opt_str, get_or. read_members.
  rewrite !sort_keys_jopt.
  destruct t as [e [h|] [p|]]; simpl in *; by rewrite Ht.
Qed.

Lemma sort_keys_jpairs l : sort_keys (jpairs l) = jpairs l.
Proof. unfold jpairs. simpl. by rewrite map_map. Qed.

Lemma job_reads_back j : job_ok j -> job_from_mapping (sorted_members (job_fields j)) = Ok j.
Proof.
  intros [Hj Hg Ht].
  unfold job_from_mapping, check_schema, item_str, item_int, item, get_int, get_strs, get_str,
    get_bool, opt_str, get_or, job_fields.
  read_members. rewrite !sort_keys_jopt, sort_keys_jstrs, sort_keys_jpairs.
  rewrite (target_reads_back _ Ht).
  assert (gpu_from_mapping (Some (sort_keys (jopt gpu_to_dict (js_gpu j)))) = Ok (js_gpu j)) as Hgpu.
  { destruct (js_gpu j) as [g|] eqn:E; [|done]. simpl jopt. apply gpu_reads_back. by apply Hg. }
  rewrite Hgpu. simpl. rewrite mapR_unpack. simpl.
  assert (pairs (js_producer_inputs j) = Ok (js_producer_inputs j)) as ->.
  { unfold new_job in Hj. inv_ok. rewrite <- Hj in *. simpl in *. by apply (pairs_idem _ _ H5). }
  simpl. rewrite map_jstr.
  destruct j as [? ? ? ? ? [?|] [?|] ? ? ? [?|] ? ? ? ? ? ?]; simpl in *; exact Hj.
Qed.

Lemma jwf_gpu g : jwf (gpu_to_dict g).
Proof.
  apply jwf_obj. split; [apply (bool_decide_unpack _); by compute|].
  repeat (constructor; [first [exact I | apply jwf_jopt | apply jwf_jstrs]|]). constructor.
Qed.

Lemma jwf_target t : jwf (target_to_dict t).
Proof.
  apply jwf_obj. split; [apply (bool_decide_unpack _); by compute|].
  repeat (constructor; [first [exact I | apply jwf_jopt | apply jwf_jstrs]|]). constructor.
Qed.

Lemma jwf_jpairs l : jwf (jpairs l).
Proof. apply jwf_arr. induction l; constructor; [|done]. by simpl. Qed.

Lemma jwf_job j : jwf (job_to_dict j).
Proof.
  apply jwf_obj. split; [apply (bool_decide_unpack _); by compute|].
  unfold job_fields.
  repeat (constructor; [first [exact I | apply jwf_jopt | apply jwf_jstrs | apply jwf_jpairs
    | apply jwf_target | (destruct (js_gpu j); [apply jwf_gpu | exact I])]|]).
  constructor.
Qed.

Lemma elem_of_sessions n s : s ∈ sessions n <-> (1 <= s <= n)%Z.
Proof.
  unfold sessions. rewrite list_elem_of_fmap. setoid_rewrite elem_of_seq. split.
  - intros (k & -> & ?). lia.
  - intros ?. exists (Z.to_nat s). lia.
Qed.

Lemma NoDup_sessions n : NoDup (sessions n).
Proof. unfold sessions. apply NoDup_fmap_2; [apply _ | apply NoDup_seq]. Qed.

Lemma has_space_strip s : truthy s = true -> has_space s = false -> blank s = false.
Proof.
  destruct s as [|c s]; [done|]. intros _. simpl. intros H. apply orb_false_iff in H as [Hc _].
  unfold blank, py_strip. simpl. rewrite Hc. simpl.
  destruct (rstrip s); [by rewrite Hc | done].
Qed.

(** The batches that expand: the checks a session's records make. *)
Definition expandable (b : BatchSpec) : bool :=
  forallb (fun a => truthy a && negb (has_space a)) (bs_architectures b)
  && (0 <=? bs_min_vram_bytes b)%Z && negb (blank (bs_patch b)) && negb (blank (bs_model b))
  && (1 <=? bs_timeout_seconds b)%Z.

(** Every session of every architecture, in order. *)
Definition planned_jobs (b : BatchSpec) : list JobSpec :=
  concat (map (fun a => map (batch_job b a (batch_gpu b a)) (sessions (bs_planned_sessions b)))
              (bs_architectures b)).

Lemma new_batch_inv b0 b :
  new_batch b0 = Ok b ->
  bs_architectures b <> [] /\ NoDup (bs_architectures b) /\ (1 <= bs_planned_sessions b)%Z /\
  (1 <= bs_gpu_count b)%Z /\ pairs (bs_producer_inputs b) = Ok (bs_producer_inputs b) /\
  sorted_set (bs_common_patches b) = bs_common_patches b.
Proof.
  unfold new_batch. intros H. inv_ok. simpl. bools.
  split_and!; [done | apply NoDup_sorted_set | done | done | by eapply pairs_idem
              | apply sorted_set_idem].
Qed.

Lemma new_gpu_batch b a :
  (1 <= bs_gpu_count b)%Z ->
  new_gpu (batch_gpu b a)
  = if truthy a && negb (has_space a) then
      if (0 <=? bs_min_vram_bytes b)%Z then Ok (batch_gpu b a)
      else Err (ValueError "min_vram_bytes must be >= 0")
    else Err (ValueError "GPU architecture must be a non-empty token").
Proof.
  intros Hc. unfold new_gpu. simpl. destruct (truthy a && negb (has_space a)); [simpl|done].
  rewrite (proj2 (Z.leb_le 1 (bs_gpu_count b))) by done. simpl.
  by destruct (0 <=? bs_min_vram_bytes b)%Z.
Qed.

Lemma new_job_batch b0 b a s :
  new_batch b0 = Ok b -> s ∈ sessions (bs_planned_sessions b) ->
  truthy a = true -> has_space a = false ->
  is_ok (new_job (batch_job b a (batch_gpu b a) s))
    = negb (blank (bs_patch b)) && negb (blank (bs_model b)) && (1 <=? bs_timeout_seconds b)%Z
  /\ (forall j, new_job (batch_job b a (batch_gpu b a) s) = Ok j ->
        j = batch_job b a (batch_gpu b a) s).
Proof.
  intros (_ & _ & Hp & _ & Hi & Hc)%new_batch_inv Hs%elem_of_sessions Ha Hsp.
  unfold new_job. simpl. rewrite (has_space_strip a), String.eqb_refl, Hi, Hc by done.
  rewrite (proj2 (Z.ltb_ge s 1)), (proj2 (Z.ltb_ge (bs_planned_sessions b) 1)),
    (proj2 (Z.ltb_ge (bs_planned_sessions b) s)) by lia.
  destruct (blank (bs_patch b)), (blank (bs_model b)), (1 <=? bs_timeout_seconds b)%Z; simpl;
    (split; [done | by intros j [= <-]]).
Qed.

Lemma mapR_Ok_map {E A B} (f : A -> result E B) (g : A -> B) l bs :
  mapR f l = Ok bs -> (forall a b, a ∈ l -> f a = Ok b -> b = g a) -> bs = map g l.
Proof.
  intros H%mapR_Ok Hg. induction H as [|a b l bs Hab H IH]; [done|]. simpl. f_equal.
  - apply Hg; [left | done].
  - apply IH. intros. apply Hg; [by right | done].
Qed.

(** An expansion that succeeds has the planned jobs, and checked the batch. *)
Lemma expand_Ok b0 b jobs :
  new_batch b0 = Ok b -> expand b = Ok jobs -> jobs = planned_jobs b /\ expandable b = true.
Proof.
  intros Hb. pose proof Hb as (Hne & _ & Hp & Hc & _)%new_batch_inv. unfold expand. intros H. inv_ok.
  assert (forall a l, a ∈ bs_architectures b ->
    (gpu ← new_gpu (batch_gpu b a);
     mapR (fun s => new_job (batch_job b a gpu s)) (sessions (bs_planned_sessions b))) = Ok l ->
    l = map (batch_job b a (batch_gpu b a)) (sessions (bs_planned_sessions b)) /\
    (truthy a && negb (has_space a)) && (0 <=? bs_min_vram_bytes b)%Z && negb (blank (bs_patch b))
      && negb (blank (bs_model b)) && (1 <=? bs_timeout_seconds b)%Z = true) as Hone.
  { intros a l _. rewrite new_gpu_batch by done.
    destruct (truthy a && negb (has_space a)) eqn:Ea; [|done].
    destruct (0 <=? bs_min_vram_bytes b)%Z; [|done]. cbn [mbind result_bind].
    intros Hl. bools. split.
    - eapply mapR_Ok_map; [exact Hl|]. intros s j Hs Hj.
      by apply (proj2 (new_job_batch b0 b a s Hb Hs H H1)).
    - apply mapR_Ok in Hl. simpl.
      destruct (Forall2_lookup_l _ _ _ 0 1%Z Hl) as (j & _ & Hj).
      { unfold sessions. destruct (Z.to_nat (bs_planned_sessions b)) eqn:En; [lia|done]. }
      pose proof (proj1 (new_job_batch b0 b a 1%Z Hb ltac:(apply elem_of_sessions; lia) H H1)) as Hok.
      by rewrite Hj in Hok. }
  split.
  - unfold planned_jobs. f_equal. eapply mapR_Ok_map; [exact H0|]. intros a l Ha Hl. by apply Hone.
  - apply mapR_Ok in H0. unfold expandable.
    destruct (bs_architectures b) as [|a0 archs] eqn:E; [done|].
    assert (forall a, a ∈ a0 :: archs -> (truthy a && negb (has_space a)) &&
      (0 <=? bs_min_vram_bytes b)%Z && negb (blank (bs_patch b))
      && negb (blank (bs_model b)) && (1 <=? bs_timeout_seconds b)%Z = true) as Hall.
    { intros a Ha. apply list_elem_of_lookup in Ha as [i Hi].
      destruct (Forall2_lookup_l _ _ _ _ _ H0 Hi) as (l & _ & Hl).
      eapply (Hone a l); [by eapply list_elem_of_lookup_2 | exact Hl]. }
    assert (forallb (fun a => truthy a && negb (has_space a)) (a0 :: archs) = true) as ->.
    { apply forallb_true. intros a Ha. specialize (Hall a Ha).
      by do 4 apply andb_true_iff in Hall as [Hall _]. }
    specialize (Hall a0 ltac:(left)).
    by do 4 apply andb_true_iff in Hall as [Hall ->].
Qed.

(** An expandable batch expands. *)
Lemma expandable_Ok b0 b :
  new_batch b0 = Ok b -> expandable b = true -> expand b = Ok (planned_jobs b).
Proof.
  intros Hb He. pose proof Hb as (_ & _ & _ & Hc & _)%new_batch_inv.
  unfold expandable in He. bools. rewrite forallb_true in H.
  unfold expand, planned_jobs.
  rewrite (mapR_all_ok _ (fun a => map (batch_job b a (batch_gpu b a))
    (sessions (bs_planned_sessions b)))); [done|].
  intros a Ha. specialize (H a Ha). rewrite new_gpu_batch, H by done.
  rewrite (proj2 (Z.leb_le 0 _)) by done. cbn [mbind result_bind]. bools.
  apply mapR_all_ok. intros s Hs.
  destruct (new_job_batch b0 b a s Hb Hs H H4) as [Hok Hval].
  rewrite H2, H1 in Hok. simpl in Hok. rewrite (proj2 (Z.leb_le 1 _)) in Hok by done.
  destruct (new_job (batch_job b a (batch_gpu b a) s)) as [j|] eqn:E; [|done].
  by rewrite (Hval j eq_refl).
Qed.

Lemma elem_of_planned_jobs b j :
  j ∈ planned_jobs b <-> exists a s, a ∈ bs_architectures b /\ (1 <= s <= bs_planned_sessions b)%Z
    /\ j = batch_job b a (batch_gpu b a) s.
Proof.
  unfold planned_jobs. rewrite list_elem_of_In, in_concat.
  setoid_rewrite <- list_elem_of_In. setoid_rewrite list_elem_of_fmap. split.
  - intros (l & (a & -> & Ha) & (s & -> & Hs%elem_of_sessions)%list_elem_of_fmap). eauto.
  - intros (a & s & Ha & Hs & ->). eexists. split; [by eauto|].
    apply list_elem_of_fmap. exists s. by rewrite elem_of_sessions.
Qed.

Lemma planned_jobs_length b :
  length (planned_jobs b) = length (bs_architectures b) * Z.to_nat (bs_planned_sessions b).
Proof.
  unfold planned_jobs. induction (bs_architectures b) as [|a l IH]; simpl; [done|].
  rewrite length_app, IH, length_map. unfold sessions. by rewrite length_map, length_seq.
Qed.

Lemma NoDup_planned_jobs b : NoDup (bs_architectures b) -> NoDup (planned_jobs b).
Proof.
  unfold planned_jobs. induction 1 as [|a l Ha Hl IH]; simpl; [constructor|].
  apply NoDup_app. split_and!; [| |done].
  - apply NoDup_fmap_2; [|apply NoDup_sessions]. by intros s s' [= ?].
  - intros j (s & -> & _)%list_elem_of_fmap Hj.
    apply list_elem_of_In, in_concat in Hj as (k & Hk & Hj).
    apply list_elem_of_In, list_elem_of_fmap in Hk as (a' & -> & Ha').
    apply list_elem_of_In, list_elem_of_fmap in Hj as (s' & Hj & _).
    injection Hj as <- _. done.
Qed.

(** ** Theorems *)

(** A job that was constructed, written as canonical JSON text and read
    back from that text is the same job: no field is lost, defaulted or
    reordered on the way through the store. *)
Theorem job_text_roundtrip j :
  job_ok j ->
  exists o, loads (dumps (job_to_dict j)) = Some (JObj o) /\ job_from_mapping o = Ok j.
Proof.
  intros Hj. exists (sorted_members (job_fields j)). split; [|by apply job_reads_back].
  rewrite loads_dumps by apply jwf_job. by rewrite <- sort_keys_members.
Qed.

(** The request hash identifies the job: two constructed jobs with equal
    hashes are equal, or their texts are a collision of the hash function. *)
Theorem job_request_hash_identifies blake2b j j' :
  job_ok j -> job_ok j' -> job_request_hash blake2b j = job_request_hash blake2b j' ->
  j = j' \/
  exists person s s', s <> s' /\ blake2b person s = (blake2b person s' : string).
Proof.
  intros Hj Hj' E.
  destruct (decide (dumps (job_to_dict j) = dumps (job_to_dict j'))) as [Ed|Hne].
  - left. pose proof (job_reads_back j Hj) as H. pose proof (job_reads_back j' Hj') as H'.
    pose proof (loads_dumps _ (jwf_job j)) as L. pose proof (loads_dumps _ (jwf_job j')) as L'.
    rewrite Ed, L' in L. unfold job_to_dict in L. rewrite !sort_keys_members in L.
    assert (sorted_members (job_fields j) = sorted_members (job_fields j')) as E' by congruence.
    rewrite E', H' in H. by injection H.
  - right. do 3 eexists. split; [exact Hne | exact E].
Qed.

(** A constructed batch expands exactly when its fields pass the checks of
    the records it is expanded into, and then into one job for each session
    1..planned_sessions of each requested architecture, none twice, with the
    GPU requirement of its architecture. *)
Theorem expand_spec b0 b :
  new_batch b0 = Ok b ->
  is_ok (expand b) = expandable b /\
  forall jobs, expand b = Ok jobs ->
    NoDup jobs /\
    length jobs = length (bs_architectures b) * Z.to_nat (bs_planned_sessions b) /\
    (forall j, j ∈ jobs <-> exists a s, a ∈ bs_architectures b0
        /\ (1 <= s <= bs_planned_sessions b0)%Z /\ j = batch_job b a (batch_gpu b a) s).
Proof.
  intros Hb. split.
  - destruct (expandable b) eqn:He; [by rewrite (expandable_Ok b0 b Hb He)|].
    destruct (expand b) as [jobs|] eqn:E; [|done].
    destruct (expand_Ok b0 b jobs Hb E). congruence.
  - intros jobs E. destruct (expand_Ok b0 b jobs Hb E) as [-> _].
    pose proof Hb as (_ & Hnd & _)%new_batch_inv.
    split_and!; [by apply NoDup_planned_jobs | apply planned_jobs_length |].
    intros j. rewrite elem_of_planned_jobs. unfold new_batch in Hb. inv_ok. simpl.
    by setoid_rewrite elem_of_sorted_set.
Qed.

(** ** Concrete values *)

Definition demo_batch : BatchSpec :=
  mkBatchSpec "gate-fusion" ["gfx1100"; "gfx1030"; "gfx1100"] "qwen" 2 None None
    "bigcherry-tuning" ["b"; "a"; "b"] [("y", "2"); ("x", "1")] None false "patch-refactor"
    1 0 false (mkTargetPolicy "dev" None None) 2700 0.

Definition demo_gpu : GpuRequirement := mkGpuRequirement "gfx1030" 1 0 true None false [].

Definition demo_job : JobSpec :=
  mkJobSpec "gate-fusion" "gfx1030" "qwen" 2 2 (Some "p\q") None "bigcherry-tuning" ["a"; "b"]
    [("x", "1"); ("y", "2")] None false "patch-refactor" (Some demo_gpu)
    (mkTargetPolicy "dev" None None) 2700 (-5).

Lemma demo_job_ok : job_ok demo_job.
Proof. split; [by vm_compute | by intros g [= <-] | done]. Defined.

Lemma job_text_roundtrip_witness :
  exists o, loads (dumps (job_to_dict demo_job)) = Some (JObj o)
    /\ job_from_mapping o = Ok demo_job.
Proof. apply (job_text_roundtrip demo_job). exact demo_job_ok. Defined.

Lemma job_request_hash_identifies_witness :
  demo_job = demo_job \/
  exists person s s', s <> s' /\ (fun p d => p +:+ d) person s = (person +:+ s' : string).
Proof.
  apply (job_request_hash_identifies (fun p d => p +:+ d) demo_job demo_job);
    [exact demo_job_ok | exact demo_job_ok | reflexivity].
Defined.

Definition demo_batch_normal : BatchSpec :=
  mkBatchSpec "gate-fusion" ["gfx1030"; "gfx1100"] "qwen" 2 None None
    "bigcherry-tuning" ["a"; "b"] [("x", "1"); ("y", "2")] None false "patch-refactor"
    1 0 false (mkTargetPolicy "dev" None None) 2700 0.

Lemma expand_spec_witness :
  new_batch demo_batch = Ok demo_batch_normal /\
  expand demo_batch_normal = Ok (planned_jobs demo_batch_normal) /\
  length (planned_jobs demo_batch_normal) = 4 /\ NoDup (planned_jobs demo_batch_normal).
Proof.
  assert (new_batch demo_batch = Ok demo_batch_normal) as Hb by (vm_compute; reflexivity).
  assert (expand demo_batch_normal = Ok (planned_jobs demo_batch_normal)) as He
    by (vm_compute; reflexivity).
  split; [exact Hb|]. split; [exact He|].
  destruct (proj2 (expand_spec demo_batch demo_batch_normal Hb) _ He) as (Hnd & Hl & _).
  split; [vm_compute; reflexivity | exact Hnd].
Defined.

(** A batch may be constructed and still fail to expand. *)
Example expand_rejects_late :
  (b ← new_batch (mkBatchSpec " " ["gfx1030"] "m" 1 None None "s" [] [] None false "r" 1 0
            false (mkTargetPolicy "dev" None None) 2700 0); expand b)
  = Err (ValueError "patch is required").
Proof. vm_compute. reflexivity. Qed.

End JobModel.
