(* ===== verification/Executor.v ===== *)
(** The execution contract of the job service and its in-memory
    implementation: [src/tools/bigcherry/jobs/executor.py] and [fake.py].

    [Executor] is the protocol as a class, with the laws the service relies on
    as [ExecutorLaws]; [FakeExecutor] is an instance that satisfies them. *)

From S2P Require Import Prelude Json.
Import Json.

Module Executor.

Inductive ExecutorControl : Set := HOLD | RELEASE.

Inductive ExecutionState : Set :=
| QUEUED | RUNNING | HELD | COMPLETED | CANCELLED | FAILED | UNKNOWN.

#[global] Instance ExecutionState_eq_dec : EqDecision ExecutionState.
Proof. solve_decision. Defined.

Definition execution_state_value (s : ExecutionState) : string :=
  match s with
  | QUEUED => "queued" | RUNNING => "running" | HELD => "held" | COMPLETED => "completed"
  | CANCELLED => "cancelled" | FAILED => "failed" | UNKNOWN => "unknown"
  end.

Definition exec_eqb (s t : ExecutionState) : bool :=
  String.eqb (execution_state_value s) (execution_state_value t).

Lemma exec_eqb_true s t : exec_eqb s t = true <-> s = t.
Proof. by destruct s, t; split. Qed.

Record SchedulerGpuRequest : Set := mkSchedulerGpuRequest {
  sg_architecture : string; sg_reserved_count : Z }.

#[global] Instance SchedulerGpuRequest_eq_dec : EqDecision SchedulerGpuRequest.
Proof. solve_decision. Defined.

Definition new_scheduler_gpu (g : SchedulerGpuRequest) : res SchedulerGpuRequest :=
  _ ← ensure (negb (blank (sg_architecture g) || has_space (sg_architecture g)))
        (ValueError "GPU architecture must be a non-empty token");
  _ ← ensure (1 <=? sg_reserved_count g)%Z (ValueError "GPU reserved_count must be >= 1");
  Ok g.

Record ResourceRequest : Set := mkResourceRequest {
  rr_cpu_slots : Z;
  rr_gpu : option SchedulerGpuRequest;
  rr_activity_class : string;
  rr_memory_bytes : option Z;
  rr_timeout_seconds : Z;
}.

#[global] Instance ResourceRequest_eq_dec : EqDecision ResourceRequest.
Proof. solve_decision. Defined.

Definition new_resources (r : ResourceRequest) : res ResourceRequest :=
  _ ← ensure (1 <=? rr_cpu_slots r)%Z (ValueError "cpu_slots must be >= 1");
  _ ← ensure (match rr_memory_bytes r with Some m => 1 <=? m | None => true end)%Z
        (ValueError "memory_bytes must be positive when supplied");
  _ ← ensure (1 <=? rr_timeout_seconds r)%Z (ValueError "timeout_seconds must be >= 1");
  _ ← ensure (negb (blank (rr_activity_class r))) (ValueError "activity_class is required");
  Ok r.

Record ExecutionRequest : Set := mkExecutionRequest {
  er_execution_id : string;
  er_command : list string;
  er_cwd : string;
  er_env : list (string * string);
  er_stdout_path : string;
  er_stderr_path : string;
  er_resources : ResourceRequest;
  er_dependencies : list string;
}.

#[global] Instance ExecutionRequest_eq_dec : EqDecision ExecutionRequest.
Proof. solve_decision. Defined.

Definition new_execution_request (r : ExecutionRequest) : res ExecutionRequest :=
  _ ← ensure (negb (blank (er_execution_id r))) (ValueError "execution_id is required");
  _ ← ensure (match er_command r with [] => false | c :: _ => truthy c end)
        (ValueError "command is required");
  _ ← ensure (length (map fst (er_env r)) =? length (remove_dups (map fst (er_env r))))%nat
        (ValueError "execution environment keys must be unique");
  Ok r.

Record ExecutionHandle : Set := mkExecutionHandle {
  eh_executor : string; eh_native_id : string; eh_execution_id : string }.

#[global] Instance ExecutionHandle_eq_dec : EqDecision ExecutionHandle.
Proof. solve_decision. Defined.

Record ExecutionStatus : Set := mkExecutionStatus {
  es_state : ExecutionState; es_reason : option string; es_native_state : option string }.

Record Allocation : Set := mkAllocation {
  al_native_gpu_ids : list string;
  al_environment : list (string * string);
  al_stable_gpu_ids : list string;
}.

Record ExecutorEvent : Type := mkExecutorEvent {
  ev_sequence : nat; ev_kind : string; ev_payload : list (string * json) }.

(** The protocol.  [S] is the executor's own state. *)
Class Executor (S : Type) : Type := {
  name : string;
  submit : ExecutionRequest -> stm S ExecutionHandle;
  correlate : string -> stm S (list ExecutionHandle);
  status : ExecutionHandle -> stm S ExecutionStatus;
  cancel : ExecutionHandle -> stm S unit;
  control : ExecutionHandle -> ExecutorControl -> stm S unit;
  allocation : ExecutionHandle -> stm S (option Allocation);
  events : ExecutionHandle -> option nat -> stm S (list ExecutorEvent);
}.

(** A call that leaves what can be found by execution identity as it was. *)
Definition quiet {S} `{Executor S} (ok : S -> Prop) (s s' : S) : Prop :=
  ok s' /\ forall e, (correlate e s').1 = (correlate e s).1.

(** What a client may rely on, for the states [ok] an executor can be in.  It
    is not told that launching an execution twice is harmless. *)
Class ExecutorLaws (S : Type) `{Executor S} (ok : S -> Prop) : Prop := {
  (** looking an execution up changes nothing *)
  correlate_pure s e : ok s -> exists hs, correlate e s = (Ok hs, s);
  (** an execution that was not known is found after it was launched, and the
      handle names the executor and the execution *)
  submit_launches s r h s' : ok s -> correlate (er_execution_id r) s = (Ok [], s) ->
    submit r s = (Ok h, s') ->
    eh_executor h = name /\ eh_execution_id h = er_execution_id r /\
    correlate (er_execution_id r) s' = (Ok [h], s');
  (** launching one execution, also when it fails, does not touch another *)
  submit_frame s r res s' : ok s -> submit r s = (res, s') ->
    ok s' /\ forall e, e <> er_execution_id r -> (correlate e s').1 = (correlate e s).1;
  status_quiet s h res s' : ok s -> status h s = (res, s') -> quiet ok s s';
  cancel_quiet s h res s' : ok s -> cancel h s = (res, s') -> quiet ok s s';
  control_quiet s h a res s' : ok s -> control h a s = (res, s') -> quiet ok s s';
}.

(** ** [FakeExecutor] *)

Record FakeRun : Type := mkFakeRun {
  fr_request : ExecutionRequest;
  fr_handle : ExecutionHandle;
  fr_state : ExecutionState;
  fr_reason : option string;
  fr_allocation : option Allocation;
  fr_events : list ExecutorEvent;
}.

Record FakeExecutor : Type := mkFakeExecutor {
  fx_counter : nat;
  fx_by_native : gmap string FakeRun;
  fx_native_by_execution : gmap string string;
}.

Definition fake_name : string := "fake".
Definition fake_init : FakeExecutor := mkFakeExecutor 0 ∅ ∅.

(** [f"{n:06d}"] *)
Definition pad6 (n : nat) : string :=
  let s := show_nat n in String.concat "" (replicate (6 - String.length s) "0") +:+ s.

(** [_emit]: the event is appended with the next sequence number. *)
Definition emit (run : FakeRun) (kind : string) (payload : list (string * json)) : FakeRun :=
  mkFakeRun (fr_request run) (fr_handle run) (fr_state run) (fr_reason run) (fr_allocation run)
    (fr_events run ++ [mkExecutorEvent (length (fr_events run) + 1) kind payload]).

Definition set_state (run : FakeRun) (s : ExecutionState) : FakeRun :=
  mkFakeRun (fr_request run) (fr_handle run) s (fr_reason run) (fr_allocation run) (fr_events run).

Definition set_run_allocation (run : FakeRun) (a : Allocation) : FakeRun :=
  mkFakeRun (fr_request run) (fr_handle run) (fr_state run) (fr_reason run) (Some a) (fr_events run).

(** The run object of a handle is updated in place. *)
Definition store_run (native : string) (run : FakeRun) (st : FakeExecutor) : FakeExecutor :=
  mkFakeExecutor (fx_counter st) (<[native := run]> (fx_by_native st)) (fx_native_by_execution st).

(** [repr] of a handle: the text of the [KeyError] a lookup of it raises. *)
Definition handle_repr (h : ExecutionHandle) : string :=
  "ExecutionHandle(executor=" +:+ py_repr (eh_executor h) +:+ ", native_id="
    +:+ py_repr (eh_native_id h) +:+ ", execution_id=" +:+ py_repr (eh_execution_id h) +:+ ")".

Definition fake_find (h : ExecutionHandle) : stm FakeExecutor FakeRun :=
  fun st =>
    if String.eqb (eh_executor h) fake_name then
      (of_option (KeyError (handle_repr h)) (fx_by_native st !! eh_native_id h), st)
    else (Err (KeyError (handle_repr h)), st).

Definition fake_submit (r : ExecutionRequest) : stm FakeExecutor ExecutionHandle :=
  fun st =>
    match fx_native_by_execution st !! er_execution_id r with
    | Some native =>
        (fr_handle <$> of_option (KeyError (py_repr native)) (fx_by_native st !! native), st)
    | None =>
        let counter := fx_counter st + 1 in
        let native := "fake-" +:+ pad6 counter in
        let handle := mkExecutionHandle fake_name native (er_execution_id r) in
        let run := emit (mkFakeRun r handle QUEUED None None []) "submitted" [] in
        (Ok handle, mkFakeExecutor counter (<[native := run]> (fx_by_native st))
                      (<[er_execution_id r := native]> (fx_native_by_execution st)))
    end.

Definition fake_correlate (execution_id : string) : stm FakeExecutor (list ExecutionHandle) :=
  fun st =>
    match fx_native_by_execution st !! execution_id with
    | None => (Ok [], st)
    | Some native =>
        ((fun run => [fr_handle run])
           <$> of_option (KeyError (py_repr native)) (fx_by_native st !! native), st)
    end.

Definition fake_status (h : ExecutionHandle) : stm FakeExecutor ExecutionStatus :=
  run ← fake_find h;
  mret (mkExecutionStatus (fr_state run) (fr_reason run)
          (Some (execution_state_value (fr_state run)))).

Definition terminal (s : ExecutionState) : bool :=
  existsb (exec_eqb s) [COMPLETED; CANCELLED; FAILED].

Definition fake_cancel (h : ExecutionHandle) : stm FakeExecutor unit :=
  run ← fake_find h;
  if terminal (fr_state run) then mret tt
  else modify (store_run (eh_native_id h) (emit (set_state run CANCELLED) "cancelled" [])).

Definition fake_control (h : ExecutionHandle) (action : ExecutorControl) : stm FakeExecutor unit :=
  run ← fake_find h;
  match action with
  | HOLD =>
      if exec_eqb (fr_state run) QUEUED then
        modify (store_run (eh_native_id h) (emit (set_state run HELD) "held" []))
      else mret tt
  | RELEASE =>
      if exec_eqb (fr_state run) HELD then
        modify (store_run (eh_native_id h) (emit (set_state run QUEUED) "released" []))
      else mret tt
  end.

Definition fake_allocation (h : ExecutionHandle) : stm FakeExecutor (option Allocation) :=
  run ← fake_find h; mret (fr_allocation run).

Definition fake_events (h : ExecutionHandle) (after : option nat) :
    stm FakeExecutor (list ExecutorEvent) :=
  run ← fake_find h;
  let minimum := default 0 after in
  mret (List.filter (fun e => minimum <? ev_sequence e)%nat (fr_events run)).

Definition fake_set_allocation (h : ExecutionHandle) (a : Allocation) : stm FakeExecutor unit :=
  run ← fake_find h; modify (store_run (eh_native_id h) (set_run_allocation run a)).

(** The executions that have completed. *)
Definition completed_ids (st : FakeExecutor) : list string :=
  map (fun run => er_execution_id (fr_request run))
    (List.filter (fun run => exec_eqb (fr_state run) COMPLETED) (map snd (map_to_list (fx_by_native st)))).

(** One round of the loop of [start_ready]. *)
Definition start_one (complete : list string) (acc : FakeExecutor * list ExecutionHandle)
    (native : string) : FakeExecutor * list ExecutionHandle :=
  let '(st, started) := acc in
  match fx_by_native st !! native with
  | None => acc
  | Some run =>
      if negb (exec_eqb (fr_state run) QUEUED) then acc
      else if negb (forallb (fun d => str_in d complete) (er_dependencies (fr_request run))) then acc
      else (store_run native (emit (set_state run RUNNING) "started" []) st,
            started ++ [fr_handle run])
  end.

Definition natives (st : FakeExecutor) : list string :=
  py_sorted String.leb (map fst (map_to_list (fx_by_native st))).

Definition start_ready : stm FakeExecutor (list ExecutionHandle) :=
  fun st =>
    let '(st', started) := fold_left (start_one (completed_ids st)) (natives st) (st, []) in
    (Ok started, st').

Definition fake_complete (h : ExecutionHandle) (failed : bool) : stm FakeExecutor unit :=
  run ← fake_find h;
  if negb (exec_eqb (fr_state run) RUNNING) then
    raise (Exn "RuntimeError" ("cannot complete " +:+ execution_state_value (fr_state run)
             +:+ " fake execution"))
  else
    modify (store_run (eh_native_id h)
      (emit (set_state run (if failed then FAILED else COMPLETED))
         (if failed then "failed" else "completed") [])).

#[global] Instance fake_executor : Executor FakeExecutor := {|
  name := fake_name;
  submit := fake_submit;
  correlate := fake_correlate;
  status := fake_status;
  cancel := fake_cancel;
  control := fake_control;
  allocation := fake_allocation;
  events := fake_events;
|}.

(** ** What a run goes through *)

(** The state machine of an execution, on the kinds of its events. *)
Definition next_state (s : option ExecutionState) (kind : string) : option ExecutionState :=
  match s with
  | None => if String.eqb kind "submitted" then Some QUEUED else None
  | Some s =>
      if String.eqb kind "held" then if exec_eqb s QUEUED then Some HELD else None
      else if String.eqb kind "released" then if exec_eqb s HELD then Some QUEUED else None
      else if String.eqb kind "started" then if exec_eqb s QUEUED then Some RUNNING else None
      else if String.eqb kind "completed" then if exec_eqb s RUNNING then Some COMPLETED else None
      else if String.eqb kind "failed" then if exec_eqb s RUNNING then Some FAILED else None
      else if String.eqb kind "cancelled" then
        if terminal s then None else Some CANCELLED
      else None
  end.

(** The state its event log puts an execution in; [None] for a log that the
    state machine does not produce. *)
Definition history (evs : list ExecutorEvent) : option ExecutionState :=
  fold_left (fun s e => next_state s (ev_kind e)) evs None.

(** One step of one run; [ready] says its dependencies have completed. *)
Inductive run_step (ready : Prop) (run : FakeRun) : FakeRun -> Prop :=
| rs_allocate a : run_step ready run (set_run_allocation run a)
| rs_event kind s : next_state (Some (fr_state run)) kind = Some s ->
    (kind = "started" -> ready) -> run_step ready run (emit (set_state run s) kind []).

Definition log_ok (run : FakeRun) : Prop :=
  history (fr_events run) = Some (fr_state run) /\
  map ev_sequence (fr_events run) = seq 1 (length (fr_events run)).

Definition native_name (k : nat) : string := "fake-" +:+ pad6 k.

Definition dep_completed (st : FakeExecutor) (d : string) : Prop :=
  exists native run, fx_native_by_execution st !! d = Some native /\
    fx_by_native st !! native = Some run /\ fr_state run = COMPLETED.

Definition deps_completed (st : FakeExecutor) (run : FakeRun) : Prop :=
  forall d, d ∈ er_dependencies (fr_request run) -> dep_completed st d.

Definition started (run : FakeRun) : Prop := "started" ∈ map ev_kind (fr_events run).

(** The invariant of the executor's maps. *)
Record fake_wf (st : FakeExecutor) : Prop := {
  fw_execution e n : fx_native_by_execution st !! e = Some n ->
    exists run, fx_by_native st !! n = Some run /\ er_execution_id (fr_request run) = e;
  fw_native n run : fx_by_native st !! n = Some run ->
    fr_handle run = mkExecutionHandle fake_name n (er_execution_id (fr_request run)) /\
    fx_native_by_execution st !! er_execution_id (fr_request run) = Some n /\
    exists k, 1 <= k <= fx_counter st /\ n = native_name k;
  fw_log n run : fx_by_native st !! n = Some run -> log_ok run;
  fw_deps n run : fx_by_native st !! n = Some run -> started run -> deps_completed st run;
}.

(** ** Lemmas *)

Lemma read_digits_zeros n s :
  read_digits 0 (String.concat "" (replicate n "0") +:+ s) = read_digits 0 s.
Proof.
  induction n as [|n IH]; [done|]. cbn [replicate]. rewrite str_concat_cons.
  replace (match replicate n "0" with [] => "" | _ => "" +:+ String.concat "" (replicate n "0") end)
    with (String.concat "" (replicate n "0")) by (by destruct n).
  rewrite str_app_cons, str_app_cons. cbn [read_digits].
  change (digit_val "0"%char) with (Some 0%N). exact IH.
Qed.

#[global] Instance native_name_inj : Inj (=) (=) native_name.
Proof.
  assert (forall n, read_digits 0 (pad6 n) = (N.of_nat n, "")) as Hread.
  { intros n. unfold pad6. rewrite read_digits_zeros.
    pose proof (read_show_N (N.of_nat n) "" I) as H. by rewrite str_app_nil_r in H. }
  intros n m H. unfold native_name in H.
  assert (pad6 n = pad6 m) as H' by (by injection H).
  pose proof (Hread n) as Hn. rewrite H', Hread in Hn. injection Hn as Hn. lia.
Qed.

Lemma history_emit run kind s :
  history (fr_events (emit (set_state run s) kind [])) = next_state (history (fr_events run)) kind.
Proof. unfold history. simpl. by rewrite fold_left_app. Qed.

Lemma run_step_log ready run run' : log_ok run -> run_step ready run run' -> log_ok run'.
Proof.
  intros [Hh Hs] H. destruct H as [a|kind s Hn _]; [done|]. split.
  - by rewrite history_emit, Hh.
  - simpl. rewrite map_app, Hs, length_app. simpl. rewrite seq_app. simpl.
    by rewrite Nat.add_comm.
Qed.

Lemma next_state_terminal s kind s' :
  terminal s = true -> next_state (Some s) kind = Some s' -> False.
Proof.
  intros Ht. unfold next_state. destruct s; try done; simpl;
    repeat match goal with |- context [if String.eqb ?a ?b then _ else _] =>
      destruct (String.eqb a b) end; done.
Qed.

(** A run that has ended stays as it ended. *)
Lemma run_step_terminal ready run run' :
  run_step ready run run' -> terminal (fr_state run) = true ->
  fr_state run' = fr_state run /\ fr_events run' = fr_events run.
Proof.
  intros H Ht. destruct H as [a|kind s Hn _]; [done|].
  by destruct (next_state_terminal _ _ _ Ht Hn).
Qed.

Lemma run_step_static ready run run' :
  run_step ready run run' ->
  fr_request run' = fr_request run /\ fr_handle run' = fr_handle run.
Proof. by intros []. Qed.

Lemma run_step_started ready run run' :
  run_step ready run run' -> started run' -> started run \/ ready.
Proof.
  unfold started. intros [a|kind s _ Hr]; simpl; [by left|].
  rewrite map_app, elem_of_app. simpl. rewrite list_elem_of_singleton.
  intros [?|E]; [by left | right; by apply Hr].
Qed.

(** Stepping one run keeps the invariant. *)
Lemma store_run_wf st n run run' :
  fake_wf st -> fx_by_native st !! n = Some run ->
  run_step (deps_completed st run) run run' -> fake_wf (store_run n run' st).
Proof.
  intros Hwf Hn Hstep. destruct (run_step_static _ _ _ Hstep) as [Hreq Hhan].
  assert (forall d, dep_completed st d -> dep_completed (store_run n run' st) d) as Hmono.
  { intros d (m & r & Hd & Hm & Hc). exists m. destruct (decide (m = n)) as [->|Hne].
    - exists run'. simpl. rewrite lookup_insert_eq. split_and!; [done|done|].
      assert (r = run) as -> by congruence.
      destruct (run_step_terminal _ _ _ Hstep) as [-> _]; [by rewrite Hc|done].
    - exists r. simpl. by rewrite lookup_insert_ne. }
  split; simpl.
  - intros e m He. destruct (fw_execution st Hwf e m He) as (r & Hm & Hr).
    destruct (decide (m = n)) as [->|Hne].
    + exists run'. rewrite lookup_insert_eq, Hreq. split; [done|]. by assert (r = run) as -> by congruence.
    + exists r. by rewrite lookup_insert_ne.
  - intros m r. destruct (decide (m = n)) as [->|Hne].
    + rewrite lookup_insert_eq. intros [= <-]. rewrite Hreq, Hhan. by apply (fw_native st Hwf).
    + rewrite lookup_insert_ne by done. apply (fw_native st Hwf).
  - intros m r. destruct (decide (m = n)) as [->|Hne].
    + rewrite lookup_insert_eq. intros [= <-]. eapply run_step_log; [|done]. by eapply (fw_log st Hwf).
    + rewrite lookup_insert_ne by done. apply (fw_log st Hwf).
  - intros m r. destruct (decide (m = n)) as [->|Hne].
    + rewrite lookup_insert_eq. intros [= <-] Hs d. rewrite Hreq. intros Hd. apply Hmono.
      destruct (run_step_started _ _ _ Hstep Hs) as [Hs'|Hr]; [|by apply Hr].
      by eapply (fw_deps st Hwf n run).
    + rewrite lookup_insert_ne by done. intros Hr Hs d Hd. apply Hmono.
      by eapply (fw_deps st Hwf m r).
Qed.

Lemma fake_init_wf : fake_wf fake_init.
Proof. by split; simpl; intros ? ?; rewrite lookup_empty. Qed.

Lemma fake_submit_wf r st h st' : fake_wf st -> fake_submit r st = (h, st') -> fake_wf st'.
Proof.
  intros Hwf. unfold fake_submit.
  destruct (fx_native_by_execution st !! er_execution_id r) as [n|] eqn:E; [by intros [= <- <-]|].
  intros [= <- <-]. set (n := "fake-" +:+ pad6 (fx_counter st + 1)).
  set (run := emit _ _ _).
  assert (n = native_name (fx_counter st + 1)) as Hname by done.
  assert (fx_by_native st !! n = None) as Hfresh.
  { destruct (fx_by_native st !! n) as [r'|] eqn:Hn; [|done].
    destruct (fw_native st Hwf n r' Hn) as (_ & _ & k & Hk & Hk').
    rewrite Hname in Hk'. apply (inj native_name) in Hk'. lia. }
  assert (forall d, dep_completed st d -> dep_completed (mkFakeExecutor (fx_counter st + 1)
    (<[n := run]> (fx_by_native st)) (<[er_execution_id r := n]> (fx_native_by_execution st))) d)
    as Hmono.
  { intros d (m & r' & Hd & Hm & Hc). exists m, r'. simpl.
    rewrite !lookup_insert_ne by congruence. done. }
  split; simpl.
  - intros e m He. destruct (decide (e = er_execution_id r)) as [->|Hne].
    + rewrite lookup_insert_eq in He. injection He as <-. exists run.
      by rewrite lookup_insert_eq.
    + rewrite lookup_insert_ne in He by done.
      destruct (fw_execution st Hwf e m He) as (r' & Hm & Hr). exists r'.
      rewrite lookup_insert_ne by congruence. done.
  - intros m r'. destruct (decide (m = n)) as [->|Hne].
    + rewrite lookup_insert_eq. intros [= <-]. simpl. rewrite lookup_insert_eq.
      split_and!; [done|done|]. exists (fx_counter st + 1). split; [lia|done].
    + rewrite lookup_insert_ne by done. intros Hm.
      destruct (fw_native st Hwf m r' Hm) as (Hh & He & k & Hk & ->).
      split_and!; [done | rewrite lookup_insert_ne by congruence; done |].
      exists k. split; [lia|done].
  - intros m r'. destruct (decide (m = n)) as [->|Hne].
    + rewrite lookup_insert_eq. by intros [= <-].
    + rewrite lookup_insert_ne by done. apply (fw_log st Hwf).
  - intros m r'. destruct (decide (m = n)) as [->|Hne].
    + rewrite lookup_insert_eq. intros [= <-]. unfold started. simpl.
      by rewrite list_elem_of_singleton.
    + rewrite lookup_insert_ne by done. intros Hm Hs d Hd. apply Hmono.
      by eapply (fw_deps st Hwf m r').
Qed.

Lemma fake_find_Ok h st run st' :
  fake_find h st = (Ok run, st') ->
  st' = st /\ fx_by_native st !! eh_native_id h = Some run.
Proof.
  unfold fake_find. destruct (String.eqb _ _); [|done].
  destruct (fx_by_native st !! eh_native_id h); simpl; [|done]. by intros [= -> ->].
Qed.

Lemma fake_find_state h st : (fake_find h st).2 = st.
Proof. unfold fake_find. by destruct (String.eqb _ _). Qed.

Lemma fake_find_handle st n run :
  fake_wf st -> fx_by_native st !! n = Some run -> fake_find (fr_handle run) st = (Ok run, st).
Proof.
  intros Hwf Hn. destruct (fw_native st Hwf n run Hn) as (-> & _). unfold fake_find. simpl.
  by rewrite Hn.
Qed.

(** Methods that look the run of a handle up and then step it. *)
Lemma keeps_found {A} h (f : FakeRun -> stm FakeExecutor A) :
  (forall run st r st', fake_wf st -> fx_by_native st !! eh_native_id h = Some run ->
     f run st = (r, st') -> fake_wf st') ->
  keeps fake_wf (run ← fake_find h; f run).
Proof.
  intros Hf st r st' Hwf. unfold mbind, stm_bind.
  destruct (fake_find h st) as [[run|e] st1] eqn:E.
  - apply fake_find_Ok in E as [-> Hn]. intros H. by eapply Hf.
  - pose proof (fake_find_state h st) as Hs. rewrite E in Hs. simpl in Hs. subst st1.
    by intros [= <- <-].
Qed.

Lemma modify_wf st n run run' r st' :
  fake_wf st -> fx_by_native st !! n = Some run ->
  run_step (deps_completed st run) run run' ->
  modify (store_run n run') st = (r, st') -> fake_wf st'.
Proof. intros Hwf Hn Hs [= <- <-]. by eapply store_run_wf. Qed.

Lemma keeps_cancel h : keeps fake_wf (fake_cancel h).
Proof.
  apply keeps_found. intros run st r st' Hwf Hn.
  destruct (terminal (fr_state run)) eqn:Ht; [by intros [= <- <-]|].
  eapply modify_wf; [done|done|]. constructor; [simpl; by rewrite Ht|done].
Qed.

Lemma keeps_control h a : keeps fake_wf (fake_control h a).
Proof.
  apply keeps_found. intros run st r st' Hwf Hn.
  destruct a; (destruct (exec_eqb (fr_state run) _) eqn:Ht; [|by intros [= <- <-]]);
    (eapply modify_wf; [done|done|]); (constructor; [simpl; by rewrite Ht|done]).
Qed.

Lemma keeps_set_allocation h a : keeps fake_wf (fake_set_allocation h a).
Proof.
  apply keeps_found. intros run st r st' Hwf Hn. eapply modify_wf; [done|done|]. constructor.
Qed.

Lemma keeps_complete h b : keeps fake_wf (fake_complete h b).
Proof.
  apply keeps_found. intros run st r st' Hwf Hn.
  destruct (exec_eqb (fr_state run) RUNNING) eqn:Ht; simpl; [|by intros [= <- <-]].
  eapply modify_wf; [done|done|]. destruct b; (constructor; [simpl; by rewrite Ht|done]).
Qed.

Lemma elem_of_completed_ids st d :
  fake_wf st -> d ∈ completed_ids st -> dep_completed st d.
Proof.
  intros Hwf. unfold completed_ids. rewrite list_elem_of_fmap. intros (run & -> & Hrun).
  apply list_elem_of_In, filter_In in Hrun as [Hrun Hc]. apply exec_eqb_true in Hc.
  apply list_elem_of_In, list_elem_of_fmap in Hrun as ([n run'] & -> & Hn).
  apply elem_of_map_to_list in Hn. destruct (fw_native st Hwf n run' Hn) as (_ & He & _).
  exists n, run'. done.
Qed.

Lemma start_one_wf complete st started n st' started' :
  fake_wf st -> (forall d, d ∈ complete -> dep_completed st d) ->
  start_one complete (st, started) n = (st', started') ->
  fake_wf st' /\ (forall d, d ∈ complete -> dep_completed st' d).
Proof.
  intros Hwf Hc. unfold start_one.
  destruct (fx_by_native st !! n) as [run|] eqn:Hn; [|by intros [= <- <-]].
  destruct (exec_eqb (fr_state run) QUEUED) eqn:Hq; [|by intros [= <- <-]]. simpl.
  destruct (forallb _ _) eqn:Hd; [|by intros [= <- <-]]. intros [= <- <-].
  rewrite forallb_true in Hd. apply exec_eqb_true in Hq. split.
  - eapply store_run_wf; [done|done|]. constructor; [by rewrite Hq|].
    intros _ d Hdep. apply Hc. apply str_in_true. by apply Hd.
  - intros d Hin. destruct (Hc d Hin) as (m & r & ? & Hm & ?). exists m, r. simpl.
    rewrite lookup_insert_ne; [done|]. intros ->. congruence.
Qed.

Lemma keeps_start_ready : keeps fake_wf start_ready.
Proof.
  intros st r st' Hwf. unfold start_ready.
  assert (forall l st0 acc, fake_wf st0 ->
    (forall d, d ∈ completed_ids st -> dep_completed st0 d) ->
    fake_wf (fold_left (start_one (completed_ids st)) l (st0, acc)).1) as Hfold.
  { induction l as [|n l IH]; intros st0 acc H0 Hc0; [done|]. cbn [fold_left].
    destruct (start_one (completed_ids st) (st0, acc) n) as [st1 acc1] eqn:E.
    destruct (start_one_wf _ _ _ _ _ _ H0 Hc0 E). by apply IH. }
  specialize (Hfold (natives st) st [] Hwf (fun d => elem_of_completed_ids st d Hwf)).
  destruct (fold_left _ _ _) as [st1 acc1]. intros [= <- <-]. exact Hfold.
Qed.

(** ** Reachable states *)

(** One call of any method. *)
Inductive fake_call (st : FakeExecutor) : FakeExecutor -> Prop :=
| fc_submit r : fake_call st (fake_submit r st).2
| fc_cancel h : fake_call st (fake_cancel h st).2
| fc_control h a : fake_call st (fake_control h a st).2
| fc_set_allocation h a : fake_call st (fake_set_allocation h a st).2
| fc_start_ready : fake_call st (start_ready st).2
| fc_complete h b : fake_call st (fake_complete h b st).2.

Definition reachable (st : FakeExecutor) : Prop := rtc fake_call fake_init st.

Lemma keeps_snd {A} (m : stm FakeExecutor A) st : keeps fake_wf m -> fake_wf st -> fake_wf (m st).2.
Proof. intros Hk Hwf. eapply Hk; [exact Hwf|]. apply surjective_pairing. Qed.

Lemma fake_call_wf st st' : fake_wf st -> fake_call st st' -> fake_wf st'.
Proof.
  intros Hwf Hc. destruct Hc.
  - eapply fake_submit_wf; [exact Hwf|]. apply surjective_pairing.
  - by apply keeps_snd; [apply keeps_cancel|].
  - by apply keeps_snd; [apply keeps_control|].
  - by apply keeps_snd; [apply keeps_set_allocation|].
  - by apply keeps_snd; [apply keeps_start_ready|].
  - by apply keeps_snd; [apply keeps_complete|].
Qed.

Lemma reachable_wf st : reachable st -> fake_wf st.
Proof.
  apply (rtc_ind_r fake_wf); [apply fake_init_wf|]. intros; by eapply fake_call_wf.
Qed.

(** The laws, from the invariant. *)
Lemma fake_correlate_wf st e :
  fake_wf st ->
  fake_correlate e st = (Ok (match fx_native_by_execution st !! e with
                             | Some n => [mkExecutionHandle fake_name n e]
                             | None => []
                             end), st).
Proof.
  intros Hwf. unfold fake_correlate.
  destruct (fx_native_by_execution st !! e) as [n|] eqn:He; [|done].
  destruct (fw_execution st Hwf e n He) as (run & Hn & <-).
  destruct (fw_native st Hwf n run Hn) as (Hh & _ & _). rewrite Hn. simpl. by rewrite Hh.
Qed.

Lemma fake_submit_known st r n :
  fake_wf st -> fx_native_by_execution st !! er_execution_id r = Some n ->
  fake_submit r st = (Ok (mkExecutionHandle fake_name n (er_execution_id r)), st).
Proof.
  intros Hwf He. unfold fake_submit. rewrite He.
  destruct (fw_execution st Hwf _ n He) as (run & Hn & Hid).
  destruct (fw_native st Hwf n run Hn) as (Hh & _ & _). rewrite Hn. simpl. by rewrite Hh, Hid.
Qed.

Lemma fake_submit_Ok st r :
  fake_wf st -> exists n st', fake_submit r st =
    (Ok (mkExecutionHandle fake_name n (er_execution_id r)), st') /\
    fx_native_by_execution st' = <[er_execution_id r := n]> (fx_native_by_execution st).
Proof.
  intros Hwf. destruct (fx_native_by_execution st !! er_execution_id r) as [n|] eqn:He.
  - exists n, st. rewrite (fake_submit_known st r n) by done. by rewrite insert_id.
  - unfold fake_submit. rewrite He. do 2 eexists. split; [reflexivity|done].
Qed.

(** Calls that step a run leave the execution identities alone. *)
Lemma fake_quiet st st' :
  fake_wf st -> fake_wf st' -> fx_native_by_execution st' = fx_native_by_execution st ->
  quiet fake_wf st st'.
Proof.
  intros Hwf Hwf' E. split; [done|]. intros e. cbn [correlate fake_executor].
  by rewrite !fake_correlate_wf, E by done.
Qed.

Lemma found_identities {A} h (f : FakeRun -> stm FakeExecutor A) st r st' :
  (forall run st r st', f run st = (r, st') ->
     fx_native_by_execution st' = fx_native_by_execution st) ->
  (run ← fake_find h; f run) st = (r, st') ->
  fx_native_by_execution st' = fx_native_by_execution st.
Proof.
  intros Hf. unfold mbind, stm_bind. destruct (fake_find h st) as [[run|e] st1] eqn:E.
  - apply fake_find_Ok in E as [-> _]. apply Hf.
  - pose proof (fake_find_state h st) as Hs. rewrite E in Hs. simpl in Hs. subst st1.
    by intros [= _ <-].
Qed.

#[global] Instance fake_laws : ExecutorLaws FakeExecutor fake_wf.
Proof.
  split; simpl.
  - intros s e Hwf. rewrite fake_correlate_wf by done. by eexists.
  - intros s r h s' Hwf _ H. pose proof (fake_submit_wf _ _ _ _ Hwf H) as Hwf'.
    rewrite fake_correlate_wf by done.
    destruct (fake_submit_Ok s r Hwf) as (n & s1 & H1 & Hmap). rewrite H1 in H. simplify_eq.
    by rewrite Hmap, lookup_insert_eq.
  - intros s r h s' Hwf H. pose proof (fake_submit_wf _ _ _ _ Hwf H) as Hwf'.
    split; [done|]. intros e Hne. rewrite !fake_correlate_wf by done.
    destruct (fake_submit_Ok s r Hwf) as (n & s1 & H1 & Hmap). rewrite H1 in H. simplify_eq.
    simpl. by rewrite Hmap, lookup_insert_ne.
  - intros s h r s' Hwf H. apply fake_quiet; [done| |].
    + revert H. apply (keeps_found h (fun run => mret _)); [|done]. by intros run st r0 st' ? _ [= _ <-].
    + eapply (found_identities h (fun run => mret _)); [|exact H]. by intros run st r0 st' [= _ <-].
  - intros s h r s' Hwf H. apply fake_quiet; [done|by eapply keeps_cancel|].
    eapply found_identities; [|exact H]. intros run st r0 st'. simpl.
    destruct (terminal _); by intros [= _ <-].
  - intros s h a r s' Hwf H. apply fake_quiet; [done|by eapply keeps_control|].
    eapply found_identities; [|exact H]. intros run st r0 st'. simpl.
    destruct a, (exec_eqb _ _); by intros [= _ <-].
Qed.

(** A state past the start is only reached through a start. *)
Lemma history_started evs s :
  history evs = Some s -> s = RUNNING \/ s = COMPLETED \/ s = FAILED ->
  "started" ∈ map ev_kind evs.
Proof.
  revert s. induction evs as [|e evs IH] using rev_ind; intros s; [done|].
  unfold history. rewrite fold_left_app. simpl. fold (history evs). rewrite map_app, elem_of_app.
  intros Hn Hs. destruct (history evs) as [s0|] eqn:E; simpl in Hn.
  - destruct (String.eqb_spec (ev_kind e) "started") as [Hk|Hk].
    { right. simpl. rewrite Hk. left. }
    left. apply (IH s0 eq_refl).
    repeat match type of Hn with
    | (if String.eqb ?a ?b then _ else _) = _ => destruct (String.eqb a b)
    | (if exec_eqb ?a ?b then _ else _) = _ =>
        let Ha := fresh in destruct (exec_eqb a b) eqn:Ha; [apply exec_eqb_true in Ha|]
    | (if terminal ?a then _ else _) = _ => destruct (terminal a)
    end; simplify_eq; naive_solver.
  - destruct (String.eqb (ev_kind e) "submitted"); naive_solver.
Qed.

(** A call leaves the runs that have ended as they are. *)
Definition frozen (st st' : FakeExecutor) : Prop :=
  forall n run, fx_by_native st !! n = Some run -> terminal (fr_state run) = true ->
  exists run', fx_by_native st' !! n = Some run' /\ fr_state run' = fr_state run /\
               fr_events run' = fr_events run.

Lemma frozen_refl st : frozen st st.
Proof. intros n run Hn _. by exists run. Qed.

Lemma frozen_trans st1 st2 st3 : frozen st1 st2 -> frozen st2 st3 -> frozen st1 st3.
Proof.
  intros H12 H23 n run Hn Ht. destruct (H12 n run Hn Ht) as (r2 & Hn2 & Hs & He).
  destruct (H23 n r2 Hn2) as (r3 & Hn3 & Hs' & He'); [by rewrite Hs|].
  exists r3. split_and!; [done|congruence|congruence].
Qed.

Lemma frozen_store st n run run' ready :
  fx_by_native st !! n = Some run -> run_step ready run run' -> frozen st (store_run n run' st).
Proof.
  intros Hn Hs m r Hm Ht. simpl. destruct (decide (m = n)) as [->|Hne].
  - simplify_eq. exists run'. rewrite lookup_insert_eq. split; [done|]. by eapply run_step_terminal.
  - exists r. by rewrite lookup_insert_ne.
Qed.

Lemma frozen_found {A} h (f : FakeRun -> stm FakeExecutor A) st :
  (forall run, fx_by_native st !! eh_native_id h = Some run -> frozen st (f run st).2) ->
  frozen st ((run ← fake_find h; f run) st).2.
Proof.
  intros Hf. unfold mbind, stm_bind. destruct (fake_find h st) as [[run|e] st1] eqn:E.
  - apply fake_find_Ok in E as [-> Hn]. by apply Hf.
  - pose proof (fake_find_state h st) as Hs. rewrite E in Hs. simpl in *. subst. apply frozen_refl.
Qed.

Lemma fake_call_frozen st st' : fake_wf st -> fake_call st st' -> frozen st st'.
Proof.
  intros Hwf Hc. destruct Hc as [r|h|h a|h a| |h b].
  - intros n run Hn Ht. exists run. split; [|done]. unfold fake_submit.
    destruct (fx_native_by_execution st !! er_execution_id r) as [m|] eqn:E; [done|]. simpl.
    rewrite lookup_insert_ne; [done|]. intros <-.
    destruct (fw_native st Hwf _ _ Hn) as (_ & _ & k & Hk & Hk').
    apply (inj native_name (fx_counter st + 1) k) in Hk'. lia.
  - apply frozen_found. intros run Hn. destruct (terminal (fr_state run)) eqn:Ht; [apply frozen_refl|].
    eapply (frozen_store _ _ _ _ True); [done|]. constructor; [simpl; by rewrite Ht|done].
  - apply frozen_found. intros run Hn.
    destruct a; (destruct (exec_eqb (fr_state run) _) eqn:Ht; [|apply frozen_refl]);
      (eapply (frozen_store _ _ _ _ True); [done|]); (constructor; [simpl; by rewrite Ht|done]).
  - apply frozen_found. intros run Hn. eapply (frozen_store _ _ _ _ True); [done|]. constructor.
  - unfold start_ready. destruct (fold_left _ _ _) as [st1 acc1] eqn:E. simpl.
    assert (forall l st0 acc, frozen st st0 ->
      frozen st (fold_left (start_one (completed_ids st)) l (st0, acc)).1) as Hfold.
    { induction l as [|n l IH]; intros st0 acc H0; [done|]. cbn [fold_left].
      unfold start_one at 2. destruct (fx_by_native st0 !! n) as [run|] eqn:Hn; [|by apply IH].
      destruct (exec_eqb (fr_state run) QUEUED) eqn:Hq; [|by apply IH]. simpl.
      destruct (forallb _ _); [|by apply IH]. apply IH. eapply frozen_trans; [exact H0|].
      apply exec_eqb_true in Hq.
      eapply (frozen_store _ _ _ _ True); [done|]. constructor; [by rewrite Hq|done]. }
    specialize (Hfold (natives st) st [] (frozen_refl st)). by rewrite E in Hfold.
  - apply frozen_found. intros run Hn.
    destruct (exec_eqb (fr_state run) RUNNING) eqn:Ht; simpl; [|apply frozen_refl].
    eapply (frozen_store _ _ _ _ True); [done|].
    destruct b; (constructor; [simpl; by rewrite Ht|done]).
Qed.

(** What [start_ready] does to one run. *)
Definition startable (complete : list string) (run : FakeRun) : bool :=
  exec_eqb (fr_state run) QUEUED
  && forallb (fun d => str_in d complete) (er_dependencies (fr_request run)).

Definition start_run (complete : list string) (run : FakeRun) : FakeRun :=
  if startable complete run then emit (set_state run RUNNING) "started" [] else run.

Lemma start_one_lookup complete st acc n m :
  fx_by_native (start_one complete (st, acc) n).1 !! m
  = (if decide (m = n) then start_run complete else id) <$> fx_by_native st !! m.
Proof.
  unfold start_one, start_run, startable. destruct (decide (m = n)) as [->|Hne].
  - destruct (fx_by_native st !! n) as [run|] eqn:Hn; [|simpl; by rewrite Hn].
    destruct (exec_eqb (fr_state run) QUEUED) eqn:Hq; simpl; rewrite ?Hn; simpl; rewrite ?Hq;
      simpl; [|done].
    destruct (forallb _ _); simpl; by rewrite ?Hn, ?lookup_insert_eq.
  - destruct (fx_by_native st !! n) as [run|] eqn:Hn; simpl; [|by destruct (_ !! m)].
    destruct (exec_eqb (fr_state run) QUEUED); simpl; [|by destruct (_ !! m)].
    destruct (forallb _ _); simpl; [|by destruct (_ !! m)].
    rewrite lookup_insert_ne by done. by destruct (_ !! m).
Qed.

Lemma start_fold_lookup complete l st acc m :
  NoDup l ->
  fx_by_native (fold_left (start_one complete) l (st, acc)).1 !! m
  = (if decide (m ∈ l) then start_run complete else id) <$> fx_by_native st !! m.
Proof.
  intros Hl. revert st acc. induction Hl as [|n l Hn Hl IH]; intros st acc.
  - simpl. by destruct (_ !! m).
  - cbn [fold_left]. destruct (start_one complete (st, acc) n) as [st1 acc1] eqn:E. rewrite IH.
    pose proof (start_one_lookup complete st acc n m) as H1. rewrite E in H1. simpl in H1.
    rewrite H1, <- option_fmap_compose. destruct (decide (m = n)) as [->|Hne].
    + rewrite (decide_False (P := n ∈ l)), (decide_True (P := n ∈ n :: l)); [|left|done].
      by destruct (_ !! n).
    + destruct (decide (m ∈ l)) as [Hin|Hnin].
      * rewrite decide_True by (by right). by destruct (_ !! m).
      * rewrite decide_False by (by rewrite elem_of_cons; intros [?|?]). by destruct (_ !! m).
Qed.

Lemma start_ready_lookup st m :
  fx_by_native (start_ready st).2 !! m
  = start_run (completed_ids st) <$> fx_by_native st !! m.
Proof.
  assert (NoDup (natives st)) as Hnd.
  { unfold natives. apply NoDup_py_sorted. apply NoDup_fst_map_to_list. }
  pose proof (start_fold_lookup (completed_ids st) (natives st) st [] m Hnd) as H.
  unfold start_ready. destruct (fold_left _ _ _) as [st1 acc1]. simpl in *. rewrite H.
  destruct (fx_by_native st !! m) as [run|] eqn:E; [|done].
  rewrite decide_True; [done|]. unfold natives. rewrite elem_of_py_sorted, list_elem_of_fmap.
  exists (m, run). split; [done|]. by apply elem_of_map_to_list.
Qed.

Lemma filter_seq_drop (f : nat) (evs : list ExecutorEvent) (k : nat) :
  map ev_sequence evs = seq (S f) (length evs) ->
  List.filter (fun e => k <? ev_sequence e)%nat evs = drop (k - f) evs.
Proof.
  revert f. induction evs as [|e evs IH]; intros f; simpl; [by rewrite drop_nil|].
  intros [= He Hs]. rewrite He. destruct (Nat.ltb_spec k (S f)).
  - replace (k - f) with 0 by lia. rewrite drop_0. f_equal. rewrite (IH (S f)) by done.
    by replace (k - S f) with 0 by lia.
  - replace (k - f) with (S (k - S f)) by lia. simpl. by apply IH.
Qed.

(** ** Theorems *)

(** Submitting to the in-memory executor always succeeds and launches an
    execution once: afterwards its execution id finds exactly the returned
    handle, submitting the same id again - with whatever other fields -
    returns that handle and changes nothing, and no other execution is
    affected. *)
Theorem fake_submit_once st r :
  reachable st ->
  exists h st', fake_submit r st = (Ok h, st') /\
    eh_execution_id h = er_execution_id r /\
    fake_correlate (er_execution_id r) st' = (Ok [h], st') /\
    (forall r', er_execution_id r' = er_execution_id r -> fake_submit r' st' = (Ok h, st')) /\
    (forall e, e <> er_execution_id r -> (fake_correlate e st').1 = (fake_correlate e st).1).
Proof.
  intros Hwf%reachable_wf. destruct (fake_submit_Ok st r Hwf) as (n & st' & Hs & Hmap).
  pose proof (fake_submit_wf _ _ _ _ Hwf Hs) as Hwf'.
  eexists _, st'. split; [exact Hs|]. split; [done|].
  rewrite fake_correlate_wf, Hmap, lookup_insert_eq by done. split; [done|]. split.
  - intros r' Hr'. rewrite <- Hr'. apply fake_submit_known; [done|].
    by rewrite Hmap, Hr', lookup_insert_eq.
  - intros e He. rewrite !fake_correlate_wf, Hmap, lookup_insert_ne by done. done.
Qed.

(** In every reachable state of the in-memory executor the event log of a
    run is numbered 1, 2, ... and replays through the state machine of an
    execution to the run's state; a reader that has seen the first [k] events
    and asks for what follows gets exactly the rest, and after the run has ended no call
    changes its state or its log. *)
Theorem fake_log_replays st n run st' k :
  reachable st -> fx_by_native st !! n = Some run -> fake_call st st' ->
  history (fr_events run) = Some (fr_state run) /\
  map ev_sequence (fr_events run) = seq 1 (length (fr_events run)) /\
  fake_events (fr_handle run) (Some k) st = (Ok (drop k (fr_events run)), st) /\
  (terminal (fr_state run) = true ->
   exists run', fx_by_native st' !! n = Some run' /\ fr_state run' = fr_state run /\
                fr_events run' = fr_events run).
Proof.
  intros Hwf%reachable_wf Hn Hc. destruct (fw_log st Hwf n run Hn) as [Hh Hs].
  split; [done|]. split; [done|]. split.
  - unfold fake_events, mbind, stm_bind. rewrite (fake_find_handle st n run Hwf Hn). simpl.
    unfold mret, stm_ret. rewrite (filter_seq_drop 0) by done. by rewrite Nat.sub_0_r.
  - intros Ht. by eapply (fake_call_frozen st st' Hwf Hc).
Qed.

(** [start_ready] starts exactly the queued runs all of whose dependencies
    have completed, and touches no other run; so in every reachable state a
    run that is running or has finished ran after all its dependencies had
    completed. *)
Theorem start_ready_spec st :
  reachable st ->
  (forall n, fx_by_native (start_ready st).2 !! n
     = (fun run => if startable (completed_ids st) run
                   then emit (set_state run RUNNING) "started" [] else run)
         <$> fx_by_native st !! n) /\
  (forall d, d ∈ completed_ids st -> dep_completed st d) /\
  (forall n run, fx_by_native st !! n = Some run ->
     fr_state run = RUNNING \/ fr_state run = COMPLETED \/ fr_state run = FAILED ->
     deps_completed st run).
Proof.
  intros Hwf%reachable_wf. split; [|split].
  - intros n. apply start_ready_lookup.
  - intros d. by apply elem_of_completed_ids.
  - intros n run Hn Hs. apply (fw_deps st Hwf n run Hn). destruct (fw_log st Hwf n run Hn) as [Hh _].
    by apply (history_started _ _ Hh).
Qed.

(** ** Concrete runs *)

Definition demo_resources : ResourceRequest := mkResourceRequest 1 None "validation" None 60.

Definition demo_request (e : string) (deps : list string) : ExecutionRequest :=
  mkExecutionRequest e ["python"] "/w" [] "o" "e" demo_resources deps.

Definition demo_state : FakeExecutor :=
  (fake_submit (demo_request "b" ["a"]) (fake_submit (demo_request "a" []) fake_init).2).2.

Lemma demo_reachable : reachable demo_state.
Proof.
  eapply rtc_l; [apply (fc_submit _ (demo_request "a" []))|].
  eapply rtc_l; [apply (fc_submit _ (demo_request "b" ["a"]))|]. apply rtc_refl.
Defined.

Lemma fake_submit_once_witness :
  exists h st', fake_submit (demo_request "a" ["x"]) demo_state = (Ok h, st')
    /\ eh_native_id h = "fake-000001".
Proof.
  destruct (fake_submit_once demo_state (demo_request "a" ["x"]) demo_reachable)
    as (h & st' & Hs & _). exists h, st'. split; [exact Hs|]. clear -Hs.
  vm_compute in Hs. by injection Hs as <- _.
Defined.

Lemma fake_log_replays_witness :
  exists run, fx_by_native demo_state !! "fake-000001" = Some run
    /\ history (fr_events run) = Some (fr_state run).
Proof.
  destruct (fx_by_native demo_state !! "fake-000001") as [run|] eqn:E;
    [|exfalso; vm_compute in E; discriminate E].
  exists run. split; [reflexivity|].
  exact (proj1 (fake_log_replays demo_state "fake-000001" run _ 0 demo_reachable E
    (fc_start_ready demo_state))).
Defined.

Lemma start_ready_spec_witness :
  (fr_state <$> fx_by_native (start_ready demo_state).2 !! "fake-000001") = Some RUNNING /\
  (fr_state <$> fx_by_native (start_ready demo_state).2 !! "fake-000002") = Some QUEUED.
Proof.
  pose proof (proj1 (start_ready_spec demo_state demo_reachable)) as H.
  split; rewrite H; vm_compute; reflexivity.
Defined.

End Executor.
