(* ===== verification/Hardware.v ===== *)
(** Hardware identity and GPU placement: [src/tools/bigcherry/hardware/model.py],
    [inventory.py], [drift.py] and [runtime.py].

    The inventory catalogue keeps two documents per executor; here a document
    is the decoded JSON value, or absent when the file cannot be read or
    decoded (its text is [Json.dumps] up to white space). *)

From S2P Require Import Prelude Json JobModel Executor.
Import Json JobModel Executor.

Module Hardware.

Record DeviceRecord : Set := mkDevice {
  device_id : string;
  identity_source : string;
  dr_architecture : string;
  dr_model : string;
  vram_bytes : Z;
  pci_bdf : option string;
  render_node : option string;
  numa_node : option Z;
  driver_version : option string;
  launch_ordinal : option Z;
}.

#[global] Instance DeviceRecord_eq_dec : EqDecision DeviceRecord.
Proof. solve_decision. Defined.

Definition new_device (d : DeviceRecord) : res DeviceRecord :=
  _ ← ensure (truthy (device_id d) && truthy (dr_architecture d) && truthy (dr_model d))
        (ValueError "device_id, architecture and model are required");
  _ ← ensure (1 <=? vram_bytes d)%Z (ValueError "vram_bytes must be positive");
  Ok d.

Record HardwareInventory : Set := mkInventory {
  host_id : string;
  platform_family : string;
  devices : list DeviceRecord;
  peer_access : list (list string);
  platform_environment_hash : string;
  hardware_epoch : option string;
}.

#[global] Instance HardwareInventory_eq_dec : EqDecision HardwareInventory.
Proof. solve_decision. Defined.

Definition new_inventory (inv : HardwareInventory) : res HardwareInventory :=
  let ids := map device_id (devices inv) in
  _ ← ensure (length ids =? length (remove_dups ids))%nat (ValueError "device IDs must be unique");
  Ok inv.

Record SeriesGpuBinding : Set := mkBinding {
  sb_requirement : GpuRequirement;
  selected_device_ids : list string;
  hardware_cohort_hash : string;
  accepted_inventory_hash : string;
  reserve_all_of_arch : bool;
  scheduler_architecture : string;
  scheduler_count : Z;
}.

#[global] Instance SeriesGpuBinding_eq_dec : EqDecision SeriesGpuBinding.
Proof. solve_decision. Defined.

Definition HardwareBindingError (msg : string) : exn := Exn "HardwareBindingError" msg.
Definition IndexError : exn := Exn "IndexError" "tuple index out of range".

(** [dataclasses.asdict] *)
Definition device_to_dict (d : DeviceRecord) : json :=
  JObj [("device_id", JStr (device_id d)); ("identity_source", JStr (identity_source d));
        ("architecture", JStr (dr_architecture d)); ("model", JStr (dr_model d));
        ("vram_bytes", JInt (vram_bytes d)); ("pci_bdf", jopt JStr (pci_bdf d));
        ("render_node", jopt JStr (render_node d)); ("numa_node", jopt JInt (numa_node d));
        ("driver_version", jopt JStr (driver_version d));
        ("launch_ordinal", jopt JInt (launch_ordinal d))].

Definition inventory_fields (inv : HardwareInventory) : list (string * json) :=
  [("host_id", JStr (host_id inv)); ("platform_family", JStr (platform_family inv));
   ("devices", JArr (map device_to_dict (devices inv)));
   ("peer_access", JArr (map jstrs (peer_access inv)));
   ("platform_environment_hash", JStr (platform_environment_hash inv));
   ("hardware_epoch", jopt JStr (hardware_epoch inv))].

Definition inventory_to_dict (inv : HardwareInventory) : json := JObj (inventory_fields inv).

(** [value[key]] on a decoded value that should be an object. *)
Definition as_object (v : json) : res (list (string * json)) :=
  match v with
  | JObj o => Ok o
  | _ => Err (TypeError ("'" +:+ type_name v +:+ "' object is not a mapping"))
  end.

Definition device_from_mapping (v : json) : res DeviceRecord :=
  o ← as_object v;
  id ← item_str o "device_id";
  architecture ← item_str o "architecture";
  model ← item_str o "model";
  vram ← item_int o "vram_bytes";
  numa ← opt_int o "numa_node";
  ordinal ← opt_int o "launch_ordinal";
  new_device (mkDevice id (get_str o "identity_source" "fixture") architecture model vram
    (opt_str o "pci_bdf") (opt_str o "render_node") numa (opt_str o "driver_version") ordinal).

Definition inventory_from_mapping (o : list (string * json)) : res HardwareInventory :=
  host ← item_str o "host_id";
  platform ← item_str o "platform_family";
  items ← json_iter (get_or o "devices" (JArr []));
  devs ← mapR device_from_mapping items;
  edges ← json_iter (get_or o "peer_access" (JArr []));
  peers ← mapR (fun e => parts ← json_iter e; Ok (map jstr parts)) edges;
  new_inventory (mkInventory host platform devs peers
    (get_str o "platform_environment_hash" "") (opt_str o "hardware_epoch")).

Definition binding_from_mapping (o : list (string * json)) : res SeriesGpuBinding :=
  match jget o "requirement" with
  | Some (JObj req) =>
      architecture ← item_str req "architecture";
      count ← get_int req "count" 1;
      min_vram ← get_int req "min_vram_bytes" 0;
      ids ← get_strs req "exact_device_ids";
      requirement ← new_gpu (mkGpuRequirement architecture count min_vram
        (get_bool req "homogeneous_model" true) (opt_str req "model")
        (get_bool req "require_peer_access" false) ids);
      selected_v ← item o "selected_device_ids";
      selected ← json_iter selected_v;
      cohort ← item_str o "hardware_cohort_hash";
      inv_hash ← item_str o "accepted_inventory_hash";
      reserve ← item o "reserve_all_of_arch";
      arch ← item_str o "scheduler_architecture";
      n ← item_int o "scheduler_count";
      Ok (mkBinding requirement (map jstr selected) cohort inv_hash (jtruthy reserve) arch n)
  | _ => Err (ValueError "series GPU binding is missing requirement")
  end.

(** Tuples of strings, compared as Python compares them. *)
Definition tuple_leb : list string -> list string -> bool := list_leb String.leb.

Definition sorted_edge (e : list string) : list string := py_sorted String.leb e.

Section Hardware.
Context (blake2b : string -> string -> string).

Definition material_hash (inv : HardwareInventory) : string :=
  digest_of blake2b "bc-hardware-inv" (inventory_to_dict inv).

(** ** [drift.py] *)

Record DriftReport : Set := mkDrift {
  kind : string; material : bool; requires_new_cohort : bool; details : list string }.

Definition tagged (tag : string) (l : list string) : list string := map (String.append tag) l.

(** [dict[device_id]] of [{device.device_id: device for device in devices}] *)
Definition by_id (devs : list DeviceRecord) (id : string) : option DeviceRecord :=
  List.find (fun d => String.eqb (device_id d) id) (rev devs).

Definition show_opt_Z (o : option Z) : string :=
  match o with Some z => show_Z z | None => "None" end.

Definition same_identity (before after : DeviceRecord) : bool :=
  String.eqb (dr_architecture before) (dr_architecture after)
  && String.eqb (dr_model before) (dr_model after)
  && (vram_bytes before =? vram_bytes after)%Z
  && String.eqb (identity_source before) (identity_source after).

Definition same_locator (before after : DeviceRecord) : bool :=
  bool_decide (pci_bdf before = pci_bdf after)
  && bool_decide (render_node before = render_node after)
  && bool_decide (launch_ordinal before = launch_ordinal after).

(** The loop over the devices both inventories have: the first identity change
    ends it, otherwise topology and locator changes accumulate. *)
Fixpoint compare_devices (old new : list DeviceRecord) (ids : list string)
    (topology locator : bool) (details : list string) : string + (bool * bool * list string) :=
  match ids with
  | [] => inr (topology, locator, details)
  | id :: ids' =>
      match by_id old id, by_id new id with
      | Some before, Some after =>
          if negb (same_identity before after) then inl id
          else
            let numa := bool_decide (numa_node before = numa_node after) in
            let loc := same_locator before after in
            compare_devices old new ids' (topology || negb numa) (locator || negb loc)
              (details
               ++ (if numa then [] else
                     ["numa:" +:+ id +:+ ":" +:+ show_opt_Z (numa_node before) +:+ "->"
                        +:+ show_opt_Z (numa_node after)])
               ++ (if loc then [] else ["locator:" +:+ id]))
      | _, _ => compare_devices old new ids' topology locator details
      end
  end.

(** Equality of two sets of strings, or of tuples of strings. *)
Definition same_set {A} `{EqDecision A} (l k : list A) : bool :=
  forallb (fun x => bool_decide (x ∈ k)) l && forallb (fun x => bool_decide (x ∈ l)) k.

Definition classify_drift (accepted observed : HardwareInventory) : DriftReport :=
  if negb (String.eqb (host_id accepted) (host_id observed)) then
    mkDrift "host-change" true true [host_id accepted; host_id observed]
  else if negb (String.eqb (platform_environment_hash accepted)
                           (platform_environment_hash observed)) then
    mkDrift "environment-change" true true []
  else
    let old := map device_id (devices accepted) in
    let new := map device_id (devices observed) in
    let removed := sorted_set (List.filter (fun x => negb (str_in x new)) old) in
    let added := sorted_set (List.filter (fun x => negb (str_in x old)) new) in
    match removed, added with
    | _ :: _, _ :: _ =>
        mkDrift "device-replacement" true true (tagged "removed:" removed ++ tagged "added:" added)
    | _ :: _, [] => mkDrift "device-remove" true true (tagged "removed:" removed)
    | [], _ :: _ => mkDrift "device-add" true true (tagged "added:" added)
    | [], [] =>
        match compare_devices (devices accepted) (devices observed) (sorted_set old)
                false false [] with
        | inl id => mkDrift "device-identity-change" true true [id]
        | inr (topology, locator, details) =>
            let same_peers := same_set (map sorted_edge (peer_access accepted))
                                       (map sorted_edge (peer_access observed)) in
            let topology := topology || negb same_peers in
            let details := if same_peers then details else details ++ ["peer-access"] in
            if topology then mkDrift "topology-change" true true details
            else if locator || negb (String.eqb (material_hash accepted) (material_hash observed))
            then mkDrift "locator-only" true false details
            else mkDrift "same" false false []
        end
    end.

(** ** [inventory.py]: the catalogue *)

(** The documents of one executor. *)
Record ExecutorFiles : Set := mkFiles { accepted_doc : option json; observed_doc : option json }.

Definition files_of (root : gmap string ExecutorFiles) (executor_id : string) : ExecutorFiles :=
  default (mkFiles None None) (root !! executor_id).

(** [Path(executor_id).parts] of a POSIX path: the components between slashes,
    single dots and empty components dropped, a leading slash kept. *)
Definition path_parts (s : string) : list string :=
  List.filter (fun p => truthy p && negb (String.eqb p ".")) (split_on "/"%char s).

Definition check_executor_id (executor_id : string) : res unit :=
  if blank executor_id || existsb (fun p => str_in p ["."; ".."]) (path_parts executor_id)
  then Err (ValueError "invalid executor_id") else Ok tt.

Definition inventory_doc (inv : HardwareInventory) : json :=
  JObj (inventory_fields inv ++ [("material_hash", JStr (material_hash inv))]).

Definition load_inventory (doc : option json) (label : string) : res HardwareInventory :=
  match doc with
  | None => Err (HardwareBindingError (label +:+ " hardware inventory unavailable"))
  | Some (JObj value) =>
      inv ← inventory_from_mapping (jremove value "material_hash");
      match jget value "material_hash" with
      | None | Some JNull => Ok inv
      | Some (JStr h) =>
          if String.eqb h (material_hash inv) then Ok inv
          else Err (HardwareBindingError (label +:+ " hardware inventory material_hash mismatch"))
      | Some _ => Err (HardwareBindingError (label +:+ " hardware inventory material_hash mismatch"))
      end
  | Some _ => Err (HardwareBindingError (label +:+ " hardware inventory must be an object"))
  end.

Definition Catalog := stm (gmap string ExecutorFiles).

Definition read_files (executor_id : string) : Catalog ExecutorFiles :=
  _ ← lift (check_executor_id executor_id); gets (fun root => files_of root executor_id).

Definition load (executor_id : string) : Catalog HardwareInventory :=
  f ← read_files executor_id; lift (load_inventory (accepted_doc f) "accepted").

Definition load_observed (executor_id : string) : Catalog HardwareInventory :=
  f ← read_files executor_id; lift (load_inventory (observed_doc f) "observed").

Definition record_observed (executor_id : string) (inv : HardwareInventory) : Catalog unit :=
  f ← read_files executor_id;
  if String.eqb (py_strip (host_id inv)) "" then
    raise (HardwareBindingError "observed inventory host_id is empty")
  else modify (fun root =>
    <[executor_id := mkFiles (accepted_doc f) (Some (inventory_doc inv))]> root).

Definition drift (executor_id : string) : Catalog DriftReport :=
  a ← load executor_id; o ← load_observed executor_id; mret (classify_drift a o).

Definition accept_observed (executor_id expected_material_hash : string)
    (allow_material_change : bool) : Catalog HardwareInventory :=
  observed ← load_observed executor_id;
  if negb (String.eqb (material_hash observed) expected_material_hash) then
    raise (HardwareBindingError
      "observed inventory changed since review; expected hash does not match")
  else
    f ← read_files executor_id;
    _ ← (if bool_decide (accepted_doc f <> None) && negb allow_material_change then
           accepted ← load executor_id;
           let report := classify_drift accepted observed in
           if material report then
             raise (HardwareBindingError ("material hardware drift " +:+ py_repr (kind report)
                      +:+ " requires explicit allow_material_change"))
           else mret tt
         else mret tt);
    _ ← modify (fun root =>
          <[executor_id := mkFiles (Some (inventory_doc observed)) (observed_doc f)]> root);
    mret observed.

(** ** [inventory.py]: binding *)

(** Pairs [(ids[i], ids[j])] with [i < j], in order. *)
Fixpoint pairs_of (ids : list string) : list (string * string) :=
  match ids with
  | [] => []
  | lhs :: rest => map (pair lhs) rest ++ pairs_of rest
  end.

Definition peer_ok (inv : HardwareInventory) (ids : list string) : bool :=
  if (length ids <=? 1)%nat then true
  else
    let allowed := map sorted_edge (peer_access inv) in
    forallb (fun p => bool_decide (sorted_edge [p.1; p.2] ∈ allowed)) (pairs_of ids).

(** [itertools.combinations(l, k)] *)
Fixpoint combinations {A} (k : nat) (l : list A) : list (list A) :=
  match k with
  | O => [[]]
  | S k' =>
      match l with
      | [] => []
      | x :: l' => map (cons x) (combinations k' l') ++ combinations k l'
      end
  end.

(** [groups.setdefault(model, []).append(id)] *)
Fixpoint group_add (groups : list (string * list string)) (model id : string) :
    list (string * list string) :=
  match groups with
  | [] => [(model, [id])]
  | (m, ids) :: groups' =>
      if String.eqb m model then (m, ids ++ [id]) :: groups'
      else (m, ids) :: group_add groups' model id
  end.

(** [min] of a non-empty list of tuples: the first of the least ones. *)
Fixpoint min_tuple (best : list string) (l : list (list string)) : list string :=
  match l with
  | [] => best
  | x :: l' => min_tuple (if tuple_leb best x then best else x) l'
  end.

(** [edge[0] in selected and edge[1] in selected] *)
Definition edge_selected (selected : list string) (edge : list string) : res bool :=
  match edge with
  | [] => Err IndexError
  | a :: rest =>
      if str_in a selected then
        match rest with [] => Err IndexError | b :: _ => Ok (str_in b selected) end
      else Ok false
  end.

Fixpoint filterR {A} (f : A -> res bool) (l : list A) : res (list A) :=
  match l with
  | [] => Ok []
  | a :: l' => b ← f a; r ← filterR f l'; Ok (if b : bool then a :: r else r)
  end.

Definition by_device_id : DeviceRecord -> DeviceRecord -> bool := on_key device_id String.leb.

(** The devices that satisfy the requirement's architecture, memory and model. *)
Definition eligible (req : GpuRequirement) (d : DeviceRecord) : bool :=
  String.eqb (dr_architecture d) (gr_architecture req)
  && (gr_min_vram_bytes req <=? vram_bytes d)%Z.

Definition candidates (req : GpuRequirement) (inv : HardwareInventory) : list DeviceRecord :=
  let sorted := py_sorted by_device_id (List.filter (eligible req) (devices inv)) in
  match gr_model req with
  | Some m => List.filter (fun d => String.eqb (dr_model d) m) sorted
  | None => sorted
  end.

Definition model_groups (cands : list DeviceRecord) : list (string * list string) :=
  fold_left (fun groups d => group_add groups (dr_model d) (device_id d)) cands [].

(** The device IDs the count is taken from, when none were named. *)
Definition candidate_ids (req : GpuRequirement) (cands : list DeviceRecord) : res (list string) :=
  if gr_homogeneous_model req then
    let viable := map (fun g => (g.1, py_sorted String.leb g.2))
      (List.filter (fun g => (gr_count req <=? Z.of_nat (length g.2))%Z) (model_groups cands)) in
    if bool_decide (gr_model req = None) && (1 <? length viable)%nat then
      Err (HardwareBindingError
        "GPU request is ambiguous across multiple same-architecture models; specify model or exact IDs")
    else
      match viable with
      | [] => Err (HardwareBindingError "no homogeneous GPU cohort satisfies request")
      | g :: _ => Ok g.2
      end
  else Ok (map device_id cands).

Definition select (req : GpuRequirement) (inv : HardwareInventory) : res (list string) :=
  let cands := candidates req inv in
  if bool_decide (gr_exact_device_ids req <> []) then
    let missing := List.filter (fun id => negb (str_in id (map device_id cands)))
                     (gr_exact_device_ids req) in
    if bool_decide (missing <> []) then
      Err (HardwareBindingError ("exact GPU IDs unavailable/ineligible: " +:+ py_repr_tuple missing))
    else Ok (py_sorted String.leb (gr_exact_device_ids req))
  else
    ids ← candidate_ids req cands;
    let count := Z.to_nat (gr_count req) in
    if gr_require_peer_access req then
      match List.filter (peer_ok inv) (combinations count ids) with
      | [] => Err (HardwareBindingError "no peer-capable GPU cohort satisfies request")
      | v :: valid => Ok (min_tuple v valid)
      end
    else if (Z.of_nat (length ids) <? gr_count req)%Z then
      Err (HardwareBindingError "not enough GPUs satisfy request")
    else Ok (take count ids).

Definition cohort_device (d : DeviceRecord) : json :=
  JObj [("device_id", JStr (device_id d)); ("architecture", JStr (dr_architecture d));
        ("model", JStr (dr_model d)); ("vram_bytes", JInt (vram_bytes d))].

Definition cohort_material (inv : HardwareInventory) (selected : list string)
    (peer_edges : list (list string)) : json :=
  let records := py_sorted by_device_id
    (List.filter (fun d => str_in (device_id d) selected) (devices inv)) in
  JObj [("host_id", JStr (host_id inv)); ("platform_family", JStr (platform_family inv));
        ("platform_environment_hash", JStr (platform_environment_hash inv));
        ("devices", JArr (map cohort_device records));
        ("peer_edges", JArr (map jstrs (py_sorted tuple_leb peer_edges)))].

(** The device IDs of an architecture. *)
Definition pool (inv : HardwareInventory) (architecture : string) : list string :=
  map device_id (List.filter (fun d => String.eqb (dr_architecture d) architecture) (devices inv)).

Definition bind_gpu_requirement (req : GpuRequirement) (inv : HardwareInventory) :
    res SeriesGpuBinding :=
  selected ← select req inv;
  if gr_require_peer_access req && negb (peer_ok inv selected) then
    Err (HardwareBindingError "selected exact GPU cohort is not peer-capable")
  else
    edges ← filterR (edge_selected selected) (peer_access inv);
    let all_arch := pool inv (gr_architecture req) in
    let reserve_all := negb (same_set selected all_arch) in
    Ok (mkBinding req selected
          (digest_of blake2b "bc-hw-cohort" (cohort_material inv selected edges))
          (material_hash inv) reserve_all (gr_architecture req)
          (if reserve_all then Z.of_nat (length all_arch) else gr_count req)).

Definition verify_series_allocation (binding : SeriesGpuBinding) (allocation : Allocation)
    (inv : HardwareInventory) : res (list string) :=
  if negb (String.eqb (material_hash inv) (accepted_inventory_hash binding)) then
    Err (HardwareBindingError "accepted hardware inventory changed after series binding")
  else
    let stable := py_sorted String.leb (al_stable_gpu_ids allocation) in
    if bool_decide (stable = []) then
      Err (HardwareBindingError "executor allocation has no attested stable GPU identities")
    else
      let selected := py_sorted String.leb (selected_device_ids binding) in
      let missing := List.filter (fun id => negb (str_in id stable)) selected in
      if bool_decide (missing <> []) then
        Err (HardwareBindingError ("allocation does not contain frozen series GPU IDs: "
               +:+ py_repr_tuple missing))
      else
        current ← bind_gpu_requirement (sb_requirement binding) inv;
        if negb (bool_decide (selected_device_ids current = selected_device_ids binding)) then
          Err (HardwareBindingError
            "current capability resolution no longer matches frozen series cohort")
        else if negb (String.eqb (hardware_cohort_hash current) (hardware_cohort_hash binding)) then
          Err (HardwareBindingError "hardware cohort/topology drifted")
        else
          let extras := List.filter (fun id => negb (str_in id selected)) stable in
          if bool_decide (extras <> []) && negb (reserve_all_of_arch binding) then
            Err (HardwareBindingError ("unexpected extra stable GPUs in allocation: "
                   +:+ py_repr_tuple extras))
          else if reserve_all_of_arch binding
               && negb (bool_decide (stable = py_sorted String.leb
                                        (pool inv (scheduler_architecture binding)))) then
            Err (HardwareBindingError
              "safe over-allocation must contain the complete accepted architecture pool")
          else Ok selected.

(** ** [runtime.py] *)

Definition tokens_of (raw : string) : list string :=
  List.filter truthy (map py_strip (split_on ","%char raw)).

(** [by_ordinal.get(token)]: the last device with that launch ordinal. *)
Definition by_ordinal (devs : list DeviceRecord) (token : string) : option DeviceRecord :=
  List.find (fun d => match launch_ordinal d with
                      | Some z => String.eqb (show_Z z) token | None => false end) (rev devs).

Definition stable_token (environment_key : string) (devs : list DeviceRecord) (token : string) :
    res string :=
  match by_id devs token with
  | Some _ => Ok token
  | None =>
      match by_ordinal devs token with
      | Some d => Ok (device_id d)
      | None => Err (HardwareBindingError ("cannot map " +:+ environment_key +:+ " token "
                  +:+ py_repr token +:+ " to accepted stable identity"))
      end
  end.

Definition allocation_from_visible_tokens (raw : string) (inv : HardwareInventory)
    (environment_key : string) : res Allocation :=
  let tokens := tokens_of raw in
  if bool_decide (tokens = []) then Err (HardwareBindingError (environment_key +:+ " is empty"))
  else
    stable ← mapR (stable_token environment_key (devices inv)) tokens;
    if negb (length (remove_dups stable) =? length stable)%nat then
      Err (HardwareBindingError "runtime visibility maps multiple tokens to one stable GPU")
    else Ok (mkAllocation tokens [(environment_key, raw)] stable).

(** [tuple.index] *)
Fixpoint index_of (x : string) (l : list string) : option nat :=
  match l with
  | [] => None
  | y :: l' => if String.eqb x y then Some 0 else S <$> index_of x l'
  end.

Definition selected_local_positions (binding : SeriesGpuBinding) (allocation : Allocation) :
    res (list nat) :=
  if bool_decide (al_stable_gpu_ids allocation = []) then
    Err (HardwareBindingError "stable allocation identities are required")
  else
    positions ← mapR (fun id => of_option (HardwareBindingError ("frozen GPU " +:+ py_repr id
        +:+ " is not present in runtime allocation")) (index_of id (al_stable_gpu_ids allocation)))
      (selected_device_ids binding);
    if negb (length (remove_dups positions) =? length positions)%nat then
      Err (HardwareBindingError "duplicate allocation-local GPU position")
    else Ok positions.

Definition selected_launch_ordinals (binding : SeriesGpuBinding) (inv : HardwareInventory) :
    res (list Z) :=
  ordinals ← mapR (fun id =>
      d ← of_option (HardwareBindingError ("frozen GPU " +:+ py_repr id
            +:+ " is no longer accepted")) (by_id (devices inv) id);
      of_option (HardwareBindingError ("accepted GPU " +:+ py_repr id
            +:+ " has no launch_ordinal for local execution")) (launch_ordinal d))
    (selected_device_ids binding);
  if negb (length (remove_dups ordinals) =? length ordinals)%nat then
    Err (HardwareBindingError "accepted launch ordinals are not unique")
  else Ok ordinals.

(** ** Lemmas: selection *)

Definition inventory_ok (inv : HardwareInventory) : Prop := NoDup (map device_id (devices inv)).

Lemma new_inventory_ok inv inv' : new_inventory inv = Ok inv' -> inventory_ok inv' /\ inv' = inv.
Proof.
  unfold new_inventory, inventory_ok. intros H. inv_ok. split; [|done].
  apply Nat.eqb_eq in H0. by apply length_remove_dups_NoDup.
Qed.

(** The device satisfies every field of the requirement about one device. *)
Definition meets (req : GpuRequirement) (d : DeviceRecord) : Prop :=
  dr_architecture d = gr_architecture req /\ (gr_min_vram_bytes req <= vram_bytes d)%Z /\
  (forall m, gr_model req = Some m -> dr_model d = m).

Lemma elem_of_candidates req inv d :
  d ∈ candidates req inv <-> d ∈ devices inv /\ meets req d.
Proof.
  unfold candidates, meets. destruct (gr_model req) as [m|];
    rewrite ?elem_of_filterb, elem_of_py_sorted, elem_of_filterb; unfold eligible;
    rewrite andb_true_iff, String.eqb_eq, Z.leb_le, ?String.eqb_eq; naive_solver.
Qed.

Lemma candidates_sorted req inv :
  StronglySorted (leb_rel String.leb) (map device_id (candidates req inv)).
Proof.
  apply StronglySorted_map. unfold candidates.
  assert (forall l, StronglySorted (leb_rel by_device_id) (py_sorted by_device_id l)) as Hs.
  { intros l. apply py_sorted_StronglySorted, _. }
  destruct (gr_model req); [|apply Hs]. eapply sublist_StronglySorted; [apply filterb_sublist|apply Hs].
Qed.

Lemma candidates_NoDup req inv :
  inventory_ok inv -> NoDup (map device_id (candidates req inv)).
Proof.
  intros Hok. assert (NoDup (map device_id (py_sorted by_device_id
    (List.filter (eligible req) (devices inv))))) as Hn.
  { rewrite py_sorted_perm. eapply sublist_NoDup; [exact Hok|]. apply sublist_map, filterb_sublist. }
  unfold candidates. destruct (gr_model req); [|done].
  eapply sublist_NoDup; [exact Hn|]. apply sublist_map, filterb_sublist.
Qed.

Lemma group_add_lookup groups m id k :
  jget (group_add groups m id) k
  = if String.eqb m k then Some (default [] (jget groups k) ++ [id]) else jget groups k.
Proof.
  induction groups as [|[m' ids] groups IH]; simpl.
  - rewrite (String.eqb_sym k m). by destruct (String.eqb m k).
  - destruct (String.eqb_spec m' m) as [->|Hne]; simpl.
    + rewrite (String.eqb_sym k m). destruct (String.eqb_spec m k); done.
    + rewrite IH. destruct (String.eqb_spec k m') as [->|Hk]; [|done].
      destruct (String.eqb_spec m m'); [congruence|done].
Qed.

Lemma elem_of_group_add groups m id x :
  x ∈ map fst (group_add groups m id) -> x ∈ map fst groups \/ x = m.
Proof.
  induction groups as [|[m' ids] groups IH]; simpl.
  - rewrite list_elem_of_singleton. by right.
  - destruct (String.eqb m' m); simpl; rewrite !elem_of_cons; naive_solver.
Qed.

Lemma group_add_keys groups m id :
  NoDup (map fst groups) -> NoDup (map fst (group_add groups m id)).
Proof.
  induction groups as [|[m' ids] groups IH]; simpl; intros Hn.
  - apply NoDup_singleton.
  - apply NoDup_cons in Hn as [Hx Hn]. destruct (String.eqb_spec m' m) as [->|Hne]; simpl.
    + by constructor.
    + constructor; [|by apply IH]. by intros [?|?]%elem_of_group_add.
Qed.

(** The groups hold each model's device IDs, in the order of the candidates. *)
Lemma model_groups_spec cands :
  NoDup (map fst (model_groups cands)) /\
  forall m, jget (model_groups cands) m
    = match map device_id (List.filter (fun d => String.eqb (dr_model d) m) cands) with
      | [] => None | ids => Some ids end.
Proof.
  unfold model_groups. induction cands as [|d cands IH] using rev_ind; [by split; [constructor|]|].
  rewrite fold_left_app. cbn [fold_left]. destruct IH as [Hn IH]. split; [by apply group_add_keys|].
  intros m. rewrite group_add_lookup, List.filter_app, map_app, !IH. simpl.
  destruct (String.eqb_spec (dr_model d) m) as [<-|Hne]; simpl.
  - by destruct (map device_id _).
  - by rewrite app_nil_r.
Qed.

Lemma elem_of_model_groups cands m ids :
  (m, ids) ∈ model_groups cands ->
  ids = map device_id (List.filter (fun d => String.eqb (dr_model d) m) cands).
Proof.
  destruct (model_groups_spec cands) as [Hn Hg]. intros Hin.
  apply (jget_Some _ _ _ Hn) in Hin. rewrite Hg in Hin.
  by destruct (map device_id _); simplify_eq.
Qed.

(** The IDs the count is taken from: in order, of candidates, and of one model
    when the requirement asks for that. *)
Lemma candidate_ids_Ok req inv ids :
  candidate_ids req (candidates req inv) = Ok ids ->
  ids `sublist_of` map device_id (candidates req inv) /\
  (gr_homogeneous_model req = true -> exists m, forall id, id ∈ ids ->
     exists d, d ∈ candidates req inv /\ device_id d = id /\ dr_model d = m).
Proof.
  unfold candidate_ids. destruct (gr_homogeneous_model req); [|intros [= <-]; by split].
  destruct (_ && _); [done|].
  destruct (map _ (List.filter _ (model_groups _))) as [|[m ids'] viable] eqn:E; [done|].
  intros [= <-]. assert ((m, ids') ∈ (m, ids') :: viable) as Hin by left.
  rewrite <- E in Hin. apply list_elem_of_fmap in Hin as ([m1 ids1] & [= -> ->] & Hin).
  apply elem_of_filterb in Hin as [Hin%elem_of_model_groups _]. simpl. rewrite Hin.
  assert (map device_id (List.filter (fun d => String.eqb (dr_model d) m1) (candidates req inv))
    `sublist_of` map device_id (candidates req inv)) as Hsub
    by apply sublist_map, filterb_sublist.
  rewrite py_sorted_id by (apply _ || (eapply sublist_StronglySorted; [exact Hsub|];
    apply candidates_sorted)).
  split; [exact Hsub|]. intros _. exists m1. intros id (d & -> & Hd)%list_elem_of_fmap.
  apply elem_of_filterb in Hd as [Hd Hm]. apply String.eqb_eq in Hm. eauto.
Qed.

Lemma combinations_spec {A} k (l c : list A) :
  c ∈ combinations k l -> length c = k /\ c `sublist_of` l.
Proof.
  revert k c. induction l as [|x l IH]; intros [|k] c; simpl.
  - intros ->%list_elem_of_singleton. by split; [|constructor].
  - by intros ?%elem_of_nil.
  - intros ->%list_elem_of_singleton. split; [done|]. apply sublist_nil_l.
  - rewrite elem_of_app, list_elem_of_fmap. intros [(c' & -> & Hc)|Hc].
    + destruct (IH _ _ Hc) as [<- ?]. by split; [|constructor].
    + destruct (IH _ _ Hc) as [<- ?]. by split; [|constructor].
Qed.

Lemma min_tuple_elem best l : min_tuple best l ∈ best :: l.
Proof.
  revert best. induction l as [|x l IH]; intros best; simpl; [left|].
  specialize (IH (if tuple_leb best x then best else x)).
  apply elem_of_cons in IH as [->|IH]; [|by right; right].
  destruct (tuple_leb best x); [left | right; left].
Qed.

(** Every two of the devices can reach each other. *)
Definition peers (inv : HardwareInventory) (ids : list string) : Prop :=
  forall a b, (a, b) ∈ pairs_of ids -> sorted_edge [a; b] ∈ map sorted_edge (peer_access inv).

Lemma peer_ok_peers inv ids : peer_ok inv ids = true -> peers inv ids.
Proof.
  unfold peer_ok, peers. destruct (Nat.leb_spec (length ids) 1).
  - intros _ a b. destruct ids as [|x [|y ids]]; simpl in *; try lia; by intros ?%elem_of_nil.
  - rewrite forallb_true. intros Hall a b Hab. specialize (Hall (a, b) Hab). by bools.
Qed.

Lemma select_Ok req inv sel :
  inventory_ok inv -> new_gpu req = Ok req -> select req inv = Ok sel ->
  Z.of_nat (length sel) = gr_count req /\
  StronglySorted (leb_rel String.leb) sel /\
  (forall id, id ∈ sel -> exists d, d ∈ devices inv /\ device_id d = id /\ meets req d) /\
  (gr_exact_device_ids req <> [] -> sel ≡ₚ gr_exact_device_ids req) /\
  (gr_exact_device_ids req = [] -> NoDup sel /\
     (gr_require_peer_access req = true -> peer_ok inv sel = true) /\
     (gr_homogeneous_model req = true -> exists m, forall id, id ∈ sel ->
        exists d, d ∈ devices inv /\ device_id d = id /\ dr_model d = m)).
Proof.
  intros Hok Hg. unfold new_gpu in Hg. inv_ok. bools. unfold select.
  destruct (bool_decide_reflect (gr_exact_device_ids req <> [])) as [He|He].
  - match goal with |- (if bool_decide ?P then _ else _) = _ -> _ =>
      destruct (bool_decide_reflect P) as [Hm|Hm]; [done|] end.
    apply dec_stable in Hm. intros [= <-]. rewrite filterb_nil in Hm. split_and!; try done.
    + rewrite length_py_sorted. apply orb_true_iff in H2 as [H2|H2]; bools; done.
    + apply py_sorted_StronglySorted, _.
    + intros id Hid. rewrite elem_of_py_sorted in Hid. specialize (Hm id Hid). bools.
      apply str_in_true, list_elem_of_fmap in Hm as (d & -> & [? ?]%elem_of_candidates). eauto.
    + intros _. apply py_sorted_perm.
  - apply dec_stable in He. intros Hs. inv_ok.
    destruct (candidate_ids_Ok _ _ _ H4) as [Hsub Hhom].
    assert (sel `sublist_of` x /\ Z.of_nat (length sel) = gr_count req /\
      (gr_require_peer_access req = true -> peer_ok inv sel = true)) as (Hsel & Hlen & Hpeer).
    { destruct (gr_require_peer_access req).
      - destruct (List.filter _ _) as [|v valid] eqn:E; [done|]. injection Hs as <-.
        pose proof (min_tuple_elem v valid) as Hmin. rewrite <- E in Hmin.
        apply elem_of_filterb in Hmin as [Hc Hp]. apply combinations_spec in Hc as [-> ?].
        split_and!; [done | lia | done].
      - destruct (Z.ltb_spec (Z.of_nat (length x)) (gr_count req)); [done|].
        injection Hs as <-. split_and!; [apply sublist_take | rewrite length_take; lia | done]. }
    assert (sel `sublist_of` map device_id (candidates req inv)) as Hsel' by (by etrans).
    split_and!; [done | | | done |].
    + eapply sublist_StronglySorted; [exact Hsel'|]. apply candidates_sorted.
    + intros id Hid. apply (elem_of_sublist _ _ _ Hid) in Hsel'.
      apply list_elem_of_fmap in Hsel' as (d & -> & [? ?]%elem_of_candidates). eauto.
    + intros _. split_and!; [|done|].
      * eapply sublist_NoDup; [by apply candidates_NoDup|exact Hsel'].
      * intros Hh. destruct (Hhom Hh) as [m Hm]. exists m. intros id Hid.
        destruct (Hm id) as (d & Hd & ? & ?); [by eapply elem_of_sublist|].
        exists d. split_and!; [by apply elem_of_candidates in Hd as [? _]|done|done].
Qed.

Lemma same_set_true {A} `{EqDecision A} (l k : list A) :
  same_set l k = true <-> forall x, x ∈ l <-> x ∈ k.
Proof.
  unfold same_set. rewrite andb_true_iff, !forallb_true. setoid_rewrite bool_decide_eq_true.
  naive_solver.
Qed.

Lemma bind_Ok_inv req inv b :
  bind_gpu_requirement req inv = Ok b ->
  exists edges, select req inv = Ok (selected_device_ids b) /\
  filterR (edge_selected (selected_device_ids b)) (peer_access inv) = Ok edges /\
  (gr_require_peer_access req = true -> peer_ok inv (selected_device_ids b) = true) /\
  sb_requirement b = req /\ scheduler_architecture b = gr_architecture req /\
  accepted_inventory_hash b = material_hash inv /\
  hardware_cohort_hash b = digest_of blake2b "bc-hw-cohort"
    (cohort_material inv (selected_device_ids b) edges) /\
  reserve_all_of_arch b = negb (same_set (selected_device_ids b) (pool inv (gr_architecture req))) /\
  scheduler_count b = (if reserve_all_of_arch b
                       then Z.of_nat (length (pool inv (gr_architecture req))) else gr_count req).
Proof.
  unfold bind_gpu_requirement. intros H. inv_ok.
  destruct (gr_require_peer_access req && negb (peer_ok inv x)) eqn:E; [done|]. inv_ok.
  exists x0. simpl. split_and!; try done. intros Hp. rewrite Hp in E. simpl in E. by bools.
Qed.

(** ** Lemmas: what a binding depends on *)

(** The fields of a device that placement reads. *)
Definition core (d : DeviceRecord) : DeviceRecord :=
  mkDevice (device_id d) "" (dr_architecture d) (dr_model d) (vram_bytes d) None None None None None.

Lemma candidates_core req inv inv' :
  inventory_ok inv -> map core (devices inv) ≡ₚ map core (devices inv') ->
  map core (candidates req inv) = map core (candidates req inv').
Proof.
  intros Hok Hp.
  assert (forall i, map core (py_sorted by_device_id (List.filter (eligible req) (devices i)))
    = py_sorted by_device_id (List.filter (eligible req) (map core (devices i)))) as Hs.
  { intros i. rewrite (filterb_map (eligible req) core).
    rewrite <- (py_sorted_map by_device_id by_device_id core) by done. done. }
  assert (map core (py_sorted by_device_id (List.filter (eligible req) (devices inv)))
    = map core (py_sorted by_device_id (List.filter (eligible req) (devices inv')))) as Heq.
  { rewrite !Hs. apply (py_sorted_key_perm device_id String.leb).
    - eapply sublist_NoDup; [|apply sublist_map, filterb_sublist].
      rewrite map_map. exact Hok.
    - by rewrite Hp. }
  unfold candidates. destruct (gr_model req) as [m|]; [|done].
  assert (forall l, map core (List.filter (fun d => String.eqb (dr_model d) m) l)
    = List.filter (fun d => String.eqb (dr_model d) m) (map core l)) as Hf.
  { intros l. by rewrite filterb_map. }
  by rewrite !Hf, Heq.
Qed.

Lemma map_id_core l : map device_id l = map device_id (map core l).
Proof. by rewrite map_map. Qed.

Lemma model_groups_core l : model_groups l = model_groups (map core l).
Proof.
  unfold model_groups. generalize ([] : list (string * list string)).
  induction l as [|d l IH]; intros g; simpl; [done|]. by rewrite IH.
Qed.

Lemma candidate_ids_core req l : candidate_ids req l = candidate_ids req (map core l).
Proof. unfold candidate_ids. by rewrite <- model_groups_core, <- map_id_core. Qed.

Definition same_peers (inv inv' : HardwareInventory) : Prop :=
  forall e, e ∈ map sorted_edge (peer_access inv) <-> e ∈ map sorted_edge (peer_access inv').

Lemma peer_ok_ext inv inv' ids : same_peers inv inv' -> peer_ok inv ids = peer_ok inv' ids.
Proof.
  intros Hp. unfold peer_ok. destruct (length ids <=? 1)%nat; [done|].
  apply eq_true_iff_eq. rewrite !forallb_true. setoid_rewrite bool_decide_eq_true.
  split; intros H x Hx; apply Hp; by apply H.
Qed.

(** The selection depends only on the placement fields of the devices, as a
    set, and on which pairs are peers. *)
Lemma select_ext req inv inv' :
  inventory_ok inv -> map core (devices inv) ≡ₚ map core (devices inv') ->
  same_peers inv inv' -> select req inv = select req inv'.
Proof.
  intros Hok Hp Hpeers. pose proof (candidates_core req inv inv' Hok Hp) as Hc.
  unfold select. rewrite (map_id_core (candidates req inv)), Hc, <- map_id_core.
  rewrite (candidate_ids_core req (candidates req inv)), Hc, <- candidate_ids_core.
  destruct (bool_decide (gr_exact_device_ids req <> [])); [done|].
  destruct (candidate_ids req (candidates req inv')) as [ids|]; [|done]. cbn [mbind result_bind].
  destruct (gr_require_peer_access req); [|done].
  rewrite (filterb_ext (peer_ok inv) (peer_ok inv')); [done|].
  intros x _. by apply peer_ok_ext.
Qed.

(** ** Lemmas: drift *)

Lemma by_id_Some devs id d :
  NoDup (map device_id devs) -> (by_id devs id = Some d <-> d ∈ devs /\ device_id d = id).
Proof.
  intros Hnd. unfold by_id. split.
  - intros [Hin Heq]%find_some. apply String.eqb_eq in Heq.
    by apply in_rev, list_elem_of_In in Hin.
  - intros [Hin <-]. destruct (List.find _ (rev devs)) as [d'|] eqn:E.
    + apply find_some in E as [Hin' Heq]. apply String.eqb_eq in Heq. f_equal.
      apply in_rev, list_elem_of_In in Hin'.
      apply list_elem_of_lookup in Hin as [i Hi]. apply list_elem_of_lookup in Hin' as [j Hj].
      assert (i = j) as ->; [|by simplify_eq].
      eapply (NoDup_lookup _ i j (device_id d) Hnd); rewrite list_lookup_fmap;
        [by rewrite Hi | by rewrite Hj; simpl; f_equal].
    + apply (find_none _ _) with (x := d) in E; [by rewrite String.eqb_refl in E|].
      by apply (proj1 (in_rev _ _)), list_elem_of_In.
Qed.

Lemma compare_devices_inr old new ids topology locator ds t l ds' :
  compare_devices old new ids topology locator ds = inr (t, l, ds') ->
  (t = false -> topology = false) /\ (l = false -> locator = false) /\
  forall id b a, id ∈ ids -> by_id old id = Some b -> by_id new id = Some a ->
    same_identity b a = true /\ (t = false -> numa_node b = numa_node a) /\
    (l = false -> same_locator b a = true).
Proof.
  revert topology locator ds. induction ids as [|id ids IH]; intros topology locator ds; simpl.
  - intros [= -> -> _]. split_and!; try done. intros ? ? ? ?%elem_of_nil. done.
  - destruct (by_id old id) as [b|] eqn:Eb, (by_id new id) as [a|] eqn:Ea.
    1: destruct (same_identity b a) eqn:Es; simpl; [|done].
    all: intros H; destruct (IH _ _ _ H) as (Ht & Hl & Hall).
    2-4: split_and!; try done; intros id' b' a' [->|Hin]%elem_of_cons Hb Ha; [congruence|by apply (Hall id')].
    split_and!.
    + intros E. specialize (Ht E). by bools.
    + intros E. specialize (Hl E). by bools.
    + intros id' b' a' [->|Hin]%elem_of_cons Hb Ha; [|by apply (Hall id')].
      simplify_eq. split_and!; [done| |].
      * intros E. specialize (Ht E). by bools.
      * intros E. specialize (Hl E). by bools.
Qed.

Lemma compare_devices_refl devs ids topology locator ds :
  compare_devices devs devs ids topology locator ds = inr (topology, locator, ds).
Proof.
  revert topology locator ds. induction ids as [|id ids IH]; intros topology locator ds; simpl; [done|].
  destruct (by_id devs id) as [d|]; [|done].
  assert (same_identity d d = true) as ->.
  { unfold same_identity. by rewrite !String.eqb_refl, Z.eqb_refl. }
  assert (same_locator d d = true) as ->.
  { unfold same_locator. by rewrite !bool_decide_eq_true_2. }
  rewrite (bool_decide_eq_true_2 (numa_node d = numa_node d)) by done. simpl.
  by rewrite !orb_false_r, !app_nil_r, IH.
Qed.

(** What [classify_drift] found equal when it does not ask for a new cohort. *)
Lemma drift_same_cohort a o :
  requires_new_cohort (classify_drift a o) = false ->
  host_id a = host_id o /\ platform_environment_hash a = platform_environment_hash o /\
  (forall id, id ∈ map device_id (devices a) <-> id ∈ map device_id (devices o)) /\
  (forall id b c, by_id (devices a) id = Some b -> by_id (devices o) id = Some c ->
     id ∈ map device_id (devices a) -> same_identity b c = true /\ numa_node b = numa_node c) /\
  same_peers a o /\
  (material (classify_drift a o) = false -> material_hash a = material_hash o).
Proof.
  unfold classify_drift.
  destruct (String.eqb_spec (host_id a) (host_id o)) as [Hh|]; [simpl|done].
  destruct (String.eqb_spec (platform_environment_hash a) (platform_environment_hash o)) as [He|];
    [simpl|done].
  destruct (sorted_set (List.filter _ (map device_id (devices a)))) as [|r1 rs] eqn:Er;
    [|by repeat case_match].
  destruct (sorted_set (List.filter _ (map device_id (devices o)))) as [|a1 as1] eqn:Eadd; [|done].
  destruct (compare_devices _ _ _ _ _ _) as [id|[[t l] ds]] eqn:Ec; [done|].
  destruct (same_set _ _) eqn:Ep; cbn [negb]; [rewrite orb_false_r|rewrite orb_true_r; done].
  destruct t; [done|]. simpl. intros Hreq.
  apply compare_devices_inr in Ec as (_ & _ & Hall).
  split_and!; [done | done | | | |].
  - assert (forall l k x, sorted_set (List.filter (fun y => negb (str_in y k)) l) = [] ->
      x ∈ l -> x ∈ k) as Hsub.
    { intros l' k x E Hx. destruct (str_in x k) eqn:Hk; [by apply str_in_true|].
      assert (x ∈ sorted_set (List.filter (fun y => negb (str_in y k)) l')) as Hin.
      { apply elem_of_sorted_set, elem_of_filterb. by rewrite Hk. }
      rewrite E in Hin. by apply elem_of_nil in Hin. }
    intros id. split; [exact (Hsub _ _ id Er) | exact (Hsub _ _ id Eadd)].
  - intros id b c Hb Hc Hid. destruct (Hall id b c) as (? & Hn & _); [by apply elem_of_sorted_set|done|done|].
    split; [done|by apply Hn].
  - intros e. by apply same_set_true.
  - destruct (l || negb (String.eqb (material_hash a) (material_hash o))) eqn:E; [done|].
    intros _. apply orb_false_iff in E as [_ E]. by bools.
Qed.

Lemma drift_core_perm a o :
  inventory_ok a -> inventory_ok o -> requires_new_cohort (classify_drift a o) = false ->
  map core (devices a) ≡ₚ map core (devices o).
Proof.
  intros Ha Ho H. destruct (drift_same_cohort a o H) as (_ & _ & Hids & Hdev & _).
  assert (forall i, inventory_ok i -> NoDup (map core (devices i))) as Hnd.
  { intros i Hi. unfold inventory_ok in Hi. rewrite map_id_core in Hi. by eapply NoDup_fmap_1. }
  assert (forall d e, d ∈ devices a -> e ∈ devices o -> device_id d = device_id e -> core d = core e)
    as Hcore.
  { intros d e Hd He Hde. destruct (Hdev (device_id d) d e) as [Hs _].
    - by apply by_id_Some.
    - by apply by_id_Some.
    - by apply list_elem_of_fmap_2.
    - unfold same_identity in Hs. bools. unfold core. congruence. }
  apply NoDup_Permutation; [by apply Hnd | by apply Hnd |].
  intros x. rewrite !list_elem_of_fmap. split.
  - intros (d & -> & Hd). pose proof (list_elem_of_fmap_2 device_id _ _ Hd) as Hin.
    apply Hids in Hin. apply list_elem_of_fmap in Hin as (e & He & Hin).
    exists e. split; [by apply Hcore|done].
  - intros (e & -> & He). pose proof (list_elem_of_fmap_2 device_id _ _ He) as Hin.
    apply Hids in Hin. apply list_elem_of_fmap in Hin as (d & Hd & Hin).
    exists d. split; [symmetry; by apply Hcore|done].
Qed.

Lemma index_of_lookup x l i : index_of x l = Some i -> l !! i = Some x.
Proof.
  revert i. induction l as [|y l IH]; intros i; simpl; [done|].
  destruct (String.eqb_spec x y) as [->|]; [by intros [= <-]|].
  destruct (index_of x l); [|done]. intros [= <-]. simpl. by apply IH.
Qed.

(** ** Theorems *)

(** C19 A binding is sound: it selects exactly [count] IDs in sorted order, every one
    a device of the inventory that meets the requirement's architecture, memory and model; named
    devices are selected as named; otherwise the IDs are distinct and of one model when
    homogeneity is required; every two are peers when peer access is; and
    unless the whole pool is reserved, the selection is the pool. *)
Theorem bind_sound req inv b :
  new_gpu req = Ok req -> new_inventory inv = Ok inv -> bind_gpu_requirement req inv = Ok b ->
  let sel := selected_device_ids b in
  Z.of_nat (length sel) = gr_count req /\
  StronglySorted (leb_rel String.leb) sel /\
  (forall id, id ∈ sel -> exists d, d ∈ devices inv /\ device_id d = id /\ meets req d) /\
  (gr_exact_device_ids req <> [] -> sel ≡ₚ gr_exact_device_ids req) /\
  (gr_exact_device_ids req = [] -> NoDup sel /\
     (gr_homogeneous_model req = true -> exists m, forall id, id ∈ sel ->
        exists d, d ∈ devices inv /\ device_id d = id /\ dr_model d = m)) /\
  (gr_require_peer_access req = true -> peers inv sel) /\
  (if reserve_all_of_arch b
   then scheduler_count b = Z.of_nat (length (pool inv (gr_architecture req)))
   else scheduler_count b = gr_count req
        /\ forall id, id ∈ sel <-> id ∈ pool inv (gr_architecture req)).
Proof.
  intros Hg Hi%new_inventory_ok Hb. destruct Hi as [Hok _].
  apply bind_Ok_inv in Hb as (edges & Hs & _ & Hp & _ & _ & _ & _ & Hr & Hc).
  destruct (select_Ok req inv _ Hok Hg Hs) as (? & ? & ? & ? & Hne).
  simpl. split_and!; try done.
  - intros E. destruct (Hne E) as (? & _ & ?). done.
  - intros E. by apply peer_ok_peers, Hp.
  - rewrite Hr in *. destruct (same_set _ _) eqn:E; simpl in *; [|done].
    split; [done|]. by apply same_set_true.
Qed.

(** The choice of GPUs depends on the accepted devices as a set and on
    which of them are peers, not on the order they were discovered in: two
    inventories with the same devices and peer pairs give the same selection
    or the same error for every requirement. *)
Theorem select_order_independent req inv inv' :
  new_inventory inv = Ok inv -> devices inv ≡ₚ devices inv' ->
  (forall e, e ∈ map sorted_edge (peer_access inv) <-> e ∈ map sorted_edge (peer_access inv')) ->
  select req inv = select req inv'.
Proof.
  intros [Hok _]%new_inventory_ok Hp Hpeers. apply select_ext; [done| |done]. by rewrite Hp.
Qed.

(** Drift classification fails closed: a report that is not material means
    equal inventory hashes; a report that keeps the cohort means the same host,
    environment and NUMA placement, and that every GPU requirement selects the
    same devices (or fails alike) in the observed inventory as in the accepted
    one; and an unchanged inventory is reported as the same. *)
Theorem drift_fail_closed a o :
  new_inventory a = Ok a -> new_inventory o = Ok o ->
  (material (classify_drift a o) = false -> material_hash a = material_hash o) /\
  (requires_new_cohort (classify_drift a o) = false ->
     host_id a = host_id o /\ platform_environment_hash a = platform_environment_hash o /\
     (forall d e, d ∈ devices a -> e ∈ devices o -> device_id d = device_id e ->
        numa_node d = numa_node e) /\
     forall req, select req a = select req o) /\
  (a = o -> classify_drift a o = mkDrift "same" false false []).
Proof.
  intros [Ha _]%new_inventory_ok [Ho _]%new_inventory_ok. split_and!.
  - intros H. assert (requires_new_cohort (classify_drift a o) = false) as Hr.
    { revert H. unfold classify_drift.
      repeat match goal with
      | |- context [if ?b then _ else _] => destruct b; try done
      | |- context [match ?x with [] => _ | _ :: _ => _ end] => destruct x; try done
      | |- context [match ?x with inl _ => _ | inr _ => _ end] => destruct x as [|[[] ?]]; try done
      end. }
    by apply (drift_same_cohort a o Hr).
  - intros Hr. destruct (drift_same_cohort a o Hr) as (Hh & He & _ & Hdev & Hp & _).
    split_and!; [done|done| |].
    + intros d e Hd He' Hde. apply (Hdev (device_id d) d e); [by apply by_id_Some | by apply by_id_Some
        | by apply list_elem_of_fmap_2].
    + intros req. apply select_ext; [done | by apply drift_core_perm | done].
  - intros <-. unfold classify_drift. rewrite !String.eqb_refl. simpl.
    assert (sorted_set (List.filter (fun x => negb (str_in x (map device_id (devices a))))
      (map device_id (devices a))) = []) as ->.
    { rewrite (proj2 (filterb_nil _ _)); [done|]. intros x Hx. apply negb_false_iff.
      by apply str_in_true. }
    rewrite compare_devices_refl.
    assert (same_set (map sorted_edge (peer_access a)) (map sorted_edge (peer_access a)) = true) as ->.
    { by apply same_set_true. }
  done.
Qed.

(** Against the inventory it was frozen from, a binding accepts exactly
    the allocations that attest its whole cohort and nothing else of other
    kinds: either the selected devices alone, or - when the selection is part
    of a larger pool - the complete pool of the architecture. *)
Theorem verify_allocation_spec req inv b al sel :
  bind_gpu_requirement req inv = Ok b ->
  verify_series_allocation b al inv = Ok sel <->
  sel = py_sorted String.leb (selected_device_ids b) /\
  al_stable_gpu_ids al <> [] /\
  (forall id, id ∈ selected_device_ids b -> id ∈ al_stable_gpu_ids al) /\
  (if reserve_all_of_arch b then al_stable_gpu_ids al ≡ₚ pool inv (gr_architecture req)
   else forall id, id ∈ al_stable_gpu_ids al -> id ∈ selected_device_ids b).
Proof.
  intros Hb. pose proof Hb as (edges & _ & _ & _ & Hreq & Harch & Hinv & _)%bind_Ok_inv.
  unfold verify_series_allocation. rewrite Hinv, String.eqb_refl, Hreq, Hb, Harch. simpl.
  rewrite (bool_decide_eq_true_2 (selected_device_ids b = selected_device_ids b)) by done.
  simpl. rewrite String.eqb_refl. simpl.
  set (stable := py_sorted String.leb (al_stable_gpu_ids al)).
  set (selected := py_sorted String.leb (selected_device_ids b)).
  assert (forall id, id ∈ stable <-> id ∈ al_stable_gpu_ids al) as Hst by (intros; apply elem_of_py_sorted).
  assert (forall id, id ∈ selected <-> id ∈ selected_device_ids b) as Hse by (intros; apply elem_of_py_sorted).
  assert (stable = [] <-> al_stable_gpu_ids al = []) as Hnil.
  { unfold stable. split; [|by intros ->]. intros E. apply Permutation_nil_r.
    rewrite <- E. by rewrite py_sorted_perm. }
  assert (forall l k : list string, List.filter (fun id => negb (str_in id k)) l = [] <->
    forall id, id ∈ l -> id ∈ k) as Hsub.
  { intros l k. rewrite filterb_nil. setoid_rewrite negb_false_iff. by setoid_rewrite str_in_true. }
  destruct (bool_decide_reflect (stable = [])) as [E|Hne].
  { split; [done|]. intros (_ & Hn & _). by apply Hnil in E. }
  destruct (bool_decide_reflect (List.filter (fun id => negb (str_in id stable)) selected <> []))
    as [Hm|Hm].
  { split; [done|]. intros (_ & _ & Hall & _). destruct Hm. apply Hsub. intros id.
    rewrite Hse, Hst. apply Hall. }
  apply dec_stable in Hm. rewrite Hsub in Hm.
  assert (forall id, id ∈ selected_device_ids b -> id ∈ al_stable_gpu_ids al) as Hall.
  { intros id. rewrite <- Hse, <- Hst. apply Hm. }
  destruct (reserve_all_of_arch b); simpl.
  - rewrite andb_false_r.
    destruct (bool_decide_reflect (stable = py_sorted String.leb (pool inv (gr_architecture req))))
      as [E|Hneq]; simpl.
    + split; [|by intros (-> & _)]. intros [= <-]. split_and!; [done | by rewrite <- Hnil | done |].
      rewrite <- (py_sorted_perm String.leb (al_stable_gpu_ids al)). fold stable. rewrite E.
      apply py_sorted_perm.
    + split; [done|]. intros (_ & _ & _ & Hp). destruct Hneq. by apply py_sorted_proper; try apply _.
  - rewrite andb_true_r.
    destruct (bool_decide_reflect (List.filter (fun id => negb (str_in id selected)) stable <> []))
      as [Hx|Hx].
    + split; [done|]. intros (_ & _ & _ & Hp). destruct Hx. apply Hsub. intros id.
      rewrite Hse, Hst. apply Hp.
    + apply dec_stable in Hx. rewrite Hsub in Hx. split; [|by intros (-> & _)].
      intros [= <-]. split_and!; [done | by rewrite <- Hnil | done |].
      intros id. rewrite <- Hse, <- Hst. apply Hx.
Qed.

(** The launch positions computed for a frozen cohort are those of its
    devices in the visible-device list: position by position the runtime token
    is the device's own ID, or a launch ordinal of a device the inventory gives that ID; no two devices share a position. *)
Theorem local_positions_correct raw inv key b al ps :
  allocation_from_visible_tokens raw inv key = Ok al ->
  selected_local_positions b al = Ok ps ->
  NoDup (al_stable_gpu_ids al) /\ NoDup ps /\
  Forall2 (fun id p => al_stable_gpu_ids al !! p = Some id /\
    exists token, tokens_of raw !! p = Some token /\
      exists d, d ∈ devices inv /\ device_id d = id /\
        (token = id \/ exists z, launch_ordinal d = Some z /\ token = show_Z z))
    (selected_device_ids b) ps.
Proof.
  unfold allocation_from_visible_tokens, selected_local_positions. intros Ha.
  destruct (bool_decide (tokens_of raw = [])); [done|]. inv_ok.
  destruct (length (remove_dups x) =? length x)%nat eqn:Ex; simpl in Ha; [|done]. inv_ok. simpl.
  destruct (bool_decide (x = [])); [done|]. intros Hp. inv_ok.
  destruct (length (remove_dups x0) =? length x0)%nat eqn:Ep; simpl in Hp; [|done]. inv_ok.
  apply Nat.eqb_eq, length_remove_dups_NoDup in Ex, Ep. split_and!; [done|done|].
  apply mapR_Ok in H, H0. eapply Forall2_impl; [exact H0|]. intros id p Hid. simpl in Hid.
  apply of_option_Ok, index_of_lookup in Hid. split; [done|].
  destruct (Forall2_lookup_r _ _ _ _ _ H Hid) as (token & Htok & Hst). exists token.
  split; [done|]. unfold stable_token in Hst.
  destruct (by_id (devices inv) token) as [d|] eqn:Ed.
  - injection Hst as <-. unfold by_id in Ed. apply find_some in Ed as [Hin Heq].
    apply String.eqb_eq in Heq. exists d. split_and!; [|done|by left].
    by apply in_rev, list_elem_of_In in Hin.
  - destruct (by_ordinal (devices inv) token) as [d|] eqn:Eo; [|done]. injection Hst as <-.
    unfold by_ordinal in Eo. apply find_some in Eo as [Hin Heq].
    apply in_rev, list_elem_of_In in Hin.
    exists d. split_and!; [done|done|]. right. destruct (launch_ordinal d) as [z|]; [|done].
    apply String.eqb_eq in Heq. eauto.
Qed.

End Hardware.

(** ** Concrete values *)

Definition demo_device (id model : string) (ordinal : Z) : DeviceRecord :=
  mkDevice id "uuid" "gfx1100" model 24 None None None None (Some ordinal).

Definition demo_inventory : HardwareInventory :=
  mkInventory "box" "linux" [demo_device "c" "xtx" 2; demo_device "a" "xtx" 0; demo_device "b" "xt" 1]
    [["c"; "a"]] "env" None.

Definition demo_permuted : HardwareInventory :=
  mkInventory "box" "linux" [demo_device "a" "xtx" 0; demo_device "b" "xt" 1; demo_device "c" "xtx" 2]
    [["a"; "c"]] "env" None.

Definition demo_requirement : GpuRequirement :=
  mkGpuRequirement "gfx1100" 2 16 true None true [].

Definition demo_hash (person text : string) : string := person.

Definition demo_binding : SeriesGpuBinding :=
  mkBinding demo_requirement ["a"; "c"] "bc-hw-cohort" "bc-hardware-inv" true "gfx1100" 3.

Example demo_bind : bind_gpu_requirement demo_hash demo_requirement demo_inventory = Ok demo_binding.
Proof. vm_compute. reflexivity. Qed.

(** Naming one device twice satisfies the length check of the requirement and
    selects one device for a count of two. *)
Example exact_ids_may_repeat :
  selected_device_ids <$> bind_gpu_requirement demo_hash
    (mkGpuRequirement "gfx1100" 2 0 true None false ["a"; "a"]) demo_inventory = Ok ["a"; "a"].
Proof. vm_compute. reflexivity. Qed.

Lemma bind_sound_witness :
  new_gpu demo_requirement = Ok demo_requirement /\
  Z.of_nat (length (selected_device_ids demo_binding)) = 2%Z /\
  peers demo_inventory ["a"; "c"].
Proof.
  split; [reflexivity|].
  pose proof (bind_sound demo_hash demo_requirement demo_inventory demo_binding eq_refl eq_refl
    demo_bind) as H. simpl in H. destruct H as (H1 & _ & _ & _ & _ & H2 & _).
  split; [exact H1 | exact (H2 eq_refl)].
Defined.

Lemma select_order_independent_witness :
  select demo_requirement demo_inventory = select demo_requirement demo_permuted /\
  select demo_requirement demo_permuted = Ok ["a"; "c"].
Proof.
  split; [|vm_compute; reflexivity]. apply select_order_independent.
  - reflexivity.
  - apply (Permutation_cons_append [demo_device "a" "xtx" 0; demo_device "b" "xt" 1]).
  - intros e. vm_compute. tauto.
Defined.

Lemma drift_fail_closed_witness :
  kind (classify_drift demo_hash demo_inventory demo_inventory) = "same" /\
  classify_drift demo_hash demo_inventory demo_inventory = mkDrift "same" false false [].
Proof.
  split; [vm_compute; reflexivity|].
  exact (proj2 (proj2 (drift_fail_closed demo_hash demo_inventory demo_inventory eq_refl eq_refl))
    eq_refl).
Defined.

Lemma verify_allocation_spec_witness :
  verify_series_allocation demo_hash demo_binding (mkAllocation [] [] ["c"; "b"; "a"]) demo_inventory
  = Ok ["a"; "c"] /\
  ["c"; "b"; "a"] ≡ₚ pool demo_inventory "gfx1100".
Proof.
  split; [vm_compute; reflexivity|].
  exact (proj2 (proj2 (proj2 (proj1 (verify_allocation_spec demo_hash demo_requirement
    demo_inventory demo_binding (mkAllocation [] [] ["c"; "b"; "a"]) ["a"; "c"] demo_bind)
    ltac:(vm_compute; reflexivity))))).
Defined.

Lemma local_positions_correct_witness :
  exists al, allocation_from_visible_tokens "2, a" demo_inventory "ROCR_VISIBLE_DEVICES" = Ok al /\
    selected_local_positions demo_binding al = Ok [1; 0] /\ NoDup [1; 0].
Proof.
  eexists. split; [vm_compute; reflexivity|]. split; [vm_compute; reflexivity|].
  exact (proj1 (proj2 (local_positions_correct "2, a" demo_inventory "ROCR_VISIBLE_DEVICES"
    demo_binding _ [1; 0] eq_refl eq_refl))).
Defined.

End Hardware.
