(* ===== verification/Operations.v ===== *)
(** Durable campaign operations: [src/tools/bigcherry/jobs/operations.py] and
    [rehydrate.py].

    A stage directory is the state: its three records ([operation.json],
    [running.json], [result.json]) as decoded documents, and its other files by
    their path inside the directory.  Links are not modelled: resolving a path
    removes its dots.  The clock and the process number are arguments. *)

From S2P Require Import Prelude Json JobModel Executor.
Import Json JobModel Executor.

Module Operations.

Definition OperationError (msg : string) : exn := Exn "OperationError" msg.

Definition result_states : list string := ["succeeded"; "failed"; "interrupted"].

(** [_jsonable] of a value that is JSON already: the keys in order. *)
Definition jsonable (v : json) : json := sort_keys v.

(** [_token] *)
Definition token (value field : string) : res string :=
  let text := py_strip value in
  if negb (truthy text) || str_has "/"%char text || str_has backslash text
     || existsb (String.eqb text) ["."; ".."]
  then Err (ValueError (field +:+ " must be a non-empty path-safe token")) else Ok text.

Record OperationSpec : Type := mkOperationSpec {
  op_id : string;
  op_kind : string;
  command_semantics : list (string * json);
  environment_semantics : list (string * string);
  op_resources : ResourceRequest;
  dependencies : list string;
  declared_outputs : list string;
}.

Definition distinct (l : list string) : bool := (length l =? length (remove_dups l))%nat.

(** [OperationSpec.__post_init__] *)
Definition new_operation_spec (s : OperationSpec) : res OperationSpec :=
  id ← token (op_id s) "operation_id";
  kind ← token (op_kind s) "kind";
  _ ← ensure (distinct (dependencies s) && negb (str_in id (dependencies s)))
        (ValueError "operation dependencies must be unique and cannot include self");
  _ ← mapR (fun d => token d "dependency") (dependencies s);
  _ ← ensure (distinct (declared_outputs s)) (ValueError "declared_outputs must be unique");
  _ ← mapR (fun o => token o "declared output") (declared_outputs s);
  _ ← ensure (distinct (map fst (environment_semantics s)))
        (ValueError "environment semantic keys must be unique");
  Ok (mkOperationSpec id kind (command_semantics s) (environment_semantics s) (op_resources s)
        (dependencies s) (declared_outputs s)).

(** [dataclasses.asdict] of the resources. *)
Definition scheduler_gpu_to_dict (g : SchedulerGpuRequest) : json :=
  JObj [("architecture", JStr (sg_architecture g)); ("reserved_count", JInt (sg_reserved_count g))].

Definition resources_to_dict (r : ResourceRequest) : json :=
  JObj [("cpu_slots", JInt (rr_cpu_slots r)); ("gpu", jopt scheduler_gpu_to_dict (rr_gpu r));
        ("activity_class", JStr (rr_activity_class r));
        ("memory_bytes", jopt JInt (rr_memory_bytes r));
        ("timeout_seconds", JInt (rr_timeout_seconds r))].

Definition spec_fields (s : OperationSpec) : list (string * json) :=
  [("schema", JStr "bigcherry.operation-spec.v1"); ("operation_id", JStr (op_id s));
   ("kind", JStr (op_kind s)); ("command_semantics", jsonable (JObj (command_semantics s)));
   ("environment_semantics", jpairs (py_sorted pair_leb (environment_semantics s)));
   ("resources", jsonable (resources_to_dict (op_resources s)));
   ("dependencies", jstrs (dependencies s)); ("declared_outputs", jstrs (declared_outputs s))].

(** [OperationSpec.document] *)
Definition spec_document (s : OperationSpec) : json := JObj (spec_fields s).

Record ArtifactBinding : Set := mkArtifact {
  artifact_id : string;
  relative_path : string;
  descriptor_hash : string;
  content_hash : string;
  ab_bytes : Z;
}.

#[global] Instance ArtifactBinding_eq_dec : EqDecision ArtifactBinding.
Proof. solve_decision. Defined.

(** [Path(p).parts] without the leading slash, and whether there was one. *)
Definition parts (p : string) : list string :=
  List.filter (fun c => truthy c && negb (String.eqb c ".")) (split_on "/"%char p).
Definition is_absolute (p : string) : bool := startswith "/" p.

Definition hex_digest (v : string) : bool :=
  (String.length v =? 64)%nat
  && forallb (fun c => match hex_val c with Some _ => true | None => false end)
       (String.list_ascii_of_string v).

(** [ArtifactBinding.__post_init__] *)
Definition new_artifact (a : ArtifactBinding) : res ArtifactBinding :=
  _ ← token (artifact_id a) "artifact_id";
  _ ← ensure (negb (is_absolute (relative_path a) || bool_decide (parts (relative_path a) = [])
                    || str_in ".." (parts (relative_path a))))
        (ValueError "artifact relative_path must remain inside the stage root");
  _ ← ensure (hex_digest (descriptor_hash a))
        (ValueError "descriptor_hash must be a SHA-256 hex digest");
  _ ← ensure (hex_digest (content_hash a))
        (ValueError "content_hash must be a SHA-256 hex digest");
  _ ← ensure (0 <=? ab_bytes a)%Z (ValueError "artifact byte count cannot be negative");
  Ok a.

(** [ArtifactBinding.document] *)
Definition artifact_document (a : ArtifactBinding) : json :=
  JObj [("artifact_id", JStr (artifact_id a)); ("relative_path", JStr (relative_path a));
        ("descriptor_hash", JStr (descriptor_hash a)); ("content_hash", JStr (content_hash a));
        ("bytes", JInt (ab_bytes a))].

Record OperationResult : Set := mkResult {
  or_spec_hash : string;
  or_execution_hash : string;
  or_outputs : list ArtifactBinding;
  or_state : string;
  or_returncode : option Z;
  or_finished_ns : Z;
}.

#[global] Instance OperationResult_eq_dec : EqDecision OperationResult.
Proof. solve_decision. Defined.

(** [OperationResult.__post_init__] *)
Definition new_result (r : OperationResult) : res OperationResult :=
  _ ← ensure (str_in (or_state r) result_states)
        (ValueError ("unknown operation result state: " +:+ or_state r));
  _ ← ensure (negb (String.eqb (or_state r) "succeeded" && negb (bool_decide (or_returncode r = Some 0%Z))))
        (ValueError "succeeded operation must have returncode 0");
  _ ← ensure (negb (negb (String.eqb (or_state r) "succeeded") && bool_decide (or_returncode r = Some 0%Z)))
        (ValueError "non-succeeded operation cannot have returncode 0");
  _ ← ensure (distinct (map artifact_id (or_outputs r)))
        (ValueError "operation outputs must have unique artifact IDs");
  Ok r.

(** [OperationResult.document] *)
Definition result_fields (r : OperationResult) : list (string * json) :=
  [("schema", JStr "bigcherry.operation-result.v1");
   ("operation_spec_hash", JStr (or_spec_hash r)); ("execution_hash", JStr (or_execution_hash r));
   ("outputs", JArr (map artifact_document (or_outputs r))); ("state", JStr (or_state r));
   ("returncode", jopt JInt (or_returncode r)); ("finished_ns", JInt (or_finished_ns r))].

(** The stage directory. *)
Record Stage : Type := mkStage {
  operation_json : option json;
  running_json : option json;
  result_json : option json;
  stage_files : gmap (list string) string;
}.

Definition empty_stage : Stage := mkStage None None None ∅.

(** Resolving a path component by component; [stack] is the path so far, last
    component first. *)
Fixpoint resolve_parts (stack comps : list string) : list string :=
  match comps with
  | [] => rev stack
  | ".." :: comps' => resolve_parts (tail stack) comps'
  | c :: comps' => resolve_parts (c :: stack) comps'
  end.

(** The rest of a path below a directory. *)
Fixpoint relative_to (root path : list string) : option (list string) :=
  match root, path with
  | [], _ => Some path
  | r :: root', p :: path' => if String.eqb r p then relative_to root' path' else None
  | _ :: _, [] => None
  end.

(** [(root / p).resolve()], relative to [root] when it is inside. *)
Definition resolve_inside (root : list string) (p : string) : option (list string) :=
  relative_to root (if is_absolute p then resolve_parts [] (parts p)
                    else resolve_parts (rev root) (parts p)).

Section Operations.
(** [hashlib.blake2b] with a person tag, [hashlib.sha256], and where the stage
    directory is. *)
Context (blake2b : string -> string -> string) (sha256 : string -> string)
        (stage_root : list string).

Definition operation_spec_hash (s : OperationSpec) : string :=
  digest_of blake2b "bc-operation-spec" (spec_document s).

(** [(str(row["artifact_id"]), str(row["content_hash"]))] *)
Definition row_key (a : ArtifactBinding) : string * string := (artifact_id a, content_hash a).

Definition execution_hash (spec_hash : string) (inputs : list ArtifactBinding) : string :=
  let rows := py_sorted (on_key row_key pair_leb) inputs in
  digest_of blake2b "bc-operation-exec"
    (JObj [("operation_spec_hash", JStr spec_hash);
           ("inputs", JArr (map artifact_document rows))]).

Definition bind_artifact (st : Stage) (id rel : string) (descriptor : list (string * json)) :
    res ArtifactBinding :=
  match resolve_inside stage_root rel with
  | None => Err (OperationError ("artifact escapes stage root: " +:+ rel))
  | Some path =>
      match stage_files st !! path with
      | None => Err (OperationError ("declared artifact does not exist: /"
                  +:+ String.concat "/" (stage_root ++ path)))
      | Some content =>
          let resolved := if bool_decide (path = []) then "." else String.concat "/" path in
          let doc := JObj [("artifact_id", JStr id); ("relative_path", JStr resolved);
                           ("descriptor", jsonable (JObj descriptor))] in
          new_artifact (mkArtifact id resolved (sha256 (dumps doc)) (sha256 content)
            (Z.of_nat (String.length content)))
      end
  end.

Definition verify_artifact (st : Stage) (a : ArtifactBinding) : bool :=
  match resolve_inside stage_root (relative_path a) with
  | None => false
  | Some path =>
      match stage_files st !! path with
      | None => false
      | Some content => (Z.of_nat (String.length content) =? ab_bytes a)%Z
                        && String.eqb (sha256 content) (content_hash a)
      end
  end.

Definition already_exists (name : string) : exn :=
  OperationError ("immutable operation record already exists: /"
    +:+ String.concat "/" (stage_root ++ [name])).

(** [_write_immutable] of each of the three records. *)
Definition write_operation (doc : json) : stm Stage unit := fun st =>
  match operation_json st with
  | Some _ => (Err (already_exists "operation.json"), st)
  | None => (Ok tt, mkStage (Some doc) (running_json st) (result_json st) (stage_files st))
  end.

Definition write_running (doc : json) : stm Stage unit := fun st =>
  match running_json st with
  | Some _ => (Err (already_exists "running.json"), st)
  | None => (Ok tt, mkStage (operation_json st) (Some doc) (result_json st) (stage_files st))
  end.

Definition write_result (doc : json) : stm Stage unit := fun st =>
  match result_json st with
  | Some _ => (Err (already_exists "result.json"), st)
  | None => (Ok tt, mkStage (operation_json st) (running_json st) (Some doc) (stage_files st))
  end.

Definition persist_operation_spec (s : OperationSpec) : stm Stage string :=
  let h := operation_spec_hash s in
  _ ← write_operation (JObj (spec_fields s ++ [("operation_spec_hash", JStr h)])); mret h.

(** [value.get(key)] of a decoded document, compared with a string. *)
Definition doc_has (doc : json) (key h : string) : res bool :=
  match doc with
  | JObj o => Ok (match jget o key with Some (JStr s) => String.eqb s h | _ => false end)
  | _ => Err (no_get doc)
  end.

Definition running_document (spec_hash exec_hash : string) (now pid : Z) : json :=
  JObj [("schema", JStr "bigcherry.operation-running.v1");
        ("operation_spec_hash", JStr spec_hash); ("execution_hash", JStr exec_hash);
        ("started_ns", JInt now); ("pid", JInt pid)].

Definition begin_operation (s : OperationSpec) (inputs : list ArtifactBinding) (now pid : Z) :
    stm Stage (string * string) :=
  let spec_hash := operation_spec_hash s in
  existing ← gets operation_json;
  _ ← (match existing with
       | Some doc =>
           same ← lift (doc_has doc "operation_spec_hash" spec_hash);
           if same : bool then mret tt
           else raise (OperationError "existing operation.json does not match requested spec")
       | None => _ ← persist_operation_spec s; mret tt
       end);
  let exec_hash := execution_hash spec_hash inputs in
  result ← gets result_json;
  match result with
  | Some _ => raise (OperationError "operation already has an immutable terminal result")
  | None =>
      _ ← write_running (running_document spec_hash exec_hash now pid);
      mret (spec_hash, exec_hash)
  end.

(** [repr] of a set of strings (its order is unspecified; here it is sorted). *)
Definition repr_set (l : list string) : string :=
  match sorted_set l with
  | [] => "set()"
  | s => "{" +:+ String.concat ", " (map py_repr s) +:+ "}"
  end.

Definition same_ids (l k : list string) : bool :=
  forallb (fun x => str_in x k) l && forallb (fun x => str_in x l) k.

(** The first output whose bytes do not verify. *)
Definition check_outputs (st : Stage) (outputs : list ArtifactBinding) : res unit :=
  match List.find (fun a => negb (verify_artifact st a)) outputs with
  | Some a => Err (OperationError ("operation output failed content verification: "
                                     +:+ artifact_id a))
  | None => Ok tt
  end.

Definition sort_outputs (outputs : list ArtifactBinding) : list ArtifactBinding :=
  py_sorted (on_key artifact_id String.leb) outputs.

Definition publish_result (s : OperationSpec) (inputs : list ArtifactBinding) (state : string)
    (returncode : option Z) (outputs : list ArtifactBinding) (now : Z) :
    stm Stage OperationResult :=
  let spec_hash := operation_spec_hash s in
  let exec_hash := execution_hash spec_hash inputs in
  st ← get;
  match running_json st with
  | None => raise (OperationError "cannot publish operation result without running.json")
  | Some running =>
      same_spec ← lift (doc_has running "operation_spec_hash" spec_hash);
      same_exec ← lift (doc_has running "execution_hash" exec_hash);
      if negb (same_spec && same_exec) then
        raise (OperationError "running marker identity does not match requested execution")
      else
        let rows := sort_outputs outputs in
        let produced := map artifact_id rows in
        if String.eqb state "succeeded" && negb (same_ids produced (declared_outputs s)) then
          raise (OperationError ("succeeded operation output set mismatch: " +:+ repr_set produced
                   +:+ " != " +:+ repr_set (declared_outputs s)))
        else
          _ ← lift (check_outputs st rows);
          result ← lift (new_result (mkResult spec_hash exec_hash rows state returncode now));
          _ ← write_result (JObj (result_fields result));
          mret result
  end.

Definition parse_binding (v : json) : res ArtifactBinding :=
  match v with
  | JObj o =>
      id ← item_str o "artifact_id";
      rel ← item_str o "relative_path";
      dh ← item_str o "descriptor_hash";
      ch ← item_str o "content_hash";
      n ← item_int o "bytes";
      new_artifact (mkArtifact id rel dh ch n)
  | _ => Err (OperationError "operation artifact binding is malformed")
  end.

(** The exception classes that [load_result] turns into an [OperationError]. *)
Definition caught (e : exn) : bool :=
  existsb (String.eqb (exn_class e)) ["ValueError"; "TypeError"; "KeyError"].

Definition parse_result (v : json) : res OperationResult :=
  match v with
  | JObj o =>
      _ ← (match jget o "schema" with
           | Some (JStr s) => ensure (String.eqb s "bigcherry.operation-result.v1")
                                (OperationError "unknown operation result schema")
           | _ => Err (OperationError "unknown operation result schema")
           end);
      sh ← item_str o "operation_spec_hash";
      eh ← item_str o "execution_hash";
      rows ← json_iter (get_or o "outputs" (JArr []));
      outputs ← mapR parse_binding rows;
      state ← item_str o "state";
      rc ← opt_int o "returncode";
      fin ← item_int o "finished_ns";
      new_result (mkResult sh eh outputs state rc fin)
  | _ => Err (no_get v)
  end.

Definition load_result (st : Stage) : res (option OperationResult) :=
  match result_json st with
  | None => Ok None
  | Some doc =>
      match parse_result doc with
      | Ok r => Ok (Some r)
      | Err e =>
          if caught e then
            Err (OperationError ("invalid operation result at /"
              +:+ String.concat "/" (stage_root ++ ["result.json"]) +:+ ": " +:+ exn_message e))
          else Err e
      end
  end.

Definition durable_state (st : Stage) : res string :=
  result ← load_result st;
  Ok (match result with
      | Some r => or_state r
      | None =>
          match running_json st with
          | Some _ => "interrupted"
          | None => match operation_json st with Some _ => "planned" | None => "absent" end
          end
      end).

Definition rehydrate_succeeded (st : Stage) (s : OperationSpec) (inputs : list ArtifactBinding) :
    res (option OperationResult) :=
  result ← load_result st;
  Ok (match result with
      | None => None
      | Some r =>
          let spec_hash := operation_spec_hash s in
          if negb (String.eqb (or_state r) "succeeded") then None
          else if negb (String.eqb (or_spec_hash r) spec_hash) then None
          else if negb (String.eqb (or_execution_hash r) (execution_hash spec_hash inputs)) then None
          else if negb (same_ids (map artifact_id (or_outputs r)) (declared_outputs s)) then None
          else if negb (forallb (verify_artifact st) (or_outputs r)) then None
          else Some r
      end).

(** ** Lemmas *)

Lemma new_artifact_id a a' : new_artifact a = Ok a' -> a' = a.
Proof. unfold new_artifact. intros H. by inv_ok. Qed.

Lemma new_result_id r r' : new_result r = Ok r' -> r' = r /\ new_result r = Ok r.
Proof. intros H. assert (r' = r) as ->; [|done]. unfold new_result in H. by inv_ok. Qed.

Lemma parse_binding_document a :
  new_artifact a = Ok a -> parse_binding (artifact_document a) = Ok a.
Proof. intros H. destruct a. exact H. Qed.

Lemma mapR_parse_bindings l :
  Forall (fun a => new_artifact a = Ok a) l -> mapR parse_binding (map artifact_document l) = Ok l.
Proof.
  induction 1 as [|a l Ha Hl IH]; [done|]. cbn [map mapR].
  rewrite parse_binding_document by done. cbn [mbind result_bind]. by rewrite IH.
Qed.

(** What was written as a result is read back as that result. *)
Lemma parse_result_document r :
  new_result r = Ok r -> Forall (fun a => new_artifact a = Ok a) (or_outputs r) ->
  parse_result (JObj (result_fields r)) = Ok r.
Proof.
  intros Hr Ho. unfold parse_result, result_fields, item_str, item_int, opt_int, item, get_or.
  cbn [jget String.eqb Ascii.eqb Bool.eqb of_option mbind result_bind ensure json_iter
    from_option default json_int jstr]. cbn [id json_iter mbind result_bind].
  rewrite mapR_parse_bindings by done. cbn [mbind result_bind].
  destruct r as [sh eh outs st [rc|] fin]; exact Hr.
Qed.

Lemma load_result_written r st :
  new_result r = Ok r -> Forall (fun a => new_artifact a = Ok a) (or_outputs r) ->
  result_json st = Some (JObj (result_fields r)) -> load_result st = Ok (Some r).
Proof. intros Hr Ho Hs. unfold load_result. by rewrite Hs, parse_result_document. Qed.

Lemma check_outputs_Ok st l u : check_outputs st l = Ok u <-> forallb (verify_artifact st) l = true.
Proof.
  unfold check_outputs. destruct u. destruct (List.find _ l) as [a|] eqn:E.
  - apply find_some in E as [Hin Ha]. split; [done|]. rewrite forallb_true. intros Hall.
    rewrite Hall in Ha; [done|]. by apply list_elem_of_In.
  - split; [|done]. intros _. apply forallb_true. intros a Ha.
    apply list_elem_of_In in Ha. apply (find_none _ _ E) in Ha. by apply negb_false_iff in Ha.
Qed.

Lemma same_ids_true l k : same_ids l k = true <-> forall x, x ∈ l <-> x ∈ k.
Proof.
  unfold same_ids. rewrite andb_true_iff, !forallb_true. setoid_rewrite str_in_true. naive_solver.
Qed.

Lemma doc_has_true o key h :
  doc_has (JObj o) key h = Ok true <-> jget o key = Some (JStr h).
Proof.
  simpl. destruct (jget o key) as [[]|]; simpl; split; try done.
  - intros [= ->%String.eqb_eq]. done.
  - intros [= ->]. by rewrite String.eqb_refl.
Qed.

(** What an accepted publication did. *)
Lemma publish_result_Ok s inputs state rc outputs now st r st' :
  publish_result s inputs state rc outputs now st = (Ok r, st') ->
  r = mkResult (operation_spec_hash s) (execution_hash (operation_spec_hash s) inputs)
        (sort_outputs outputs) state rc now /\
  new_result r = Ok r /\ result_json st = None /\ running_json st <> None /\
  st' = mkStage (operation_json st) (running_json st) (Some (JObj (result_fields r))) (stage_files st) /\
  forallb (verify_artifact st) (sort_outputs outputs) = true /\
  (state = "succeeded" -> forall x, x ∈ map artifact_id outputs <-> x ∈ declared_outputs s).
Proof.
  unfold publish_result. rewrite stm_bind_Ok. intros (st0 & st1 & [= <- <-] & H).
  destruct (running_json st) as [running|] eqn:Er; [|done].
  rewrite stm_bind_Ok in H. destruct H as (b1 & st1 & H1 & H).
  rewrite stm_bind_Ok in H. destruct H as (b2 & st2 & H2 & H).
  unfold lift in H1, H2. injection H1 as _ <-. injection H2 as _ <-.
  destruct (negb (b1 && b2)); [done|].
  destruct (String.eqb state "succeeded" && _) eqn:Es; [done|].
  rewrite stm_bind_Ok in H. destruct H as (u & st2 & H1 & H).
  rewrite stm_bind_Ok in H. destruct H as (r0 & st3 & H2 & H).
  rewrite stm_bind_Ok in H. destruct H as (u' & st4 & H3 & H).
  unfold lift in H1, H2. injection H1 as H1 <-. injection H2 as H2 <-.
  apply new_result_id in H2 as [-> H2]. injection H as <- <-.
  unfold write_result in H3. destruct (result_json st) eqn:Eres; [done|].
  injection H3 as _ <-. split_and!; try done.
  - by rewrite Er.
  - by apply check_outputs_Ok in H1.
  - intros -> x. simpl in Es. apply negb_false_iff in Es. rewrite same_ids_true in Es.
    rewrite <- Es. unfold sort_outputs. by rewrite py_sorted_perm.
Qed.

Lemma Forall_sort_outputs (P : ArtifactBinding -> Prop) l : Forall P l -> Forall P (sort_outputs l).
Proof. unfold sort_outputs. by rewrite py_sorted_perm. Qed.

Lemma rehydrate_inv st s inputs r :
  rehydrate_succeeded st s inputs = Ok (Some r) ->
  load_result st = Ok (Some r) /\ or_state r = "succeeded" /\
  or_spec_hash r = operation_spec_hash s /\
  or_execution_hash r = execution_hash (operation_spec_hash s) inputs /\
  (forall x, x ∈ map artifact_id (or_outputs r) <-> x ∈ declared_outputs s) /\
  forallb (verify_artifact st) (or_outputs r) = true.
Proof.
  unfold rehydrate_succeeded. intros H. inv_ok. destruct x as [r'|]; [|done].
  destruct (String.eqb_spec (or_state r') "succeeded"); [simpl in H|done].
  destruct (String.eqb_spec (or_spec_hash r') (operation_spec_hash s)); [simpl in H|done].
  destruct (String.eqb_spec (or_execution_hash r')
    (execution_hash (operation_spec_hash s) inputs)); [simpl in H|done].
  destruct (same_ids (map artifact_id (or_outputs r')) (declared_outputs s)) eqn:E; [simpl in H|done].
  destruct (forallb (verify_artifact st) (or_outputs r')) eqn:Ev; [simpl in H|done].
  injection H as <-. split_and!; try done. by apply same_ids_true.
Qed.

Lemma verify_artifact_true st a :
  verify_artifact st a = true <->
  exists path content, resolve_inside stage_root (relative_path a) = Some path /\
    stage_files st !! path = Some content /\
    Z.of_nat (String.length content) = ab_bytes a /\ sha256 content = content_hash a.
Proof.
  unfold verify_artifact. destruct (resolve_inside stage_root (relative_path a)) as [path|];
    [|naive_solver].
  destruct (stage_files st !! path) as [content|] eqn:E; [|naive_solver].
  rewrite andb_true_iff, Z.eqb_eq, String.eqb_eq. naive_solver.
Qed.

(** ** The life of a stage directory *)

(** One call, or a change of the directory's other files. *)
Inductive stage_step (st : Stage) : Stage -> Prop :=
| ss_begin s inputs now pid : stage_step st (begin_operation s inputs now pid st).2
| ss_publish s inputs state rc outputs now :
    Forall (fun a => new_artifact a = Ok a) outputs ->
    stage_step st (publish_result s inputs state rc outputs now st).2
| ss_files files :
    stage_step st (mkStage (operation_json st) (running_json st) (result_json st) files).

(** The records are written in their order, and a result is one that loads. *)
Record stage_wf (st : Stage) : Prop := {
  sw_running : running_json st <> None -> operation_json st <> None;
  sw_result : result_json st <> None -> running_json st <> None;
  sw_loads d : result_json st = Some d -> exists r, load_result st = Ok (Some r)
               /\ or_state r ∈ result_states;
}.

(** Records are never changed once written. *)
Definition write_once (st st' : Stage) : Prop :=
  (forall d, operation_json st = Some d -> operation_json st' = Some d) /\
  (forall d, running_json st = Some d -> running_json st' = Some d) /\
  (forall d, result_json st = Some d -> result_json st' = Some d).

#[global] Instance write_once_preorder : PreOrder write_once.
Proof.
  split; [by intros st; split_and!|].
  intros s1 s2 s3 (H1 & H2 & H3) (H1' & H2' & H3'). split_and!; eauto.
Qed.

Lemma begin_operation_state s inputs now pid st :
  let st' := (begin_operation s inputs now pid st).2 in
  write_once st st' /\ result_json st' = result_json st /\
  (running_json st' <> None -> running_json st = running_json st' \/ operation_json st' <> None).
Proof.
  simpl. unfold begin_operation, persist_operation_spec. unfold mbind, stm_bind, gets, lift, raise, mret, stm_ret.
  destruct st as [[od|] ru re fs]; simpl.
  - destruct (doc_has od "operation_spec_hash" (operation_spec_hash s)) as [[]|e]; simpl;
      [|split_and!; auto; by split_and!|split_and!; auto; by split_and!].
    destruct re as [rd|]; simpl; [split_and!; auto; by split_and!|].
    unfold write_running. destruct ru as [rd|]; simpl; split_and!; auto; by split_and!.
  - destruct re as [rd|]; simpl; [split_and!; auto; by split_and!|].
    unfold write_running. destruct ru as [rd|]; simpl; split_and!; auto; by split_and!.
Qed.

Lemma begin_operation_wf s inputs now pid st :
  stage_wf st -> stage_wf (begin_operation s inputs now pid st).2.
Proof.
  intros [Hru Hre Hl]. destruct (begin_operation_state s inputs now pid st) as ((Ho & Hr & _) & E & Hn).
  set (st' := (begin_operation s inputs now pid st).2) in *. split.
  - intros H. destruct (Hn H) as [E'|]; [|done]. rewrite <- E' in H. specialize (Hru H).
    destruct (operation_json st) eqn:E''; [|done]. by rewrite (Ho _ eq_refl).
  - rewrite E. intros H. specialize (Hre H). destruct (running_json st) eqn:E'; [|done].
    by rewrite (Hr _ eq_refl).
  - intros d. rewrite E. intros Hd. destruct (Hl d Hd) as (r & Hload & ?). exists r.
    split; [|done]. unfold load_result in *. by rewrite E.
Qed.

Lemma publish_result_state s inputs state rc outputs now st :
  let st' := (publish_result s inputs state rc outputs now st).2 in
  st' = st \/ exists r, publish_result s inputs state rc outputs now st = (Ok r, st').
Proof.
  simpl. destruct (publish_result s inputs state rc outputs now st) as [[r|e] st'] eqn:E;
    [by right; exists r|left]. simpl. revert E. unfold publish_result, mbind, stm_bind, get, lift, raise.
  destruct (running_json st) as [doc|]; [|by intros [= _ <-]].
  destruct (doc_has doc "operation_spec_hash" _) as [b1|]; [|by intros [= _ <-]].
  destruct (doc_has doc "execution_hash" _) as [b2|]; [|by intros [= _ <-]].
  destruct (negb (b1 && b2)); [by intros [= _ <-]|].
  destruct (String.eqb state "succeeded" && _); [by intros [= _ <-]|].
  destruct (check_outputs st _); [|by intros [= _ <-]].
  destruct (new_result _) as [r|]; [|by intros [= _ <-]].
  unfold write_result. destruct (result_json st); [by intros [= _ <-]|done].
Qed.

Lemma stage_step_wf st st' : stage_wf st -> stage_step st st' -> stage_wf st' /\ write_once st st'.
Proof.
  intros Hwf Hs. destruct Hs as [s inputs now pid|s inputs state rc outputs now Ho|files].
  - split; [by apply begin_operation_wf|]. apply begin_operation_state.
  - destruct (publish_result_state s inputs state rc outputs now st) as [->|[r H]]; [by split|].
    apply publish_result_Ok in H as (Hr & Hnew & Hnone & Hrun & -> & _). split.
    + split; simpl.
      * apply (sw_running st Hwf).
      * done.
      * intros d [= <-]. exists r. split; [|].
        -- apply load_result_written; [done| |done]. rewrite Hr. simpl. by apply Forall_sort_outputs.
        -- unfold new_result in Hnew. inv_ok. by apply str_in_true in H.
    + split_and!; simpl; [done|done|]. by rewrite Hnone.
  - split; [|by split_and!]. destruct Hwf as [H1 H2 H3]. split; simpl; done.
Qed.

Lemma stage_run_wf st st' :
  stage_wf st -> rtc stage_step st st' -> stage_wf st' /\ write_once st st'.
Proof.
  intros Hwf H. induction H as [st|st1 st2 st3 Hs H IH]; [by split|].
  destruct (stage_step_wf _ _ Hwf Hs) as [Hwf2 H12]. destruct (IH Hwf2) as [? ?].
  split; [done|]. by etrans.
Qed.

Lemma empty_stage_wf : stage_wf empty_stage.
Proof. by split. Qed.

(** ** Theorems *)


(** Reuse of a stage is complete: an accepted publication is what loading
    and the durable state then report, and a succeeded one is reused for the
    same spec and inputs as long as the directory is left alone. *)
Theorem publish_then_rehydrate s inputs state rc outputs now st r st' :
  Forall (fun a => new_artifact a = Ok a) outputs ->
  publish_result s inputs state rc outputs now st = (Ok r, st') ->
  load_result st' = Ok (Some r) /\ durable_state st' = Ok state /\
  rehydrate_succeeded st' s inputs
    = Ok (if String.eqb state "succeeded" then Some r else None).
Proof.
  intros Ho Hp. apply publish_result_Ok in Hp as (-> & Hnew & _ & _ & -> & Hver & Hids).
  match goal with |- load_result ?st = Ok (Some ?r) /\ _ => assert (load_result st = Ok (Some r)) as Hl end.
  { apply load_result_written; [done| |done]. simpl. by apply Forall_sort_outputs. }
  split; [exact Hl|]. unfold durable_state, rehydrate_succeeded. rewrite Hl. simpl. split; [done|].
  destruct (String.eqb_spec state "succeeded") as [->|Hne]; simpl; [|done].
  rewrite !String.eqb_refl. simpl.
  rewrite (proj2 (same_ids_true _ _)).
  - simpl. assert (forall st2, stage_files st2 = stage_files st ->
      forallb (verify_artifact st2) (sort_outputs outputs) = true) as Hv.
    { intros st2 E. rewrite forallb_true in *. intros a Ha. specialize (Hver a Ha).
      unfold verify_artifact in *. by rewrite E. }
    by rewrite Hv.
  - intros x. rewrite <- (Hids eq_refl). unfold sort_outputs. by rewrite py_sorted_perm.
Qed.

(** The records of a stage directory are written once and in order: from
    an empty directory, whatever calls are made and however its other files
    change, a record that exists is never changed, a running marker comes
    after the spec and a result after the marker, and the durable state is
    always determined - by the result once there is one. *)
Theorem stage_lifecycle st st' :
  rtc stage_step empty_stage st -> rtc stage_step st st' ->
  write_once st st' /\
  (running_json st <> None -> operation_json st <> None) /\
  (result_json st <> None -> running_json st <> None) /\
  durable_state st = Ok (
    match result_json st, running_json st, operation_json st with
    | Some d, _, _ => match parse_result d with Ok r => or_state r | Err _ => "" end
    | None, Some _, _ => "interrupted"
    | None, None, Some _ => "planned"
    | None, None, None => "absent"
    end).
Proof.
  intros H0 H. destruct (stage_run_wf _ _ empty_stage_wf H0) as [Hwf _].
  destruct (stage_run_wf _ _ Hwf H) as [_ Hw]. split; [done|].
  split; [apply Hwf|]. split; [apply Hwf|]. unfold durable_state.
  destruct (result_json st) as [d|] eqn:E.
  - destruct (sw_loads st Hwf d E) as (r & Hl & _). rewrite Hl. simpl.
    unfold load_result in Hl. rewrite E in Hl. destruct (parse_result d) as [r'|e]; simplify_eq.
    + done.
    + by destruct (caught e).
  - unfold load_result. rewrite E. simpl. by destruct (running_json st), (operation_json st).
Qed.

(** The execution hash identifies the set of inputs: it does not depend on
    their order, as long as no two have the same artifact id and content. *)
Theorem execution_hash_order_independent spec_hash inputs inputs' :
  NoDup (map row_key inputs) -> inputs ≡ₚ inputs' ->
  execution_hash spec_hash inputs = execution_hash spec_hash inputs'.
Proof.
  intros Hnd Hp. unfold execution_hash. by rewrite (py_sorted_key_perm row_key pair_leb inputs inputs').
Qed.

End Operations.

(** ** Concrete values *)

Definition demo_sha (s : string) : string :=
  if String.eqb s "abc" then String.concat "" (replicate 64 "a")
  else String.concat "" (replicate 64 "b").
Definition demo_blake (person text : string) : string := person +:+ ":" +:+ text.

Definition demo_spec : OperationSpec :=
  mkOperationSpec "prepare" "build" [("stage", JStr "prepare")] [] demo_resources [] ["manifest"].

Definition demo_artifact : ArtifactBinding :=
  mkArtifact "manifest" "out/m.json" (demo_sha "d") (demo_sha "abc") 3.

Definition demo_files : gmap (list string) string := <[["out"; "m.json"] := "abc"]> ∅.

Definition demo_started : Stage :=
  (begin_operation demo_blake ["stage"] demo_spec [] 5 7 (mkStage None None None demo_files)).2.

Definition demo_published : res OperationResult * Stage :=
  publish_result demo_blake demo_sha ["stage"] demo_spec [] "succeeded" (Some 0%Z) [demo_artifact] 9
    demo_started.

Definition demo_result : OperationResult :=
  mkResult (operation_spec_hash demo_blake demo_spec)
    (execution_hash demo_blake (operation_spec_hash demo_blake demo_spec) [])
    [demo_artifact] "succeeded" (Some 0%Z) 9.

Lemma demo_publish : demo_published = (Ok demo_result, demo_published.2).
Proof. vm_compute. reflexivity. Defined.

Lemma demo_artifact_ok : Forall (fun a => new_artifact a = Ok a) [demo_artifact].
Proof. constructor; [vm_compute; reflexivity|constructor]. Defined.


Lemma publish_then_rehydrate_witness :
  durable_state ["stage"] demo_published.2 = Ok "succeeded".
Proof.
  exact (proj1 (proj2 (publish_then_rehydrate demo_blake demo_sha ["stage"] demo_spec [] "succeeded"
    (Some 0%Z) [demo_artifact] 9 demo_started demo_result demo_published.2 demo_artifact_ok
    demo_publish))).
Defined.

Lemma stage_lifecycle_witness :
  rtc (stage_step demo_blake demo_sha ["stage"]) empty_stage demo_started /\
  durable_state ["stage"] demo_started = Ok "interrupted".
Proof.
  assert (rtc (stage_step demo_blake demo_sha ["stage"]) empty_stage demo_started) as H.
  { eapply rtc_l; [apply (ss_files _ _ _ empty_stage demo_files)|].
    eapply rtc_l; [apply (ss_begin _ _ _ _ demo_spec [] 5 7)|]. apply rtc_refl. }
  split; [exact H|].
  exact (proj2 (proj2 (proj2 (stage_lifecycle demo_blake demo_sha ["stage"] demo_started
    demo_started H (rtc_refl _ _))))).
Defined.

Definition demo_input (id : string) : ArtifactBinding :=
  mkArtifact id "x" (demo_sha "d") (demo_sha "abc") 3.

Lemma execution_hash_order_independent_witness :
  execution_hash demo_blake "h" [demo_input "b"; demo_input "a"]
  = execution_hash demo_blake "h" [demo_input "a"; demo_input "b"].
Proof.
  apply execution_hash_order_independent.
  - apply (bool_decide_unpack _). vm_compute. exact I.
  - apply perm_swap.
Defined.

End Operations.
