(* ===== verification/Graph.v ===== *)
(** The campaign graph: [src/tools/bigcherry/jobs/graph.py].

    The three loops run until a condition holds; here each has fuel, and the
    theorems show that the fuel the operations give it is enough. *)

From S2P Require Import Prelude Json JobModel Executor Operations.
Import Json JobModel Executor Operations.

Module Graph.

Definition CampaignGraphError (msg : string) : exn := Exn "CampaignGraphError" msg.

Record CampaignGraph : Type := mkGraph { operations : list OperationSpec }.

Definition ids (ops : list OperationSpec) : list string := map op_id ops.

(** [by_id[operation_id]]: the last operation of that name. *)
Definition by_id (ops : list OperationSpec) (id : string) : option OperationSpec :=
  List.find (fun o => String.eqb (op_id o) id) (rev ops).

Definition subset (l k : list string) : bool := forallb (fun x => str_in x k) l.

(** The names that can be emitted next, in order. *)
Definition ready_ids (remaining : list OperationSpec) (done : list string) : list string :=
  py_sorted String.leb
    (ids (List.filter (fun o => subset (dependencies o) done) remaining)).

(** The [while remaining] loop. *)
Fixpoint order_loop (fuel : nat) (ops remaining : list OperationSpec) (done : list string)
    (emitted : list OperationSpec) : res (list OperationSpec) :=
  match fuel with
  | O => Ok emitted
  | S fuel' =>
      match remaining with
      | [] => Ok emitted
      | _ =>
          let ready := ready_ids remaining done in
          match ready with
          | [] => Err (CampaignGraphError ("campaign operation dependency cycle among: "
                         +:+ String.concat ", " (py_sorted String.leb (ids remaining))))
          | _ =>
              order_loop fuel' ops
                (List.filter (fun o => negb (str_in (op_id o) ready)) remaining)
                (done ++ ready) (emitted ++ omap (by_id ops) ready)
          end
      end
  end.

Definition topological_order (g : CampaignGraph) : res (list OperationSpec) :=
  order_loop (S (length (operations g))) (operations g) (operations g) [] [].

(** [CampaignGraph.__post_init__] *)
Definition new_graph (g : CampaignGraph) : res CampaignGraph :=
  let known := ids (operations g) in
  _ ← ensure (distinct known) (CampaignGraphError "campaign graph operation IDs must be unique");
  _ ← foldR (fun _ o =>
        let missing := sorted_set (List.filter (fun d => negb (str_in d known)) (dependencies o)) in
        ensure (bool_decide (missing = []))
          (CampaignGraphError ("operation " +:+ py_repr (op_id o)
             +:+ " names missing dependencies " +:+ py_repr_list missing)))
      (operations g) tt;
  _ ← topological_order g;
  Ok g.

(** One pass of the loop of [descendants] over the operations. *)
Definition desc_step (id : string) (acc : list string * bool) (o : OperationSpec) :
    list string * bool :=
  let '(descendants, changed) := acc in
  if str_in (op_id o) descendants then acc
  else if str_in id (dependencies o)
       || existsb (fun d => str_in d descendants) (dependencies o)
  then (op_id o :: descendants, true)
  else acc.

Definition desc_pass (id : string) (ops : list OperationSpec) (descendants : list string) :
    list string * bool :=
  fold_left (desc_step id) ops (descendants, false).

Fixpoint desc_loop (fuel : nat) (id : string) (ops : list OperationSpec)
    (descendants : list string) : list string :=
  match fuel with
  | O => descendants
  | S fuel' =>
      let '(descendants', changed) := desc_pass id ops descendants in
      if changed : bool then desc_loop fuel' id ops descendants' else descendants'
  end.

Definition descendants (g : CampaignGraph) (id : string) : res (list string) :=
  if negb (str_in id (ids (operations g))) then Err (KeyError (py_repr id))
  else Ok (py_sorted String.leb (desc_loop (S (length (operations g))) id (operations g) [])).

Definition ready (g : CampaignGraph) (succeeded : list string) : res (list OperationSpec) :=
  let unknown := sorted_set (List.filter (fun x => negb (str_in x (ids (operations g)))) succeeded) in
  if bool_decide (unknown <> []) then
    Err (CampaignGraphError ("ready() received unknown completed operation IDs: "
           +:+ py_repr_list unknown))
  else
    order ← topological_order g;
    Ok (List.filter (fun o => negb (str_in (op_id o) succeeded) && subset (dependencies o) succeeded)
          order).

(** The inner [make] of [compile_validation_graph]. *)
Definition make_operation (semantic_request : list (string * json)) (cpu_slots : Z)
    (gpu : option SchedulerGpuRequest) (operation_id kind activity_class : string)
    (deps outputs : list string) (timeout : Z) : res OperationSpec :=
  resources ← new_resources (mkResourceRequest cpu_slots gpu activity_class None timeout);
  new_operation_spec (mkOperationSpec operation_id kind
    [("stage", JStr operation_id); ("request", JObj semantic_request)] [] resources deps outputs).

Definition compile_validation_graph (architecture : string) (reserved_gpu_count : Z)
    (semantic_request : list (string * json)) (include_production_lane : bool)
    (cpu_slots build_timeout_seconds measure_timeout_seconds : Z) : res CampaignGraph :=
  if (reserved_gpu_count <? 1)%Z then Err (ValueError "reserved_gpu_count must be >= 1")
  else
    gpu ← new_scheduler_gpu (mkSchedulerGpuRequest architecture reserved_gpu_count);
    let make := make_operation semantic_request cpu_slots in
    prepare ← make None "prepare" "prepare" "build" [] ["prepared-manifest"]
                build_timeout_seconds;
    correctness ← make (Some gpu) "correctness-activation" "correctness-activation" "correctness"
                ["prepare"] ["correctness"; "activation"] measure_timeout_seconds;
    timed ← make (Some gpu) "timed-performance" "timed-performance" "timed-measure"
                ["correctness-activation"] ["performance"] measure_timeout_seconds;
    ladder ← make (Some gpu) "reference-ladder" "reference-ladder" "timed-measure"
                ["timed-performance"] ["reference-ladder"] measure_timeout_seconds;
    lane ← (if include_production_lane then
              o ← make (Some gpu) "production-lane" "production-lane" "timed-measure"
                    ["reference-ladder"] ["production-lane"] measure_timeout_seconds;
              Ok [o]
            else Ok []);
    let final_measure := if include_production_lane then "production-lane"
                         else "reference-ladder" in
    finalize ← make None "evidence-finalize" "evidence-finalize" "harvest" [final_measure]
                ["validation-evidence"] 300%Z;
    harvest ← make None "harvest" "harvest" "harvest" ["evidence-finalize"]
                ["harvest-manifest"] 300%Z;
    report ← make None "report" "report" "harvest" ["harvest"] ["series-report"] 300%Z;
    new_graph (mkGraph ([prepare; correctness; timed; ladder] ++ lane ++ [finalize; harvest; report])).

Definition graph_document (g : CampaignGraph) : res json :=
  order ← topological_order g;
  Ok (JObj [("schema", JStr "bigcherry.campaign-graph.v1");
            ("operations", JArr (map spec_document order))]).

(** ** Dependency *)

(** [y] is a direct dependency of the operation [x]. *)
Definition dep (ops : list OperationSpec) (x y : string) : Prop :=
  exists o, o ∈ ops /\ op_id o = x /\ y ∈ dependencies o.

(** A constructed graph, before its order is computed. *)
Record graph_wf (g : CampaignGraph) : Prop := {
  gw_ids : NoDup (ids (operations g));
  gw_deps o d : o ∈ operations g -> d ∈ dependencies o -> d ∈ ids (operations g);
}.

(** Some operations that wait for each other: each depends on one of them. *)
Definition deadlock (ops : list OperationSpec) (stuck : list string) : Prop :=
  stuck <> [] /\ forall x, x ∈ stuck -> x ∈ ids ops /\ exists y, dep ops x y /\ y ∈ stuck.

(** ** Lemmas *)

Lemma find_by_id_Some ops id o :
  NoDup (ids ops) -> (by_id ops id = Some o <-> o ∈ ops /\ op_id o = id).
Proof.
  intros Hnd. unfold by_id. split.
  - intros [Hin Heq]%find_some. apply String.eqb_eq in Heq.
    by apply in_rev, list_elem_of_In in Hin.
  - intros [Hin <-]. destruct (List.find _ (rev ops)) as [o'|] eqn:E.
    + apply find_some in E as [Hin' Heq]. apply String.eqb_eq in Heq. f_equal.
      apply in_rev, list_elem_of_In in Hin'.
      apply list_elem_of_lookup in Hin as [i Hi]. apply list_elem_of_lookup in Hin' as [j Hj].
      assert (i = j) as ->; [|by simplify_eq].
      eapply (NoDup_lookup _ i j (op_id o) Hnd); unfold ids; rewrite list_lookup_fmap;
        [by rewrite Hi | by rewrite Hj; simpl; f_equal].
    + apply (find_none _ _) with (x := o) in E; [by rewrite String.eqb_refl in E|].
      by apply (proj1 (in_rev _ _)), list_elem_of_In.
Qed.

Lemma subset_true l k : subset l k = true <-> forall x, x ∈ l -> x ∈ k.
Proof. unfold subset. rewrite forallb_true. by setoid_rewrite str_in_true. Qed.

Lemma elem_of_ids ops id : id ∈ ids ops <-> exists o, o ∈ ops /\ op_id o = id.
Proof. unfold ids. rewrite list_elem_of_fmap. naive_solver. Qed.

Lemma distinct_NoDup l : distinct l = true <-> NoDup l.
Proof.
  unfold distinct. rewrite Nat.eqb_eq. rewrite <- length_remove_dups_NoDup. split; congruence.
Qed.

Lemma new_graph_wf g g' : new_graph g = Ok g' -> g' = g /\ graph_wf g /\ is_ok (topological_order g) = true.
Proof.
  unfold new_graph. intros H. inv_ok. split; [done|]. split; [|by rewrite H2]. split.
  - by apply distinct_NoDup.
  - intros o d Ho Hd. assert (forall ops u,
      foldR (fun _ o => ensure (bool_decide (sorted_set (List.filter
        (fun d => negb (str_in d (ids (operations g')))) (dependencies o)) = []))
        (CampaignGraphError ("operation " +:+ py_repr (op_id o)
             +:+ " names missing dependencies " +:+ py_repr_list (sorted_set (List.filter
        (fun d => negb (str_in d (ids (operations g')))) (dependencies o)))))) ops tt = Ok u ->
      o ∈ ops -> d ∈ ids (operations g')) as Hgo.
    { clear -Hd. induction ops as [|o' ops IH]; intros u; [by intros _ ?%elem_of_nil|].
      cbn [foldR]. intros H Hin. apply bind_Ok in H as ([] & H & Hrest).
      apply ensure_Ok in H. apply bool_decide_eq_true in H.
      apply elem_of_cons in Hin as [<-|Hin]; [|by eapply IH].
      destruct (str_in d (ids (operations g'))) eqn:E; [by apply str_in_true|].
      assert (d ∈ sorted_set (List.filter (fun d => negb (str_in d (ids (operations g'))))
        (dependencies o))) as Hc by (apply elem_of_sorted_set, elem_of_filterb; by rewrite E).
      rewrite H in Hc. by apply elem_of_nil in Hc. }
    by eapply Hgo.
Qed.

Lemma elem_of_ready_ids remaining done x :
  x ∈ ready_ids remaining done <->
  exists o, o ∈ remaining /\ op_id o = x /\ forall d, d ∈ dependencies o -> d ∈ done.
Proof.
  unfold ready_ids. rewrite elem_of_py_sorted, elem_of_ids. setoid_rewrite elem_of_filterb.
  setoid_rewrite subset_true. naive_solver.
Qed.

#[global] Instance ids_perm : Proper ((≡ₚ) ==> (≡ₚ)) ids.
Proof. intros l k H. unfold ids. by rewrite H. Qed.

Lemma ids_app l k : ids (l ++ k) = ids l ++ ids k.
Proof. apply map_app. Qed.

(** State of the loop: what is emitted and what remains are the operations. *)
Record loop_inv (ops remaining : list OperationSpec) (done : list string)
    (emitted : list OperationSpec) : Prop := {
  li_perm : emitted ++ remaining ≡ₚ ops;
  li_done : done = ids emitted;
  li_order : forall pre o post, emitted = pre ++ o :: post ->
               forall d, d ∈ dependencies o -> d ∈ ids pre;
}.

Lemma omap_by_id ops l :
  NoDup (ids ops) -> (forall x, x ∈ l -> x ∈ ids ops) ->
  ids (omap (by_id ops) l) = l /\ forall o, o ∈ omap (by_id ops) l <-> o ∈ ops /\ op_id o ∈ l.
Proof.
  intros Hnd Hl. split.
  - induction l as [|x l IH]; [done|].
    destruct (proj1 (elem_of_ids ops x) (Hl x ltac:(left))) as (o & Ho & <-).
    assert (by_id ops (op_id o) = Some o) as Hb by (by apply find_by_id_Some).
    cbn [omap list_omap]. rewrite Hb. simpl. f_equal. apply IH. intros y Hy. apply Hl. by right.
  - intros o. rewrite list_elem_of_omap. split.
    + intros (x & Hx & Hb). apply find_by_id_Some in Hb as [? <-]; done.
    + intros [Ho Hx]. exists (op_id o). split; [done|]. by apply find_by_id_Some.
Qed.

Lemma loop_inv_step ops remaining done emitted :
  NoDup (ids ops) -> loop_inv ops remaining done emitted ->
  let r := ready_ids remaining done in
  loop_inv ops (List.filter (fun o => negb (str_in (op_id o) r)) remaining) (done ++ r)
    (emitted ++ omap (by_id ops) r).
Proof.
  intros Hnd [Hp Hd Ho] r.
  assert (NoDup (ids (emitted ++ remaining))) as Hnd2 by (unfold ids; by rewrite Hp).
  unfold ids in Hnd2. rewrite map_app in Hnd2. apply NoDup_app in Hnd2 as (_ & Hdis & Hndr).
  assert (forall x, x ∈ r -> x ∈ ids remaining) as Hr.
  { intros x (o & ? & ? & _)%elem_of_ready_ids. apply elem_of_ids. eauto. }
  assert (forall x, x ∈ r -> x ∈ ids ops) as Hrops.
  { intros x Hx. unfold ids. rewrite <- Hp, map_app, elem_of_app. right. by apply Hr. }
  destruct (omap_by_id ops r Hnd Hrops) as [Hids Hel]. split.
  - rewrite <- app_assoc. etrans; [|exact Hp]. apply Permutation_app_head.
    assert (NoDup remaining) as Hndrem by (by eapply NoDup_fmap_1).
    apply NoDup_Permutation; [|done|].
    + apply NoDup_app. split_and!.
      * apply (NoDup_fmap_1 op_id). change (NoDup (ids (omap (by_id ops) r))). rewrite Hids.
        unfold r, ready_ids. rewrite py_sorted_perm.
        eapply sublist_NoDup; [exact Hndr|]. apply sublist_map, filterb_sublist.
      * intros o [_ Hx]%Hel [_ Hn]%elem_of_filterb. apply negb_true_iff in Hn.
        apply str_in_true in Hx. congruence.
      * eapply sublist_NoDup; [exact Hndrem|]. apply filterb_sublist.
    + intros o. rewrite elem_of_app, elem_of_filterb, Hel. split; [|].
      * intros [[Hin Hx]|[? _]]; [|done]. apply Hr, elem_of_ids in Hx as (o' & Ho' & E).
        assert (o' ∈ ops) as Hin' by (rewrite <- Hp, elem_of_app; by right).
        assert (by_id ops (op_id o) = Some o) as H1 by (by apply find_by_id_Some).
        assert (by_id ops (op_id o) = Some o') as H2 by (by apply find_by_id_Some).
        congruence.
      * intros Hin. destruct (str_in (op_id o) r) eqn:E; [left|by right].
        apply str_in_true in E. split; [|done]. rewrite <- Hp, elem_of_app. by right.
  - by rewrite ids_app, Hids, Hd.
  - intros pre o post E d Hdep.
    apply List.app_eq_app in E as (k & [[Epre E]|[-> E]]).
    + (* within what was emitted before, or the first of the new ones *)
      destruct k as [|o' k].
      * rewrite app_nil_r in Epre. subst pre. simpl in E.
        assert (o ∈ omap (by_id ops) r) as [Hin Hx]%Hel by (rewrite <- E; left).
        apply elem_of_ready_ids in Hx as (o' & Hin' & E' & Hdone).
        assert (o' = o) as ->.
        { assert (by_id ops (op_id o) = Some o') as H1.
          { apply find_by_id_Some; [done|]. split; [|done]. rewrite <- Hp, elem_of_app. by right. }
          assert (by_id ops (op_id o) = Some o) as H2 by (by apply find_by_id_Some). congruence. }
        rewrite <- Hd. by apply Hdone.
      * injection E as <- E. by apply (Ho pre o k Epre).
    + assert (o ∈ omap (by_id ops) r) as [Hin Hx]%Hel by (rewrite E, elem_of_app; right; left).
      apply elem_of_ready_ids in Hx as (o' & Hin' & E' & Hdone).
      assert (o' = o) as ->.
      { assert (by_id ops (op_id o) = Some o') as H1.
        { apply find_by_id_Some; [done|]. split; [|done]. rewrite <- Hp, elem_of_app. by right. }
        assert (by_id ops (op_id o) = Some o) as H2 by (by apply find_by_id_Some). congruence. }
      rewrite ids_app, elem_of_app. left. rewrite <- Hd. by apply Hdone.
Qed.

Lemma ready_filter_shorter remaining done x xs :
  ready_ids remaining done = x :: xs ->
  length (List.filter (fun o => negb (str_in (op_id o) (x :: xs))) remaining) < length remaining.
Proof.
  intros E. assert (x ∈ ready_ids remaining done) as Hx by (rewrite E; left).
  apply elem_of_ready_ids in Hx as (o & Ho & <- & _). clear E.
  induction remaining as [|o' rem IH]; [by apply elem_of_nil in Ho|].
  pose proof (sublist_length _ _ (filterb_sublist
    (fun o0 => negb (str_in (op_id o0) (op_id o :: xs))) rem)) as Hle.
  cbn [List.filter]. apply elem_of_cons in Ho as [<-|Ho].
  - rewrite (proj2 (str_in_true _ _)) by left. simpl. lia.
  - specialize (IH Ho). destruct (negb _); simpl; lia.
Qed.

(** The loop ends with every operation emitted, or stuck on operations that
    wait for each other. *)
Lemma order_loop_spec fuel ops remaining done emitted :
  NoDup (ids ops) -> loop_inv ops remaining done emitted -> length remaining < fuel ->
  (exists order, order_loop fuel ops remaining done emitted = Ok order /\ loop_inv ops [] (ids order) order)
  \/ (exists e rest, order_loop fuel ops remaining done emitted = Err e /\ rest <> [] /\
        (forall o, o ∈ rest -> o ∈ ops) /\
        forall o, o ∈ rest -> exists d, d ∈ dependencies o /\ (d ∈ ids ops -> d ∈ ids rest)).
Proof.
  intros Hnd. revert remaining done emitted. induction fuel as [|fuel IH]; intros remaining done emitted Hinv Hlt;
    [lia|]. cbn [order_loop]. destruct remaining as [|o0 rem] eqn:Erem.
  - left. exists emitted. split; [done|]. destruct Hinv as [? ? ?]. by split.
  - rewrite <- Erem in *. assert (remaining <> []) as Hne by (by rewrite Erem). clear o0 rem Erem.
    destruct (ready_ids remaining done) as [|x xs] eqn:Er.
    + right. exists (CampaignGraphError ("campaign operation dependency cycle among: "
                +:+ String.concat ", " (py_sorted String.leb (ids remaining)))), remaining.
      split; [done|]. split; [done|]. split.
      { intros o Ho. rewrite <- (li_perm _ _ _ _ Hinv), elem_of_app. by right. }
      intros o Ho. destruct (subset (dependencies o) done) eqn:Es.
      * exfalso. assert (op_id o ∈ ready_ids remaining done) as Hin.
        { apply elem_of_ready_ids. exists o. split_and!; [done|done|]. by apply subset_true. }
        rewrite Er in Hin. by apply elem_of_nil in Hin.
      * apply forallb_false in Es as (d & Hd & Hn). apply not_true_iff_false in Hn.
        rewrite str_in_true in Hn.
        exists d. split; [done|]. intros Hops. unfold ids in Hops.
        rewrite <- (li_perm _ _ _ _ Hinv), map_app, elem_of_app in Hops.
        destruct Hops as [Hc|?]; [|done]. exfalso. apply Hn. by rewrite (li_done _ _ _ _ Hinv).
    + rewrite <- Er. apply IH.
      * by apply loop_inv_step.
      * pose proof (ready_filter_shorter _ _ _ _ Er). rewrite Er. lia.
Qed.

Lemma topological_order_cases g :
  graph_wf g ->
  (exists order, topological_order g = Ok order /\ order ≡ₚ operations g /\
     forall pre o post, order = pre ++ o :: post -> forall d, d ∈ dependencies o -> d ∈ ids pre)
  \/ (exists e stuck, topological_order g = Err e /\ deadlock (operations g) stuck).
Proof.
  intros [Hnd Hdeps]. unfold topological_order.
  destruct (order_loop_spec (S (length (operations g))) (operations g) (operations g) [] [] Hnd)
    as [(order & Ho & Hinv)|(e & rest & He & Hne & Hin & Hst)]; [|lia| |].
  - split; [done|done|]. intros pre o post E. by destruct pre.
  - left. exists order. split; [done|]. destruct Hinv as [Hp _ Hord]. rewrite app_nil_r in Hp.
    by split.
  - right. exists e, (ids rest). split; [done|]. split.
    + destruct rest; [done|]. by intros ?.
    + intros x (o & Ho & <-)%elem_of_ids. split; [apply elem_of_ids; eauto|].
      destruct (Hst o Ho) as (d & Hd & Hr). exists d. split; [exists o; by auto|].
      apply Hr. by apply (Hdeps o); [apply Hin|].
Qed.

(** A list in dependency order leaves nothing waiting in a circle. *)
Lemma ordered_no_deadlock ops order stuck :
  order ≡ₚ ops -> NoDup (ids ops) ->
  (forall pre o post, order = pre ++ o :: post -> forall d, d ∈ dependencies o -> d ∈ ids pre) ->
  ~ deadlock ops stuck.
Proof.
  intros Hp Hnd Hord [Hne Hst].
  assert (forall pre, (exists post, order = pre ++ post) -> forall x, x ∈ stuck -> x ∉ ids pre) as Hpre.
  { induction pre as [|o pre IH] using rev_ind; intros [post E] x Hx; [by intros ?%elem_of_nil|].
    rewrite ids_app, elem_of_app. intros [Hin|Hin].
    - revert Hin. apply IH; [|done]. exists (o :: post). by rewrite E, <- app_assoc.
    - apply list_elem_of_singleton in Hin as ->.
      destruct (Hst (op_id o) Hx) as (_ & y & (o' & Ho' & Eo & Hy) & Hyst).
      assert (o' = o) as ->.
      { assert (o ∈ ops) as Ho.
        { rewrite <- Hp, E, <- app_assoc, elem_of_app. right. left. }
        assert (by_id ops (op_id o) = Some o') as H1 by (by apply find_by_id_Some).
        assert (by_id ops (op_id o) = Some o) as H2 by (by apply find_by_id_Some). congruence. }
      assert (exists post', order = pre ++ post') as Hpost.
      { exists (o :: post). by rewrite E, <- app_assoc. }
      apply (IH Hpost y Hyst). apply (Hord pre o post); [by rewrite E, <- app_assoc|done]. }
  destruct stuck as [|x stuck]; [done|].
  assert (exists post, order = order ++ post) as Hpost by (exists []; by rewrite app_nil_r).
  apply (Hpre order Hpost x); [left|].
  unfold ids. rewrite Hp. apply (Hst x). left.
Qed.

Lemma by_id_perm ops ops' id : NoDup (ids ops) -> ops ≡ₚ ops' -> by_id ops id = by_id ops' id.
Proof.
  intros Hnd Hp. assert (NoDup (ids ops')) as Hnd' by (unfold ids in *; by rewrite <- Hp).
  apply option_eq. intros o. rewrite !find_by_id_Some by done. by rewrite Hp.
Qed.

Lemma ready_ids_perm r r' done : r ≡ₚ r' -> ready_ids r done = ready_ids r' done.
Proof. intros Hp. unfold ready_ids, ids. apply py_sorted_proper; try apply _. by rewrite Hp. Qed.

Lemma order_loop_perm fuel ops ops' r r' dn emitted :
  NoDup (ids ops) -> ops ≡ₚ ops' -> r ≡ₚ r' ->
  order_loop fuel ops r dn emitted = order_loop fuel ops' r' dn emitted.
Proof.
  intros Hnd Hops. revert r r' dn emitted. induction fuel as [|fuel IH]; intros r r' dn emitted Hr;
    [done|]. cbn [order_loop].
  rewrite (ready_ids_perm _ _ dn Hr).
  assert (omap (by_id ops) (ready_ids r' dn) = omap (by_id ops') (ready_ids r' dn)) as ->.
  { apply list_omap_ext. apply Forall2_same_length_lookup_2; [done|].
    intros i x y Hx Hy. simplify_eq. by apply by_id_perm. }
  assert (py_sorted String.leb (ids r) = py_sorted String.leb (ids r')) as ->.
  { unfold ids. apply py_sorted_proper; try apply _. by rewrite Hr. }
  destruct r as [|o r]; [apply Permutation_nil_l in Hr; by subst|].
  destruct r' as [|o' r']; [by apply Permutation_nil_r in Hr|].
  destruct (ready_ids (o' :: r') dn); [done|]. apply IH. by rewrite Hr.
Qed.

(** ** Lemmas: descendants *)

(** What a descendant set is built from. *)
Definition pulled (id : string) (D : list string) (o : OperationSpec) : Prop :=
  id ∈ dependencies o \/ exists d, d ∈ dependencies o /\ d ∈ D.

Lemma desc_step_spec id D ch o D' ch' :
  desc_step id (D, ch) o = (D', ch') ->
  (D' = D /\ ch' = ch /\ (pulled id D o -> op_id o ∈ D)) \/
  (D' = op_id o :: D /\ ch' = true /\ op_id o ∉ D /\ pulled id D o).
Proof.
  unfold desc_step. destruct (str_in (op_id o) D) eqn:Ein.
  - apply str_in_true in Ein. intros [= <- <-]. left. by split_and!.
  - apply not_true_iff_false in Ein. rewrite str_in_true in Ein.
    destruct (str_in id (dependencies o) || existsb (fun d => str_in d D) (dependencies o)) eqn:Ep.
    + intros [= <- <-]. right. split_and!; try done. unfold pulled.
      apply orb_true_iff in Ep as [Ep|Ep]; [left; by apply str_in_true|right].
      apply existsb_true in Ep as (d & Hd & Hin). exists d. by apply str_in_true in Hin.
    + intros [= <- <-]. left. split_and!; try done. apply orb_false_iff in Ep as [E1 E2].
      intros [Hp|(d & Hd & Hin)]; exfalso.
      * apply not_true_iff_false in E1. by rewrite str_in_true in E1.
      * rewrite existsb_false in E2. specialize (E2 d Hd). apply not_true_iff_false in E2.
        by rewrite str_in_true in E2.
Qed.

Lemma desc_fold_spec id ops D ch D' ch' :
  fold_left (desc_step id) ops (D, ch) = (D', ch') ->
  (forall x, x ∈ D -> x ∈ D') /\ (NoDup D -> NoDup D') /\
  (forall P : string -> Prop, (forall x, x ∈ D -> P x) ->
     (forall o, o ∈ ops -> (forall E, (forall x, x ∈ E -> P x) -> pulled id E o -> P (op_id o))) ->
     forall x, x ∈ D' -> P x) /\
  length D <= length D' /\
  (ch' = true -> ch = true \/ length D < length D') /\
  (ch' = false -> D' = D /\ forall o, o ∈ ops -> pulled id D o -> op_id o ∈ D).
Proof.
  revert D ch. induction ops as [|o ops IH]; intros D ch.
  - intros [= <- <-]. split_and!; try done; try lia; [by left|].
    intros _. split; [done|]. by intros o ?%elem_of_nil.
  - cbn [fold_left]. destruct (desc_step id (D, ch) o) as [D1 ch1] eqn:E. intros H.
    destruct (IH D1 ch1 H) as (Hsub & Hnd & HP & Hlen & Ht & Hf).
    destruct (desc_step_spec id D ch o D1 ch1 E) as [(-> & -> & Hc)|(-> & -> & Hn & Hp)].
    + split_and!; try done.
      * intros P HD Hall. apply HP; [done|]. intros o' Ho'. apply Hall. by right.
      * intros Hff. destruct (Hf Hff) as [-> Hcl]. split; [done|].
        intros o' [->|Ho']%elem_of_cons; [done|by apply Hcl].
    + simpl in Hlen. split_and!.
      * intros x Hx. apply Hsub. by right.
      * intros HD. apply Hnd. by constructor.
      * intros P HD Hall. apply HP.
        -- intros x [->|Hx]%elem_of_cons; [|by apply HD]. refine (Hall o _ D HD Hp). left.
        -- intros o' Ho'. apply Hall. by right.
      * lia.
      * intros _. right. lia.
      * intros Hff. destruct (Hf Hff) as [-> _]. simpl in *.
        assert (ch' = true) as ->; [|done]. clear -H.
        assert (forall l acc, acc.2 = true -> (fold_left (desc_step id) l acc).2 = true) as Hmono.
        { induction l as [|a l IH]; intros [D0 c] Hc; [done|]. simpl in Hc. subst c. cbn [fold_left].
          apply IH. unfold desc_step. destruct (str_in _ _); [done|]. by destruct (_ || _). }
        specialize (Hmono ops (op_id o :: D, true) eq_refl). by rewrite H in Hmono.
Qed.

Lemma desc_loop_spec fuel id ops D :
  NoDup (ids ops) -> NoDup D -> (forall x, x ∈ D -> tc (dep ops) x id) ->
  length ops < fuel + length D ->
  let R := desc_loop fuel id ops D in
  NoDup R /\ (forall x, x ∈ R -> tc (dep ops) x id) /\
  (forall o, o ∈ ops -> pulled id R o -> op_id o ∈ R).
Proof.
  intros Hnd. revert D. induction fuel as [|fuel IH]; intros D HD Htc Hlen.
  - exfalso. assert (forall x, x ∈ D -> x ∈ ids ops) as Hsub.
    { intros x Hx. apply Htc in Hx. destruct Hx as [x y (o & ? & ? & _)|x y z (o & ? & ? & _) _];
        apply elem_of_ids; eauto. }
    apply (NoDup_submseteq _ _ HD) in Hsub. apply submseteq_length in Hsub.
    unfold ids in Hsub. rewrite length_map in Hsub. lia.
  - cbn [desc_loop]. destruct (desc_pass id ops D) as [D' ch] eqn:E. unfold desc_pass in E.
    destruct (desc_fold_spec id ops D false D' ch E) as (Hsub & Hnd' & HP & Hle & Ht & Hf).
    assert (forall x, x ∈ D' -> tc (dep ops) x id) as Htc'.
    { apply HP; [done|]. intros o Ho F HF [Hp|(d & Hd & Hin)].
      - apply tc_once. by exists o.
      - eapply tc_l; [|by apply HF]. by exists o. }
    destruct ch.
    + apply IH; [by apply Hnd'|done|]. destruct (Ht eq_refl); [done|lia].
    + destruct (Hf eq_refl) as [-> Hcl]. split_and!; [done|done|done].
Qed.

(** ** Theorems *)

(** C24 The order of a graph with distinct operation names and known
    dependencies is a permutation of its operations in which every dependency
    comes first; the order fails exactly when some operations wait for each
    other in a circle. *)
Theorem topological_order_spec g :
  graph_wf g ->
  (forall order, topological_order g = Ok order ->
     order ≡ₚ operations g /\
     forall pre o post, order = pre ++ o :: post -> forall d, d ∈ dependencies o -> d ∈ ids pre) /\
  (is_ok (topological_order g) = false <-> exists stuck, deadlock (operations g) stuck).
Proof.
  intros Hwf. destruct (topological_order_cases g Hwf)
    as [(order & Ho & Hp & Hord)|(e & stuck & He & Hd)]; rewrite ?Ho, ?He; simpl.
  - split; [by intros order' [= <-]|]. split; [done|]. intros [stuck Hd].
    exfalso. eapply (ordered_no_deadlock (operations g) order stuck Hp); [apply Hwf|done|done].
  - split; [done|]. split; [|done]. by exists stuck.
Qed.

(** The order does not depend on the order the operations were given in:
    it is the same, or the same error, for every permutation of them. *)
Theorem topological_order_stable g ops' :
  new_graph g = Ok g -> operations g ≡ₚ ops' ->
  topological_order g = topological_order (mkGraph ops').
Proof.
  intros (_ & Hwf & _)%new_graph_wf Hp. unfold topological_order. cbn [operations].
  rewrite (Permutation_length Hp). apply order_loop_perm; [apply Hwf|done|done].
Qed.

(** The descendants of an operation are exactly the operations that
    depend on it directly or through others, each once and in order; the loop
    that collects them ends. *)
Theorem descendants_spec g id :
  new_graph g = Ok g -> id ∈ ids (operations g) ->
  exists l, descendants g id = Ok l /\ NoDup l /\ StronglySorted (leb_rel String.leb) l /\
    forall x, x ∈ l <-> tc (dep (operations g)) x id.
Proof.
  intros (_ & Hwf & _)%new_graph_wf Hid. unfold descendants.
  rewrite (proj2 (str_in_true _ _) Hid). cbn [negb].
  destruct (desc_loop_spec (S (length (operations g))) id (operations g) []) as (Hnd & Hs & Hc);
    [apply Hwf | constructor | by intros x ?%elem_of_nil | simpl; lia |].
  eexists. split; [done|]. split; [by apply NoDup_py_sorted|].
  split; [apply py_sorted_StronglySorted, _|]. intros x. rewrite elem_of_py_sorted.
  split; [apply Hs|]. intros Htc. induction Htc as [x y (o & Ho & <- & Hy)|x y z (o & Ho & <- & Hy) _ IH].
  - apply Hc; [done|]. by left.
  - apply Hc; [done|]. right. exists y. split; [done|by apply IH].
Qed.

(** What is ready are exactly the operations not yet succeeded all of
    whose dependencies have; and scheduling cannot get stuck: unless every
    operation has succeeded, something is ready. *)
Theorem ready_spec g succeeded :
  new_graph g = Ok g -> (forall x, x ∈ succeeded -> x ∈ ids (operations g)) ->
  exists l, ready g succeeded = Ok l /\
    (forall o, o ∈ l <-> o ∈ operations g /\ op_id o ∉ succeeded /\
       forall d, d ∈ dependencies o -> d ∈ succeeded) /\
    (forall o, o ∈ operations g -> op_id o ∉ succeeded -> l <> []).
Proof.
  intros (_ & Hwf & Hok)%new_graph_wf Hs. unfold ready.
  assert (sorted_set (List.filter (fun x => negb (str_in x (ids (operations g)))) succeeded) = []) as ->.
  { rewrite (proj2 (filterb_nil _ _)); [done|]. intros x Hx. apply negb_false_iff, str_in_true. by apply Hs. }
  rewrite bool_decide_eq_false_2 by (by intros []).
  destruct (topological_order_cases g Hwf) as [(order & Ho & Hp & Hord)|(e & stuck & He & _)];
    [|by rewrite He in Hok]. rewrite Ho. cbn [mbind result_bind].
  assert (forall o, negb (str_in (op_id o) succeeded) && subset (dependencies o) succeeded = true
    <-> op_id o ∉ succeeded /\ forall d, d ∈ dependencies o -> d ∈ succeeded) as Hb.
  { intros o. rewrite andb_true_iff, negb_true_iff, <- not_true_iff_false, str_in_true, subset_true.
    done. }
  eexists. split; [reflexivity|]. split.
  - intros o. rewrite elem_of_filterb, Hb, Hp. done.
  - intros o Hin Hns E. rewrite filterb_nil in E.
    assert (forall pre, (exists post, order = pre ++ post) -> forall x, x ∈ ids pre -> x ∈ succeeded) as Hpre.
    { induction pre as [|o' pre IH] using rev_ind; intros [post Epre] x; [by intros ?%elem_of_nil|].
      assert (forall y, y ∈ ids pre -> y ∈ succeeded) as IH'.
      { apply IH. exists (o' :: post). by rewrite Epre, <- app_assoc. }
      rewrite ids_app, elem_of_app. intros [Hx|Hx]; [by apply IH'|].
      apply list_elem_of_singleton in Hx as ->.
      assert (o' ∈ order) as Ho' by (rewrite Epre, <- app_assoc, elem_of_app; right; left).
      specialize (E o' Ho'). apply not_true_iff_false in E. rewrite Hb in E.
      destruct (decide (op_id o' ∈ succeeded)); [done|]. exfalso. apply E. split; [done|].
      intros d Hd. apply IH'. apply (Hord pre o' post); [by rewrite Epre, <- app_assoc|done]. }
    assert (exists post, order = order ++ post) as Hpost by (exists []; by rewrite app_nil_r).
    apply Hns, (Hpre order Hpost).
    rewrite Hp. apply elem_of_ids. eauto.
Qed.

Definition validation_stages (lane : bool) : list string :=
  ["prepare"; "correctness-activation"; "timed-performance"; "reference-ladder"]
  ++ (if lane then ["production-lane"] else []) ++ ["evidence-finalize"; "harvest"; "report"].

(** The validation graph is built for every sensible resource request;
    its order is the fixed sequence of stages with the production lane in its
    place when asked for, every stage carries the frozen request, and exactly
    the stages between preparation and finalisation ask for the GPUs. *)
Theorem compile_validation_graph_spec arch n request lane cpu tb tm :
  new_scheduler_gpu (mkSchedulerGpuRequest arch n) = Ok (mkSchedulerGpuRequest arch n) ->
  (1 <= cpu)%Z -> (1 <= tb)%Z -> (1 <= tm)%Z ->
  exists g order, compile_validation_graph arch n request lane cpu tb tm = Ok g /\
    topological_order g = Ok order /\ ids order = validation_stages lane /\
    (forall o, o ∈ order ->
       command_semantics o = [("stage", JStr (op_id o)); ("request", JObj request)] /\
       rr_gpu (op_resources o)
       = (if str_in (op_id o) ["prepare"; "evidence-finalize"; "harvest"; "report"] then None
          else Some (mkSchedulerGpuRequest arch n))).
Proof.
  intros Hg Hcpu Htb Htm. unfold compile_validation_graph. rewrite Hg.
  assert (1 <= n)%Z as Hn.
  { unfold new_scheduler_gpu in Hg. inv_ok. simpl in *. by apply Z.leb_le. }
  rewrite (proj2 (Z.ltb_ge n 1)) by done. cbn [mbind result_bind].
  unfold make_operation, new_resources. cbn [rr_cpu_slots rr_memory_bytes rr_timeout_seconds
    rr_activity_class rr_gpu].
  rewrite (proj2 (Z.leb_le 1 cpu)), (proj2 (Z.leb_le 1 tb)), (proj2 (Z.leb_le 1 tm)) by done.
  clear. destruct lane; eexists _, _; (split; [vm_compute; reflexivity|]);
    (split; [vm_compute; reflexivity|]); (split; [vm_compute; reflexivity|]);
    apply Forall_forall; repeat (constructor; [vm_compute; by split|]); constructor.
Qed.

(** ** Concrete values *)

Definition demo_op (id : string) (deps : list string) : OperationSpec :=
  mkOperationSpec id "k" [] [] demo_resources deps [].

Definition demo_graph : CampaignGraph :=
  mkGraph [demo_op "c" ["a"; "b"]; demo_op "b" ["a"]; demo_op "d" ["b"]; demo_op "a" []].

Lemma demo_graph_ok : new_graph demo_graph = Ok demo_graph.
Proof. vm_compute. reflexivity. Defined.

Example demo_order : ids <$> topological_order demo_graph = Ok ["a"; "b"; "c"; "d"].
Proof. vm_compute. reflexivity. Qed.

Example demo_cycle :
  new_graph (mkGraph [demo_op "a" ["b"]; demo_op "b" ["a"]])
  = Err (CampaignGraphError "campaign operation dependency cycle among: a, b").
Proof. vm_compute. reflexivity. Qed.

Lemma demo_graph_wf : graph_wf demo_graph.
Proof. apply (new_graph_wf demo_graph demo_graph demo_graph_ok). Defined.

Lemma topological_order_spec_witness :
  exists order, topological_order demo_graph = Ok order /\ order ≡ₚ operations demo_graph.
Proof.
  destruct (topological_order demo_graph) as [order|] eqn:E;
    [|exfalso; vm_compute in E; discriminate E].
  exists order. split; [reflexivity|].
  exact (proj1 (proj1 (topological_order_spec demo_graph demo_graph_wf) order E)).
Defined.

Lemma topological_order_stable_witness :
  topological_order demo_graph = topological_order (mkGraph (rev (operations demo_graph))).
Proof.
  apply (topological_order_stable demo_graph _ demo_graph_ok). apply Permutation_rev.
Defined.

Lemma descendants_spec_witness :
  descendants demo_graph "a" = Ok ["b"; "c"; "d"] /\
  exists l, descendants demo_graph "a" = Ok l /\ NoDup l.
Proof.
  split; [vm_compute; reflexivity|].
  destruct (descendants_spec demo_graph "a" demo_graph_ok
    (proj1 (str_in_true "a" (ids (operations demo_graph))) eq_refl))
    as (l & Hl & Hn & _). by exists l.
Defined.

Lemma ready_spec_witness :
  (ids <$> ready demo_graph ["a"]) = Ok ["b"] /\ exists l, ready demo_graph ["a"] = Ok l.
Proof.
  split; [vm_compute; reflexivity|].
  destruct (ready_spec demo_graph ["a"] demo_graph_ok) as (l & Hl & _); [|by exists l].
  intros x ->%list_elem_of_singleton. exact (proj1 (str_in_true "a" (ids (operations demo_graph))) eq_refl).
Defined.

Lemma compile_validation_graph_spec_witness :
  exists g order, compile_validation_graph "gfx1100" 2 [] true 4 60 60 = Ok g /\
    topological_order g = Ok order /\ ids order = validation_stages true.
Proof.
  destruct (compile_validation_graph_spec "gfx1100" 2 [] true 4 60 60 eq_refl ltac:(done)
    ltac:(done) ltac:(done)) as (g & order & H1 & H2 & H3 & _).
  exists g, order. exact (conj H1 (conj H2 H3)).
Defined.

End Graph.
