(* ===== verification/Journal.v ===== *)
(** The tuning journal: [src/tools/bigcherry/tuning/journal.py].

    A journal file is the bytes that are on storage and those still buffered;
    a crash keeps the first and any front of the second.  [read_current] reads
    the bytes, [compact] selects one record per dispatch. *)

From S2P Require Import Prelude Json Lines.
Import Json Lines.

Module Journal.

Definition JournalError (msg : string) : exn := Exn "JournalError" msg.

Definition SCHEMA_VERSION : Z := 1.
Definition MODES : list string := ["buffered"; "batch"; "durable_each"].

Definition event := list (string * json).

(** [str(event.get(key))] *)
Definition show_get (e : event) (k : string) : string :=
  match jget e k with Some v => jstr v | None => "None" end.

(** A value in a set: lists and dictionaries are not hashable. *)
Definition hashable (v : option json) : res unit :=
  match v with
  | Some (JArr _) => Err (TypeError "unhashable type: 'list'")
  | Some (JObj _) => Err (TypeError "unhashable type: 'dict'")
  | _ => Ok tt
  end.

Section Journal.
(** [hashlib.blake2b] with 16 bytes and a person tag, and the text of a JSON
    decoding error. *)
Context (blake16 : string -> string -> string) (decode_error : string -> string).

Definition checksum (e : event) : res string :=
  data ← canonical_bytes (JObj e); Ok (blake16 "bc-journal-v1" data).

Definition checked_event (e : event) : res event :=
  sum ← checksum e; Ok (dict_set e "checksum" (JStr sum)).

(** ** The writer *)

Record Writer : Type := mkWriter {
  synced : string;          (**r bytes on storage *)
  buffered : string;        (**r bytes written and not yet synced *)
  experiment_id : string;
  durability_mode : string;
  batch_size : Z;
  storage_kind : string;
  sequence : Z;
  unflushed : Z;
  closed : bool;
}.

Definition set_sequence (w : Writer) (n : Z) : Writer :=
  mkWriter (synced w) (buffered w) (experiment_id w) (durability_mode w) (batch_size w)
    (storage_kind w) n (unflushed w) (closed w).

Definition write (w : Writer) (data : string) : Writer :=
  mkWriter (synced w) (buffered w +:+ data) (experiment_id w) (durability_mode w) (batch_size w)
    (storage_kind w) (sequence w) (unflushed w + 1)%Z (closed w).

(** [acknowledge]: flush and fsync. *)
Definition sync (w : Writer) : Writer :=
  mkWriter (synced w +:+ buffered w) "" (experiment_id w) (durability_mode w) (batch_size w)
    (storage_kind w) (sequence w) 0 (closed w).

Definition set_closed (w : Writer) : Writer :=
  mkWriter (synced w) (buffered w) (experiment_id w) (durability_mode w) (batch_size w)
    (storage_kind w) (sequence w) (unflushed w) true.

Definition acknowledge : stm Writer Z := _ ← modify sync; gets sequence.

Definition event_fields (experiment : string) (n : Z) (kind : string) (payload : json) : event :=
  [("schema_version", JInt SCHEMA_VERSION); ("experiment_id", JStr experiment);
   ("sequence", JInt n); ("kind", JStr kind); ("payload", payload)].

Definition append (kind : string) (payload : json) : stm Writer Z :=
  w ← get;
  if closed w then raise (JournalError "journal is closed")
  else
    let n := (sequence w + 1)%Z in
    _ ← modify (fun w => set_sequence w n);
    e ← lift (checked_event (event_fields (experiment_id w) n kind payload));
    data ← lift (canonical_bytes (JObj e));
    _ ← modify (fun w => write w (data +:+ newline));
    w' ← get;
    _ ← (if String.eqb (durability_mode w') "durable_each"
            || (String.eqb (durability_mode w') "batch" && (batch_size w' <=? unflushed w')%Z)
         then _ ← acknowledge; mret tt else mret tt);
    gets sequence.

(** [JournalWriter.__init__]: [exists_] says that the file exists. *)
Definition new_writer (exists_ : bool) (experiment revision manifest hardware mode : string)
    (batch : Z) (storage : string) : res Writer * Writer :=
  let w0 := mkWriter "" "" experiment mode batch storage 0 0 false in
  if negb (str_in mode MODES) then
    (Err (JournalError ("unknown durability_mode " +:+ py_repr mode)), w0)
  else if exists_ then (Err (Exn "FileExistsError" "File exists"), w0)
  else
    let '(r, w) := append "start" (JObj
      [("batch_size", JInt batch); ("durability_mode", JStr mode);
       ("hardware_digest", JStr hardware); ("manifest_hash", JStr manifest);
       ("source_revision", JStr revision); ("storage_kind", JStr storage);
       ("durability_scope",
         JStr (if String.eqb mode "buffered" then "process"
               else if String.eqb storage "network" then "os_cache" else "storage_claimed"))]) w0 in
    (_ ← r; Ok w, w).

Definition write_result (record : event) : stm Writer Z :=
  if negb (is_str (jget record "kind") "result")
     || negb (match jget record "dispatch" with Some v => jtruthy v | None => false end)
  then raise (JournalError "journal result must be a current measurements result")
  else append "result" (JObj record).

Definition complete (summary : event) : stm Writer unit :=
  _ ← append "complete" (JObj summary); _ ← acknowledge; modify set_closed.

Definition interrupt (reason : string) : stm Writer unit :=
  _ ← append "interrupted" (JObj [("reason", JStr reason)]); _ ← acknowledge; modify set_closed.

(** What a crash leaves of the file: [n] of the buffered bytes made it. *)
Definition crash_image (w : Writer) (n : nat) : string := synced w +:+ str_take n (buffered w).

(** ** The reader *)

(** The loop of [read_current]: the events and, when it stopped at a damaged
    last line, what was wrong with it. *)
Fixpoint read_lines (recover_tail : bool) (lines : list string) (index : nat) (expected : Z) :
    res (list event * option string) :=
  match lines with
  | [] => Ok ([], None)
  | raw_line :: rest =>
      let is_last := match rest with [] => true | _ => false end in
      let raw := rstrip_eol raw_line in
      if String.eqb raw "" then read_lines recover_tail rest (S index) expected
      else if negb (ends_eol raw_line) && is_last && recover_tail then
        Ok ([], Some ("truncated record at sequence " +:+ show_Z expected))
      else
        match loads raw with
        | None =>
            if recover_tail && is_last then
              Ok ([], Some ("malformed tail at sequence " +:+ show_Z expected +:+ ": "
                              +:+ decode_error raw))
            else Err (JournalError ("journal line " +:+ show_nat (S index) +:+ " is malformed"))
        | Some (JObj e) =>
            if negb (is_int (jget e "schema_version") SCHEMA_VERSION) then
              Err (JournalError "rerun_or_external_conversion_required: journal schema")
            else
              let body := jremove e "checksum" in
              sum ← checksum body;
              if negb (is_str (jget e "checksum") sum) then
                if recover_tail && is_last then
                  Ok ([], Some ("checksum mismatch at sequence " +:+ show_get body "sequence"))
                else Err (JournalError ("journal checksum mismatch at sequence "
                            +:+ show_get body "sequence"))
              else if negb (is_int (jget body "sequence") expected) then
                Err (JournalError ("journal sequence gap/duplicate: expected "
                       +:+ show_Z expected +:+ ", got " +:+ show_get body "sequence"))
              else
                '(events, corruption) ←
                  read_lines recover_tail rest (S index) (expected + 1)%Z;
                Ok ((body ++ [("checksum", JStr sum)]) :: events, corruption)
        | Some v => Err (no_get v)
        end
  end.

Record JournalView : Type := mkView {
  jv_experiment_id : json;
  jv_events : list event;
  jv_last_durable_sequence : nat;
  jv_corrupt_tail : bool;
  jv_corruption : option string;
  jv_complete : bool;
  jv_interrupted : bool;
  jv_last_attempt : option json;
  jv_can_compact : bool;
}.

(** [{event.get("experiment_id") for event in events}] has one element. *)
Definition one_experiment (first : event) (events : list event) : bool :=
  forallb (fun e => bool_decide (option_map dumps (jget e "experiment_id")
                                 = option_map dumps (jget first "experiment_id"))) events.

Definition last_attempt (last : event) : option json :=
  if is_str (jget last "kind") "attempt" then
    match jget last "payload" with
    | Some (JStr s) =>
        match loads s with
        | Some v => Some v
        | None => Some (JObj [("raw", JStr s)])
        end
    | p => p
    end
  else None.

Definition read_current (data : string) (recover_tail : bool) : res JournalView :=
  '(events, corruption) ← read_lines recover_tail (splitlines data) 0 1;
  let corrupt_tail := bool_decide (corruption <> None) in
  match events, last events with
  | first :: _, Some final =>
      if negb (is_str (jget first "kind") "start") then
        Err (JournalError "current journal start event missing")
      else
        _ ← mapR (fun e => hashable (jget e "experiment_id")) events;
        if negb (one_experiment first events) then
          Err (JournalError "journal mixes experiment identities")
        else
          let terminal := jget final "kind" in
          let attempt := last_attempt final in
          experiment ← item first "experiment_id";
          _ ← hashable terminal;
          Ok (mkView experiment events (length events) corrupt_tail corruption
                (is_str terminal "complete" && negb corrupt_tail)
                (is_str terminal "interrupted" || corrupt_tail)
                attempt
                (existsb (is_str terminal) ["complete"; "interrupted"; "result"; "start"; "attempt"]))
  | _, _ => Err (JournalError "current journal start event missing")
  end.

(** ** Compaction *)

(** [winner.endswith(":native:v1")] *)
Definition endswith (s suffix : string) : bool :=
  String.eqb (str_drop (String.length s - String.length suffix) s) suffix
  && (String.length suffix <=? String.length s)%nat.

(** The record of a result event: parsed when it is text, with the native
    outcome spelled out when it was left out. *)
Definition result_record (e : event) : res event :=
  payload ← item e "payload";
  v ← (match payload with
       | JStr s => of_option (JournalError ("result payload at sequence " +:+ show_get e "sequence"
                                +:+ " is not valid JSON")) (loads s)
       | v => Ok v
       end);
  match v with
  | JObj record =>
      Ok (match jget record "winner" with
          | Some (JStr winner) =>
              if endswith winner ":native:v1" && negb (has_key record "native")
                 && negb (has_key record "promotion_status")
              then dict_set (dict_set record "native" (JStr winner))
                     "promotion_status" (JStr "native")
              else record
          | _ => record
          end)
  | v => Err (no_get v)
  end.

(** What competes for a dispatch: its generation, sequence and record. *)
Record candidate : Type := mkCandidate {
  c_dispatch : string; c_generation : Z; c_sequence : Z; c_record : event }.

(** [(generation, sequence)], compared as tuples. *)
Definition rank_ltb (a b : candidate) : bool :=
  (c_generation a <? c_generation b)%Z
  || ((c_generation a =? c_generation b)%Z && (c_sequence a <? c_sequence b)%Z).

Definition candidate_of (e : event) : res candidate :=
  record ← result_record e;
  match jget record "dispatch" with
  | Some (JStr dispatch) =>
      generation ← json_int (get_or record "generation" (JInt 1));
      seq_no ← item_int e "sequence";
      Ok (mkCandidate dispatch generation seq_no record)
  | _ => Err (JournalError "result event lacks dispatch identity")
  end.

(** [selected[dispatch] = ...] when the candidate outranks the current one. *)
Definition offer (selected : list (string * candidate)) (c : candidate) :
    list (string * candidate) :=
  match jget selected (c_dispatch c) with
  | Some current => if rank_ltb current c then dict_set selected (c_dispatch c) c else selected
  | None => dict_set selected (c_dispatch c) c
  end.

Definition select_results (events : list event) : res (list (string * candidate)) :=
  foldR (fun selected e =>
      kind ← item e "kind";
      if negb (is_str (Some kind) "result") then Ok selected
      else c ← candidate_of e; Ok (offer selected c))
    events [].

(** The header with the provenance of the start event filled in. *)
Definition compacted_header (header : event) (start_payload : option json) : event :=
  match start_payload with
  | Some (JObj p) =>
      fold_left (fun h field =>
        if negb (has_key h field) then
          match jget p field with Some v => dict_set h field v | None => h end
        else h) ["source_revision"; "manifest_hash"; "hardware_digest"] header
  | _ => header
  end.

(** [compact]: the bytes written to the output, and the number of dispatches. *)
Definition compact (data : string) (header : event) : res (string * nat) :=
  journal ← read_current data true;
  if negb (is_str (jget header "kind") "header") then
    Err (JournalError "compaction requires a current measurements header")
  else
    let start_payload := match jv_events journal with e :: _ => jget e "payload" | [] => None end in
    let header' := compacted_header header start_payload in
    selected ← select_results (jv_events journal);
    first ← canonical_bytes (JObj header');
    rows ← mapR (fun kv => canonical_bytes (JObj (c_record kv.2)))
             (py_sorted by_key selected);
    Ok (String.concat newline (first :: rows) +:+ newline, length selected).

(** ** Lemmas: what the writer writes is what the reader accepts *)

(** An event as it is written. *)
Definition signed (e : event) : event :=
  e ++ [("checksum", JStr (blake16 "bc-journal-v1" (dumps (JObj e))))].

Definition event_doc (experiment : string) (n : Z) (kind : string) (payload : json) : json :=
  JObj (signed (event_fields experiment n kind payload)).

Lemma checksum_fields experiment n kind payload :
  checksum (event_fields experiment n kind payload)
  = if jfinite payload
    then Ok (blake16 "bc-journal-v1" (dumps (JObj (event_fields experiment n kind payload))))
    else Err (ValueError "Out of range float values are not JSON compliant").
Proof.
  unfold checksum, canonical_bytes. cbn [jfinite event_fields forallb snd existsb].
  rewrite andb_true_r. by destruct (jfinite payload).
Qed.

Lemma append_open w kind payload :
  closed w = false -> jfinite payload = true ->
  exists w', append kind payload w = (Ok (sequence w + 1)%Z, w') /\
    synced w' +:+ buffered w'
      = synced w +:+ buffered w
        +:+ line_of (event_doc (experiment_id w) (sequence w + 1)%Z kind payload) /\
    (synced w' = synced w \/ buffered w' = "") /\
    (durability_mode w = "durable_each" -> buffered w' = "") /\
    sequence w' = (sequence w + 1)%Z /\ experiment_id w' = experiment_id w /\
    durability_mode w' = durability_mode w /\ batch_size w' = batch_size w /\ closed w' = false.
Proof.
  intros Hc Hf. unfold append, get, modify, lift, gets, mbind, stm_bind, mret, stm_ret, acknowledge.
  rewrite Hc. unfold checked_event. rewrite checksum_fields, Hf. cbn [mbind result_bind].
  assert (canonical_bytes (JObj (dict_set (event_fields (experiment_id w) (sequence w + 1)%Z kind payload)
      "checksum" (JStr (blake16 "bc-journal-v1"
        (dumps (JObj (event_fields (experiment_id w) (sequence w + 1)%Z kind payload)))))))
    = Ok (dumps (event_doc (experiment_id w) (sequence w + 1)%Z kind payload))) as ->.
  { unfold canonical_bytes. cbn [dict_set event_fields String.eqb Ascii.eqb Bool.eqb jfinite forallb snd].
    rewrite Hf. cbn [andb]. reflexivity. }
  cbn [set_sequence write durability_mode batch_size unflushed].
  set (line := dumps _ +:+ newline).
  destruct (_ || _) eqn:Em; eexists; (split; [reflexivity|]); simpl.
  - split_and!; try done; [by rewrite !str_app_nil_r | by right].
  - split_and!; try done; [by left|]. intros E. by rewrite E in Em.
Qed.

Lemma append_not_finite w kind payload :
  closed w = false -> jfinite payload = false ->
  append kind payload w
  = (Err (ValueError "Out of range float values are not JSON compliant"),
     set_sequence w (sequence w + 1)%Z).
Proof.
  intros Hc Hf. unfold append, get, modify, lift, mbind, stm_bind. rewrite Hc.
  unfold checked_event. by rewrite checksum_fields, Hf.
Qed.

(** The documents a writer has written; the first [acked] are on storage. *)
Record writer_ok (w : Writer) (docs : list json) (acked : nat) : Prop := {
  wo_text : synced w +:+ buffered w = text_of docs;
  wo_synced : synced w = text_of (take acked docs);
  wo_acked : acked <= length docs;
  wo_durable : durability_mode w = "durable_each" -> acked = length docs;
  wo_docs i d : docs !! i = Some d -> exists kind payload, jwf payload /\
    d = event_doc (experiment_id w) (Z.of_nat i + 1)%Z kind payload /\ (i = 0 -> kind = "start");
  wo_sequence : sequence w = Z.of_nat (length docs);
}.

Lemma text_of_snoc docs d : text_of (docs ++ [d]) = text_of docs +:+ line_of d.
Proof. rewrite text_of_app. unfold text_of, line_of. simpl. done. Qed.

Lemma str_app_eq_nil (s : string) : s = s +:+ "" .
Proof. by rewrite str_app_nil_r. Qed.

Lemma append_ok w docs acked kind payload r w' :
  writer_ok w docs acked -> jwf payload -> (docs = [] -> kind = "start") ->
  append kind payload w = (r, w') ->
  exists docs' acked', writer_ok w' docs' acked' /\ docs `prefix_of` docs' /\ acked <= acked' /\
    (closed w = false -> docs' <> []).
Proof.
  intros Hw Hp Hk H. destruct (closed w) eqn:Hc.
  { unfold append, get, mbind, stm_bind in H. rewrite Hc in H. injection H as _ <-. by exists docs, acked. }
  destruct (append_open w kind payload Hc (jwf_finite _ Hp))
    as (w1 & H1 & Htext & Hsync & Hdur & Hseq & Hexp & Hmode & _ & _).
  rewrite H1 in H. injection H as _ <-.
  set (d := event_doc (experiment_id w) (sequence w + 1)%Z kind payload) in *.
  assert (synced w1 +:+ buffered w1 = text_of (docs ++ [d])) as Ht.
  { rewrite text_of_snoc, <- (wo_text _ _ _ Hw), str_app_assoc. exact Htext. }
  assert (forall i e, (docs ++ [d]) !! i = Some e -> exists k p, jwf p /\
    e = event_doc (experiment_id w1) (Z.of_nat i + 1)%Z k p /\ (i = 0 -> k = "start")) as Hdocs.
  { intros i e. rewrite Hexp. destruct (decide (i < length docs)) as [Hlt|Hge].
    - rewrite lookup_app_l by done. apply (wo_docs _ _ _ Hw).
    - rewrite lookup_app_r by lia. intros Hi. destruct (i - length docs) as [|j] eqn:E; [|done].
      injection Hi as <-. exists kind, payload. split_and!; [done| |].
      + unfold d. rewrite (wo_sequence _ _ _ Hw). f_equal. lia.
      + intros ->. apply Hk. destruct docs; [done|simpl in *; lia]. }
  destruct Hsync as [Hs|Hs].
  - exists (docs ++ [d]), acked. pose proof (wo_acked _ _ _ Hw). split; [|split_and!; [by apply prefix_app_r|done|by destruct docs]].
    split; rewrite ?length_app; simpl; [done| |lia| |done|].
    + rewrite Hs, take_app_le by done. apply (wo_synced _ _ _ Hw).
    + rewrite Hmode. intros E. specialize (Hdur E). rewrite Hdur, str_app_nil_r, Hs in Ht.
      rewrite (wo_synced _ _ _ Hw), (wo_durable _ _ _ Hw E), take_ge in Ht by lia.
      rewrite text_of_snoc in Ht. apply (f_equal String.length) in Ht.
      unfold line_of in Ht. rewrite !str_length_app in Ht. simpl in Ht. lia.
    + rewrite Hseq, (wo_sequence _ _ _ Hw). lia.
  - exists (docs ++ [d]), (length (docs ++ [d])). pose proof (wo_acked _ _ _ Hw).
    split; [|split_and!; [by apply prefix_app_r|rewrite length_app; lia|by destruct docs]].
    split; [done| |done|done|done|].
    + rewrite take_ge by lia. by rewrite Hs, str_app_nil_r in Ht.
    + rewrite Hseq, (wo_sequence _ _ _ Hw), length_app. simpl. lia.
Qed.

Lemma sync_ok w docs acked : writer_ok w docs acked -> writer_ok (sync w) docs (length docs).
Proof.
  intros [Ht Hs Ha Hd Hdocs Hseq]. split; simpl; try done.
  - by rewrite str_app_nil_r.
  - by rewrite take_ge by lia.
Qed.

Lemma set_closed_ok w docs acked : writer_ok w docs acked -> writer_ok (set_closed w) docs acked.
Proof. intros [Ht Hs Ha Hd Hdocs Hseq]. by split. Qed.

(** Lines of events numbered from [n] are read as those events. *)
Lemma read_line_event experiment n kind payload :
  jwf payload ->
  let e := event_fields experiment n kind payload in
  exists o, loads (dumps (event_doc experiment n kind payload)) = Some (JObj o) /\
    is_int (jget o "schema_version") SCHEMA_VERSION = true /\
    checksum (jremove o "checksum") = Ok (blake16 "bc-journal-v1" (dumps (JObj e))) /\
    is_str (jget o "checksum") (blake16 "bc-journal-v1" (dumps (JObj e))) = true /\
    is_int (jget (jremove o "checksum") "sequence") n = true /\
    let e' := jremove o "checksum"
              ++ [("checksum", JStr (blake16 "bc-journal-v1" (dumps (JObj e))))] in
    dumps (JObj e') = dumps (event_doc experiment n kind payload) /\
    jget e' "kind" = Some (JStr kind) /\ jget e' "experiment_id" = Some (JStr experiment) /\
    jget (jremove o "checksum") "sequence" = Some (JInt n).
Proof.
  intros Hp e. set (sum := blake16 "bc-journal-v1" (dumps (JObj e))).
  assert (jwf (event_doc experiment n kind payload)) as Hwf.
  { apply jwf_obj. split; [apply (bool_decide_unpack _); by compute|].
    repeat (constructor; [first [exact I | exact Hp]|]). constructor. }
  exists (sorted_members (signed e)).
  rewrite loads_dumps by done. unfold event_doc. rewrite sort_keys_members. split; [done|].
  change (sorted_members (signed e)) with
    [("checksum", JStr sum); ("experiment_id", JStr experiment); ("kind", JStr kind);
     ("payload", sort_keys payload); ("schema_version", JInt SCHEMA_VERSION); ("sequence", JInt n)].
  cbn [jget jremove List.filter String.eqb Ascii.eqb Bool.eqb fst negb is_int num_eqb is_str app].
  rewrite String.eqb_refl, Z.eqb_refl, Z.eqb_refl.
  assert (dumps (JObj [("experiment_id", JStr experiment); ("kind", JStr kind);
     ("payload", sort_keys payload); ("schema_version", JInt SCHEMA_VERSION); ("sequence", JInt n)])
     = dumps (JObj e)) as Hsame.
  { rewrite !dumps_obj.
    change (py_sorted by_key [("experiment_id", JStr experiment); ("kind", JStr kind);
     ("payload", sort_keys payload); ("schema_version", JInt SCHEMA_VERSION); ("sequence", JInt n)])
     with [("experiment_id", JStr experiment); ("kind", JStr kind);
     ("payload", sort_keys payload); ("schema_version", JInt SCHEMA_VERSION); ("sequence", JInt n)].
    change (py_sorted by_key e) with [("experiment_id", JStr experiment); ("kind", JStr kind);
     ("payload", payload); ("schema_version", JInt SCHEMA_VERSION); ("sequence", JInt n)].
    cbn [map fst snd]. by rewrite dumps_sort_keys. }
  split; [done|]. split.
  { unfold checksum, canonical_bytes. rewrite Hsame.
    rewrite jwf_finite; [done|]. apply jwf_obj. split; [apply (bool_decide_unpack _); by compute|].
    assert (jwf (sort_keys payload)) by (by apply jwf_sort_keys).
    repeat (constructor; [first [exact I | done]|]). constructor. }
  split; [done|]. split; [done|]. split; [|done].
  rewrite !dumps_obj.
  change (py_sorted by_key (signed e)) with [("checksum", JStr sum); ("experiment_id", JStr experiment);
     ("kind", JStr kind); ("payload", payload); ("schema_version", JInt SCHEMA_VERSION);
     ("sequence", JInt n)].
  change (py_sorted by_key [("experiment_id", JStr experiment); ("kind", JStr kind);
     ("payload", sort_keys payload); ("schema_version", JInt SCHEMA_VERSION); ("sequence", JInt n);
     ("checksum", JStr sum)])
    with [("checksum", JStr sum); ("experiment_id", JStr experiment);
     ("kind", JStr kind); ("payload", sort_keys payload); ("schema_version", JInt SCHEMA_VERSION);
     ("sequence", JInt n)].
  cbn [map fst snd]. by rewrite dumps_sort_keys.
Qed.

(** A run of events of one experiment, numbered on from [n]. *)
Definition numbered (experiment : string) (n : Z) (docs : list json) : Prop :=
  forall i d, docs !! i = Some d -> exists kind payload, jwf payload /\
    d = event_doc experiment (n + Z.of_nat i)%Z kind payload.

Lemma numbered_cons experiment n d docs :
  numbered experiment n (d :: docs) ->
  (exists kind payload, jwf payload /\ d = event_doc experiment n kind payload) /\
  numbered experiment (n + 1)%Z docs.
Proof.
  intros H. split.
  - destruct (H 0 d eq_refl) as (kind & payload & ? & ->). exists kind, payload.
    by rewrite Z.add_0_r.
  - intros i e Hi. destruct (H (S i) e Hi) as (kind & payload & ? & ->).
    exists kind, payload. split; [done|]. f_equal. lia.
Qed.

Lemma event_doc_jwf experiment n kind payload :
  jwf payload -> jwf (event_doc experiment n kind payload).
Proof.
  intros Hp. apply jwf_obj. split; [apply (bool_decide_unpack _); by compute|].
  repeat (constructor; [first [exact I | exact Hp]|]). constructor.
Qed.

Lemma numbered_jwf experiment n docs : numbered experiment n docs -> Forall jwf docs.
Proof.
  intros H. apply Forall_lookup. intros i d Hi. destruct (H i d Hi) as (k & p & ? & ->).
  by apply event_doc_jwf.
Qed.

Lemma dumps_not_empty experiment n kind payload :
  String.eqb (dumps (event_doc experiment n kind payload)) "" = false.
Proof. unfold event_doc. by rewrite dumps_obj. Qed.

(** The events of a run of lines, and what follows them. *)
Definition same_text (es : list event) (docs : list json) : Prop :=
  map (fun e => dumps (JObj e)) es = map dumps docs.

Lemma read_lines_events experiment docs rest recover index n :
  numbered experiment n docs ->
  exists es, same_text es docs /\
    Forall (fun e => jget e "experiment_id" = Some (JStr experiment) /\
                     exists k, jget e "kind" = Some (JStr k)) es /\
    (forall kind p, docs !! 0 = Some (event_doc experiment n kind p) -> jwf p ->
       exists e, es !! 0 = Some e /\ jget e "kind" = Some (JStr kind)) /\
    (forall tail c, read_lines recover rest (index + length docs) (n + Z.of_nat (length docs))%Z
                     = Ok (tail, c) ->
       read_lines recover (map line_of docs ++ rest) index n = Ok (es ++ tail, c)) /\
    (forall err, read_lines recover rest (index + length docs) (n + Z.of_nat (length docs))%Z
                     = Err err ->
       read_lines recover (map line_of docs ++ rest) index n = Err err).
Proof.
  revert index n. induction docs as [|d docs IH]; intros index n Hn.
  - exists []. split_and!; [done|constructor|done| |]; simpl; rewrite ?Nat.add_0_r, ?Z.add_0_r; auto.
  - apply numbered_cons in Hn as [(kind & payload & Hp & ->) Hn].
    destruct (IH (S index) (n + 1)%Z Hn) as (es & Hes & Hexp & _ & Hok & Herr).
    destruct (read_line_event experiment n kind payload Hp)
      as (o & Hl & Hsch & Hsum & Hst & Hseq & Htext & Hkind & Hid & _).
    set (sum := blake16 "bc-journal-v1" (dumps (JObj (event_fields experiment n kind payload)))) in *.
    exists ((jremove o "checksum" ++ [("checksum", JStr sum)]) :: es).
    assert (forall res_rest,
      read_lines recover (map line_of docs ++ rest) (S index) (n + 1)%Z = res_rest ->
      read_lines recover (map line_of (event_doc experiment n kind payload :: docs) ++ rest) index n
      = '(events, corruption) ← res_rest;
        Ok ((jremove o "checksum" ++ [("checksum", JStr sum)]) :: events, corruption)) as Hstep.
    { intros res_rest <-. cbn [map app read_lines].
      assert (rstrip_eol (line_of (event_doc experiment n kind payload))
        = dumps (event_doc experiment n kind payload)) as ->
        by (by apply rstrip_eol_line, printable_dumps, event_doc_jwf).
      assert (ends_eol (line_of (event_doc experiment n kind payload)) = true) as ->
        by apply ends_eol_line.
      rewrite dumps_not_empty. cbn [negb andb]. rewrite Hl, Hsch. cbn [negb].
      rewrite Hsum. cbn [mbind result_bind]. rewrite Hst, Hseq. cbn [negb]. done. }
    split_and!.
    + unfold same_text in *. cbn [map]. by rewrite Hes, Htext.
    + constructor; [by eauto|exact Hexp].
    + intros k p E Hp'. eexists. split; [reflexivity|].
      apply (f_equal (fun d => match d with Some (JObj f) => jget f "kind" | _ => None end)) in E.
      rewrite Hkind. exact E.
    + intros tail c H. rewrite (Hstep _ (Hok tail c ltac:(rewrite <- H; f_equal; cbn [length]; lia))).
      done.
    + intros err H. rewrite (Hstep _ (Herr err ltac:(rewrite <- H; f_equal; cbn [length]; lia))).
      done.
Qed.

Lemma read_lines_tail t index n :
  str_all printable t = true -> t <> "" ->
  read_lines true [t] index n = Ok ([], Some ("truncated record at sequence " +:+ show_Z n)).
Proof.
  intros Ht Hne. cbn [read_lines]. rewrite rstrip_eol_printable by done.
  rewrite (proj2 (String.eqb_neq t "")) by done.
  destruct (printable_last t Ht) as [-> _]. done.
Qed.

(** Reading the front of a journal: whole events and perhaps a torn one. *)
Lemma read_current_prefix experiment docs t payload :
  numbered experiment 1 docs -> docs !! 0 = Some (event_doc experiment 1 "start" payload) ->
  jwf payload -> str_all printable t = true ->
  exists view, read_current (text_of docs +:+ t) true = Ok view /\
    same_text (jv_events view) docs /\ jv_last_durable_sequence view = length docs /\
    jv_corrupt_tail view = negb (String.eqb t "") /\
    (jv_complete view = true -> t = "").
Proof.
  intros Hn H0 Hp Ht. unfold read_current.
  rewrite splitlines_text by (by eapply numbered_jwf || done).
  destruct (read_lines_events experiment docs (if String.eqb t "" then [] else [t]) true 0 1 Hn)
    as (es & Hes & Hexp & Hstart & Hok & _).
  assert (exists c, read_lines true (if String.eqb t "" then [] else [t]) (0 + length docs)
    (1 + Z.of_nat (length docs))%Z = Ok ([], c) /\ (c = None <-> t = "")) as (c & Hc & Hcnil).
  { destruct (String.eqb_spec t "") as [->|Hne]; [by exists None|].
    eexists. split; [by apply read_lines_tail|]. split; done. }
  rewrite (Hok [] c Hc), app_nil_r. cbn [mbind result_bind].
  destruct (Hstart "start" payload H0 Hp) as (e & He & Hkind).
  destruct es as [|first es]; [done|]. injection He as ->.
  destruct (last (e :: es)) as [final|] eqn:Hlast; [|by rewrite last_None in Hlast].
  rewrite Hkind. cbn [is_str]. rewrite String.eqb_refl. cbn [negb].
  rewrite Forall_forall in Hexp.
  rewrite (mapR_all_ok _ (fun _ => tt)) by (intros a Ha; by rewrite (proj1 (Hexp a Ha))).
  cbn [mbind result_bind].
  match goal with |- context [one_experiment ?f ?l] => assert (one_experiment f l = true) as -> end.
  { unfold one_experiment. apply forallb_true. intros a Ha. apply bool_decide_eq_true.
    by rewrite (proj1 (Hexp a Ha)), (proj1 (Hexp e ltac:(left))). }
  cbn [negb]. assert (final ∈ e :: es) as Hfin by (by apply last_Some_elem_of).
  assert (length (e :: es) = length docs) as Hlen.
  { apply (f_equal length) in Hes. by rewrite !length_map in Hes. }
  assert (bool_decide (c <> None) = negb (String.eqb t "")) as Hb.
  { destruct (String.eqb_spec t "") as [->|Hne].
    - apply bool_decide_eq_false. intros Hn'. by apply Hn', Hcnil.
    - apply bool_decide_eq_true. intros E. by apply Hne, Hcnil. }
  assert (exists kind, jget final "kind" = Some (JStr kind)) as [kf Hkf] by (by apply Hexp).
  unfold item. rewrite (proj1 (Hexp e ltac:(left))). cbn [of_option mbind result_bind].
  rewrite Hkf. cbn [hashable mbind result_bind]. eexists. split; [reflexivity|].
  cbn [jv_events jv_last_durable_sequence jv_corrupt_tail jv_complete]. rewrite Hb.
  split_and!; [exact Hes|exact Hlen|done|].
  intros Hcomp. apply andb_true_iff in Hcomp as [_ Hcomp]. rewrite negb_involutive in Hcomp.
  by apply String.eqb_eq.
Qed.

(** ** Runs of a writer *)

Inductive op : Type :=
| OpAppend (kind : string) (payload : json)
| OpResult (record : event)
| OpAcknowledge
| OpComplete (summary : event)
| OpInterrupt (reason : string).

Definition run_op (o : op) : stm Writer unit :=
  match o with
  | OpAppend kind payload => _ ← append kind payload; mret tt
  | OpResult record => _ ← write_result record; mret tt
  | OpAcknowledge => _ ← acknowledge; mret tt
  | OpComplete summary => complete summary
  | OpInterrupt reason => interrupt reason
  end.

(** The payload is a decoded document without floats. *)
Definition op_jwf (o : op) : Prop :=
  match o with
  | OpAppend _ payload => jwf payload
  | OpResult record => jwf (JObj record)
  | OpAcknowledge => True
  | OpComplete summary => jwf (JObj summary)
  | OpInterrupt _ => True
  end.

Definition writer_inv (w : Writer) : Prop :=
  exists docs acked, writer_ok w docs acked /\ docs <> [].

Lemma keeps_append kind payload : jwf payload -> keeps writer_inv (append kind payload).
Proof.
  intros Hp w r w' (docs & acked & Hw & Hne) H.
  destruct (append_ok w docs acked kind payload r w' Hw Hp ltac:(done) H)
    as (docs' & acked' & Hw' & [k ->] & _).
  exists (docs ++ k), acked'. split; [done|]. by destruct docs.
Qed.

Lemma keeps_acknowledge : keeps writer_inv acknowledge.
Proof.
  intros w r w' (docs & acked & Hw & Hne) [= <- <-]. exists docs, (length docs).
  split; [by eapply sync_ok|done].
Qed.

Lemma keeps_close : keeps writer_inv (modify set_closed).
Proof.
  apply keeps_modify. intros w (docs & acked & Hw & Hne). exists docs, acked.
  split; [by apply set_closed_ok|done].
Qed.

Lemma keeps_run_op o : op_jwf o -> keeps writer_inv (run_op o).
Proof.
  destruct o as [kind payload|record| |summary|reason]; simpl; intros Ho.
  - apply keeps_bind; [by apply keeps_append|intros; apply keeps_ret].
  - apply keeps_bind; [|intros; apply keeps_ret]. unfold write_result.
    destruct (_ || _); [apply keeps_raise|by apply keeps_append].
  - apply keeps_bind; [apply keeps_acknowledge|intros; apply keeps_ret].
  - apply keeps_bind; [by apply keeps_append|intros _].
    apply keeps_bind; [apply keeps_acknowledge|intros _; apply keeps_close].
  - apply keeps_bind; [apply keeps_append|intros _].
    + apply jwf_obj. split; [apply NoDup_singleton|]. by repeat constructor.
    + apply keeps_bind; [apply keeps_acknowledge|intros _; apply keeps_close].
Qed.

Lemma keeps_run_ops ops : Forall op_jwf ops -> keeps writer_inv (iterM run_op ops).
Proof.
  induction 1 as [|o ops Ho Hops IH]; [apply keeps_ret|]. cbn [iterM].
  apply keeps_bind; [by apply keeps_run_op|by intros _].
Qed.

Lemma new_writer_inv ex experiment revision manifest hardware mode batch storage w w' :
  new_writer ex experiment revision manifest hardware mode batch storage = (Ok w, w') ->
  writer_inv w.
Proof.
  unfold new_writer. destruct (negb (str_in mode MODES)); [done|]. destruct ex; [done|].
  destruct (append "start" _ _) as [r w1] eqn:E.
  destruct r as [n|]; [|done]. intros [= <- <-].
  assert (writer_ok (mkWriter "" "" experiment mode batch storage 0 0 false) [] 0) as Hw0.
  { split; [done..| |done]. intros i d. by rewrite lookup_nil. }
  eapply append_ok in E as (docs & acked & Hw & _ & _ & Hne); [|exact Hw0| |done].
  2: { apply jwf_obj. split; [apply (bool_decide_unpack _); by compute|by repeat constructor]. }
  exists docs, acked. split; [exact Hw|by apply Hne].
Qed.


(** ** Compaction chooses per dispatch *)

Definition is_result (e : event) : bool := is_str (jget e "kind") "result".

(** What [selected] holds after the events [seen]. *)
Record selects (seen : list event) (selected : list (string * candidate)) : Prop := {
  sel_keys : NoDup (map fst selected);
  sel_from k c : jget selected k = Some c ->
    c_dispatch c = k /\ exists e, e ∈ seen /\ is_result e = true /\ candidate_of e = Ok c;
  sel_best e : e ∈ seen -> is_result e = true -> exists c best, candidate_of e = Ok c /\
    jget selected (c_dispatch c) = Some best /\ rank_ltb best c = false;
}.

Lemma rank_ltb_trans a b c :
  rank_ltb a b = false -> rank_ltb b c = false -> rank_ltb a c = false.
Proof. unfold rank_ltb. bools; lia. Qed.

Lemma rank_ltb_asym a b : rank_ltb a b = true -> rank_ltb b a = false.
Proof. unfold rank_ltb. bools; lia. Qed.

Lemma rank_ltb_irrefl a : rank_ltb a a = false.
Proof. unfold rank_ltb. bools; lia. Qed.

Lemma offer_best selected c :
  exists best, jget (offer selected c) (c_dispatch c) = Some best /\ rank_ltb best c = false.
Proof.
  unfold offer. destruct (jget selected (c_dispatch c)) as [cur|] eqn:E;
    [destruct (rank_ltb cur c) eqn:R; [|by exists cur]|];
    exists c; by rewrite jget_dict_set, String.eqb_refl, rank_ltb_irrefl.
Qed.

(** An offer never lowers what a dispatch has. *)
Lemma offer_mono selected c k cur :
  jget selected k = Some cur ->
  exists best, jget (offer selected c) k = Some best /\ rank_ltb best cur = false.
Proof.
  intros E. unfold offer. destruct (String.eqb_spec (c_dispatch c) k) as [<-|Hne].
  - rewrite E. destruct (rank_ltb cur c) eqn:R.
    + exists c. rewrite jget_dict_set, String.eqb_refl. split; [done|by apply rank_ltb_asym].
    + exists cur. by rewrite rank_ltb_irrefl.
  - exists cur. rewrite rank_ltb_irrefl. split; [|done].
    assert (String.eqb k (c_dispatch c) = false) as Hk by (apply String.eqb_neq; congruence).
    destruct (jget selected (c_dispatch c)) as [d|]; [destruct (rank_ltb d c); [|done]|];
      by rewrite jget_dict_set, Hk.
Qed.

Lemma offer_from selected c k b :
  jget (offer selected c) k = Some b -> jget selected k = Some b \/ (b = c /\ k = c_dispatch c).
Proof.
  unfold offer.
  assert (jget (dict_set selected (c_dispatch c) c) k = Some b ->
          jget selected k = Some b \/ (b = c /\ k = c_dispatch c)) as Hset.
  { rewrite jget_dict_set. destruct (String.eqb_spec k (c_dispatch c)); [|by left].
    intros [= <-]. by right. }
  destruct (jget selected (c_dispatch c)) as [d|]; [destruct (rank_ltb d c); [|by left]|]; done.
Qed.

Lemma selects_offer seen selected e c :
  selects seen selected -> is_result e = true -> candidate_of e = Ok c ->
  selects (seen ++ [e]) (offer selected c).
Proof.
  intros [Hk Hf Hb] He Hc. split.
  - unfold offer. destruct (jget selected _) as [d|]; [destruct (rank_ltb d c); [|done]|];
      by apply dict_set_keys.
  - intros k b Hget. destruct (offer_from _ _ _ _ Hget) as [H|[-> ->]].
    + destruct (Hf k b H) as [? (e' & ? & ?)]. split; [done|]. exists e'.
      by rewrite elem_of_app; eauto.
    + split; [done|]. exists e. rewrite elem_of_app, list_elem_of_singleton. by eauto.
  - intros e' [Hin| ->%list_elem_of_singleton]%elem_of_app Hr.
    + destruct (Hb e' Hin Hr) as (c' & best & Hc' & Hg & Hlt).
      destruct (offer_mono _ c _ _ Hg) as (best' & Hg' & Hlt'). exists c', best'.
      split_and!; [done|done|by eapply rank_ltb_trans].
    + destruct (offer_best selected c) as (best & Hg & Hlt). by exists c, best.
Qed.

Lemma select_results_selects events selected :
  select_results events = Ok selected -> selects events selected.
Proof.
  unfold select_results.
  cut (forall seen acc, selects seen acc -> foldR (fun selected e =>
      kind ← item e "kind";
      if negb (is_str (Some kind) "result") then Ok selected
      else c ← candidate_of e; Ok (offer selected c)) events acc = Ok selected ->
      selects (seen ++ events) selected).
  { intros H. apply (H [] []). split; [constructor|done|intros e He; set_solver]. }
  induction events as [|e events IH]; intros seen acc Hacc; cbn [foldR].
  { intros [= <-]. by rewrite app_nil_r. }
  intros (acc' & Hstep & Hrest)%bind_Ok. rewrite (app_assoc seen [e] events : seen ++ e :: events = _).
  apply (IH (seen ++ [e]) acc'); [|done].
  apply bind_Ok in Hstep as (kind & Hkind & Hstep).
  unfold item in Hkind. apply of_option_Ok in Hkind.
  destruct (is_str (Some kind) "result") eqn:Hr; cbn [negb] in Hstep.
  - apply bind_Ok in Hstep as (c & Hc & [= <-]). apply selects_offer; [done| |done].
    unfold is_result. by rewrite Hkind.
  - injection Hstep as <-. destruct Hacc as [Hk Hf Hb]. split; [done| |].
    + intros k c Hg. destruct (Hf k c Hg) as [? (e' & ? & ?)]. split; [done|]. exists e'.
      by rewrite elem_of_app; eauto.
    + intros e' [Hin| ->%list_elem_of_singleton]%elem_of_app Hres; [by apply Hb|].
      unfold is_result in Hres. rewrite Hkind in Hres. congruence.
Qed.

(** ** Theorems *)


(** An append that raises poisons the journal: when a payload has a value
    JSON cannot write, [append] raises after it has already counted the
    event, and the next call that succeeds - here the interruption that ends
    the journal - leaves a gap for which the reader rejects the whole file. *)
Theorem append_failure_poisons_journal w docs acked kind payload reason w1 r w2 :
  writer_ok w docs acked -> docs <> [] -> closed w = false -> jfinite payload = false ->
  append kind payload w = (r, w1) ->
  interrupt reason w1 = (Ok tt, w2) ->
  r = Err (ValueError "Out of range float values are not JSON compliant") /\
  synced w2 = text_of docs +:+ line_of (event_doc (experiment_id w)
                (Z.of_nat (length docs) + 2)%Z "interrupted" (JObj [("reason", JStr reason)])) /\
  read_current (synced w2) true
  = Err (JournalError ("journal sequence gap/duplicate: expected "
           +:+ show_Z (Z.of_nat (length docs) + 1) +:+ ", got "
           +:+ show_Z (Z.of_nat (length docs) + 2))).
Proof.
  intros Hw Hne Hc Hf. rewrite append_not_finite by done. intros [= <- <-] Hi.
  unfold interrupt in Hi. apply stm_bind_Ok in Hi as (m & w3 & Ha & Hi).
  set (last_payload := JObj [("reason", JStr reason)]) in *.
  assert (jwf last_payload) as Hlp.
  { apply jwf_obj. split; [apply NoDup_singleton|]. by repeat constructor. }
  destruct (append_open (set_sequence w (sequence w + 1)%Z) "interrupted" last_payload Hc
    (jwf_finite _ Hlp)) as (w3' & Ha' & Htext & _).
  rewrite Ha' in Ha. injection Ha as _ ->.
  apply stm_bind_Ok in Hi as (u & w4 & Hack & Hcl). injection Hack as _ <-. injection Hcl as <-.
  assert (sequence w = Z.of_nat (length docs)) as Hseq by apply Hw.
  set (d := event_doc (experiment_id w) (Z.of_nat (length docs) + 2)%Z "interrupted" last_payload).
  assert (synced (set_closed (sync w3)) = text_of docs +:+ line_of d) as Hs.
  { simpl. rewrite Htext. simpl. rewrite <- str_app_assoc, (wo_text _ _ _ Hw), Hseq.
    by replace (Z.of_nat (length docs) + 1 + 1)%Z with (Z.of_nat (length docs) + 2)%Z by lia. }
  split; [done|]. split; [exact Hs|]. rewrite Hs, <- text_of_snoc.
  assert (numbered (experiment_id w) 1 docs) as Hn.
  { intros i e He. destruct (wo_docs _ _ _ Hw i e He) as (k & p & Hp & -> & _). exists k, p.
    split; [done|]. f_equal. lia. }
  unfold read_current.
  rewrite <- (str_app_nil_r (text_of _)), splitlines_text by (done || (apply Forall_app; split;
    [by eapply numbered_jwf|constructor; [by apply event_doc_jwf|constructor]])).
  rewrite map_app, app_nil_r.
  destruct (read_lines_events (experiment_id w) docs (map line_of [d]) true 0 1 Hn)
    as (es & _ & _ & _ & _ & Herr).
  rewrite (Herr (JournalError ("journal sequence gap/duplicate: expected "
           +:+ show_Z (Z.of_nat (length docs) + 1) +:+ ", got "
           +:+ show_Z (Z.of_nat (length docs) + 2)))); [done|].
  destruct (read_line_event (experiment_id w) (Z.of_nat (length docs) + 2) "interrupted" last_payload Hlp)
    as (o & Hl & Hsch & Hsum & Hst & _ & _ & _ & _ & Hg).
  cbn [map read_lines].
  assert (rstrip_eol (line_of d) = dumps d) as ->
    by (by apply rstrip_eol_line, printable_dumps, event_doc_jwf).
  assert (ends_eol (line_of d) = true) as -> by apply ends_eol_line.
  unfold d. rewrite dumps_not_empty. cbn [negb andb]. rewrite Hl, Hsch. cbn [negb].
  rewrite Hsum. cbn [mbind result_bind]. rewrite Hst. cbn [negb].
  unfold show_get. rewrite Hg. cbn [is_int num_eqb jstr].
  rewrite (proj2 (Z.eqb_neq _ _)) by lia. cbn [negb].
  replace (1 + Z.of_nat (length docs))%Z with (Z.of_nat (length docs) + 1)%Z by lia. done.
Qed.

Lemma rows_text (l : list (string * candidate)) rows :
  mapR (fun kv => canonical_bytes (JObj (c_record kv.2))) l = Ok rows ->
  rows = map (fun kv => dumps (JObj (c_record kv.2))) l.
Proof.
  revert rows. induction l as [|kv l IH]; intros rows H; [by injection H as <-|].
  cbn [mapR] in H. apply bind_Ok in H as (b & Hb & H). apply bind_Ok in H as (bs & Hbs & [= <-]).
  cbn [map]. f_equal; [|by apply IH]. unfold canonical_bytes in Hb.
  destruct (jfinite _); [by injection Hb|done].
Qed.

(** Compaction keeps, per dispatch, the best result: when [compact]
    writes a file, its first line is the header and then follows one line for every dispatch of
    the journal's result events, in the order of their names; the line of a
    dispatch is the record of one of its result events, and no result event
    of that dispatch has a higher (generation, sequence). *)
Theorem compact_selects_best data header out n :
  compact data header = Ok (out, n) ->
  exists view first (selected : list (string * candidate)),
    read_current data true = Ok view /\
    n = length selected /\ StronglySorted (leb_rel String.leb) (map fst selected) /\
    NoDup (map fst selected) /\
    out = String.concat newline (first :: map (fun kv => dumps (JObj (c_record kv.2))) selected)
          +:+ newline /\
    (forall k c, (k, c) ∈ selected -> c_dispatch c = k /\
       exists e, e ∈ jv_events view /\ is_result e = true /\ candidate_of e = Ok c) /\
    (forall e, e ∈ jv_events view -> is_result e = true ->
       exists c best, candidate_of e = Ok c /\ (c_dispatch c, best) ∈ selected /\
         (c_generation c < c_generation best
          \/ (c_generation c = c_generation best /\ c_sequence c <= c_sequence best))%Z).
Proof.
  unfold compact. intros (view & Hview & H)%bind_Ok.
  destruct (negb _) in H; [done|]. apply bind_Ok in H as (selected & Hsel & H).
  apply bind_Ok in H as (first & Hfirst & H). apply bind_Ok in H as (rows & Hrows & [= <- <-]).
  apply select_results_selects in Hsel as [Hk Hf Hb].
  assert (py_sorted by_key selected ≡ₚ selected) as Hperm by apply py_sorted_perm.
  exists view, first, (py_sorted by_key selected). split; [done|].
  split; [symmetry; apply length_py_sorted|].
  split. { apply StronglySorted_map. apply (py_sorted_StronglySorted by_key). }
  split. { by rewrite Hperm. }
  split.
  { by rewrite (rows_text _ _ Hrows). }
  split.
  - intros k c Hin. rewrite Hperm in Hin. apply Hf, jget_Some; done.
  - intros e He Hr. destruct (Hb e He Hr) as (c & best & Hc & Hg & Hlt). exists c, best.
    split; [done|]. split; [rewrite Hperm; by apply jget_Some|].
    unfold rank_ltb in Hlt. bools; lia.
Qed.

End Journal.
(** ** Witnesses *)

(** A checksum for the examples: the length of the data. *)
Definition demo_sum (tag data : string) : string := tag +:+ show_nat (String.length data).

Definition demo_new : res Writer * Writer :=
  new_writer demo_sum false "exp-1" "rev" "mani" "hw" "batch" 2 "nvme".

Definition demo_ops : list op :=
  [OpAppend "attempt" (JObj [("try", JInt 1)]);
   OpResult [("kind", JStr "result"); ("dispatch", JStr "mul_mat"); ("generation", JInt 1)];
   OpResult [("kind", JStr "result"); ("dispatch", JStr "mul_mat"); ("generation", JInt 2)];
   OpAcknowledge;
   OpResult [("kind", JStr "result"); ("dispatch", JStr "add")]].

Definition demo_writer : Writer := (iterM (run_op demo_sum) demo_ops demo_new.2).2.

Lemma demo_ops_jwf : Forall op_jwf demo_ops.
Proof.
  assert (forall o, bool_decide (NoDup (map fst o)) = true -> Forall (fun kv => jwf kv.2) o -> jwf (JObj o)) as H.
  { intros o Hn Ho. apply jwf_obj. split; [by apply bool_decide_eq_true in Hn|done]. }
  repeat (constructor; [apply H; [reflexivity|repeat constructor] || exact I|]). constructor.
Qed.


Definition demo_start : json :=
  JObj [("batch_size", JInt 2); ("durability_mode", JStr "batch"); ("hardware_digest", JStr "hw");
        ("manifest_hash", JStr "mani"); ("source_revision", JStr "rev");
        ("storage_kind", JStr "nvme"); ("durability_scope", JStr "storage_claimed")].

Lemma demo_new_ok :
  writer_ok demo_sum demo_new.2 [event_doc demo_sum "exp-1" 1 "start" demo_start] 0.
Proof.
  split; [vm_compute; reflexivity|vm_compute; reflexivity|apply Nat.le_0_l|discriminate| |reflexivity].
  intros [|i] d H; [|discriminate H]. injection H as <-.
  exists "start", demo_start. split_and!; [|done|done].
  apply jwf_obj. split; [apply (bool_decide_unpack _); by compute|by repeat constructor].
Qed.

(** A payload with a NaN, then an interruption. *)
Lemma append_failure_poisons_journal_witness :
  let failed := append demo_sum "attempt" (JFloat "nan") demo_new.2 in
  let stopped := interrupt demo_sum "stop" failed.2 in
  failed.1 = Err (ValueError "Out of range float values are not JSON compliant") /\
  read_current demo_sum (fun _ => "") (synced stopped.2) true
  = Err (JournalError "journal sequence gap/duplicate: expected 2, got 3").
Proof.
  intros failed stopped.
  destruct (append_failure_poisons_journal demo_sum (fun _ => "") demo_new.2
    [event_doc demo_sum "exp-1" 1 "start" demo_start] 0 "attempt" (JFloat "nan") "stop" failed.2
    failed.1 stopped.2 demo_new_ok
    ltac:(discriminate) ltac:(vm_compute; reflexivity) ltac:(vm_compute; reflexivity)
    ltac:(vm_compute; reflexivity) ltac:(vm_compute; reflexivity)) as (H1 & _ & H2).
  exact (conj H1 H2).
Defined.

Definition demo_file : string := synced demo_writer +:+ buffered demo_writer.

Lemma compact_selects_best_witness :
  exists view selected,
    read_current demo_sum (fun _ => "") demo_file true = Ok view /\
    length selected = 2 /\ StronglySorted (leb_rel String.leb) (map fst (selected : list (string * candidate))).
Proof.
  destruct (compact_selects_best demo_sum (fun _ => "") demo_file [("kind", JStr "header")]
    (match compact demo_sum (fun _ => "") demo_file [("kind", JStr "header")] with
     | Ok (out, _) => out | _ => "" end) 2 ltac:(vm_compute; reflexivity))
    as (view & first & selected & Hv & Hn & Hs & _).
  exists view, selected. split; [exact Hv|]. split; [exact (eq_sym Hn)|exact Hs].
Defined.

End Journal.
