(* ===== verification/Store.v ===== *)
(** The durable store: [src/tools/bigcherry/jobs/store.py].

    The disk is a map of documents, a set of directories, some plain files and the
    bytes of the event log.  Every write is one step that the process may die
    in front of - in the event log also in the middle of; what was written
    before stays.  [budget] says how many steps are left, so a statement for
    every budget is a statement about every point of a crash.

    One process at a time uses the store, so the host locks are left out; a
    document is the value its text decodes to. *)

From S2P Require Import Prelude Json Lines.
Import Json Lines.

Module Store.

Definition StoreError (msg : string) : exn := Exn "StoreError" msg.
Definition IdempotencyConflict (msg : string) : exn := Exn "IdempotencyConflict" msg.

(** The process dies: what no handler of an exception sees. *)
Definition Crash : exn := Exn "Crash" "".

Notation obj := (list (string * json)).

(** A file or directory, by the names on the way from the store's root. *)
Notation path := (list string).

Record Disk : Type := mkDisk {
  docs : gmap path obj;             (**r the JSON documents *)
  dirs : gset path;                 (**r the directories *)
  texts : gmap path string;         (**r other files: launchers and logs *)
  events_file : option string;      (**r [events.jsonl] *)
  calls : nat;                      (**r calls made to the clock and to [uuid4] *)
  budget : option nat;              (**r writes left before the process dies, if it does *)
  torn : nat;                       (**r bytes of the interrupted append that reach storage *)
  alive : bool;                     (**r the process has not died *)
}.

Definition set_docs (d : Disk) (m : gmap path obj) : Disk :=
  mkDisk m (dirs d) (texts d) (events_file d) (calls d) (budget d) (torn d) (alive d).
Definition set_dirs (d : Disk) (s : gset path) : Disk :=
  mkDisk (docs d) s (texts d) (events_file d) (calls d) (budget d) (torn d) (alive d).
Definition set_texts (d : Disk) (m : gmap path string) : Disk :=
  mkDisk (docs d) (dirs d) m (events_file d) (calls d) (budget d) (torn d) (alive d).
Definition set_events (d : Disk) (s : string) : Disk :=
  mkDisk (docs d) (dirs d) (texts d) (Some s) (calls d) (budget d) (torn d) (alive d).
Definition set_budget (d : Disk) (n : option nat) : Disk :=
  mkDisk (docs d) (dirs d) (texts d) (events_file d) (calls d) n (torn d) (alive d).
Definition die (d : Disk) : Disk :=
  mkDisk (docs d) (dirs d) (texts d) (events_file d) (calls d) (budget d) (torn d) false.
Definition tick (d : Disk) : Disk :=
  mkDisk (docs d) (dirs d) (texts d) (events_file d) (S (calls d)) (budget d) (torn d) (alive d).

(** One write. *)
Definition persist (f : Disk -> Disk) : stm Disk unit := fun d =>
  match budget d with
  | Some 0 => (Err Crash, die d)
  | b => (Ok tt, set_budget (f d) (pred <$> b))
  end.

(** The directory [p] and those above it. *)
Fixpoint ancestors (p : path) : list path :=
  match p with
  | [] => [[]]
  | c :: p' => [] :: map (cons c) (ancestors p')
  end.

Definition parent (p : path) : path := removelast p.

Definition mkdir (p : path) (d : Disk) : Disk :=
  set_dirs d (dirs d ∪ list_to_set (ancestors p)).

Definition show_path (root : string) (p : path) : string := String.concat "/" (root :: p).

Section Store.
(** The hash functions, the clock and the random identifiers. *)
Context (blake2b : string -> string -> string) (time_ns : nat -> Z) (uuid4 : nat -> string)
        (root : string).

Definition now : stm Disk Z := n ← gets calls; _ ← modify tick; mret (time_ns n).
Definition new_uuid : stm Disk string := n ← gets calls; _ ← modify tick; mret (uuid4 n).

(** ** Documents *)

Definition read_json (p : path) : stm Disk obj :=
  d ← get;
  lift (of_option (StoreError ("cannot read durable record " +:+ show_path root p
          +:+ ": [Errno 2] No such file or directory: " +:+ py_repr (show_path root p)))
          (docs d !! p)).

Definition doc_exists (p : path) : stm Disk bool :=
  gets (fun d => bool_decide (is_Some (docs d !! p))).

Definition immutable (p : path) : exn :=
  StoreError ("immutable record already exists with different content: " +:+ show_path root p).

(** [_write_json].  [tuples] says that the Python value contains a tuple: it is
    then unequal to every decoded document, which has lists instead. *)
Definition write_json (p : path) (value : obj) (tuples replace : bool) : stm Disk unit :=
  _ ← persist (mkdir (parent p));
  _ ← lift (canonical_bytes (JObj value));
  d ← get;
  match docs d !! p with
  | Some existing =>
      if replace then persist (fun d => set_docs d (<[p := sorted_members value]> (docs d)))
      else if tuples || negb (py_eqb (JObj existing) (JObj value)) then raise (immutable p)
      else mret tt
  | None => persist (fun d => set_docs d (<[p := sorted_members value]> (docs d)))
  end.

Definition without (keys : list string) (o : obj) : obj :=
  List.filter (fun kv => negb (str_in kv.1 keys)) o.

Definition write_idempotent_record (p : path) (value : obj) (volatile_keys : list string)
    (tuples : bool) : stm Disk unit :=
  there ← doc_exists p;
  if (there : bool) then
    existing ← read_json p;
    if tuples || negb (py_eqb (JObj (without volatile_keys existing))
                              (JObj (without volatile_keys value)))
    then raise (immutable p)
    else mret tt
  else write_json p value tuples false.

Definition checksum (value : obj) : res string :=
  data ← canonical_bytes (JObj value); Ok (blake2b "bc-job-event-v1" data).

Definition accept_idempotency (key request_digest batch_id : string) : stm Disk obj :=
  if blank key then raise (ValueError "idempotency key is required")
  else
    key_hash ← lift (digest blake2b "bc-idempotency" (JObj [("key", JStr key)]));
    let p := ["requests"; key_hash +:+ ".json"] in
    let record := [("key", JStr key); ("request_digest", JStr request_digest);
                   ("batch_id", JStr batch_id)] in
    there ← doc_exists p;
    if (there : bool) then
      existing ← read_json p;
      if negb (is_str (jget existing "request_digest") request_digest)
      then raise (IdempotencyConflict "idempotency key was already used for a different request")
      else mret existing
    else _ ← write_json p record false false; mret record.

Definition batch_path (batch_id : string) : path := ["batches"; batch_id; "batch.json"].
Definition series_path (series_id : string) : path := ["series"; series_id; "series.json"].
Definition run_path (run_id : string) : path := ["runs"; run_id; "intent.json"].
Definition control_path (run_id : string) : path := ["runs"; run_id; "control.json"].

Definition create_batch (batch_id : string) (record : obj) (tuples : bool) : stm Disk unit :=
  write_idempotent_record (batch_path batch_id) record ["created_ns"] tuples.
Definition batch (batch_id : string) : stm Disk obj := read_json (batch_path batch_id).

Definition create_series (series_id : string) (record : obj) (tuples : bool) : stm Disk unit :=
  write_json (series_path series_id) record tuples false.
Definition series (series_id : string) : stm Disk obj := read_json (series_path series_id).

(** [sorted(dir.glob("*/name"))] *)
Definition ids_with (top name : string) (d : Disk) : list string :=
  py_sorted String.leb
    (omap (fun kv => match kv.1 with
                     | [t; id; n] => if String.eqb t top && String.eqb n name then Some id else None
                     | _ => None
                     end) (map_to_list (docs d))).

Definition list_series : stm Disk (list obj) :=
  ids ← gets (ids_with "series" "series.json"); mapM_st series ids.

Definition create_run (run_id : string) (record : obj) (tuples : bool) : stm Disk unit :=
  write_idempotent_record (run_path run_id) record ["created_ns"] tuples.
Definition run (run_id : string) : stm Disk obj := read_json (run_path run_id).
Definition list_runs : stm Disk (list obj) :=
  ids ← gets (ids_with "runs" "intent.json"); mapM_st run ids.

(** ** Controls *)

Definition control (run_id : string) : stm Disk obj :=
  there ← doc_exists (control_path run_id);
  if (there : bool) then read_json (control_path run_id)
  else mret [("disabled", JBool false); ("cancelled", JBool false)].

Definition set_control (run_id : string) (changes : obj) : stm Disk obj :=
  value ← control run_id;
  let value' := dict_update value changes in
  _ ← write_json (control_path run_id) value' false true;
  mret value'.

Definition service_control : stm Disk obj :=
  there ← doc_exists ["service-control.json"];
  if (there : bool) then read_json ["service-control.json"] else mret [("paused", JBool false)].

Definition set_service_control (changes : obj) : stm Disk obj :=
  value ← service_control;
  let value' := dict_update value changes in
  _ ← write_json ["service-control.json"] value' false true;
  mret value'.

(** ** Attempts *)

(** [f"{n:03d}"] *)
Definition pad3 (n : nat) : string :=
  let s := show_nat n in
  if (n <? 10)%nat then "00" +:+ s else if (n <? 100)%nat then "0" +:+ s else s.

Definition attempts_dir (run_id : string) : path := ["runs"; run_id; "attempts"].
Definition attempt_root (run_id : string) (attempt : nat) : path :=
  attempts_dir run_id ++ [pad3 attempt].

(** [str.isdigit], on the names the store makes. *)
Fixpoint all_digits (s : string) : bool :=
  match s with
  | EmptyString => true
  | String c s' => bool_decide (is_Some (digit_val c)) && all_digits s'
  end.

Definition isdigit (s : string) : bool := truthy s && all_digits s.

(** The numbers of the attempt directories of a run. *)
Definition attempt_numbers (run_id : string) (d : Disk) : list nat :=
  omap (fun p => match p with
                 | [a; r; b; name] =>
                     if String.eqb a "runs" && String.eqb r run_id && String.eqb b "attempts"
                        && isdigit name
                     then Z.to_nat <$> py_int name else None
                 | _ => None
                 end) (elements (dirs d)).

Definition next_attempt (run_id : string) : stm Disk nat :=
  gets (fun d => if bool_decide (attempts_dir run_id ∈ dirs d)
                 then S (max_list (attempt_numbers run_id d)) else 1).

Definition latest_attempt (run_id : string) : stm Disk (option nat) :=
  n ← next_attempt run_id;
  mret (if (0 <? n - 1)%nat then Some (n - 1) else None).

Definition create_attempt (run_id : string) (attempt : nat) (record : obj) : stm Disk unit :=
  write_json (attempt_root run_id attempt ++ ["attempt.json"]) record false false.
Definition attempt (run_id : string) (attempt : nat) : stm Disk obj :=
  read_json (attempt_root run_id attempt ++ ["attempt.json"]).
Definition write_submission_intent (run_id : string) (attempt : nat) (record : obj) : stm Disk unit :=
  write_json (attempt_root run_id attempt ++ ["submission-intent.json"]) record false false.
Definition write_submission (run_id : string) (attempt : nat) (record : obj) : stm Disk unit :=
  write_idempotent_record (attempt_root run_id attempt ++ ["submission.json"]) record
    ["submitted_ns"] false.
Definition write_result (run_id : string) (attempt : nat) (record : obj) : stm Disk unit :=
  write_json (attempt_root run_id attempt ++ ["result.json"]) record false false.
Definition read_optional (p : path) : stm Disk (option obj) := gets (fun d => docs d !! p).

(** ** The inbox *)

Definition inbox (place name : string) : path := ["inbox"; place; name].

Definition enqueue (batch_id run_id reason : string) : stm Disk path :=
  created ← now;
  let receipt := [("batch_id", JStr batch_id); ("run_id", JStr run_id); ("reason", JStr reason);
                  ("created_ns", JInt created)] in
  h ← lift (digest blake2b "bc-inbox-receipt" (JObj receipt));
  let p := inbox "pending" (run_id +:+ "." +:+ reason +:+ "." +:+ String.substring 0 16 h +:+ ".json") in
  _ ← write_json p receipt false false;
  mret p.

(** [sorted(dir.glob("*.json"))] *)
Definition receipts (place : string) (d : Disk) : list path :=
  map (inbox place) (py_sorted String.leb
    (omap (fun kv => match kv.1 with
                     | [t; q; n] => if String.eqb t "inbox" && String.eqb q place then Some n else None
                     | _ => None
                     end) (map_to_list (docs d)))).

Definition pending : stm Disk (list path) := gets (receipts "pending").
Definition processing : stm Disk (list path) := gets (receipts "processing").
Definition claimable : stm Disk (list path) :=
  ps ← processing; qs ← pending; mret (ps ++ qs).

(** [os.replace(source, target)] of a receipt that exists. *)
Definition move (source target : path) (d : Disk) : Disk :=
  match docs d !! source with
  | Some doc => set_docs d (<[target := doc]> (delete source (docs d)))
  | None => d
  end.

Definition no_such_file (p : path) : exn :=
  Exn "FileNotFoundError" ("[Errno 2] No such file or directory: " +:+ py_repr (show_path root p)).

Definition file_name (p : path) : string := List.last p "".

Definition claim_pending (p : path) : stm Disk path :=
  if bool_decide (parent p = ["inbox"; "processing"]) then mret p
  else
    let target := inbox "processing" (file_name p) in
    there ← doc_exists p;
    if (there : bool) then _ ← persist (move p target); mret target
    else raise (StoreError ("pending receipt was already claimed: " +:+ show_path root p)).

Definition replace (source target : path) : stm Disk unit :=
  there ← doc_exists source;
  if (there : bool) then persist (move source target) else raise (no_such_file source).

Definition requeue_receipt (p : path) : stm Disk path :=
  let target := inbox "pending" (file_name p) in _ ← replace p target; mret target.

Definition finish_receipt (p : path) (accepted : bool) : stm Disk unit :=
  replace p (inbox (if accepted then "accepted" else "rejected") (file_name p)).

(** ** The event log *)

Record EventRecord : Type := mkEventRecord {
  seq : Z;
  event_id : string;
  ts_ns : Z;
  kind : string;
  severity : string;
  run_id : option string;
  data : obj;
}.

(** [EventRecord.to_dict] *)
Definition event_fields (e : EventRecord) : obj :=
  [("seq", JInt (seq e)); ("event_id", JStr (event_id e)); ("ts_ns", JInt (ts_ns e));
   ("kind", JStr (kind e)); ("severity", JStr (severity e));
   ("run_id", jopt JStr (run_id e)); ("data", JObj (data e))].

(** [dict(value or {})] of a decoded value; a list of pairs is not expected here. *)
Definition dict_or_empty (v : option json) : res obj :=
  match v with
  | None => Ok []
  | Some v =>
      if negb (jtruthy v) then Ok []
      else match v with
           | JObj o => Ok o
           | v => Err (TypeError ("cannot convert " +:+ type_name v +:+ " to a dictionary"))
           end
  end.

(** The record of a checked envelope. *)
Definition event_of (envelope : obj) : res EventRecord :=
  s ← item_int envelope "seq";
  i ← item_str envelope "event_id";
  t ← item_int envelope "ts_ns";
  k ← item_str envelope "kind";
  v ← item_str envelope "severity";
  dt ← dict_or_empty (jget envelope "data");
  Ok (mkEventRecord s i t k v (opt_str envelope "run_id") dt).

(** The loop of [_read_events_with_offset]: [n] events were read before. *)
Fixpoint read_event_lines (lines : list string) (n : nat) : res (list EventRecord * nat) :=
  match lines with
  | [] => Ok ([], 0)
  | line :: rest =>
      let is_last := match rest with [] => true | _ => false end in
      if negb (ends_lf line) then Ok ([], 0)
      else
        match loads line with
        | None => if is_last then Ok ([], 0) else Err (StoreError "corrupt non-tail event record")
        | Some (JObj o) =>
            let envelope := jremove o "checksum" in
            sum ← checksum envelope;
            if negb (is_str (jget o "checksum") sum) then
              if is_last then Ok ([], 0) else Err (StoreError "event checksum mismatch before tail")
            else if negb (is_int (jget envelope "seq") (Z.of_nat n + 1)) then
              Err (StoreError ("event sequence mismatch: expected " +:+ show_nat (n + 1)
                     +:+ ", got " +:+ match jget envelope "seq" with
                                      | Some v => jstr v | None => "None" end))
            else
              e ← event_of envelope;
              '(es, bytes) ← read_event_lines rest (S n);
              Ok (e :: es, String.length line + bytes)
        | Some _ => Err (StoreError "event record must be an object")
        end
  end.

Definition read_events_with_offset (file : option string) : res (list EventRecord * nat) :=
  match file with
  | None => Ok ([], 0)
  | Some bytes => read_event_lines (splitlines bytes) 0
  end.

Definition read_events (after : Z) : stm Disk (list EventRecord) :=
  d ← get;
  '(es, _) ← lift (read_events_with_offset (events_file d));
  mret (List.filter (fun e => (after <? seq e)%Z) es).

Definition file_bytes (d : Disk) : string := default "" (events_file d).

(** Appending a line: the one write that a crash can cut short. *)
Definition write_line (line : string) : stm Disk unit := fun d =>
  match budget d with
  | Some 0 => (Err Crash, die (set_events d (file_bytes d +:+ str_take (torn d) line)))
  | b => (Ok tt, set_budget (set_events d (file_bytes d +:+ line)) (pred <$> b))
  end.

(** Cut off what follows the last whole event. *)
Definition cut_tail (valid_bytes : nat) : stm Disk unit :=
  d ← get;
  match events_file d with
  | Some bytes =>
      if (String.length bytes =? valid_bytes)%nat then mret tt
      else persist (fun d => set_events d (str_take valid_bytes bytes))
  | None => mret tt
  end.

Definition new_record (es : list EventRecord) (kind : string) (data : obj) (run_id : option string)
    (severity : string) : stm Disk EventRecord :=
  let n := match last es with Some e => (seq e + 1)%Z | None => 1%Z end in
  id ← new_uuid;
  t ← now;
  mret (mkEventRecord n id t kind severity run_id data).

Definition write_record (record : EventRecord) : stm Disk unit :=
  sum ← lift (checksum (event_fields record));
  line ← lift (canonical_bytes (JObj (event_fields record ++ [("checksum", JStr sum)])));
  write_line (line +:+ newline).

Definition append_event (kind : string) (data : obj) (run_id : option string) (severity : string) :
    stm Disk EventRecord :=
  if negb (str_in severity ["record"; "notify"; "wake"]) then
    raise (ValueError "invalid event severity")
  else
    d ← get;
    '(es, valid_bytes) ← lift (read_events_with_offset (events_file d));
    _ ← cut_tail valid_bytes;
    record ← new_record es kind data run_id severity;
    _ ← write_record record;
    mret record.

(** ** The event log survives crashes *)

Definition envelope (e : EventRecord) : json :=
  JObj (event_fields e
        ++ [("checksum", JStr (blake2b "bc-job-event-v1" (dumps (JObj (event_fields e)))))]).

(** The record as it is read back: the members of its data in order. *)
Definition seen (e : EventRecord) : EventRecord :=
  mkEventRecord (seq e) (event_id e) (ts_ns e) (kind e) (severity e) (run_id e)
    (sorted_members (data e)).

Definition log_of (es : list EventRecord) : string := text_of (map envelope es).

(** Events numbered on from [n], with data that JSON keeps. *)
Definition numbered (n : nat) (es : list EventRecord) : Prop :=
  forall i e, es !! i = Some e -> seq e = Z.of_nat (n + i + 1) /\ jwf (JObj (data e)).

(** The log holds the events [es] and perhaps the front of one more line. *)
Record log_ok (d : Disk) (es : list EventRecord) (t : string) : Prop := {
  log_bytes : file_bytes d = log_of es +:+ t;
  log_tail : str_all printable t = true;
  log_numbered : numbered 0 es;
}.

Lemma envelope_jwf e : jwf (JObj (data e)) -> jwf (envelope e).
Proof.
  intros Hd. apply jwf_obj. split; [apply (bool_decide_unpack _); by compute|].
  repeat (constructor; [first [exact I | exact Hd | apply jwf_jopt]|]). constructor.
Qed.

Lemma dict_or_empty_sorted o : dict_or_empty (Some (sort_keys (JObj o))) = Ok (sorted_members o).
Proof.
  unfold dict_or_empty. rewrite sort_keys_members. cbn [jtruthy].
  by destruct (sorted_members o).
Qed.

(** One line of the log is read as its event. *)
Lemma read_event_line e rest n :
  jwf (JObj (data e)) -> seq e = Z.of_nat (n + 1) ->
  read_event_lines (line_of (envelope e) :: rest) n
  = '(es, bytes) ← read_event_lines rest (S n);
    Ok (seen e :: es, String.length (line_of (envelope e)) + bytes).
Proof.
  intros Hd Hseq. cbn [read_event_lines]. unfold line_of at 1 2. rewrite ends_lf_line. cbn [negb].
  rewrite loads_dumps_line by (by apply envelope_jwf).
  set (sum := blake2b "bc-job-event-v1" (dumps (JObj (event_fields e)))).
  unfold envelope at 1. fold sum. rewrite sort_keys_members.
  change (sorted_members (event_fields e ++ [("checksum", JStr sum)])) with
    [("checksum", JStr sum); ("data", sort_keys (JObj (data e))); ("event_id", JStr (event_id e));
     ("kind", JStr (kind e)); ("run_id", sort_keys (jopt JStr (run_id e))); ("seq", JInt (seq e));
     ("severity", JStr (severity e)); ("ts_ns", JInt (ts_ns e))].
  rewrite sort_keys_jopt.
  assert (checksum [("data", sort_keys (JObj (data e))); ("event_id", JStr (event_id e));
     ("kind", JStr (kind e)); ("run_id", jopt JStr (run_id e)); ("seq", JInt (seq e));
     ("severity", JStr (severity e)); ("ts_ns", JInt (ts_ns e))] = Ok sum) as Hsum.
  { unfold checksum, canonical_bytes. rewrite jwf_finite.
    - cbn [mbind result_bind]. do 2 f_equal. rewrite !dumps_obj.
      change (py_sorted by_key (event_fields e)) with
        [("data", JObj (data e)); ("event_id", JStr (event_id e));
         ("kind", JStr (kind e)); ("run_id", jopt JStr (run_id e)); ("seq", JInt (seq e));
         ("severity", JStr (severity e)); ("ts_ns", JInt (ts_ns e))].
      change (py_sorted by_key [("data", sort_keys (JObj (data e))); ("event_id", JStr (event_id e));
         ("kind", JStr (kind e)); ("run_id", jopt JStr (run_id e)); ("seq", JInt (seq e));
         ("severity", JStr (severity e)); ("ts_ns", JInt (ts_ns e))]) with
        [("data", sort_keys (JObj (data e))); ("event_id", JStr (event_id e));
         ("kind", JStr (kind e)); ("run_id", jopt JStr (run_id e)); ("seq", JInt (seq e));
         ("severity", JStr (severity e)); ("ts_ns", JInt (ts_ns e))].
      cbn [map fst snd]. by rewrite dumps_sort_keys.
    - apply jwf_obj. split; [apply (bool_decide_unpack _); by compute|].
      assert (jwf (sort_keys (JObj (data e)))) by (by apply jwf_sort_keys).
      repeat (constructor; [first [exact I | done | apply jwf_jopt]|]). constructor. }
  cbn [jremove List.filter String.eqb Ascii.eqb Bool.eqb fst negb].
  cbn [jget String.eqb Ascii.eqb Bool.eqb]. rewrite Hsum. cbn [mbind result_bind is_str].
  rewrite String.eqb_refl. cbn [negb is_int num_eqb]. rewrite Hseq.
  rewrite (proj2 (Z.eqb_eq _ _)) by lia. cbn [negb].
  unfold event_of, item_int, item_str, item, opt_str.
  cbn [jget String.eqb Ascii.eqb Bool.eqb of_option mbind result_bind json_int jstr].
  rewrite dict_or_empty_sorted. cbn [mbind result_bind].
  unfold seen. rewrite <- Hseq. by destruct (run_id e).
Qed.

Lemma read_torn t n : str_all printable t = true ->
  read_event_lines (if String.eqb t "" then [] else [t]) n = Ok ([], 0).
Proof.
  intros Ht. destruct (String.eqb t ""); [done|]. cbn [read_event_lines].
  by rewrite (proj2 (printable_last t Ht)).
Qed.

Lemma log_numbered_cons n e es :
  numbered n (e :: es) -> seq e = Z.of_nat (n + 1) /\ jwf (JObj (data e)) /\ numbered (S n) es.
Proof.
  intros H. destruct (H 0 e eq_refl) as [Hs Hd]. split; [rewrite Hs; lia|]. split; [done|].
  intros i e' Hi. destruct (H (S i) e' Hi) as [-> ?]. split; [lia|done].
Qed.

Lemma numbered_snoc es e :
  numbered 0 es -> seq e = Z.of_nat (length es + 1) -> jwf (JObj (data e)) -> numbered 0 (es ++ [e]).
Proof.
  intros Hn Hs Hd i e' Hi. destruct (decide (i < length es)) as [Hlt|Hge].
  - rewrite lookup_app_l in Hi by done. by apply Hn.
  - rewrite lookup_app_r in Hi by lia. destruct (i - length es) eqn:E; [|done].
    injection Hi as <-. split; [rewrite Hs; lia|done].
Qed.

Lemma read_log_lines es t n :
  numbered n es -> str_all printable t = true ->
  read_event_lines (map line_of (map envelope es) ++ (if String.eqb t "" then [] else [t])) n
  = Ok (map seen es, String.length (log_of es)).
Proof.
  intros Hn Ht. revert n Hn. induction es as [|e es IH]; intros n Hn; [by apply read_torn|].
  apply log_numbered_cons in Hn as (Hs & Hd & Hn). cbn [map app].
  rewrite read_event_line by done. rewrite (IH (S n) Hn). cbn [mbind result_bind].
  do 2 f_equal. unfold log_of. cbn [map]. rewrite text_of_cons. unfold line_of.
  rewrite !str_length_app. lia.
Qed.

Lemma numbered_envelopes n es : numbered n es -> Forall jwf (map envelope es).
Proof.
  intros H. apply Forall_map, Forall_lookup. intros i e Hi. by apply envelope_jwf, (H i e Hi).
Qed.

(** Reading a log gives its events and the length of their lines. *)
Lemma read_log d es t :
  log_ok d es t ->
  read_events_with_offset (events_file d) = Ok (map seen es, String.length (log_of es)).
Proof.
  intros [Hb Ht Hn]. unfold read_events_with_offset, file_bytes in *.
  assert (forall bytes, bytes = log_of es +:+ t ->
    read_event_lines (splitlines bytes) 0 = Ok (map seen es, String.length (log_of es))) as H.
  { intros bytes ->. unfold log_of.
    rewrite splitlines_text by (done || by eapply numbered_envelopes). by apply read_log_lines. }
  destruct (events_file d) as [bytes|]; simpl in Hb; [by apply H|]. apply (H "" Hb).
Qed.

(** A write happens, or the process dies in front of it. *)
Lemma persist_cases f d :
  persist f d = (Err Crash, die d) \/ exists b, persist f d = (Ok tt, set_budget (f d) b).
Proof. unfold persist. destruct (budget d) as [[|n]|]; eauto. Qed.

Lemma write_line_cases line d :
  (write_line line d = (Err Crash, die (set_events d (file_bytes d +:+ str_take (torn d) line)))
   /\ budget d = Some 0) \/
  exists b, write_line line d = (Ok tt, set_budget (set_events d (file_bytes d +:+ line)) b).
Proof. unfold write_line. destruct (budget d) as [[|n]|]; eauto. Qed.

Lemma str_take_front s t : str_take (String.length s) (s +:+ t) = s.
Proof.
  rewrite str_take_app, str_take_all by done. rewrite Nat.sub_diag.
  change (str_take 0 t) with "". apply str_app_nil_r.
Qed.

Lemma last_seq es :
  numbered 0 es ->
  match last (map seen es) with Some e => (seq e + 1)%Z | None => 1%Z end = Z.of_nat (length es + 1).
Proof.
  intros Hn. destruct es as [|e es _] using rev_ind; [done|].
  rewrite map_app. simpl. rewrite last_snoc. simpl.
  destruct (Hn (length es) e ltac:(by rewrite lookup_app_r, Nat.sub_diag)) as [-> _].
  rewrite length_app. simpl. lia.
Qed.

(** Writing the line of an event, wherever the write is cut short. *)
Lemma write_line_log d es e r d' :
  log_ok d es "" -> seq e = Z.of_nat (length es + 1) -> jwf (JObj (data e)) ->
  write_line (line_of (envelope e)) d = (r, d') ->
  exists es' t, log_ok d' es' t /\ (es' = es \/ es' = es ++ [e]) /\
    (r = Ok tt -> es' = es ++ [e] /\ t = "").
Proof.
  intros [Hb Ht Hn] Hs Hd H. rewrite str_app_nil_r in Hb.
  pose proof (numbered_snoc es e Hn Hs Hd) as Hn'.
  assert (log_of es +:+ line_of (envelope e) = log_of (es ++ [e])) as Hsnoc.
  { unfold log_of. rewrite map_app, text_of_app. simpl. unfold text_of at 3. simpl. done. }
  destruct (write_line_cases (line_of (envelope e)) d) as [[E _]|[b E]];
    rewrite E in H; injection H as <- <-.
  - pose proof (envelope_jwf e Hd) as Hj.
    destruct (decide (torn d < String.length (line_of (envelope e)))) as [Hlt|Hge].
    + exists es, (str_take (torn d) (dumps (envelope e))). split; [split|].
      * unfold file_bytes at 1. cbn [events_file set_events die default from_option id]. rewrite Hb. f_equal.
        unfold line_of in *. rewrite str_length_app in Hlt.
        change (String.length newline) with 1 in Hlt. rewrite str_take_app.
        replace (torn d - String.length (dumps (envelope e))) with 0 by lia.
        change (str_take 0 newline) with "". apply str_app_nil_r.
      * by apply str_take_printable, printable_dumps.
      * done.
      * by split; [left|].
    + exists (es ++ [e]), "". split; [split; [|done|done]|].
      * unfold file_bytes at 1. cbn [events_file set_events die default from_option id].
        rewrite Hb, str_take_all, str_app_nil_r by lia. done.
      * by split; [right|].
  - exists (es ++ [e]), "". split; [split; [|done|done]|].
    + unfold file_bytes at 1. cbn [events_file set_events set_budget default from_option id].
      by rewrite Hb, str_app_nil_r.
    + by split; [right|].
Qed.

(** The writes in front of the line leave the events alone. *)
Lemma log_ok_same d d' es t :
  log_ok d es t -> file_bytes d' = file_bytes d -> log_ok d' es t.
Proof. intros [Hb Ht Hn] E. split; [by rewrite E|done|done]. Qed.

Lemma cut_tail_log d es t r d' :
  log_ok d es t -> cut_tail (String.length (log_of es)) d = (r, d') ->
  (r = Err Crash /\ d' = die d) \/ (r = Ok tt /\ log_ok d' es "").
Proof.
  intros [Hb Ht Hn]. unfold cut_tail, get, mbind, stm_bind, file_bytes in *.
  destruct (events_file d) as [bytes|] eqn:Ef; simpl in Hb.
  - destruct (Nat.eqb_spec (String.length bytes) (String.length (log_of es))) as [El|El].
    + intros [= <- <-]. right. split; [done|]. split; [|done|done].
      unfold file_bytes. rewrite Ef. simpl. rewrite Hb, str_length_app in El.
      rewrite Hb. f_equal. destruct t; [done|simpl in El; lia].
    + match goal with |- persist ?f d = _ -> _ => destruct (persist_cases f d) as [->|[b ->]] end;
        intros [= <- <-]; [by left|].
      right. split; [done|]. split; [|done|done].
      unfold file_bytes. cbn [events_file set_events set_budget default from_option id].
      by rewrite Hb, str_take_front, str_app_nil_r.
  - intros [= <- <-]. right. split; [done|]. split; [|done|done].
    unfold file_bytes. rewrite Ef. simpl. symmetry in Hb.
    destruct (log_of es); [done|discriminate Hb].
Qed.

Lemma write_record_log d es e r d' :
  log_ok d es "" -> seq e = Z.of_nat (length es + 1) -> jwf (JObj (data e)) ->
  write_record e d = (r, d') ->
  exists es' t, log_ok d' es' t /\ (es' = es \/ es' = es ++ [e]) /\
    (r = Ok tt -> es' = es ++ [e] /\ t = "").
Proof.
  intros Hlog Hs Hd. unfold write_record, checksum, lift, mbind, stm_bind, canonical_bytes.
  rewrite (jwf_finite (JObj (event_fields e))).
  2: { apply jwf_obj. split; [apply (bool_decide_unpack _); by compute|].
       repeat (constructor; [first [exact I | exact Hd | apply jwf_jopt]|]). constructor. }
  cbn [result_bind]. fold (envelope e). rewrite jwf_finite by (by apply envelope_jwf).
  by apply write_line_log.
Qed.

(** [append_event] adds one event after those that were there, and wherever it
    is cut short at most that event is missing or there. *)
Lemma append_event_log d es t k dt r sv res d' :
  log_ok d es t -> jwf (JObj dt) -> append_event k dt r sv d = (res, d') ->
  exists es' t', log_ok d' es' t' /\ es `prefix_of` es' /\
    (forall e, res = Ok e -> es' = es ++ [e] /\ t' = "").
Proof.
  intros Hlog Hd H. unfold append_event in H.
  destruct (negb (str_in sv _)); [injection H as <- <-; by exists es, t|].
  unfold get, lift in H. unfold mbind at 1, stm_bind at 1 in H.
  unfold mbind at 1, stm_bind at 1 in H. rewrite (read_log d es t Hlog) in H.
  unfold mbind at 1, stm_bind at 1 in H.
  destruct (cut_tail _ d) as [r1 d1] eqn:E1.
  destruct (cut_tail_log d es t r1 d1 Hlog E1) as [[-> ->]|[-> Hlog1]];
    [injection H as <- <-; exists es, t; split; [by eapply log_ok_same|done]|].
  unfold mbind at 1, stm_bind at 1 in H. cbn [new_record] in H.
  unfold new_record, new_uuid, now, gets, modify, mret, stm_ret, mbind, stm_bind in H.
  rewrite last_seq in H by apply Hlog. cbn [calls tick] in H.
  match type of H with context [write_record ?e0 ?d0] =>
    set (e := e0) in *; set (d2 := d0) in *; destruct (write_record e d2) as [r2 d3] eqn:E2 end.
  assert (log_ok d2 es "") as Hlog2 by (by eapply log_ok_same).
  destruct (write_record_log d2 es e r2 d3 Hlog2 eq_refl Hd E2) as (es' & t' & Hl & Hes & Hok).
  exists es', t'.
  destruct r2 as [[]|err]; injection H as <- <-; (split; [done|]);
    (split; [destruct Hes as [->| ->]; [done|by apply prefix_app_r]|]).
  - intros ? [= <-]. by apply Hok.
  - by intros ? [=].
Qed.

(** Everything else in the store leaves the event log alone. *)
Definition same_log (bytes : string) (d : Disk) : Prop := file_bytes d = bytes.

Lemma keeps_persist (P : Disk -> Prop) f :
  (forall d, P d -> P (die d)) ->
  (forall d n, P d -> P (set_budget (f d) n)) -> keeps P (persist f).
Proof.
  intros Hdie H d r d' Hd. destruct (persist_cases f d) as [->|[b ->]]; intros [= <- <-]; auto.
Qed.

Lemma keeps_tick_get {A} (P : Disk -> Prop) (f : nat -> A) :
  (forall d, P d -> P (tick d)) -> keeps P (n ← gets calls; _ ← modify tick; mret (f n)).
Proof.
  intros H. apply keeps_bind; [apply keeps_gets|intros n].
  apply keeps_bind; [by apply keeps_modify|intros; apply keeps_ret].
Qed.

(** ** What the documents and directories of a store have in common *)

(** Every document satisfies [G] at its path, every directory [D]. *)
Definition all_good (G : path -> obj -> Prop) (D : path -> Prop) (d : Disk) : Prop :=
  (forall p o, docs d !! p = Some o -> G p o) /\ (forall q, q ∈ dirs d -> D q).

Section Good.
Context (G : path -> obj -> Prop) (D : path -> Prop).

Lemma keeps_mkdir p : (forall q, q ∈ ancestors p -> D q) -> keeps (all_good G D) (persist (mkdir p)).
Proof.
  intros Hp. apply keeps_persist; [by intros ? []|]. intros d b [Hdocs Hdirs]. split; [exact Hdocs|].
  intros q Hq. simpl in Hq. apply elem_of_union in Hq as [Hq|Hq]; [by apply Hdirs|].
  apply elem_of_list_to_set in Hq. by apply Hp.
Qed.

Lemma keeps_set_doc p o :
  G p o -> keeps (all_good G D) (persist (fun d => set_docs d (<[p := o]> (docs d)))).
Proof.
  intros Ho. apply keeps_persist; [by intros ? []|]. intros d b [Hdocs Hdirs]. split; [|exact Hdirs].
  intros q o'. simpl. destruct (decide (q = p)) as [->|Hne].
  - rewrite lookup_insert_eq. by intros [= <-].
  - rewrite lookup_insert_ne by done. apply Hdocs.
Qed.

Lemma keeps_write_json p value tuples replace_ :
  (forall q, q ∈ ancestors (parent p) -> D q) -> G p (sorted_members value) ->
  keeps (all_good G D) (write_json p value tuples replace_).
Proof.
  intros Hd Ho. unfold write_json. apply keeps_bind; [by apply keeps_mkdir|intros _].
  repeat (keeps_step || by apply keeps_set_doc).
Qed.

Lemma keeps_read_json p : keeps (all_good G D) (read_json p).
Proof. unfold read_json. repeat keeps_step. Qed.

Lemma keeps_doc_exists p : keeps (all_good G D) (doc_exists p).
Proof. apply keeps_gets. Qed.

Lemma keeps_idempotent p value keys tuples :
  (forall q, q ∈ ancestors (parent p) -> D q) -> G p (sorted_members value) ->
  keeps (all_good G D) (write_idempotent_record p value keys tuples).
Proof.
  intros Hd Ho. unfold write_idempotent_record.
  repeat (keeps_step || apply keeps_doc_exists || apply keeps_read_json || by apply keeps_write_json).
Qed.

Lemma keeps_now : keeps (all_good G D) (now).
Proof. unfold now. repeat keeps_step. by apply keeps_modify. Qed.

Lemma keeps_append_event k dt r sv : keeps (all_good G D) (append_event k dt r sv).
Proof.
  unfold append_event, cut_tail, new_record, new_uuid, now, write_record.
  repeat first
    [ keeps_step | apply keeps_modify; by intros ? [] | apply keeps_persist; [by intros ? []|by intros ? ? []] ].
  intros d r0 d' [Hdocs Hdirs] E.
  match type of E with write_line ?l d = _ => destruct (write_line_cases l d) as [[E' _]|[b E']] end;
    rewrite E' in E; injection E as <- <-; by split.
Qed.

Lemma keeps_move source target :
  (forall o, G source o -> G target o) -> keeps (all_good G D) (persist (move source target)).
Proof.
  intros Ho. apply keeps_persist; [by intros ? []|]. intros d b [Hdocs Hdirs]. unfold move.
  destruct (docs d !! source) as [doc|] eqn:E; [|by split]. split; [|exact Hdirs].
  intros q o. simpl. destruct (decide (q = target)) as [->|Hne].
  - rewrite lookup_insert_eq. intros [= <-]. by apply Ho, Hdocs.
  - rewrite lookup_insert_ne by done. intros Hq. apply lookup_delete_Some in Hq as [_ Hq]. by apply Hdocs.
Qed.

Lemma keeps_replace source target :
  (forall o, G source o -> G target o) -> keeps (all_good G D) (replace source target).
Proof.
  intros Ho. unfold replace. apply keeps_bind; [apply keeps_doc_exists|intros []]; [|apply keeps_raise].
  by apply keeps_move.
Qed.
End Good.

(** ** A process that does not die *)

Definition calm (d : Disk) : Prop := budget d = None /\ alive d = true.

Lemma persist_calm f d :
  budget d = None -> persist f d = (Ok tt, set_budget (f d) None).
Proof. unfold persist. by intros ->. Qed.

(** What work on other parts of the store leaves alone: the receipts; the log
    stays readable and the process alive. *)
Record frame (d0 d : Disk) : Prop := {
  fr_inbox place n : docs d !! inbox place n = docs d0 !! inbox place n;
  fr_log : exists es t, log_ok d es t;
  fr_calm : calm d;
}.

Section Frame.
Context (d0 : Disk).

(** A write that leaves receipts, log and process alone. *)
Lemma frame_persist f :
  (forall d, budget (f d) = budget d /\ alive (f d) = alive d /\ file_bytes (f d) = file_bytes d /\
     forall place n, docs (f d) !! inbox place n = docs d !! inbox place n) ->
  keeps (frame d0) (persist f).
Proof.
  intros Hf d r d' [Hi [es [t Hl]] [Hb Ha]]. rewrite persist_calm by done. intros [= <- <-].
  destruct (Hf d) as (H1 & H2 & H3 & H4). split; [|exists es, t; by eapply log_ok_same|by split; simpl; congruence].
  intros place n. simpl. by rewrite H4.
Qed.

Definition not_inbox (p : path) : Prop := forall place n, p <> inbox place n.

Lemma frame_set_doc p o :
  not_inbox p -> keeps (frame d0) (persist (fun d => set_docs d (<[p := o]> (docs d)))).
Proof.
  intros Hp. apply frame_persist. intros d. split_and!; try done.
  intros place n. simpl. by rewrite lookup_insert_ne.
Qed.

Lemma frame_mkdir p : keeps (frame d0) (persist (mkdir p)).
Proof. apply frame_persist. by intros d. Qed.

Lemma frame_write_json p value tuples replace_ :
  not_inbox p -> keeps (frame d0) (write_json p value tuples replace_).
Proof.
  intros Hp. unfold write_json. apply keeps_bind; [apply frame_mkdir|intros _].
  repeat (keeps_step || by apply frame_set_doc).
Qed.

Lemma frame_idempotent p value keys tuples :
  not_inbox p -> keeps (frame d0) (write_idempotent_record p value keys tuples).
Proof.
  intros Hp. unfold write_idempotent_record, doc_exists, read_json.
  repeat (keeps_step || by apply frame_write_json).
Qed.

Lemma frame_now : keeps (frame d0) now.
Proof.
  unfold now. repeat keeps_step. apply keeps_modify. intros d [Hi [es [t Hl]] [Hb Ha]].
  split; [done|exists es, t; by eapply log_ok_same|by split].
Qed.
End Frame.

(** Appending an event works when the log can be read. *)
Lemma append_event_total d es t k dt r sv :
  calm d -> log_ok d es t -> jwf (JObj dt) -> str_in sv ["record"; "notify"; "wake"] = true ->
  exists e d', append_event k dt r sv d = (Ok e, d') /\ calm d' /\ docs d' = docs d /\
    exists es' t', log_ok d' es' t'.
Proof.
  intros [Hb Ha] Hlog Hd Hsv. destruct (append_event k dt r sv d) as [res d'] eqn:E.
  destruct (append_event_log d es t k dt r sv res d' Hlog Hd E) as (es' & t' & Hlog' & _ & _).
  unfold append_event in E. rewrite Hsv in E. cbn [negb] in E.
  unfold get, lift in E. unfold mbind at 1, stm_bind at 1 in E.
  unfold mbind at 1, stm_bind at 1 in E. rewrite (read_log d es t Hlog) in E.
  unfold mbind at 1, stm_bind at 1 in E.
  assert (exists d1, cut_tail (String.length (log_of es)) d = (Ok tt, d1) /\ calm d1 /\ docs d1 = docs d)
    as (d1 & E1 & [Hb1 Ha1] & Hd1).
  { unfold cut_tail, get, mbind, stm_bind. destruct (events_file d) as [bytes|]; [|by exists d].
    destruct (_ =? _)%nat; [by exists d|]. rewrite persist_calm by done. eexists. split; [done|]. by split. }
  rewrite E1 in E. unfold mbind at 1, stm_bind at 1 in E. cbn [new_record] in E.
  unfold new_record, new_uuid, now, gets, modify, mret, stm_ret, mbind, stm_bind in E.
  cbn [calls tick] in E. match type of E with context [write_record ?e0 ?d0] =>
    set (e := e0) in *; set (d2 := d0) in * end.
  assert (exists d3, write_record e d2 = (Ok tt, d3) /\ calm d3 /\ docs d3 = docs d2) as (d3 & E3 & Hc3 & Hd3).
  { unfold write_record, checksum, lift, mbind, stm_bind, canonical_bytes.
    rewrite (jwf_finite (JObj (event_fields e))).
    2: { apply jwf_obj. split; [apply (bool_decide_unpack _); by compute|].
         repeat (constructor; [first [exact I | exact Hd | apply jwf_jopt]|]). constructor. }
    cbn [result_bind]. fold (envelope e). rewrite jwf_finite by (by apply envelope_jwf).
    unfold write_line. replace (budget d2) with (@None nat) by (symmetry; exact Hb1).
    eexists. split; [done|]. split; [|done]. split; [done|]. exact Ha1. }
  rewrite E3 in E. injection E as <- <-. exists e, d3. split; [done|]. split; [done|].
  split; [by rewrite Hd3|by exists es', t'].
Qed.

Lemma frame_append_event d0 k dt r sv :
  jwf (JObj dt) -> str_in sv ["record"; "notify"; "wake"] = true ->
  keeps (frame d0) (append_event k dt r sv).
Proof.
  intros Hd Hsv d res d' [Hi [es [t Hl]] Hc] E.
  destruct (append_event_total d es t k dt r sv Hc Hl Hd Hsv) as (e & d1 & E1 & Hc1 & Hd1 & Hl1).
  rewrite E1 in E. injection E as _ <-. split; [|done|done]. intros place n. by rewrite Hd1.
Qed.

(** ** Listing receipts *)

Lemma receipts_NoDup place d : NoDup (receipts place d).
Proof.
  unfold receipts. apply NoDup_fmap_2; [by intros x y [=]|]. apply NoDup_py_sorted.
  apply NoDup_omap_inj; [|apply NoDup_map_to_list].
  intros [p o] [p' o'] n Hp Hp' E E'. apply elem_of_map_to_list in Hp, Hp'. simpl in E, E'.
  assert (forall q, match q with
    | [t; q; n] => if String.eqb t "inbox" && String.eqb q place then Some n else None
    | _ => None end = Some n -> q = inbox place n) as Hq.
  { intros [|a [|b [|c [|]]]]; try done.
    destruct (String.eqb_spec a "inbox") as [->|]; [|done].
    destruct (String.eqb_spec b place) as [->|]; [|done]. by intros [= ->]. }
  apply Hq in E as ->. apply Hq in E' as ->. congruence.
Qed.

Lemma elem_of_receipts place d p :
  p ∈ receipts place d <-> exists n, p = inbox place n /\ is_Some (docs d !! inbox place n).
Proof.
  unfold receipts. rewrite list_elem_of_fmap. split.
  - intros (n & -> & Hn). exists n. split; [done|]. apply elem_of_py_sorted in Hn.
    apply list_elem_of_omap in Hn as ([q o] & Hq & E). apply elem_of_map_to_list in Hq. simpl in E.
    destruct q as [|a [|b [|c [|]]]]; try done.
    destruct (String.eqb_spec a "inbox") as [->|]; [|done].
    destruct (String.eqb_spec b place) as [->|]; [|done]. injection E as ->. by exists o.
  - intros (n & -> & [o Ho]). exists n. split; [done|]. apply elem_of_py_sorted.
    apply list_elem_of_omap. exists (inbox place n, o). split; [by apply elem_of_map_to_list|].
    simpl. by rewrite !String.eqb_refl.
Qed.

(** A process that starts: it will live through [b] writes. *)
Definition restart (b : option nat) (n : nat) (d : Disk) : Disk :=
  mkDisk (docs d) (dirs d) (texts d) (events_file d) (calls d) b n true.

(** Appends by one process after another, each of which may die in its append;
    what comes out are the events whose append returned. *)
Record append_call : Type := mkAppend {
  ac_kind : string; ac_data : obj; ac_run : option string; ac_severity : string;
  ac_budget : option nat; ac_torn : nat }.

Fixpoint append_all (l : list append_call) (d : Disk) : list EventRecord * Disk :=
  match l with
  | [] => ([], d)
  | c :: l' =>
      let '(r, d1) := append_event (ac_kind c) (ac_data c) (ac_run c) (ac_severity c)
                        (restart (ac_budget c) (ac_torn c) d) in
      let '(acks, d2) := append_all l' d1 in
      (match r with Ok e => e :: acks | Err _ => acks end, d2)
  end.

Lemma append_all_log l d es t acks d' :
  log_ok d es t -> Forall (fun c => jwf (JObj (ac_data c))) l -> append_all l d = (acks, d') ->
  exists more t', log_ok d' (es ++ more) t' /\ acks `sublist_of` more.
Proof.
  revert d es t acks. induction l as [|c l IH]; intros d es t acks Hlog Hl H.
  { injection H as <- <-. exists [], t. by rewrite app_nil_r. }
  apply Forall_cons in Hl as [Hc Hl]. cbn [append_all] in H.
  destruct (append_event _ _ _ _ _) as [r d1] eqn:E1.
  destruct (append_all l d1) as [acks1 d2] eqn:E2. injection H as <- <-.
  assert (log_ok (restart (ac_budget c) (ac_torn c) d) es t) as Hlog0 by (by eapply log_ok_same).
  destruct (append_event_log _ es t _ _ _ _ r d1 Hlog0 Hc E1) as (es1 & t1 & Hlog1 & [k ->] & Hack).
  destruct (IH d1 _ t1 acks1 Hlog1 Hl E2) as (more & t2 & Hlog2 & Hsub).
  exists (k ++ more), t2. rewrite app_assoc. split; [done|].
  destruct r as [e|err]; [|by apply sublist_inserts_l].
  destruct (Hack e eq_refl) as [Hk _]. apply app_inv_head in Hk as ->. by apply sublist_skip.
Qed.

(** C3 The event log survives crashes: let one process after another append
    to a new log, each with any number of writes left before it dies and any
    number of bytes of its last line reaching storage. The log can then still be read,
    its events are numbered 1, 2, ..., and every event whose append returned is among them, in
    order and with its contents. *)
Theorem event_log_survives l d acks d' :
  file_bytes d = "" -> Forall (fun c => jwf (JObj (ac_data c))) l ->
  append_all l d = (acks, d') ->
  exists evs, read_events 0 d' = (Ok evs, d') /\ map seen acks `sublist_of` evs /\
    (forall i e, evs !! i = Some e -> seq e = Z.of_nat (i + 1)).
Proof.
  intros Hnew Hl H.
  assert (log_ok d [] "") as H0 by (split; [done|done|by intros i e]).
  destruct (append_all_log l d [] "" acks d' H0 Hl H) as (es & t & Hlog & Hsub).
  exists (map seen es). split; [|split; [by apply sublist_map|]].
  - unfold read_events, get, lift, mbind, stm_bind. rewrite (read_log _ _ _ Hlog). cbn [mret stm_ret].
    unfold mret, stm_ret. do 2 f_equal. apply filterb_all. intros e Hin.
    apply list_elem_of_fmap in Hin as (e0 & -> & Hin).
    apply list_elem_of_lookup in Hin as [i Hi]. destruct (log_numbered _ _ _ Hlog i e0 Hi) as [Hs _].
    cbn [seen seq]. apply Z.ltb_lt. rewrite Hs. lia.
  - intros i e Hi. rewrite list_lookup_fmap in Hi. destruct (es !! i) as [e0|] eqn:E; [|done].
    injection Hi as <-. destruct (log_numbered _ _ _ Hlog i e0 E) as [Hs _]. simpl. rewrite Hs. lia.
Qed.

Lemma write_json_new (p : path) value tuples replace_ d d' :
  docs d !! p = None -> write_json p value tuples replace_ d = (Ok tt, d') ->
  docs d' = <[p := sorted_members value]> (docs d).
Proof.
  intros Hp. unfold write_json, get, lift, mbind, stm_bind.
  destruct (persist_cases (mkdir (parent p)) d) as [->|[b ->]]; [done|].
  destruct (canonical_bytes _); [|done].
  set (d1 := set_budget _ b). change (docs d) with (docs d1) in *. rewrite Hp.
  match goal with |- persist ?f d1 = _ -> _ => destruct (persist_cases f d1) as [->|[b' ->]] end;
    [done|]. by intros [= <-].
Qed.

(** The record of a key that was accepted, and the one found later. *)
Lemma accept_idempotency_Ok key q b d r d' :
  accept_idempotency key q b d = (Ok r, d') ->
  exists h o, digest blake2b "bc-idempotency" (JObj [("key", JStr key)]) = Ok h /\ blank key = false /\
    docs d' !! ["requests"; h +:+ ".json"] = Some o /\ is_str (jget o "request_digest") q = true /\
    is_str (jget r "request_digest") q = true /\ dumps (JObj o) = dumps (JObj r).
Proof.
  unfold accept_idempotency. destruct (blank key); [done|].
  intros (h & s1 & H1 & H)%stm_bind_Ok. unfold lift in H1.
  pose proof (f_equal fst H1) as Hh. apply (f_equal snd) in H1. cbn [fst snd] in Hh, H1. subst s1.
  apply stm_bind_Ok in H as (there & s2 & H1 & H). injection H1 as Hthere <-.
  exists h. case_bool_decide as Hex; subst there.
  - apply stm_bind_Ok in H as (o & s3 & H1 & H). unfold read_json, get, lift, mbind, stm_bind in H1.
    destruct (docs d !! ["requests"; h +:+ ".json"]) as [o'|] eqn:Eo; [|by destruct Hex].
    injection H1 as -> <-. destruct (is_str (jget o "request_digest") q) eqn:Eq; [|done].
    cbn [negb] in H. injection H as <- <-. exists o. split_and!; done.
  - apply stm_bind_Ok in H as ([] & s3 & H1 & H). injection H as <- <-.
    apply write_json_new in H1; [|by apply eq_None_not_Some].
    eexists. rewrite H1, lookup_insert_eq. split_and!; [exact Hh|done|reflexivity| | |].
    + rewrite jget_sorted_members by (apply (bool_decide_unpack _); by compute).
      cbn. apply String.eqb_refl.
    + cbn. apply String.eqb_refl.
    + rewrite <- (sort_keys_members [("key", JStr key); ("request_digest", JStr q); ("batch_id", JStr b)]).
      apply dumps_sort_keys.
Qed.

(** An idempotency key is bound once: an accepted key is on storage with
    the digest it was accepted for; as long as the record is kept, accepting it
    again for that digest returns the record and changes nothing - whatever
    batch id it comes with - and for another digest fails and changes nothing. *)
Theorem idempotency_key_bound_once key q b d r d' dk q' b' :
  accept_idempotency key q b d = (Ok r, d') ->
  (forall p o, docs d' !! p = Some o -> docs dk !! p = Some o) ->
  is_str (jget r "request_digest") q = true /\
  (accept_idempotency key q' b' dk).2 = dk /\
  (q' = q -> exists r', (accept_idempotency key q' b' dk).1 = Ok r' /\
                        dumps (JObj r') = dumps (JObj r)) /\
  (q' <> q -> (accept_idempotency key q' b' dk).1
              = Err (IdempotencyConflict "idempotency key was already used for a different request")).
Proof.
  intros H Hkeep. destruct (accept_idempotency_Ok _ _ _ _ _ _ H) as (h & o & Hh & Hb & Ho & Hq & Hr & Htext).
  split; [done|]. apply Hkeep in Ho.
  assert (accept_idempotency key q' b' dk
    = (if negb (is_str (jget o "request_digest") q')
       then (Err (IdempotencyConflict "idempotency key was already used for a different request"), dk)
       else (Ok o, dk))) as ->.
  { unfold accept_idempotency. rewrite Hb. unfold lift, doc_exists, gets, mbind, stm_bind. rewrite Hh.
    rewrite bool_decide_eq_true_2 by (rewrite Ho; done).
    unfold read_json, get, lift, mbind, stm_bind. rewrite Ho. cbn [of_option].
    by destruct (negb _). }
  destruct (jget o "request_digest") as [[| | | |s| |]|]; try done.
  cbn [is_str] in *. apply String.eqb_eq in Hq as ->.
  destruct (String.eqb_spec q q') as [->|Hne]; cbn [negb fst snd].
  - split; [done|]. split; [intros _; by exists o|done].
  - split; [done|]. split; [by intros ->|done].
Qed.

End Store.

(** ** Witnesses *)

Definition empty_disk : Disk := mkDisk ∅ {[ [] ]} ∅ None 0 None 0 true.
Definition demo_hash (person text : string) : string := person +:+ show_nat (String.length text).
Definition demo_time (n : nat) : Z := 1000 + Z.of_nat n.
Definition demo_uuid (n : nat) : string := "uuid-" +:+ show_nat n.

(** The second process dies after 20 bytes of its line; the third cuts them off. *)
Definition demo_appends : list append_call :=
  [mkAppend "job.submitted" [("batch_id", JStr "b-1")] (Some "r-1") "record" None 0;
   mkAppend "attempt.submitted" [] (Some "r-1") "record" (Some 0) 20;
   mkAppend "service.paused" [] None "record" None 0].

Lemma demo_appends_jwf : Forall (fun c => jwf (JObj (ac_data c))) demo_appends.
Proof. repeat constructor; set_solver. Qed.

Lemma event_log_survives_witness :
  exists evs, read_events demo_hash 0 (append_all demo_hash demo_time demo_uuid demo_appends empty_disk).2
    = (Ok evs, (append_all demo_hash demo_time demo_uuid demo_appends empty_disk).2) /\
  length (append_all demo_hash demo_time demo_uuid demo_appends empty_disk).1 = 2.
Proof.
  destruct (event_log_survives demo_hash demo_time demo_uuid demo_appends empty_disk
    (append_all demo_hash demo_time demo_uuid demo_appends empty_disk).1
    (append_all demo_hash demo_time demo_uuid demo_appends empty_disk).2
    ltac:(reflexivity) demo_appends_jwf
    ltac:(vm_compute; reflexivity)) as (evs & H & _).
  exists evs. split; [exact H|vm_compute; reflexivity].
Defined.

Lemma idempotency_key_bound_once_witness :
  (accept_idempotency demo_hash "" "key" "other" "b-2"
     (accept_idempotency demo_hash "" "key" "digest" "b-1" empty_disk).2).1
  = Err (IdempotencyConflict "idempotency key was already used for a different request").
Proof.
  set (d1 := (accept_idempotency demo_hash "" "key" "digest" "b-1" empty_disk).2).
  destruct (idempotency_key_bound_once demo_hash "" "key" "digest" "b-1" empty_disk
    [("key", JStr "key"); ("request_digest", JStr "digest"); ("batch_id", JStr "b-1")] d1
    d1 "other" "b-2" ltac:(vm_compute; reflexivity) ltac:(intros p o H; exact H)) as (_ & _ & _ & H).
  apply H. discriminate.
Defined.

End Store.
