(* ===== verification/Service.v ===== *)
(** The job service: [src/tools/bigcherry/jobs/service.py].

    The world of the service is the disk of the store, the executors and - for
    the statements only - the list of the executions it has launched.  A crash
    of the process is the error [Store.Crash], which no handler catches; disk and
    executors survive it.  Executors are used through the class
    [Executor.Executor], so the theorems hold for every executor with its laws.

    Parameters: the hash, the clock, the inventories, the scientific
    identities, and the worktrees, which are other components or programs. *)

From S2P Require Import Prelude Json Lines JobModel Executor Hardware Operations Store.
Import Json JobModel Hardware.

Module Service.

Notation obj := (list (string * json)).
Notation path := (list string).

Definition JobServiceError (msg : string) : exn := Exn "JobServiceError" msg.
Definition AmbiguousSubmission (msg : string) : exn := Exn "AmbiguousSubmission" msg.

(** [bool(d.get(k))] *)
Definition truthy_get (o : obj) (k : string) : bool :=
  match jget o k with Some v => jtruthy v | None => false end.

(** [d[k]] where the value is used as a dictionary. *)
Definition item_obj (o : obj) (k : string) : res obj := v ← item o k; as_object v.

Definition binding_dict (b : SeriesGpuBinding) : json :=
  JObj [("requirement", gpu_to_dict (sb_requirement b));
        ("selected_device_ids", jstrs (selected_device_ids b));
        ("hardware_cohort_hash", JStr (hardware_cohort_hash b));
        ("accepted_inventory_hash", JStr (accepted_inventory_hash b));
        ("reserve_all_of_arch", JBool (reserve_all_of_arch b));
        ("scheduler_architecture", JStr (scheduler_architecture b));
        ("scheduler_count", JInt (scheduler_count b))].

Definition binding_from_dict (value : obj) : res SeriesGpuBinding :=
  requirement ← item value "requirement";
  match requirement with
  | JObj req =>
      architecture ← item_str req "architecture";
      count ← get_int req "count" 1;
      min_vram ← get_int req "min_vram_bytes" 0;
      ids ← get_strs req "exact_device_ids";
      g ← new_gpu (mkGpuRequirement architecture count min_vram
        (get_bool req "homogeneous_model" true) (opt_str req "model")
        (get_bool req "require_peer_access" false) ids);
      selected_v ← item value "selected_device_ids";
      selected ← json_iter selected_v;
      cohort ← item_str value "hardware_cohort_hash";
      inv_hash ← item_str value "accepted_inventory_hash";
      reserve ← item value "reserve_all_of_arch";
      arch ← item_str value "scheduler_architecture";
      n ← item_int value "scheduler_count";
      Ok (mkBinding g (map jstr selected) cohort inv_hash (jtruthy reserve) arch n)
  | _ => Err (JobServiceError "persisted hardware binding requirement is invalid")
  end.

Section Service.
Context {S : Type} `{Executor.Executor S}.
Context (blake2b : string -> string -> string) (time_ns : nat -> Z) (uuid4 : nat -> string).
(** the store's root, the shared root, the Python interpreter *)
Context (root shared_root python : string).
Context (inventory_loader : string -> res HardwareInventory)
        (identity_resolver : JobSpec -> res obj)
        (attempt_identity : option (string -> JobSpec -> res obj)).
(** [WorkspaceManager.create]: the commit and the project root of an attempt *)
Context (workspace_create : string -> nat -> string -> res (string * string)).

Record World : Type := mkWorld {
  disk : Store.Disk;
  executors : gmap string S;
  launched : list (string * string);   (**r executor and execution id of every launch *)
}.

(** [try: m / except Exception as exc: h(exc)], unless the process has died. *)
Definition try_except {A} (m : stm World A) (h : exn -> stm World A) : stm World A := fun w =>
  match m w with
  | (Err e, w') => if Store.alive (disk w') then h e w' else (Err e, w')
  | ok => ok
  end.

(** A store operation. *)
Definition on_disk {A} (m : stm Store.Disk A) : stm World A := fun w =>
  let '(r, d) := m (disk w) in (r, mkWorld d (executors w) (launched w)).

(** [self.executors[executor_id]] *)
Definition executor_known (executor_id : string) : stm World unit := fun w =>
  match executors w !! executor_id with
  | Some _ => (Ok tt, w)
  | None => (Err (KeyError (py_repr executor_id)), w)
  end.

(** A method of that executor. *)
Definition on_executor {A} (executor_id : string) (m : stm S A) : stm World A := fun w =>
  match executors w !! executor_id with
  | Some s => let '(r, s') := m s in
              (r, mkWorld (disk w) (<[executor_id := s']> (executors w)) (launched w))
  | None => (Err (KeyError (py_repr executor_id)), w)
  end.

(** [executor.submit(request)], with the launch written down. *)
Definition launch (executor_id : string) (r : Executor.ExecutionRequest) :
    stm World Executor.ExecutionHandle :=
  h ← on_executor executor_id (Executor.submit r);
  _ ← modify (fun w => mkWorld (disk w) (executors w)
                (launched w ++ [(executor_id, Executor.er_execution_id r)]));
  mret h.

(** ** Planning *)

Definition series_material (j : JobSpec) (identity_hash executor_id : string)
    (inventory : HardwareInventory) (binding : SeriesGpuBinding) : obj :=
  [("patch", JStr (js_patch j)); ("architecture", JStr (js_architecture j));
   ("model", JStr (js_model j)); ("producer", jopt JStr (js_producer j));
   ("hip_path", jopt JStr (js_hip_path j)); ("baseline_source", JStr (js_baseline_source j));
   ("common_patches", jstrs (js_common_patches j));
   ("producer_inputs", jpairs (js_producer_inputs j));
   ("producer_corpus", jopt JStr (js_producer_corpus j));
   ("production_lane", JBool (js_production_lane j));
   ("planned_sessions", JInt (js_planned_sessions j)); ("code_ref", JStr (js_code_ref j));
   ("scientific_identity_hash", JStr identity_hash); ("executor_id", JStr executor_id);
   ("host_id", JStr (host_id inventory));
   ("platform_environment_hash", JStr (platform_environment_hash inventory));
   ("hardware_cohort_hash", JStr (hardware_cohort_hash binding))].

(** [identity_hash] must be a string that is not empty. *)
Definition identity_hash_of (identity : obj) : res string :=
  match jget identity "identity_hash" with
  | Some (JStr h) => if truthy h then Ok h
                     else Err (JobServiceError "scientific identity resolver did not provide identity_hash")
  | _ => Err (JobServiceError "scientific identity resolver did not provide identity_hash")
  end.

(** The [except HardwareBindingError] around the binding. *)
Definition bind_or_refuse (g : GpuRequirement) (inventory : HardwareInventory) : res SeriesGpuBinding :=
  match bind_gpu_requirement blake2b g inventory with
  | Err e => if String.eqb (exn_class e) "HardwareBindingError"
             then Err (JobServiceError (exn_message e)) else Err e
  | r => r
  end.

Definition run_id_of (series_id : string) (session : Z) : res string :=
  h ← digest blake2b "bc-run-v1" (JObj [("series_id", JStr series_id); ("session", JInt session)]);
  Ok ("r-" +:+ h).

(** What is planned for the first job of an architecture. *)
Definition plan_series (executor_id : string) (inventory : HardwareInventory) (job : JobSpec) : res obj :=
  g ← of_option (JobServiceError "validation batch requires an explicit GPU requirement") (js_gpu job);
  binding ← bind_or_refuse g inventory;
  identity ← identity_resolver job;
  identity_hash ← identity_hash_of identity;
  let material := series_material job identity_hash executor_id inventory binding in
  h ← digest blake2b "bc-series-v1" (JObj material);
  let series_id := "s-" +:+ h in
  runs ← mapR (fun session => r ← run_id_of series_id session;
                 Ok (JObj [("run_id", JStr r); ("session", JInt session)]))
           (sessions (js_planned_sessions job));
  Ok [("series_id", JStr series_id); ("series_material", JObj material);
      ("scientific_identity", JObj identity); ("binding", binding_dict binding);
      ("accepted_inventory_hash", JStr (material_hash blake2b inventory)); ("runs", JArr runs)].

(** The loop over the jobs: one series per architecture. *)
Definition plan_by_arch (executor_id : string) (inventory : HardwareInventory) (jobs : list JobSpec) :
    res (list (string * json)) :=
  foldR (fun (by_arch : list (string * json)) job =>
      if has_key by_arch (js_architecture job) then Ok by_arch
      else s ← plan_series executor_id inventory job;
           Ok (dict_set by_arch (js_architecture job) (JObj s)))
    jobs [].

Definition plan_batch (known : string -> bool) (b : BatchSpec) : res obj :=
  let target := bs_target b in
  let executor_id := tp_executor_id target in
  if negb (known executor_id) then Err (JobServiceError ("unknown executor: " +:+ executor_id))
  else
    inventory ← inventory_loader executor_id;
    if opt_truthy (tp_host_id target)
       && negb (String.eqb (opt_or (tp_host_id target) "") (host_id inventory)) then
      Err (JobServiceError ("target host mismatch: requested " +:+ opt_or (tp_host_id target) ""
             +:+ ", inventory is " +:+ host_id inventory))
    else if opt_truthy (tp_platform_family target)
       && negb (String.eqb (opt_or (tp_platform_family target) "") (platform_family inventory)) then
      Err (JobServiceError "target platform family does not match accepted inventory")
    else
      jobs ← expand b;
      by_arch ← plan_by_arch executor_id inventory jobs;
      Ok [("schema", JStr "bigcherry.jobs.plan.v1");
          ("request_hash", JStr (batch_request_hash blake2b b));
          ("executor_id", JStr executor_id); ("host_id", JStr (host_id inventory));
          ("platform_family", JStr (platform_family inventory));
          ("series", JArr (map snd (py_sorted by_key by_arch)))].

(** ** Submitting a batch *)

(** [jobs[(architecture, session)]] *)
Definition find_job (jobs : list JobSpec) (architecture : string) (session : Z) : res JobSpec :=
  of_option (KeyError ("(" +:+ py_repr architecture +:+ ", " +:+ show_Z session +:+ ")"))
    (List.find (fun j => String.eqb (js_architecture j) architecture && (js_session j =? session)%Z)
       (rev jobs)).

(** One run of a series: its record, its receipt, its event.  The record holds
    tuples, so it never equals one that is already stored. *)
Definition submit_run (b : BatchSpec) (jobs : list JobSpec) (batch_id series_id architecture : string)
    (s : obj) (run_v : json) : stm World unit :=
  r ← lift (as_object run_v);
  session ← lift (item_int r "session");
  run_id ← lift (item_str r "run_id");
  job ← lift (find_job jobs architecture session);
  identity ← lift (item s "scientific_identity");
  binding ← lift (item s "binding");
  created ← on_disk (Store.now time_ns);
  let run_record :=
    [("schema", JStr "bigcherry.jobs.run.v1"); ("run_id", JStr run_id);
     ("series_id", JStr series_id); ("batch_id", JStr batch_id); ("session", JInt session);
     ("job", job_to_dict job); ("scientific_identity", identity); ("binding", binding);
     ("executor_id", JStr (tp_executor_id (bs_target b))); ("created_ns", JInt created)] in
  _ ← on_disk (Store.create_run root run_id run_record true);
  _ ← on_disk (Store.enqueue blake2b time_ns root batch_id run_id "submit");
  _ ← on_disk (Store.append_event blake2b time_ns uuid4 "job.submitted"
                 [("batch_id", JStr batch_id); ("series_id", JStr series_id)] (Some run_id) "record");
  mret tt.

Definition submit_series (b : BatchSpec) (jobs : list JobSpec) (batch_id : string) (series_v : json) :
    stm World unit :=
  s ← lift (as_object series_v);
  series_id ← lift (item_str s "series_id");
  let series_record :=
    dict_update [("schema", JStr "bigcherry.jobs.series.v1"); ("series_id", JStr series_id);
                 ("batch_id", JStr batch_id)] s in
  _ ← on_disk (Store.create_series root series_id series_record true);
  material ← lift (item_obj s "series_material");
  architecture ← lift (item_str material "architecture");
  runs_v ← lift (item s "runs");
  runs ← lift (json_iter runs_v);
  iterM (submit_run b jobs batch_id series_id architecture s) runs.

Definition submit_batch (b : BatchSpec) (idempotency_key actor : string) : stm World obj :=
  w ← get;
  plan ← lift (plan_batch (fun e => bool_decide (is_Some (executors w !! e))) b);
  let request_hash := batch_request_hash blake2b b in
  h ← lift (digest blake2b "bc-batch-id"
              (JObj [("key", JStr idempotency_key); ("request_hash", JStr request_hash)]));
  let batch_id := "b-" +:+ h in
  accepted ← on_disk (Store.accept_idempotency blake2b root idempotency_key request_hash batch_id);
  accepted_id ← lift (item_str accepted "batch_id");
  there ← on_disk (Store.doc_exists (Store.batch_path accepted_id));
  if (there : bool) then on_disk (Store.batch root accepted_id)
  else
    created ← on_disk (Store.now time_ns);
    let record :=
      [("schema", JStr "bigcherry.jobs.batch-record.v1"); ("batch_id", JStr batch_id);
       ("request", batch_to_dict b); ("request_hash", JStr request_hash);
       ("idempotency_key", JStr idempotency_key); ("actor", JStr actor); ("plan", JObj plan);
       ("created_ns", JInt created)] in
    _ ← on_disk (Store.create_batch root batch_id record true);
    jobs ← lift (expand b);
    series_v ← lift (item plan "series");
    all ← lift (json_iter series_v);
    _ ← iterM (submit_series b jobs batch_id) all;
    on_disk (Store.batch root batch_id).

(** ** Starting attempts *)

Definition handle_of (submission : obj) : res Executor.ExecutionHandle :=
  e ← item_str submission "executor";
  n ← item_str submission "native_id";
  x ← item_str submission "execution_id";
  Ok (Executor.mkExecutionHandle e n x).

(** [shlex.quote] *)
Definition shell_safe (c : Ascii.ascii) : bool :=
  bool_decide (is_Some (digit_val c))
  || str_has c "abcdefghijklmnopqrstuvwxyzABCDEFGHIJKLMNOPQRSTUVWXYZ_@%+=:,./-".

Definition squote : string := String (Ascii.ascii_of_nat 39) "".

Fixpoint escape_quotes (s : string) : string :=
  match s with
  | EmptyString => ""
  | String c s' =>
      if Ascii.eqb c (Ascii.ascii_of_nat 39)
      then squote +:+ dquote +:+ squote +:+ dquote +:+ squote +:+ escape_quotes s'
      else String c (escape_quotes s')
  end.

Definition shlex_quote (s : string) : string :=
  if String.eqb s "" then squote +:+ squote
  else if Lines.str_all shell_safe s then s
  else squote +:+ escape_quotes s +:+ squote.

Definition attempt_dir (run_id : string) (attempt_no : nat) : string :=
  Store.show_path root (Store.attempt_root run_id attempt_no).

Definition launch_script (dir : string) : string :=
  "#!/bin/bash" +:+ newline +:+ "set -euo pipefail" +:+ newline +:+ "exec " +:+ shlex_quote python
    +:+ " -m bigcherry.jobs.runner --attempt-root " +:+ shlex_quote dir +:+ newline.

(** Writing a file that is not a document. *)
Definition write_text (p : path) (text : string) : stm Store.Disk unit :=
  _ ← Store.persist (Store.mkdir (Store.parent p));
  Store.persist (fun d => Store.set_texts d (<[p := text]> (Store.texts d))).

Definition request_to_dict (r : Executor.ExecutionRequest) : json :=
  JObj [("execution_id", JStr (Executor.er_execution_id r));
        ("command", jstrs (Executor.er_command r)); ("cwd", JStr (Executor.er_cwd r));
        ("env", jpairs (Executor.er_env r)); ("stdout_path", JStr (Executor.er_stdout_path r));
        ("stderr_path", JStr (Executor.er_stderr_path r));
        ("resources", Operations.resources_to_dict (Executor.er_resources r));
        ("dependencies", jstrs (Executor.er_dependencies r))].

Definition slurm : bool := String.eqb Executor.name "slurm".

(** [_execution_request] *)
Definition execution_request (r attempt : obj) (run_id : string) (attempt_no : nat) :
    stm World Executor.ExecutionRequest :=
  binding ← lift (item_obj r "binding");
  arch ← lift (item_str binding "scheduler_architecture");
  count ← lift (item_int binding "scheduler_count");
  gpu ← lift (Executor.new_scheduler_gpu (Executor.mkSchedulerGpuRequest arch count));
  run_name ← lift (item_str r "run_id");
  attempt_name ← lift (item_str attempt "attempt");
  selected_v ← lift (item binding "selected_device_ids");
  selected ← lift (json_iter selected_v);
  project_root ← lift (item_str attempt "project_root");
  let dir := attempt_dir run_id attempt_no in
  let env :=
    [("BIGCHERRY_RUN_ID", run_name); ("BIGCHERRY_ATTEMPT", attempt_name);
     ("BIGCHERRY_ATTEMPT_ROOT", dir); ("BIGCHERRY_JOBS_ROOT", root);
     ("BIGCHERRY_SELECTED_DEVICE_IDS", String.concat "," (map jstr selected));
     ("BIGCHERRY_RESOURCE_POLICY", if slurm then "external" else "local");
     ("PYTHONPATH", project_root +:+ "/tools")] in
  command ← (if slurm then
               let p := Store.attempt_root run_id attempt_no ++ ["launch.sh"] in
               _ ← on_disk (write_text p (launch_script dir));
               mret [Store.show_path root p]
             else mret [python; "-m"; "bigcherry.jobs.runner"; "--attempt-root"; dir]);
  execution_id ← lift (item_str attempt "execution_id");
  job ← lift (item_obj r "job");
  timeout ← lift (get_int job "timeout_seconds" 2700);
  resources ← lift (Executor.new_resources
    (Executor.mkResourceRequest 4 (Some gpu) "timed-measure" None timeout));
  lift (Executor.new_execution_request
    (Executor.mkExecutionRequest execution_id command project_root (py_sorted by_key env)
       (dir +:+ "/stdout.log") (dir +:+ "/stderr.log") resources [])).

(** The executions that may be this attempt: what the runner wrote down, or
    what the executor knows. *)
Definition find_matches (executor_id execution_id : string) (start : option obj) :
    stm World (list Executor.ExecutionHandle) :=
  match start with
  | Some st =>
      if truthy_get st "slurm_job_id" then
        native ← lift (item_str st "slurm_job_id");
        mret [Executor.mkExecutionHandle "slurm" native execution_id]
      else on_executor executor_id (Executor.correlate execution_id)
  | None => on_executor executor_id (Executor.correlate execution_id)
  end.

(** Writing the submission down, unless it is there. *)
Definition record_submission (run_id : string) (attempt_no : nat) (execution_id executor_id : string)
    (handle : Executor.ExecutionHandle) : stm World unit :=
  there ← on_disk (Store.doc_exists (Store.attempt_root run_id attempt_no ++ ["submission.json"]));
  if (there : bool) then mret tt
  else
    submitted ← on_disk (Store.now time_ns);
    _ ← on_disk (Store.write_submission root run_id attempt_no
      [("execution_id", JStr execution_id); ("executor_id", JStr executor_id);
       ("executor", JStr (Executor.eh_executor handle));
       ("native_id", JStr (Executor.eh_native_id handle)); ("submitted_ns", JInt submitted)]);
    _ ← on_disk (Store.append_event blake2b time_ns uuid4 "attempt.submitted"
      [("attempt", JInt (Z.of_nat attempt_no)); ("execution_id", JStr execution_id);
       ("native_id", JStr (Executor.eh_native_id handle))] (Some run_id) "record");
    mret tt.

(** [_submit_attempt] *)
Definition submit_attempt (r : obj) (attempt_no : nat) (executor_id : string) :
    stm World Executor.ExecutionHandle :=
  run_id ← lift (item_str r "run_id");
  attempt ← on_disk (Store.attempt root run_id attempt_no);
  request ← execution_request r attempt run_id attempt_no;
  intent ← on_disk (Store.read_optional (Store.attempt_root run_id attempt_no ++ ["submission-intent.json"]));
  execution_id ← lift (item_str attempt "execution_id");
  _ ← (match intent with
       | Some _ => mret tt
       | None =>
           h ← lift (digest blake2b "bc-exec-request" (request_to_dict request));
           commit ← lift (item_str attempt "commit");
           on_disk (Store.write_submission_intent root run_id attempt_no
             [("execution_id", JStr execution_id); ("request_hash", JStr h); ("commit", JStr commit)])
       end);
  start ← on_disk (Store.read_optional (Store.attempt_root run_id attempt_no ++ ["executor-start.json"]));
  matches ← find_matches executor_id execution_id start;
  handle ← (match matches with
            | [] => launch executor_id request
            | [h] => mret h
            | _ => raise (AmbiguousSubmission ("multiple native executions correlate to " +:+ execution_id))
            end);
  _ ← record_submission run_id attempt_no execution_id executor_id handle;
  mret handle.

(** [expected.get(k) != actual.get(k)] *)
Definition same_get (a b : obj) (k : string) : bool :=
  py_eqb (default JNull (jget a k)) (default JNull (jget b k)).

(** The record of a new attempt. *)
Definition new_attempt (r : obj) (run_id : string) (attempt_no : nat) : stm World unit :=
  control ← on_disk (Store.control root run_id);
  code_ref ← lift (if truthy_get control "retry_code_ref" then item_str control "retry_code_ref"
                   else job ← item_obj r "job"; item_str job "code_ref");
  '(commit, project_root) ← lift (workspace_create run_id attempt_no code_ref);
  _ ← (match jget control "retry_code_ref" with
       | None | Some JNull => mret tt
       | Some _ => _ ← on_disk (Store.set_control root run_id [("retry_code_ref", JNull)]); mret tt
       end);
  job_v ← lift (item_obj r "job");
  job ← lift (job_from_mapping job_v);
  expected ← lift (Store.dict_or_empty (jget r "scientific_identity"));
  _ ← lift (match attempt_identity with
            | None => Ok tt
            | Some resolver =>
                actual ← resolver project_root job;
                ensure (same_get actual expected "identity_hash")
                  (JobServiceError "scientific identity drifted before attempt start; create a new series")
            end);
  binding ← lift (item r "binding");
  created ← on_disk (Store.now time_ns);
  on_disk (Store.create_attempt root run_id attempt_no
    [("schema", JStr "bigcherry.jobs.attempt.v1"); ("run_id", JStr run_id);
     ("attempt", JInt (Z.of_nat attempt_no));
     ("execution_id", JStr (run_id +:+ ":a" +:+ show_nat attempt_no)); ("commit", JStr commit);
     ("project_root", JStr project_root); ("shared_root", JStr shared_root); ("job", JObj job_v);
     ("scientific_identity", JObj expected); ("binding", binding); ("created_ns", JInt created)]).

(** [_start_or_recover] *)
Definition start_or_recover (run_id : string) (force_new_attempt : bool) :
    stm World Executor.ExecutionHandle :=
  r ← on_disk (Store.run root run_id);
  executor_id ← lift (item_str r "executor_id");
  _ ← executor_known executor_id;
  latest ← on_disk (Store.latest_attempt run_id);
  match latest, force_new_attempt with
  | Some n, false =>
      submission ← on_disk (Store.read_optional (Store.attempt_root run_id n ++ ["submission.json"]));
      match submission with
      | Some ((_ :: _) as sub) => lift (handle_of sub)
      | _ => submit_attempt r n executor_id
      end
  | _, _ =>
      attempt_no ← on_disk (Store.next_attempt run_id);
      _ ← new_attempt r run_id attempt_no;
      submit_attempt r attempt_no executor_id
  end.

(** ** Ingesting receipts *)

Record Counts : Type := mkCounts { accepted : nat; rejected : nat; deferred : nat }.

Definition exception_text (e : exn) : string := exn_class e +:+ ": " +:+ exn_message e.

(** One receipt: what it counts as. *)
Definition ingest_receipt (receipt_path : path) : stm World Counts :=
  processing ← on_disk (Store.claim_pending root receipt_path);
  receipt ← on_disk (fun d => (of_option (Store.no_such_file root processing)
                                 (Store.docs d !! processing), d));
  run_id ← lift (item_str receipt "run_id");
  control ← on_disk (Store.control root run_id);
  if truthy_get control "disabled" then
    _ ← on_disk (Store.requeue_receipt root processing); mret (mkCounts 0 0 1)
  else
    ok ← try_except
           (_ ← start_or_recover run_id (String.eqb (get_str receipt "reason" "submit") "retry");
            mret true)
           (fun exc =>
              _ ← on_disk (Store.append_event blake2b time_ns uuid4 "attempt.submit-failed"
                    [("error", JStr (exception_text exc))] (Some run_id) "wake");
              _ ← on_disk (Store.finish_receipt root processing false);
              mret false);
    if (ok : bool) then _ ← on_disk (Store.finish_receipt root processing true); mret (mkCounts 1 0 0)
    else mret (mkCounts 0 1 0).

Definition add_counts (a b : Counts) : Counts :=
  mkCounts (accepted a + accepted b) (rejected a + rejected b) (deferred a + deferred b).

Definition ingest_once : stm World Counts :=
  claimable ← on_disk Store.claimable;
  control ← on_disk (Store.service_control root);
  if truthy_get control "paused" then mret (mkCounts 0 0 (length claimable))
  else
    counts ← mapM_st ingest_receipt claimable;
    mret (fold_right add_counts (mkCounts 0 0 0) counts).

(** ** Status and control *)

Definition handle_for_run (run_id : string) : stm World (string * Executor.ExecutionHandle * nat) :=
  r ← on_disk (Store.run root run_id);
  attempt_no ← on_disk (Store.latest_attempt run_id);
  match attempt_no with
  | None => raise (JobServiceError "run has no attempt")
  | Some n =>
      submission ← on_disk (Store.read_optional (Store.attempt_root run_id n ++ ["submission.json"]));
      match submission with
      | Some ((_ :: _) as sub) =>
          executor_id ← lift (item_str r "executor_id");
          _ ← executor_known executor_id;
          h ← lift (handle_of sub);
          mret (executor_id, h, n)
      | _ => raise (JobServiceError "attempt has no submission")
      end
  end.

Definition state_of_run (run_id : string) (attempt_no : option nat) (control : obj) :
    stm World string :=
  if truthy_get control "cancelled" then mret "cancelled"
  else match attempt_no with
       | None => mret (if truthy_get control "disabled" then "disabled" else "queued")
       | Some n =>
           '(executor_id, handle, _) ← handle_for_run run_id;
           terminal ← on_disk (Store.read_optional (Store.attempt_root run_id n ++ ["executor-result.json"]));
           match terminal with
           | Some ((_ :: _) as t) =>
               code ← lift (get_int t "returncode" 1);
               mret (if (code =? 0)%Z then "completed" else "failed")
           | _ =>
               st ← on_executor executor_id (Executor.status handle);
               mret (Executor.execution_state_value (Executor.es_state st))
           end
       end.

Definition status (run_id : string) : stm World obj :=
  r ← on_disk (Store.run root run_id);
  attempt_no ← on_disk (Store.latest_attempt run_id);
  control ← on_disk (Store.control root run_id);
  state ← state_of_run run_id attempt_no control;
  series_id ← lift (item r "series_id");
  session ← lift (item r "session");
  mret [("run_id", JStr run_id); ("series_id", series_id); ("session", session);
        ("state", JStr state); ("attempt", jopt (fun n => JInt (Z.of_nat n)) attempt_no);
        ("disabled", JBool (truthy_get control "disabled"))].

Definition list_status : stm World (list obj) :=
  runs ← on_disk (Store.list_runs root);
  mapM_st (fun r => id ← lift (item_str r "run_id"); status id) runs.

Definition control_run (run_id action : string) : stm World obj :=
  _ ← (if String.eqb action "disable" then
         _ ← on_disk (Store.set_control root run_id [("disabled", JBool true)]); mret tt
       else if String.eqb action "enable" then
         _ ← on_disk (Store.set_control root run_id [("disabled", JBool false)]); mret tt
       else if String.eqb action "cancel" then
         '(executor_id, handle, _) ← handle_for_run run_id;
         _ ← on_executor executor_id (Executor.cancel handle);
         _ ← on_disk (Store.set_control root run_id [("cancelled", JBool true)]); mret tt
       else if str_in action ["hold"; "release"] then
         '(executor_id, handle, _) ← handle_for_run run_id;
         on_executor executor_id (Executor.control handle
           (if String.eqb action "hold" then Executor.HOLD else Executor.RELEASE))
       else raise (ValueError ("unknown control action: " +:+ action)));
  _ ← on_disk (Store.append_event blake2b time_ns uuid4 ("job." +:+ action) [] (Some run_id) "record");
  status run_id.

Definition pause (paused : bool) : stm World obj :=
  value ← on_disk (Store.set_service_control root [("paused", JBool paused)]);
  _ ← on_disk (Store.append_event blake2b time_ns uuid4
                 (if paused then "service.paused" else "service.resumed") [] None "record");
  mret value.

Definition retry (run_id : string) (latest : bool) : stm World unit :=
  r ← on_disk (Store.run root run_id);
  _ ← (if negb latest then
         previous ← on_disk (Store.latest_attempt run_id);
         match previous with
         | None => raise (JobServiceError "cannot retry same commit before first attempt")
         | Some n =>
             attempt ← on_disk (Store.attempt root run_id n);
             commit ← lift (item_str attempt "commit");
             _ ← on_disk (Store.set_control root run_id
                   [("retry_code_ref", JStr commit); ("cancelled", JBool false)]);
             mret tt
         end
       else
         _ ← on_disk (Store.set_control root run_id
               [("retry_code_ref", JNull); ("cancelled", JBool false)]);
         mret tt);
  batch_id ← lift (item_str r "batch_id");
  _ ← on_disk (Store.enqueue blake2b time_ns root batch_id run_id "retry");
  _ ← on_disk (Store.append_event blake2b time_ns uuid4 "job.retry-requested"
                 [("latest", JBool latest)] (Some run_id) "record");
  mret tt.

(** [review] *)
Definition by_session : Z * obj -> Z * obj -> bool := on_key fst Z.leb.

Definition completed (status : obj) : bool := is_str (jget status "state") "completed".

Record Review : Type := mkReview {
  rv_series_id : string;
  rv_planned_sessions : Z;
  rv_completed_sessions : nat;
  rv_missing_sessions : list json;
  rv_execution_complete : bool;
  rv_evidence_ready : bool;
  rv_review_ready : bool;
  rv_runs : list obj;
}.

Definition review (series_id : string) : stm World Review :=
  series ← on_disk (Store.series root series_id);
  all ← on_disk (Store.list_runs root);
  let runs := List.filter (fun r => is_str (jget r "series_id") series_id) all in
  keyed ← lift (mapR (fun r => n ← item_int r "session"; Ok (n, r)) runs);
  statuses ← mapM_st (fun nr => id ← lift (item_str nr.2 "run_id"); status id)
               (py_sorted by_session keyed);
  material ← lift (item_obj series "series_material");
  planned ← lift (item_int material "planned_sessions");
  let n := length (List.filter completed statuses) in
  let execution_complete := (Z.of_nat n =? planned)%Z in
  evidence ← on_disk (Store.read_optional ["series"; series_id; "verified-evidence.json"]);
  let evidence_ready := match evidence with
                        | Some e => match jget e "verified" with Some (JBool true) => true | _ => false end
                        | None => false
                        end in
  missing ← lift (mapR (fun st => item st "session") (List.filter (fun st => negb (completed st)) statuses));
  mret (mkReview series_id planned n missing execution_complete evidence_ready
          (execution_complete && evidence_ready) statuses).

(** [logs]: a slice of a log file, and where the next slice starts. *)
Record LogSlice : Type := mkLogSlice { ls_offset : nat; ls_next : nat; ls_data : string; ls_eof : bool }.

Definition logs (run_id stream : string) (offset limit : nat) : stm World LogSlice :=
  if negb (str_in stream ["stdout"; "stderr"]) then
    raise (ValueError "stream must be stdout or stderr")
  else
    attempt_no ← on_disk (Store.latest_attempt run_id);
    match attempt_no with
    | None => mret (mkLogSlice offset offset "" true)
    | Some n =>
        w ← get;
        match Store.texts (disk w) !! (Store.attempt_root run_id n ++ [stream +:+ ".log"]) with
        | None => mret (mkLogSlice offset offset "" true)
        | Some text =>
            let raw := Lines.str_take limit (str_drop offset text) in
            let next := offset + String.length raw in
            mret (mkLogSlice offset next raw (String.length text <=? next)%nat)
        end
    end.

(** ** Snapshots: [src/tools/bigcherry/jobs/status.py] *)

Record Snapshot : Type := mkSnapshot {
  sn_generated_ns : Z;
  sn_last_event_seq : Z;
  sn_paused : bool;
  sn_pending_receipts : nat;
  sn_processing_receipts : nat;
  sn_state_counts : list (string * nat);
  sn_jobs : list obj;
  sn_series : list obj;
  sn_executors : list obj;
}.

(** [Counter]: in the order of first occurrence. *)
Definition count_one (counts : list (string * nat)) (s : string) : list (string * nat) :=
  dict_set counts s (default 0 (jget counts s) + 1).

Definition counter (l : list string) : list (string * nat) := fold_left count_one l [].

(** [str(row[key])] of every row, for sorting. *)
Definition sorted_rows (key : string) (rows : list obj) : res (list obj) :=
  keyed ← mapR (fun r => k ← item_str r key; Ok (k, r)) rows;
  Ok (map snd (py_sorted by_key keyed)).

Definition series_row (record : obj) : stm World obj :=
  series_id ← lift (item_str record "series_id");
  rv ← review series_id;
  mret [("series_id", JStr series_id); ("planned_sessions", JInt (rv_planned_sessions rv));
        ("completed_sessions", JInt (Z.of_nat (rv_completed_sessions rv)));
        ("execution_complete", JBool (rv_execution_complete rv));
        ("review_ready", JBool (rv_review_ready rv)); ("evidence_commit", JNull)].

Definition build_snapshot (executor_rows : list obj) : stm World Snapshot :=
  events ← on_disk (Store.read_events blake2b 0);
  jobs0 ← list_status;
  jobs ← lift (sorted_rows "run_id" jobs0);
  states ← lift (mapR (fun row => item_str row "state") jobs);
  records ← on_disk (Store.list_series root);
  series0 ← mapM_st series_row records;
  series ← lift (sorted_rows "series_id" series0);
  generated ← on_disk (Store.now time_ns);
  control ← on_disk (Store.service_control root);
  pending ← on_disk Store.pending;
  processing ← on_disk Store.processing;
  mret (mkSnapshot generated (match last events with Some e => Store.seq e | None => 0%Z end)
          (truthy_get control "paused") (length pending) (length processing)
          (py_sorted by_key (counter states)) jobs series
          (py_sorted (on_key (fun row => get_str row "executor_id" "") String.leb) executor_rows)).

(** [str(state).replace(backslash, two).replace(quote, backslash quote)] *)
Fixpoint label_text (s : string) : string :=
  match s with
  | EmptyString => ""
  | String c s' =>
      if Ascii.eqb c backslash then String backslash (String backslash (label_text s'))
      else if Ascii.eqb c quote then String backslash (String quote (label_text s'))
      else String c (label_text s')
  end.

Definition labelled (metric label value count : string) : string :=
  metric +:+ "{" +:+ label +:+ "=" +:+ dquote +:+ value +:+ dquote +:+ "} " +:+ count.

Definition render_prometheus (sn : Snapshot) : string :=
  let lines :=
    ["# HELP bigcherry_jobs_paused Whether BigCherry job admission is paused.";
     "# TYPE bigcherry_jobs_paused gauge";
     "bigcherry_jobs_paused " +:+ (if sn_paused sn then "1" else "0");
     "# HELP bigcherry_jobs_last_event_seq Last durable BigCherry event sequence.";
     "# TYPE bigcherry_jobs_last_event_seq gauge";
     "bigcherry_jobs_last_event_seq " +:+ show_Z (sn_last_event_seq sn);
     "# HELP bigcherry_jobs_queue_receipts Durable inbox receipts by state.";
     "# TYPE bigcherry_jobs_queue_receipts gauge";
     labelled "bigcherry_jobs_queue_receipts" "state" "pending" (show_nat (sn_pending_receipts sn));
     labelled "bigcherry_jobs_queue_receipts" "state" "processing" (show_nat (sn_processing_receipts sn));
     "# HELP bigcherry_jobs_runs Runs by normalized executor/domain state.";
     "# TYPE bigcherry_jobs_runs gauge"]
    ++ map (fun sc => labelled "bigcherry_jobs_runs" "state" (label_text sc.1) (show_nat sc.2))
         (sn_state_counts sn)
    ++ ["# HELP bigcherry_jobs_series_review_ready Series with committed verified evidence ready for review.";
        "# TYPE bigcherry_jobs_series_review_ready gauge";
        "bigcherry_jobs_series_review_ready "
          +:+ show_nat (length (List.filter (fun row => truthy_get row "review_ready") (sn_series sn)))] in
  String.concat newline lines +:+ newline.

(** [row.get(key) or ''] in a format string. *)
Definition cell (row : obj) (key : string) : string :=
  match jget row key with
  | Some v => if jtruthy v then jstr v else ""
  | None => ""
  end.

Definition render_markdown (sn : Snapshot) : res string :=
  job_rows ← mapR (fun row =>
      run_id ← item_str row "run_id"; state ← item_str row "state";
      Ok ("| `" +:+ run_id +:+ "` | " +:+ state +:+ " | " +:+ cell row "attempt" +:+ " | "
            +:+ cell row "executor" +:+ " | " +:+ cell row "reason" +:+ " |")) (sn_jobs sn);
  series_rows ← mapR (fun row =>
      id ← item_str row "series_id"; n ← item_str row "completed_sessions";
      m ← item_str row "planned_sessions";
      Ok ("| `" +:+ id +:+ "` | " +:+ n +:+ "/" +:+ m +:+ " | "
            +:+ (if truthy_get row "execution_complete" then "complete" else "incomplete") +:+ " | "
            +:+ (if truthy_get row "review_ready" then "ready" else "not ready") +:+ " |")) (sn_series sn);
  Ok (String.concat newline
    (["# BigCherry jobs status"; ""; "- Paused: **" +:+ (if sn_paused sn then "yes" else "no") +:+ "**";
      "- Last event: `" +:+ show_Z (sn_last_event_seq sn) +:+ "`";
      "- Pending receipts: " +:+ show_nat (sn_pending_receipts sn);
      "- Processing receipts: " +:+ show_nat (sn_processing_receipts sn);
      ""; "## Runs"; ""; "| Run | State | Attempt | Executor | Reason |"; "|---|---|---:|---|---|"]
     ++ job_rows ++ [""; "## Series"; ""; "| Series | Sessions | Execution | Review |"; "|---|---:|---|---|"]
     ++ series_rows ++ [""])).

Definition snapshot_json (sn : Snapshot) : json :=
  JObj [("schema", JStr "bigcherry.jobs.status.v1"); ("generated_ns", JInt (sn_generated_ns sn));
        ("last_event_seq", JInt (sn_last_event_seq sn)); ("paused", JBool (sn_paused sn));
        ("queue", JObj [("pending_receipts", JInt (Z.of_nat (sn_pending_receipts sn)));
                        ("processing_receipts", JInt (Z.of_nat (sn_processing_receipts sn)))]);
        ("state_counts", JObj (map (fun sc => (sc.1, JInt (Z.of_nat sc.2))) (sn_state_counts sn)));
        ("jobs", JArr (map JObj (sn_jobs sn))); ("series", JArr (map JObj (sn_series sn)));
        ("executors", JArr (map JObj (sn_executors sn)))].

Definition canonical_json (sn : Snapshot) : string := dumps (snapshot_json sn) +:+ newline.

(** ** Calls *)

Inductive call : Type :=
| CSubmit (b : BatchSpec) (key actor : string)
| CIngest
| CStatus (run_id : string)
| CListStatus
| CControl (run_id action : string)
| CPause (paused : bool)
| CRetry (run_id : string) (latest : bool)
| CReview (series_id : string)
| CLogs (run_id stream : string) (offset limit : nat)
| CSnapshot (rows : list obj).

Definition ignore {A} (m : stm World A) : stm World unit := _ ← m; mret tt.

Definition run_call (c : call) : stm World unit :=
  match c with
  | CSubmit b key actor => ignore (submit_batch b key actor)
  | CIngest => ignore ingest_once
  | CStatus r => ignore (status r)
  | CListStatus => ignore list_status
  | CControl r a => ignore (control_run r a)
  | CPause p => ignore (pause p)
  | CRetry r l => retry r l
  | CReview s => ignore (review s)
  | CLogs r st o l => ignore (logs r st o l)
  | CSnapshot rows => ignore (build_snapshot rows)
  end.

(** A process starts, will live through [b] writes, and makes one call. *)
Definition restart_world (b : option nat) (n : nat) (w : World) : World :=
  mkWorld (Store.restart b n (disk w)) (executors w) (launched w).

Definition process (c : call) (b : option nat) (n : nat) (w : World) : World :=
  (run_call c (restart_world b n w)).2.

Context (ok : S -> Prop) `{!Executor.ExecutorLaws S ok}.

(** The executors go on by themselves, and other programs write to the disk. *)
Definition executors_evolve (w w' : World) : Prop :=
  launched w' = launched w /\
  forall x, match executors w !! x, executors w' !! x with
            | Some s, Some s' => Executor.quiet ok s s'
            | None, None => True
            | _, _ => False
            end.

(** ** No execution is launched twice *)

(** The executor finds an execution. *)
Definition known (s : S) (e : string) : Prop :=
  exists hs, Executor.correlate e s = (Ok hs, s) /\ hs <> [].

Record launch_inv (w : World) : Prop := {
  li_ok x s : executors w !! x = Some s -> ok s;
  li_known x e : (x, e) ∈ launched w -> exists s, executors w !! x = Some s /\ known s e;
  li_once : NoDup (launched w);
}.

Lemma quiet_known s s' e : ok s -> Executor.quiet ok s s' -> known s e -> known s' e.
Proof.
  intros Hs [Hok Hc] (hs & Hcor & Hne). exists hs. split; [|done].
  destruct (Executor.correlate_pure s' e Hok) as [hs' E']. specialize (Hc e).
  rewrite E', Hcor in Hc. cbn [fst] in Hc. congruence.
Qed.

Lemma quiet_refl s : ok s -> Executor.quiet ok s s.
Proof. by split. Qed.

(** Replacing the state of one executor. *)
Lemma launch_inv_insert d x s s' l w :
  launch_inv w -> executors w !! x = Some s -> ok s' ->
  (forall e, (x, e) ∈ l -> known s' e) -> (forall y e, y <> x -> (y, e) ∈ l -> (y, e) ∈ launched w) ->
  NoDup l -> launch_inv (mkWorld d (<[x := s']> (executors w)) l).
Proof.
  intros Hw Hx Hok Hk Hl Hnd. split; simpl; [| |done].
  - intros y t. destruct (decide (y = x)) as [->|Hne].
    + rewrite lookup_insert_eq. by intros [= <-].
    + rewrite lookup_insert_ne by done. apply (li_ok w Hw).
  - intros y e Hin. destruct (decide (y = x)) as [->|Hne].
    + exists s'. rewrite lookup_insert_eq. split; [done|by apply Hk].
    + rewrite lookup_insert_ne by done. apply (li_known w Hw). by apply Hl.
Qed.

Lemma known_of w x e s :
  launch_inv w -> executors w !! x = Some s -> (x, e) ∈ launched w -> known s e.
Proof. intros Hw Hx Hin. destruct (li_known w Hw x e Hin) as (t & Ht & Hk). congruence. Qed.

Lemma keeps_on_disk {A} (m : stm Store.Disk A) : keeps launch_inv (on_disk m).
Proof.
  intros w r w' Hw. unfold on_disk. destruct (m (disk w)) as [r1 d]. intros [= <- <-].
  destruct Hw. by split.
Qed.

Lemma keeps_executor_known x : keeps launch_inv (executor_known x).
Proof. intros w r w' Hw. unfold executor_known. by destruct (_ !! _); intros [= <- <-]. Qed.

(** A method that leaves the execution identities alone. *)
Lemma keeps_on_executor {A} x (m : stm S A) :
  (forall s r s', ok s -> m s = (r, s') -> Executor.quiet ok s s') ->
  keeps launch_inv (on_executor x m).
Proof.
  intros Hm w r w' Hw. unfold on_executor. destruct (executors w !! x) as [s|] eqn:Hx.
  - destruct (m s) as [r1 s'] eqn:Es. intros [= <- <-].
    pose proof (li_ok w Hw x s Hx) as Hs. pose proof (Hm _ _ _ Hs Es) as Hq.
    eapply launch_inv_insert; [done|done|apply Hq| |by auto|apply Hw].
    intros e Hin. eapply quiet_known; [done|done|]. by eapply known_of.
  - by intros [= <- <-].
Qed.

Lemma correlate_quiet e s r s' : ok s -> Executor.correlate e s = (r, s') -> Executor.quiet ok s s'.
Proof.
  intros Hs E. destruct (Executor.correlate_pure s e Hs) as [hs H1]. rewrite E in H1.
  injection H1 as _ ->. by apply quiet_refl.
Qed.

Ltac launch_step :=
  first
    [ keeps_step
    | apply keeps_on_disk
    | apply keeps_executor_known
    | apply keeps_on_executor; eauto using correlate_quiet, Executor.status_quiet,
        Executor.cancel_quiet, Executor.control_quiet ].

(** Launching an execution the executor does not know. *)
Lemma launch_new x r w res w' :
  launch_inv w -> (exists s, executors w !! x = Some s /\
                    Executor.correlate (Executor.er_execution_id r) s = (Ok [], s)) ->
  launch x r w = (res, w') -> launch_inv w'.
Proof.
  intros Hw (s & Hx & Hnew). pose proof (li_ok w Hw x s Hx) as Hs.
  unfold launch, on_executor, mbind, stm_bind. rewrite Hx.
  destruct (Executor.submit r s) as [res1 s'] eqn:Es.
  destruct (Executor.submit_frame s r res1 s' Hs Es) as [Hs' Hframe].
  set (e := Executor.er_execution_id r) in *.
  assert (forall e', e' <> e -> known s e' -> known s' e') as Hother.
  { intros e' Hne (hs & Hc & Hhs). exists hs. split; [|done].
    destruct (Executor.correlate_pure s' e' Hs') as [hs' Hc']. specialize (Hframe e' Hne).
    rewrite Hc, Hc' in Hframe. cbn [fst] in Hframe. congruence. }
  assert ((x, e) ∉ launched w) as Hfresh.
  { intros Hin. destruct (known_of w x e s Hw Hx Hin) as (hs & Hc & Hne). congruence. }
  assert (forall e', (x, e') ∈ launched w -> known s' e') as Hold.
  { intros e' Hin. apply Hother; [by intros ->|]. by eapply known_of. }
  destruct res1 as [h|err]; intros [= <- <-].
  - destruct (Executor.submit_launches s r h s' Hs Hnew Es) as (_ & _ & Hc).
    cbn [disk executors launched]. eapply launch_inv_insert; [done|done|done| | |].
    + intros e' [Hin|[= ->]%list_elem_of_singleton]%elem_of_app; [by apply Hold|].
      exists [h]. split; [exact Hc|done].
    + intros y e' Hne [Hin|[= -> ->]%list_elem_of_singleton]%elem_of_app; [done|by destruct Hne].
    + apply NoDup_app. split; [apply Hw|]. split; [|apply NoDup_singleton].
      intros y Hin ->%list_elem_of_singleton. by apply Hfresh.
  - eapply launch_inv_insert; [done|done|done|by apply Hold|by auto|apply Hw].
Qed.

Lemma keeps_execution_request r attempt run_id n :
  keeps launch_inv (execution_request r attempt run_id n).
Proof. unfold execution_request. repeat launch_step. Qed.

Lemma execution_request_id r attempt run_id n w q w' :
  execution_request r attempt run_id n w = (Ok q, w') ->
  item_str attempt "execution_id" = Ok (Executor.er_execution_id q).
Proof.
  unfold execution_request.
  do 9 (intros (? & ? & _ & E)%stm_bind_Ok; revert E).
  intros (cmd & w1 & _ & E)%stm_bind_Ok. revert E.
  intros (eid & w2 & E1 & E)%stm_bind_Ok. revert E.
  do 3 (intros (? & ? & _ & E)%stm_bind_Ok; revert E).
  unfold lift in *. intros [= E _]. injection E1 as E1 _. rewrite E1.
  unfold Executor.new_execution_request in E. inv_ok. done.
Qed.

(** The request of an attempt is for the attempt's execution. *)
Lemma execution_request_spec r attempt run_id n :
  hoare launch_inv (execution_request r attempt run_id n)
    (fun res w => launch_inv w /\ forall q, res = Ok q ->
       item_str attempt "execution_id" = Ok (Executor.er_execution_id q)).
Proof.
  intros w res w' Hw E. split.
  { eapply keeps_execution_request; [exact Hw|exact E]. }
  intros q ->. by eapply execution_request_id.
Qed.

(** When nothing matches, the executor was asked and does not know the execution. *)
Lemma find_matches_spec x e start :
  hoare launch_inv (find_matches x e start)
    (fun res w => launch_inv w /\ (res = Ok [] -> exists s, executors w !! x = Some s /\
       Executor.correlate e s = (Ok [], s))).
Proof.
  assert (hoare launch_inv (on_executor x (Executor.correlate e))
    (fun res w => launch_inv w /\ (res = Ok [] -> exists s, executors w !! x = Some s /\
       Executor.correlate e s = (Ok [], s)))) as Hask.
  { intros w res w' Hw E. split.
    - eapply keeps_on_executor; [by eauto using correlate_quiet|exact Hw|exact E].
    - intros ->. unfold on_executor in E. destruct (executors w !! x) as [s|] eqn:Hx; [|done].
      destruct (Executor.correlate_pure s e (li_ok w Hw x s Hx)) as [hs Hc]. rewrite Hc in E.
      injection E as -> <-. exists s. simpl. by rewrite lookup_insert_eq. }
  unfold find_matches. destruct start as [st|]; [|exact Hask].
  destruct (truthy_get st "slurm_job_id"); [|exact Hask].
  intros w res w' Hw. unfold lift, mbind, stm_bind.
  destruct (item_str st _); intros [= <- <-]; by split.
Qed.

Lemma keeps_record_submission run_id n e x h : keeps launch_inv (record_submission run_id n e x h).
Proof. unfold record_submission. repeat launch_step. Qed.

Lemma keeps_submit_attempt r n x : keeps launch_inv (submit_attempt r n x).
Proof.
  unfold submit_attempt. apply keeps_bind; [apply keeps_lift|intros run_id].
  apply keeps_bind; [apply keeps_on_disk|intros attempt].
  eapply keeps_hoare; [|intros res w Hw; exact Hw].
  eapply hoare_bind; [apply execution_request_spec| |intros e w [Hw _]; exact Hw].
  intros q. eapply hoare_weaken with (P := fun w => _ /\ launch_inv w);
    [|intros w [Hw Hq]; exact (conj (Hq q eq_refl) Hw)|intros res w Hw; exact Hw].
  apply hoare_pure. intros Hid.
  eapply hoare_bind; [apply hoare_keeps, keeps_on_disk|intros intent|by intros e w].
  rewrite Hid.
  apply hoare_bind_lift.
  eapply hoare_bind; [apply hoare_keeps; repeat launch_step|intros u|by intros e w].
  eapply hoare_bind; [apply hoare_keeps, keeps_on_disk|intros start|by intros e w].
  eapply hoare_bind; [apply find_matches_spec| |intros e w [Hw _]; exact Hw].
  intros matches. eapply hoare_bind with (Q := fun _ => launch_inv).
  - intros w res w' [Hw Hm] E. destruct matches as [|h [|]].
    + eapply launch_new; [exact Hw|by apply Hm|exact E].
    + by injection E as <- <-.
    + by injection E as <- <-.
  - intros h. apply hoare_keeps, keeps_bind; [apply keeps_record_submission|intros; apply keeps_ret].
  - by intros e w.
Qed.

Ltac service_step :=
  first [ launch_step | apply keeps_submit_attempt ].

Lemma keeps_new_attempt r run_id n : keeps launch_inv (new_attempt r run_id n).
Proof. unfold new_attempt. repeat launch_step. Qed.

Lemma keeps_start_or_recover run_id force : keeps launch_inv (start_or_recover run_id force).
Proof.
  unfold start_or_recover. repeat (launch_step || apply keeps_new_attempt || apply keeps_submit_attempt).
Qed.

Lemma keeps_try_except {A} (P : World -> Prop) (m : stm World A) h :
  keeps P m -> (forall e, keeps P (h e)) -> keeps P (try_except m h).
Proof.
  intros Hm Hh w r w' Hw. unfold try_except. destruct (m w) as [[a|e] w1] eqn:E.
  - intros [= <- <-]. by eapply Hm.
  - destruct (Store.alive (disk w1)); [|intros [= <- <-]; by eapply Hm]. intros E'.
    eapply Hh; [eapply Hm; [exact Hw|exact E]|exact E'].
Qed.

Lemma keeps_ingest_once : keeps launch_inv ingest_once.
Proof.
  unfold ingest_once, ingest_receipt.
  repeat (launch_step || (apply keeps_try_except; [|intros ?]) || apply keeps_start_or_recover).
Qed.

Lemma keeps_status run_id : keeps launch_inv (status run_id).
Proof. unfold status, state_of_run, handle_for_run. repeat launch_step. Qed.

Lemma keeps_review series_id : keeps launch_inv (review series_id).
Proof. unfold review. repeat (launch_step || apply keeps_status). Qed.

Lemma keeps_run_call c : keeps launch_inv (run_call c).
Proof.
  destruct c; cbn [run_call]; unfold ignore.
  - unfold submit_batch, submit_series, submit_run. repeat launch_step.
  - apply keeps_bind; [apply keeps_ingest_once|intros; apply keeps_ret].
  - apply keeps_bind; [apply keeps_status|intros; apply keeps_ret].
  - unfold list_status. repeat (launch_step || apply keeps_status).
  - unfold control_run, handle_for_run. repeat (launch_step || apply keeps_status).
  - unfold pause. repeat launch_step.
  - unfold retry. repeat launch_step.
  - apply keeps_bind; [apply keeps_review|intros; apply keeps_ret].
  - unfold logs. repeat launch_step.
  - unfold build_snapshot, list_status, series_row.
    repeat (launch_step || apply keeps_status || apply keeps_review).
Qed.

(** What can happen: a process makes a call and lives or dies, the executors go on,
    anything else writes to the disk. *)
Inductive service_step (w : World) : World -> Prop :=
| step_process c b n : service_step w (process c b n w)
| step_executors w' : disk w' = disk w -> executors_evolve w w' -> service_step w w'
| step_disk d : service_step w (mkWorld d (executors w) (launched w)).

(** A world in which nothing was launched yet. *)
Definition fresh (w : World) : Prop :=
  launched w = [] /\ forall x s, executors w !! x = Some s -> ok s.

Lemma executors_evolve_inv w w' : launch_inv w -> executors_evolve w w' -> launch_inv w'.
Proof.
  intros Hw [Hl Hx]. split.
  - intros x s' Hs'. specialize (Hx x). rewrite Hs' in Hx. destruct (executors w !! x); [apply Hx|done].
  - intros x e Hin. rewrite Hl in Hin. destruct (li_known w Hw x e Hin) as (s & Hs & Hk).
    specialize (Hx x). rewrite Hs in Hx. destruct (executors w' !! x) as [s'|]; [|done].
    exists s'. split; [done|]. eapply quiet_known; [by eapply li_ok|exact Hx|exact Hk].
  - rewrite Hl. apply Hw.
Qed.

Lemma service_step_inv w w' : launch_inv w -> service_step w w' -> launch_inv w'.
Proof.
  intros Hw [c b n|w2 _ Hev|d].
  - unfold process. destruct (run_call c (restart_world b n w)) as [r w1] eqn:E. simpl.
    eapply keeps_run_call; [|exact E]. destruct Hw. by split.
  - by eapply executors_evolve_inv.
  - destruct Hw. by split.
Qed.

Lemma reachable_inv w0 w : fresh w0 -> rtc service_step w0 w -> launch_inv w.
Proof.
  intros [Hl Hok] Hr. assert (launch_inv w0) as Hw0.
  { split; [done| |]; rewrite Hl; [intros x e Hin; by apply elem_of_nil in Hin|constructor]. }
  revert Hw0. clear Hl Hok. induction Hr; eauto using service_step_inv.
Qed.

(** ** A run that is never retried has one attempt *)

(** Receipts to be handled ask for no retry; an attempt record is of a first attempt. *)
Definition once_doc (p : path) (o : obj) : Prop :=
  (forall place n, p = Store.inbox place n -> place = "pending" \/ place = "processing" ->
     get_str o "reason" "submit" <> "retry") /\
  (forall r c, p = Store.attempts_dir r ++ [c; "attempt.json"] ->
     item_str o "execution_id" = Ok (r +:+ ":a1")).

Definition once_dir (q : path) : Prop :=
  forall r c, q = Store.attempts_dir r ++ [c] -> c = "001".

Notation once_disk := (Store.all_good once_doc once_dir).

Record once_inv (w : World) : Prop := {
  oi_disk : once_disk (disk w);
  oi_launched x e : (x, e) ∈ launched w -> exists r, e = r +:+ ":a1";
}.

Lemma once_on_disk {A} (m : stm Store.Disk A) : keeps once_disk m -> keeps once_inv (on_disk m).
Proof.
  intros Hm w r w' Hw. unfold on_disk. destruct (m (disk w)) as [r1 d] eqn:E. intros [= <- <-].
  destruct Hw as [Hd Hl]. split; [by eapply Hm|exact Hl].
Qed.

Lemma once_on_executor {A} x (m : stm S A) : keeps once_inv (on_executor x m).
Proof.
  intros w r w' Hw. unfold on_executor. destruct (executors w !! x) as [s|]; [|by intros [= <- <-]].
  destruct (m s). intros [= <- <-]. destruct Hw. by split.
Qed.

Lemma once_executor_known x : keeps once_inv (executor_known x).
Proof. intros w r w' Hw. unfold executor_known. by destruct (_ !! _); intros [= <- <-]. Qed.

Lemma once_launch x q e :
  Executor.er_execution_id q = e +:+ ":a1" -> keeps once_inv (launch x q).
Proof.
  intros He. unfold launch. apply keeps_bind; [apply once_on_executor|intros h].
  apply keeps_bind; [|intros; apply keeps_ret]. apply keeps_modify. intros w [Hd Hl].
  split; [exact Hd|]. simpl. intros y e' [Hin|[= -> ->]%list_elem_of_singleton]%elem_of_app.
  - by eapply Hl.
  - by exists e.
Qed.

(** Documents and directories at a path that is written out. *)
Ltac once_path :=
  match goal with
  | |- once_doc _ _ =>
      split; [intros ? ? [=] [|]; subst; try done|intros ? ? [=]; subst; try done]
  | |- forall q, q ∈ Store.ancestors _ -> once_dir q =>
      let q := fresh in let Hq := fresh in
      intros q Hq; cbn in Hq; rewrite ?elem_of_cons, ?elem_of_nil in Hq;
      intros ? ? ->; unfold Store.attempts_dir in Hq; cbn [app] in Hq;
      decompose [or] Hq; simplify_eq; try done
  end.

Ltac disk_step :=
  first
    [ keeps_step
    | apply Store.keeps_read_json | apply Store.keeps_doc_exists | apply Store.keeps_now
    | apply Store.keeps_append_event
    | apply Store.keeps_write_json; once_path | apply Store.keeps_idempotent; once_path ].

Ltac once_step :=
  first
    [ keeps_step
    | apply once_on_executor
    | apply once_executor_known
    | apply once_on_disk;
      solve [ unfold Store.create_run, Store.create_series, Store.create_batch, Store.accept_idempotency,
                Store.set_control, Store.set_service_control,
                Store.batch, Store.control, Store.service_control, Store.list_runs, Store.list_series,
                Store.latest_attempt, Store.next_attempt, Store.read_optional, Store.attempt,
                Store.read_events, Store.claimable, Store.pending, Store.processing,
                Store.run, Store.series, Store.batch_path, Store.series_path, Store.run_path,
                Store.control_path;
              repeat disk_step ] ].

Lemma once_control run_id : keeps once_inv (on_disk (Store.control root run_id)).
Proof. once_step. Qed.

Lemma once_status run_id : keeps once_inv (status run_id).
Proof. unfold status, state_of_run, handle_for_run. repeat once_step. Qed.


Lemma once_enqueue batch_id run_id :
  keeps once_disk (Store.enqueue blake2b time_ns root batch_id run_id "submit").
Proof. unfold Store.enqueue. repeat disk_step. Qed.

Lemma once_submit_batch b key actor : keeps once_inv (submit_batch b key actor).
Proof.
  unfold submit_batch, submit_series, submit_run.
  repeat (once_step || apply once_on_disk, once_enqueue).
Qed.

Lemma once_review series_id : keeps once_inv (review series_id).
Proof. unfold review. repeat (once_step || apply once_status). Qed.

(** The number of a new attempt. *)
Lemma attempt_numbers_once run_id d n :
  once_disk d -> n ∈ Store.attempt_numbers run_id d -> n = 1.
Proof.
  intros [_ Hd]. unfold Store.attempt_numbers. rewrite list_elem_of_omap. intros (p & Hp & E).
  apply elem_of_elements, Hd in Hp.
  destruct p as [|a [|r [|b [|c [|]]]]]; try done.
  destruct (String.eqb_spec a "runs") as [->|]; [|done].
  destruct (String.eqb_spec r run_id) as [->|]; [|done].
  destruct (String.eqb_spec b "attempts") as [->|]; [|done].
  rewrite (Hp run_id c eq_refl) in E. by injection E as <-.
Qed.

Lemma max_list_ones l : (forall n, n ∈ l -> n = 1) -> max_list l = 0 \/ max_list l = 1.
Proof.
  induction l as [|n l IH]; intros Hl; [by left|]. simpl.
  rewrite (Hl n) by left. destruct IH as [->| ->]; [|by right|by right].
  intros m Hm. apply Hl. by right.
Qed.

Lemma next_attempt_once run_id d :
  once_disk d -> exists k, Store.next_attempt run_id d = (Ok k, d) /\ (k = 1 \/ k = 2).
Proof.
  intros Hd. unfold Store.next_attempt, gets. destruct (bool_decide _); eexists; (split; [done|]); [|by left].
  destruct (max_list_ones (Store.attempt_numbers run_id d)) as [->| ->]; [|by left|by right].
  intros n. by apply attempt_numbers_once.
Qed.

Lemma latest_attempt_once run_id d :
  once_disk d ->
  Store.latest_attempt run_id d = (Ok (Some 1), d) \/
  (Store.latest_attempt run_id d = (Ok None, d) /\ Store.next_attempt run_id d = (Ok 1, d)).
Proof.
  intros Hd. destruct (next_attempt_once run_id d Hd) as (k & E & [->| ->]);
    unfold Store.latest_attempt, mbind, stm_bind; rewrite E; [by right|by left].
Qed.

(** The first attempt of a run. *)
Ltac first_attempt :=
  unfold Store.create_attempt, Store.write_submission_intent, Store.write_submission,
    Store.attempt_root, write_text, record_submission in *;
  change (Store.pad3 1) with "001".

Lemma once_write_text run_id text :
  keeps once_disk (write_text (Store.attempt_root run_id 1 ++ ["launch.sh"]) text).
Proof.
  first_attempt. apply keeps_bind; [apply Store.keeps_mkdir; once_path|intros _].
  apply Store.keeps_persist; [by intros ? []|by intros ? ? []].
Qed.

Lemma once_execution_request r attempt run_id :
  keeps once_inv (execution_request r attempt run_id 1).
Proof.
  unfold execution_request. repeat (once_step || apply once_on_disk, once_write_text).
Qed.

Lemma once_record_submission run_id e x h : keeps once_inv (record_submission run_id 1 e x h).
Proof. first_attempt. repeat once_step; apply once_on_disk; repeat disk_step. Qed.

Lemma once_find_matches x e start : keeps once_inv (find_matches x e start).
Proof. unfold find_matches. repeat once_step. Qed.

Lemma once_new_attempt r run_id : keeps once_inv (new_attempt r run_id 1).
Proof. unfold new_attempt. first_attempt. repeat once_step; apply once_on_disk; repeat disk_step. Qed.


(** Reading an attempt record of a run tells its execution. *)
Lemma once_read_attempt run_id :
  hoare once_inv (on_disk (Store.attempt root run_id 1))
    (fun res w => once_inv w /\ forall o, res = Ok o -> item_str o "execution_id" = Ok (run_id +:+ ":a1")).
Proof.
  intros w res w' [Hd Hl]. unfold on_disk, Store.attempt, Store.read_json, get, lift, mbind, stm_bind.
  intros [= <- <-]. split; [by split|]. intros o Ho. apply of_option_Ok in Ho.
  by eapply (proj2 (proj1 Hd _ _ Ho)).
Qed.

Lemma once_submit_attempt r x : keeps once_inv (submit_attempt r 1 x).
Proof.
  unfold submit_attempt. apply keeps_bind; [apply keeps_lift|intros run_id].
  eapply keeps_hoare; [|intros res w Hw; exact Hw].
  eapply hoare_bind; [apply once_read_attempt| |intros e w [Hw _]; exact Hw].
  intros attempt. eapply hoare_weaken with (P := fun w => _ /\ once_inv w);
    [|intros w [Hw Hq]; exact (conj (Hq attempt eq_refl) Hw)|intros res w Hw; exact Hw].
  apply hoare_pure. intros Hid.
  eapply hoare_bind with (Q := fun res w => once_inv w /\ forall q, res = Ok q ->
       item_str attempt "execution_id" = Ok (Executor.er_execution_id q)).
  { intros w res w' Hw E. split; [by eapply once_execution_request|]. intros q ->.
    by eapply execution_request_id. }
  2: intros e w [Hw _]; exact Hw.
  intros q. eapply hoare_weaken with (P := fun w => _ /\ once_inv w);
    [|intros w [Hw Hq]; exact (conj (Hq q eq_refl) Hw)|intros res w Hw; exact Hw].
  apply hoare_pure. intros Hq. rewrite Hid in Hq |- *. injection Hq as Hq.
  apply hoare_keeps. apply keeps_bind; [once_step|intros intent].
  apply keeps_bind; [apply keeps_lift|intros e].
  apply keeps_bind.
  { first_attempt. repeat once_step; apply once_on_disk; repeat disk_step. }
  intros u. apply keeps_bind; [once_step|intros start].
  apply keeps_bind; [apply once_find_matches|intros matches].
  apply keeps_bind; [|intros h; apply keeps_bind; [apply once_record_submission|intros; apply keeps_ret]].
  destruct matches as [|h [|]]; [|apply keeps_ret|apply keeps_raise]. by eapply once_launch.
Qed.

Lemma once_start_or_recover run_id : keeps once_inv (start_or_recover run_id false).
Proof.
  unfold start_or_recover. apply keeps_bind; [once_step|intros r].
  apply keeps_bind; [apply keeps_lift|intros x]. apply keeps_bind; [apply once_executor_known|intros _].
  eapply keeps_hoare; [|intros res w Hw; exact Hw].
  eapply hoare_bind with (Q := fun res w => once_inv w /\ (res = Ok (Some 1) \/
    (res = Ok None /\ Store.next_attempt run_id (disk w) = (Ok 1, disk w)))).
  - intros w res w' Hw. unfold on_disk.
    destruct (latest_attempt_once run_id (disk w) (oi_disk w Hw)) as [->|[-> E]]; intros [= <- <-];
      (split; [destruct Hw; by split|]); [by left|by right].
  - intros [n|].
    + intros w res w' [Hw [[= ->]|[? _]]] E; [|done]. revert Hw E.
      apply hoare_keeps. apply keeps_bind; [once_step|intros submission].
      destruct submission as [[|]|]; first [apply once_submit_attempt|apply keeps_lift].
    + intros w res w' [Hw [?|[_ Hnext]]]; [done|]. unfold on_disk at 1. unfold mbind at 1, stm_bind at 1.
      rewrite Hnext. intros E.
      assert (once_inv (mkWorld (disk w) (executors w) (launched w))) as Hw1 by (by destruct Hw).
      revert Hw1 E. apply hoare_keeps.
      apply keeps_bind; [apply once_new_attempt|intros _; apply once_submit_attempt].
  - by intros e w [Hw _].
Qed.

(** A receipt that is there to be handled. *)
Definition claimable_path (p : path) : Prop :=
  exists place n, p = Store.inbox place n /\ (place = "pending" \/ place = "processing").

Lemma once_move place n target :
  place = "pending" \/ place = "processing" ->
  keeps once_disk (Store.persist (Store.move (Store.inbox place n) (Store.inbox target n))).
Proof.
  intros Hp. apply Store.keeps_move. intros o [Ho _]. split; [|by intros].
  intros place' n' _ _. by eapply Ho.
Qed.

Lemma once_claim p :
  claimable_path p ->
  hoare once_inv (on_disk (Store.claim_pending root p))
    (fun res w => once_inv w /\ forall q, res = Ok q -> exists n, q = Store.inbox "processing" n).
Proof.
  intros (place & n & -> & Hplace) w res w' Hw E. split.
  - revert Hw E. apply once_on_disk. unfold Store.claim_pending.
    repeat (disk_step || by apply once_move).
  - intros q ->. unfold on_disk, Store.claim_pending in E. cbn [Store.parent Store.inbox removelast] in E.
    case_bool_decide as Hb.
    + injection E as <- _. simplify_eq. by exists n.
    + unfold Store.doc_exists, gets, mbind, stm_bind in E. case_bool_decide; [|done].
      destruct (Store.persist _ _) as [[[]|] d]; [|done]. injection E as <- _. by eexists.
Qed.

(** Handling a receipt that asks for no retry. *)
Lemma once_ingest_receipt p : claimable_path p -> keeps once_inv (ingest_receipt p).
Proof.
  intros Hp. unfold ingest_receipt. eapply keeps_hoare; [|intros res w Hw; exact Hw].
  eapply hoare_bind; [by apply once_claim| |by intros e w [Hw _]].
  intros q. eapply hoare_weaken with (P := fun w => _ /\ once_inv w);
    [|intros w [Hw Hq]; exact (conj (Hq q eq_refl) Hw)|intros res w Hw; exact Hw].
  apply hoare_pure. intros [n ->].
  eapply hoare_bind with (Q := fun res w => once_inv w /\ forall o, res = Ok o ->
    get_str o "reason" "submit" <> "retry").
  { intros w res w' [Hd Hl]. unfold on_disk. intros [= <- <-]. split; [by split|].
    intros o Ho. apply of_option_Ok in Ho. by eapply (proj1 (proj1 Hd _ _ Ho)); [|right]. }
  2: by intros e w [Hw _].
  intros receipt. eapply hoare_weaken with (P := fun w => _ /\ once_inv w);
    [|intros w [Hw Hq]; exact (conj (Hq receipt eq_refl) Hw)|intros res w Hw; exact Hw].
  apply hoare_pure. intros Hreason. rewrite (proj2 (String.eqb_neq _ _) Hreason). apply hoare_keeps.
  assert (forall target, keeps once_inv (on_disk (Store.replace root (Store.inbox "processing" n)
    (Store.inbox target n)))) as Hmove.
  { intros target. apply once_on_disk. unfold Store.replace. repeat (disk_step || by apply once_move; right). }
  assert (forall b, keeps once_inv (on_disk (Store.finish_receipt root (Store.inbox "processing" n) b)))
    as Hfinish by (intros b; apply Hmove).
  apply keeps_bind; [apply keeps_lift|intros run_id]. apply keeps_bind; [apply once_control|intros control].
  destruct (truthy_get control "disabled").
  - apply keeps_bind; [|intros; apply keeps_ret]. unfold Store.requeue_receipt. apply once_on_disk.
    unfold Store.replace. repeat (disk_step || by apply once_move; right).
  - apply keeps_bind.
    + intros w r w' Hw. unfold try_except.
      destruct ((_ ← start_or_recover run_id false; mret true) w) as [[a|e] w1] eqn:E.
      * intros [= <- <-]. revert Hw E. apply keeps_bind; [apply once_start_or_recover|intros; apply keeps_ret].
      * assert (once_inv w1) as Hw1.
        { revert Hw E. apply keeps_bind; [apply once_start_or_recover|intros; apply keeps_ret]. }
        destruct (Store.alive (disk w1)); [|by intros [= <- <-]]. revert Hw1. apply keeps_bind; [once_step|intros _].
        apply keeps_bind; [apply Hfinish|intros; apply keeps_ret].
    + intros []; [|apply keeps_ret]. apply keeps_bind; [apply Hfinish|intros; apply keeps_ret].
Qed.

Lemma claimable_paths d l d' : Store.claimable d = (Ok l, d') -> Forall claimable_path l.
Proof.
  unfold Store.claimable, Store.processing, Store.pending, gets, mbind, stm_bind. intros [= <- _].
  apply Forall_app. unfold Store.receipts.
  split; apply Forall_map, Forall_true; intros n; (eexists _, n; split; [reflexivity|by auto]).
Qed.

Lemma once_ingest_once : keeps once_inv ingest_once.
Proof.
  unfold ingest_once. eapply keeps_hoare; [|intros res w Hw; exact Hw].
  eapply hoare_bind with (Q := fun res w => once_inv w /\ forall l, res = Ok l -> Forall claimable_path l).
  - intros w res w' [Hd Hl]. unfold on_disk. destruct (Store.claimable (disk w)) as [r d] eqn:E.
    intros [= <- <-]. split.
    + split; [|exact Hl]. simpl. assert (d = disk w) as -> by (by injection E as _ <-). exact Hd.
    + intros l ->. by eapply claimable_paths.
  - intros l. eapply hoare_weaken with (P := fun w => _ /\ once_inv w);
      [|intros w [Hw Hq]; exact (conj (Hq l eq_refl) Hw)|intros res w Hw; exact Hw].
    apply hoare_pure. intros Hl. apply hoare_keeps.
    apply keeps_bind; [once_step|intros control]. destruct (truthy_get control "paused"); [apply keeps_ret|].
    apply keeps_bind; [|intros; apply keeps_ret]. apply keeps_mapM_Forall.
    eapply Forall_impl; [exact Hl|]. apply once_ingest_receipt.
  - by intros e w [Hw _].
Qed.

Definition is_retry (c : call) : bool := match c with CRetry _ _ => true | _ => false end.

Lemma once_run_call c : is_retry c = false -> keeps once_inv (run_call c).
Proof.
  destruct c; cbn [run_call is_retry]; unfold ignore; intros Hc; [..|done| | |].
  - apply keeps_bind; [apply once_submit_batch|intros; apply keeps_ret].
  - apply keeps_bind; [apply once_ingest_once|intros; apply keeps_ret].
  - apply keeps_bind; [apply once_status|intros; apply keeps_ret].
  - unfold list_status. repeat (once_step || apply once_status).
  - unfold control_run, handle_for_run. repeat (once_step || apply once_status).
  - unfold pause. repeat once_step.
  - apply keeps_bind; [apply once_review|intros; apply keeps_ret].
  - unfold logs. repeat once_step.
  - unfold build_snapshot, list_status, series_row.
    repeat (once_step || apply once_status || apply once_review).
Qed.

(** As [service_step], but no retry is asked for, and other programs neither make
    attempts nor receipts that ask for one. *)
Inductive unretried_step (w : World) : World -> Prop :=
| un_process c b n : is_retry c = false -> unretried_step w (process c b n w)
| un_executors w' : disk w' = disk w -> executors_evolve w w' -> unretried_step w w'
| un_disk d : once_disk d -> unretried_step w (mkWorld d (executors w) (launched w)).

Lemma unretried_service w w' : unretried_step w w' -> service_step w w'.
Proof. intros []; [apply step_process|by apply step_executors|apply step_disk]. Qed.

Lemma unretried_once w w' : once_inv w -> unretried_step w w' -> once_inv w'.
Proof.
  intros Hw [c b n Hc|w2 Hd [Hl _]|d Hd].
  - unfold process. destruct (run_call c (restart_world b n w)) as [r w1] eqn:E. simpl.
    eapply once_run_call; [exact Hc| |exact E]. destruct Hw as [[? ?] ?]. by split.
  - destruct Hw as [Hdisk Hlaunched]. split; rewrite ?Hd, ?Hl; done.
  - destruct Hw. by split.
Qed.

(** ** Handling receipts to the end *)

Section Drain.
Context (d0 : Store.Disk).

Definition framed (w : World) : Prop := Store.frame blake2b d0 (disk w).

Lemma framed_on_disk {A} (m : stm Store.Disk A) :
  keeps (Store.frame blake2b d0) m -> keeps framed (on_disk m).
Proof.
  intros Hm w r w' Hw. unfold on_disk. destruct (m (disk w)) as [r1 d] eqn:E. intros [= <- <-].
  by eapply Hm.
Qed.

Lemma framed_on_executor {A} x (m : stm S A) : keeps framed (on_executor x m).
Proof.
  intros w r w' Hw. unfold on_executor. destruct (executors w !! x) as [s|]; [|by intros [= <- <-]].
  destruct (m s). by intros [= <- <-].
Qed.

Lemma framed_executor_known x : keeps framed (executor_known x).
Proof. intros w r w' Hw. unfold executor_known. by destruct (_ !! _); intros [= <- <-]. Qed.

Ltac framed_step :=
  first
    [ keeps_step
    | apply framed_on_executor
    | apply framed_executor_known
    | apply framed_on_disk
    | apply Store.frame_now
    | apply Store.frame_append_event; [|reflexivity]
    | apply Store.frame_write_json; by intros ? ?
    | apply Store.frame_idempotent; by intros ? ? ].

Lemma framed_new_attempt r run_id n : keeps framed (new_attempt r run_id n).
Proof.
  unfold new_attempt, Store.set_control, Store.control, Store.doc_exists, Store.read_json,
    Store.create_attempt. repeat framed_step.
Qed.

Lemma framed_record_submission run_id n e x h : keeps framed (record_submission run_id n e x h).
Proof.
  unfold record_submission, Store.write_submission, Store.doc_exists. repeat framed_step.
  apply jwf_obj. split; [apply (bool_decide_unpack _); by compute|by repeat constructor].
Qed.

Lemma framed_submit_attempt r n x : keeps framed (submit_attempt r n x).
Proof.
  unfold submit_attempt, execution_request, find_matches, launch, Store.attempt, Store.read_json,
    Store.read_optional, Store.write_submission_intent, write_text.
  repeat (framed_step || apply framed_record_submission || (by apply keeps_modify)
          || apply Store.frame_mkdir || (by apply Store.frame_persist)).
Qed.

Lemma framed_start_or_recover run_id force : keeps framed (start_or_recover run_id force).
Proof.
  unfold start_or_recover, Store.latest_attempt, Store.next_attempt, Store.run, Store.read_json,
    Store.read_optional.
  repeat (framed_step || apply framed_new_attempt || apply framed_submit_attempt).
Qed.
End Drain.

(** What is left to do: the receipts in progress, and those waiting. *)
Definition has_receipt (d : Store.Disk) (place n : string) : Prop :=
  is_Some (Store.docs d !! Store.inbox place n).

(** A store whose receipts can be read. *)
Record drainable (d : Store.Disk) : Prop := {
  dr_calm : Store.calm d;
  dr_log : exists es t, Store.log_ok blake2b d es t;
  dr_named place n o : Store.docs d !! Store.inbox place n = Some o ->
    exists run_id, item_str o "run_id" = Ok run_id;
}.

(** The receipt [n] leaves the places of work, or goes back to wait. *)
Definition settled (d d' : Store.Disk) (n : string) (back : bool) : Prop :=
  (forall m, has_receipt d' "processing" m <-> m <> n /\ has_receipt d "processing" m) /\
  (forall m, has_receipt d' "pending" m <->
     (m <> n /\ has_receipt d "pending" m) \/ (m = n /\ back = true)).

Lemma move_receipt d source target n :
  Store.calm d -> has_receipt d source n -> source <> target ->
  exists d', Store.replace root (Store.inbox source n) (Store.inbox target n) d = (Ok tt, d') /\
    Store.calm d' /\ Store.file_bytes d' = Store.file_bytes d /\
    (forall p, Store.docs d' !! p
       = if bool_decide (p = Store.inbox target n) then Store.docs d !! Store.inbox source n
         else if bool_decide (p = Store.inbox source n) then None else Store.docs d !! p).
Proof.
  intros [Hb Ha] [o Ho] Hne. unfold Store.replace, Store.doc_exists, gets, mbind, stm_bind.
  rewrite bool_decide_eq_true_2 by (by exists o). rewrite Store.persist_calm by done.
  eexists. split; [reflexivity|]. unfold Store.move. rewrite Ho. split; [by split|]. split; [done|].
  intros p. simpl. repeat case_bool_decide; subst.
  - by rewrite lookup_insert_eq.
  - by rewrite lookup_insert_ne, lookup_delete_eq by done.
  - by rewrite lookup_insert_ne, lookup_delete_ne by done.
Qed.

(** After a claim the receipt [n] is in progress, and nowhere else. *)
Record claimed (d d1 : Store.Disk) (n : string) : Prop := {
  cl_drain : drainable d1;
  cl_there : has_receipt d1 "processing" n;
  cl_gone : ~ has_receipt d1 "pending" n;
  cl_processing m : m <> n -> (has_receipt d1 "processing" m <-> has_receipt d "processing" m);
  cl_pending m : m <> n -> (has_receipt d1 "pending" m <-> has_receipt d "pending" m);
}.

Lemma claim_ok d place n :
  drainable d -> has_receipt d place n ->
  (place = "pending" /\ ~ has_receipt d "processing" n) \/ (place = "processing" /\ ~ has_receipt d "pending" n) ->
  exists d1, Store.claim_pending root (Store.inbox place n) d = (Ok (Store.inbox "processing" n), d1) /\
    claimed d d1 n.
Proof.
  intros Hd Hn [[-> Hno]|[-> Hno]].
  - destruct (move_receipt d "pending" "processing" n (dr_calm d Hd) Hn ltac:(done))
      as (d1 & E & Hc & Hb & Hdocs).
    exists d1. split.
    + unfold Store.claim_pending. cbn [Store.parent Store.inbox removelast].
      rewrite bool_decide_eq_false_2 by done. unfold Store.replace in E.
      unfold Store.doc_exists, gets, mbind, stm_bind in E |- *.
      rewrite bool_decide_eq_true_2 in E |- * by exact Hn.
      change (Store.file_name (Store.inbox "pending" n)) with n. unfold mbind, stm_bind. by rewrite E.
    + split.
      * split; [done| |].
        { destruct (dr_log d Hd) as (es & t & Hl). exists es, t. by eapply Store.log_ok_same. }
        intros place m o. rewrite Hdocs. repeat case_bool_decide; [|done|].
        all: intros Ho; by eapply dr_named.
      * unfold has_receipt. by rewrite Hdocs, bool_decide_eq_true_2.
      * unfold has_receipt. rewrite Hdocs, bool_decide_eq_false_2, bool_decide_eq_true_2 by done.
        by intros [? ?].
      * intros m Hm. unfold has_receipt. rewrite Hdocs, !bool_decide_eq_false_2; [done|..]; by intros [=].
      * intros m Hm. unfold has_receipt. rewrite Hdocs, !bool_decide_eq_false_2; [done|..]; by intros [=].
  - exists d. split.
    + unfold Store.claim_pending. cbn [Store.parent Store.inbox removelast]. by rewrite bool_decide_eq_true_2.
    + by split.
Qed.

(** Moving the claimed receipt on settles it. *)
Lemma settle d d1 d2 n target :
  claimed d d1 n -> Store.frame blake2b d1 d2 -> target <> "processing" ->
  exists d3, Store.replace root (Store.inbox "processing" n) (Store.inbox target n) d2 = (Ok tt, d3) /\
    drainable d3 /\ settled d d3 n (String.eqb target "pending").
Proof.
  intros Hc Hf Ht.
  assert (forall place m, has_receipt d2 place m <-> has_receipt d1 place m) as Hsame.
  { intros place m. unfold has_receipt. by rewrite (Store.fr_inbox _ _ _ Hf). }
  destruct (move_receipt d2 "processing" target n (Store.fr_calm _ _ _ Hf)
    (proj2 (Hsame _ _) (cl_there _ _ _ Hc)) ltac:(done)) as (d3 & E & Hcalm & Hb & Hdocs).
  exists d3. split; [done|]. split.
  - split; [done| |].
    + destruct (Store.fr_log _ _ _ Hf) as (es & t & Hl). exists es, t. by eapply Store.log_ok_same.
    + intros place m o. rewrite Hdocs, !(Store.fr_inbox _ _ _ Hf). repeat case_bool_decide; [|done|].
      all: intros Ho; by eapply dr_named; [apply Hc|].
  - assert (forall place m, place <> target \/ m <> n -> place <> "processing" \/ m <> n ->
      (has_receipt d3 place m <-> has_receipt d1 place m)) as Hother.
    { intros place m H1 H2. rewrite <- Hsame. unfold has_receipt.
      rewrite Hdocs, !bool_decide_eq_false_2; [done|..]; intros [=]; naive_solver. }
    split; intros m; destruct (decide (m = n)) as [->|Hm].
    + unfold has_receipt at 1. rewrite Hdocs, bool_decide_eq_false_2, bool_decide_eq_true_2;
        [|done|by intros [=]]. split; [by intros []|by intros []].
    + rewrite Hother by auto. rewrite (cl_processing _ _ _ Hc m Hm). naive_solver.
    + destruct (String.eqb_spec target "pending") as [->|Hne].
      * unfold has_receipt at 1. rewrite Hdocs, bool_decide_eq_true_2 by done.
        pose proof (proj2 (Hsame "processing" n) (cl_there _ _ _ Hc)) as Hthere. naive_solver.
      * rewrite Hother by auto. pose proof (cl_gone _ _ _ Hc). naive_solver.
    + rewrite Hother by auto. rewrite (cl_pending _ _ _ Hc m Hm). naive_solver.
Qed.

Lemma control_total run_id d : exists c, Store.control root run_id d = (Ok c, d).
Proof.
  unfold Store.control, Store.doc_exists, Store.read_json, gets, get, lift, mbind, stm_bind.
  case_bool_decide as Hb; [|by eexists]. destruct Hb as [o Ho]. rewrite Ho. by eexists.
Qed.

Lemma frame_refl d : drainable d -> Store.frame blake2b d d.
Proof. intros [Hc Hl _]. by split. Qed.

Lemma bind_on_disk {A B} (m : stm Store.Disk A) (f : A -> stm World B) w a d :
  m (disk w) = (Ok a, d) -> (on_disk m ≫= f) w = f a (mkWorld d (executors w) (launched w)).
Proof. intros E. unfold on_disk, mbind, stm_bind. by rewrite E. Qed.

(** A receipt is handled: accepted, rejected or put back. *)
Lemma drain_receipt w place n :
  drainable (disk w) -> has_receipt (disk w) place n ->
  (place = "pending" /\ ~ has_receipt (disk w) "processing" n) \/
  (place = "processing" /\ ~ has_receipt (disk w) "pending" n) ->
  exists c w' back, ingest_receipt (Store.inbox place n) w = (Ok c, w') /\ drainable (disk w') /\
    settled (disk w) (disk w') n back /\ deferred c = (if back then 1 else 0) /\
    accepted c + rejected c + deferred c = 1.
Proof.
  intros Hd Hn Hplace. destruct (claim_ok _ _ _ Hd Hn Hplace) as (d1 & E1 & Hc).
  destruct (cl_there _ _ _ Hc) as [o Ho]. destruct (dr_named _ (cl_drain _ _ _ Hc) _ _ _ Ho) as [run_id Hid].
  destruct (control_total run_id d1) as [c Hctl].
  set (w1 := mkWorld d1 (executors w) (launched w)).
  assert (ingest_receipt (Store.inbox place n) w
    = (if truthy_get c "disabled" then
         _ ← on_disk (Store.requeue_receipt root (Store.inbox "processing" n)); mret (mkCounts 0 0 1)
       else
         ok ← try_except
           (_ ← start_or_recover run_id (String.eqb (get_str o "reason" "submit") "retry");
            mret true)
           (fun exc =>
              _ ← on_disk (Store.append_event blake2b time_ns uuid4 "attempt.submit-failed"
                    [("error", JStr (exception_text exc))] (Some run_id) "wake");
              _ ← on_disk (Store.finish_receipt root (Store.inbox "processing" n) false);
              mret false);
         if (ok : bool) then _ ← on_disk (Store.finish_receipt root (Store.inbox "processing" n) true);
                             mret (mkCounts 1 0 0)
         else mret (mkCounts 0 1 0)) w1) as ->.
  { unfold ingest_receipt. rewrite (bind_on_disk _ _ w _ _ E1). fold w1.
    rewrite (bind_on_disk _ _ w1 o d1) by (by simpl; rewrite Ho).
    change (mkWorld d1 (executors w1) (launched w1)) with w1.
    unfold lift at 1. unfold mbind at 1, stm_bind at 1. rewrite Hid.
    by rewrite (bind_on_disk _ _ w1 _ _ Hctl). }
  destruct (truthy_get c "disabled").
  - destruct (settle _ d1 d1 n "pending" Hc (frame_refl _ (cl_drain _ _ _ Hc)) ltac:(done))
      as (d3 & E3 & Hd3 & Hs).
    exists (mkCounts 0 0 1), (mkWorld d3 (executors w) (launched w)), true.
    split; [|by split_and!]. rewrite (bind_on_disk _ _ w1 (Store.inbox "pending" n) d3); [done|].
    unfold Store.requeue_receipt, mbind, stm_bind. change (disk w1) with d1.
    change (Store.file_name (Store.inbox "processing" n)) with n. by rewrite E3.
  - set (force := String.eqb _ "retry").
    destruct ((_ ← start_or_recover run_id force; mret true) w1) as [r w2] eqn:E2.
    assert (framed d1 w2) as Hw2.
    { revert E2. eapply keeps_bind; [apply framed_start_or_recover|intros; apply keeps_ret|].
      apply frame_refl, Hc. }
    unfold mbind at 1, stm_bind at 1. unfold try_except at 1. rewrite E2.
    destruct r as [b|e].
    + assert (b = true) as ->.
      { apply stm_bind_Ok in E2 as (h & w3 & _ & E2). by injection E2 as <- _. }
      destruct (settle _ d1 (disk w2) n "accepted" Hc Hw2 ltac:(done)) as (d3 & E3 & Hd3 & Hs).
      exists (mkCounts 1 0 0), (mkWorld d3 (executors w2) (launched w2)), false.
      split; [|by split_and!]. cbn [fst snd]. by rewrite (bind_on_disk _ _ w2 tt d3).
    + rewrite (proj2 (Store.fr_calm _ _ _ Hw2)).
      destruct (Store.fr_log _ _ _ Hw2) as (es & t & Hlog).
      destruct (Store.append_event_total blake2b time_ns uuid4 (disk w2) es t "attempt.submit-failed"
        [("error", JStr (exception_text e))] (Some run_id) "wake" (Store.fr_calm _ _ _ Hw2) Hlog)
        as (ev & d2 & Ea & Hca & Hda & Hla); [|done|].
      { apply jwf_obj. split; [apply NoDup_singleton|by repeat constructor]. }
      assert (Store.frame blake2b d1 d2) as Hf2.
      { split; [|done|done]. intros p m. rewrite Hda. apply Hw2. }
      destruct (settle _ d1 d2 n "rejected" Hc Hf2 ltac:(done)) as (d3 & E3 & Hd3 & Hs).
      exists (mkCounts 0 1 0), (mkWorld d3 (executors w2) (launched w2)), false.
      split; [|by split_and!].
      rewrite (bind_on_disk _ _ w2 _ _ Ea). by rewrite (bind_on_disk _ _ _ tt d3).
Qed.

Lemma receipts_of place d :
  exists ns, Store.receipts place d = map (Store.inbox place) ns /\ NoDup ns /\
    forall n, n ∈ ns <-> has_receipt d place n.
Proof.
  pose proof (Store.receipts_NoDup place d) as Hnd. pose proof (Store.elem_of_receipts place d) as Hin.
  unfold Store.receipts in *. eexists. split; [reflexivity|]. split; [by eapply NoDup_fmap_1|].
  intros n. rewrite <- (list_elem_of_fmap_inj (Store.inbox place)). rewrite Hin. split.
  - by intros (m & [= ->] & Hm).
  - intros Hm. by exists n.
Qed.

(** The receipts [l] - their places and names - are what is left to do, and the receipts
    [back] were put back. *)
Record remaining (d : Store.Disk) (l : list (string * string)) (back : list string) : Prop := {
  rm_drain : drainable d;
  rm_places place n : (place, n) ∈ l -> place = "pending" \/ place = "processing";
  rm_names : NoDup (back ++ map snd l);
  rm_processing n : has_receipt d "processing" n <-> ("processing", n) ∈ l;
  rm_pending n : has_receipt d "pending" n <-> ("pending", n) ∈ l \/ n ∈ back;
}.

Lemma remaining_step d place n l back d' b :
  remaining d ((place, n) :: l) back -> settled d d' n b -> drainable d' ->
  remaining d' l (if b then back ++ [n] else back).
Proof.
  intros [Hd Hpl Hnd Hpro Hpen] [Spro Spen] Hd'.
  assert (forall x, (x, n) ∉ l) as Hx.
  { intros x Hin. apply NoDup_app in Hnd as (_ & _ & Hnd). simpl in Hnd.
    apply NoDup_cons in Hnd as [Hnd _]. apply Hnd, list_elem_of_fmap. by exists (x, n). }
  assert (n ∉ back) as Hback.
  { intros Hin. apply NoDup_app in Hnd as (_ & Hdis & _). apply (Hdis n Hin). simpl. by left. }
  split; [done| | | |].
  - intros x m Hin. eapply Hpl. by right.
  - destruct b.
    + rewrite <- app_assoc. exact Hnd.
    + apply NoDup_app in Hnd as (H1 & H2 & H3). simpl in H3. apply NoDup_cons in H3 as [_ H3].
      apply NoDup_app. split; [done|]. split; [|done]. intros m Hm Hin. apply (H2 m Hm). simpl. by right.
  - intros m. rewrite Spro, Hpro, elem_of_cons. split.
    + intros [Hne [[= -> ->]|Hin]]; done.
    + intros Hin. split; [intros ->; by apply Hx in Hin|by right].
  - intros m. rewrite Spen, Hpen, elem_of_cons. split.
    + intros [[Hne [[[= -> ->]|Hin]|Hin]]|[-> ->]]; [done|by left| |].
      * right. destruct b; [by apply elem_of_app; left|done].
      * right. apply elem_of_app. right. by apply list_elem_of_singleton.
    + intros [Hin|Hin].
      * left. split; [intros ->; by apply Hx in Hin|by left; right].
      * destruct b.
        { apply elem_of_app in Hin as [Hin| ->%list_elem_of_singleton]; [|by right].
          left. split; [by intros ->|by right]. }
        left. split; [by intros ->|by right].
Qed.

Definition total (c : Counts) : nat := accepted c + rejected c + deferred c.

Lemma drain_all l back w :
  remaining (disk w) l back ->
  exists cs w' back', mapM_st ingest_receipt (map (fun pn => Store.inbox pn.1 pn.2) l) w = (Ok cs, w') /\
    remaining (disk w') [] back' /\
    total (fold_right add_counts (mkCounts 0 0 0) cs) = length l /\
    length back' = length back + deferred (fold_right add_counts (mkCounts 0 0 0) cs).
Proof.
  revert back w. induction l as [|[place n] l IH]; intros back w Hr.
  { exists [], w, back. split; [done|]. split; [done|]. split; [done|]. simpl. lia. }
  assert (place = "pending" \/ place = "processing") as Hplace by (eapply rm_places; [done|by left]).
  assert (forall x, x <> place -> (x, n) ∉ (place, n) :: l) as Hother.
  { intros x Hne [[= ->]|Hin]%elem_of_cons; [done|]. pose proof (rm_names _ _ _ Hr) as Hnd.
    apply NoDup_app in Hnd as (_ & _ & Hnd). simpl in Hnd. apply NoDup_cons in Hnd as [Hnd _].
    apply Hnd, list_elem_of_fmap. by exists (x, n). }
  assert (n ∉ back) as Hback.
  { intros Hin. pose proof (rm_names _ _ _ Hr) as Hnd. apply NoDup_app in Hnd as (_ & Hdis & _).
    apply (Hdis n Hin). simpl. by left. }
  destruct (drain_receipt w place n (rm_drain _ _ _ Hr)) as (c & w1 & b & E & Hd1 & Hs & Hc1 & Hc2).
  - destruct Hplace as [->| ->]; [apply (rm_pending _ _ _ Hr); left; by left|
      apply (rm_processing _ _ _ Hr); by left].
  - destruct Hplace as [->| ->]; [left|right]; (split; [done|]).
    + rewrite (rm_processing _ _ _ Hr). by apply Hother.
    + rewrite (rm_pending _ _ _ Hr). intros [Hin|Hin]; [by apply Hother in Hin|done].
  - destruct (IH _ _ (remaining_step _ _ _ _ _ _ _ Hr Hs Hd1)) as (cs & w2 & back' & E2 & Hr2 & Ht & Hl).
    exists (c :: cs), w2, back'. split; [|split; [done|]].
    + cbn [map mapM_st fst snd]. unfold mbind, stm_bind. by rewrite E, E2.
    + unfold total in *. simpl in *. rewrite Hl. destruct b; rewrite ?length_app; simpl; lia.
Qed.

(** ** Theorems *)


(** A run that is never retried is executed once: from a new store, as long as no
    retry is requested, whatever calls processes make and wherever they die,
    no run has an attempt other than its first, and every execution ever launched is the
    first attempt of a run - launched once. *)
Theorem unretried_runs_once w0 w :
  fresh w0 -> Store.docs (disk w0) = ∅ -> Store.dirs (disk w0) = {[ [] ]} ->
  rtc unretried_step w0 w ->
  (forall r n, n ∈ Store.attempt_numbers r (disk w) -> n = 1) /\
  NoDup (launched w) /\ (forall x e, (x, e) ∈ launched w -> exists r, e = r +:+ ":a1").
Proof.
  intros Hf Hdocs Hdirs Hr. assert (once_inv w0) as Hw0.
  { split.
    - split; [intros p o; by rewrite Hdocs, lookup_empty|].
      intros q. rewrite Hdirs. intros ->%elem_of_singleton r c. done.
    - rewrite (proj1 Hf). intros x e Hin. by apply elem_of_nil in Hin. }
  assert (once_inv w) as Hw.
  { clear Hf Hdocs Hdirs. induction Hr; eauto using unretried_once. }
  split; [intros r n; apply attempt_numbers_once, Hw|]. split; [|apply Hw].
  eapply reachable_inv; [exact Hf|]. eapply rtc_subrel; [|exact Hr]. apply unretried_service.
Qed.

(** C34 Recovery makes progress: whatever receipts a crash left half-way, a
    process that does not die handles them all. Called on a store whose event
    log and receipts can be read, and not paused, [ingest_once] returns; each
    receipt was accepted, rejected or - its run being disabled - put back to wait, and
    nothing is left in progress. *)
Theorem ingest_drains_inbox w control :
  drainable (disk w) ->
  (forall n, ~ (has_receipt (disk w) "processing" n /\ has_receipt (disk w) "pending" n)) ->
  Store.service_control root (disk w) = (Ok control, disk w) -> truthy_get control "paused" = false ->
  exists counts w', ingest_once w = (Ok counts, w') /\
    total counts = length (Store.receipts "processing" (disk w)) + length (Store.receipts "pending" (disk w)) /\
    Store.receipts "processing" (disk w') = [] /\
    length (Store.receipts "pending" (disk w')) = deferred counts /\ drainable (disk w').
Proof.
  intros Hd Hdis Hctl Hp.
  destruct (receipts_of "processing" (disk w)) as (ps & Eps & Hps & Ips).
  destruct (receipts_of "pending" (disk w)) as (qs & Eqs & Hqs & Iqs).
  set (l := map (pair "processing") ps ++ map (pair "pending") qs).
  assert (remaining (disk w) l []) as Hr.
  { split; [done| | | |].
    - intros place n [Hin|Hin]%elem_of_app; apply list_elem_of_fmap in Hin as (m & [= -> ->] & _); auto.
    - simpl. unfold l. rewrite map_app, !map_map. simpl. rewrite !map_id. apply NoDup_app.
      split; [done|]. split; [|done]. intros n Hn Hn'. apply (Hdis n). by rewrite <- Ips, <- Iqs.
    - intros n. rewrite <- Ips. unfold l. rewrite elem_of_app, !list_elem_of_fmap. naive_solver.
    - intros n. rewrite <- Iqs. unfold l. rewrite elem_of_app, !list_elem_of_fmap, elem_of_nil. naive_solver. }
  destruct (drain_all l [] w Hr) as (cs & w' & back & E & Hr' & Ht & Hl).
  exists (fold_right add_counts (mkCounts 0 0 0) cs), w'.
  assert (ingest_once w = (Ok (fold_right add_counts (mkCounts 0 0 0) cs), w')) as ->.
  { unfold ingest_once. destruct w as [d xs ls]. cbn [disk] in *.
    rewrite (bind_on_disk _ _ _ (Store.receipts "processing" d ++ Store.receipts "pending" d) d) by done.
    cbn [disk executors launched]. rewrite (bind_on_disk _ _ _ control d) by done. rewrite Hp.
    rewrite Eps, Eqs. cbn [disk executors launched].
    assert (map (Store.inbox "processing") ps ++ map (Store.inbox "pending") qs
            = map (fun pn => Store.inbox pn.1 pn.2) l) as ->
      by (unfold l; by rewrite map_app, !map_map).
    unfold mbind, stm_bind. by rewrite E. }
  split; [done|]. split; [rewrite Ht, Eps, Eqs; unfold l; by rewrite length_app, !length_map|].
  split; [|split; [|apply Hr']].
  - destruct (receipts_of "processing" (disk w')) as (ns & -> & _ & Hns). destruct ns as [|n ns]; [done|].
    assert (n ∈ n :: ns) as Hin by left. rewrite Hns, (rm_processing _ _ _ Hr') in Hin.
    by apply elem_of_nil in Hin.
  - destruct (receipts_of "pending" (disk w')) as (ns & -> & Hnd & Hns). rewrite length_map.
    simpl in Hl. rewrite <- Hl. apply Permutation_length, NoDup_Permutation; [done| |].
    + pose proof (rm_names _ _ _ Hr') as Hb. simpl in Hb. by rewrite app_nil_r in Hb.
    + intros n. rewrite Hns, (rm_pending _ _ _ Hr'), elem_of_nil. naive_solver.
Qed.

End Service.
(** ** Witnesses *)

(** A small hash: a polynomial of the characters. *)
Fixpoint toy_sum (h : N) (s : string) : N :=
  match s with
  | EmptyString => h
  | String c s' => toy_sum ((h * 31 + Ascii.N_of_ascii c) mod 1000003)%N s'
  end.

Definition toy_hash (person text : string) : string := show_N (toy_sum 7 (person +:+ text)).

Definition demo_batch : BatchSpec :=
  mkBatchSpec "gate-fusion" ["gfx1100"] "qwen" 2 None None "bigcherry-tuning" [] [] None false
    "main" 1 0 false (mkTargetPolicy "dev" None None) 2700 0.

Definition demo_inventory (executor_id : string) : res HardwareInventory :=
  Ok (mkInventory "box" "linux" [demo_device "a" "xtx" 0; demo_device "b" "xtx" 1] [] "env" None).

Definition demo_identity (job : JobSpec) : res obj :=
  Ok [("schema", JStr "mock"); ("identity_hash", JStr "mock-science")].

Definition demo_workspace (run_id : string) (attempt : nat) (code_ref : string) : res (string * string) :=
  Ok ("0000", "/project").

Definition demo_process (c : call) (b : option nat) (n : nat) : World -> World :=
  process toy_hash Store.demo_time Store.demo_uuid "/jobs" "/shared" "/usr/bin/python3"
    demo_inventory demo_identity None demo_workspace c b n.

Definition demo_world : World :=
  mkWorld Store.empty_disk (<["dev" := Executor.fake_init]> ∅) [].

(** The batch is submitted; the service launches the first run and dies before
    it has written that down; the next one finishes the work. *)
Definition demo_submitted : World := demo_process (CSubmit demo_batch "key-1" "me") None 0 demo_world.
Definition demo_crashed : World := demo_process CIngest (Some 5) 0 demo_submitted.
Definition demo_recovered : World := demo_process CIngest None 0 demo_crashed.

Notation demo_step := (service_step toy_hash Store.demo_time Store.demo_uuid "/jobs" "/shared"
  "/usr/bin/python3" demo_inventory demo_identity None demo_workspace Executor.fake_wf).
Notation demo_quiet_step := (unretried_step toy_hash Store.demo_time Store.demo_uuid "/jobs" "/shared"
  "/usr/bin/python3" demo_inventory demo_identity None demo_workspace Executor.fake_wf).

Lemma demo_fresh : fresh Executor.fake_wf demo_world.
Proof.
  split; [done|]. intros x s. unfold demo_world. cbn [executors].
  destruct (decide (x = "dev")) as [->|Hne].
  - rewrite lookup_insert_eq. intros [= <-]. apply Executor.fake_init_wf.
  - by rewrite lookup_insert_ne.
Qed.

Lemma demo_unretried : rtc demo_quiet_step demo_world demo_recovered.
Proof.
  eapply rtc_l; [exact (un_process _ _ _ _ _ _ _ _ _ _ _ _ (CSubmit demo_batch "key-1" "me") None 0 eq_refl)|].
  eapply rtc_l; [exact (un_process _ _ _ _ _ _ _ _ _ _ _ _ CIngest (Some 5) 0 eq_refl)|].
  eapply rtc_l; [exact (un_process _ _ _ _ _ _ _ _ _ _ _ _ CIngest None 0 eq_refl)|].
  apply rtc_refl.
Qed.

Lemma demo_reached : rtc demo_step demo_world demo_recovered.
Proof. eapply rtc_subrel; [|exact demo_unretried]. intros w w'. apply unretried_service. Qed.


Lemma unretried_runs_once_witness :
  Store.attempt_numbers "r-451755" (disk demo_recovered) = [1] /\
  forall r n, n ∈ Store.attempt_numbers r (disk demo_recovered) -> n = 1.
Proof.
  split; [vm_compute; reflexivity|].
  exact (proj1 (unretried_runs_once toy_hash Store.demo_time Store.demo_uuid "/jobs" "/shared"
    "/usr/bin/python3" demo_inventory demo_identity None demo_workspace Executor.fake_wf
    demo_world demo_recovered demo_fresh eq_refl eq_refl demo_unretried)).
Defined.

(** The world after the crash, for a process that does not die. *)
Definition demo_restarted : World := restart_world None 0 demo_crashed.

Definition demo_event (n : Z) (id : string) (t : Z) (run : string) : Store.EventRecord :=
  Store.mkEventRecord n id t "job.submitted" "record" (Some run)
    [("batch_id", JStr "b-896568"); ("series_id", JStr "s-880075")].

Definition demo_events : list Store.EventRecord :=
  [demo_event 1 "uuid-3" 1004 "r-451755"; demo_event 2 "uuid-7" 1008 "r-451786"].

(** Every receipt names its run. *)
Definition receipts_named (d : Store.Disk) : bool :=
  forallb (fun po => match po.1 with
                     | [t; _; _] => if String.eqb t "inbox" then is_ok (item_str po.2 "run_id") else true
                     | _ => true
                     end) (map_to_list (Store.docs d)).

Lemma receipts_named_true d : receipts_named d = true ->
  forall place n o, Store.docs d !! Store.inbox place n = Some o ->
    exists run_id, item_str o "run_id" = Ok run_id.
Proof.
  intros Hd place n o Ho. unfold receipts_named in Hd. rewrite forallb_true in Hd.
  specialize (Hd (Store.inbox place n, o) (proj2 (elem_of_map_to_list _ _ _) Ho)). simpl in Hd.
  destruct (item_str o "run_id"); [by eexists|done].
Qed.

Lemma demo_drainable : drainable toy_hash (disk demo_restarted).
Proof.
  split.
  - split; vm_compute; reflexivity.
  - exists demo_events, "". split; [vm_compute; reflexivity|done|].
    intros i e Hi. destruct i as [|[|i]]; [| |discriminate Hi]; injection Hi as <-;
      (split; [reflexivity|]); apply jwf_obj;
      (split; [apply (bool_decide_unpack _); by compute|by repeat constructor]).
  - apply receipts_named_true. vm_compute. reflexivity.
Qed.

Lemma demo_processing : Store.receipts "processing" (disk demo_restarted)
  = [Store.inbox "processing" "r-451755.submit.24466.json"].
Proof. vm_compute. reflexivity. Qed.

Lemma demo_pending : Store.receipts "pending" (disk demo_restarted)
  = [Store.inbox "pending" "r-451786.submit.938848.json"].
Proof. vm_compute. reflexivity. Qed.

Lemma demo_distinct n :
  ~ (has_receipt (disk demo_restarted) "processing" n /\ has_receipt (disk demo_restarted) "pending" n).
Proof.
  intros [Hp Hq].
  assert (forall place, has_receipt (disk demo_restarted) place n ->
    Store.inbox place n ∈ Store.receipts place (disk demo_restarted)) as Hin
    by (intros place Hh; apply Store.elem_of_receipts; by exists n).
  apply Hin in Hp, Hq.
  rewrite demo_processing in Hp. rewrite demo_pending in Hq.
  apply list_elem_of_singleton in Hp, Hq. injection Hp as Hp. injection Hq as Hq. congruence.
Qed.

(** The process after the crash handles both receipts. *)
Lemma ingest_drains_inbox_witness :
  exists counts w', total counts = 2 /\
    Store.receipts "processing" (disk (w' : @World Executor.FakeExecutor)) = [].
Proof.
  destruct (ingest_drains_inbox toy_hash Store.demo_time Store.demo_uuid "/jobs" "/shared"
    "/usr/bin/python3" demo_inventory None demo_workspace
    demo_restarted [("paused", JBool false)] demo_drainable demo_distinct
    ltac:(vm_compute; reflexivity) ltac:(reflexivity)) as (counts & w' & _ & Ht & Hp & _).
  exists counts, w'. split; [|exact Hp].
  rewrite demo_processing, demo_pending in Ht. exact Ht.
Defined.

(** A run whose process died between making the directory of its attempt and
    writing the record in it is refused on recovery, and never starts. *)
Example crash_before_attempt_record :
  launched (demo_process CIngest None 0 (demo_process CIngest (Some 2) 0 demo_submitted))
  = [("dev", "r-451786:a1")].
Proof. vm_compute. reflexivity. Qed.

(** A submission that dies after writing the batch is answered, when it is
    repeated, with that batch - and has no runs. *)
Example crash_after_batch_record :
  let w := demo_process (CSubmit demo_batch "key-1" "me") None 0
             (demo_process (CSubmit demo_batch "key-1" "me") (Some 4) 0 demo_world) in
  Store.docs (disk w) !! Store.batch_path "b-896568" <> None /\
  Store.ids_with "runs" "intent.json" (disk w) = [].
Proof. split; [vm_compute; discriminate|vm_compute; reflexivity]. Qed.

(** One retry whose process dies makes two attempts, and launches both. *)
Example crash_in_retry :
  let retried := demo_process (CRetry "r-451755" true) None 0 demo_recovered in
  launched (demo_process CIngest None 0 (demo_process CIngest (Some 7) 0 retried))
  = launched demo_recovered ++ [("dev", "r-451755:a2"); ("dev", "r-451755:a3")].
Proof. vm_compute. reflexivity. Qed.

End Service.
