(* ===== verification/Production.v ===== *)
(** Coexistence of timed runs with production:
    [src/tools/bigcherry/jobs/production.py].

    A production claim is parsed, the claims make a snapshot, and the decision
    and the guard compare a set of target GPUs with it.  A set built in the
    code is a sorted list without repetitions. *)

From S2P Require Import Prelude.

Module Production.

Definition ProductionClaimError (msg : string) : exn := Exn "ProductionClaimError" msg.

Record ProductionClaim : Set := mkClaim { all_devices : bool; stable_device_ids : list string }.

Record ProductionSnapshot : Set := mkSnapshot {
  config_hash : string;
  potential_all : bool;
  potential_devices : list string;
  running_devices : list string;
  observed_devices : list string;
  ambiguities : list string;
}.

(** [fingerprint] *)
Definition fingerprint (sha256 : string -> string) (s : ProductionSnapshot) : string :=
  sha256 (String.concat "|"
    [config_hash s; if potential_all s then "all" else String.concat "," (potential_devices s);
     String.concat "," (running_devices s); String.concat "," (observed_devices s);
     String.concat "," (ambiguities s)]).

Inductive CoexistenceMode : Set := EXCLUSIVE_WINDOW | IDLE_ATTESTATION.

Record CoexistenceDecision : Set := mkDecision {
  cd_mode : CoexistenceMode; conflicting_devices : list string; cd_reason : string }.

Definition comma : Ascii.ascii := Ascii.ascii_of_nat 44.

(** The [uuid:] form. *)
Definition uuid_claim (parts : list string) : res ProductionClaim :=
  let ids := sorted_set (List.filter truthy (map (str_drop 5) parts)) in
  if negb (length ids =? length parts)%nat
  then Err (ProductionClaimError "UUID claim contains empty or duplicate IDs")
  else Ok (mkClaim false ids).

(** The fields of the [arch:] form after the first; the last count wins. *)
Definition claim_count (fields : list string) : res (option Z) :=
  foldR (fun (count : option Z) field =>
      if startswith "count=" field then
        n ← of_option (ProductionClaimError "invalid architecture claim count")
              (py_int (str_drop 6 field));
        Ok (Some n)
      else Err (ProductionClaimError ("unknown architecture claim field: " +:+ field)))
    fields None.

Definition arch_claim (text : string) (architecture_devices : option (gmap string (list string))) :
    res ProductionClaim :=
  let fields := split_on comma text in
  let arch := py_strip (str_drop 5 (List.hd "" fields)) in
  count ← claim_count (List.tl fields);
  let required := ProductionClaimError "architecture claim requires arch and positive count" in
  n ← of_option required count;
  if negb (truthy arch) || (n <? 1)%Z then Err required
  else
    devices ← of_option (ProductionClaimError ("no accepted inventory for production architecture " +:+ arch))
                (architecture_devices ≫= fun m => m !! arch);
    let candidates := sorted_set devices in
    if (Z.of_nat (length candidates) <? n)%Z then
      Err (ProductionClaimError ("production claim requests " +:+ show_Z n +:+ " " +:+ arch
             +:+ " GPUs but only " +:+ show_nat (length candidates) +:+ " accepted"))
    else Ok (mkClaim false candidates).

Definition parse_gpu_claim (raw : option string)
    (architecture_devices : option (gmap string (list string))) : res ProductionClaim :=
  match raw with
  | None => Err (ProductionClaimError "production GPU claim is missing")
  | Some raw =>
      if blank raw then Err (ProductionClaimError "production GPU claim is missing")
      else
        let text := py_strip raw in
        if String.eqb text "all" then Ok (mkClaim true [])
        else
          let parts := List.filter truthy (map py_strip (split_on comma text)) in
          if bool_decide (parts <> []) && forallb (startswith "uuid:") parts then uuid_claim parts
          else if startswith "arch:" text then arch_claim text architecture_devices
          else Err (ProductionClaimError ("unsupported production GPU claim: " +:+ py_repr raw))
  end.

(** The loop of [build_snapshot] over the claims from index [i]. *)
Fixpoint collect_claims (devices : gmap string (list string)) (i : nat) (claims : list (option string)) :
    bool * list string * list string :=
  match claims with
  | [] => (false, [], [])
  | raw :: rest =>
      let '(all, potential, ambiguous) := collect_claims devices (S i) rest in
      match parse_gpu_claim raw (Some devices) with
      | Ok c => (all_devices c || all, stable_device_ids c ++ potential, ambiguous)
      | Err e => (true, potential, ("claim[" +:+ show_nat i +:+ "]: " +:+ exn_message e) :: ambiguous)
      end
  end.

Definition build_snapshot (config : string) (claims : list (option string))
    (architecture_devices : gmap string (list string)) (running observed : list string) :
    ProductionSnapshot :=
  let '(all, potential, ambiguous) := collect_claims architecture_devices 0 claims in
  mkSnapshot config all (sorted_set potential) (sorted_set running) (sorted_set observed) ambiguous.

Definition intersect (l k : list string) : list string := List.filter (fun x => str_in x k) l.

Definition decide_coexistence (target_stable_ids : list string) (snapshot : ProductionSnapshot) :
    res CoexistenceDecision :=
  let target := sorted_set target_stable_ids in
  if bool_decide (target = []) then Err (ValueError "target stable device set is empty")
  else if potential_all snapshot || bool_decide (ambiguities snapshot <> []) then
    Ok (mkDecision EXCLUSIVE_WINDOW target "production device ownership is ambiguous/all-devices")
  else
    let conflict := sorted_set (intersect target (potential_devices snapshot)) in
    if bool_decide (conflict <> []) then
      Ok (mkDecision EXCLUSIVE_WINDOW conflict "target intersects configured production potential")
    else Ok (mkDecision IDLE_ATTESTATION [] "target is disjoint from configured production potential").

(** [snapshot_contaminated]: the reason, if there is one. *)
Definition snapshot_contaminated (baseline current : ProductionSnapshot)
    (target_stable_ids : list string) : bool * option string :=
  let hit devices := bool_decide (intersect target_stable_ids devices <> []) in
  if negb (String.eqb (config_hash current) (config_hash baseline)) then
    (true, Some "production configuration changed")
  else if negb (Bool.eqb (potential_all current) (potential_all baseline)) then
    (true, Some "production potential changed")
  else if negb (bool_decide (potential_devices current = potential_devices baseline)) then
    (true, Some "production device claim changed")
  else if bool_decide (ambiguities current <> []) then
    (true, Some "production ownership became ambiguous")
  else if hit (running_devices current) then
    (true, Some "production backend is running on a target GPU")
  else if hit (observed_devices current) then
    (true, Some "production process/VRAM usage observed on a target GPU")
  else (false, None).

(** ** What a snapshot says of its claims *)

(** The claim is understood, and is for other devices than [target]. *)
Definition harmless (devices : gmap string (list string)) (target : list string)
    (raw : option string) : Prop :=
  exists c, parse_gpu_claim raw (Some devices) = Ok c /\ all_devices c = false /\
    forall x, x ∈ target -> x ∉ stable_device_ids c.

Lemma collect_claims_spec devices i claims all potential ambiguous target :
  collect_claims devices i claims = (all, potential, ambiguous) ->
  (all = false /\ ambiguous = [] /\ (forall x, x ∈ target -> x ∉ potential))
  <-> Forall (harmless devices target) claims.
Proof.
  revert i all potential ambiguous.
  induction claims as [|raw claims IH]; intros i all potential ambiguous H; cbn [collect_claims] in H.
  { injection H as <- <- <-. split; [constructor|]. intros _. split_and!; [done|done|].
    intros x _ Hx. by apply elem_of_nil in Hx. }
  destruct (collect_claims devices (S i) claims) as [[all1 pot1] amb1] eqn:E.
  specialize (IH (S i) all1 pot1 amb1 E). rewrite Forall_cons, <- IH. unfold harmless.
  destruct (parse_gpu_claim raw (Some devices)) as [c|e]; injection H as <- <- <-.
  - rewrite orb_false_iff. setoid_rewrite elem_of_app. naive_solver.
  - naive_solver.
Qed.

Lemma intersect_nil l k : intersect l k = [] <-> forall x, x ∈ l -> x ∉ k.
Proof.
  unfold intersect. rewrite filterb_nil. split.
  - intros H x Hl Hk. specialize (H x Hl). apply str_in_true in Hk. congruence.
  - intros H x Hl. destruct (str_in x k) eqn:E; [|done]. apply str_in_true in E. by destruct (H x).
Qed.

Lemma sorted_set_nil l : sorted_set l = [] <-> l = [].
Proof.
  split; [|by intros ->]. intros H. destruct l as [|x l]; [done|].
  assert (x ∈ sorted_set (x :: l)) as Hx by (apply elem_of_sorted_set; left).
  rewrite H in Hx. by apply elem_of_nil in Hx.
Qed.

Lemma decide_idle target s d :
  decide_coexistence target s = Ok d ->
  (cd_mode d = IDLE_ATTESTATION <->
     potential_all s = false /\ ambiguities s = [] /\ forall x, x ∈ target -> x ∉ potential_devices s).
Proof.
  unfold decide_coexistence. case_bool_decide; [done|].
  destruct (potential_all s); simpl.
  { intros [= <-]. simpl. naive_solver. }
  case_bool_decide as Ha.
  { intros [= <-]. simpl. naive_solver. }
  assert ((forall x, x ∈ sorted_set target -> x ∉ potential_devices s)
          <-> (forall x, x ∈ target -> x ∉ potential_devices s)) as Heq
    by (setoid_rewrite elem_of_sorted_set; done).

  case_bool_decide as Hc; intros [= <-]; simpl; rewrite <- Heq, <- intersect_nil.
  - split; [done|]. intros (_ & _ & Hn). destruct Hc. by rewrite Hn.
  - apply (proj1 (sorted_set_nil _)) in Hc. split; [intros _; by split_and!|done].
Qed.

(** ** Theorems *)

(** C26 Timed runs coexist with production only when nothing can touch their
    GPUs: for a snapshot of any claims, the decision for a set of target
    GPUs is the idle attestation exactly when every single claim was
    understood and is for other devices - a missing, malformed or
    unsatisfiable claim always asks for an exclusive window - and in a window the
    listed devices are among the targets, at least one. And as long as the
    guard reports no contamination, the decision stands and no production
    process is on a target GPU. *)
Theorem coexistence_fail_closed config claims devices running observed target d current :
  let baseline := build_snapshot config claims devices running observed in
  decide_coexistence target baseline = Ok d ->
  (cd_mode d = IDLE_ATTESTATION <-> Forall (harmless devices target) claims) /\
  (cd_mode d = EXCLUSIVE_WINDOW ->
     conflicting_devices d <> [] /\ forall x, x ∈ conflicting_devices d -> x ∈ target) /\
  (cd_mode d = IDLE_ATTESTATION ->
     (snapshot_contaminated baseline current target).1 = false ->
     decide_coexistence target current = Ok d /\
     forall x, x ∈ target -> x ∉ running_devices current /\ x ∉ observed_devices current).
Proof.
  intros baseline Hd. split_and!.
  - rewrite (decide_idle target baseline d Hd). unfold baseline, build_snapshot.
    destruct (collect_claims devices 0 claims) as [[all potential] ambiguous] eqn:E. simpl.
    setoid_rewrite elem_of_sorted_set. by eapply collect_claims_spec.
  - unfold decide_coexistence in Hd. case_bool_decide as Hnil; [done|].
    destruct (potential_all baseline || _); [|case_bool_decide as Hc]; injection Hd as <-; simpl; try done.
    + intros _. split; [done|]. intros x. by rewrite elem_of_sorted_set.
    + intros _. split; [done|]. intros x. rewrite elem_of_sorted_set. unfold intersect.
      rewrite elem_of_filterb, elem_of_sorted_set. by intros [].
  - intros Hidle Hclean. apply (decide_idle target baseline d Hd) in Hidle as (Hall & Hamb & Hdis).
    unfold snapshot_contaminated in Hclean.
    destruct (String.eqb _ _); simpl in Hclean; [|done].
    destruct (Bool.eqb _ _) eqn:Hpa in Hclean; simpl in Hclean; [|done]. apply eqb_prop in Hpa.
    case_bool_decide as Hpd; simpl in Hclean; [|done].
    case_bool_decide as Ha; [done|].
    case_bool_decide as Hr; [done|]. rewrite intersect_nil in Hr.
    case_bool_decide as Ho; [done|]. rewrite intersect_nil in Ho.
    split; [|by auto]. rewrite <- Hd. unfold decide_coexistence. by rewrite Hpa, Hpd, Ha, Hamb.
Qed.

(** ** Witnesses *)

Definition demo_devices : gmap string (list string) := <["gfx1100" := ["b"; "a"]]> ∅.

(** A field keeps the space in front of it, so this claim is not understood. *)
Example space_before_count :
  parse_gpu_claim (Some "arch:gfx1100, count=1") (Some demo_devices)
  = Err (ProductionClaimError "unknown architecture claim field:  count=1").
Proof. reflexivity. Qed.

Example arch_claims_all :
  parse_gpu_claim (Some "arch:gfx1100,count=1") (Some demo_devices) = Ok (mkClaim false ["a"; "b"]).
Proof. vm_compute. reflexivity. Qed.

Definition demo_snapshot : ProductionSnapshot :=
  build_snapshot "cfg" [Some "arch:gfx1100,count=1"; Some " uuid:c "] demo_devices [] ["z"].

Lemma coexistence_fail_closed_witness :
  decide_coexistence ["d"] demo_snapshot
  = Ok (mkDecision IDLE_ATTESTATION [] "target is disjoint from configured production potential") /\
  Forall (harmless demo_devices ["d"]) [Some "arch:gfx1100,count=1"; Some " uuid:c "].
Proof.
  split; [vm_compute; reflexivity|].
  apply (proj1 (proj1 (coexistence_fail_closed "cfg" [Some "arch:gfx1100,count=1"; Some " uuid:c "]
    demo_devices [] ["z"] ["d"]
    (mkDecision IDLE_ATTESTATION [] "target is disjoint from configured production potential")
    demo_snapshot ltac:(vm_compute; reflexivity)))).
  reflexivity.
Defined.

End Production.
