(* ===== verification/Lineage.v ===== *)
(** The lineage of patch subjects: [src/tools/bigcherry/patch/lineage.py].

    The record file of a package is absent, broken, or a document; the chain
    of digests is followed with fuel, which is shown to be enough. *)

From S2P Require Import Prelude Json.
Import Json.

Module Lineage.

Definition SCHEMA : Z := 1.
Definition REASON : string := "rebase re-anchor".

(** What [evidence/lineage.json] holds. *)
Inductive record_file : Type :=
| Absent
| Broken (error : string)
| Document (v : json).

Definition hex64_char (c : Ascii.ascii) : bool := str_has c "0123456789abcdef".

Fixpoint all_hex (s : string) : bool :=
  match s with EmptyString => true | String c s' => hex64_char c && all_hex s' end.

Definition valid_digest (v : json) : bool :=
  match v with JStr s => (String.length s =? 64)%nat && all_hex s | _ => false end.

Definition entry_keys : list string :=
  ["from_digest"; "to_digest"; "pin"; "reason"; "rebase_report_sha256"].

Definition same_keys (o : list (string * json)) : bool :=
  forallb (fun k => str_in k (map fst o)) entry_keys
  && forallb (fun kv => str_in kv.1 entry_keys) o.

Section Lineage.
(** The path, for messages, and the hash of a report. *)
Context (path : string) (sha256 : string -> string).

Definition bad (msg : string) : exn := ValueError (path +:+ ": " +:+ msg).

(** One round of the loop over the transitions. *)
Definition check_entry (seen : list (string * string)) (entry : json) : res (list (string * string)) :=
  match entry with
  | JObj o =>
      if negb (same_keys o) then Err (bad "invalid transition fields")
      else
        before ← item o "from_digest";
        after ← item o "to_digest";
        pin ← item o "pin";
        reason ← item o "reason";
        report ← item o "rebase_report_sha256";
        match before, after with
        | JStr b, JStr a =>
            if negb (valid_digest before) || negb (valid_digest after) || String.eqb b a
            then Err (bad "invalid or identical digests")
            else if negb (match pin with JStr p => negb (blank p) | _ => false end)
            then Err (bad "pin is required")
            else if negb (is_str (Some reason) REASON) || negb (valid_digest report)
            then Err (bad "re-anchor reason and report SHA-256 are required")
            else if has_key seen b then Err (bad "duplicate predecessor digest")
            else Ok (seen ++ [(b, a)])
        | _, _ => Err (bad "invalid or identical digests")
        end
  | _ => Err (bad "invalid transition fields")
  end.

(** [while cursor in seen: ...]: whether the walk comes back to what it has
    reached; [None] when the fuel does not last. *)
Fixpoint walk_cycles (fuel : nat) (seen : list (string * string)) (reached : list string)
    (cursor : string) : option bool :=
  match fuel with
  | 0 => None
  | S fuel' =>
      match jget seen cursor with
      | None => Some false
      | Some next => if str_in next reached then Some true
                     else walk_cycles fuel' seen (next :: reached) next
      end
  end.

Definition cyclic (seen : list (string * string)) : bool :=
  existsb (fun ba => bool_decide (walk_cycles (S (length seen)) seen [ba.1] ba.1 <> Some false)) seen.

Definition load (f : record_file) : res (list json) :=
  match f with
  | Absent => Ok []
  | Broken e => Err (bad ("invalid lineage document: " +:+ e))
  | Document (JObj o) =>
      if negb (is_int (jget o "schema") SCHEMA) then Err (bad "expected schema 1")
      else
        match jget o "transitions" with
        | Some (JArr entries) =>
            seen ← foldR check_entry entries [];
            if cyclic seen then Err (bad "cyclic lineage") else Ok entries
        | _ => Err (TypeError (path +:+ ": transitions must be a list"))
        end
  | Document _ => Err (bad "expected schema 1")
  end.

(** [{entry["from_digest"]: entry["to_digest"] for entry in transitions}] *)
Definition link_of (entry : json) : res (string * string) :=
  match entry with
  | JObj o => b ← item_str o "from_digest"; a ← item_str o "to_digest"; Ok (b, a)
  | v => Err (TypeError (type_name v))
  end.

Definition links_of (transitions : list json) : res (list (string * string)) :=
  ls ← mapR link_of transitions; Ok (dict_of_pairs ls).

Fixpoint follow (fuel : nat) (links : list (string * string)) (cursor current : string) : option bool :=
  match fuel with
  | 0 => None
  | S fuel' =>
      match jget links cursor with
      | None => Some false
      | Some next => if String.eqb next current then Some true else follow fuel' links next current
      end
  end.

(** [is_ancestor]; the inner option is the fuel's. *)
Definition is_ancestor (f : record_file) (previous current : string) : res (option bool) :=
  if negb (valid_digest (JStr previous)) || negb (valid_digest (JStr current)) then Ok (Some false)
  else
    transitions ← load f;
    links ← links_of transitions;
    Ok (follow (S (length links)) links previous current).

(** The file as the method's state.  [report]: the bytes of the report and
    what they decode to. *)
Definition write_reanchor (from_digest to_digest pin raw : string) (report : res json) :
    stm record_file unit :=
  if negb (valid_digest (JStr from_digest)) || negb (valid_digest (JStr to_digest))
     || String.eqb from_digest to_digest
  then raise (ValueError "lineage requires two distinct SHA-256 subject digests")
  else
    report ← lift report;
    match report with
    | JObj (_ :: _) =>
        if blank pin then raise (ValueError "lineage requires the pin")
        else
          f ← get;
          existing ← lift (load f);
          links ← lift (mapR link_of existing);
          if existsb (fun l => String.eqb l.1 from_digest) links
          then raise (ValueError "predecessor already recorded")
          else
            let entry := JObj [("from_digest", JStr from_digest); ("to_digest", JStr to_digest);
              ("pin", JStr pin); ("reason", JStr REASON);
              ("rebase_report_sha256", JStr (sha256 raw))] in
            _ ← put (Document (JObj [("schema", JInt SCHEMA); ("transitions", JArr (existing ++ [entry]))]));
            f' ← get;
            _ ← lift (load f');
            mret tt
    | _ => raise (ValueError "rebase report is not an object")
    end.

(** ** Chains of digests *)

Section Chains.
Context (seen : list (string * string)).

Definition link (a b : string) : Prop := jget seen a = Some b.

Lemma jget_key k v : jget seen k = Some v -> k ∈ map fst seen.
Proof.
  induction seen as [|[a b] l IH]; simpl; [done|].
  destruct (String.eqb_spec k a) as [->|]; [left|right; auto].
Qed.

(** A walk from [x] that has reached [reached] and stands at [cursor]. *)
Lemma walk_enough fuel reached cursor :
  NoDup (cursor :: reached) -> reached ⊆ map fst seen -> NoDup (map fst seen) ->
  length seen < fuel + length reached ->
  exists b, walk_cycles fuel seen (cursor :: reached) cursor = Some b.
Proof.
  revert reached cursor. induction fuel as [|fuel IH]; intros reached cursor Hnd Hsub Hkeys Hlen.
  - exfalso. apply NoDup_cons in Hnd as [_ Hnd]. pose proof (NoDup_submseteq _ _ Hnd Hsub) as Hs.
    apply submseteq_length in Hs. rewrite length_map in Hs. simpl in Hlen. lia.
  - cbn [walk_cycles]. destruct (jget seen cursor) as [next|] eqn:E; [|by eexists].
    destruct (str_in next (cursor :: reached)) eqn:Hin; [by eexists|].
    apply IH; [|..|done|simpl; lia].
    + constructor; [|done]. intros Hx. apply str_in_true in Hx. congruence.
    + intros x [->|Hx]%elem_of_cons; [by eapply jget_key|by apply Hsub].
Qed.

(** On a cycle the walk never ends at a digest without successor. *)
Lemma walk_on_cycle fuel reached cursor :
  tc link cursor cursor -> walk_cycles fuel seen reached cursor <> Some false.
Proof.
  revert reached cursor. induction fuel as [|fuel IH]; intros reached cursor Hc; [done|].
  cbn [walk_cycles].
  assert (exists next, link cursor next /\ rtc link next cursor) as (next & Hn & Hr).
  { inversion Hc as [? ? H|? y ? H H']; subst; [by exists cursor|].
    exists y. split; [done|]. by apply tc_rtc. }
  unfold link in Hn. rewrite Hn. destruct (str_in next reached); [done|].
  apply IH. eapply tc_rtc_l; [exact Hr|]. by apply tc_once.
Qed.

Lemma cyclic_false : NoDup (map fst seen) -> cyclic seen = false -> forall x, ~ tc link x x.
Proof.
  intros Hnd Hc x Hx. unfold cyclic in Hc. rewrite existsb_false in Hc.
  assert (exists y, link x y) as [y Hy] by (inversion Hx; eauto).
  assert ((x, y) ∈ seen) as Hin by (by apply jget_Some).
  specialize (Hc _ Hin). cbn [fst] in Hc. apply bool_decide_eq_false in Hc.
  apply Hc. by apply walk_on_cycle.
Qed.

(** Walking along the links decides reachability, when there is no cycle. *)
Lemma follow_spec fuel visited cursor current :
  (forall x, ~ tc link x x) -> NoDup (map fst seen) ->
  NoDup visited -> (forall v, v ∈ visited -> tc link v cursor) -> visited ⊆ map fst seen ->
  length seen < fuel + length visited ->
  exists b, follow fuel seen cursor current = Some b /\ (b = true <-> tc link cursor current).
Proof.
  intros Hac Hkeys. revert visited cursor.
  induction fuel as [|fuel IH]; intros visited cursor Hnd Hv Hsub Hlen.
  - exfalso. pose proof (NoDup_submseteq _ _ Hnd Hsub) as Hs.
    apply submseteq_length in Hs. rewrite length_map in Hs. simpl in Hlen. lia.
  - cbn [follow]. destruct (jget seen cursor) as [next|] eqn:E.
    + assert (tc link cursor next) as Hstep by (by apply tc_once).
      destruct (String.eqb_spec next current) as [->|Hne]; [by exists true|].
      destruct (IH (cursor :: visited) next) as (b & Eb & Hb).
      * constructor; [|done]. intros Hin. by apply (Hac cursor), Hv.
      * intros v [->|Hin]%elem_of_cons; [done|]. eapply tc_transitive; [by apply Hv|done].
      * intros x [->|Hx]%elem_of_cons; [by eapply jget_key|by apply Hsub].
      * simpl. lia.
      * exists b. split; [done|]. rewrite Hb. split; intros H.
        -- eapply tc_transitive; done.
        -- inversion H as [? ? H1|? y ? H1 H2]; subst; unfold link in H1; rewrite E in H1;
             injection H1 as <-; done.
    + exists false. split; [done|]. split; [done|]. intros H. exfalso.
      inversion H as [? ? H1|? y ? H1 H2]; subst; unfold link in H1; congruence.
Qed.
End Chains.

(** What an accepted list of transitions is. *)
Definition from_to (entry : json) (b a : string) : Prop :=
  exists o, entry = JObj o /\ jget o "from_digest" = Some (JStr b) /\ jget o "to_digest" = Some (JStr a).

Lemma check_entry_Ok seen entry seen' :
  NoDup (map fst seen) -> check_entry seen entry = Ok seen' ->
  exists b a, seen' = seen ++ [(b, a)] /\ NoDup (map fst seen') /\ from_to entry b a.
Proof.
  intros Hnd H. destruct entry as [| | | | | |o]; try done. cbn [check_entry] in H.
  destruct (same_keys o); [|done]. cbn [negb] in H.
  apply bind_Ok in H as (before & Hb & H). apply bind_Ok in H as (after & Ha & H).
  apply bind_Ok in H as (pin & Hp & H). apply bind_Ok in H as (reason & Hr & H).
  apply bind_Ok in H as (report & Hrep & H).
  destruct before as [| | | |b| |]; try done. destruct after as [| | | |a| |]; try done.
  destruct (_ || _) in H; [done|]. destruct (negb _) in H; [done|]. destruct (_ || _) in H; [done|].
  destruct (has_key seen b) eqn:Hk; [done|]. injection H as <-. exists b, a. split; [done|].
  unfold item in *. apply of_option_Ok in Hb, Ha.
  split; [|by exists o]. rewrite map_app. apply NoDup_app. split; [done|]. split; [|apply NoDup_singleton].
  intros x Hx ->%list_elem_of_singleton. simpl in Hx.
  apply list_elem_of_fmap in Hx as ([b' a'] & -> & Hin). unfold has_key in Hk.
  cbn [fst] in Hk. by rewrite (proj2 (jget_Some seen b' a' Hnd) Hin) in Hk.
Qed.

Lemma checked_entries entries seen0 seen :
  NoDup (map fst seen0) -> foldR check_entry entries seen0 = Ok seen ->
  NoDup (map fst seen) /\ exists new, seen = seen0 ++ new /\ mapR link_of entries = Ok new /\
    Forall2 (fun e l => from_to e l.1 l.2) entries new.
Proof.
  revert seen0. induction entries as [|e entries IH]; intros seen0 Hnd H.
  { injection H as <-. split; [done|]. exists []. rewrite app_nil_r. split_and!; [done|done|constructor]. }
  cbn [foldR] in H. apply bind_Ok in H as (s1 & H1 & H).
  destruct (check_entry_Ok _ _ _ Hnd H1) as (b & a & -> & Hnd1 & Hft).
  destruct (IH _ Hnd1 H) as (Hnd' & new & -> & Hm & Hf). split; [done|].
  exists ((b, a) :: new). rewrite <- app_assoc. split; [done|]. split; [|by constructor].
  destruct Hft as (o & -> & Hb & Ha). cbn [mapR link_of]. unfold item_str, item. rewrite Hb, Ha.
  cbn [of_option mbind result_bind jstr]. by rewrite Hm.
Qed.

(** Recorded: some transition of the document leads from [b] to [a]. *)
Definition recorded (entries : list json) (b a : string) : Prop :=
  exists e, e ∈ entries /\ from_to e b a.

Lemma load_Ok f entries :
  load f = Ok entries ->
  exists links, links_of entries = Ok links /\ NoDup (map fst links) /\ cyclic links = false /\
    forall b a, link links b a <-> recorded entries b a.
Proof.
  destruct f as [|e|v]; [|done|].
  { intros [= <-]. exists []. split_and!; [done|constructor|done|]. intros b a. split; [done|].
    intros (e & Hin & _). by apply elem_of_nil in Hin. }
  destruct v as [| | | | | |o]; try done. cbn [load].
  destruct (is_int _ _); [|done]. cbn [negb]. destruct (jget o "transitions") as [[]|]; try done.
  intros (seen & Hs & H)%bind_Ok. destruct (cyclic seen) eqn:Hc; [done|]. injection H as ->.
  destruct (checked_entries entries [] seen (NoDup_nil_2) Hs) as (Hnd & new & -> & Hm & Hf).
  simpl in *. exists new. unfold links_of. rewrite Hm. cbn [mbind result_bind].
  rewrite dict_of_pairs_NoDup by done. split_and!; [done|done|done|].
  intros b a. unfold link. rewrite jget_Some by done. split.
  - intros Hin. apply list_elem_of_lookup in Hin as [i Hi].
    destruct (Forall2_lookup_r _ _ _ _ _ Hf Hi) as (e & He & Hft).
    exists e. split; [by eapply list_elem_of_lookup_2|done].
  - intros (e & He & Hft). apply list_elem_of_lookup in He as [i Hi].
    destruct (Forall2_lookup_l _ _ _ _ _ Hf Hi) as ([b' a'] & Hl & Hft').
    destruct Hft as (o1 & -> & Hb1 & Ha1), Hft' as (o2 & [= <-] & Hb2 & Ha2). simpl in *.
    simplify_eq. by eapply list_elem_of_lookup_2.
Qed.

(** ** Theorems *)

(** Ancestry is exactly what is recorded: an accepted lineage document
    never leads from a digest back to itself, and [is_ancestor] - whose loop
    always ends - answers yes exactly when a chain of recorded transitions,
    at least one, leads from the previous digest to the current one. *)
Theorem ancestry_is_recorded f entries previous current :
  load f = Ok entries ->
  valid_digest (JStr previous) = true -> valid_digest (JStr current) = true ->
  (forall x, ~ tc (recorded entries) x x) /\
  exists b, is_ancestor f previous current = Ok (Some b) /\
    (b = true <-> tc (recorded entries) previous current).
Proof.
  intros Hload Hp Hc. destruct (load_Ok f entries Hload) as (links & Hl & Hnd & Hcyc & Hrec).
  pose proof (cyclic_false links Hnd Hcyc) as Hac.
  assert (forall x y, tc (link links) x y <-> tc (recorded entries) x y) as Htc.
  { intros x y. split; induction 1; [apply tc_once|eapply tc_l|apply tc_once|eapply tc_l]; eauto;
      by apply Hrec. }
  split; [intros x Hx; apply (Hac x); by apply Htc|].
  destruct (follow_spec links (S (length links)) [] previous current Hac Hnd) as (b & Eb & Hb).
  - constructor.
  - intros v Hv. by apply elem_of_nil in Hv.
  - intros v Hv. by apply elem_of_nil in Hv.
  - simpl. lia.
  - exists b. unfold is_ancestor. rewrite Hp, Hc, Hload. cbn [negb orb mbind result_bind].
    rewrite Hl. cbn [mbind result_bind]. rewrite Eb. split; [done|]. by rewrite Hb, Htc.
Qed.

End Lineage.

(** ** Witnesses *)

Definition demo_digest (c : string) : string := String.concat "" (replicate 64 c).
Definition demo_sha (s : string) : string := demo_digest "f".

(** Two re-anchors in a row. *)
Definition demo_file : record_file :=
  snd ((_ ← write_reanchor "p" demo_sha (demo_digest "a") (demo_digest "b") "pin-1" "" (Ok (JObj [("ok", JBool true)]));
   write_reanchor "p" demo_sha (demo_digest "b") (demo_digest "c") "pin-2" "" (Ok (JObj [("ok", JBool true)])))
    Absent).

Lemma ancestry_is_recorded_witness :
  is_ancestor "p" demo_file (demo_digest "a") (demo_digest "c") = Ok (Some true) /\
  exists b, is_ancestor "p" demo_file (demo_digest "c") (demo_digest "a") = Ok (Some b).
Proof.
  split; [vm_compute; reflexivity|].
  destruct (ancestry_is_recorded "p" demo_file
    (match load "p" demo_file with Ok l => l | Err _ => [] end) (demo_digest "c") (demo_digest "a")
    ltac:(vm_compute; reflexivity) ltac:(vm_compute; reflexivity) ltac:(vm_compute; reflexivity))
    as (_ & b & H & _).
  exists b. exact H.
Defined.

(** The check for cycles comes after the write: closing a chain raises, and the
    document it leaves is one that every later call rejects. *)
Example reanchor_writes_cycle :
  let '(r, f) := write_reanchor "p" demo_sha (demo_digest "c") (demo_digest "a") "pin-3" ""
                   (Ok (JObj [("ok", JBool true)])) demo_file in
  r = Err (ValueError "p: cyclic lineage") /\ load "p" f = Err (ValueError "p: cyclic lineage").
Proof. vm_compute. done. Qed.

End Lineage.
