(* ===== verification/Clock.v ===== *)
(** Time stamps: [_epoch] of [src/tools/bigcherry/core/retention.py] and
    [utc_stamp] of [src/tools/bigcherry/core/run_manifest.py], with what they
    use of Python's [time], [calendar] and [datetime], and the binary64
    arithmetic on the results. *)

From S2P Require Import Prelude.
From Stdlib Require Import SpecFloat.

Module Clock.

(** ** Floats *)

Notation float := spec_float.

Definition float_of_Z (z : Z) : float := binary_normalize 53 1024 z 0 false.
Definition fsub : float -> float -> float := SFsub 53 1024.
Definition fmul : float -> float -> float := SFmul 53 1024.
Definition fdiv : float -> float -> float := SFdiv 53 1024.
Definition fltb : float -> float -> bool := SFltb.

(** [math.floor], of a finite float. *)
Definition float_floor (x : float) : Z :=
  match x with
  | S754_finite s m e =>
      let z := if s then Z.neg m else Z.pos m in
      if (0 <=? e)%Z then (z * 2 ^ e)%Z else (z / 2 ^ (- e))%Z
  | _ => 0%Z
  end.

(** ** The calendar *)

Definition is_leap (y : Z) : bool :=
  (y mod 4 =? 0)%Z && (negb (y mod 100 =? 0)%Z || (y mod 400 =? 0)%Z).

Definition month_days (y m : Z) : Z :=
  if existsb (Z.eqb m) [4; 6; 9; 11]%Z then 30
  else if (m =? 2)%Z then (if is_leap y then 29 else 28) else 31.

Fixpoint days_before_month (y : Z) (m : nat) : Z :=
  match m with
  | S (S _ as m') => (days_before_month y m' + month_days y (Z.of_nat m'))%Z
  | _ => 0%Z
  end.

(** [datetime.date(y, m, d).toordinal()] *)
Definition toordinal (y m d : Z) : Z :=
  let p := (y - 1)%Z in
  (p * 365 + p / 4 - p / 100 + p / 400 + days_before_month y (Z.to_nat m) + d)%Z.

(** [calendar.timegm] *)
Definition timegm (y mo d h mi s : Z) : Z :=
  ((((toordinal y mo 1 - 719163 + d - 1) * 24 + h) * 60 + mi) * 60 + s)%Z.

(** ** Reading a stamp *)

(** A part of a pattern gives every way it can match, the preferred first. *)
Notation matcher := (string -> list (Z * string)).

Definition digit_in (lo hi : Z) : matcher := fun s =>
  match s with
  | String c s' =>
      match digit_val c with
      | Some n => let z := Z.of_N n in if ((lo <=? z) && (z <=? hi))%Z then [(z, s')] else []
      | None => []
      end
  | EmptyString => []
  end.

Definition then_digit (p : matcher) (lo hi : Z) : matcher := fun s =>
  '(a, s1) ← p s; '(b, s2) ← digit_in lo hi s1; [(10 * a + b, s2)%Z].

Definition two (tlo thi lo hi : Z) : matcher := then_digit (digit_in tlo thi) lo hi.

Definition either (p q : matcher) : matcher := fun s => p s ++ q s.

Definition after_space (p : matcher) : matcher := fun s =>
  match s with String c s' => if Ascii.eqb c " "%char then p s' else [] | EmptyString => [] end.

(** A literal, without regard to case. *)
Definition literal (lower upper : Ascii.ascii) (s : string) : list string :=
  match s with
  | String c s' => if Ascii.eqb c lower || Ascii.eqb c upper then [s'] else []
  | EmptyString => []
  end.

Definition year_p : matcher := then_digit (then_digit (two 0 9 0 9) 0 9) 0 9.
Definition month_p : matcher := either (two 1 1 0 2) (either (two 0 0 1 9) (digit_in 1 9)).
Definition day_p : matcher :=
  either (two 3 3 0 1) (either (two 1 2 0 9) (either (two 0 0 1 9)
    (either (digit_in 1 9) (after_space (digit_in 1 9))))).
Definition hour_p : matcher := either (two 2 2 0 3) (either (two 0 1 0 9) (digit_in 0 9)).
Definition minute_p : matcher := either (two 0 5 0 9) (digit_in 0 9).
Definition second_p : matcher := either (two 6 6 0 1) (either (two 0 5 0 9) (digit_in 0 9)).

Definition stamp_p (s : string) : list (Z * Z * Z * Z * Z * Z * string) :=
  '(y, s) ← year_p s; s ← literal "-"%char "-"%char s;
  '(mo, s) ← month_p s; s ← literal "-"%char "-"%char s;
  '(d, s) ← day_p s; s ← literal "t"%char "T"%char s;
  '(h, s) ← hour_p s; s ← literal ":"%char ":"%char s;
  '(mi, s) ← minute_p s; s ← literal ":"%char ":"%char s;
  '(sec, s) ← second_p s; s ← literal "z"%char "Z"%char s;
  [(y, mo, d, h, mi, sec, s)].

(** [calendar.timegm(time.strptime(stamp, "%Y-%m-%dT%H:%M:%SZ"))] *)
Definition epoch (stamp : string) : res Z :=
  match stamp_p stamp with
  | [] => Err (ValueError ("time data " +:+ py_repr stamp
                 +:+ " does not match format '%Y-%m-%dT%H:%M:%SZ'"))
  | (y, mo, d, h, mi, s, rest) :: _ =>
      if truthy rest then Err (ValueError ("unconverted data remains: " +:+ rest))
      else if (y =? 0)%Z then Err (ValueError "year 0 is out of range")
      else if (month_days y mo <? d)%Z then Err (ValueError "day is out of range for month")
      else Ok (timegm y mo d h mi s)
  end.

(** ** Writing a stamp *)

Fixpoint month_of (y : Z) (m : nat) (day : Z) (fuel : nat) : Z * Z :=
  match fuel with
  | 0 => (Z.of_nat m, day)
  | S fuel' =>
      let n := month_days y (Z.of_nat m) in
      if (day <=? n)%Z then (Z.of_nat m, day) else month_of y (S m) (day - n)%Z fuel'
  end.

(** The year, month and day of a day counted from the first of the year 1. *)
Definition from_ordinal (n : Z) : Z * Z * Z :=
  let n := (n - 1)%Z in
  let n400 := (n / 146097)%Z in let n := (n mod 146097)%Z in
  let n100 := Z.min 3 (n / 36524) in let n := (n - n100 * 36524)%Z in
  let n4 := (n / 1461)%Z in let n := (n mod 1461)%Z in
  let n1 := Z.min 3 (n / 365) in let n := (n - n1 * 365)%Z in
  let y := (n400 * 400 + n100 * 100 + n4 * 4 + n1 + 1)%Z in
  let '(m, d) := month_of y 1 (n + 1) 11 in (y, m, d).

Definition pad2 (z : Z) : string := if (z <? 10)%Z then "0" +:+ show_Z z else show_Z z.

(** [time.strftime("%Y-%m-%dT%H:%M:%SZ", time.gmtime(now))] *)
Definition utc_stamp (now : float) : string :=
  let t := float_floor now in
  let '(y, m, d) := from_ordinal (t / 86400 + 719163) in
  let s := (t mod 86400)%Z in
  show_Z y +:+ "-" +:+ pad2 m +:+ "-" +:+ pad2 d +:+ "T" +:+ pad2 (s / 3600) +:+ ":"
    +:+ pad2 (s / 60 mod 60) +:+ ":" +:+ pad2 (s mod 60) +:+ "Z".

Example epoch_2026 : epoch "2026-09-08T12:34:56Z" = Ok 1788870896%Z.
Proof. vm_compute. reflexivity. Qed.

Example stamp_2026 : utc_stamp (float_of_Z 1788870896) = "2026-09-08T12:34:56Z".
Proof. vm_compute. reflexivity. Qed.

Example epoch_rejects : is_ok (epoch "2026-02-30T00:00:00Z") = false.
Proof. vm_compute. reflexivity. Qed.

End Clock.
