(* ===== verification/Resources.v ===== *)
(** Host-local resource locks: [src/tools/bigcherry/core/resources.py].

    The lock is a directory with an [owner.json] in it; any number of
    [ResourceLock] instances, in any processes, work on it at once.  Every
    system call is one step of one instance, so a history is an interleaving of
    such steps.  [break_explicit], which the operator calls, has steps too. *)

From S2P Require Import Prelude.

Module Resources.

Definition ResourceError (msg : string) : exn := Exn "ResourceError" msg.

(** The characters [A-Za-z0-9_.-]. *)
Definition safe_char (c : Ascii.ascii) : bool :=
  let n := Ascii.nat_of_ascii c in
  bool_decide (65 <= n <= 90) || bool_decide (97 <= n <= 122) || bool_decide (48 <= n <= 57)
  || existsb (Ascii.eqb c) ["_"%char; "."%char; "-"%char].

(** [re.sub(r"[^A-Za-z0-9_.-]+", "_", s)]; [in_run]: the last character was replaced. *)
Fixpoint safe_name (in_run : bool) (s : string) : string :=
  match s with
  | EmptyString => EmptyString
  | String c s' =>
      if safe_char c then String c (safe_name false s')
      else if in_run then safe_name true s' else String "_" (safe_name true s')
  end.

Definition lock_path (root resource_id : string) : string :=
  root +:+ "/" +:+ safe_name false resource_id +:+ ".lock".

(** The lock directory: absent, or there with what [owner.json] says. *)
Inductive lock_dir : Set :=
| Free
| Claimed (owner : option nat).

#[global] Instance lock_dir_eq_dec : EqDecision lock_dir.
Proof. solve_decision. Defined.

(** Where an instance is in its code. *)
Inductive position : Set :=
| Outside       (**r in no call *)
| Waiting       (**r in [acquire], before [mkdir] *)
| Owning        (**r in [acquire], the directory made, before [owner.json] is written *)
| Undoing       (**r in [acquire], the write failed, before [rmdir] *)
| Unlinking     (**r in [release], before [owner.json] is removed *)
| Removing.     (**r in [release], before [rmdir] *)

(** A [ResourceLock] object: its [_acquired], where it is, and what its last
    call raised. *)
Record instance : Type := mkInstance { acquired : bool; position_of : position; raised : option exn }.

Record System : Type := mkSystem {
  lock : lock_dir;
  instances : gmap nat instance;
  breaking : bool;              (**r [break_explicit] has removed [owner.json], and not the directory *)
}.

(** How [write_text] ends: written, refused before the file was made, or failed
    after that. *)
Inductive written : Set := Written | Refused | Truncated.

(** What an instance does next; the environment chooses. *)
Inductive event : Set :=
| Create                  (**r [__init__] *)
| Acquire                 (**r [acquire] is called *)
| Mkdir (late : bool)     (**r [mkdir]; [late]: the deadline has passed *)
| Write (how : written)   (**r [write_text] of [owner.json] *)
| Undo                    (**r [rmdir] in the handler *)
| Release                 (**r [release] is called *)
| Unlink                  (**r [unlink(missing_ok=True)] *)
| Rmdir                   (**r [rmdir] *)
| Die.                    (**r the process dies *)

#[global] Instance position_eq_dec : EqDecision position.
Proof. solve_decision. Defined.
#[global] Instance written_eq_dec : EqDecision written.
Proof. solve_decision. Defined.
#[global] Instance event_eq_dec : EqDecision event.
Proof. solve_decision. Defined.

Section Lock.
(** The lock directory, the resource, and the timeout as it is printed. *)
Context (path resource_id waited : string).

Definition claimed : exn := ResourceError ("resource is already claimed: " +:+ resource_id +:+ " (waited " +:+ waited +:+ "s)").
Definition not_empty : exn := ResourceError ("resource lock is not empty: " +:+ path).
Definition os_error : exn := Exn "OSError" "".

(** One step of an instance [i] that is at [x]: the lock after it, and the
    instance; [None] when the event is not its next. *)
Definition act (i : nat) (e : event) (l : lock_dir) (x : instance) : option (lock_dir * instance) :=
  let got := acquired x in
  match e, position_of x with
  | Acquire, Outside => Some (l, mkInstance got Waiting None)
  | Mkdir late, Waiting =>
      match l with
      | Free => Some (Claimed None, mkInstance got Owning None)
      | Claimed _ => Some (l, if late then mkInstance got Outside (Some claimed) else x)
      end
  | Write how, Owning =>
      match l, how with
      | Claimed _, Written => Some (Claimed (Some i), mkInstance true Outside None)
      | Claimed _, Truncated => Some (Claimed (Some i), mkInstance got Undoing None)
      | _, _ => Some (l, mkInstance got Undoing None)
      end
  | Undo, Undoing =>
      Some (match l with Claimed None => Free | l => l end, mkInstance got Outside (Some os_error))
  | Release, Outside => Some (l, if got then mkInstance got Unlinking None else mkInstance got Outside None)
  | Unlink, Unlinking =>
      Some (match l with Claimed _ => Claimed None | Free => Free end, mkInstance got Removing None)
  | Rmdir, Removing =>
      match l with
      | Claimed (Some _) => Some (l, mkInstance got Outside (Some not_empty))
      | _ => Some (Free, mkInstance false Outside None)
      end
  | _, _ => None
  end.

Definition fire (i : nat) (e : event) (s : System) : option System :=
  match e with
  | Create =>
      match instances s !! i with
      | Some _ => None
      | None => Some (mkSystem (lock s) (<[i := mkInstance false Outside None]> (instances s)) (breaking s))
      end
  | Die => x ← instances s !! i; Some (mkSystem (lock s) (delete i (instances s)) (breaking s))
  | e =>
      x ← instances s !! i;
      '(l, x') ← act i e (lock s) x;
      Some (mkSystem l (<[i := x']> (instances s)) (breaking s))
  end.

(** [inspect]: [None], or what [owner.json] says. *)
Definition inspect (s : System) : option (option nat) :=
  match lock s with Free => None | Claimed o => Some o end.

(** The two steps of [break_explicit]. *)
Definition break_unlink (s : System) : System :=
  match inspect s with
  | None => s
  | Some _ => mkSystem (Claimed None) (instances s) true
  end.

Definition break_rmdir (s : System) : System :=
  if breaking s then
    mkSystem (match lock s with Claimed None => Free | l => l end) (instances s) false
  else s.

(** ** Histories without [break_explicit] *)

Definition step (s s' : System) : Prop := exists i e, fire i e s = Some s'.

Definition init : System := mkSystem Free ∅ false.

(** The instance has the lock, or is taking it or giving it back. *)
Definition holds (x : instance) : bool :=
  acquired x || match position_of x with Owning | Undoing => true | _ => false end.

(** What the lock directory must be for an instance. *)
Definition agrees (i : nat) (l : lock_dir) (x : instance) : Prop :=
  match position_of x with
  | Outside | Waiting => acquired x = true -> l = Claimed (Some i)
  | Unlinking => acquired x = true /\ l = Claimed (Some i)
  | Removing => acquired x = true /\ l = Claimed None
  | Owning => acquired x = false /\ l = Claimed None
  | Undoing => acquired x = false /\ (l = Claimed None \/ l = Claimed (Some i))
  end.

Record consistent (s : System) : Prop := {
  all_agree : forall i x, instances s !! i = Some x -> agrees i (lock s) x;
  one_holds : forall i j x y, instances s !! i = Some x -> instances s !! j = Some y ->
    holds x = true -> holds y = true -> i = j;
}.

Lemma agrees_free i x : agrees i Free x -> holds x = false.
Proof. unfold agrees, holds. destruct (acquired x), (position_of x); simpl; naive_solver. Qed.

(** An instance that does not hold agrees with any lock. *)
Lemma agrees_idle i l l' x : holds x = false -> agrees i l x -> agrees i l' x.
Proof. unfold agrees, holds. destruct (acquired x), (position_of x); simpl; naive_solver. Qed.

(** One step: the lock changes only by who holds it, or takes it free. *)
Lemma act_agrees i e l x l' x' :
  act i e l x = Some (l', x') -> agrees i l x ->
  agrees i l' x' /\ (l' <> l -> holds x = true \/ l = Free) /\
  (holds x' = true -> holds x = true \/ l = Free).
Proof.
  unfold act, agrees, holds. destruct x as [got pos ex]. cbn [acquired position_of].
  destruct e, pos; try done; try (destruct l as [|[o|]]); try destruct late; try destruct how;
    try destruct got; intros [= <- <-]; cbn; naive_solver.
Qed.

Lemma fire_consistent i e s s' : fire i e s = Some s' -> consistent s -> consistent s'.
Proof.
  intros H [Ha Ho].
  assert (forall j k y z, holds y = true -> holds z = true -> instances s !! j = Some y ->
    instances s !! k = Some z -> j = k) as Ho' by eauto.
  destruct (decide (e = Create)) as [->|Hc]; [|destruct (decide (e = Die)) as [->|Hd]].
  - cbn in H. destruct (instances s !! i) eqn:E; [done|]. injection H as <-. split; cbn.
    + intros j y Hj. destruct (decide (i = j)) as [->|Hne].
      * rewrite lookup_insert_eq in Hj. by injection Hj as <-.
      * rewrite lookup_insert_ne in Hj by done. by apply Ha.
    + intros j k y z Hj Hk Hy Hz. destruct (decide (i = j)) as [->|]; [|destruct (decide (i = k)) as [->|]].
      * rewrite lookup_insert_eq in Hj. by injection Hj as <-.
      * rewrite lookup_insert_eq in Hk. by injection Hk as <-.
      * rewrite lookup_insert_ne in Hj, Hk by done. by eapply Ho.
  - cbn in H. destruct (instances s !! i) eqn:E; [|done]. injection H as <-. split; cbn.
    + intros j y [_ Hj]%lookup_delete_Some. by apply Ha.
    + intros j k y z [_ Hj]%lookup_delete_Some [_ Hk]%lookup_delete_Some. by eapply Ho.
  - assert ((x ← instances s !! i; '(l, x') ← act i e (lock s) x;
             Some (mkSystem l (<[i := x']> (instances s)) (breaking s))) = Some s') as H' by (by destruct e).
    clear H. destruct (instances s !! i) as [x|] eqn:E; [|done]. cbn in H'.
    destruct (act i e (lock s) x) as [[l x']|] eqn:Eact; [|done]. injection H' as <-.
    destruct (act_agrees _ _ _ _ _ _ Eact (Ha _ _ E)) as (Hx & Hl & Hh).
    assert (forall j y, i <> j -> instances s !! j = Some y -> holds x = true \/ lock s = Free -> holds y = false)
      as Hother.
    { intros j y Hne Hj [Hx'|Hfree].
      - apply not_true_is_false. intros Hy. by apply Hne, (Ho _ _ _ _ E Hj).
      - apply (agrees_free j). rewrite <- Hfree. by apply Ha. }
    split; cbn.
    + intros j y Hj. destruct (decide (i = j)) as [->|Hne].
      * rewrite lookup_insert_eq in Hj. by injection Hj as <-.
      * rewrite lookup_insert_ne in Hj by done. destruct (decide (l = lock s)) as [->|Hne']; [by apply Ha|].
        eapply agrees_idle; [|by apply Ha]. by eapply Hother; [..|apply Hl].
    + intros j k y z Hj Hk Hy Hz. destruct (decide (i = j)) as [->|Hij], (decide (j = k)) as [->|Hjk]; try done.
      * rewrite lookup_insert_eq in Hj. injection Hj as <-. rewrite lookup_insert_ne in Hk by done.
        rewrite (Hother k z Hjk Hk) in Hz; [done|by apply Hh].
      * destruct (decide (i = k)) as [->|Hik].
        -- rewrite lookup_insert_eq in Hk. injection Hk as <-. rewrite lookup_insert_ne in Hj by done.
           rewrite (Hother j y Hij Hj) in Hy; [done|by apply Hh].
        -- rewrite lookup_insert_ne in Hj, Hk by done. by eapply Ho.
Qed.

(** C36 A resource is held by one instance at a time: in every interleaving of
    the system calls of any number of instances, with processes that die
    anywhere, at most one instance has acquired the lock; while it has it, the
    directory is there and its [owner.json], until the release removes it, is
    its own; and an instance that has not acquired the lock does not change the
    lock by releasing it. *)
Theorem resource_lock_exclusive s :
  rtc step init s ->
  (forall i j x y, instances s !! i = Some x -> instances s !! j = Some y ->
     acquired x = true -> acquired y = true -> i = j) /\
  (forall i x, instances s !! i = Some x -> acquired x = true ->
     lock s = Claimed (if bool_decide (position_of x = Removing) then None else Some i)) /\
  (forall i x s', instances s !! i = Some x -> acquired x = false -> fire i Release s = Some s' ->
     lock s' = lock s /\ exists x', instances s' !! i = Some x' /\ position_of x' = Outside).
Proof.
  intros Hs.
  assert (consistent s) as [Ha Ho].
  { assert (consistent init) as Hi by (split; by intros).
    revert Hi. induction Hs as [|s0 s1 s2 (i & e & Hf) Hs IH]; [done|]. intros H0. by eapply IH, fire_consistent. }
  split; [|split].
  - intros i j x y Hi Hj Hx Hy. eapply Ho; [exact Hi|exact Hj|..]; unfold holds; by rewrite ?Hx, ?Hy.
  - intros i x Hi Hx. specialize (Ha i x Hi). unfold agrees in Ha.
    case_bool_decide; destruct (position_of x); intuition congruence.
  - intros i x s' Hi Hx Hf. cbn [fire] in Hf. rewrite Hi in Hf. cbn in Hf. unfold act in Hf.
    destruct (position_of x); cbn in Hf; try done. rewrite Hx in Hf. injection Hf as <-. cbn. split; [done|].
    eexists. by rewrite lookup_insert_eq.
Qed.
End Lock.

(** ** Witnesses *)

Definition demo_fire : nat -> event -> System -> option System := fire (lock_path "/locks" "gpu 0") "gpu 0" "300.0".
Definition demo_step : System -> System -> Prop := step (lock_path "/locks" "gpu 0") "gpu 0" "300.0".

Fixpoint run (l : list (nat * event)) (s : System) : option System :=
  match l with
  | [] => Some s
  | (i, e) :: l' => s' ← demo_fire i e s; run l' s'
  end.

Example demo_path : lock_path "/locks" "gpu 0" = "/locks/gpu_0.lock".
Proof. reflexivity. Qed.

Lemma run_steps l s s' : run l s = Some s' -> rtc demo_step s s'.
Proof.
  revert s. induction l as [|[i e] l IH]; intros s H; [injection H as <-; apply rtc_refl|].
  cbn [run] in H. destruct (demo_fire i e s) as [s1|] eqn:E; [|done].
  eapply rtc_l; [by exists i, e|]. by apply IH.
Qed.

Definition system_of (o : option System) : System := default init o.

(** 1 acquires, 2 waits and gives up, releases what it does not have, and 3 is
    waiting. *)
Definition demo_contended : System :=
  system_of (run [(1, Create); (2, Create); (3, Create); (1, Acquire); (2, Acquire); (1, Mkdir false);
    (2, Mkdir false); (1, Write Written); (2, Mkdir true); (2, Release); (3, Acquire)] init).

Lemma resource_lock_exclusive_witness :
  lock demo_contended = Claimed (Some 1) /\ position_of <$> instances demo_contended !! 3 = Some Waiting.
Proof.
  assert (rtc demo_step init demo_contended) as H.
  { apply (run_steps [(1, Create); (2, Create); (3, Create); (1, Acquire); (2, Acquire); (1, Mkdir false);
      (2, Mkdir false); (1, Write Written); (2, Mkdir true); (2, Release); (3, Acquire)]).
    vm_compute. reflexivity. }
  destruct (resource_lock_exclusive (lock_path "/locks" "gpu 0") "gpu 0" "300.0" demo_contended H) as (_ & Hown & _).
  split; [|vm_compute; reflexivity].
  refine (Hown 1 (mkInstance true Outside None) _ eq_refl). vm_compute. reflexivity.
Defined.

(** After the operator breaks the lock of 1 and 2 acquires it, 1, which still
    believes it has it, releases the lock of 2. *)
Example broken_holder_releases_another :
  let taken := system_of (run [(1, Create); (2, Create); (1, Acquire); (1, Mkdir false); (1, Write Written)] init) in
  let again := system_of (run [(2, Acquire); (2, Mkdir false); (2, Write Written)]
                            (break_rmdir (break_unlink taken))) in
  let gone := system_of (run [(1, Release); (1, Unlink); (1, Rmdir)] again) in
  lock again = Claimed (Some 2) /\ lock gone = Free /\ acquired <$> instances gone !! 2 = Some true.
Proof. vm_compute. done. Qed.

(** A write that fails after it has made the file leaves a lock no instance
    holds: [rmdir] in the handler fails too. *)
Example failed_write_strands_lock :
  let s := system_of (run [(1, Create); (1, Acquire); (1, Mkdir false); (1, Write Truncated); (1, Undo)] init) in
  lock s = Claimed (Some 1) /\ acquired <$> instances s !! 1 = Some false.
Proof. vm_compute. done. Qed.

End Resources.
