(* ===== verification/Activity.v ===== *)
(** The tree-activity protocol: [src/tools/bigcherry/core/tree_activity.py].

    Runners publish a lease file and maintenance publishes a lock directory;
    each side looks for the other after it has published.  The objects of any
    number of processes work on one activity directory at once.  As in
    [Resources], every system call is one step of one object, a history is an
    interleaving of such steps, and processes may die in front of any of them. *)

From S2P Require Import Prelude Lines Resources.

Module Activity.
Import Resources.

Definition TreeActivityError (msg : string) : exn := Exn "TreeActivityError" msg.

(** ** Data *)

Record LeaseInfo : Type := mkLeaseInfo {
  lease_id : string;
  pid : Z;
  hostname : string;
  command : string;
  run_id : string;
}.

#[global] Instance LeaseInfo_eq_dec : EqDecision LeaseInfo.
Proof. solve_decision. Defined.

(** A lease file: made but not yet a JSON object, or with its payload. *)
Inductive lease_file : Type := Partial | Full (payload : LeaseInfo).

#[global] Instance lease_file_eq_dec : EqDecision lease_file.
Proof. solve_decision. Defined.

(** Where a [Lease] object is in its code. *)
Inductive lease_position : Set :=
| Idle            (**r not entered, or left *)
| Unseen          (**r in [__enter__]: no maintenance was seen, [leases] not yet made *)
| Unnamed         (**r before the lease file is made *)
| Unwritten       (**r the file is made, its text not yet written *)
| Published       (**r before the second look at the maintenance lock *)
| Withdrawing     (**r maintenance was seen; before the lease is removed *)
| Inside.       (**r [__enter__] has returned *)

#[global] Instance lease_position_eq_dec : EqDecision lease_position.
Proof. solve_decision. Defined.

Record Lease : Type := mkLease { l_info : LeaseInfo; l_position : lease_position; l_raised : option exn }.

(** Where a [MaintenanceLock] object is. *)
Inductive maint_position : Type :=
| Resting                                            (**r in no call *)
| Entering                                           (**r in [acquire], before [mkdir] *)
| Made                                               (**r the directory made, before [glob] *)
| Reading (todo : list string) (out : list LeaseInfo)    (**r in [list_active_leases] *)
| Probing (todo live : list LeaseInfo)               (**r in [list_live_leases] *)
| Clear                                              (**r no lease is live; before [owner.json] is written *)
| Failing (why : exn)                                (**r in the handler, before [unlink] *)
| Leaving (why : exn)                                (**r in the handler, before [rmdir] *)
| Releasing                                          (**r in [release], before [unlink] *)
| Emptied.                                           (**r in [release], before [rmdir] *)

Record MaintenanceLock : Type := mkMaint {
  m_host : string;
  m_pid : Z;
  m_acquired : bool;
  m_position : maint_position;
  m_raised : option exn;
}.

(** Where a call of [prune_stale_leases] is. *)
Inductive prune_position : Type :=
| Listing (todo : list string) (out : list LeaseInfo)
| Judging (todo : list LeaseInfo) (removed : list string)
| Dropping (stale : LeaseInfo) (todo : list LeaseInfo) (removed : list string).

Record Pruner : Type := mkPruner { p_host : string; p_pid : Z; p_position : prune_position }.

Record System : Type := mkSystem {
  lock : lock_dir;                               (**r [maintenance.lock] *)
  lease_dir : option (gmap string lease_file);   (**r [leases], once it is made *)
  leases : gmap string Lease;
  maints : gmap nat MaintenanceLock;
  pruners : gmap nat Pruner;
  alive : gset (string * Z);                     (**r the processes that run, by host and pid *)
  born : gmap string (string * Z);               (**r the process each lease id was made in *)
}.

(** ** The calls *)

(** The directory of a project root, which has been resolved; the hash is
    hashlib's sha256 as hexadecimal text. *)
Definition tree_activity_root (sha256 : string -> string) (work_root resolved : string) : string :=
  work_root +:+ "/tree-activity/" +:+ Lines.Lines.str_take 16 (sha256 resolved).

Definition maintenance_lock_path (sha256 : string -> string) (work_root resolved : string) : string :=
  tree_activity_root sha256 work_root resolved +:+ "/maintenance.lock".

(** What [os.kill(pid, 0)] does. *)
Inductive signal : Set := Delivered | NoProcess | NotPermitted | OtherError.

Definition pid_alive (p : Z) (k : signal) : bool :=
  if (p <=? 0)%Z then false
  else match k with Delivered | NotPermitted => true | NoProcess | OtherError => false end.

Definition is_live (gethostname : string) (i : LeaseInfo) (k : signal) : bool :=
  if negb (String.eqb (hostname i) gethostname) then true else pid_alive (pid i) k.

(** The answers the kernel may give on a host. *)
Definition answers (running : gset (string * Z)) (host : string) (p : Z) (k : signal) : bool :=
  if bool_decide ((host, p) ∈ running) then
    match k with Delivered | NotPermitted => true | NoProcess | OtherError => false end
  else match k with NoProcess | OtherError => true | Delivered | NotPermitted => false end.

Definition files (s : System) : gmap string lease_file := default ∅ (lease_dir s).

(** [sorted(leases_dir.glob("*.json"))] *)
Definition glob (s : System) : list string := py_sorted String.leb (elements (dom (files s))).

(** The body of the loop of [list_active_leases]: a file that is gone, or is
    not the JSON of a lease, is passed over. *)
Definition read_lease (s : System) (id : string) (out : list LeaseInfo) : list LeaseInfo :=
  match files s !! id with
  | Some (Full i) => out ++ [i]
  | Some Partial | None => out
  end.

Definition is_dir (l : lock_dir) : bool := match l with Free => false | Claimed _ => true end.

Definition maintenance_is_held (s : System) : bool := is_dir (lock s).

(** What a lease does next; the environment chooses how a write ends. *)
Inductive lease_event : Set :=
| Enter                   (**r [__enter__], with its first look at the lock *)
| MakeDir                 (**r [leases.mkdir] *)
| Touch (ok : bool)       (**r [write_text] makes the file, or fails *)
| Fill (ok : bool)        (**r [write_text] writes the text, or fails *)
| Recheck                 (**r the second look *)
| Withdraw                (**r [unlink] *)
| Exit.                   (**r [__exit__] *)

Inductive maint_event : Set :=
| Acquire
| MkLock
| Glob
| ReadNext
| Probe (k : signal)
| WriteOwner (how : written)
| UndoUnlink
| UndoRmdir
| Release
| Unlink
| Rmdir.

Inductive event : Type :=
| Spawn (host : string) (p : Z)
| Die (host : string) (p : Z)
| NewLease (i : LeaseInfo)
| NewMaint (j : nat) (host : string) (p : Z)
| StartPrune (k : nat) (host : string) (p : Z)
| LeaseStep (id : string) (e : lease_event)
| MaintStep (j : nat) (e : maint_event)
| PruneStep (k : nat) (answer : signal).

Section Protocol.
(** The project root, as it is printed. *)
Context (project_root : string).

Definition started (i : LeaseInfo) : string := command i +:+ "(" +:+ run_id i +:+ ")".
Definition held_error (i : LeaseInfo) : exn :=
  TreeActivityError ("refusing to start " +:+ started i +:+ ": maintenance lock held for " +:+ project_root).
Definition began_error (i : LeaseInfo) : exn :=
  TreeActivityError ("refusing to start " +:+ started i +:+ ": maintenance began during lease admission for " +:+ project_root).
Definition already_held : exn := TreeActivityError ("maintenance lock already held for " +:+ project_root).
Definition live_error (live : list LeaseInfo) : exn :=
  TreeActivityError ("refusing to acquire maintenance lock: " +:+ show_nat (length live) +:+ " live lease(s) still active for "
    +:+ project_root +:+ ": " +:+ String.concat ", " (map started live)).
Definition os_error : exn := Exn "OSError" "".

(** One step of a lease: the lease directory after it, and the lease. *)
Definition lease_act (e : lease_event) (l : lock_dir) (d : option (gmap string lease_file)) (x : Lease) :
    option (option (gmap string lease_file) * Lease) :=
  let i := l_info x in
  let id := lease_id i in
  let at_ p r := mkLease i p r in
  match e, l_position x with
  | Enter, Idle => Some (d, if is_dir l then at_ Idle (Some (held_error i)) else at_ Unseen None)
  | MakeDir, Unseen => Some (Some (default ∅ d), at_ Unnamed None)
  | Touch true, Unnamed => Some (<[id := Partial]> <$> d, at_ Unwritten None)
  | Touch false, Unnamed => Some (d, at_ Idle (Some os_error))
  | Fill true, Unwritten => Some (<[id := Full i]> <$> d, at_ Published None)
  | Fill false, Unwritten => Some (d, at_ Idle (Some os_error))
  | Recheck, Published => Some (d, at_ (if is_dir l then Withdrawing else Inside) None)
  | Withdraw, Withdrawing => Some (delete id <$> d, at_ Idle (Some (began_error i)))
  | Exit, Inside => Some (delete id <$> d, at_ Idle None)
  | Exit, Idle => Some (d, x)
  | _, _ => None
  end.

(** One step of a maintenance lock [j]. *)
Definition maint_act (j : nat) (e : maint_event) (s : System) (y : MaintenanceLock) : option (lock_dir * MaintenanceLock) :=
  let l := lock s in
  let at_ p r := mkMaint (m_host y) (m_pid y) (m_acquired y) p r in
  match e, m_position y with
  | Acquire, Resting => Some (l, at_ Entering None)
  | MkLock, Entering =>
      match l with
      | Free => Some (Claimed None, at_ Made None)
      | Claimed _ => Some (l, at_ Resting (Some already_held))
      end
  | Glob, Made => Some (l, at_ (Reading (glob s) []) None)
  | ReadNext, Reading (id :: todo) out => Some (l, at_ (Reading todo (read_lease s id out)) None)
  | ReadNext, Reading [] out => Some (l, at_ (Probing out []) None)
  | Probe k, Probing (i :: todo) live =>
      if answers (alive s) (m_host y) (pid i) k then
        Some (l, at_ (Probing todo (if is_live (m_host y) i k then live ++ [i] else live)) None)
      else None
  | Probe _, Probing [] live =>
      Some (l, at_ (if bool_decide (live = []) then Clear else Failing (live_error live)) None)
  | WriteOwner how, Clear =>
      match how with
      | Written => Some (Claimed (Some j), mkMaint (m_host y) (m_pid y) true Resting None)
      | Refused => Some (l, at_ (Failing os_error) None)
      | Truncated => Some (Claimed (Some j), at_ (Failing os_error) None)
      end
  | UndoUnlink, Failing why => Some (match l with Claimed _ => Claimed None | Free => Free end, at_ (Leaving why) None)
  | UndoRmdir, Leaving why => Some (match l with Claimed None => Free | l => l end, at_ Resting (Some why))
  | Release, Resting => Some (l, if m_acquired y then at_ Releasing None else at_ Resting None)
  | Unlink, Releasing => Some (match l with Claimed _ => Claimed None | Free => Free end, at_ Emptied None)
  | Rmdir, Emptied =>
      match l with
      | Claimed (Some _) => Some (l, at_ Resting (Some os_error))
      | _ => Some (Free, mkMaint (m_host y) (m_pid y) false Resting None)
      end
  | _, _ => None
  end.

(** One step of a call of [prune_stale_leases]: the directory after it, and the
    call, if it has not returned. *)
Definition prune_act (k : signal) (s : System) (z : Pruner) : option (option (gmap string lease_file) * option Pruner) :=
  let d := lease_dir s in
  let at_ p := Some (mkPruner (p_host z) (p_pid z) p) in
  match p_position z with
  | Listing (id :: todo) out => Some (d, at_ (Listing todo (read_lease s id out)))
  | Listing [] out => Some (d, at_ (Judging out []))
  | Judging (i :: todo) removed =>
      if answers (alive s) (p_host z) (pid i) k then
        Some (d, at_ (if String.eqb (hostname i) (p_host z) && negb (pid_alive (pid i) k)
                      then Dropping i todo removed else Judging todo removed))
      else None
  | Judging [] removed => Some (d, None)
  | Dropping i todo removed => Some (delete (lease_id i) <$> d, at_ (Judging todo (removed ++ [lease_id i])))
  end.

Definition set_leases (s : System) d ls : System :=
  mkSystem (lock s) d ls (maints s) (pruners s) (alive s) (born s).

Definition fire (e : event) (s : System) : option System :=
  match e with
  | Spawn h p =>
      if (0 <? p)%Z then
        Some (mkSystem (lock s) (lease_dir s) (leases s) (maints s) (pruners s) ({[ (h, p) ]} ∪ alive s) (born s))
      else None
  | Die h p =>
      Some (mkSystem (lock s) (lease_dir s)
              (filter (fun ix => (hostname (l_info ix.2), pid (l_info ix.2)) <> (h, p)) (leases s))
              (filter (fun jy => (m_host jy.2, m_pid jy.2) <> (h, p)) (maints s))
              (filter (fun kz => (p_host kz.2, p_pid kz.2) <> (h, p)) (pruners s))
              (alive s ∖ {[ (h, p) ]}) (born s))
  | NewLease i =>
      if bool_decide ((hostname i, pid i) ∈ alive s) && bool_decide (born s !! lease_id i = None) then
        Some (mkSystem (lock s) (lease_dir s) (<[lease_id i := mkLease i Idle None]> (leases s)) (maints s) (pruners s)
                (alive s) (<[lease_id i := (hostname i, pid i)]> (born s)))
      else None
  | NewMaint j h p =>
      if bool_decide ((h, p) ∈ alive s) && bool_decide (maints s !! j = None) then
        Some (mkSystem (lock s) (lease_dir s) (leases s) (<[j := mkMaint h p false Resting None]> (maints s)) (pruners s)
                (alive s) (born s))
      else None
  | StartPrune k h p =>
      if bool_decide ((h, p) ∈ alive s) && bool_decide (pruners s !! k = None) then
        Some (mkSystem (lock s) (lease_dir s) (leases s) (maints s) (<[k := mkPruner h p (Listing (glob s) [])]> (pruners s))
                (alive s) (born s))
      else None
  | LeaseStep id e =>
      x ← leases s !! id;
      '(d, x') ← lease_act e (lock s) (lease_dir s) x;
      Some (mkSystem (lock s) d (<[id := x']> (leases s)) (maints s) (pruners s) (alive s) (born s))
  | MaintStep j e =>
      y ← maints s !! j;
      '(l, y') ← maint_act j e s y;
      Some (mkSystem l (lease_dir s) (leases s) (<[j := y']> (maints s)) (pruners s) (alive s) (born s))
  | PruneStep k answer =>
      z ← pruners s !! k;
      '(d, z') ← prune_act answer s z;
      Some (mkSystem (lock s) d (leases s) (maints s) (match z' with Some z' => <[k := z']> (pruners s) | None => delete k (pruners s) end)
              (alive s) (born s))
  end.

Definition step (s s' : System) : Prop := exists e, fire e s = Some s'.

End Protocol.

Definition init : System := mkSystem Free None ∅ ∅ ∅ ∅ ∅.

(** ** Admission of a cleanup *)

Inductive leases_entry : Type :=
| NoLeases | LeasesLink | LeasesFile
| LeasesDir (names : list string).       (**r as [iterdir] gives them *)

Inductive namespace_entry : Type :=
| Foreign                                (**r a symbolic link, or no directory *)
| Unreadable (why : string)              (**r looking at it raises [OSError] *)
| Namespace (maintenance : bool) (entry : leases_entry).

Inductive activity_entry : Type :=
| NoActivity | ActivityLink | ActivityFile
| ActivityDir (namespaces : list (string * namespace_entry)).   (**r sorted *)

Fixpoint namespaces_blocker (l : list (string * namespace_entry)) : option string :=
  match l with
  | [] => None
  | (name, n) :: l' =>
      match n with
      | Foreign => Some ("unrecognised tree-activity namespace: " +:+ name)
      | Unreadable why => Some ("unable to inspect every work-root activity namespace: " +:+ why)
      | Namespace true _ => Some ("maintenance lock exists in namespace " +:+ name)
      | Namespace false LeasesLink => Some ("symlinked runner lease directory in namespace " +:+ name)
      | Namespace false LeasesFile => Some ("invalid runner lease directory in namespace " +:+ name)
      | Namespace false (LeasesDir (entry :: _)) =>
          Some ("runner lease or unclassified entry exists: " +:+ name +:+ "/" +:+ entry)
      | Namespace false (LeasesDir []) | Namespace false NoLeases => namespaces_blocker l'
      end
  end.

Definition cleanup_activity_blocker (a : activity_entry) : option string :=
  match a with
  | ActivityLink => Some "tree-activity is a symlink; cleanup admission is unsafe"
  | NoActivity => None
  | ActivityFile => Some "tree-activity is not a directory"
  | ActivityDir l => namespaces_blocker l
  end.

(** What a cleanup sees of the directory of one project. *)
Definition sees (s : System) (n : namespace_entry) : Prop :=
  match lease_dir s with
  | None => n = Namespace (is_dir (lock s)) NoLeases
  | Some d => exists names, n = Namespace (is_dir (lock s)) (LeasesDir names) /\ forall x, x ∈ names <-> exists id, x = id +:+ ".json" /\ is_Some (d !! id)
  end.

(** ** The invariant *)

Definition admitted (s : System) (id : string) : Prop :=
  exists x, leases s !! id = Some x /\ l_position x = Inside.

(** A lease that is there: its process runs, and its file, from when its text is
    written until it is removed, is its own. *)
Definition lease_ok (s : System) (id : string) (x : Lease) : Prop :=
  let i := l_info x in
  lease_id i = id /\ (hostname i, pid i) ∈ alive s /\ born s !! id = Some (hostname i, pid i) /\
  match l_position x with
  | Published | Withdrawing | Inside => files s !! id = Some (Full i)
  | Unwritten => files s !! id = Some Partial
  | Unnamed => is_Some (lease_dir s)
  | Idle | Unseen => True
  end.

(** What is read of a lease is of the process it was made in. *)
Definition traced (s : System) (i : LeaseInfo) : Prop := born s !! lease_id i = Some (hostname i, pid i).

Definition holds (y : MaintenanceLock) : bool :=
  m_acquired y || match m_position y with Resting | Entering => false | _ => true end.

(** What the lock directory is for a maintenance lock. *)
Definition agrees (j : nat) (l : lock_dir) (y : MaintenanceLock) : Prop :=
  match m_position y with
  | Resting | Entering => m_acquired y = true -> l = Claimed (Some j)
  | Made | Reading _ _ | Probing _ _ | Clear | Leaving _ => m_acquired y = false /\ l = Claimed None
  | Failing _ => m_acquired y = false /\ (l = Claimed None \/ l = Claimed (Some j))
  | Releasing => m_acquired y = true /\ l = Claimed (Some j)
  | Emptied => m_acquired y = true /\ l = Claimed None
  end.

(** No admitted lease escapes the scan, and none is there when it is over. *)
Definition covers (s : System) (y : MaintenanceLock) : Prop :=
  match m_position y with
  | Reading todo out => forall id, admitted s id -> id ∈ todo \/ id ∈ map lease_id out
  | Probing todo live => forall id, admitted s id -> id ∈ map lease_id todo \/ live <> []
  | Clear => forall id, ~ admitted s id
  | Resting | Entering | Releasing | Emptied => m_acquired y = true -> forall id, ~ admitted s id
  | Made | Failing _ | Leaving _ => True
  end.

Definition scanned (y : MaintenanceLock) : list LeaseInfo :=
  match m_position y with Reading _ out => out | Probing todo _ => todo | _ => [] end.

Definition listed (z : Pruner) : list LeaseInfo :=
  match p_position z with Listing _ out => out | Judging todo _ | Dropping _ todo _ => todo end.

Definition prune_ok (s : System) (z : Pruner) : Prop :=
  Forall (traced s) (listed z) /\
  match p_position z with
  | Dropping i _ _ => traced s i /\ leases s !! lease_id i = None
  | Listing _ _ | Judging _ _ => True
  end.

Record consistent (s : System) : Prop := {
  pids : forall h p, (h, p) ∈ alive s -> (0 < p)%Z;
  leases_ok : forall id x, leases s !! id = Some x -> lease_ok s id x;
  files_ok : forall id i, files s !! id = Some (Full i) -> lease_id i = id /\ traced s i;
  maints_agree : forall j y, maints s !! j = Some y -> agrees j (lock s) y;
  maints_cover : forall j y, maints s !! j = Some y -> covers s y /\ Forall (traced s) (scanned y);
  one_holds : forall i j x y, maints s !! i = Some x -> maints s !! j = Some y ->
    holds x = true -> holds y = true -> i = j;
  prunes_ok : forall k z, pruners s !! k = Some z -> prune_ok s z;
}.

Lemma covers_mono s s' y : (forall id, admitted s' id -> admitted s id) -> covers s y -> covers s' y.
Proof. intros H. unfold covers. destruct (m_position y); naive_solver. Qed.

Lemma covers_idle s y : holds y = false -> covers s y.
Proof. unfold holds, covers. by destruct (m_acquired y), (m_position y). Qed.

Lemma maint_agrees_free j y : agrees j Free y -> holds y = false.
Proof. unfold agrees, holds. destruct (m_acquired y), (m_position y); simpl; naive_solver. Qed.

Lemma maint_agrees_idle j l l' y : holds y = false -> agrees j l y -> agrees j l' y.
Proof. unfold agrees, holds. destruct (m_acquired y), (m_position y); simpl; naive_solver. Qed.

Lemma traced_mono s s' i : (forall id v, born s !! id = Some v -> born s' !! id = Some v) -> traced s i -> traced s' i.
Proof. unfold traced. naive_solver. Qed.

Lemma lease_ok_stable s s' id x :
  (hostname (l_info x), pid (l_info x)) ∈ alive s' -> (forall v, born s !! id = Some v -> born s' !! id = Some v) ->
  files s' !! id = files s !! id -> (is_Some (lease_dir s) -> is_Some (lease_dir s')) ->
  lease_ok s id x -> lease_ok s' id x.
Proof.
  intros Ha Hb Hf Hd (Hid & _ & Hborn & Hpos). split_and!; [done|done|by apply Hb|].
  rewrite Hf. destruct (l_position x); auto.
Qed.

Lemma read_traced s id out : consistent s -> Forall (traced s) out -> Forall (traced s) (read_lease s id out).
Proof.
  intros Hs Ho. unfold read_lease. destruct (files s !! id) as [[|i]|] eqn:E; try done.
  apply Forall_app. split; [done|]. apply Forall_singleton. by apply (files_ok s Hs id).
Qed.

Lemma admitted_file s id : consistent s -> admitted s id ->
  exists i, files s !! id = Some (Full i) /\ lease_id i = id /\ (hostname i, pid i) ∈ alive s /\ (0 < pid i)%Z.
Proof.
  intros Hs (x & Hx & Hp). destruct (leases_ok s Hs id x Hx) as (Hid & Hal & _ & Hf). rewrite Hp in Hf.
  exists (l_info x). split_and!; [done|done|done|]. by apply (pids s Hs) in Hal.
Qed.

(** The probe of a process that runs says so. *)
Lemma probe_alive s host i k : consistent s -> (hostname i, pid i) ∈ alive s -> answers (alive s) host (pid i) k = true ->
  is_live host i k = true.
Proof.
  intros Hs Hal Hk. unfold is_live. destruct (String.eqb_spec (hostname i) host) as [E|]; [|done]. cbn [negb].
  unfold answers in Hk. rewrite <- E, bool_decide_true in Hk by done. unfold pid_alive.
  destruct (Z.leb_spec (pid i) 0) as [Hle|]; [apply (pids s Hs) in Hal; lia|done].
Qed.

Lemma elem_of_glob s id : id ∈ glob s <-> is_Some (files s !! id).
Proof. unfold glob. rewrite elem_of_py_sorted, elem_of_elements. by rewrite elem_of_dom. Qed.

Section Steps.
Context (project_root : string).

Lemma lease_act_ok e s id x d x' :
  consistent s -> leases s !! id = Some x -> lease_act project_root e (lock s) (lease_dir s) x = Some (d, x') ->
  lease_ok (set_leases s d (<[id := x']> (leases s))) id x' /\
  (forall id', id' <> id -> default ∅ d !! id' = files s !! id') /\
  (forall i, default ∅ d !! id = Some (Full i) -> files s !! id = Some (Full i) \/ i = l_info x) /\
  (l_position x' = Inside -> lock s = Free) /\ (is_Some (lease_dir s) -> is_Some d).
Proof.
  intros Hs Hx Hact. pose proof (leases_ok s Hs id x Hx) as (Hid & Hal & Hborn & Hpos).
  assert (forall p r d', (match p with
    | Published | Withdrawing | Inside => default ∅ d' !! id = Some (Full (l_info x))
    | Unwritten => default ∅ d' !! id = Some Partial
    | Unnamed => is_Some d'
    | Idle | Unseen => True end) ->
    lease_ok (set_leases s d' (<[id := mkLease (l_info x) p r]> (leases s))) id (mkLease (l_info x) p r)) as Hok.
  { intros p r d' Hp. by split_and!. }
  unfold files in *. unfold lease_act in Hact. rewrite Hid in Hact.
  destruct e as [| |[]|[]| | |], (l_position x) eqn:Ep; try discriminate Hact; injection Hact as <- <-.
  all: try (destruct x; cbn in *; subst; by split_and!; eauto).
  all: destruct (lease_dir s) as [m|] eqn:Em; cbn in *.
  all: split_and!; first [apply Hok|idtac]; try destruct (is_dir (lock s)) eqn:El; cbn;
    rewrite ?lookup_insert_eq, ?lookup_delete_eq; eauto; try done; try (intros; by simplify_map_eq).
  all: try (by destruct Hpos).
  all: try (by destruct (lock s)).
  all: try (intros i [= ->]; by right).
Qed.

(** The scan keeps up with the admitted leases. *)
Lemma read_covers s id todo out : consistent s ->
  (forall i, admitted s i -> i ∈ id :: todo \/ i ∈ map lease_id out) ->
  forall i, admitted s i -> i ∈ todo \/ i ∈ map lease_id (read_lease s id out).
Proof.
  intros Hs Hc i Hi. destruct (admitted_file s i Hs Hi) as (inf & Hf & Hid & _). unfold read_lease.
  destruct (Hc i Hi) as [[->|Hin]%elem_of_cons|Hin]; [|by left|].
  - right. rewrite Hf, map_app, <- Hid. apply elem_of_app. right. by apply list_elem_of_singleton.
  - right. destruct (files s !! id) as [[|j]|]; try done. rewrite map_app. apply elem_of_app. by left.
Qed.

Lemma probe_covers s host i todo live k : consistent s -> traced s i -> answers (alive s) host (pid i) k = true ->
  (forall id, admitted s id -> id ∈ map lease_id (i :: todo) \/ live <> []) ->
  forall id, admitted s id -> id ∈ map lease_id todo \/ (if is_live host i k then live ++ [i] else live) <> [].
Proof.
  intros Hs Ht Hk Hc id Hid. destruct (Hc id Hid) as [[E|Hin]%elem_of_cons|Hl]; [|by left|].
  - right. destruct Hid as (x & Hx & Hp). destruct (leases_ok s Hs id x Hx) as (_ & Hal & Hborn & _).
    unfold traced in Ht. rewrite <- E, Hborn in Ht. injection Ht as Hh Hpid.
    rewrite (probe_alive s host i k Hs) by (rewrite <- ?Hh, <- ?Hpid; done || (by rewrite Hpid)). by destruct live.
  - right. destruct (is_live host i k); [by destruct live|done].
Qed.

Lemma maint_act_ok j e s y l y' :
  consistent s -> maints s !! j = Some y -> maint_act project_root j e s y = Some (l, y') ->
  agrees j l y' /\ covers s y' /\ Forall (traced s) (scanned y') /\
  (l <> lock s -> holds y = true \/ lock s = Free) /\ (holds y' = true -> holds y = true \/ lock s = Free).
Proof.
  intros Hs Hy Hact. pose proof (maints_agree s Hs j y Hy) as Hag. destruct (maints_cover s Hs j y Hy) as [Hc Ht].
  unfold maint_act in Hact. unfold agrees, covers, scanned, holds in *. destruct y as [h p got pos r]. cbn in *.
  destruct e, pos; try discriminate Hact; cbn in *.
  - injection Hact as <- <-. cbn. naive_solver.
  - destruct (lock s) as [|o]; injection Hact as <- <-; cbn; [|naive_solver].
    destruct got; [by specialize (Hag eq_refl)|]. naive_solver.
  - injection Hact as <- <-. cbn. split_and!; try naive_solver. intros id Hid. left. apply elem_of_glob.
    destruct (admitted_file s id Hs Hid) as (i & Hf & _). by eexists.
  - destruct todo as [|id todo]; injection Hact as <- <-; cbn; split_and!; try naive_solver.
    + intros id Hid. left. destruct (Hc id Hid) as [Hin|]; [by apply elem_of_nil in Hin|done].
    + by apply read_covers.
    + by apply read_traced.
  - destruct todo as [|i todo]; [|destruct (answers (alive s) h (pid i) k) eqn:Ek; [|done]].
    + injection Hact as <- <-. cbn. destruct (bool_decide_reflect (live = [])) as [->|]; cbn; split_and!; try naive_solver.
      intros id Hid. destruct (Hc id Hid) as [Hin|]; [by apply elem_of_nil in Hin|done].
    + injection Hact as <- <-. cbn. apply Forall_cons in Ht as [Hi Ht]. split_and!; try naive_solver. by eapply probe_covers.
  - destruct how; injection Hact as <- <-; cbn; destruct Hag as [-> Hl]; rewrite ?Hl; split_and!; naive_solver.
  - injection Hact as <- <-. cbn. destruct Hag as [-> [-> | ->]]; split_and!; naive_solver.
  - injection Hact as <- <-. cbn. destruct Hag as [-> ->]; split_and!; naive_solver.
  - destruct got; injection Hact as <- <-; cbn; naive_solver.
  - injection Hact as <- <-. cbn. destruct Hag as [-> ->]; split_and!; naive_solver.
  - destruct Hag as [-> Hl]. rewrite Hl in Hact. injection Hact as <- <-. cbn. split_and!; naive_solver.
Qed.

(** What a step of something else leaves as it is. *)
Record quiet (s s' : System) : Prop := {
  q_born : forall id v, born s !! id = Some v -> born s' !! id = Some v;
  q_fresh : forall id, is_Some (born s !! id) -> leases s !! id = None -> leases s' !! id = None;
}.

Lemma traced_born s i : traced s i -> is_Some (born s !! lease_id i).
Proof. intros H. by eexists. Qed.

Lemma prune_ok_quiet s s' z : quiet s s' -> prune_ok s z -> prune_ok s' z.
Proof.
  intros [Hb Hf] [Hl Hp]. split.
  - eapply Forall_impl; [exact Hl|]. intros i. by apply traced_mono.
  - destruct (p_position z); try done. destruct Hp as [Ht Hn]. split; [by eapply traced_mono|].
    apply Hf; [by apply traced_born|done].
Qed.

Lemma covers_quiet s s' y : quiet s s' -> (forall id, admitted s' id -> admitted s id) ->
  covers s y /\ Forall (traced s) (scanned y) -> covers s' y /\ Forall (traced s') (scanned y).
Proof.
  intros [Hb _] Ha [Hc Ht]. split; [by eapply covers_mono|]. eapply Forall_impl; [exact Ht|]. intros i. by apply traced_mono.
Qed.

Lemma files_ok_quiet s s' : quiet s s' -> (forall id i, files s' !! id = Some (Full i) -> files s !! id = Some (Full i)) ->
  consistent s -> forall id i, files s' !! id = Some (Full i) -> lease_id i = id /\ traced s' i.
Proof.
  intros [Hb _] Hf Hs id i Hi. destruct (files_ok s Hs id i (Hf id i Hi)) as [He Ht]. split; [done|].
  by eapply traced_mono.
Qed.

Lemma spawn_consistent h p s s' : fire project_root (Spawn h p) s = Some s' -> consistent s -> consistent s'.
Proof.
  cbn. intros H Hs. destruct (Z.ltb_spec 0 p) as [Hp|]; [|done]. injection H as <-. destruct Hs as [P L F A C O R].
  split; cbn; try done.
  - intros h' p' [[= -> ->]%elem_of_singleton|Hin]%elem_of_union; [done|by eapply P].
  - intros id x Hx. eapply lease_ok_stable; [..|by apply L]; try done. cbn. destruct (L id x Hx) as (_ & Hal & _). set_solver.
Qed.

Lemma die_consistent h p s s' : fire project_root (Die h p) s = Some s' -> consistent s -> consistent s'.
Proof.
  cbn. intros [= <-] Hs. pose proof Hs as [P L F A C O R]. set (s' := mkSystem _ _ _ _ _ _ _).
  assert (quiet s s') as Hq.
  { split; [done|]. intros id _ Hn. cbn. apply map_lookup_filter_None. by left. }
  split; cbn.
  - intros h' p' [Hin _]%elem_of_difference. by eapply P.
  - intros id x [Hx Hne]%map_lookup_filter_Some. eapply lease_ok_stable; [..|by apply L]; try done. cbn in *.
    destruct (L id x Hx) as (_ & Hal & _). set_solver.
  - exact (files_ok_quiet s s' Hq (fun _ _ E => E) Hs).
  - intros j y [Hy _]%map_lookup_filter_Some. by apply A.
  - intros j y [Hy _]%map_lookup_filter_Some. apply (covers_quiet s); [done| |by eapply C].
    intros id (x & [Hx _]%map_lookup_filter_Some & Hp). by exists x.
  - intros i j x y [Hx _]%map_lookup_filter_Some [Hy _]%map_lookup_filter_Some. by eapply O.
  - intros k z [Hz _]%map_lookup_filter_Some. eapply prune_ok_quiet; [done|by eapply R].
Qed.

Lemma new_lease_consistent i s s' : fire project_root (NewLease i) s = Some s' -> consistent s -> consistent s'.
Proof.
  cbn. intros H Hs. destruct (bool_decide_reflect ((hostname i, pid i) ∈ alive s)) as [Hal|]; [|done].
  destruct (bool_decide_reflect (born s !! lease_id i = None)) as [Hn|]; [|done]. injection H as <-.
  pose proof Hs as [P L F A C O R]. set (s' := mkSystem _ _ _ _ _ _ _).
  assert (forall id v, born s !! id = Some v -> id <> lease_id i) as Hne by (intros id v Hv ->; congruence).
  assert (quiet s s') as Hq.
  { split; cbn.
    - intros id v Hv. rewrite lookup_insert_ne; [done|]. by apply not_eq_sym, (Hne id v).
    - intros id [v Hv] Hl. rewrite lookup_insert_ne; [done|]. by apply not_eq_sym, (Hne id v). }
  split; cbn; try done.
  - intros id x Hx. destruct (decide (lease_id i = id)) as [E|Hi].
    + subst id. rewrite lookup_insert_eq in Hx. injection Hx as <-. unfold lease_ok. cbn. rewrite lookup_insert_eq. by split_and!.
    + rewrite lookup_insert_ne in Hx by done. eapply lease_ok_stable; [..|by apply L]; try done.
      * by destruct (L id x Hx) as (_ & ? & _).
      * by apply Hq.
  - exact (files_ok_quiet s s' Hq (fun _ _ E => E) Hs).
  - intros j y Hy. apply (covers_quiet s); [done| |by eapply C].
    intros id (x & Hx & Hp). cbn in Hx. apply lookup_insert_Some in Hx as [[_ <-]|[_ Hx]]; [done|by exists x].
  - intros k z Hz. eapply prune_ok_quiet; [done|by eapply R].
Qed.

Lemma new_maint_consistent j h p s s' : fire project_root (NewMaint j h p) s = Some s' -> consistent s -> consistent s'.
Proof.
  cbn. intros H Hs. destruct (_ && _); [|done]. injection H as <-. pose proof Hs as [P L F A C O R].
  split; cbn; try done.
  - intros i y [[-> <-]|[_ Hy]]%lookup_insert_Some; [done|by apply A].
  - intros i y [[-> <-]|[_ Hy]]%lookup_insert_Some; [by split; [|constructor]|]. apply (covers_quiet s); [by split|done|by eapply C].
  - intros i k x y [[-> <-]|[_ Hx]]%lookup_insert_Some [[-> <-]|[_ Hy]]%lookup_insert_Some; try done. by eapply O.
Qed.

Lemma start_prune_consistent k h p s s' : fire project_root (StartPrune k h p) s = Some s' -> consistent s -> consistent s'.
Proof.
  cbn. intros H Hs. destruct (_ && _); [|done]. injection H as <-. pose proof Hs as [P L F A C O R].
  split; cbn; try done.
  - intros i z [[-> <-]|[_ Hz]]%lookup_insert_Some; [|by eapply R]. by split; [constructor|].
Qed.

Lemma lease_step_consistent id e s s' : fire project_root (LeaseStep id e) s = Some s' -> consistent s -> consistent s'.
Proof.
  cbn. intros H Hs. destruct (leases s !! id) as [x|] eqn:Hx; [|done]. cbn in H.
  destruct (lease_act project_root e (lock s) (lease_dir s) x) as [[d x']|] eqn:Hact; [|done]. injection H as <-.
  destruct (lease_act_ok e s id x d x' Hs Hx Hact) as (Hok & Hother & Hown & Hadm & Hdir).
  pose proof Hs as [P L F A C O R]. fold (set_leases s d (<[id := x']> (leases s))) in *.
  set (s' := set_leases s d (<[id := x']> (leases s))) in *.
  assert (quiet s s') as Hq.
  { split; [done|]. intros i _ Hi. cbn. rewrite lookup_insert_ne; [done|]. intros ->. by rewrite Hx in Hi. }
  split; try done; cbn.
  - intros i y [[-> <-]|[Hne Hy]]%lookup_insert_Some; [done|]. eapply lease_ok_stable; [..|by apply L]; try done.
    + by destruct (L i y Hy) as (_ & ? & _).
    + apply Hother. done.
  - intros i inf Hi. destruct (decide (i = id)) as [->|Hne].
    + destruct (Hown inf Hi) as [Hf| ->]; [by apply F|]. destruct (L id x Hx) as (Hid & _ & Hb & _). split; [done|].
      unfold traced. by rewrite Hid.
    + apply F. by rewrite <- Hother.
  - intros j y Hy. destruct (holds y) eqn:Eh.
    + apply (covers_quiet s); [done| |by eapply C]. intros i (z & Hz & Hp). cbn in Hz.
      apply lookup_insert_Some in Hz as [[-> <-]|[_ Hz]]; [|by exists z]. apply Hadm in Hp.
      pose proof (A j y Hy) as Hag. rewrite Hp in Hag. by rewrite (maint_agrees_free j y Hag) in Eh.
    + split; [by apply covers_idle|]. apply (C j y Hy).
  - intros k z Hz. eapply prune_ok_quiet; [done|by eapply R].
Qed.

Lemma maint_step_consistent j e s s' : fire project_root (MaintStep j e) s = Some s' -> consistent s -> consistent s'.
Proof.
  cbn. intros H Hs. destruct (maints s !! j) as [y|] eqn:Hy; [|done]. cbn in H.
  destruct (maint_act project_root j e s y) as [[l y']|] eqn:Hact; [|done]. injection H as <-.
  destruct (maint_act_ok j e s y l y' Hs Hy Hact) as (Hag & Hc & Ht & Hl & Hh).
  pose proof Hs as [P L F A C O R].
  assert (forall k z, j <> k -> maints s !! k = Some z -> holds y = true \/ lock s = Free -> holds z = false) as Hother.
  { intros k z Hne Hz [Hy'|Hfree].
    - apply not_true_is_false. intros Hz'. by apply Hne, (O j k y z).
    - apply (maint_agrees_free k). rewrite <- Hfree. by apply A. }
  split; try done; cbn.
  - intros k z [[-> <-]|[Hne Hz]]%lookup_insert_Some; [done|].
    destruct (decide (l = lock s)) as [->|Hne']; [by apply A|]. eapply maint_agrees_idle; [|by apply A]. eapply Hother; eauto.
  - intros k z [[-> <-]|[Hne Hz]]%lookup_insert_Some; [done|by eapply C].
  - intros i k x z [[-> <-]|[Hi Hx]]%lookup_insert_Some [[-> <-]|[Hk Hz]]%lookup_insert_Some Hhx Hhz; try done.
    + rewrite (Hother k z Hk Hz) in Hhz; [done|by apply Hh].
    + rewrite (Hother i x Hi Hx) in Hhx; [done|by apply Hh].
    + by eapply O.
Qed.

(** A lease that is judged stale is of no process that runs. *)
Lemma stale_gone s host i k : consistent s -> traced s i -> answers (alive s) host (pid i) k = true ->
  (String.eqb (hostname i) host && negb (pid_alive (pid i) k))%bool = true -> leases s !! lease_id i = None.
Proof.
  intros Hs Ht Hk [Hhost Hdead]%andb_prop. destruct (leases s !! lease_id i) as [x|] eqn:Hx; [|done]. exfalso.
  destruct (leases_ok s Hs _ x Hx) as (_ & Hal & Hborn & _). unfold traced in Ht. rewrite Hborn in Ht.
  assert ((hostname i, pid i) ∈ alive s) as Hal' by (by injection Ht as <- <-).
  pose proof (probe_alive s host i k Hs Hal' Hk) as Hlive. unfold is_live in Hlive. rewrite Hhost in Hlive.
  cbn in Hlive. by rewrite Hlive in Hdead.
Qed.

Lemma prune_act_ok k s z d z' :
  consistent s -> prune_ok s z -> prune_act k s z = Some (d, z') ->
  (is_Some (lease_dir s) -> is_Some d) /\
  (forall id, default ∅ d !! id = files s !! id \/ (default ∅ d !! id = None /\ leases s !! id = None)) /\
  (forall z1, z' = Some z1 -> prune_ok s z1).
Proof.
  intros Hs [Hl Hp] Hact. unfold prune_act in Hact. destruct z as [h p pos]. unfold listed in Hl. cbn in *. destruct pos as [todo out|todo rem|i todo rem].
  - destruct todo as [|id todo]; injection Hact as <- <-; split_and!; try (by left); try done; intros z1 [= <-]; split; try done.
    by apply read_traced.
  - destruct todo as [|i todo]; [by injection Hact as <- <-; split_and!; [|left|]|].
    destruct (answers (alive s) h (pid i) k) eqn:Ek; [|done]. injection Hact as <- <-.
    apply Forall_cons in Hl as [Hi Hl]. split_and!; [done|by left|]. intros z1 [= <-].
    destruct (_ && _)%bool eqn:E; [|by split]. split; [done|]. split; [done|]. by eapply stale_gone.
  - injection Hact as <- <-. destruct Hp as [Ht Hn]. unfold files. destruct (lease_dir s) as [m|]; cbn.
    + split_and!; [by eexists| |intros z1 [= <-]; by split]. intros id. destruct (decide (lease_id i = id)) as [<-|Hne].
      * right. by rewrite lookup_delete_eq.
      * left. by rewrite lookup_delete_ne.
    + split_and!; [done|by left|intros z1 [= <-]; by split].
Qed.

Lemma prune_step_consistent k answer s s' : fire project_root (PruneStep k answer) s = Some s' -> consistent s -> consistent s'.
Proof.
  cbn. intros H Hs. destruct (pruners s !! k) as [z|] eqn:Hz; [|done]. cbn in H.
  destruct (prune_act answer s z) as [[d z']|] eqn:Hact; [|done]. injection H as <-.
  destruct (prune_act_ok answer s z d z' Hs (prunes_ok s Hs k z Hz) Hact) as (Hd & Hf & Hz').
  pose proof Hs as [P L F A C O R]. set (s' := mkSystem _ _ _ _ _ _ _).
  split; try done; cbn.
  - intros id x Hx. eapply lease_ok_stable; [..|by apply L]; try done.
    + by destruct (L id x Hx) as (_ & ? & _).
    + destruct (Hf id) as [Hn|[_ Hn]]; [done|congruence].
  - intros id i Hi. apply F. destruct (Hf id) as [E|[E _]]; [by rewrite <- E|]. unfold files in Hi. cbn in Hi. by rewrite E in Hi.
  - intros i y Hy. destruct z' as [z'|].
    + apply lookup_insert_Some in Hy as [[-> <-]|[_ Hy]]; [exact (Hz' _ eq_refl)|by eapply R].
    + apply lookup_delete_Some in Hy as [_ Hy]. by eapply R.
Qed.

Lemma activity_consistent e s s' : fire project_root e s = Some s' -> consistent s -> consistent s'.
Proof.
  destruct e; [apply spawn_consistent|apply die_consistent|apply new_lease_consistent|apply new_maint_consistent
    |apply start_prune_consistent|apply lease_step_consistent|apply maint_step_consistent|apply prune_step_consistent].
Qed.

Lemma reachable_consistent s : rtc (step project_root) init s -> consistent s.
Proof.
  intros Hs. assert (consistent init) as Hi by (split; by intros).
  revert Hi. induction Hs as [|s0 s1 s2 (e & Hf) Hs IH]; [done|]. intros H0. by eapply IH, activity_consistent.
Qed.
End Steps.

(** ** Theorems *)

Lemma blocker_none l name n : namespaces_blocker l = None -> (name, n) ∈ l ->
  n = Namespace false NoLeases \/ n = Namespace false (LeasesDir []).
Proof.
  induction l as [|[a b] l IH]; [by intros _ H%elem_of_nil|].
  intros H [[= -> ->]|Hin]%elem_of_cons; cbn in H.
  - destruct b as [| |[] [| | |[]]]; try done; first [by left|by right].
  - apply IH; [|done]. by destruct b as [| |[] [| | |[]]].
Qed.


(** ** Nobody is kept out of an idle tree *)

Section Progress.
Context (project_root : string).

(** [s] with the lease directory [d], and [x] for the lease [id]. *)
Definition put_lease (s : System) (id : string) d (x : Lease) : System := set_leases s d (<[id := x]> (leases s)).

Lemma lease_alone s id e d x d' x' :
  lock s = Free -> lease_act project_root e Free d x = Some (d', x') ->
  step project_root (put_lease s id d x) (put_lease s id d' x').
Proof.
  intros Hl Hact. exists (LeaseStep id e). unfold put_lease, set_leases. cbn -[lease_act]. rewrite lookup_insert_eq.
  cbn -[lease_act]. rewrite Hl, Hact. cbn. by rewrite insert_insert_eq.
Qed.

(** [s] with the lock [l], and [y] for the maintenance lock [j]. *)
Definition put (s : System) (j : nat) (l : lock_dir) (y : MaintenanceLock) : System :=
  mkSystem l (lease_dir s) (leases s) (<[j := y]> (maints s)) (pruners s) (alive s) (born s).

Lemma maint_alone s j e l y l' y' :
  maint_act project_root j e (put s j l y) y = Some (l', y') -> step project_root (put s j l y) (put s j l' y').
Proof.
  intros Hact. exists (MaintStep j e). unfold fire. cbn [maints put]. rewrite lookup_insert_eq. cbn [mbind option_bind].
  rewrite Hact. cbn. unfold put. by rewrite insert_insert_eq.
Qed.

(** Every lease that can be read is of a dead process of this host. *)
Definition stale_only (s : System) (h : string) (l : list LeaseInfo) : Prop :=
  Forall (fun i => hostname i = h /\ (hostname i, pid i) ∉ alive s) l.

Lemma probe_alone s j h p l todo : stale_only s h todo ->
  rtc (step project_root) (put s j l (mkMaint h p false (Probing todo []) None)) (put s j l (mkMaint h p false Clear None)).
Proof.
  induction 1 as [|i todo [Hh Hdead] _ IH].
  - apply rtc_once. by apply (maint_alone s j (Probe NoProcess)).
  - eapply rtc_l; [|exact IH]. apply (maint_alone s j (Probe NoProcess)). cbn. rewrite <- Hh.
    unfold answers. rewrite bool_decide_false by done. unfold is_live. rewrite String.eqb_refl. cbn.
    unfold pid_alive. by destruct (pid i <=? 0)%Z.
Qed.

Lemma read_alone s j h p l todo out :
  (forall id i, files s !! id = Some (Full i) -> hostname i = h /\ (hostname i, pid i) ∉ alive s) -> stale_only s h out ->
  rtc (step project_root) (put s j l (mkMaint h p false (Reading todo out) None)) (put s j l (mkMaint h p false Clear None)).
Proof.
  intros Hf. revert out. induction todo as [|id todo IH]; intros out Ho.
  - eapply rtc_l; [|by apply probe_alone]. by apply (maint_alone s j ReadNext).
  - eapply rtc_l; [by apply (maint_alone s j ReadNext)|]. apply IH. unfold read_lease, files. cbn.
    destruct (default ∅ (lease_dir s) !! id) as [[|i]|] eqn:E; try done. apply Forall_app. split; [done|].
    apply Forall_singleton. by apply (Hf id).
Qed.

(** Nobody is kept out of an idle tree: whatever happened before, when the
    maintenance directory is not there, a lease that is entered and left alone
    is admitted; and a maintenance lock is acquired unless a lease may still be
    live, that is, when every lease file that can be read is of a process of
    this host that has ended: partly written files and stale leases are no
    obstacle. *)
Theorem tree_activity_admits s :
  rtc (step project_root) init s -> lock s = Free ->
  (forall id x, leases s !! id = Some x -> l_position x = Idle ->
     exists s', rtc (step project_root) s s' /\ admitted s' id) /\
  (forall j y, maints s !! j = Some y -> m_position y = Resting ->
     (forall id i, files s !! id = Some (Full i) -> hostname i = m_host y /\ (hostname i, pid i) ∉ alive s) ->
     exists s' y', rtc (step project_root) s s' /\ maints s' !! j = Some y' /\ m_acquired y' = true).
Proof.
  intros Hr Hlock. pose proof (reachable_consistent project_root s Hr) as Hs. split.
  - intros id x Hx Hp. destruct (leases_ok s Hs id x Hx) as (Hid & _). destruct x as [i pos r]. cbn in Hp, Hid. subst pos.
    set (at_ p := mkLease i p None). set (m := default ∅ (lease_dir s)).
    exists (put_lease s id (Some (<[id := Full i]> (<[id := Partial]> m))) (at_ Inside)).
    split; [|exists (at_ Inside); cbn; by rewrite lookup_insert_eq].
    assert (s = put_lease s id (lease_dir s) (mkLease i Idle r)) as E0.
    { unfold put_lease, set_leases. rewrite insert_id by done. by destruct s. }
    rewrite E0 at 1. rewrite <- Hid.
    eapply rtc_l; [by apply (lease_alone s _ Enter)|]. eapply rtc_l; [by apply (lease_alone s _ MakeDir)|].
    eapply rtc_l; [by apply (lease_alone s _ (Touch true))|]. eapply rtc_l; [by apply (lease_alone s _ (Fill true))|].
    apply rtc_once. by apply (lease_alone s _ Recheck).
  - intros j y Hy Hp Hf. pose proof (maints_agree s Hs j y Hy) as Hag. unfold agrees in Hag. rewrite Hp, Hlock in Hag.
    destruct y as [h p got pos r]. cbn in *. subst pos. destruct got; [by specialize (Hag eq_refl)|].
    exists (put s j (Claimed (Some j)) (mkMaint h p true Resting None)), (mkMaint h p true Resting None).
    split; [|by cbn; rewrite lookup_insert_eq].
    assert (s = put s j Free (mkMaint h p false Resting r)) as E0.
    { unfold put. rewrite insert_id by done. rewrite <- Hlock. by destruct s. }
    rewrite E0 at 1. eapply rtc_l; [by apply (maint_alone s j Acquire)|].
    eapply rtc_l; [by apply (maint_alone s j MkLock)|]. eapply rtc_l; [by apply (maint_alone s j Glob)|].
    eapply rtc_r; [apply read_alone; [exact Hf|constructor]|]. by apply (maint_alone s j (WriteOwner Written)).
Qed.
End Progress.

(** ** Witnesses *)

Fixpoint run (l : list event) (s : System) : option System :=
  match l with
  | [] => Some s
  | e :: l' => s' ← fire "/repo" e s; run l' s'
  end.

Lemma activity_run l s s' : run l s = Some s' -> rtc (step "/repo") s s'.
Proof.
  revert s. induction l as [|e l IH]; intros s H; [injection H as <-; apply rtc_refl|].
  cbn [run] in H. destruct (fire "/repo" e s) as [s1|] eqn:E; [|done].
  eapply rtc_l; [by exists e|]. by apply IH.
Qed.

Definition reached (l : list event) : System := default init (run l init).

Definition demo_a : LeaseInfo := mkLeaseInfo "a" 10 "lab" "bench" "r1".
Definition demo_b : LeaseInfo := mkLeaseInfo "b" 11 "lab" "tune" "r2".

(** Runner a is admitted, so maintenance is refused; then the process of a ends
    without leaving. *)
Definition demo_refused : list event :=
  [Spawn "lab" 10; Spawn "lab" 11; Spawn "lab" 20; NewLease demo_a; NewLease demo_b; NewMaint 0 "lab" 20]
  ++ map (LeaseStep "a") [Enter; MakeDir; Touch true; Fill true; Recheck]
  ++ map (MaintStep 0) [Acquire; MkLock; Glob; ReadNext; ReadNext; Probe Delivered; Probe Delivered; UndoUnlink; UndoRmdir]
  ++ [Die "lab" 10].

(** Maintenance begins between the two looks of runner b, and is acquired. *)
Definition demo_race : list event :=
  demo_refused
  ++ map (LeaseStep "b") [Enter; MakeDir; Touch true; Fill true]
  ++ map (MaintStep 0) [Acquire; MkLock]
  ++ map (LeaseStep "b") [Recheck; Withdraw]
  ++ map (MaintStep 0) [Glob; ReadNext; ReadNext; Probe NoProcess; Probe NoProcess; WriteOwner Written].

Definition demo_maint : MaintenanceLock := mkMaint "lab" 20 true Resting None.

Example demo_maintenance_refused :
  m_raised <$> maints (reached demo_refused) !! 0 = Some (Some (live_error "/repo" [demo_a])) /\
  lock (reached demo_refused) = Free /\ files (reached demo_refused) = {[ "a" := Full demo_a ]}.
Proof. by vm_compute. Qed.


Lemma tree_activity_admits_witness :
  (exists s', rtc (step "/repo") (reached demo_refused) s' /\ admitted s' "b") /\
  (exists s' y', rtc (step "/repo") (reached demo_refused) s' /\ maints s' !! 0 = Some y' /\ m_acquired y' = true).
Proof.
  assert (rtc (step "/repo") init (reached demo_refused)) as Hr by (apply (activity_run demo_refused); vm_compute; reflexivity).
  destruct (tree_activity_admits "/repo" (reached demo_refused) Hr) as [Hl Hm]; [vm_compute; reflexivity|]. split.
  - apply (Hl "b" (mkLease demo_b Idle None)); vm_compute; reflexivity.
  - apply (Hm 0 (mkMaint "lab" 20 false Resting (Some (live_error "/repo" [demo_a])))); [vm_compute; reflexivity..|].
    assert (files (reached demo_refused) = {[ "a" := Full demo_a ]}) as -> by (vm_compute; reflexivity).
    intros id i [_ [= <-]]%lookup_singleton_Some. split; [reflexivity|].
    assert (bool_decide (("lab", 10%Z) ∈ alive (reached demo_refused)) = false) as Hb by (vm_compute; reflexivity).
    by apply bool_decide_eq_false in Hb.
Defined.

(** A runner that dies while it writes its lease leaves a file that is no lease:
    it hinders neither side and is never pruned, but every cleanup is refused
    from then on. *)
Example torn_lease_blocks_cleanup :
  let s := reached ([Spawn "lab" 10; Spawn "lab" 20; NewLease demo_a]
             ++ map (LeaseStep "a") [Enter; MakeDir; Touch true] ++ [Die "lab" 10; StartPrune 0 "lab" 20]
             ++ [PruneStep 0 NoProcess; PruneStep 0 NoProcess; PruneStep 0 NoProcess]) in
  files s = {[ "a" := Partial ]} /\ pruners s = ∅ /\
  cleanup_activity_blocker (ActivityDir [("k", Namespace (is_dir (lock s)) (LeasesDir ["a.json"]))])
  = Some "runner lease or unclassified entry exists: k/a.json".
Proof. by vm_compute. Qed.

End Activity.
