(* ===== verification/Manifest.v ===== *)
(** Run manifests: [src/tools/bigcherry/core/run_manifest.py].

    The state is one run directory: its manifest file and the lock file beside
    it.  Every write is one step that the process may die in front of;
    [budget] says how many steps are left, so that a statement for every budget
    is one about every point of a crash.  A manifest is the value its text
    decodes to.  The last part is about the history of a manifest: any sequence
    of updates by processes that may die. *)

From S2P Require Import Prelude Json Clock.
From Stdlib Require Import SpecFloat.
Import Json Clock.

Module Manifest.

Notation obj := (list (string * json)).

Definition ManifestError (msg : string) : exn := Exn "ManifestError" msg.

(** The process dies: what no handler of an exception sees. *)
Definition Killed : exn := Exn "Killed" "".

Definition SCHEMA_VERSION : Z := 1.

Definition RUN_KINDS : list string :=
  ["ab"; "accept"; "stream"; "replay"; "capture"; "kl"; "profile"; "build"; "bump"; "release"].
Definition RUN_STATES : list string :=
  ["created"; "running"; "completed"; "failed"; "cancelled"; "interrupted"].
Definition TERMINAL_STATES : list string := ["completed"; "failed"; "cancelled"].
Definition HARVEST_STATES : list string := ["pending"; "harvesting"; "verified"; "failed"].
Definition RETENTION_STATES : list string := ["active"; "eligible"; "quarantined"; "purged"].

Definition run_transitions : list (string * list string) :=
  [("created", ["running"; "failed"; "cancelled"]);
   ("running", ["completed"; "failed"; "cancelled"; "interrupted"]);
   ("interrupted", ["failed"; "cancelled"]);
   ("completed", []); ("failed", []); ("cancelled", [])].

Definition harvest_transitions : list (string * list string) :=
  [("pending", ["harvesting"]); ("harvesting", ["verified"; "failed"]);
   ("failed", ["harvesting"]); ("verified", [])].

Definition required_keys : list string :=
  ["schema_version"; "run_id"; "kind"; "purpose"; "plan"; "engine"; "created_at"; "execution"; "owner";
   "inputs"; "references"; "state"; "generation"; "harvest"; "retention"].

(** ** Reading a decoded manifest *)

(** [value[key]] of a value that should be an object. *)
Definition sub (v : json) (k : string) : res json :=
  match v with
  | JObj o => item o k
  | v => Err (TypeError ("'" +:+ type_name v +:+ "' object is not subscriptable"))
  end.

(** [value.get(key)], [None] as null. *)
Definition dot_get (v : json) (k : string) : res json :=
  match v with JObj o => Ok (get_or o k JNull) | v => Err (no_get v) end.

(** [value in {...}] for a set of strings: a list or an object has no hash. *)
Definition in_set (v : json) (l : list string) : res bool :=
  match v with
  | JStr s => Ok (str_in s l)
  | JArr _ | JObj _ => Err (TypeError ("unhashable type: '" +:+ type_name v +:+ "'"))
  | _ => Ok false
  end.

(** [value in (...)] for a tuple of strings. *)
Definition in_tuple (v : json) (l : list string) : bool :=
  match v with JStr s => str_in s l | _ => false end.

Definition check_reference (ref : json) : res unit :=
  let bad := ManifestError ("malformed reference " +:+ jrepr ref) in
  match ref with
  | JObj o =>
      known ← in_set (get_or o "type" JNull) ["run"; "build"; "source"; "object"];
      ensure (known && jtruthy (get_or o "id" JNull)) bad
  | _ => Err bad
  end.

Definition positive (v : json) : bool :=
  match v with JInt z => (1 <=? z)%Z | JBool b => b | _ => false end.

Definition validate_manifest (m : json) : res obj :=
  match m with
  | JObj o =>
      _ ← ensure (is_int (jget o "schema_version") SCHEMA_VERSION)
            (ManifestError ("manifest schema version " +:+ jrepr (get_or o "schema_version" JNull)
               +:+ ", this reader takes " +:+ show_Z SCHEMA_VERSION));
      _ ← mapR (fun key => ensure (has_key o key) (ManifestError ("manifest lacks " +:+ key))) required_keys;
      kind ← item o "kind";
      known ← in_set kind RUN_KINDS;
      _ ← ensure known (ManifestError ("unknown run kind " +:+ jrepr kind));
      state ← item o "state";
      _ ← ensure (in_tuple state RUN_STATES) (ManifestError ("unknown run state " +:+ jrepr state));
      harvest ← item o "harvest";
      hstate ← dot_get harvest "state";
      _ ← ensure (in_tuple hstate HARVEST_STATES)
            (ManifestError ("unknown harvest state " +:+ jrepr hstate));
      retention ← item o "retention";
      rstate ← dot_get retention "state";
      _ ← ensure (in_tuple rstate RETENTION_STATES)
            (ManifestError ("unknown retention state " +:+ jrepr rstate));
      generation ← item o "generation";
      _ ← ensure (positive generation) (ManifestError "generation must be a positive integer");
      references ← item o "references";
      refs ← json_iter references;
      _ ← mapR check_reference refs;
      Ok o
  | _ => Err (ManifestError "manifest is not an object")
  end.

Definition new_manifest (run_id kind purpose : string) (plan_item : option string) (engine : string)
    (argv : list string) (owner : obj) (inputs references : list json) (git_commit : option string)
    (git_dirty : option bool) (host : obj) (subkind : option string) (now : float) : res obj :=
  if negb (str_in kind RUN_KINDS) then
    Err (ManifestError ("unknown run kind " +:+ py_repr kind +:+ "; kinds are "
           +:+ py_repr_list (sorted_set RUN_KINDS)))
  else Ok [("schema_version", JInt SCHEMA_VERSION); ("run_id", JStr run_id); ("kind", JStr kind);
    ("subkind", jopt JStr subkind); ("purpose", JStr purpose); ("plan", JObj [("item", jopt JStr plan_item)]);
    ("engine", JStr engine); ("created_at", JStr (utc_stamp now)); ("started_at", JNull);
    ("ended_at", JNull);
    ("execution", JObj [("argv", jstrs argv); ("git_commit", jopt JStr git_commit);
                        ("git_dirty", jopt JBool git_dirty);
                        ("exit_code", JNull)]);
    ("host", JObj host); ("owner", JObj owner); ("inputs", JArr inputs); ("references", JArr references);
    ("state", JStr "created"); ("generation", JInt 1); ("size_bytes", JNull);
    ("harvest", JObj [("state", JStr "pending"); ("recipe", JNull); ("bundle_id", JNull);
                      ("verified_at", JNull)]);
    ("retention", JObj [("state", JStr "active"); ("class", JStr "standard"); ("retain_until", JNull);
                        ("hold", JBool false)]);
    ("provenance", JStr "recorded")].

(** ** Updates *)

(** [state not in transitions.get(current, set())] is an error. *)
Definition allowed (table : list (string * list string)) (current next : string) : bool :=
  str_in next (get_or table current []).

Definition with_state (m : obj) (state : option string) (now : float) : res obj :=
  match state with
  | None => Ok m
  | Some state =>
      current ← item m "state";
      if is_str (Some current) state then Ok m
      else
        _ ← ensure (allowed run_transitions (jstr current) state)
              (ManifestError ("illegal run transition " +:+ jstr current +:+ " -> " +:+ state));
        let m := dict_set m "state" (JStr state) in
        m ← (if String.eqb state "running" then
               started ← item m "started_at";
               Ok (if jtruthy started then m else dict_set m "started_at" (JStr (utc_stamp now)))
             else Ok m);
        Ok (if str_in state TERMINAL_STATES || String.eqb state "interrupted"
            then dict_set m "ended_at" (JStr (utc_stamp now)) else m)
  end.

Definition with_harvest (m : obj) (harvest_state : option string) (now : float) : res obj :=
  match harvest_state with
  | None => Ok m
  | Some hs =>
      harvest ← item m "harvest";
      current ← sub harvest "state";
      if is_str (Some current) hs then Ok m
      else
        _ ← ensure (allowed harvest_transitions (jstr current) hs)
              (ManifestError ("illegal harvest transition " +:+ jstr current +:+ " -> " +:+ hs));
        let h := match harvest with JObj h => h | _ => [] end in
        let h := dict_set h "state" (JStr hs) in
        let h := if String.eqb hs "verified" then dict_set h "verified_at" (JStr (utc_stamp now)) else h in
        Ok (dict_set m "harvest" (JObj h))
  end.

Definition fixed_keys : list string :=
  ["schema_version"; "run_id"; "kind"; "generation"; "state"; "created_at"].

Definition patch_one (m : obj) (kv : string * json) : res obj :=
  let '(key, value) := kv in
  if str_in key fixed_keys then Err (ManifestError (key +:+ " cannot be patched"))
  else
    match value, jget m key with
    | JObj changes, Some (JObj old) => Ok (dict_set m key (JObj (dict_update old changes)))
    | _, _ => Ok (dict_set m key value)
    end.

Definition next_generation (v : json) : json :=
  match v with JInt z => JInt (z + 1) | JBool b => JInt (num_of_bool b + 1) | v => v end.

(** The part of [update_manifest] between reading the file and writing it. *)
Definition updated (m : obj) (expected_generation : Z) (state harvest_state : option string) (patch : obj)
    (now : float) : res obj :=
  generation ← item m "generation";
  _ ← ensure (is_int (Some generation) expected_generation)
        (ManifestError ("stale update: manifest is at generation " +:+ jrepr generation
           +:+ ", caller read " +:+ show_Z expected_generation));
  m ← with_state m state now;
  m ← with_harvest m harvest_state now;
  m ← foldR patch_one patch m;
  Ok (dict_set m "generation" (next_generation generation)).

(** ** The run directory *)

Inductive manifest_file : Type :=
| Missing
| Unreadable (error : string)
| Readable (v : json).

Record Dir : Type := mkDir {
  manifest : manifest_file;
  manifest_lock : bool;           (**r the lock file exists *)
  budget : option nat;            (**r writes left before the process dies, if it does *)
  alive : bool;                   (**r the process has not died *)
}.

Definition set_manifest (f : manifest_file) (d : Dir) : Dir := mkDir f (manifest_lock d) (budget d) (alive d).
Definition set_lock (b : bool) (d : Dir) : Dir := mkDir (manifest d) b (budget d) (alive d).

(** A write is about to be made: the process dies here, or goes on. *)
Definition spend : stm Dir unit := fun d =>
  match budget d with
  | Some 0 => (Err Killed, mkDir (manifest d) (manifest_lock d) (budget d) false)
  | b => (Ok tt, mkDir (manifest d) (manifest_lock d) (pred <$> b) (alive d))
  end.

Definition persist (f : Dir -> Dir) : stm Dir unit := _ ← spend; modify f.

(** [try: body finally: cleanup]; a process that died runs no clean-up. *)
Definition finally {S A} (living : S -> bool) (body : stm S A) (cleanup : stm S unit) : stm S A :=
  fun s =>
    let '(r, s1) := body s in
    if living s1 then
      match cleanup s1 with (Ok _, s2) => (r, s2) | (Err e, s2) => (Err e, s2) end
    else (r, s1).

Definition read_file (path : string) (f : manifest_file) : res obj :=
  match f with
  | Missing => Err (ManifestError (path +:+ " does not exist"))
  | Unreadable e => Err (ManifestError (path +:+ " is unreadable: " +:+ e))
  | Readable v => validate_manifest v
  end.

Section Files.
(** The path of the run directory, for messages. *)
Context (run_dir : string).

Definition manifest_path : string := run_dir +:+ "/run.manifest.json".

Definition read_manifest : stm Dir obj := d ← get; lift (read_file manifest_path (manifest d)).

Definition write_manifest (m : obj) : stm Dir unit :=
  _ ← lift (validate_manifest (JObj m));
  persist (set_manifest (Readable (JObj m))).

(** The lock that another writer left makes the wait run out. *)
Definition locked {A} (body : stm Dir A) : stm Dir A :=
  d ← get;
  if manifest_lock d then
    raise (ManifestError (manifest_path +:+ ".lock is held; another writer is updating this run"))
  else
    _ ← persist (set_lock true);
    finally alive body (persist (set_lock false)).

Definition update_manifest (expected_generation : Z) (state harvest_state : option string) (patch : obj)
    (now : float) : stm Dir obj :=
  locked (
    m ← read_manifest;
    m ← lift (updated m expected_generation state harvest_state patch now);
    _ ← write_manifest m;
    mret m).
End Files.

(** ** The history of a manifest *)

(** One update by one process: with any arguments, dying at any write; or the
    lock that a dead process left being removed. *)
Inductive mstep (run_dir : string) (d : Dir) : Dir -> Prop :=
| mstep_update b expected state harvest_state patch now :
    mstep run_dir d (update_manifest run_dir expected state harvest_state patch now
                       (mkDir (manifest d) (manifest_lock d) b true)).2
| mstep_unlock : mstep run_dir d (set_lock false d).

Definition generation_number (m : obj) : Z :=
  match jget m "generation" with
  | Some (JInt z) => z
  | Some (JBool b) => num_of_bool b
  | _ => 0
  end.

Definition run_state (m : obj) : string := jstr (get_or m "state" JNull).

(** What an update does to a manifest: the fields that identify the run stay,
    its state follows the table, the generation goes up by one. *)
Record advances (m m' : obj) : Prop := {
  adv_identity : forall k, k ∈ ["schema_version"; "run_id"; "kind"; "created_at"] -> jget m' k = jget m k;
  adv_state : run_state m' = run_state m \/ allowed run_transitions (run_state m) (run_state m') = true;
  adv_generation : generation_number m' = (generation_number m + 1)%Z;
}.

Lemma jget_set_ne (m : obj) k v k' : k' <> k -> jget (dict_set m k v) k' = jget m k'.
Proof. intros H. rewrite jget_dict_set. by rewrite (proj2 (String.eqb_neq _ _) H). Qed.

Lemma jget_set_eq (m : obj) k v : jget (dict_set m k v) k = Some v.
Proof. by rewrite jget_dict_set, String.eqb_refl. Qed.

Lemma patch_fixed patch m m' :
  foldR patch_one patch m = Ok m' -> forall k, str_in k fixed_keys = true -> jget m' k = jget m k.
Proof.
  intros H k Hk. revert H.
  apply (foldR_ind (fun x => jget x k = jget m k) patch_one patch); [done|].
  intros x [key value] x' _ Hx Hp. unfold patch_one in Hp.
  destruct (str_in key fixed_keys) eqn:Hkey; [done|].
  assert (k <> key) as Hne by congruence.
  destruct value, (jget x key) as [[]|]; injection Hp as <-; by rewrite jget_set_ne.
Qed.

Lemma with_harvest_others m hs now m' k :
  with_harvest m hs now = Ok m' -> k <> "harvest" -> jget m' k = jget m k.
Proof.
  unfold with_harvest. destruct hs as [hs|]; [|by intros [= <-]].
  intros (h & _ & H)%bind_Ok Hk. apply bind_Ok in H as (c & _ & H).
  destruct (is_str _ _); [by injection H as <-|]. apply bind_Ok in H as (u & _ & H). injection H as <-.
  by apply jget_set_ne.
Qed.

Lemma with_state_spec m state now m' :
  with_state m state now = Ok m' ->
  (forall k, ~ k ∈ ["state"; "started_at"; "ended_at"] -> jget m' k = jget m k) /\
  (run_state m' = run_state m \/ allowed run_transitions (run_state m) (run_state m') = true).
Proof.
  unfold with_state. destruct state as [state|]; [|by intros [= <-]; auto].
  intros (current & Hc & H)%bind_Ok. unfold item in Hc. apply of_option_Ok in Hc.
  destruct (is_str (Some current) state) eqn:Hs; [injection H as <-; by auto|].
  apply bind_Ok in H as (u & Ha & H). apply ensure_Ok in Ha.
  apply bind_Ok in H as (m1 & H1 & H).
  assert (forall k, k <> "started_at" -> jget m1 k = jget (dict_set m "state" (JStr state)) k) as Hm1.
  { intros k Hk. destruct (String.eqb state "running"); [|by injection H1 as <-].
    apply bind_Ok in H1 as (st & _ & H1). destruct (jtruthy st); injection H1 as <-; [done|by apply jget_set_ne]. }
  assert (forall k, k <> "ended_at" -> jget m' k = jget m1 k) as Hm'.
  { intros k Hk. destruct (_ || _); injection H as <-; [by apply jget_set_ne|done]. }
  split.
  - intros k Hk. rewrite Hm', Hm1, jget_set_ne; [done|set_solver..].
  - right. unfold run_state, get_or. rewrite Hc, Hm', Hm1, jget_set_eq by done. done.
Qed.

Lemma updated_advances m expected state hs patch now m' :
  updated m expected state hs patch now = Ok m' -> positive (get_or m "generation" JNull) = true -> advances m m'.
Proof.
  intros H Hpos. unfold updated in H. apply bind_Ok in H as (g & Hg & H). apply bind_Ok in H as (u & _ & H).
  apply bind_Ok in H as (m1 & H1 & H). apply bind_Ok in H as (m2 & H2 & H). apply bind_Ok in H as (m3 & H3 & H).
  injection H as <-. unfold item in Hg. apply of_option_Ok in Hg.
  destruct (with_state_spec _ _ _ _ H1) as [Hk1 Hs].
  assert (forall k, str_in k fixed_keys = true -> k <> "generation" ->
    jget (dict_set m3 "generation" (next_generation g)) k = jget m1 k) as Hk.
  { intros k Hk Hne. rewrite jget_set_ne by done. rewrite (patch_fixed _ _ _ H3 k Hk).
    apply (with_harvest_others _ _ _ _ _ H2). intros ->. by vm_compute in Hk. }
  split.
  - intros k Hin. assert (str_in k fixed_keys = true /\ k <> "generation" /\ ~ k ∈ ["state"; "started_at"; "ended_at"])
      as (Hf & Hn & Ho) by (repeat (apply elem_of_cons in Hin as [->|Hin]; [split_and!; [reflexivity|done|set_solver]|]); by apply elem_of_nil in Hin).
    rewrite Hk by done. by apply Hk1.
  - unfold run_state, get_or in *. by rewrite Hk.
  - unfold generation_number. rewrite jget_set_eq, Hg. unfold get_or in Hpos. rewrite Hg in Hpos.
    by destruct g as [|[]| | | | |].
Qed.

Lemma validate_positive m o : validate_manifest m = Ok o ->
  m = JObj o /\ positive (get_or o "generation" JNull) = true.
Proof.
  intros H. destruct m as [| | | | | |o']; try done. cbn [validate_manifest] in H.
  repeat (let x := fresh "x" in let E := fresh "E" in apply bind_Ok in H as (x & E & H)).
  injection H as ->. split; [done|]. unfold item in E12. apply of_option_Ok in E12. apply ensure_Ok in E13.
  unfold get_or. by rewrite E12.
Qed.

Lemma spend_manifest d r d' : spend d = (r, d') -> manifest d' = manifest d.
Proof. unfold spend. destruct (budget d) as [[|n]|]; by intros [= <- <-]. Qed.

Lemma persist_lock_manifest b d r d' : persist (set_lock b) d = (r, d') -> manifest d' = manifest d.
Proof.
  unfold persist, mbind, stm_bind, modify. destruct (spend d) as [[u|e] d1] eqn:E;
    apply spend_manifest in E; by intros [= <- <-].
Qed.

(** An update leaves the file, or advances the manifest in it. *)
Definition file_advances (path : string) (f f' : manifest_file) : Prop :=
  f' = f \/ exists m m', read_file path f = Ok m /\ advances m m' /\
    f' = Readable (JObj m') /\ read_file path f' = Ok m'.

Lemma update_run run_dir expected state hs patch now d r d' :
  update_manifest run_dir expected state hs patch now d = (r, d') ->
  (manifest d' = manifest d /\ is_ok r = false) \/
  exists m m', read_file (manifest_path run_dir) (manifest d) = Ok m /\
    updated m expected state hs patch now = Ok m' /\ manifest d' = Readable (JObj m') /\
    validate_manifest (JObj m') = Ok m'.
Proof.
  unfold update_manifest, locked. unfold mbind at 1, stm_bind at 1, get.
  destruct (manifest_lock d); [intros [= <- <-]; by left|].
  unfold mbind at 1, stm_bind at 1. destruct (persist (set_lock true) d) as [[u|e] d1] eqn:E1;
    apply persist_lock_manifest in E1; [|intros [= <- <-]; by left].
  rewrite <- E1. clear E1. unfold finally.
  match goal with |- context [(?b d1)] => set (body := b) end.
  assert (forall r2 d2, body d1 = (r2, d2) -> (manifest d2 = manifest d1 /\ is_ok r2 = false) \/
    exists m m', read_file (manifest_path run_dir) (manifest d1) = Ok m /\
      updated m expected state hs patch now = Ok m' /\ manifest d2 = Readable (JObj m') /\
      validate_manifest (JObj m') = Ok m') as Hbody.
  { intros r2 d2. unfold body, read_manifest, mbind, stm_bind, get, lift.
    destruct (read_file _ (manifest d1)) as [m|e] eqn:Em; [|intros [= <- <-]; by left].
    destruct (updated _ _ _ _ _ _) as [m'|e] eqn:Eu; [|intros [= <- <-]; by left].
    unfold write_manifest, mbind, stm_bind, lift.
    destruct (validate_manifest (JObj m')) as [o|e] eqn:Ev; [|intros [= <- <-]; by left].
    pose proof (validate_positive _ _ Ev) as [[= <-] _].
    unfold persist, mbind, stm_bind, modify. destruct (spend d1) as [[u2|e] d3] eqn:Es;
      apply spend_manifest in Es; intros [= <- <-]; [|by left].
    right. by exists m, m'. }
  destruct (body d1) as [r2 d2]. specialize (Hbody r2 d2 eq_refl).
  destruct (alive d2); [|by intros [= <- <-]].
  destruct (persist (set_lock false) d2) as [r3 d3] eqn:E3. apply persist_lock_manifest in E3.
  destruct r3; intros [= <- <-]; rewrite E3; [done|]. destruct Hbody as [[H1 H2]|H]; [by left|by right].
Qed.

Lemma mstep_advances run_dir d d' :
  mstep run_dir d d' -> file_advances (manifest_path run_dir) (manifest d) (manifest d').
Proof.
  intros [b expected state hs patch now|]; [|by left].
  destruct (update_manifest _ _ _ _ _ _ _) as [r d1] eqn:E. cbn [snd].
  apply update_run in E as [[E _]|(m & m' & Em & Eu & E & Ev)]; [by left|]. cbn in Em.
  right. exists m, m'. split; [done|]. split; [|by rewrite E].
  eapply updated_advances; [exact Eu|]. destruct (manifest d); try done. by apply validate_positive in Em as [_ ?].
Qed.

Definition may_follow (a b : string) : Prop := allowed run_transitions a b = true.

Lemma terminal_stays a b : str_in a TERMINAL_STATES = true -> rtc may_follow a b -> b = a.
Proof.
  intros Ha H. inversion H as [|x y z Hxy]; [done|]. exfalso. unfold may_follow, allowed in Hxy.
  apply str_in_true in Ha.
  repeat (apply elem_of_cons in Ha as [->|Ha]; [by vm_compute in Hxy|]). by apply elem_of_nil in Ha.
Qed.

(** C35 The history of a run's manifest: whatever updates are made to a valid
    manifest, with any arguments, by processes that may die at any write, it
    stays valid; what identifies the run never changes; its state only moves
    along the table of transitions, so that a finished run stays as it
    finished; and the generation grows with every change, so that the file with
    the generation a caller read is the file it read. *)
Theorem manifest_history run_dir d d' m :
  read_file (manifest_path run_dir) (manifest d) = Ok m -> rtc (mstep run_dir) d d' ->
  exists m', read_file (manifest_path run_dir) (manifest d') = Ok m' /\
    (forall k, k ∈ ["schema_version"; "run_id"; "kind"; "created_at"] -> jget m' k = jget m k) /\
    rtc may_follow (run_state m) (run_state m') /\
    (str_in (run_state m) TERMINAL_STATES = true -> run_state m' = run_state m) /\
    (generation_number m <= generation_number m')%Z /\
    (generation_number m' = generation_number m -> m' = m).
Proof.
  intros Hm Hsteps.
  assert (exists m', read_file (manifest_path run_dir) (manifest d') = Ok m' /\
    (forall k, k ∈ ["schema_version"; "run_id"; "kind"; "created_at"] -> jget m' k = jget m k) /\
    rtc may_follow (run_state m) (run_state m') /\
    (generation_number m <= generation_number m')%Z /\
    (generation_number m' = generation_number m -> m' = m)) as (m' & H1 & H2 & H3 & H4 & H5).
  2:{ exists m'. split_and!; try done. intros Ht. by apply terminal_stays. }
  revert m Hm. induction Hsteps as [d|d d1 d2 Hstep Hsteps IH]; intros m Hm.
  { exists m. split_and!; try done. }
  destruct (mstep_advances _ _ _ Hstep) as [E|(m0 & m1 & E0 & [Ai As Ag] & E1 & Em1)].
  { apply IH. by rewrite E. }
  rewrite Hm in E0. injection E0 as <-.
  destruct (IH m1 Em1) as (m' & H1 & H2 & H3 & H4 & H5). exists m'. split; [done|]. split_and!.
  - intros k Hk. rewrite H2 by done. by apply Ai.
  - destruct As as [<-|As]; [done|]. by eapply rtc_l.
  - lia.
  - intros Hg. lia.
Qed.

(** ** Witness *)

Definition demo_dir : Dir :=
  mkDir (match new_manifest "r1" "kl" "p" None "llama" [] [] [] [] None None [] None (float_of_Z 0) with
         | Ok m => Readable (JObj m) | Err _ => Missing end) false None true.

(** Started by one process, finished by another; a third one, with the
    generation the second one read, is refused. *)
Definition demo_finished : Dir :=
  (update_manifest "d" 1 (Some "cancelled") None [] (float_of_Z 9)
    (update_manifest "d" 2 (Some "completed") None [("execution", JObj [("exit_code", JInt 0)])] (float_of_Z 8)
      (update_manifest "d" 1 (Some "running") None [] (float_of_Z 7) demo_dir).2).2).2.

Lemma manifest_history_witness :
  exists m', read_file (manifest_path "d") (manifest demo_finished) = Ok m' /\
    run_state m' = "completed" /\ generation_number m' = 3%Z.
Proof.
  assert (rtc (mstep "d") demo_dir demo_finished) as H.
  { eapply rtc_l; [exact (mstep_update "d" demo_dir None 1 (Some "running") None [] (float_of_Z 7))|].
    eapply rtc_l; [exact (mstep_update "d" _ None 2 (Some "completed") None
      [("execution", JObj [("exit_code", JInt 0)])] (float_of_Z 8))|].
    apply rtc_once. exact (mstep_update "d" _ None 1 (Some "cancelled") None [] (float_of_Z 9)). }
  destruct (manifest_history "d" demo_dir demo_finished _ eq_refl H) as (m' & Hm & _).
  exists m'. split; [exact Hm|]. vm_compute in Hm. injection Hm as <-. vm_compute. by split.
Defined.

End Manifest.
