(* ===== verification/Retention.v ===== *)
(** The workspace inventory and the cleanup plan:
    [src/tools/bigcherry/core/retention.py].

    A directory of the workspace is the sorted listing of its children, and a
    child knows the size [dir_size] measures for it.  The inventory records
    every run; the plan says for each whether it is a candidate and why not. *)

From S2P Require Import Prelude Json Clock Manifest.
From Stdlib Require Import SpecFloat.
Import Json Clock Manifest.

Module Retention.

Record Policy : Set := mkPolicy { min_age_days : float; newest_k : Z; harvested_only : bool }.

Record Entry : Type := mkEntry {
  e_path : string;
  e_kind : string;
  e_run_id : string;
  e_manifest : option obj;
  e_problem : option string;
  e_size_bytes : Z;
}.

Record Inventory : Type := mkInventory {
  inv_root : string;
  inv_runs : list Entry;
  inv_unknown : list string;
  inv_build_logs : list Entry;
  inv_builds : nat;
  inv_sources : nat;
}.

Inductive action_t : Set := Candidate | Protected.
#[global] Instance action_eq_dec : EqDecision action_t.
Proof. solve_decision. Defined.

Record Decision : Set := mkDecision {
  d_path : string;
  d_kind : string;
  d_run_id : string;
  action : action_t;
  d_size_bytes : Z;
  reasons : list string;
}.

Record CleanupPlan : Set := mkPlan {
  decisions : list Decision;
  plan_unknown : list string;
  plan_blocked : option string;
}.

(** [CleanupPlan.totals]: the number and the bytes of the decisions of an action. *)
Definition totals (p : CleanupPlan) (a : action_t) : nat * Z :=
  fold_left (fun '(n, b) d => if decide (action d = a) then (S n, b + d_size_bytes d)%Z else (n, b))
    (decisions p) (0, 0%Z).

(** ** The inventory *)

Definition join (p name : string) : string := p +:+ "/" +:+ name.

(** What a run kind's directory lists: runs, and what is no plain directory. *)
Inductive child : Type :=
| Other
| Run (m : manifest_file) (size : Z).

Inductive kind_dir : Type :=
| NoDir
| KindDir (children : list (string * child)).

(** The listings below the work root; [None] where there is no such directory. *)
Record Layout : Type := mkLayout {
  top : list string;
  runs_dir : option (list (string * kind_dir));
  builds_dir : option (list string);
  sources_dir : option (list string);
  logs_dir : option (list (string * Z));
}.

Definition measured (measure : bool) (size : Z) : Z := if measure then size else 0%Z.

(** One run directory [name] of the kind [kind]: only [ManifestError] is caught. *)
Definition run_entry (measure : bool) (dir kind name : string) (m : manifest_file) (size : Z) : res Entry :=
  let d := join dir name in
  let size := measured measure size in
  match read_file (manifest_path d) m with
  | Ok o =>
      k ← item o "kind"; i ← item o "run_id";
      Ok (if negb (is_str (Some k) kind) || negb (is_str (Some i) name) then
            mkEntry d kind name None
              (Some "manifest names a different kind or run id than its directory") size
          else mkEntry d kind name (Some o) None size)
  | Err e =>
      if String.eqb (exn_class e) "ManifestError"
      then Ok (mkEntry d kind name None (Some (exn_message e)) size) else Err e
  end.

Definition kind_entries (measure : bool) (dir kind : string) (children : list (string * child)) :
    res (list Entry * list string) :=
  foldR (fun '(runs, unknown) '(name, c) =>
      match c with
      | Other => Ok (runs, unknown ++ [join dir name])
      | Run m size => e ← run_entry measure dir kind name m size; Ok (runs ++ [e], unknown)
      end) children ([], []).

Definition runs_entries (measure : bool) (dir : string) (kinds : list (string * kind_dir)) :
    res (list Entry * list string) :=
  foldR (fun '(runs, unknown) '(name, k) =>
      match k with
      | NoDir => Ok (runs, unknown ++ [join dir name])
      | KindDir children =>
          if negb (str_in name RUN_KINDS) then Ok (runs, unknown ++ [join dir name])
          else
            '(r, u) ← kind_entries measure (join dir name) name children;
            Ok (runs ++ r, unknown ++ u)
      end) kinds ([], []).

Definition layout_names : list string :=
  ["build-logs"; "runs"; "builds"; "sources"; "cache"; "objects"; "evidence-hold"; "trash"; ".locks"].

Definition inspect_workspace (root : string) (w : Layout) (measure : bool) : res Inventory :=
  '(runs, unknown) ← match runs_dir w with
                     | Some kinds => runs_entries measure (join root "runs") kinds
                     | None => Ok ([], [])
                     end;
  let log '(name, size) := mkEntry (join (join root "build-logs") name) "build-log" name None None
                             (measured measure size) in
  let stray := List.filter (fun name => negb (str_in name layout_names) && negb (startswith "." name)) (top w) in
  Ok (mkInventory root runs (unknown ++ map (join root) stray)
        (match logs_dir w with Some l => map log l | None => [] end)
        (match builds_dir w with Some l => length l | None => 0 end)
        (match sources_dir w with Some l => length l | None => 0 end)).

(** ** The plan *)

(** [l[:k]] *)
Definition py_take {A} (k : Z) (l : list A) : list A :=
  if (k <? 0)%Z then take (Z.to_nat (Z.of_nat (length l) + k)) l else take (Z.to_nat k) l.

Definition managed (runs : list Entry) : list (Entry * obj) :=
  omap (fun e => (fun m => (e, m)) <$> e_manifest e) runs.

Definition by_id_of (ms : list (Entry * obj)) : list (string * obj) :=
  dict_of_pairs (map (fun em => (e_run_id em.1, em.2)) ms).

(** [e.manifest["created_at"]], which sorting compares and [_epoch] reads: a
    string. *)
Definition created_at (m : obj) : res string :=
  v ← item m "created_at";
  match v with
  | JStr s => Ok s
  | _ => Err (TypeError ("strptime() argument 0 must be str, not <class '" +:+ type_name v +:+ "'>"))
  end.

Definition geb (x y : string) : bool := String.leb y x.

(** The run a typed reference names. *)
Definition ref_name (ref : json) : res (option string) :=
  type ← sub ref "type";
  if negb (is_str (Some type) "run") then Ok None
  else
    id ← sub ref "id";
    match id with
    | JStr i => Ok (Some i)
    | JArr _ | JObj _ => Err (TypeError ("unhashable type: '" +:+ type_name id +:+ "'"))
    | _ => Ok None
    end.

(** ... when it is one of [by_id]. *)
Definition run_ref (by_id : list (string * obj)) (ref : json) : res (option string) :=
  r ← ref_name ref;
  Ok (match r with Some i => if has_key by_id i then Some i else None | None => None end).

Definition references (m : obj) : res (list json) := v ← item m "references"; json_iter v.

(** The first of the loops over the roots. *)
Definition add_root (roots : list (string * string)) (em : Entry * obj) : res (list (string * string)) :=
  let '(e, m) := em in
  state ← item m "state";
  let roots := if in_tuple state TERMINAL_STATES then roots
               else dict_set roots (e_run_id e) ("state is " +:+ jstr state) in
  retention ← item m "retention";
  hold ← dot_get retention "hold";
  Ok (if jtruthy hold then dict_set roots (e_run_id e) "administrative hold" else roots).

(** [setdefault] *)
Definition set_default (d : list (string * string)) (k v : string) : list (string * string) :=
  if has_key d k then d else dict_set d k v.

(** The runs of a kind, the newest first. *)
Definition newest_first (ms : list (Entry * obj)) (kind : string) : res (list (string * string)) :=
  same ← mapR (fun em => c ← created_at em.2; Ok (e_run_id em.1, c))
           (List.filter (fun em => String.eqb (e_kind em.1) kind) ms);
  Ok (py_sorted (on_key snd geb) same).

Definition add_newest (policy : Policy) (ms : list (Entry * obj)) (roots : list (string * string))
    (kind : string) : res (list (string * string)) :=
  same ← newest_first ms kind;
  Ok (fold_left (fun roots rc => set_default roots rc.1
        ("one of the newest " +:+ show_Z (newest_k policy) +:+ " " +:+ kind +:+ " runs"))
      (py_take (newest_k policy) same) roots).

Definition find_roots (policy : Policy) (kinds : list string) (ms : list (Entry * obj)) :
    res (list (string * string)) :=
  roots ← foldR add_root ms [];
  foldR (add_newest policy ms) kinds roots.

Notation walk_state := (list (string * string) * list string)%type.

(** One reference of the run [cur]; the frontier's last element first. *)
Definition visit_ref (by_id : list (string * obj)) (cur : string) (s : walk_state) (ref : json) :
    res walk_state :=
  r ← run_ref by_id ref;
  Ok (match r with
      | Some i => if has_key s.1 i then s
                  else (dict_set s.1 i ("referenced by " +:+ cur), i :: s.2)
      | None => s
      end).

(** [while frontier: ...] *)
Fixpoint reach (fuel : nat) (by_id : list (string * obj)) (s : walk_state) : res (list (string * string)) :=
  match s.2 with
  | [] => Ok s.1
  | cur :: frontier =>
      match fuel with
      | 0 => Err (Exn "Fuel" "")
      | S fuel' =>
          match jget by_id cur with
          | None => reach fuel' by_id (s.1, frontier)
          | Some m =>
              refs ← references m;
              s ← foldR (visit_ref by_id cur) refs (s.1, frontier);
              reach fuel' by_id s
          end
      end
  end.

Definition name_ref (by_id : list (string * obj)) (run_id : string) (protected : list (string * string))
    (ref : json) : res (list (string * string)) :=
  r ← run_ref by_id ref;
  Ok (match r with
      | Some i => if String.eqb i run_id || has_key protected i then protected
                  else dict_set protected i ("referenced by " +:+ run_id)
      | None => protected
      end).

(** One round of the loop over the runs that still name another. *)
Definition add_named (by_id : list (string * obj)) (protected : list (string * string))
    (em : Entry * obj) : res (list (string * string)) :=
  let '(e, m) := em in
  retention ← item m "retention";
  state ← sub retention "state";
  if is_str (Some state) "purged" then Ok protected
  else refs ← references m; foldR (name_ref by_id (e_run_id e)) refs protected.

Definition protect (policy : Policy) (kinds : list string) (ms : list (Entry * obj)) :
    res (list (string * string)) :=
  let by_id := by_id_of ms in
  roots ← find_roots policy kinds ms;
  protected ← reach (length roots + length by_id) by_id (roots, rev (map fst roots));
  foldR (add_named by_id) ms protected.

Section Plan.
(** The formats [:g] and [:.1f] of a float, and the order in which the set of
    kinds is iterated. *)
Context (show_g show_1f : float -> string) (kinds : list string).

Definition day : float := float_of_Z 86400.

Definition when {A} (b : bool) (a : A) : list A := if b then [a] else [].

(** Why the run of a manifest is kept. *)
Definition manifest_reasons (policy : Policy) (now : float) (protected : list (string * string))
    (run_id : string) (m : obj) : res (list string) :=
  provenance ← item m "provenance";
  harvest ← (if harvested_only policy then
               h ← item m "harvest"; s ← sub h "state";
               Ok (when (negb (is_str (Some s) "verified")) ("harvest is " +:+ jstr s))
             else Ok []);
  created ← created_at m;
  born ← epoch created;
  let age_days := fdiv (fsub now (float_of_Z born)) day in
  retention ← item m "retention";
  until ← dot_get retention "retain_until";
  retained ← (if jtruthy until then
                match until with
                | JStr u => t ← epoch u; Ok (when (fltb now (float_of_Z t)) ("retained until " +:+ u))
                | v => Err (TypeError ("strptime() argument 0 must be str, not <class '"
                             +:+ type_name v +:+ "'>"))
                end
              else Ok []);
  state ← sub retention "state";
  Ok ((match jget protected run_id with Some why => [why] | None => [] end)
      ++ when (negb (is_str (Some provenance) "recorded")) ("provenance is " +:+ jstr provenance)
      ++ harvest
      ++ when (fltb age_days (min_age_days policy))
           ("younger than " +:+ show_g (min_age_days policy) +:+ " days (" +:+ show_1f age_days +:+ ")")
      ++ retained
      ++ when (in_tuple state ["quarantined"; "purged"]) ("retention state is " +:+ jstr state)).

Definition decide_entry (policy : Policy) (now : float) (blocked : option string)
    (protected : list (string * string)) (e : Entry) : res Decision :=
  why ← match e_manifest e with
        | None => Ok ["unmanaged: " +:+ default "None" (e_problem e)]
        | Some m => manifest_reasons policy now protected (e_run_id e) m
        end;
  let why := why ++ when (opt_truthy blocked) ("cleanup blocked: " +:+ default "" blocked) in
  Ok (mkDecision (e_path e) (e_kind e) (e_run_id e)
        (match why with [] => Candidate | _ => Protected end) (e_size_bytes e)
        (match why with [] => ["harvest verified, retention expired, unreferenced"] | _ => why end)).

Definition decide_log (e : Entry) : Decision :=
  mkDecision (e_path e) (e_kind e) (e_run_id e) Protected (e_size_bytes e)
    ["build diagnostics retained indefinitely; explicit removal required"].

Definition plan_cleanup (inv : Inventory) (now : float) (policy : Policy) (blocked : option string) :
    res CleanupPlan :=
  protected ← protect policy kinds (managed (inv_runs inv));
  ds ← mapR (decide_entry policy now blocked protected) (inv_runs inv);
  Ok (mkPlan (ds ++ map decide_log (inv_build_logs inv)) (inv_unknown inv) blocked).
End Plan.

(** ** Keys of dictionaries *)

Lemma has_key_dict_set {A} (d : list (string * A)) k v k' :
  has_key (dict_set d k v) k' = String.eqb k' k || has_key d k'.
Proof. unfold has_key. rewrite jget_dict_set. by destruct (String.eqb k' k). Qed.

Lemma has_key_elem {A} (d : list (string * A)) k : has_key d k = true <-> k ∈ map fst d.
Proof.
  unfold has_key. induction d as [|[a b] d IH]; simpl; [split; [done|by intros ?%elem_of_nil]|].
  rewrite elem_of_cons. destruct (String.eqb_spec k a) as [->|]; [by split; auto|].
  rewrite IH. naive_solver.
Qed.

(** ** What the manifests say *)

(** The fields the plan reads of a manifest. *)
Record View : Type := mkView {
  v_finished : bool;
  v_hold : bool;
  v_names : list string;           (**r the runs it names *)
  v_purged : bool;
  v_set_aside : bool;              (**r quarantined or purged *)
  v_recorded : bool;
  v_verified : bool;
  v_created : string;
  v_born : Z;
  v_until : option Z;
}.

Definition view (m : obj) : res View :=
  state ← item m "state";
  retention ← item m "retention";
  hold ← dot_get retention "hold";
  refs ← references m;
  names ← mapR ref_name refs;
  rstate ← sub retention "state";
  provenance ← item m "provenance";
  harvest ← item m "harvest";
  hstate ← sub harvest "state";
  created ← created_at m;
  born ← epoch created;
  until ← dot_get retention "retain_until";
  until ← (if jtruthy until then
             match until with JStr u => t ← epoch u; Ok (Some t) | _ => Err (TypeError "") end
           else Ok None);
  Ok (mkView (in_tuple state TERMINAL_STATES) (jtruthy hold) (omap id names)
        (is_str (Some rstate) "purged") (in_tuple rstate ["quarantined"; "purged"])
        (is_str (Some provenance) "recorded") (is_str (Some hstate) "verified") created born until).

Ltac view_inv H :=
  unfold view in H;
  repeat (let x := fresh "x" in let E := fresh "E" in
          apply bind_Ok in H as (x & E & H));
  injection H as <-; cbn [v_finished v_hold v_names v_purged v_set_aside v_recorded v_verified
    v_created v_born v_until].

(** ** Walking the references *)

Section Walk.
Context (by_id : list (string * obj)) (Hids : NoDup (map fst by_id)).

(** The runs of [by_id] not yet protected. *)
Definition unseen (p : list (string * string)) : nat :=
  length (List.filter (fun im => negb (has_key p im.1)) by_id).

Lemma unseen_set p i why :
  has_key by_id i = true -> has_key p i = false -> S (unseen (dict_set p i why)) = unseen p.
Proof.
  intros Hi Hp. apply has_key_elem in Hi. unfold unseen. clear -Hids Hi Hp.
  induction by_id as [|[k m] l IH]; simpl in *; [by apply elem_of_nil in Hi|].
  apply NoDup_cons in Hids as [Hk Hnd]. rewrite has_key_dict_set.
  destruct (String.eqb_spec k i) as [->|Hne]; simpl.
  - rewrite Hp. simpl. f_equal. f_equal. clear -Hk.
    induction l as [|[k m] l IH]; simpl in *; [done|]. apply not_elem_of_cons in Hk as [Hne Hk].
    rewrite has_key_dict_set, (proj2 (String.eqb_neq k i)) by done. simpl.
    destruct (negb _); simpl; by rewrite IH.
  - apply elem_of_cons in Hi as [->|Hi]; [done|]. specialize (IH Hnd Hi).
    destruct (negb _); simpl; lia.
Qed.

(** The references of one run. *)
Lemma visit_refs cur refs os p fr :
  mapR ref_name refs = Ok os ->
  exists p' fr', foldR (visit_ref by_id cur) refs (p, fr) = Ok (p', fr') /\
    (forall i, has_key p' i = true <-> has_key p i = true \/ (i ∈ omap id os /\ has_key by_id i = true)) /\
    (forall i, i ∈ fr' <-> i ∈ fr \/ (has_key p' i = true /\ has_key p i = false)) /\
    length fr' + unseen p' = length fr + unseen p.
Proof.
  revert os p fr. induction refs as [|r refs IH]; intros os p fr H.
  { injection H as <-. exists p, fr. split; [done|]. split; [|split; [|done]]; intros i.
    - split; [auto|]. intros [|[Hi _]]; [done|]. by apply elem_of_nil in Hi.
    - split; [auto|]. intros [|[? ?]]; [done|congruence]. }
  cbn [mapR] in H. apply bind_Ok in H as (o & Ho & H). apply bind_Ok in H as (os' & Hos & H).
  injection H as <-. cbn [foldR]. unfold visit_ref at 2, run_ref. rewrite Ho.
  cbn [mbind result_bind]. destruct o as [i|]; [destruct (has_key by_id i) eqn:Hb|].
  - cbn [fst snd]. destruct (has_key p i) eqn:Hp; cbn [mbind result_bind].
    + destruct (IH os' p fr Hos) as (p' & fr' & E & H1 & H2 & H3). exists p', fr'.
      split; [done|]. split; [|split; done]. intros j. rewrite H1. simpl. rewrite elem_of_cons.
      naive_solver.
    + destruct (IH os' (dict_set p i ("referenced by " +:+ cur)) (i :: fr) Hos)
        as (p' & fr' & E & H1 & H2 & H3).
      exists p', fr'. split; [done|]. rewrite <- (unseen_set p i ("referenced by " +:+ cur)) by done.
      simpl in H3 |- *. split; [|split; [|lia]]; intros j.
      * rewrite H1, has_key_dict_set, elem_of_cons.
        destruct (String.eqb_spec j i) as [->|]; simpl; naive_solver.
      * rewrite H2, elem_of_cons. specialize (H1 j). rewrite has_key_dict_set in *.
        destruct (String.eqb_spec j i) as [e|Hne]; [subst j; rewrite Hp|]; simpl in *;
          [rewrite H1; intuition congruence|intuition].
  - cbn [mbind result_bind]. destruct (IH os' p fr Hos) as (p' & fr' & E & H1 & H2 & H3). exists p', fr'.
    split; [done|]. split; [|split; done]. intros j. rewrite H1. simpl. rewrite elem_of_cons.
    naive_solver congruence.
  - cbn [mbind result_bind]. destruct (IH os' p fr Hos) as (p' & fr' & E & H1 & H2 & H3).
    exists p', fr'. by split_and!.
Qed.

Context (Hviews : forall i m, jget by_id i = Some m -> exists v, view m = Ok v).

(** The run [i] names the run [j]. *)
Definition edge (i j : string) : Prop :=
  exists m v, jget by_id i = Some m /\ view m = Ok v /\ j ∈ v_names v /\ has_key by_id j = true.

Lemma view_refs m v : view m = Ok v ->
  exists refs os, references m = Ok refs /\ mapR ref_name refs = Ok os /\ v_names v = omap id os.
Proof. intros H. view_inv H. eauto. Qed.

(** With enough fuel the walk ends, with what the frontier reaches. *)
Lemma reach_spec fuel p fr :
  length fr + unseen p <= fuel ->
  (forall i, i ∈ fr -> has_key p i = true) ->
  (forall i j, has_key p i = true -> i ∉ fr -> edge i j -> has_key p j = true) ->
  exists p', reach fuel by_id (p, fr) = Ok p' /\
    forall i, has_key p' i = true <-> exists r, has_key p r = true /\ rtc edge r i.
Proof.
  revert p fr. induction fuel as [|fuel IH]; intros p fr Hf Hfr Hcl.
  { destruct fr; simpl in Hf; [|lia]. exists p. split; [done|]. intros i. split.
    - intros Hi. exists i. by split; [|apply rtc_refl].
    - intros (r & Hr & H). induction H as [|x y z Hxy _ IHr]; [done|]. apply IHr.
      apply (Hcl x); [done|set_solver|done]. }
  destruct fr as [|cur fr].
  { exists p. split; [done|]. intros i. split.
    - intros Hi. exists i. by split; [|apply rtc_refl].
    - intros (r & Hr & H). induction H as [|x y z Hxy _ IHr]; [done|]. apply IHr.
      apply (Hcl x); [done|set_solver|done]. }
  cbn [reach fst snd]. destruct (jget by_id cur) as [m|] eqn:Em.
  - destruct (Hviews _ _ Em) as [v Ev].
    destruct (view_refs _ _ Ev) as (refs & os & Er & Eo & En). rewrite Er. cbn [mbind result_bind].
    destruct (visit_refs cur refs os p fr Eo) as (p1 & fr1 & -> & H1 & H2 & H3). cbn [mbind result_bind].
    destruct (IH p1 fr1) as (p' & E & Hp').
    + simpl in Hf. lia.
    + intros i Hi. apply H2 in Hi as [Hi|[Hi _]]; [|done]. apply H1. left. apply Hfr. set_solver.
    + intros i j Hi Hni Hij. apply H1.
      destruct (decide (i = cur)) as [->|Hne].
      * right. destruct Hij as (m' & v' & Em' & Ev' & Hj & Hb). rewrite Em in Em'.
        injection Em' as <-. rewrite Ev in Ev'. injection Ev' as <-. by rewrite <- En.
      * left. apply (Hcl i); [|intros [->|Hc]%elem_of_cons; [done|]|done].
        -- apply H1 in Hi as [|Hnew]; [done|]. destruct (has_key p i) eqn:Hpi; [done|].
           destruct Hni. apply H2. right. split; [|done]. apply H1. by right.
        -- apply Hni, H2. by left.
    + exists p'. split; [done|]. intros i. rewrite Hp'. split.
      * intros (r & Hr & Hri). apply H1 in Hr as [Hr|[Hn Hb]]; [by exists r|].
        exists cur. split; [apply Hfr; set_solver|]. eapply rtc_l; [|exact Hri].
        exists m, v. rewrite En. done.
      * intros (r & Hr & Hri). exists r. split; [|done]. apply H1. by left.
  - destruct (IH p fr) as (p' & E & Hp').
    + simpl in Hf. lia.
    + intros i Hi. apply Hfr. set_solver.
    + intros i j Hi Hni Hij. apply (Hcl i); [done| |done]. intros [->|]%elem_of_cons; [|done].
      destruct Hij as (m & v & Em' & _). congruence.
    + by exists p'.
Qed.
End Walk.

(** ** What protects a run *)

Lemma by_id_keys ms : NoDup (map fst (by_id_of ms)).
Proof.
  unfold by_id_of, dict_of_pairs. generalize (map (fun em : Entry * obj => (e_run_id em.1, em.2)) ms) as l.
  assert (forall l (d : list (string * obj)), NoDup (map fst d) ->
    NoDup (map fst (fold_left (fun d kv => dict_set d kv.1 kv.2) l d))) as H.
  { induction l as [|kv l IH]; intros d Hd; simpl; [done|]. by apply IH, dict_set_keys. }
  intros l. apply H. constructor.
Qed.

Lemma by_id_fold l (d : list (string * obj)) i m :
  jget (fold_left (fun d kv => dict_set d kv.1 kv.2) l d) i = Some m ->
  jget d i = Some m \/ (i, m) ∈ l.
Proof.
  revert d. induction l as [|[k v] l IH]; intros d H; simpl in *; [by left|].
  apply IH in H as [H|H]; [|set_solver]. rewrite jget_dict_set in H.
  destruct (String.eqb_spec i k) as [->|]; [injection H as ->; set_solver|by left].
Qed.

Lemma by_id_managed ms i m : jget (by_id_of ms) i = Some m -> exists e, (e, m) ∈ ms /\ e_run_id e = i.
Proof.
  intros H. apply by_id_fold in H as [H|H]; [done|].
  apply list_elem_of_fmap in H as ([e m'] & [= -> ->] & Hin). by exists e.
Qed.

Lemma has_key_fold l (d : list (string * obj)) i :
  has_key (fold_left (fun d kv => dict_set d kv.1 kv.2) l d) i = true <->
  has_key d i = true \/ i ∈ map fst l.
Proof.
  revert d. induction l as [|[k v] l IH]; intros d; simpl; [set_solver|].
  rewrite IH, has_key_dict_set, elem_of_cons.
  destruct (String.eqb_spec i k); simpl; intuition.
Qed.

Lemma by_id_has ms i : has_key (by_id_of ms) i = true <-> exists e m, (e, m) ∈ ms /\ e_run_id e = i.
Proof.
  unfold by_id_of, dict_of_pairs. rewrite has_key_fold. split.
  - intros [H|H]; [done|]. apply list_elem_of_fmap in H as ([k m] & -> & H).
    apply list_elem_of_fmap in H as ([e m'] & [= -> ->] & Hin). by exists e, m'.
  - intros (e & m & Hin & <-). right. apply list_elem_of_fmap. exists (e_run_id e, m).
    split; [done|]. apply list_elem_of_fmap. by exists (e, m).
Qed.

Lemma elem_of_rev {A} (l : list A) x : x ∈ rev l <-> x ∈ l.
Proof. by rewrite !list_elem_of_In, <- in_rev. Qed.

Section Spec.
Context (policy : Policy) (kinds : list string) (ms : list (Entry * obj)).

Definition created (m : obj) : string := match view m with Ok v => v_created v | Err _ => "" end.

(** The runs of a kind kept because they are the newest: the first of them as
    sorted by their creation, the latest first. *)
Definition newest_of (kind : string) : list string :=
  map fst (py_take (newest_k policy) (py_sorted (on_key snd geb)
    (map (fun em => (e_run_id em.1, created em.2))
       (List.filter (fun em => String.eqb (e_kind em.1) kind) ms)))).

(** A root: unfinished, held, or among the newest of its kind. *)
Definition is_root (i : string) : Prop :=
  (exists e m v, (e, m) ∈ ms /\ e_run_id e = i /\ view m = Ok v /\
     (v_finished v = false \/ v_hold v = true)) \/
  exists kind, kind ∈ kinds /\ i ∈ newest_of kind.

(** Named by another run that still has its data. *)
Definition is_named (i : string) : Prop :=
  exists e m v, (e, m) ∈ ms /\ view m = Ok v /\ v_purged v = false /\ i ∈ v_names v /\ i <> e_run_id e /\
    has_key (by_id_of ms) i = true.

(** Protected: reached from a root along the references, or named. *)
Definition is_kept (i : string) : Prop :=
  (exists r, is_root r /\ rtc (edge (by_id_of ms)) r i) \/ is_named i.

Context (Hviews : forall e m, (e, m) ∈ ms -> exists v, view m = Ok v).

Lemma add_roots l roots :
  (forall em, em ∈ l -> em ∈ ms) ->
  exists roots', foldR add_root l roots = Ok roots' /\
    forall i, has_key roots' i = true <-> has_key roots i = true \/
      exists e m v, (e, m) ∈ l /\ e_run_id e = i /\ view m = Ok v /\ (v_finished v = false \/ v_hold v = true).
Proof.
  revert roots. induction l as [|[e m] l IH]; intros roots Hl.
  { exists roots. split; [done|]. intros i. split; [auto|].
    intros [|(e & m & v & Hin & _)]; [done|]. by apply elem_of_nil in Hin. }
  destruct (Hviews e m) as [v Hv]; [apply Hl; set_solver|].
  assert (exists roots1, add_root roots (e, m) = Ok roots1 /\
    forall i, has_key roots1 i = true <->
      has_key roots i = true \/ (i = e_run_id e /\ (v_finished v = false \/ v_hold v = true))) as (r1 & E1 & H1).
  { pose proof Hv as Hv'. view_inv Hv'. unfold add_root. rewrite E. cbn [mbind result_bind].
    rewrite E0. cbn [mbind result_bind]. rewrite E1. cbn [mbind result_bind].
    eexists. split; [done|]. intros i.
    destruct (in_tuple x _), (jtruthy x1); rewrite ?has_key_dict_set;
      destruct (String.eqb_spec i (e_run_id e)); simpl; intuition congruence. }
  cbn [foldR]. rewrite E1. cbn [mbind result_bind].
  destruct (IH r1) as (roots' & E & H); [intros em Hem; apply Hl; set_solver|].
  exists roots'. split; [done|]. intros i. rewrite H, H1. split.
  - intros [[Hi|[-> Hc]]|(e' & m' & v' & Hin & Hr)]; [by left| |]; right.
    + exists e, m, v. split_and!; [set_solver|done|done|done].
    + exists e', m', v'. split; [set_solver|done].
  - intros [Hi|(e' & m' & v' & Hin & He & Hv' & Hc)]; [by left; left|].
    apply elem_of_cons in Hin as [[= -> ->]|Hin].
    + left. right. rewrite Hv in Hv'. injection Hv' as <-. by split.
    + right. by exists e', m', v'.
Qed.

Lemma newest_first_Ok kind :
  newest_first ms kind = Ok (py_sorted (on_key snd geb)
    (map (fun em => (e_run_id em.1, created em.2))
       (List.filter (fun em => String.eqb (e_kind em.1) kind) ms))).
Proof.
  unfold newest_first.
  erewrite (mapR_all_ok _ (fun em => (e_run_id em.1, created em.2))); [done|].
  intros [e m] Hin. apply elem_of_filterb in Hin as [Hin _].
  destruct (Hviews e m Hin) as [v Hv]. cbn [fst snd]. unfold created. rewrite Hv.
  view_inv Hv. by rewrite E8.
Qed.

Lemma set_defaults l roots why i :
  has_key (fold_left (fun roots (rc : string * string) => set_default roots rc.1 why) l roots) i = true <->
  has_key roots i = true \/ i ∈ map fst l.
Proof.
  revert roots. induction l as [|[k c] l IH]; intros roots; simpl; [set_solver|].
  rewrite IH, elem_of_cons. unfold set_default.
  destruct (has_key roots k) eqn:Hk; [|rewrite has_key_dict_set];
    destruct (String.eqb_spec i k) as [->|]; simpl; intuition.
Qed.

Lemma add_newests l roots :
  exists roots', foldR (add_newest policy ms) l roots = Ok roots' /\
    forall i, has_key roots' i = true <-> has_key roots i = true \/ exists kind, kind ∈ l /\ i ∈ newest_of kind.
Proof.
  revert roots. induction l as [|kind l IH]; intros roots.
  { exists roots. split; [done|]. intros i. split; [auto|].
    intros [|(k & Hin & _)]; [done|]. by apply elem_of_nil in Hin. }
  cbn [foldR]. unfold add_newest at 2. rewrite newest_first_Ok. cbn [mbind result_bind].
  edestruct IH as (roots' & -> & H). eexists. split; [done|]. intros i. rewrite H, set_defaults.
  fold (newest_of kind). split.
  - intros [[Hi|Hi]|(k & Hk & Hi)]; [by left| |]; right; [exists kind|exists k]; (split; [set_solver|done]).
  - intros [Hi|(k & [->|Hk]%elem_of_cons & Hi)]; [by left; left|by left; right|right; by exists k].
Qed.

Lemma find_roots_spec :
  exists roots, find_roots policy kinds ms = Ok roots /\
    forall i, has_key roots i = true <-> is_root i.
Proof.
  destruct (add_roots ms [] (fun _ H => H)) as (r1 & E1 & H1).
  destruct (add_newests kinds r1) as (r2 & E2 & H2).
  exists r2. unfold find_roots. rewrite E1. split; [done|]. intros i. rewrite H2, H1. unfold is_root.
  split; [|tauto]. intros [[Hi|Hi]|Hi]; [done|by left|by right].
Qed.

Lemma name_refs by_id run_id refs os p :
  mapR ref_name refs = Ok os ->
  exists p', foldR (name_ref by_id run_id) refs p = Ok p' /\
    forall i, has_key p' i = true <->
      has_key p i = true \/ (i ∈ omap id os /\ i <> run_id /\ has_key by_id i = true).
Proof.
  revert os p. induction refs as [|r refs IH]; intros os p H.
  { injection H as <-. exists p. split; [done|]. intros i. split; [auto|]. intros [|[Hi _]]; [done|].
    by apply elem_of_nil in Hi. }
  cbn [mapR] in H. apply bind_Ok in H as (o & Ho & H). apply bind_Ok in H as (os' & Hos & H).
  injection H as <-. cbn [foldR]. unfold name_ref at 2, run_ref. rewrite Ho. cbn [mbind result_bind].
  lazymatch goal with |- exists _, foldR _ _ ?q = _ /\ _ =>
    destruct (IH os' q Hos) as (p' & -> & H) end. eexists. split; [done|]. intros i. rewrite H.
  destruct o as [j|]; [|done]. change (omap id (Some j :: os')) with (j :: omap id os').
  rewrite elem_of_cons. destruct (has_key by_id j) eqn:Hb; [|naive_solver congruence].
  destruct (String.eqb_spec j run_id) as [->|Hj]; cbn [orb]; [naive_solver|].
  destruct (has_key p j) eqn:Hp; [naive_solver|]. rewrite has_key_dict_set.
  destruct (String.eqb_spec i j) as [->|]; cbn [orb]; naive_solver.
Qed.

Lemma add_named_all by_id l p :
  (forall em, em ∈ l -> em ∈ ms) ->
  exists p', foldR (add_named by_id) l p = Ok p' /\
    forall i, has_key p' i = true <-> has_key p i = true \/
      exists e m v, (e, m) ∈ l /\ view m = Ok v /\ v_purged v = false /\ i ∈ v_names v /\ i <> e_run_id e /\
        has_key by_id i = true.
Proof.
  revert p. induction l as [|[e m] l IH]; intros p Hl.
  { exists p. split; [done|]. intros i. split; [auto|].
    intros [|(e & m & v & Hin & _)]; [done|]. by apply elem_of_nil in Hin. }
  destruct (Hviews e m) as [v Hv]; [apply Hl; set_solver|].
  assert (exists p1, add_named by_id p (e, m) = Ok p1 /\
    forall i, has_key p1 i = true <-> has_key p i = true \/
      (v_purged v = false /\ i ∈ v_names v /\ i <> e_run_id e /\ has_key by_id i = true)) as (p1 & E1 & H1).
  { pose proof Hv as Hv'. view_inv Hv'. unfold add_named. rewrite E0. cbn [mbind result_bind].
    rewrite E4. cbn [mbind result_bind]. cbn [is_str].
    destruct (match x4 with JStr t => String.eqb t "purged" | _ => false end).
    - eexists. split; [done|]. intros i. intuition congruence.
    - rewrite E2. cbn [mbind result_bind].
      destruct (name_refs by_id (e_run_id e) x2 x3 p E3) as (p1 & -> & H1).
      exists p1. split; [done|]. intros i. rewrite H1. tauto. }
  cbn [foldR]. rewrite E1. cbn [mbind result_bind].
  destruct (IH p1) as (p' & E & H); [intros em Hem; apply Hl; set_solver|].
  exists p'. split; [done|]. intros i. rewrite H, H1. split.
  - intros [[Hi|Hn]|(e' & m' & v' & Hin & Hr)]; [by left| |]; right.
    + exists e, m, v. split; [set_solver|]. by split.
    + exists e', m', v'. split; [set_solver|done].
  - intros [Hi|(e' & m' & v' & Hin & Hv' & Hr)]; [by left; left|].
    apply elem_of_cons in Hin as [[= -> ->]|Hin].
    + left. right. rewrite Hv in Hv'. injection Hv' as <-. done.
    + right. by exists e', m', v'.
Qed.

(** The protected runs are the kept ones. *)
Lemma protect_spec :
  exists p, protect policy kinds ms = Ok p /\ forall i, has_key p i = true <-> is_kept i.
Proof.
  destruct find_roots_spec as (roots & Er & Hr).
  assert (forall i m, jget (by_id_of ms) i = Some m -> exists v, view m = Ok v) as Hids.
  { intros i m H. apply by_id_managed in H as (e & Hin & _). by eapply Hviews. }
  destruct (reach_spec (by_id_of ms) (by_id_keys ms) Hids (length roots + length (by_id_of ms))
    roots (rev (map fst roots))) as (p1 & E1 & H1).
  - rewrite length_rev, length_map. unfold unseen.
    pose proof (sublist_length _ _ (filterb_sublist (fun im => negb (has_key roots im.1)) (by_id_of ms))).
    lia.
  - intros i Hi. apply has_key_elem. by apply elem_of_rev.
  - intros i j Hi Hni. exfalso. apply Hni. apply has_key_elem in Hi. by apply elem_of_rev.
  - destruct (add_named_all (by_id_of ms) ms p1 (fun _ H => H)) as (p & E & H).
    exists p. unfold protect. rewrite Er. cbn [mbind result_bind]. rewrite E1. cbn [mbind result_bind].
    split; [done|]. intros i. rewrite H, H1. unfold is_kept.
    split; (intros [(r & H2 & H3)|Hn]; [left; exists r; split; [by apply Hr|done]|by right]).
Qed.
End Spec.

(** ** The decisions *)

Section Decide.
Context (show_g show_1f : float -> string) (kinds : list string) (now : float) (policy : Policy).

(** Old enough, and past the time it is to be retained until. *)
Definition age (v : View) : float := fdiv (fsub now (float_of_Z (v_born v))) day.

Definition expired (v : View) : Prop :=
  fltb (age v) (min_age_days policy) = false /\
  forall t, v_until v = Some t -> fltb now (float_of_Z t) = false.

(** Settled: recorded, harvested where that is asked for, and not set aside. *)
Definition settled (v : View) : Prop :=
  v_recorded v = true /\ (harvested_only policy = true -> v_verified v = true) /\ v_set_aside v = false.

Lemma when_nil {A} b (a : A) : when b a = [] <-> b = false.
Proof. by destruct b. Qed.

Lemma reasons_spec protected run_id m v :
  view m = Ok v ->
  exists why, manifest_reasons show_g show_1f policy now protected run_id m = Ok why /\
    (why = [] <-> has_key protected run_id = false /\ expired v /\ settled v).
Proof.
  intros Hv. view_inv Hv. unfold manifest_reasons. rewrite E5. cbn [mbind result_bind].
  assert (exists hs, (if harvested_only policy then
       h ← item m "harvest"; s ← sub h "state";
       Ok (when (negb (is_str (Some s) "verified")) ("harvest is " +:+ jstr s)) else Ok []) = Ok hs /\
     (hs = [] <-> (harvested_only policy = true -> is_str (Some x7) "verified" = true))) as (hs & -> & Hhs).
  { destruct (harvested_only policy); [|by exists []].
    rewrite E6. cbn [mbind result_bind]. rewrite E7. cbn [mbind result_bind]. eexists. split; [done|].
    rewrite when_nil, negb_false_iff. intuition. }
  cbn [mbind result_bind]. rewrite E8. cbn [mbind result_bind]. rewrite E9. cbn [mbind result_bind].
  rewrite E0. cbn [mbind result_bind]. rewrite E10. cbn [mbind result_bind].
  assert (exists us, (if jtruthy x10 then
       match x10 with
       | JStr u => t ← epoch u; Ok (when (fltb now (float_of_Z t)) ("retained until " +:+ u))
       | v => Err (TypeError ("strptime() argument 0 must be str, not <class '" +:+ type_name v +:+ "'>"))
       end else Ok []) = Ok us /\
     (us = [] <-> forall t, x11 = Some t -> fltb now (float_of_Z t) = false)) as (us & -> & Hus).
  { destruct (jtruthy x10); [|injection E11 as <-; by exists []].
    destruct x10; try done. apply bind_Ok in E11 as (t & Et & [= <-]). rewrite Et. cbn [mbind result_bind].
    eexists. split; [done|]. rewrite when_nil. naive_solver. }
  cbn [mbind result_bind]. rewrite E4. cbn [mbind result_bind]. eexists. split; [done|].
  rewrite !app_nil, Hhs, Hus, !when_nil, negb_false_iff.
  unfold expired, settled, age, has_key. cbn [v_born v_until v_recorded v_verified v_set_aside].
  destruct (jget protected run_id); naive_solver.
Qed.

(** What a run must be to be a candidate. *)
Definition may_go (runs : list Entry) (blocked : option string) (e : Entry) : Prop :=
  exists m v, e_manifest e = Some m /\ view m = Ok v /\
    ~ is_kept policy kinds (managed runs) (e_run_id e) /\ expired v /\ settled v /\
    opt_truthy blocked = false.

(** The decision [d] is about [e], and lets it go only when it may. *)
Definition decides (runs : list Entry) (blocked : option string) (e : Entry) (d : Decision) : Prop :=
  d_path d = e_path e /\ d_run_id d = e_run_id e /\ reasons d <> [] /\
  (action d = Candidate <-> may_go runs blocked e).

Lemma decide_entry_spec runs blocked protected e :
  (forall m, e_manifest e = Some m -> exists v, view m = Ok v) ->
  (forall i, has_key protected i = true <-> is_kept policy kinds (managed runs) i) ->
  exists d, decide_entry show_g show_1f policy now blocked protected e = Ok d /\ decides runs blocked e d.
Proof.
  intros Hv Hp. unfold decide_entry, decides.
  destruct (e_manifest e) as [m|] eqn:Em.
  - destruct (Hv m eq_refl) as [v Ev].
    destruct (reasons_spec protected (e_run_id e) m v Ev) as (why & -> & Hw). cbn [mbind result_bind].
    eexists. split; [done|]. cbn [d_path d_run_id action reasons]. split_and!; [done|done|by destruct (_ ++ _)|].
    transitivity (why ++ when (opt_truthy blocked) ("cleanup blocked: " +:+ default "" blocked) = []);
      [by destruct (_ ++ _)|].
    rewrite app_nil, when_nil, Hw. unfold may_go. rewrite Em. split.
    + intros [(Hk & He & Hs) Hb]. exists m, v. split_and!; try done. intros Hkept. apply Hp in Hkept. congruence.
    + intros (m' & v' & [= <-] & Ev' & Hk & He & Hs & Hb). rewrite Ev in Ev'. injection Ev' as <-.
      split_and!; try done. apply not_true_is_false. by rewrite Hp.
  - cbn [mbind result_bind]. eexists. split; [done|]. cbn [d_path d_run_id action reasons app].
    split_and!; [done..|]. split; [done|]. intros (m & v & Hm & _). congruence.
Qed.
End Decide.

Lemma elem_of_managed runs e m : (e, m) ∈ managed runs <-> e ∈ runs /\ e_manifest e = Some m.
Proof.
  unfold managed. rewrite list_elem_of_omap. split.
  - intros (e' & Hin & H). destruct (e_manifest e') as [m'|] eqn:E; [|done].
    injection H as <- <-. by split.
  - intros [Hin E]. exists e. by rewrite E.
Qed.

(** C28 The cleanup plan is fail-closed and complete: over manifests whose
    fields can be read, [plan_cleanup] ends with a decision for every run, in
    the order of the inventory, each with a reason; a run is a candidate exactly
    when its manifest is there, it is neither reached from a root along the
    references nor named by another run, it is recorded, harvested where the
    policy asks for it, old enough, past its retention and not set aside, and
    the cleanup is not blocked.  Build logs are never candidates. *)
Theorem cleanup_plan_spec show_g show_1f kinds inv now policy blocked :
  (forall e m, e ∈ inv_runs inv -> e_manifest e = Some m -> exists v, view m = Ok v) ->
  exists plan ds logs,
    plan_cleanup show_g show_1f kinds inv now policy blocked = Ok plan /\
    decisions plan = ds ++ logs /\
    Forall2 (decides kinds now policy (inv_runs inv) blocked) (inv_runs inv) ds /\
    Forall2 (fun e d => d_path d = e_path e /\ action d = Protected) (inv_build_logs inv) logs.
Proof.
  intros Hv.
  destruct (protect_spec policy kinds (managed (inv_runs inv))) as (p & Ep & Hp).
  { intros e m [Hin Hm]%elem_of_managed. by eapply Hv. }
  assert (exists ds, mapR (decide_entry show_g show_1f policy now blocked p) (inv_runs inv) = Ok ds /\
    Forall2 (decides kinds now policy (inv_runs inv) blocked) (inv_runs inv) ds) as (ds & Ed & Hd).
  { revert Hp. generalize (inv_runs inv) at 1 3 as all. intros all Hp.
    assert (forall e, e ∈ inv_runs inv -> forall m, e_manifest e = Some m -> exists v, view m = Ok v) as Hv' by eauto.
    clear Hv Ep. induction (inv_runs inv) as [|e l IH]; [by exists []|].
    destruct (decide_entry_spec show_g show_1f kinds now policy all blocked p e) as (d & Ed & Hd);
      [apply Hv'; set_solver|done|].
    destruct IH as (ds & Eds & Hds); [intros e' He'; apply Hv'; set_solver|].
    exists (d :: ds). cbn [mapR]. rewrite Ed. cbn [mbind result_bind]. rewrite Eds. split; [done|by constructor]. }
  eexists _, ds, _. unfold plan_cleanup. rewrite Ep. cbn [mbind result_bind]. rewrite Ed. cbn [mbind result_bind].
  split; [done|]. split; [done|]. split; [done|].
  induction (inv_build_logs inv); simpl; by constructor.
Qed.

(** ** Witnesses *)

(** A finished run, harvested, that names the runs [names]. *)
Definition demo_manifest (kind run_id created : string) (names : list string) (drop : list string) : json :=
  JObj (List.filter (fun kv => negb (str_in kv.1 drop))
   [("schema_version", JInt 1); ("run_id", JStr run_id); ("kind", JStr kind); ("purpose", JStr "p");
    ("plan", JObj [("item", JNull)]); ("engine", JStr "llama"); ("created_at", JStr created);
    ("execution", JObj [("argv", JArr [])]); ("owner", JObj []); ("inputs", JArr []);
    ("references", JArr (map (fun n => JObj [("type", JStr "run"); ("id", JStr n); ("role", JStr "r")]) names));
    ("state", JStr "completed"); ("generation", JInt 4);
    ("harvest", JObj [("state", JStr "verified"); ("bundle_id", JStr "b")]);
    ("retention", JObj [("state", JStr "active"); ("retain_until", JNull); ("hold", JBool false)]);
    ("provenance", JStr "recorded")]).

Definition demo_run (kind run_id created : string) (names drop : list string) : string * child :=
  (run_id, Run (Readable (demo_manifest kind run_id created names drop)) 10).

(** The newest [kl] run names [k1]; [k2] is free; a capture is unreadable. *)
Definition demo_layout (drop : list string) : Layout :=
  mkLayout ["runs"; "build-logs"; "notes"]
    (Some [("capture", KindDir [("c1", Run Missing 5)]);
           ("kl", KindDir [demo_run "kl" "k1" "2026-01-01T00:00:00Z" [] [];
                           demo_run "kl" "k2" "2026-01-02T00:00:00Z" [] drop;
                           demo_run "kl" "k3" "2026-01-03T00:00:00Z" ["k1"] []])])
    None None (Some [("b.log", 7%Z)]).

Definition demo_policy : Policy := mkPolicy (float_of_Z 7) 1 true.
Definition demo_now : float := float_of_Z 1788870896.
Definition demo_show (x : float) : string := show_Z (float_floor x).

Definition empty_inventory : Inventory := mkInventory "" [] [] [] 0 0.
Definition inventory_of (r : res Inventory) : Inventory :=
  match r with Ok i => i | Err _ => empty_inventory end.

Definition demo_inventory : Inventory := inventory_of (inspect_workspace "/w" (demo_layout []) true).

Definition actions (r : res CleanupPlan) : list (string * action_t) :=
  match r with Ok p => map (fun d => (d_run_id d, action d)) (decisions p) | Err _ => [] end.

Definition readable (e : Entry) : bool :=
  match e_manifest e with Some m => is_ok (view m) | None => true end.

Lemma cleanup_plan_spec_witness :
  actions (plan_cleanup demo_show demo_show RUN_KINDS demo_inventory demo_now demo_policy None)
  = [("c1", Protected); ("k1", Protected); ("k2", Candidate); ("k3", Protected); ("b.log", Protected)] /\
  exists plan, plan_cleanup demo_show demo_show RUN_KINDS demo_inventory demo_now demo_policy None = Ok plan.
Proof.
  split; [vm_compute; reflexivity|].
  destruct (cleanup_plan_spec demo_show demo_show RUN_KINDS demo_inventory demo_now demo_policy None)
    as (plan & ds & logs & H & _); [|by exists plan].
  intros e m Hin Hm.
  assert (forallb readable (inv_runs demo_inventory) = true) as Hall by (vm_compute; reflexivity).
  rewrite forallb_true in Hall. specialize (Hall e Hin). unfold readable in Hall. rewrite Hm in Hall.
  destruct (view m) as [v|]; [by exists v|done].
Defined.

(** A field that validation does not require ends the whole plan. *)
Example provenance_ends_plan :
  plan_cleanup demo_show demo_show RUN_KINDS
    (inventory_of (inspect_workspace "/w" (demo_layout ["provenance"]) true)) demo_now demo_policy None
  = Err (KeyError "'provenance'").
Proof. vm_compute. reflexivity. Qed.

(** A manifest of a wrong shape ends the whole inventory: only [ManifestError]
    makes an entry unmanaged. *)
Example shape_ends_inventory :
  inspect_workspace "/w" (mkLayout [] (Some [("kl", KindDir [("k", Run (Readable
    (match demo_manifest "kl" "k" "2026-01-01T00:00:00Z" [] [] with
     | JObj o => JObj (dict_set o "harvest" JNull) | v => v end)) 0)])]) None None None) false
  = Err (AttributeError "'NoneType' object has no attribute 'get'").
Proof. vm_compute. reflexivity. Qed.

End Retention.
