(* ===== verification/Harvest.v ===== *)
(** Evidence bundles: the identity and the verification of a bundle in
    [src/tools/bigcherry/core/harvest.py].

    A bundle is its document and the plain files below its directory.  How a
    bundle is filled, with globs and extractors, is not modelled. *)

From S2P Require Import Prelude Json Operations.
Import Json.

Module Harvest.

Definition BUNDLE_SCHEMA : Z := 1.

(** ** The text that is hashed: [json.dumps(payload, sort_keys=True)] *)

Fixpoint dumps_spaced (v : json) : string :=
  match v with
  | JArr l => "[" +:+ String.concat ", " (map dumps_spaced l) +:+ "]"
  | JObj o =>
      "{" +:+ String.concat ", " (map (fun kv => dumps_str kv.1 +:+ ": " +:+ kv.2)
        (py_sorted by_key (map (fun kv => (kv.1, dumps_spaced kv.2)) o))) +:+ "}"
  | v => dumps v
  end.

(** What [bundle.json] decodes to, or why it cannot be read. *)
Inductive bundle_json : Type :=
| BadBundle (error : string)
| BundleDoc (v : json).

Record Bundle : Type := mkBundle {
  bundle_doc : bundle_json;
  bundle_files : gmap string string;   (**r by the path below its directory *)
}.

(** [value[key]] *)
Definition subscript (v : json) (k : string) : res json :=
  match v with
  | JObj o => item o k
  | v => Err (TypeError ("'" +:+ type_name v +:+ "' object is not subscriptable"))
  end.

(** [Path(value)] needs a string. *)
Definition path_of (v : json) : res string :=
  match v with
  | JStr s => Ok s
  | v => Err (TypeError ("argument should be a str or an os.PathLike object, not '" +:+ type_name v +:+ "'"))
  end.

Section Harvest.
Context (sha256 : string -> string).

Definition bundle_id (run_id recipe_sha diagnostic files bulk : json) : res string :=
  fs ← json_iter files;
  fs ← mapR (fun f => p ← subscript f "path"; b ← subscript f "bytes"; h ← subscript f "sha256";
                      w ← subscript f "producer"; Ok (JArr [p; b; h; w])) fs;
  bs ← json_iter bulk;
  bs ← mapR (fun b => p ← subscript b "path"; n ← subscript b "bytes"; Ok (JArr [p; n])) bs;
  Ok (sha256 (dumps_spaced (JObj [("run_id", run_id); ("recipe", recipe_sha);
    ("diagnostic_only", diagnostic); ("files", JArr fs); ("bulk", JArr bs)]))).

(** One kept file against what was recorded of it. *)
Definition check_file (files : gmap string string) (f : json) : res (list string) :=
  v ← subscript f "path"; p ← path_of v;
  match files !! p with
  | None => Ok [p +:+ " is missing"]
  | Some content =>
      bytes ← subscript f "bytes";
      sha ← (if is_int (Some bytes) (Z.of_nat (String.length content)) then subscript f "sha256" else Ok JNull);
      Ok (if is_str (Some sha) (sha256 content) then [] else [p +:+ " does not match its recorded hash"])
  end.

(** The loop over the bulk, with the paths seen so far. *)
Definition check_bulk (s : list string * list string) (b : json) : res (list string * list string) :=
  let '(seen, problems) := s in
  v ← subscript b "path"; p ← path_of v;
  let outside := Operations.is_absolute p || str_in ".." (Operations.parts p)
                 || bool_decide (Operations.parts p = []) in
  Ok (p :: seen,
      problems ++ (if outside then ["bulk path " +:+ py_repr p +:+ " is not a relative path inside the run"] else [])
        ++ (if str_in p seen then ["bulk path " +:+ p +:+ " is listed twice"] else [])).

(** The path of a copied file inside the run. *)
Definition kept_path (f : json) : res (option string) :=
  v ← subscript f "path"; p ← path_of v;
  Ok (if startswith "files/" p then
        Some (match tl (Operations.parts p) with [] => "." | l => String.concat "/" l end)
      else None).

Definition lacks (o : list (string * json)) : res string :=
  run_id ← item o "run_id";
  recipe ← item o "recipe"; recipe_sha ← subscript recipe "sha256";
  diagnostic ← item o "diagnostic_only"; files ← item o "files"; bulk ← item o "bulk";
  bundle_id run_id recipe_sha diagnostic files bulk.

(** [verify_bundle]: the problems found. *)
Definition verify_bundle (b : Bundle) : res (list string) :=
  match bundle_doc b with
  | BadBundle e => Ok ["bundle.json unreadable: " +:+ e]
  | BundleDoc (JObj o) =>
      let schema := if is_int (jget o "schema_version") BUNDLE_SCHEMA then []
                    else ["unknown bundle schema " +:+ jrepr (get_or o "schema_version" JNull)] in
      files ← json_iter (get_or o "files" (JArr []));
      bad ← mapR (check_file (bundle_files b)) files;
      bulk ← json_iter (get_or o "bulk" (JArr []));
      '(seen, outside) ← foldR check_bulk bulk ([], []);
      kept ← mapR kept_path files;
      let both := if existsb (fun k => str_in k seen) (omap id kept)
                  then ["a file is both kept and listed as bulk"] else [] in
      let problems := schema ++ List.concat bad ++ outside ++ both in
      match lacks o with
      | Ok expect =>
          Ok (problems ++ (if is_str (jget o "bundle_id") expect then []
                           else ["bundle_id does not match the bundle contents"]))
      | Err e => if String.eqb (exn_class e) "KeyError"
                 then Ok (problems ++ ["bundle.json lacks " +:+ exn_message e]) else Err e
      end
  | BundleDoc v => Err (no_get v)
  end.
End Harvest.

End Harvest.
