(* ===== verification/Quarantine.v ===== *)
(** Quarantine, restore and purge of a run's bulk:
    [src/tools/bigcherry/core/quarantine.py].

    The state is what one run owns: its directory and its manifest, its trash
    with the journal, and the workspace's lock.  Every change of the file
    system is one step the process may die in front of, with the budget of
    [Manifest.Dir].  A tree maps a path to what [lstat] shows there; the trees
    of other runs are the layout the operation is given. *)

From S2P Require Import Prelude Json Clock Manifest Retention Harvest Operations.
From Stdlib Require Import SpecFloat.
Import Json Clock Manifest Retention.

Module Quarantine.

Definition QuarantineError (msg : string) : exn := Exn "QuarantineError" msg.
Definition OSError (msg : string) : exn := Exn "OSError" msg.

Notation path := (list string).

(** What [lstat] shows: a file has its content and its number of links. *)
Inductive node : Type :=
| File (content : string) (nlink : nat)
| Link (to_dir : bool)
| Directory
| Special.

#[global] Instance node_eq_dec : EqDecision node.
Proof. solve_decision. Defined.

Notation tree := (gmap path node).

(** One journalled file. *)
Record Move : Type := mkMove { m_path : string; m_bytes : json; m_state : string }.

Record JournalDoc : Type := mkJournal {
  j_bundle_id : json;
  j_started_at : string;
  entries : list Move;
  restored_at : option string;
  purged_at : option string;
}.

Inductive journal_file : Type :=
| NoJournal
| BadJournal (error : string)
| HasJournal (doc : JournalDoc).

Record World : Type := mkWorld {
  dir : Dir;                       (**r the run's manifest, its lock, and the budget *)
  live : tree;                     (**r below the run directory *)
  trash : tree;                    (**r below [files] of its trash directory *)
  journal : journal_file;
  restored : list JournalDoc;      (**r the journals of earlier quarantines *)
  gc_locked : bool;                (**r the lock file of the workspace exists *)
}.

Definition set_dir (d : Dir) (w : World) : World :=
  mkWorld d (live w) (trash w) (journal w) (restored w) (gc_locked w).
Definition set_trees (l t : tree) (w : World) : World :=
  mkWorld (dir w) l t (journal w) (restored w) (gc_locked w).
Definition set_journal (j : journal_file) (w : World) : World :=
  mkWorld (dir w) (live w) (trash w) j (restored w) (gc_locked w).
Definition set_gc (b : bool) (w : World) : World :=
  mkWorld (dir w) (live w) (trash w) (journal w) (restored w) b.
(** The journal is renamed. *)
Definition retire (doc : JournalDoc) (w : World) : World :=
  mkWorld (dir w) (live w) (trash w) NoJournal (restored w ++ [doc]) (gc_locked w).

Definition living (w : World) : bool := alive (dir w).

(** An operation on the manifest's directory, inside the world. *)
Definition on_dir {A} (m : stm Dir A) : stm World A := fun w =>
  let '(r, d) := m (dir w) in (r, set_dir d w).

Definition change (f : World -> World) : stm World unit := _ ← on_dir spend; modify f.

(** ** Paths *)

Definition windows_anchor (p : string) : bool :=
  match p with
  | String c p' =>
      existsb (Ascii.eqb c) ["/"%char; backslash]
      || match p' with String d _ => Ascii.eqb d ":" | EmptyString => false end
  | EmptyString => false
  end.

Definition rel_ok (rel : string) : res path :=
  let ps := Operations.parts rel in
  if Operations.is_absolute rel || windows_anchor rel || str_in ".." ps || bool_decide (ps = [])
  then Err (QuarantineError ("inventory path " +:+ py_repr rel +:+ " is not a relative path inside the run"))
  else Ok ps.

Definition as_posix (p : path) : string := String.concat "/" p.

Definition is_link (n : option node) : bool := match n with Some (Link _) => true | _ => false end.

Definition no_symlink_chain (t : tree) (p : path) : bool :=
  forallb (fun q => negb (is_link (t !! q))) (above p ++ when (negb (bool_decide (p = []))) p).

(** [os.path.lexists] *)
Definition lexists (t : tree) (p : path) : bool := bool_decide (is_Some (t !! p)).

Definition check_source (t : tree) (e : Move) : res unit :=
  rel ← rel_ok (m_path e);
  if negb (no_symlink_chain t rel)
  then Err (QuarantineError (as_posix rel +:+ " is reached through a symlink"))
  else
    match t !! rel with
    | None => Err (Exn "FileNotFoundError" "[Errno 2] No such file or directory")
    | Some (File content nlink) =>
        if (1 <? nlink)%nat
        then Err (QuarantineError (as_posix rel +:+ " is not a plain single-link file"))
        else if negb (is_int (Some (m_bytes e)) (Z.of_nat (String.length content)))
        then Err (QuarantineError (as_posix rel +:+ " changed size since it was harvested ("
               +:+ show_nat (String.length content) +:+ " != " +:+ jstr (m_bytes e) +:+ ")"))
        else Ok tt
    | Some _ => Err (QuarantineError (as_posix rel +:+ " is not a plain single-link file"))
    end.

(** [os.rename] to a free place: a directory takes along what is below it. *)
Definition below (p q : path) : bool := bool_decide (p `prefix_of` q).

Definition rename (src dst : tree) (p : path) : tree * tree :=
  match src !! p with
  | Some Directory =>
      (filter (fun qn => below p qn.1 = false) src, filter (fun qn => below p qn.1 = true) src ∪ dst)
  | Some n => (delete p src, <[p := n]> dst)
  | None => (src, dst)
  end.

(** ** The workspace around the run *)

Section Quarantine.
(** The hash, the formats of floats, the order of the kinds; the kind and the
    name of the run directory; the work root; and whether its trash is on the
    same file system. *)
Context (sha256 : string -> string) (show_g show_1f : float -> string) (kinds : list string)
        (root kind name : string) (same_fs : bool).

Definition run_dir : string := join (join (join root "runs") kind) name.

(** The layout with the manifest this run has now. *)
Definition set_child (f : manifest_file) (c : string * child) : string * child :=
  if String.eqb c.1 name then (c.1, match c.2 with Run _ size => Run f size | Other => Other end) else c.

Definition set_kind (f : manifest_file) (k : string * kind_dir) : string * kind_dir :=
  if String.eqb k.1 kind
  then (k.1, match k.2 with KindDir cs => KindDir (map (set_child f) cs) | NoDir => NoDir end)
  else k.

Definition layout_now (rest : Layout) (f : manifest_file) : Layout :=
  mkLayout (top rest) (map (set_kind f) <$> runs_dir rest) (builds_dir rest) (sources_dir rest) (logs_dir rest).

Definition inspect (rest : Layout) (f : manifest_file) : res Inventory :=
  inspect_workspace root (layout_now rest f) false.

Definition names_run (run_id : string) (ref : json) : res bool :=
  match ref with
  | JObj o => Ok (is_str (jget o "type") "run" && is_str (jget o "id") run_id)
  | v => Err (no_get v)
  end.

Definition any_ref (run_id : string) (found : bool) (ref : json) : res bool :=
  if found then Ok true else names_run run_id ref.

(** Whether the entry is another run that still names this one. *)
Definition inbound (run_id : string) (e : Entry) : res bool :=
  match e_manifest e with
  | None => Ok false
  | Some m =>
      if String.eqb (e_run_id e) run_id then Ok false
      else
        retention ← item m "retention"; state ← sub retention "state";
        if is_str (Some state) "purged" then Ok false
        else refs ← references m; foldR (any_ref run_id) refs false
  end.

Definition inbound_of (rest : Layout) (f : manifest_file) (run_id : string) : res (list string) :=
  inv ← inspect rest f;
  hits ← mapR (fun e => b ← inbound run_id e; Ok (e_run_id e, b)) (inv_runs inv);
  Ok (py_sorted String.leb (map fst (List.filter snd hits))).

Definition inbound_references (rest : Layout) (run_id : string) : stm World (list string) :=
  w ← get; lift (inbound_of rest (manifest (dir w)) run_id).

(** ** Locks, the journal, the inventory *)

Definition require_idle (blocked : option string) : stm World unit :=
  match blocked with
  | Some why => if truthy why then raise (QuarantineError ("refused: " +:+ why)) else mret tt
  | None => mret tt
  end.

Definition with_gc_lock {A} (body : stm World A) : stm World A :=
  w ← get;
  if gc_locked w then
    raise (QuarantineError ("another cleanup operation holds " +:+ join root ".locks/gc.lock"
             +:+ " (remove it only if no bigcherry process is running)"))
  else
    _ ← change (set_gc true);
    finally living body (change (set_gc false)).

Definition write_journal (doc : JournalDoc) : stm World unit := change (set_journal (HasJournal doc)).

Definition read_journal : stm World (option JournalDoc) :=
  w ← get;
  match journal w with
  | NoJournal => mret None
  | BadJournal e => raise (QuarantineError ("journal is unreadable: " +:+ e))
  | HasJournal doc => mret (Some doc)
  end.

Definition bulk_of (bundle_doc : json) : res (list Move) :=
  bulk ← sub bundle_doc "bulk";
  bs ← json_iter bulk;
  mapR (fun b => v ← sub b "path"; p ← Harvest.path_of v; rel ← rel_ok p; n ← sub b "bytes";
                 Ok (mkMove (as_posix rel) n "pending")) bs.

Definition verified_inventory (bundle : Harvest.Bundle) (m : obj) : res (list Move) :=
  harvest ← item m "harvest";
  hstate ← sub harvest "state";
  if negb (is_str (Some hstate) "verified")
  then Err (QuarantineError ("harvest is " +:+ jstr hstate
         +:+ "; only a verified bundle makes the bulk safe to move"))
  else
    problems ← Harvest.verify_bundle sha256 bundle;
    match problems, Harvest.bundle_doc bundle with
    | [], Harvest.BundleDoc doc =>
        drun ← sub doc "run_id"; mrun ← item m "run_id";
        did ← sub doc "bundle_id"; mid ← sub harvest "bundle_id";
        if negb (py_eqb drun mrun) || negb (py_eqb did mid)
        then Err (QuarantineError "the evidence bundle is not the one the run manifest recorded")
        else bulk_of doc
    | [], Harvest.BadBundle e => Err (ValueError e)
    | _, _ => Err (QuarantineError ("the evidence bundle does not verify: "
                +:+ String.concat "; " (take 3 problems)))
    end.

(** ** Moves *)

(** [mkdir(parents=True, exist_ok=True)] of one directory. *)
Definition make_dir (get_t : World -> tree) (set_t : tree -> World -> World) (q : path) : stm World unit :=
  w ← get;
  match get_t w !! q with
  | None => change (fun w => set_t (<[q := Directory]> (get_t w)) w)
  | Some Directory | Some (Link true) => mret tt
  | Some _ => raise (Exn "FileExistsError" ("[Errno 17] File exists: " +:+ py_repr (as_posix q)))
  end.

Definition set_live (t : tree) (w : World) : World := set_trees t (trash w) w.
Definition set_trash (t : tree) (w : World) : World := set_trees (live w) t w.

(** The end of [_move], where the file is here and not there. *)
Definition carry (forward : bool) (e : Move) (rel : path) : stm World unit :=
  w ← get;
  _ ← (if forward then lift (check_source (live w) e)
       else if no_symlink_chain (live w) (removelast rel) then mret tt
       else raise (QuarantineError (as_posix rel +:+ " would be restored through a symlink")));
  _ ← (if forward then iterM (make_dir trash set_trash) (above rel)
       else iterM (make_dir live set_live) (above rel));
  change (fun w =>
    if forward then let '(l, t) := rename (live w) (trash w) rel in set_trees l t w
    else let '(t, l) := rename (trash w) (live w) rel in set_trees l t w).

(** [_move]: gives the entry with its new state. *)
Definition move (forward : bool) (e : Move) : stm World Move :=
  rel ← lift (rel_ok (m_path e));
  w ← get;
  let here := if forward then live w else trash w in
  let there := if forward then trash w else live w in
  let want := if forward then "moved" else "pending" in
  let moved := mkMove (m_path e) (m_bytes e) want in
  if negb (lexists here rel) then
    if lexists there rel then mret moved
    else raise (QuarantineError (as_posix rel +:+ " is in neither place; the journal and the disk disagree"))
  else if lexists there rel then
    raise (QuarantineError (as_posix rel
      +:+ " exists at both the source and the destination; refusing to overwrite"))
  else
    _ ← carry forward e rel;
    mret moved.

Definition with_entries (doc : JournalDoc) (es : list Move) : JournalDoc :=
  mkJournal (j_bundle_id doc) (j_started_at doc) es (restored_at doc) (purged_at doc).

(** [for e in doc["entries"]: step(e); write_journal(doc)], where [before] are
    the entries that are done; [acc] is what the loop sums up. *)
Fixpoint each_entry {A} (step : A -> Move -> stm World (A * Move)) (doc : JournalDoc) (acc : A)
    (before todo : list Move) : stm World (A * list Move) :=
  match todo with
  | [] => mret (acc, before)
  | e :: todo' =>
      '(acc', e') ← step acc e;
      _ ← write_journal (with_entries doc (before ++ e' :: todo'));
      each_entry step doc acc' (before ++ [e']) todo'
  end.

Definition move_all (forward : bool) (doc : JournalDoc) : stm World JournalDoc :=
  '(_, es) ← each_entry (fun (_ : unit) e => e' ← move forward e; mret (tt, e')) doc tt [] (entries doc);
  mret (with_entries doc es).

(** ** The operations *)

(** What an operation answers. *)
Record Outcome : Type := mkOutcome {
  o_run_id : json;
  o_state : string;
  o_entries : nat;
  o_bytes : option Z;
  o_applied : option bool;
}.

(** [m["generation"]], as the number it is compared as. *)
Definition generation_of (m : obj) : res Z :=
  v ← item m "generation"; json_int v.

Definition retention_state (m : obj) : res string :=
  retention ← item m "retention"; state ← sub retention "state"; Ok (jstr state).

Definition text_of (v : json) : res string :=
  match v with JStr s => Ok s | v => Err (TypeError (type_name v)) end.

Definition size_of (e : Move) : res Z :=
  match m_bytes e with
  | JInt z => Ok z
  | JBool b => Ok (num_of_bool b)
  | v => Err (TypeError ("unsupported operand type(s) for +: 'int' and '" +:+ type_name v +:+ "'"))
  end.

Definition all_in (state : string) (doc : JournalDoc) : bool :=
  forallb (fun e => String.eqb (m_state e) state) (entries doc).

(** The entries of a new quarantine, every condition checked, from the run
    directory and the manifest file. *)
Definition plan_of (bundle : Harvest.Bundle) (rest : Layout) (policy : Policy) (now : float)
    (run_id : string) (m : obj) (l : tree) (f : manifest_file) : res (list Move) :=
  inv ← inspect rest f;
  plan ← plan_cleanup show_g show_1f kinds inv now policy None;
  match List.find (fun d => String.eqb (d_run_id d) run_id) (decisions plan) with
  | None => Err (QuarantineError "not a cleanup candidate: unknown run")
  | Some d =>
      if bool_decide (action d <> Candidate)
      then Err (QuarantineError ("not a cleanup candidate: " +:+ String.concat "; " (reasons d)))
      else
        refs ← inbound_of rest f run_id;
        if bool_decide (refs <> [])
        then Err (QuarantineError ("still referenced by " +:+ String.concat ", " refs))
        else
          es ← verified_inventory bundle m;
          _ ← mapR (check_source l) es;
          Ok es
  end.

Definition plan_entries (bundle : Harvest.Bundle) (rest : Layout) (policy : Policy) (now : float)
    (run_id : string) (m : obj) : stm World (list Move) :=
  w ← get; lift (plan_of bundle rest policy now run_id m (live w) (manifest (dir w))).

(** What [quarantine] does once it is not refused. *)
Definition perform (bundle : Harvest.Bundle) (rest : Layout) (policy : Policy) (apply : bool) (now : float)
    (m : obj) (id : json) (run_id : string) (j : option JournalDoc) : stm World Outcome :=
  es ← (match j with Some doc => mret (entries doc) | None => plan_entries bundle rest policy now run_id m end);
  sizes ← lift (mapR size_of es);
  let total := foldr Z.add 0%Z sizes in
  if negb apply then mret (mkOutcome id "plan" (length es) (Some total) (Some false))
  else
    _ ← change (fun w => w);               (**r the trash directory is made *)
    if negb same_fs then
      raise (QuarantineError "the trash directory is on a different filesystem; a rename cannot be atomic")
    else
      doc ← lift (match j with
                  | Some doc => Ok doc
                  | None => h ← item m "harvest"; b ← sub h "bundle_id";
                            Ok (mkJournal b (utc_stamp now) es None None)
                  end);
      _ ← write_journal doc;
      _ ← move_all true doc;
      generation ← lift (generation_of m);
      _ ← on_dir (update_manifest run_dir generation None None
            [("retention", JObj [("state", JStr "quarantined"); ("quarantined_at", JStr (utc_stamp now))])] now);
      mret (mkOutcome id "quarantined" (length es) (Some total) (Some true)).

Definition quarantine (bundle : Harvest.Bundle) (rest : Layout) (policy : Policy) (blocked : option string)
    (apply : bool) (now : float) : stm World Outcome :=
  _ ← require_idle blocked;
  with_gc_lock (
    m ← on_dir (read_manifest run_dir);
    id ← lift (item m "run_id");
    run_id ← lift (text_of id);
    j ← read_journal;
    state ← lift (retention_state m);
    if String.eqb state "quarantined" && match j with Some doc => all_in "moved" doc | None => false end
    then mret (mkOutcome id "quarantined" (match j with Some doc => length (entries doc) | None => 0 end)
                 None (Some false))
    else if negb (String.eqb state "quarantined") && negb (String.eqb state "active")
    then raise (QuarantineError ("retention state is " +:+ state +:+ "; only an active run can be quarantined"))
    else perform bundle rest policy apply now m id run_id j).

Definition set_restored (doc : JournalDoc) (stamp : string) : JournalDoc :=
  mkJournal (j_bundle_id doc) (j_started_at doc) (entries doc) (Some stamp) (purged_at doc).
Definition set_purged (doc : JournalDoc) (stamp : string) : JournalDoc :=
  mkJournal (j_bundle_id doc) (j_started_at doc) (entries doc) (restored_at doc) (Some stamp).

Definition restore (blocked : option string) (now : float) : stm World Outcome :=
  _ ← require_idle blocked;
  with_gc_lock (
    m ← on_dir (read_manifest run_dir);
    state ← lift (retention_state m);
    if negb (String.eqb state "quarantined")
    then raise (QuarantineError ("retention state is " +:+ state
           +:+ "; only a quarantined run can be restored"))
    else
      id ← lift (item m "run_id");
      j ← read_journal;
      match j with
      | None => raise (QuarantineError "no journal for this quarantine")
      | Some doc =>
          doc ← move_all false doc;
          let doc := set_restored doc (utc_stamp now) in
          _ ← write_journal doc;
          _ ← change (retire doc);
          generation ← lift (generation_of m);
          _ ← on_dir (update_manifest run_dir generation None None
                [("retention", JObj [("state", JStr "active"); ("quarantined_at", JNull)])] now);
          mret (mkOutcome id "active" (length (entries doc)) None None)
      end).

(** One round of the loop of [purge], with the bytes freed so far. *)
Definition purge_one (freed : Z) (e : Move) : stm World (Z * Move) :=
  rel ← lift (rel_ok (m_path e));
  w ← get;
  let purged := mkMove (m_path e) (m_bytes e) "purged" in
  match trash w !! rel with
  | None => mret (freed, purged)
  | Some (File content _) =>
      _ ← change (fun w => set_trees (live w) (delete rel (trash w)) w);
      mret (freed + Z.of_nat (String.length content), purged)%Z
  | Some _ => raise (QuarantineError (as_posix rel +:+ " in trash is not a plain file"))
  end.

(** [_prune_empty]: the directories below which no other node is left. *)
Definition prune_empty (t : tree) : tree :=
  filter (fun qn => qn.2 <> Directory \/
            Exists (fun rn => below qn.1 rn.1 = true /\ rn.2 <> Directory) (map_to_list t)) t.

(** [not since or now - _epoch(since) < grace_days * 86400.0] *)
Definition in_grace (since : json) (now grace_days : float) : res bool :=
  if jtruthy since then
    s ← text_of since; t ← epoch s; Ok (fltb (fsub now (float_of_Z t)) (fmul grace_days day))
  else Ok true.

Definition purge (show : float -> string) (rest : Layout) (grace_days : float) (blocked : option string)
    (now : float) : stm World Outcome :=
  _ ← require_idle blocked;
  with_gc_lock (
    m ← on_dir (read_manifest run_dir);
    state ← lift (retention_state m);
    if negb (String.eqb state "quarantined")
    then raise (QuarantineError ("retention state is " +:+ state
           +:+ "; only a quarantined run can be purged"))
    else
      retention ← lift (item m "retention");
      since ← lift (dot_get retention "quarantined_at");
      early ← lift (in_grace since now grace_days);
      if (early : bool) then
        raise (QuarantineError ("quarantined " +:+ jstr since +:+ "; the " +:+ show grace_days
                 +:+ "-day grace period has not passed"))
      else
        id ← lift (item m "run_id");
        run_id ← lift (text_of id);
        refs ← inbound_references rest run_id;
        if bool_decide (refs <> [])
        then raise (QuarantineError ("referenced again since quarantine by " +:+ String.concat ", " refs))
        else
          hold ← lift (dot_get retention "hold");
          if jtruthy hold then raise (QuarantineError "administrative hold")
          else
            j ← read_journal;
            match (match j with Some doc => if all_in "moved" doc then Some doc else None | None => None end) with
            | None => raise (QuarantineError "the journal does not show a complete quarantine")
            | Some doc =>
                '(freed, es) ← each_entry purge_one doc 0%Z [] (entries doc);
                _ ← change (fun w => set_trees (live w) (prune_empty (trash w)) w);
                _ ← write_journal (set_purged (with_entries doc es) (utc_stamp now));
                generation ← lift (generation_of m);
                _ ← on_dir (update_manifest run_dir generation None None
                      [("retention", JObj [("state", JStr "purged"); ("purged_at", JStr (utc_stamp now))])] now);
                mret (mkOutcome id "purged" (length es) (Some freed) None)
            end).
End Quarantine.

(** ** Nothing is lost *)

(** What is at a path, directories left out. *)
Definition solid (t : tree) (p : path) : option node :=
  match t !! p with Some Directory => None | o => o end.

Definition sound_move (orig : path -> option node) (e : Move) : Prop :=
  exists rel c n, rel_ok (m_path e) = Ok rel /\ orig rel = Some (File c n).

(** Every node of [orig] is in exactly one place, and what the journal lists
    are files of [orig]. *)
Record intact (orig : path -> option node) (w : World) : Prop := {
  in_one_place : forall p,
    (solid (live w) p = orig p /\ solid (trash w) p = None) \/
    (solid (live w) p = None /\ solid (trash w) p = orig p);
  journal_sound : forall doc e, journal w = HasJournal doc -> e ∈ entries doc -> sound_move orig e;
}.

Lemma solid_insert_dir t q p : t !! q = None -> solid (<[q := Directory]> t) p = solid t p.
Proof.
  intros Hq. unfold solid. destruct (decide (p = q)) as [->|Hne].
  - by rewrite lookup_insert_eq, Hq.
  - by rewrite lookup_insert_ne by congruence.
Qed.

(** Steps that leave the trees and the journal alone. *)
Lemma keeps_on_dir {A} (P : World -> Prop) (m : stm Dir A) :
  (forall w d, P w -> P (set_dir d w)) -> keeps P (on_dir m).
Proof. intros H w r w' Hw. unfold on_dir. destruct (m (dir w)) as [r0 d]. intros [= <- <-]. by apply H. Qed.

Lemma keeps_change (P : World -> Prop) f :
  (forall w d, P w -> P (set_dir d w)) -> (forall w, P w -> P (f w)) -> keeps P (change f).
Proof.
  intros Hd Hf. apply keeps_bind; [by apply keeps_on_dir|]. intros _. by apply keeps_modify.
Qed.

Lemma change_run f w r w' : change f w = (r, w') ->
  (exists d, r = Ok tt /\ w' = f (set_dir d w) /\ manifest d = manifest (dir w)) \/
  (exists d e, r = Err e /\ w' = set_dir d w /\ manifest d = manifest (dir w)).
Proof.
  unfold change, mbind, stm_bind, on_dir.
  destruct (spend (dir w)) as [[[]|e] d] eqn:E; apply spend_manifest in E; intros [= <- <-].
  - left. by exists d.
  - right. by exists d, e.
Qed.

Lemma keeps_finally {A} (P : World -> Prop) (body : stm World A) cleanup :
  keeps P body -> keeps P cleanup -> keeps P (finally living body cleanup).
Proof.
  intros Hb Hc w r w' Hw. unfold finally. destruct (body w) as [r1 w1] eqn:E1.
  pose proof (Hb _ _ _ Hw E1) as Hw1. destruct (living w1); [|by intros [= <- <-]].
  destruct (cleanup w1) as [r2 w2] eqn:E2. pose proof (Hc _ _ _ Hw1 E2) as Hw2.
  destruct r2; by intros [= <- <-].
Qed.

(** Making directories changes no solid node. *)
Lemma keeps_make_dirs (P : World -> Prop) get_t set_t (l : list path) :
  (forall w d, get_t (set_dir d w) = get_t w) -> (forall w d, P w -> P (set_dir d w)) ->
  (forall w q, q ∈ l -> P w -> get_t w !! q = None -> P (set_t (<[q := Directory]> (get_t w)) w)) ->
  keeps P (iterM (make_dir get_t set_t) l).
Proof.
  intros Hg Hd Hs. induction l as [|q l IH]; cbn [iterM]; [apply keeps_ret|].
  apply keeps_bind; [|intros _; apply IH; intros w q' Hq'; apply Hs; set_solver].
  intros w r w' Hw. unfold make_dir, mbind, stm_bind, get.
  destruct (get_t w !! q) as [[c n|[]| |]|] eqn:E; try (intros [= <- <-]; done).
  intros [(d & -> & -> & _)|(d & e & -> & -> & _)]%change_run; [|by apply Hd].
  apply Hs; [set_solver|by apply Hd|by rewrite Hg].
Qed.

Lemma solid_delete t q p : solid (delete q t) p = if decide (p = q) then None else solid t p.
Proof.
  unfold solid. destruct (decide (p = q)) as [->|Hne]; [by rewrite lookup_delete_eq|].
  by rewrite lookup_delete_ne by congruence.
Qed.

Lemma solid_insert t q n p : n <> Directory -> solid (<[q := n]> t) p = if decide (p = q) then Some n else solid t p.
Proof.
  intros Hn. unfold solid. destruct (decide (p = q)) as [->|Hne]; [|by rewrite lookup_insert_ne by congruence].
  rewrite lookup_insert_eq. by destruct n.
Qed.

Lemma check_source_Ok t e rel u :
  rel_ok (m_path e) = Ok rel -> check_source t e = Ok u ->
  no_symlink_chain t rel = true /\ exists c n, t !! rel = Some (File c n) /\
    (n <= 1)%nat /\ is_int (Some (m_bytes e)) (Z.of_nat (String.length c)) = true.
Proof.
  intros Hrel. unfold check_source. rewrite Hrel. cbn [mbind result_bind].
  destruct (no_symlink_chain t rel); [|done]. cbn [negb].
  destruct (t !! rel) as [[c n| | |]|]; try done.
  destruct (Nat.ltb_spec 1 n); [done|]. destruct (is_int _ _) eqn:Hb; [|done]. intros _.
  split; [done|]. exists c, n. split_and!; [done|lia|done].
Qed.

Section Intact.
Context (sha256 : string -> string) (show_g show_1f : float -> string) (kinds : list string)
        (root kind name : string) (same_fs : bool) (orig : path -> option node).

Notation ok := (intact orig).

Lemma intact_dir w d : ok w -> ok (set_dir d w).
Proof. intros [H1 H2]. by split. Qed.

Lemma intact_gc w b : ok w -> ok (set_gc b w).
Proof. intros [H1 H2]. by split. Qed.

Hint Resolve intact_dir intact_gc : core.

Lemma keeps_gc_lock {A} (P : World -> Prop) (body : stm World A) :
  (forall w d, P w -> P (set_dir d w)) -> (forall w b, P w -> P (set_gc b w)) ->
  keeps P body -> keeps P (with_gc_lock root body).
Proof.
  intros Hd Hg Hb. apply keeps_bind; [apply keeps_get|]. intros w. destruct (gc_locked w); [apply keeps_raise|].
  apply keeps_bind; [apply keeps_change; auto|]. intros _.
  apply keeps_finally; [done|]. apply keeps_change; auto.
Qed.

Lemma intact_journal w doc : ok w -> Forall (sound_move orig) (entries doc) -> ok (set_journal (HasJournal doc) w).
Proof.
  intros [H1 H2] Hd. split; [done|]. intros doc' e [= <-] Hin. rewrite Forall_forall in Hd. by apply Hd.
Qed.

Lemma keeps_write_journal doc : Forall (sound_move orig) (entries doc) -> keeps ok (write_journal doc).
Proof. intros Hd. apply keeps_change; [auto|]. intros w Hw. by apply intact_journal. Qed.

(** A loop over sound entries. *)
Lemma keeps_each_entry {A} (P : World -> Prop) (step : A -> Move -> stm World (A * Move)) doc acc before todo :
  (forall doc, Forall (sound_move orig) (entries doc) -> keeps P (write_journal doc)) ->
  (forall acc e, sound_move orig e ->
     hoare P (step acc e) (fun r w => P w /\ forall acc' e', r = Ok (acc', e') -> sound_move orig e')) ->
  Forall (sound_move orig) before -> Forall (sound_move orig) todo ->
  hoare P (each_entry step doc acc before todo)
    (fun r w => P w /\ forall acc' es, r = Ok (acc', es) -> Forall (sound_move orig) es).
Proof.
  intros Hj Hstep. revert acc before. induction todo as [|e todo IH]; intros acc before Hb Ht; cbn [each_entry].
  { intros w r w' Hw [= <- <-]. split; [done|]. by intros acc' es [= <- <-]. }
  apply Forall_cons in Ht as [He Ht]. eapply hoare_bind; [by apply Hstep| |].
  - intros [acc' e']. eapply (hoare_weaken (fun w => sound_move orig e' /\ P w)); [| |intros r w Hq; exact Hq];
      [|intros w [Hw He']; split; [by eapply He'|done]].
    apply hoare_pure. intros He'. eapply hoare_bind; [apply hoare_keeps, Hj|intros u; apply IH|].
    + cbn [with_entries entries]. apply Forall_app. split; [done|by constructor].
    + apply Forall_app. split; [done|by constructor].
    + done.
    + intros e0 w Hw. by split.
  - intros e0 w [Hw _]. by split.
Qed.

Lemma intact_live_dir w q : ok w -> live w !! q = None -> ok (set_live (<[q := Directory]> (live w)) w).
Proof. intros [H1 H2] Hq. split; [|done]. intros p. cbn. rewrite solid_insert_dir by done. apply H1. Qed.

Lemma intact_trash_dir w q : ok w -> trash w !! q = None -> ok (set_trash (<[q := Directory]> (trash w)) w).
Proof. intros [H1 H2] Hq. split; [|done]. intros p. cbn. rewrite solid_insert_dir by done. apply H1. Qed.

(** The world before the rename of a file. *)
Definition ready_to_move (forward : bool) (rel : path) (w : World) : Prop :=
  ok w /\ exists c n, (if forward then live w else trash w) !! rel = Some (File c n) /\
    (if forward then trash w else live w) !! rel = None.

Lemma rename_intact forward rel w :
  ready_to_move forward rel w ->
  ok (if forward then let '(l, t) := rename (live w) (trash w) rel in set_trees l t w
      else let '(t, l) := rename (trash w) (live w) rel in set_trees l t w).
Proof.
  intros ([H1 H2] & c & n & Hh & Ht). unfold rename.
  destruct forward; rewrite Hh; (split; [|done]); intros p; cbn;
    rewrite solid_delete, solid_insert by done; destruct (decide (p = rel)) as [->|]; auto;
    unfold solid in H1; specialize (H1 rel); rewrite Hh, Ht in H1; intuition congruence.
Qed.

Lemma carry_intact forward e rel : hoare (ready_to_move forward rel) (carry forward e rel) (fun _ => ok).
Proof.
  assert (forall w d, ready_to_move forward rel w -> ready_to_move forward rel (set_dir d w)) as Hd.
  { intros w d [Hw H]. split; [by apply intact_dir|done]. }
  apply (hoare_bind _ _ _ (fun _ => ready_to_move forward rel)); [apply hoare_keeps, keeps_get|intros w|by intros ? ? []].
  apply (hoare_bind _ _ _ (fun _ => ready_to_move forward rel)); [|intros _|by intros ? ? []].
  { apply hoare_keeps. repeat keeps_step. }
  apply (hoare_bind _ _ _ (fun _ => ready_to_move forward rel)); [|intros _|by intros ? ? []].
  { apply hoare_keeps. destruct forward; apply keeps_make_dirs; try done;
      intros w1 q Hq%above_ne [Hw (c & n & Hh & Ht)] Hn; (split; [by apply intact_trash_dir || apply intact_live_dir|]);
      exists c, n; cbn; by rewrite lookup_insert_ne by done. }
  intros w1 r w2 Hr [(d & -> & -> & _)|(d & x & -> & -> & _)]%change_run.
  - by apply rename_intact, Hd.
  - by apply intact_dir, Hr.
Qed.

(** A move keeps everything in one place. *)
Lemma move_intact forward e :
  sound_move orig e ->
  hoare ok (move forward e) (fun r w => ok w /\ forall e', r = Ok e' -> sound_move orig e').
Proof.
  intros (rel & c & n & Hrel & Ho) w r w' Hw.
  assert (sound_move orig (mkMove (m_path e) (m_bytes e) (if forward then "moved" else "pending"))) as Hs
    by (by exists rel, c, n).
  unfold move. rewrite Hrel. unfold mbind, stm_bind, lift, get.
  set (here := if forward then live w else trash w). set (there := if forward then trash w else live w).
  destruct (lexists here rel) eqn:Hh; cbn [negb].
  2:{ destruct (lexists there rel); intros [= <- <-]; (split; [done|]); [by intros e' [= <-]|done]. }
  destruct (lexists there rel) eqn:Ht; [by intros [= <- <-]|].
  assert (ready_to_move forward rel w) as Hready.
  { split; [done|]. apply bool_decide_eq_true in Hh as [x Hx]. apply bool_decide_eq_false, eq_None_not_Some in Ht.
    exists c, n. split; [|done]. destruct Hw as [H1 _]. specialize (H1 rel). unfold solid, here, there in *.
    destruct forward; rewrite Hx, Ht, Ho in H1; destruct H1 as [[? ?]|[? ?]]; destruct x; congruence. }
  destruct (carry forward e rel w) as [r1 w1] eqn:Ec.
  pose proof (carry_intact forward e rel w r1 w1 Hready Ec) as Hw1.
  destruct r1; intros [= <- <-]; (split; [done|]); [by intros e' [= <-]|done].
Qed.

(** What was planned was checked. *)
Lemma plan_of_checked bundle rest policy now run_id m l f es :
  plan_of sha256 show_g show_1f kinds root kind name bundle rest policy now run_id m l f = Ok es ->
  exists u, mapR (check_source l) es = Ok u.
Proof.
  unfold plan_of. intros (inv & _ & H)%bind_Ok. apply bind_Ok in H as (pl & _ & H).
  destruct (List.find _ _) as [d|]; [|done]. destruct (bool_decide _); [done|].
  apply bind_Ok in H as (refs & _ & H). destruct (bool_decide _); [done|].
  apply bind_Ok in H as (es' & _ & H). apply bind_Ok in H as (u & Hu & [= <-]). by exists u.
Qed.

Lemma checked_sound w es u :
  ok w -> mapR (check_source (live w)) es = Ok u -> Forall (sound_move orig) es.
Proof.
  intros Hw H. apply mapR_Ok in H. apply Forall_forall. intros e He.
  apply list_elem_of_lookup in He as [i Hi]. destruct (Forall2_lookup_l _ _ _ _ _ H Hi) as (x & _ & Hx).
  assert (exists rel, rel_ok (m_path e) = Ok rel) as [rel Hrel].
  { unfold check_source in Hx. apply bind_Ok in Hx as (rel & Hr & _). by exists rel. }
  destruct (check_source_Ok _ _ _ _ Hrel Hx) as (_ & c & n & Hl & _).
  exists rel, c, n. split; [done|]. destruct Hw as [H1 _]. specialize (H1 rel). unfold solid in H1.
  rewrite Hl in H1. by destruct H1 as [[<- _]|[? _]].
Qed.

Lemma move_all_intact forward doc :
  Forall (sound_move orig) (entries doc) ->
  hoare ok (move_all forward doc) (fun r w => ok w /\ forall doc', r = Ok doc' -> Forall (sound_move orig) (entries doc')).
Proof.
  intros Hd. unfold move_all. eapply hoare_bind.
  - apply (keeps_each_entry ok); [apply keeps_write_journal| |constructor|done].
    intros [] e He. eapply hoare_bind; [by apply move_intact|intros e'|by intros ? ? [? _]].
    intros w r w' [Hw He'] [= <- <-]. split; [done|]. intros acc' e'' [= <- <-]. by apply He'.
  - intros [acc es] w r w' [Hw Hes] [= <- <-]. split; [done|]. intros doc' [= <-]. by eapply Hes.
  - by intros e w [Hw _].
Qed.

Lemma perform_intact bundle rest policy apply now m id run_id j :
  (forall doc, j = Some doc -> Forall (sound_move orig) (entries doc)) ->
  keeps ok (perform sha256 show_g show_1f kinds root kind name same_fs bundle rest policy apply now m id run_id j).
Proof.
  intros Hj. unfold perform.
  apply (keeps_hoare _ _ (fun _ => ok)); [|done].
  apply (hoare_bind _ _ _ (fun r w => ok w /\ forall es, r = Ok es -> Forall (sound_move orig) es)).
  { destruct j as [doc|].
    - intros w r w' Hw [= <- <-]. split; [done|]. intros es [= <-]. by apply Hj.
    - intros w r w' Hw [= <- <-]. split; [done|].
      intros es (u & Hu)%plan_of_checked. by eapply checked_sound. }
  2:{ by intros ? ? [? _]. }
  intros es. eapply (hoare_weaken (fun w => Forall (sound_move orig) es /\ ok w));
    [| |by intros ? ? Hs; exact Hs].
  2:{ intros w [Hw Hes]. split; [by apply Hes|done]. }
  apply hoare_pure. intros Hes. apply hoare_keeps.
  apply keeps_bind; [apply keeps_lift|intros sizes]. destruct apply; cbn [negb]; [|apply keeps_ret].
  apply keeps_bind; [apply keeps_change; auto|intros _]. destruct same_fs; cbn [negb]; [|apply keeps_raise].
  apply (keeps_hoare _ _ (fun _ => ok)); [|done].
  apply (hoare_bind _ _ _ (fun r w => ok w /\ forall doc, r = Ok doc -> Forall (sound_move orig) (entries doc))).
  { intros w r w' Hw [= <- <-]. split; [done|]. intros doc Hdoc. destruct j as [doc0|].
    - injection Hdoc as <-. by apply Hj.
    - apply bind_Ok in Hdoc as (h & _ & Hdoc). by apply bind_Ok in Hdoc as (b & _ & [= <-]). }
  2:{ by intros ? ? [? _]. }
  intros doc. eapply (hoare_weaken (fun w => Forall (sound_move orig) (entries doc) /\ ok w));
    [| |by intros ? ? Hs; exact Hs].
  2:{ intros w [Hw Hd]. split; [by apply Hd|done]. }
  apply hoare_pure. intros Hd. apply hoare_keeps.
  apply keeps_bind; [by apply keeps_write_journal|intros _].
  apply keeps_bind; [|intros _].
  { eapply keeps_hoare; [by apply move_all_intact|by intros ? ? [? _]]. }
  apply keeps_bind; [apply keeps_lift|intros gen].
  apply keeps_bind; [apply keeps_on_dir; auto|intros _]. apply keeps_ret.
Qed.

Lemma require_idle_keeps P blocked : keeps P (require_idle blocked).
Proof. unfold require_idle. repeat keeps_step. Qed.

Lemma read_journal_intact :
  hoare ok read_journal (fun r w => ok w /\ forall doc, r = Ok (Some doc) -> Forall (sound_move orig) (entries doc)).
Proof.
  intros w r w' Hw. unfold read_journal, mbind, stm_bind, get.
  destruct (journal w) as [|e|doc] eqn:Ej; intros [= <- <-]; (split; [done|]); [done|done|].
  intros doc' [= <-]. apply Forall_forall. intros e He. by eapply (journal_sound _ _ Hw).
Qed.

Lemma quarantine_intact bundle rest policy blocked apply now :
  keeps ok (quarantine sha256 show_g show_1f kinds root kind name same_fs bundle rest policy blocked apply now).
Proof.
  apply keeps_bind; [apply require_idle_keeps|intros _]. apply keeps_gc_lock; [auto|auto|].
  apply keeps_bind; [apply keeps_on_dir; auto|intros m]. do 2 (apply keeps_bind; [apply keeps_lift|intros ?]).
  eapply keeps_hoare; [|by intros ? ? Hs; exact Hs].
  eapply hoare_bind; [apply read_journal_intact| |by intros ? ? [? _]].
  intros j. eapply (hoare_weaken (fun w => (forall doc, j = Some doc -> Forall (sound_move orig) (entries doc)) /\ ok w));
    [| |by intros ? ? Hs; exact Hs].
  2:{ intros w [Hw Hd]. split; [|done]. intros doc ->. by apply Hd. }
  apply hoare_pure. intros Hj. apply hoare_keeps.
  apply keeps_bind; [apply keeps_lift|intros state].
  destruct (_ && _); [apply keeps_ret|]. destruct (_ && _); [apply keeps_raise|]. by apply perform_intact.
Qed.

Lemma retire_intact doc w : ok w -> ok (retire doc w).
Proof. intros [H1 H2]. by split. Qed.

Lemma restore_intact blocked now : keeps ok (restore root kind name blocked now).
Proof.
  apply keeps_bind; [apply require_idle_keeps|intros _]. apply keeps_gc_lock; [auto|auto|].
  apply keeps_bind; [apply keeps_on_dir; auto|intros m]. apply keeps_bind; [apply keeps_lift|intros state].
  destruct (negb _); [apply keeps_raise|]. apply keeps_bind; [apply keeps_lift|intros id].
  eapply keeps_hoare; [|by intros ? ? Hs; exact Hs].
  eapply hoare_bind; [apply read_journal_intact| |by intros ? ? [? _]].
  intros j. eapply (hoare_weaken (fun w => (forall doc, j = Some doc -> Forall (sound_move orig) (entries doc)) /\ ok w));
    [| |by intros ? ? Hs; exact Hs].
  2:{ intros w [Hw Hd]. split; [|done]. intros doc ->. by apply Hd. }
  apply hoare_pure. intros Hj. apply hoare_keeps. destruct j as [doc|]; [|apply keeps_raise].
  apply (keeps_hoare _ _ (fun _ => ok)); [|done].
  eapply hoare_bind; [by apply move_all_intact, Hj| |by intros ? ? [? _]].
  intros doc'. eapply (hoare_weaken (fun w => Forall (sound_move orig) (entries doc') /\ ok w));
    [| |by intros ? ? Hs; exact Hs].
  2:{ intros w [Hw Hd]. split; [by apply Hd|done]. }
  apply hoare_pure. intros Hd. apply hoare_keeps.
  apply keeps_bind; [by apply keeps_write_journal|intros _].
  apply keeps_bind; [apply keeps_change; [auto|apply retire_intact]|intros _].
  apply keeps_bind; [apply keeps_lift|intros gen].
  apply keeps_bind; [apply keeps_on_dir; auto|intros _]. apply keeps_ret.
Qed.
End Intact.

(** ** Histories *)

(** A process that will die after [b] writes, if it does. *)
Definition start (b : option nat) (w : World) : World :=
  set_dir (mkDir (manifest (dir w)) (manifest_lock (dir w)) b true) w.

Section Steps.
Context (sha256 : string -> string) (show_g show_1f : float -> string) (kinds : list string)
        (root kind name : string) (same_fs : bool).

(** What may happen to the run: a quarantine or a restore, by a process that
    may die at any of its writes; any change of its manifest and of the lock on
    it by other commands; and the operator removing the lock of the workspace. *)
Inductive step (w : World) : World -> Prop :=
| step_quarantine b bundle rest policy blocked apply now :
    step w (quarantine sha256 show_g show_1f kinds root kind name same_fs bundle rest policy blocked apply now
              (start b w)).2
| step_restore b blocked now : step w (restore root kind name blocked now (start b w)).2
| step_manifest d : step w (set_dir d w)
| step_unlock : step w (set_gc false w).

Lemma step_intact orig w w' : step w w' -> intact orig w -> intact orig w'.
Proof.
  intros H Hw. assert (forall b, intact orig (start b w)) as Hs by (intros b; by apply intact_dir).
  destruct H as [b bundle rest policy blocked apply now|b blocked now|d|].
  - destruct (quarantine _ _ _ _ _ _ _ _ _ _ _ _ _ _ _) as [r w'] eqn:E.
    eapply quarantine_intact; [apply (Hs b)|exact E].
  - destruct (restore _ _ _ _ _ _) as [r w'] eqn:E. eapply (restore_intact sha256); [apply (Hs b)|exact E].
  - by apply intact_dir.
  - by apply intact_gc.
Qed.

(** C4 Nothing is lost, whatever happens: after any sequence of quarantines
    and restores of a run, each of them by a process that may die at any write,
    with any change of the manifest and any removal of locks in between, every
    file and link of the run directory is, as it was, either still at its place
    or at the same path in the trash, and never in both; and nothing else has
    appeared in either. *)
Theorem quarantine_loses_nothing w w' :
  trash w = ∅ -> journal w = NoJournal -> rtc step w w' ->
  forall p, (solid (live w') p = solid (live w) p /\ solid (trash w') p = None) \/
            (solid (live w') p = None /\ solid (trash w') p = solid (live w) p).
Proof.
  intros Ht Hj Hsteps.
  assert (intact (solid (live w)) w) as Hw.
  { split; [|intros doc e H; congruence]. intros p. left. split; [done|]. unfold solid. by rewrite Ht. }
  assert (intact (solid (live w)) w') as [H _]; [|exact H].
  revert Hw. generalize (solid (live w)) as orig. intros orig. clear Ht Hj.
  induction Hsteps; [done|]. intros Hw. by eapply IHHsteps, step_intact.
Qed.

End Steps.

(** ** Purging *)

Section Purge.
Context (root kind name : string).

(** Only the locks, the budget and directories differ. *)
Record same_run (w w1 : World) : Prop := {
  same_manifest : manifest (dir w1) = manifest (dir w);
  same_live : live w1 = live w;
  same_trash : trash w1 = trash w;
  same_journal : journal w1 = journal w;
}.

(** The conditions of a purge, of the world it starts in. *)
Record may_purge (rest : Layout) (grace_days now : float) (blocked : option string) (w : World)
    (doc : JournalDoc) : Prop := {
  mp_idle : opt_truthy blocked = false;
  mp_unlocked : gc_locked w = false;
  mp_journal : journal w = HasJournal doc /\ all_in "moved" doc = true;
  mp_manifest : exists m id retention since,
    read_file (manifest_path (run_dir root kind name)) (manifest (dir w)) = Ok m /\
    retention_state m = Ok "quarantined" /\ item m "retention" = Ok retention /\
    dot_get retention "quarantined_at" = Ok since /\ in_grace since now grace_days = Ok false /\
    (exists hold, dot_get retention "hold" = Ok hold /\ jtruthy hold = false) /\
    item m "run_id" = Ok (JStr id) /\
    inbound_of root kind name rest (manifest (dir w)) id = Ok [];
}.

Definition listed (doc : JournalDoc) (p : path) : Prop :=
  exists e, e ∈ entries doc /\ rel_ok (m_path e) = Ok p.

(** The trash of [w] up to what the journal lists. *)
Record purged_from (w : World) (doc : JournalDoc) (w1 : World) : Prop := {
  pf_live : live w1 = live w;
  pf_trash : forall p, solid (trash w1) p = solid (trash w) p \/ (listed doc p /\ solid (trash w1) p = None);
}.

Lemma solid_prune t p : solid (prune_empty t) p = solid t p.
Proof.
  unfold prune_empty, solid. destruct (t !! p) as [n|] eqn:E.
  - destruct (decide (n = Directory)) as [->|Hn].
    + destruct (filter _ t !! p) as [n|] eqn:F; [|done]. apply map_lookup_filter_Some in F as [F _].
      rewrite E in F. by injection F as <-.
    + rewrite (proj2 (map_lookup_filter_Some _ t p n)); [done|]. split; [done|]. by left.
  - rewrite (proj2 (map_lookup_filter_None _ t p)); [done|]. by left.
Qed.

Lemma purged_dir w doc w1 d : purged_from w doc w1 -> purged_from w doc (set_dir d w1).
Proof. intros [H1 H2]. by split. Qed.

Lemma purge_one_keeps w doc freed e :
  e ∈ entries doc -> keeps (purged_from w doc) (purge_one freed e).
Proof.
  intros He w1 r w2 Hw1. unfold purge_one, mbind at 1, stm_bind at 1, lift.
  destruct (rel_ok (m_path e)) as [rel|x] eqn:Hrel; [|by intros [= <- <-]].
  unfold mbind at 1, stm_bind at 1, get. destruct (trash w1 !! rel) as [[c n| | |]|] eqn:E; try by intros [= <- <-].
  intros Hrun. eapply (keeps_bind (purged_from w doc)); [|intros; apply keeps_ret|exact Hw1|exact Hrun].
  apply keeps_change; [by intros ? ?; apply purged_dir|]. intros w3 [H1 H2]. split; [done|].
  intros p. cbn. rewrite solid_delete. destruct (decide (p = rel)) as [->|]; [|apply H2].
  right. split; [by exists e|done].
Qed.

Lemma each_purge_keeps w doc doc' freed before todo :
  (forall e, e ∈ todo -> e ∈ entries doc) ->
  keeps (purged_from w doc) (each_entry purge_one doc' freed before todo).
Proof.
  revert freed before. induction todo as [|e todo IH]; intros freed before Hin; cbn [each_entry]; [apply keeps_ret|].
  apply keeps_bind; [apply purge_one_keeps, Hin; set_solver|intros [freed' e']].
  apply keeps_bind; [|intros u; apply IH; intros; apply Hin; set_solver].
  apply keeps_change; [by intros ? ?; apply purged_dir|]. by intros ? [H1 H2]; split.
Qed.

Section PurgeRules.
Context (w : World) (Q : World -> Prop) (HQ : forall w1, same_run w w1 -> Q w1).

Notation triple m := (hoare (same_run w) m (fun _ => Q)).

Lemma same_run_dir w1 d : same_run w w1 -> manifest d = manifest (dir w1) -> same_run w (set_dir d w1).
Proof. intros [H1 H2 H3 H4] Hd. split; cbn; congruence. Qed.

Lemma change_same f : (forall w1, same_run w w1 -> same_run w (f w1)) -> keeps (same_run w) (change f).
Proof.
  intros Hf w1 r w2 Hw. unfold change, mbind, stm_bind, on_dir.
  destruct (spend (dir w1)) as [[[]|e] d] eqn:E; apply spend_manifest in E; intros [= <- <-];
    [apply Hf|]; by apply same_run_dir.
Qed.

Lemma lift_rule {A B} (m : res A) (f : A -> stm World B) :
  (forall a, m = Ok a -> triple (f a)) -> triple (lift m ≫= f).
Proof. intros H. apply hoare_lift; auto. Qed.

Lemma raise_rule {A} e : triple (raise (A:=A) e).
Proof. intros w1 r w2 Hw [= <- <-]. by apply HQ. Qed.

Lemma read_manifest_rule {B} (f : obj -> stm World B) :
  (forall m, read_file (manifest_path (run_dir root kind name)) (manifest (dir w)) = Ok m -> triple (f m)) ->
  triple (on_dir (read_manifest (run_dir root kind name)) ≫= f).
Proof.
  intros H w1 r w2 Hw. unfold read_manifest, on_dir, mbind at 1, stm_bind at 1.
  unfold mbind, stm_bind, get, lift. rewrite (same_manifest _ _ Hw).
  assert (same_run w (set_dir (dir w1) w1)) by by apply same_run_dir.
  destruct (read_file _ _) as [m|e]; [by apply H|]. intros [= <- <-]. by apply HQ.
Qed.

Lemma references_rule {B} rest id (f : list string -> stm World B) :
  (forall refs, inbound_of root kind name rest (manifest (dir w)) id = Ok refs -> triple (f refs)) ->
  triple (inbound_references root kind name rest id ≫= f).
Proof.
  intros H w1 r w2 Hw. unfold inbound_references, mbind, stm_bind, get, lift. rewrite (same_manifest _ _ Hw).
  destruct (inbound_of _ _ _ _ _ _) as [refs|e]; [by apply H|]. intros [= <- <-]. by apply HQ.
Qed.

Lemma journal_rule {B} (f : option JournalDoc -> stm World B) :
  (forall j, (forall doc, j = Some doc -> journal w = HasJournal doc) -> triple (f j)) ->
  triple (read_journal ≫= f).
Proof.
  intros H w1 r w2 Hw. unfold read_journal, mbind, stm_bind, get. rewrite (same_journal _ _ Hw).
  destruct (journal w) as [|e|doc]; [by apply H| |].
  - intros [= <- <-]. by apply HQ.
  - apply H; [|done]. by intros doc' [= ->].
Qed.

Lemma gc_lock_rule {A} (body : stm World A) :
  (forall w1 d, Q w1 -> Q (set_dir d w1)) -> (forall w1, Q w1 -> Q (set_gc false w1)) ->
  (gc_locked w = false -> triple body) ->
  hoare (fun w1 => same_run w w1 /\ gc_locked w1 = gc_locked w) (with_gc_lock root body) (fun _ => Q).
Proof.
  intros Hd Hg Hb w1 r w2 [Hw Hl]. unfold with_gc_lock, mbind at 1, stm_bind at 1, get. rewrite Hl.
  destruct (gc_locked w); [intros [= <- <-]; by apply HQ|]. specialize (Hb eq_refl).
  intros Hrun. eapply (hoare_bind (same_run w) _ _ (fun _ => same_run w) (fun _ => Q)); [| | |exact Hw|exact Hrun].
  - apply hoare_keeps, change_same. by intros w3 [H1 H2 H3 H4]; split.
  - intros _ w3 r3 w4 Hw3. unfold finally. destruct (body w3) as [r5 w5] eqn:E.
    pose proof (Hb _ _ _ Hw3 E) as Hw5. destruct (living w5); [|by intros [= <- <-]].
    destruct (change (set_gc false) w5) as [r6 w6] eqn:E6.
    assert (Q w6) by (eapply (keeps_change Q); [apply Hd|apply Hg|exact Hw5|exact E6]).
    destruct r6; by intros [= <- <-].
  - by intros e w3 Hw3; apply HQ.
Qed.
End PurgeRules.

End Purge.

(** ** Witnesses *)

Definition demo_sha (s : string) : string := "sha:" +:+ s.

Definition demo_bundle_fields (id : string) : obj :=
  [("schema_version", JInt 1); ("bundle_id", JStr id); ("run_id", JStr "k2"); ("kind", JStr "kl");
   ("recipe", JObj [("id", JStr "kl/v1"); ("sha256", JStr "r")]); ("diagnostic_only", JBool false);
   ("files", JArr []);
   ("bulk", JArr [JObj [("path", JStr "a/x.log"); ("bytes", JInt 3)];
                  JObj [("path", JStr "y.log"); ("bytes", JInt 2)]])].

Definition demo_id : string :=
  match Harvest.lacks demo_sha (demo_bundle_fields "") with Ok id => id | Err _ => "" end.

Definition demo_bundle : Harvest.Bundle :=
  Harvest.mkBundle (Harvest.BundleDoc (JObj (demo_bundle_fields demo_id))) ∅.

Definition demo_run_manifest : json :=
  match demo_manifest "kl" "k2" "2026-01-02T00:00:00Z" [] [] with
  | JObj o => JObj (dict_set o "harvest" (JObj [("state", JStr "verified"); ("bundle_id", JStr demo_id)]))
  | v => v
  end.

Definition demo_world : World :=
  mkWorld (mkDir (Readable demo_run_manifest) false None true)
    (<[["a"] := Directory]> (<[["a"; "x.log"] := File "abc" 1]> (<[["y.log"] := File "de" 1]>
       (<[["k.json"] := File "{}" 1]> ∅))))
    ∅ NoJournal [] false.

Definition demo_quarantine : stm World Outcome :=
  quarantine demo_sha demo_show demo_show RUN_KINDS "/w" "kl" "k2" true demo_bundle (demo_layout [])
    demo_policy None true demo_now.
Definition demo_later : float := float_of_Z 1788960000.
Definition demo_restore : stm World Outcome := restore "/w" "kl" "k2" None demo_now.

(** A purge more than a day later. *)
Definition demo_purge : stm World Outcome :=
  purge "/w" "kl" "k2" demo_show (demo_layout []) (float_of_Z 1) None demo_later.

(** After a process has died: the operator removes the locks. *)
Definition unlocked (w : World) : World := set_gc false (set_dir (set_lock false (dir w)) w).

Definition demo_moved : World := (demo_quarantine (start None demo_world)).2.

Example demo_moved_trees :
  lexists (live demo_moved) ["y.log"] = false /\ trash demo_moved !! ["a"; "x.log"] = Some (File "abc" 1) /\
  live demo_moved !! ["k.json"] = Some (File "{}" 1).
Proof. vm_compute. done. Qed.

(** Back again, byte for byte. *)
Example demo_restored :
  map_to_list (live (demo_restore (start None demo_moved)).2) = map_to_list (live demo_world).
Proof. vm_compute. done. Qed.

(** Killed after the seventh write, in the middle of the moves. *)
Definition demo_killed : World := (demo_quarantine (start (Some 7) demo_world)).2.

Lemma quarantine_loses_nothing_witness :
  rtc (step demo_sha demo_show demo_show RUN_KINDS "/w" "kl" "k2" true) demo_world demo_killed /\
  alive (dir demo_killed) = false /\
  solid (live demo_killed) ["a"; "x.log"] = None /\ solid (trash demo_killed) ["a"; "x.log"] = Some (File "abc" 1).
Proof.
  assert (rtc (step demo_sha demo_show demo_show RUN_KINDS "/w" "kl" "k2" true) demo_world demo_killed) as H.
  { apply rtc_once. exact (step_quarantine demo_sha demo_show demo_show RUN_KINDS "/w" "kl" "k2" true demo_world
      (Some 7) demo_bundle (demo_layout []) demo_policy None true demo_now). }
  split; [exact H|]. split; [vm_compute; reflexivity|].
  destruct (quarantine_loses_nothing demo_sha demo_show demo_show RUN_KINDS "/w" "kl" "k2" true
    demo_world demo_killed eq_refl eq_refl H ["a"; "x.log"]) as [[Hl _]|[Hl Ht]].
  - exfalso. revert Hl. vm_compute. discriminate.
  - split; [exact Hl|]. rewrite Ht. vm_compute. reflexivity.
Defined.

Definition demo_purged : World := (demo_purge (start None demo_moved)).2.


(** A restore that dies between the rename of the journal and the update of the
    manifest leaves a run that is quarantined without a journal, though its
    files are back: no operation accepts it any more. *)
Definition half_restored : World := unlocked (demo_restore (start (Some 7) demo_moved)).2.

Example half_restored_is_stuck :
  lexists (live half_restored) ["y.log"] = true /\ journal half_restored = NoJournal /\
  (demo_restore (start None half_restored)).1 = Err (QuarantineError "no journal for this quarantine") /\
  is_ok (demo_quarantine (start None half_restored)).1 = false /\
  (demo_purge (start None half_restored)).1
  = Err (QuarantineError "the journal does not show a complete quarantine").
Proof. vm_compute. done. Qed.

(** A purge that dies after its first file can neither be finished nor undone. *)
Definition half_purged : World := unlocked (demo_purge (start (Some 4) demo_moved)).2.

Example half_purged_is_stuck :
  (demo_purge (start None half_purged)).1
  = Err (QuarantineError "the journal does not show a complete quarantine") /\
  (demo_restore (start None half_purged)).1
  = Err (QuarantineError "a/x.log is in neither place; the journal and the disk disagree") /\
  (demo_quarantine (start None half_purged)).1
  = Err (QuarantineError "a/x.log is in neither place; the journal and the disk disagree").
Proof. vm_compute. done. Qed.

End Quarantine.
