(* ===== verification/Recovery.v ===== *)
(** Recovery of an interrupted quarantine:
    [src/tools/bigcherry/core/quarantine.py].

    Wherever a quarantine dies, running it again completes it.  The proof
    follows the files of the plan: each of them is either still in the run
    directory, as it was checked, or already in the trash. *)

From S2P Require Import Prelude Json Clock Manifest Retention Harvest Quarantine.
Import Json Clock Manifest Retention Quarantine.

Module Recovery.

(** ** The files of a plan *)

(** What a move needs of an entry: its path and its size. *)
Definition core (e : Move) : string * json := (m_path e, m_bytes e).

(** The file of an entry is at one of its two places, and the way to the other
    is free. *)
Definition in_order (l t : tree) (c : string * json) : Prop :=
  exists rel, rel_ok c.1 = Ok rel /\
    (forall q, q ∈ above rel -> is_link (l !! q) = false /\ (t !! q = None \/ t !! q = Some Directory)) /\
    ((exists x n, l !! rel = Some (File x n) /\ n <= 1 /\
        is_int (Some c.2) (Z.of_nat (String.length x)) = true /\ t !! rel = None) \/
     (l !! rel = None /\ exists x n, t !! rel = Some (File x n))).

(** The files [cs] are in order, and the rest of the run directory is as in [l0]. *)
Definition ordered (cs : list (string * json)) (l0 : tree) (w : World) : Prop :=
  (forall c, c ∈ cs -> in_order (live w) (trash w) c) /\
  (forall p, (forall c, c ∈ cs -> rel_ok c.1 <> Ok p) -> live w !! p = l0 !! p).

(** No file of the plan is above another. *)
Definition apart (cs : list (string * json)) : Prop :=
  forall c c' rel rel', c ∈ cs -> c' ∈ cs -> rel_ok c.1 = Ok rel -> rel_ok c'.1 = Ok rel' -> rel' ∉ above rel.

Definition gone (w : World) (c : string * json) : Prop :=
  exists rel, rel_ok c.1 = Ok rel /\ live w !! rel = None.

(** The process cannot die. *)
Definition free (w : World) : Prop := budget (dir w) = None /\ alive (dir w) = true.

Lemma set_dir_id w : set_dir (dir w) w = w.
Proof. by destruct w. Qed.

Lemma change_free f w : free w -> change f w = (Ok tt, f w).
Proof.
  intros [Hb Ha]. unfold change, on_dir, spend, mbind, stm_bind, modify. rewrite Hb. cbn.
  assert (mkDir (manifest (dir w)) (manifest_lock (dir w)) None (alive (dir w)) = dir w) as -> by
    (rewrite <- Hb; by destruct (dir w)).
  by rewrite set_dir_id.
Qed.

Section Plan.
Context (cs : list (string * json)) (l0 : tree) (Hapart : apart cs).

Lemma ordered_set_dir w d : ordered cs l0 w -> ordered cs l0 (set_dir d w).
Proof. done. Qed.

Lemma ordered_mkdir w c rel q :
  ordered cs l0 w -> c ∈ cs -> rel_ok c.1 = Ok rel -> q ∈ above rel -> trash w !! q = None ->
  ordered cs l0 (set_trash (<[q := Directory]> (trash w)) w).
Proof.
  intros [Hw Hout] Hc Hrel Hq Hn. split; [|exact Hout]. intros c' Hc'. destruct (Hw c' Hc') as (rel' & Hrel' & Ha & Hb).
  assert (rel' <> q) as Hne by (intros ->; by eapply (Hapart c c')).
  exists rel'. split; [done|]. cbn. split.
  - intros q' Hq'. destruct (Ha q' Hq') as [H1 H2]. split; [done|].
    destruct (decide (q = q')) as [->|]; [rewrite lookup_insert_eq; by right|by rewrite lookup_insert_ne].
  - rewrite lookup_insert_ne by congruence. done.
Qed.

Lemma ordered_rename w c rel x n :
  ordered cs l0 w -> c ∈ cs -> rel_ok c.1 = Ok rel -> live w !! rel = Some (File x n) ->
  ordered cs l0 (set_trees (delete rel (live w)) (<[rel := File x n]> (trash w)) w).
Proof.
  intros [Hw Hout] Hc Hrel Hl. split.
  2:{ intros p Hp. cbn. rewrite lookup_delete_ne; [by apply Hout|]. intros ->. by apply (Hp c). }
  intros c' Hc'. destruct (Hw c' Hc') as (rel' & Hrel' & Ha & Hb).
  exists rel'. split; [done|]. cbn. split.
  - intros q Hq. destruct (Ha q Hq) as [H1 H2].
    assert (rel <> q) as Hne by (intros ->; by eapply (Hapart c' c)).
    by rewrite lookup_delete_ne, lookup_insert_ne by done.
  - destruct (decide (rel = rel')) as [->|Hne].
    + right. rewrite lookup_delete_eq, lookup_insert_eq. by eauto.
    + by rewrite lookup_delete_ne, lookup_insert_ne by done.
Qed.

(** What else holds of the world and does not depend on the trees. *)
Context (F : World -> Prop)
        (HFdir : forall w d, manifest d = manifest (dir w) -> F w -> F (set_dir d w))
        (HFtrees : forall w l t, F w -> F (set_trees l t w)).

(** The files already gone stay gone. *)
Definition steady (before : list (string * json)) (w : World) : Prop :=
  ordered cs l0 w /\ F w /\ Forall (gone w) before.

Lemma steady_dir before w d : manifest d = manifest (dir w) -> steady before w -> steady before (set_dir d w).
Proof. intros Hd (H1 & H2 & H3). split_and!; [exact H1|by apply HFdir|exact H3]. Qed.

Lemma keeps_steady before f :
  (forall w, steady before w -> steady before (f w)) -> keeps (steady before) (change f).
Proof.
  intros Hf w r w' Hw [(d & -> & -> & Hd)|(d & e & -> & -> & Hd)]%change_run; [apply Hf|]; by apply steady_dir.
Qed.

Lemma steady_mkdirs before c rel l :
  c ∈ cs -> rel_ok c.1 = Ok rel -> (forall q, q ∈ l -> q ∈ above rel) ->
  keeps (steady before) (iterM (make_dir trash set_trash) l).
Proof.
  intros Hc Hrel Hl. induction l as [|q l IH]; cbn [iterM]; [apply keeps_ret|].
  apply keeps_bind; [|intros _; apply IH; intros; apply Hl; set_solver].
  intros w r w' Hw. unfold make_dir, mbind, stm_bind, get.
  destruct (trash w !! q) as [[x n|[]| |]|] eqn:E; try (intros [= <- <-]; done).
  intros [(d & -> & -> & Hd)|(d & e & -> & -> & Hd)]%change_run; [|by apply steady_dir].
  apply (steady_dir before w d Hd) in Hw. destruct Hw as (H1 & H2 & H3).
  split_and!; [eapply ordered_mkdir; [done|exact Hc|exact Hrel|apply Hl; set_solver|done]|by apply HFtrees|exact H3].
Qed.

(** The file of an entry that is about to be carried. *)
Definition here (rel : path) (w : World) : Prop :=
  exists x n, live w !! rel = Some (File x n) /\ trash w !! rel = None.

Lemma mkdirs_here rel l :
  (forall q, q ∈ l -> q ∈ above rel) -> keeps (here rel) (iterM (make_dir trash set_trash) l).
Proof.
  intros Hl. apply keeps_make_dirs; [done|intros w d H; exact H|].
  intros w q Hq%Hl%above_ne (x & n & H1 & H2) Hn. exists x, n. cbn. by rewrite lookup_insert_ne.
Qed.

Lemma gone_delete before w rel t : Forall (gone w) before -> Forall (gone (set_trees (delete rel (live w)) t w)) before.
Proof.
  intros H. eapply Forall_impl; [exact H|]. intros c (rel' & Hrel' & Hn). exists rel'. split; [done|]. cbn.
  apply lookup_delete_None. by right.
Qed.

Lemma rename_file l t rel x n :
  l !! rel = Some (File x n) -> rename l t rel = (delete rel l, <[rel := File x n]> t).
Proof. intros H. unfold rename. by rewrite H. Qed.

(** A move, by a process that may die. *)
Lemma carry_steady before e rel :
  core e ∈ cs -> rel_ok (m_path e) = Ok rel ->
  hoare (fun w => steady before w /\ here rel w) (carry true e rel)
    (fun r w => steady before w /\ forall u, r = Ok u -> live w !! rel = None).
Proof.
  intros Hc Hrel. unfold carry.
  apply (hoare_bind _ _ _ (fun _ w => steady before w /\ here rel w));
    [apply hoare_keeps, keeps_get|intros w0|by intros e0 w [? _]; split].
  apply (hoare_bind _ _ _ (fun _ w => steady before w /\ here rel w));
    [apply hoare_keeps, keeps_lift|intros u|by intros e0 w [? _]; split].
  apply (hoare_bind _ _ _ (fun _ w => steady before w /\ here rel w)).
  - intros w r w' [H1 H2] Hrun. split.
    + eapply (steady_mkdirs before (core e) rel); [done|done| |exact H1|exact Hrun]. done.
    + eapply (mkdirs_here rel); [|exact H2|exact Hrun]. done.
  - intros _ w r w' [Hs (x & n & Hl & Ht)] [(d & -> & -> & Hd)|(d & e0 & -> & -> & Hd)]%change_run.
    + apply (steady_dir before w d Hd) in Hs. cbn [live trash set_dir] in *.
      rewrite (rename_file _ _ _ _ _ Hl). destruct Hs as (H1 & H2 & H3). split.
      * split_and!; [|exact (HFtrees (set_dir d w) _ _ H2)|exact (gone_delete before (set_dir d w) rel _ H3)].
        eapply (ordered_rename (set_dir d w)); [done|exact Hc|done|done].
      * intros u' _. cbn. apply lookup_delete_eq.
    + split; [by apply steady_dir|done].
  - by intros e0 w [? _]; split.
Qed.

Lemma move_steady before e :
  core e ∈ cs ->
  hoare (steady before) (move true e)
    (fun r w => steady before w /\
       forall e', r = Ok e' -> e' = mkMove (m_path e) (m_bytes e) "moved" /\ gone w (core e)).
Proof.
  intros Hc w r w' Hw. destruct (proj1 (proj1 Hw) _ Hc) as (rel & Hrel & Ha & Hb). cbn [core fst] in Hrel.
  unfold move. rewrite Hrel. unfold mbind, stm_bind, lift, get.
  destruct Hb as [(x & n & Hl & Hn & Hs & Ht)|(Hl & x & n & Ht)]; unfold lexists; rewrite Hl, Ht; cbn [negb].
  - rewrite bool_decide_eq_true_2 by done. rewrite bool_decide_eq_false_2 by (by intros [? ?]). cbn [negb].
    destruct (carry true e rel w) as [r1 w1] eqn:Ec.
    assert (here rel w) as Hh by (by exists x, n).
    destruct (carry_steady before e rel Hc Hrel w r1 w1 (conj Hw Hh) Ec) as [Hw1 Hg].
    destruct r1; intros [= <- <-]; (split; [done|]); [|done]. intros e' [= <-]. split; [done|].
    exists rel. split; [done|]. by eapply Hg.
  - rewrite bool_decide_eq_false_2 by (by intros [? ?]). rewrite bool_decide_eq_true_2 by done. cbn [negb].
    intros [= <- <-]. split; [done|]. intros e' [= <-]. split; [done|]. by exists rel.
Qed.

End Plan.

(** A move by a process that does not die. *)

Section Alive.
Context (cs : list (string * json)) (l0 : tree).

Lemma mkdirs_free rel l w :
  free w -> (forall q, q ∈ l -> q ∈ above rel) ->
  (forall q, q ∈ above rel -> trash w !! q = None \/ trash w !! q = Some Directory) ->
  exists w', iterM (make_dir trash set_trash) l w = (Ok tt, w') /\ dir w' = dir w.
Proof.
  revert w. induction l as [|q l IH]; intros w Hf Hl Ha; [by exists w|].
  cbn [iterM]. unfold mbind at 1, stm_bind at 1.
  assert (exists w1, make_dir trash set_trash q w = (Ok tt, w1) /\ dir w1 = dir w /\
    forall q', q' ∈ above rel -> trash w1 !! q' = None \/ trash w1 !! q' = Some Directory) as (w1 & -> & Hd & Ha').
  { unfold make_dir, mbind, stm_bind, get. destruct (Ha q) as [->| ->]; [apply Hl; set_solver| |by exists w].
    rewrite change_free by done. eexists. split; [done|]. split; [done|]. intros q' Hq'. cbn.
    destruct (decide (q = q')) as [->|]; [rewrite lookup_insert_eq; by right|].
    rewrite lookup_insert_ne by done. by apply Ha. }
  destruct (IH w1) as (w' & E & Hd'); [by unfold free; rewrite Hd|intros; apply Hl; set_solver|done|].
  exists w'. split; [done|congruence].
Qed.

Lemma links_free rel w :
  (forall q, q ∈ above rel -> is_link (live w !! q) = false) -> is_link (live w !! rel) = false ->
  no_symlink_chain (live w) rel = true.
Proof.
  intros Ha Hr. unfold no_symlink_chain. apply forallb_true. intros q [Hq|Hq]%elem_of_app.
  - by rewrite Ha.
  - unfold when in Hq. destruct (negb _); [|by apply elem_of_nil in Hq].
    apply list_elem_of_singleton in Hq as ->. by rewrite Hr.
Qed.

Lemma move_free e w :
  ordered cs l0 w -> core e ∈ cs -> free w ->
  exists w', move true e w = (Ok (mkMove (m_path e) (m_bytes e) "moved"), w') /\ dir w' = dir w.
Proof.
  intros Hw Hc Hf. destruct (proj1 Hw _ Hc) as (rel & Hrel & Ha & Hb). cbn [core fst snd] in Hrel, Hb.
  unfold move. rewrite Hrel. unfold mbind, stm_bind, lift, get.
  destruct Hb as [(x & n & Hl & Hn & Hs & Ht)|(Hl & x & n & Ht)]; unfold lexists; rewrite Hl, Ht; cbn [negb].
  - rewrite bool_decide_eq_true_2 by done. rewrite bool_decide_eq_false_2 by (by intros [? ?]). cbn [negb].
    assert (check_source (live w) e = Ok tt) as Hcheck.
    { unfold check_source. rewrite Hrel. cbn [mbind result_bind].
      rewrite links_free by (try (intros q Hq; by apply Ha); by rewrite Hl). cbn [negb]. rewrite Hl.
      destruct (Nat.ltb_spec 1 n); [lia|]. by rewrite Hs. }
    destruct (mkdirs_free rel (above rel) w Hf) as (w1 & E & Hd); [done|intros q Hq; by apply Ha|].
    unfold carry, mbind, stm_bind, get, lift. rewrite Hcheck, E.
    rewrite change_free by (unfold free; by rewrite Hd).
    eexists. split; [done|]. by destruct (rename _ _ _).
  - rewrite bool_decide_eq_false_2 by (by intros [? ?]). rewrite bool_decide_eq_true_2 by done. cbn [negb].
    by exists w.
Qed.
End Alive.

(** ** The loop over the entries *)

Section Loop.
Context (cs : list (string * json)) (l0 : tree) (Hapart : apart cs) (f0 : manifest_file).

Definition journalled (doc : JournalDoc) (w : World) : Prop :=
  manifest (dir w) = f0 /\ journal w = HasJournal doc.

Lemma journalled_dir doc w d : manifest d = manifest (dir w) -> journalled doc w -> journalled doc (set_dir d w).
Proof. intros Hd [H1 H2]. split; [cbn; congruence|done]. Qed.

Lemma journalled_trees doc w l t : journalled doc w -> journalled doc (set_trees l t w).
Proof. done. Qed.

(** Between the first write of the journal and the update of the manifest. *)
Definition midway (w : World) : Prop :=
  ordered cs l0 w /\ manifest (dir w) = f0 /\ exists doc, journal w = HasJournal doc /\ map core (entries doc) = cs.

(** A journal of these files, all of them moved. *)
Definition whole (doc : JournalDoc) : Prop := all_in "moved" doc = true /\ map core (entries doc) = cs.

Definition is_moved (e : Move) : bool := String.eqb (m_state e) "moved".

Notation step := (fun (_ : unit) e => e' ← move true e; mret (tt, e')).

Lemma steady_midway doc es before w :
  map core es = cs -> steady cs l0 (journalled (with_entries doc es)) before w -> midway w.
Proof. intros Hes (H1 & [H2 H3] & _). split_and!; [done|done|]. by exists (with_entries doc es). Qed.

Lemma write_steady doc doc' before w : steady cs l0 (journalled doc) before w ->
  steady cs l0 (journalled doc') before (set_journal (HasJournal doc') w).
Proof. intros (H1 & [H2 H3] & H4). split_and!; [exact H1|done|exact H4]. Qed.

Lemma moved_core e : core (mkMove (m_path e) (m_bytes e) "moved") = core e.
Proof. done. Qed.

Lemma step_core before e todo :
  map core (before ++ mkMove (m_path e) (m_bytes e) "moved" :: todo) = map core (before ++ e :: todo).
Proof. rewrite !map_app. cbn [map]. by rewrite moved_core. Qed.

Lemma loop_steady doc before todo :
  map core (before ++ todo) = cs -> forallb is_moved before = true ->
  hoare (steady cs l0 (journalled (with_entries doc (before ++ todo))) (map core before))
    (each_entry step doc tt before todo)
    (fun r w => midway w /\ forall u es, r = Ok (u, es) ->
       map core es = cs /\ forallb is_moved es = true /\ steady cs l0 (journalled (with_entries doc es)) cs w).
Proof.
  revert before. induction todo as [|e todo IH]; intros before Hcs Hb w r w' Hw; cbn [each_entry].
  { intros [= <- <-]. rewrite app_nil_r in *. split; [by eapply steady_midway|]. intros u es [= <- <-].
    by rewrite Hcs in Hw. }
  assert (core e ∈ cs) as Hc by (rewrite <- Hcs, map_app; set_solver).
  set (e' := mkMove (m_path e) (m_bytes e) "moved").
  unfold mbind at 1, stm_bind at 1. unfold mbind at 1, stm_bind at 1.
  destruct (move true e w) as [r1 w1] eqn:Em.
  destruct (move_steady cs l0 Hapart _ (journalled_dir _) (journalled_trees _) _ e Hc _ _ _ Hw Em) as [Hw1 Hr1].
  destruct r1 as [e1|x]; [|intros [= <- <-]; split; [by eapply steady_midway|done]].
  destruct (Hr1 e1 eq_refl) as [-> Hg]. fold e'.
  unfold mbind at 1, stm_bind at 1, mret, stm_ret.
  destruct (write_journal (with_entries doc (before ++ e' :: todo)) w1) as [r2 w2] eqn:Ew.
  unfold write_journal in Ew. apply change_run in Ew as [(d & -> & -> & Hd)|(d & x & -> & -> & Hd)].
  - intros Hrun. eapply IH; [| | |exact Hrun].
    + rewrite <- app_assoc. cbn [app]. rewrite <- Hcs. apply step_core.
    + rewrite forallb_app, Hb. done.
    + rewrite <- app_assoc. cbn [app]. apply (write_steady (with_entries doc (before ++ e :: todo))).
      apply (steady_dir cs l0 _ (journalled_dir _)); [done|]. destruct Hw1 as (H1 & H2 & H3).
      split_and!; [done|done|]. rewrite map_app. apply Forall_app. split; [done|by constructor].
  - intros [= <- <-]. split; [|done]. eapply (steady_midway doc (before ++ e :: todo)); [done|].
    by apply (steady_dir cs l0 _ (journalled_dir _)).
Qed.

Lemma loop_free doc before todo w :
  map core (before ++ todo) = cs -> forallb is_moved before = true ->
  steady cs l0 (journalled (with_entries doc (before ++ todo))) (map core before) w -> free w ->
  exists es w', each_entry step doc tt before todo w = (Ok (tt, es), w') /\ dir w' = dir w.
Proof.
  revert before w. induction todo as [|e todo IH]; intros before w Hcs Hb Hw Hf; cbn [each_entry]; [by eauto|].
  assert (core e ∈ cs) as Hc by (rewrite <- Hcs, map_app; set_solver).
  set (e' := mkMove (m_path e) (m_bytes e) "moved").
  unfold mbind at 1, stm_bind at 1. unfold mbind at 1, stm_bind at 1.
  destruct (move_free cs l0 e w (proj1 Hw) Hc Hf) as (w1 & Em & Hd1).
  destruct (move_steady cs l0 Hapart _ (journalled_dir _) (journalled_trees _) _ e Hc _ _ _ Hw Em) as [Hw1 Hg].
  destruct (Hg _ eq_refl) as [_ Hgone]. rewrite Em. fold e'.
  assert (free w1) as Hf1 by (unfold free; by rewrite Hd1).
  unfold mbind at 1, stm_bind at 1, mret, stm_ret, write_journal. rewrite change_free by done.
  destruct (IH (before ++ [e']) (set_journal (HasJournal (with_entries doc (before ++ e' :: todo))) w1))
    as (es & w' & E & Hd'); [| | |done|].
  - rewrite <- app_assoc. cbn [app]. rewrite <- Hcs. apply step_core.
  - by rewrite forallb_app, Hb.
  - rewrite <- app_assoc. cbn [app]. apply (write_steady (with_entries doc (before ++ e :: todo))).
    destruct Hw1 as (H1 & H2 & H3). split_and!; [done|done|]. rewrite map_app. apply Forall_app.
    split; [done|by constructor].
  - exists es, w'. split; [done|]. by rewrite Hd'.
Qed.

Lemma with_entries_id doc : with_entries doc (entries doc) = doc.
Proof. by destruct doc. Qed.

Lemma move_all_steady doc :
  map core (entries doc) = cs ->
  hoare (steady cs l0 (journalled doc) []) (move_all true doc)
    (fun r w => midway w /\ forall doc', r = Ok doc' ->
       whole doc' /\ steady cs l0 (journalled doc') cs w).
Proof.
  intros Hcs w r w' Hw. unfold move_all, mbind, stm_bind.
  destruct (each_entry _ doc tt [] (entries doc) w) as [r1 w1] eqn:E.
  rewrite <- (with_entries_id doc) in Hw.
  destruct (loop_steady doc [] (entries doc) Hcs eq_refl w r1 w1 Hw E) as [Hm Hr].
  destruct r1 as [[u es]|x]; intros [= <- <-]; (split; [done|]); [|done]. intros doc' [= <-].
  destruct (Hr u es eq_refl) as (H0 & H1 & H2). by split.
Qed.

Lemma move_all_free doc w :
  map core (entries doc) = cs -> steady cs l0 (journalled doc) [] w -> free w ->
  exists doc' w', move_all true doc w = (Ok doc', w') /\ dir w' = dir w.
Proof.
  intros Hcs Hw Hf. rewrite <- (with_entries_id doc) in Hw.
  destruct (loop_free doc [] (entries doc) w Hcs eq_refl Hw Hf) as (es & w' & E & Hd).
  exists (with_entries doc es), w'. split; [|done].
  unfold move_all. unfold mbind at 1, stm_bind at 1. by rewrite E.
Qed.
End Loop.

(** ** Steps of an operation *)

Lemma keeps_change_same (P : World -> Prop) f :
  (forall w d, manifest d = manifest (dir w) -> P w -> P (set_dir d w)) -> (forall w, P w -> P (f w)) ->
  keeps P (change f).
Proof. intros Hd Hf w r w' Hw [(d & -> & -> & Hdd)|(d & e & -> & -> & Hdd)]%change_run; [apply Hf|]; by apply Hd. Qed.

Lemma keeps_gc_same {A} root (P : World -> Prop) (body : stm World A) :
  (forall w d, manifest d = manifest (dir w) -> P w -> P (set_dir d w)) -> (forall w b, P w -> P (set_gc b w)) ->
  keeps P body -> keeps P (with_gc_lock root body).
Proof.
  intros Hd Hg Hb. apply keeps_bind; [apply keeps_get|]. intros w. destruct (gc_locked w); [apply keeps_raise|].
  apply keeps_bind; [apply keeps_change_same; auto|]. intros _.
  apply keeps_finally; [done|]. apply keeps_change_same; auto.
Qed.

Lemma read_manifest_run run_dir w :
  on_dir (read_manifest run_dir) w = (read_file (manifest_path run_dir) (manifest (dir w)), w).
Proof. unfold on_dir, read_manifest, mbind, stm_bind, get, lift. by rewrite set_dir_id. Qed.

Lemma read_journal_run j w :
  journal w = match j with Some doc => HasJournal doc | None => NoJournal end -> read_journal w = (Ok j, w).
Proof. intros H. unfold read_journal, mbind, stm_bind, get. rewrite H. by destruct j. Qed.

Lemma update_free run_dir g state hs patch now f m1 d1 :
  update_manifest run_dir g state hs patch now (mkDir f false None true) = (Ok m1, d1) ->
  d1 = mkDir (Readable (JObj m1)) false None true.
Proof.
  unfold update_manifest, locked, read_manifest, write_manifest, persist, spend, finally, mbind, stm_bind,
    get, lift, modify, mret, stm_ret. cbn -[validate_manifest read_file updated].
  destruct (read_file _ f) as [m|e]; [|done]. destruct (updated _ _ _ _ _ _) as [m'|e]; [|done].
  destruct (validate_manifest _) as [o|e] eqn:E; [|done]. apply validate_positive in E as [[= <-] _].
  by intros [= <- <-].
Qed.

Lemma sizes_core es es' : map core es = map core es' -> mapR size_of es = mapR size_of es'.
Proof.
  revert es'. induction es as [|e es IH]; intros [|e' es'] H; try done.
  unfold core in H. cbn [map] in H. injection H as Hp Hb Hr. cbn [mapR]. rewrite (IH es' Hr).
  unfold size_of. by rewrite Hb.
Qed.

(** ** The operation *)

Section Operation.
Context (sha256 : string -> string) (show_g show_1f : float -> string) (kinds : list string)
        (root kind name : string) (same_fs : bool)
        (bundle : Harvest.Bundle) (rest : Layout) (policy : Policy) (now : float).

Notation run_path := (run_dir root kind name).
Notation file_path := (manifest_path run_path).
Notation do_perform := (perform sha256 show_g show_1f kinds root kind name same_fs bundle rest policy true now).

Definition set_aside_patch : obj :=
  [("retention", JObj [("state", JStr "quarantined"); ("quarantined_at", JStr (utc_stamp now))])].

(** What the manifest file [f0] and the run directory [l0] are when a
    quarantine of the entries [es] can be performed. *)
Record performable (f0 : manifest_file) (l0 : tree) (m : obj) (id : string) (es : list Move) : Prop := {
  pf_read : read_file file_path f0 = Ok m;
  pf_id : item m "run_id" = Ok (JStr id);
  pf_active : retention_state m = Ok "active";
  pf_plan : plan_of sha256 show_g show_1f kinds root kind name bundle rest policy now id m l0 f0 = Ok es;
  pf_sizes : is_ok (mapR size_of es) = true;
  pf_fs : same_fs = true;
  pf_bundle : exists h b, item m "harvest" = Ok h /\ sub h "bundle_id" = Ok b;
  pf_update : exists g m1 d1, generation_of m = Ok g /\
    update_manifest run_path g None None set_aside_patch now (mkDir f0 false None true) = (Ok m1, d1);
}.

(** A manifest file that says quarantined. *)
Definition set_aside_file (f : manifest_file) : Prop :=
  exists m id, read_file file_path f = Ok m /\ item m "run_id" = Ok (JStr id) /\
    retention_state m = Ok "quarantined".

Lemma retention_patched m m' now' g :
  updated m g None None set_aside_patch now' = Ok m' ->
  (exists old, jget m "retention" = Some (JObj old)) ->
  retention_state m' = Ok "quarantined" /\ jget m' "run_id" = jget m "run_id".
Proof.
  unfold updated. intros (gen & _ & H)%bind_Ok [old Hold]. apply bind_Ok in H as (u & _ & H).
  cbn [with_state with_harvest mbind result_bind foldR] in H. unfold set_aside_patch, patch_one in H.
  cbn [foldR mbind result_bind] in H. rewrite Hold in H.
  replace (str_in "retention" fixed_keys) with false in H by (vm_compute; reflexivity).
  injection H as <-. unfold retention_state, item, sub, item.
  rewrite !jget_dict_set. cbn [String.eqb Ascii.eqb Bool.eqb of_option mbind result_bind].
  split; [|done]. unfold dict_update. cbn [fold_left fst snd]. rewrite !jget_dict_set. done.
Qed.

Lemma active_retention m : retention_state m = Ok "active" -> exists old, jget m "retention" = Some (JObj old).
Proof.
  unfold retention_state, item. intros (v & Hv & H)%bind_Ok. apply of_option_Ok in Hv.
  apply bind_Ok in H as (st & Hst & _). destruct v; try done. eauto.
Qed.

Section Performable.
Context (f0 : manifest_file) (l0 : tree) (m : obj) (id : string) (es : list Move)
        (Hp : performable f0 l0 m id es).

Lemma update_sets_aside g d r d' :
  manifest d = f0 -> update_manifest run_path g None None set_aside_patch now d = (r, d') ->
  (manifest d' = f0 /\ is_ok r = false) \/ set_aside_file (manifest d').
Proof.
  intros Hd [[H Hr]|(m0 & m' & Hm & Hu & Hf & Hv)]%update_run; [left; by rewrite H|right].
  rewrite Hd, (pf_read _ _ _ _ _ Hp) in Hm. injection Hm as <-.
  destruct (retention_patched _ _ _ _ Hu (active_retention _ (pf_active _ _ _ _ _ Hp))) as [Hs Hi].
  exists m', id. rewrite Hf. split; [exact Hv|]. split; [|done].
  pose proof (pf_id _ _ _ _ _ Hp) as Hid. unfold item in *. by rewrite Hi.
Qed.

Notation cs := (map core es).

(** Before the journal is written. *)
Definition untouched (w : World) : Prop :=
  live w = l0 /\ trash w = ∅ /\ journal w = NoJournal /\ manifest (dir w) = f0.

(** The manifest says quarantined, the journal is complete, every file is moved. *)
Definition complete (w : World) : Prop :=
  exists doc, whole cs doc /\
    steady cs l0 (fun w => journal w = HasJournal doc /\ set_aside_file (manifest (dir w))) cs w.

(** Where a process may leave the run. *)
Definition recoverable (w : World) : Prop := untouched w \/ midway cs l0 f0 w \/ complete w.

Lemma recoverable_dir w d : manifest d = manifest (dir w) -> recoverable w -> recoverable (set_dir d w).
Proof.
  intros Hd [(H1 & H2 & H3 & H4)|[(H1 & H2 & H3)|(doc & Ha & H1 & [H2 H3] & H4)]].
  - left. split_and!; try done. cbn. congruence.
  - right. left. split_and!; [done|cbn; congruence|done].
  - right. right. exists doc. split; [done|]. split_and!; [exact H1|done|cbn; by rewrite Hd|exact H4].
Qed.

Lemma recoverable_gc w b : recoverable w -> recoverable (set_gc b w).
Proof.
  intros [H|[H|(doc & Ha & H1 & H2 & H4)]]; [by left|by right; left|].
  right. right. exists doc. split; [done|]. split_and!; [exact H1|apply H2|apply H2|exact H4].
Qed.

(** The check of the plan puts its files in order. *)
Definition tree_ok (t : tree) : Prop :=
  forall p q, is_Some (t !! p) -> q ∈ above p -> t !! q = Some Directory \/ is_link (t !! q) = true.

Lemma plan_file e rel : e ∈ es -> rel_ok (m_path e) = Ok rel -> exists x n, l0 !! rel = Some (File x n).
Proof.
  intros He Hr.
  destruct (plan_of_checked _ _ _ _ _ _ _ _ _ _ _ _ _ _ _ _ (pf_plan _ _ _ _ _ Hp)) as [u Hu].
  apply mapR_Ok in Hu. apply list_elem_of_lookup in He as [i Hi].
  destruct (Forall2_lookup_l _ _ _ _ _ Hu Hi) as (v & _ & Hv).
  destruct (check_source_Ok _ _ _ _ Hr Hv) as (_ & x & n & Hl & _). by exists x, n.
Qed.

Lemma plan_apart : tree_ok l0 -> apart cs.
Proof.
  intros Hok c c' rel rel' Hc Hc' Hrel Hrel' Hin.
  apply list_elem_of_fmap in Hc as (e & -> & He). apply list_elem_of_fmap in Hc' as (e' & -> & He').
  destruct (plan_file e rel He Hrel) as (x & n & Hl). destruct (plan_file e' rel' He' Hrel') as (x' & n' & Hl').
  destruct (Hok rel rel') as [H|H]; [by rewrite Hl|done|congruence|]. by rewrite Hl' in H.
Qed.

Lemma plan_ordered w : live w = l0 -> trash w = ∅ -> ordered cs l0 w.
Proof.
  intros Hlive Htrash. split; [|by intros; rewrite Hlive]. rewrite Hlive, Htrash.
  destruct (plan_of_checked _ _ _ _ _ _ _ _ _ _ _ _ _ _ _ _ (pf_plan _ _ _ _ _ Hp)) as [u Hu].
  apply mapR_Ok in Hu. intros c Hc. apply list_elem_of_fmap in Hc as (e & -> & He).
  apply list_elem_of_lookup in He as [i Hi]. destruct (Forall2_lookup_l _ _ _ _ _ Hu Hi) as (v & _ & Hv).
  assert (exists rel, rel_ok (m_path e) = Ok rel) as [rel Hrel].
  { unfold check_source in Hv. apply bind_Ok in Hv as (rel & ? & _). by exists rel. }
  destruct (check_source_Ok _ _ _ _ Hrel Hv) as (Hchain & x & n & Hl & Hn & Hb).
  exists rel. split; [done|]. split.
  - intros q Hq. split; [|left; apply lookup_empty]. unfold no_symlink_chain in Hchain.
    rewrite forallb_true in Hchain. apply negb_true_iff, Hchain, elem_of_app. by left.
  - left. exists x, n. split_and!; [done|done|done|apply lookup_empty].
Qed.

Context (Hok : tree_ok l0).

Notation loop_pre doc := (steady cs l0 (journalled f0 doc) []).
Notation loop_post doc := (steady cs l0 (journalled f0 doc) cs).

Lemma steady_recoverable doc before w :
  map core (entries doc) = cs -> steady cs l0 (journalled f0 doc) before w -> recoverable w.
Proof.
  intros Hcs (H1 & [H2 H3] & _). right. left. split_and!; [exact H1|done|]. by exists doc.
Qed.

Lemma post_complete doc w d :
  whole cs doc -> loop_post doc w -> set_aside_file (manifest d) -> complete (set_dir d w).
Proof. intros Ha (H1 & [H2 H3] & H4) Hd. exists doc. split; [done|]. split_and!; [exact H1|done|done|exact H4]. Qed.

(** Where the journal may be written, anew or as it was read. *)
Definition ready (w : World) : Prop := ordered cs l0 w /\ manifest (dir w) = f0 /\ recoverable w.

Lemma untouched_ready w : untouched w -> ready w.
Proof. intros Hw. split_and!; [by apply plan_ordered; apply Hw..|apply Hw|by left]. Qed.

Lemma midway_ready w : midway cs l0 f0 w -> ready w.
Proof. intros Hw. split; [apply Hw|]. split; [apply Hw|by right; left]. Qed.

Lemma ready_dir w d : manifest d = manifest (dir w) -> ready w -> ready (set_dir d w).
Proof. intros Hd (H1 & H2 & H3). split; [exact H1|]. split; [cbn; congruence|by apply recoverable_dir]. Qed.

Lemma ready_journalled doc w d :
  manifest d = manifest (dir w) -> ready w -> loop_pre doc (set_journal (HasJournal doc) (set_dir d w)).
Proof. intros Hd (H1 & H2 & _). split; [exact H1|]. split; [split; [cbn; congruence|done]|constructor]. Qed.

(** The last steps of [perform], from the first write of the journal. *)
Lemma tail_recoverable {B} doc (k : stm World B) :
  map core (entries doc) = cs -> keeps recoverable k ->
  hoare ready (_ ← write_journal doc; _ ← move_all true doc; g ← lift (generation_of m);
      _ ← on_dir (update_manifest run_path g None None set_aside_patch now); k) (fun _ => recoverable).
Proof.
  intros Hcs Hk. pose proof (plan_apart Hok) as Hap.
  apply (hoare_bind _ _ _ (fun r w => recoverable w /\ (is_ok r = true -> loop_pre doc w)));
    [|intros u|by intros ? ? [? _]].
  { intros w r w' Hw [(d & -> & -> & Hd)|(d & e & -> & -> & Hd)]%change_run.
    - pose proof (ready_journalled doc w d Hd Hw) as Hpre. split; [by eapply steady_recoverable|done].
    - split; [|done]. by apply recoverable_dir, Hw. }
  apply (hoare_weaken (loop_pre doc) _ _ (fun _ => recoverable)); [|by intros w [_ H]; apply H|done].
  eapply hoare_bind; [by apply (move_all_steady cs l0 Hap f0 doc)| |].
  2:{ intros e w [H _]. by right; left. }
  intros doc'.
  eapply (hoare_weaken (fun w => whole cs doc' /\ loop_post doc' w /\ recoverable w));
    [| |by intros ? ? Hs; exact Hs].
  2:{ intros w [Hm H]. destruct (H doc' eq_refl) as [Ha Hs]. split; [exact Ha|]. split; [exact Hs|by right; left]. }
  apply hoare_pure. intros Ha. apply hoare_lift; [|by intros e w _ [_ H]].
  intros g _ w r w' [Hw Hrec]. unfold mbind, stm_bind, on_dir.
  destruct (update_manifest _ _ _ _ _ _ _) as [r1 d1] eqn:Eu.
  assert (recoverable (set_dir d1 w)) as Hrec1.
  { destruct (update_sets_aside g (dir w) r1 d1 (proj1 (proj1 (proj2 Hw))) Eu) as [[Hd _]|Hd].
    - apply recoverable_dir; [|done]. rewrite Hd. symmetry. apply Hw.
    - right. right. by apply (post_complete doc'). }
  destruct r1; [|by intros [= <- <-]]. intros Hrun. by eapply Hk.
Qed.

(** The journal is the one of the world. *)
Definition with_journal (j : option JournalDoc) (w : World) : Prop :=
  match j with
  | Some doc => map core (entries doc) = cs /\ midway cs l0 f0 w
  | None => untouched w
  end.

(** What an operation reads there. *)
Lemma recoverable_reads w : recoverable w ->
  (exists j, with_journal j w /\ journal w = match j with Some doc => HasJournal doc | None => NoJournal end) \/
  exists doc m' id', complete w /\ all_in "moved" doc = true /\ journal w = HasJournal doc /\
    read_file file_path (manifest (dir w)) = Ok m' /\ item m' "run_id" = Ok (JStr id') /\
    retention_state m' = Ok "quarantined".
Proof.
  intros [Hw|[Hw|Hw]].
  - left. exists None. split; [exact Hw|apply Hw].
  - left. destruct (proj2 (proj2 Hw)) as (doc & Hj & Hcs). by exists (Some doc).
  - right. pose proof Hw as (doc & Ha & _ & [Hj (m' & id' & H1 & H2 & H3)] & _).
    exists doc, m', id'. split_and!; try done. apply Ha.
Qed.

Lemma with_journal_ready j w : with_journal j w -> ready w.
Proof. destruct j; [intros [_ H]; by apply midway_ready|apply untouched_ready]. Qed.

Lemma with_journal_dir j w d : manifest d = manifest (dir w) -> with_journal j w -> with_journal j (set_dir d w).
Proof.
  intros Hd. destruct j as [doc|]; [intros [H1 (H2 & H3 & H4)]|intros (H1 & H2 & H3 & H4)].
  - split; [done|]. split; [exact H2|]. split; [cbn; congruence|done].
  - split_and!; [done..|cbn; congruence].
Qed.

Lemma keeps_nothing (P : World -> Prop) :
  (forall w d, manifest d = manifest (dir w) -> P w -> P (set_dir d w)) -> keeps P (change (fun w => w)).
Proof. intros Hd w r w' Hw [(d & -> & -> & Hdd)|(d & e & -> & -> & Hdd)]%change_run; by apply Hd. Qed.

Lemma plan_run w : live w = l0 -> manifest (dir w) = f0 ->
  plan_entries sha256 show_g show_1f kinds root kind name bundle rest policy now id m w = (Ok es, w).
Proof. intros H1 H2. unfold plan_entries, mbind, stm_bind, get, lift. by rewrite H1, H2, (pf_plan _ _ _ _ _ Hp). Qed.

(** The entries the operation works on. *)
Lemma entries_of j w : with_journal j w ->
  exists es', (match j with
               | Some doc => mret (entries doc)
               | None => plan_entries sha256 show_g show_1f kinds root kind name bundle rest policy now id m
               end) w = (Ok es', w) /\ map core es' = cs /\
    forall doc, (match j with
                 | Some doc => Ok doc
                 | None => h ← item m "harvest"; b ← sub h "bundle_id"; Ok (mkJournal b (utc_stamp now) es' None None)
                 end) = Ok doc -> map core (entries doc) = cs.
Proof.
  destruct j as [doc0|]; [intros [Hcs _]|intros (H1 & _ & _ & H4)].
  - exists (entries doc0). split_and!; [done|done|by intros doc [= <-]].
  - exists es. rewrite plan_run by done. split_and!; [done|done|]. intros doc (h & _ & H)%bind_Ok.
    by apply bind_Ok in H as (b & _ & [= <-]).
Qed.

(** The journal that is written first. *)
Definition first_doc (j : option JournalDoc) (es' : list Move) : res JournalDoc :=
  match j with
  | Some doc => Ok doc
  | None => h ← item m "harvest"; b ← sub h "bundle_id"; Ok (mkJournal b (utc_stamp now) es' None None)
  end.

Lemma perform_recoverable j :
  hoare (with_journal j) (do_perform m (JStr id) id j) (fun _ => recoverable).
Proof.
  assert (forall w, with_journal j w -> recoverable w) as Hr by (intros w Hw; by eapply with_journal_ready).
  unfold perform.
  apply (hoare_bind _ _ _ (fun r w => with_journal j w /\
    forall es', r = Ok es' -> forall doc, first_doc j es' = Ok doc -> map core (entries doc) = cs)).
  { intros w r w' Hw. destruct (entries_of j w Hw) as (es' & He & _ & Hdoc). rewrite He.
    intros [= <- <-]. split; [done|]. by intros es'' [= <-]. }
  2:{ intros e w [H _]. by apply Hr. }
  intros es'. eapply (hoare_weaken (fun w => (forall doc, first_doc j es' = Ok doc -> map core (entries doc) = cs)
                                      /\ with_journal j w)); [| |by intros ? ? Hs; exact Hs].
  2:{ intros w [Hw He]. split; [by apply He|done]. }
  apply hoare_pure. intros Hdoc.
  apply hoare_lift; [intros sizes _; cbn [negb]|by intros; apply Hr].
  apply hoare_skip; [apply keeps_nothing, with_journal_dir|intros u|by intros; apply Hr].
  rewrite (pf_fs _ _ _ _ _ Hp). cbn [negb].
  apply hoare_lift; [|by intros; apply Hr]. intros doc Hd%Hdoc.
  eapply hoare_weaken; [apply (tail_recoverable doc); [done|apply keeps_ret]|apply with_journal_ready|done].
Qed.

Lemma quarantine_recoverable blocked :
  keeps recoverable
    (quarantine sha256 show_g show_1f kinds root kind name same_fs bundle rest policy blocked true now).
Proof.
  apply keeps_bind; [by apply require_idle_keeps|intros _].
  apply keeps_gc_same; [apply recoverable_dir|intros; by apply recoverable_gc|].
  intros w r w' Hw. destruct (recoverable_reads w Hw) as [(j & Hj & He)|(doc & m' & id' & Hc & Ha & Hj & Hm & Hi & Hs)].
  - unfold mbind, stm_bind, lift. rewrite read_manifest_run.
    destruct (with_journal_ready _ _ Hj) as (_ & Hf & _).
    rewrite Hf, (pf_read _ _ _ _ _ Hp), (pf_id _ _ _ _ _ Hp). cbn [text_of].
    rewrite (read_journal_run j w He), (pf_active _ _ _ _ _ Hp). cbn [String.eqb Ascii.eqb Bool.eqb andb negb].
    by apply (perform_recoverable j w r w' Hj).
  - unfold mbind, stm_bind, lift. rewrite read_manifest_run, Hm, Hi. cbn [text_of].
    rewrite (read_journal_run (Some doc) w Hj), Hs, Ha. cbn [String.eqb Ascii.eqb Bool.eqb andb].
    by intros [= <- <-].
Qed.


(** ** An operation that is not interrupted *)

(** The run's directory when no process holds it and this one does not die. *)
Definition idle (f : manifest_file) : Dir := mkDir f false None true.

Lemma idle_free w f : dir w = idle f -> free w.
Proof. intros H. unfold free. by rewrite H. Qed.

Lemma first_doc_Ok j es' : exists doc, first_doc j es' = Ok doc.
Proof.
  destruct j as [doc|]; [by exists doc|]. destruct (pf_bundle _ _ _ _ _ Hp) as (h & b & H1 & H2).
  unfold first_doc. rewrite H1. cbn [mbind result_bind]. rewrite H2. cbn [mbind result_bind]. by eexists.
Qed.

(** Moving every file and setting the manifest aside. *)
Lemma set_aside_free doc w :
  loop_pre doc w -> map core (entries doc) = cs -> dir w = idle f0 ->
  exists doc' g m1 w2, move_all true doc w = (Ok doc', w2) /\ generation_of m = Ok g /\
    update_manifest run_path g None None set_aside_patch now (dir w2) = (Ok m1, idle (Readable (JObj m1))) /\
    complete (set_dir (idle (Readable (JObj m1))) w2).
Proof.
  intros Hw Hcs Hd. pose proof (plan_apart Hok) as Hap.
  destruct (move_all_free cs l0 Hap f0 doc w Hcs Hw (idle_free _ _ Hd)) as (doc' & w2 & E & Hd2).
  destruct (move_all_steady cs l0 Hap f0 doc Hcs w _ _ Hw E) as [_ Hs].
  destruct (Hs doc' eq_refl) as [Ha Hs']. destruct (pf_update _ _ _ _ _ Hp) as (g & m1 & d1 & Hg & Hu).
  pose proof (update_free _ _ _ _ _ _ _ _ _ Hu) as ->. rewrite Hd in Hd2.
  exists doc', g, m1, w2. split; [exact E|]. split; [exact Hg|]. rewrite Hd2. split; [exact Hu|].
  apply (post_complete doc' w2); [done|exact Hs'|].
  destruct (update_sets_aside g (idle f0) _ _ eq_refl Hu) as [[_ H]|H]; [done|exact H].
Qed.

Lemma perform_free j w :
  with_journal j w -> dir w = idle f0 ->
  exists o w2 f1, do_perform m (JStr id) id j w = (Ok o, w2) /\ o_state o = "quarantined" /\ complete w2 /\
    dir w2 = idle f1.
Proof.
  intros Hw Hd. destruct (entries_of j w Hw) as (es' & He & Hcs & Hdoc).
  unfold perform. unfold mbind at 1, stm_bind at 1. rewrite He.
  destruct (first_doc_Ok j es') as [doc Hfd]. specialize (Hdoc doc Hfd). unfold first_doc in Hfd.
  pose proof (pf_sizes _ _ _ _ _ Hp) as Hsz. rewrite <- (sizes_core es' es Hcs) in Hsz.
  destruct (mapR size_of es') as [sizes|] eqn:Es; [|done].
  unfold mbind at 1, stm_bind at 1, lift at 1. cbn [negb].
  unfold mbind at 1, stm_bind at 1. rewrite change_free by by eapply idle_free.
  rewrite (pf_fs _ _ _ _ _ Hp). cbn [negb].
  rewrite Hfd. unfold mbind at 1, stm_bind at 1, lift at 1.
  unfold mbind at 1, stm_bind at 1, write_journal. rewrite change_free by by eapply idle_free.
  pose proof (ready_journalled doc w (dir w) eq_refl (with_journal_ready _ _ Hw)) as Hpre. rewrite set_dir_id in Hpre.
  destruct (set_aside_free doc _ Hpre Hdoc Hd) as (doc' & g & m1 & w2 & E & Hg & Hu & Hc).
  unfold mbind at 1, stm_bind at 1. rewrite E. unfold mbind at 1, stm_bind at 1, lift. rewrite Hg.
  unfold mbind at 1, stm_bind at 1, on_dir. unfold set_aside_patch in Hu. rewrite Hu. by do 3 eexists.
Qed.

(** The body of the operation. *)
Lemma quarantine_free w f :
  recoverable w -> gc_locked w = false -> dir w = idle f ->
  exists o w2, quarantine sha256 show_g show_1f kinds root kind name same_fs bundle rest policy None true now w
    = (Ok o, w2) /\ o_state o = "quarantined" /\ complete w2 /\ gc_locked w2 = false /\ manifest_lock (dir w2) = false.
Proof.
  intros Hw Hg Hd. unfold quarantine, require_idle. unfold mbind at 1, stm_bind at 1, mret at 1, stm_ret at 1.
  unfold with_gc_lock. unfold mbind at 1, stm_bind at 1, get at 1. rewrite Hg.
  unfold mbind at 1, stm_bind at 1. rewrite change_free by by eapply idle_free.
  apply (recoverable_gc _ true) in Hw. change (dir w) with (dir (set_gc true w)) in Hd.
  revert Hw Hd. generalize (set_gc true w) as w1. intros w1 Hw Hd. clear w Hg.
  unfold finally.
  match goal with |- context [(?b w1)] => set (body := b) end.
  assert (exists o w2 f1, body w1 = (Ok o, w2) /\ o_state o = "quarantined" /\ complete w2 /\ dir w2 = idle f1)
    as (o & w2 & f1 & Eb & Ho & Hc & Hd2).
  { unfold body. clear body.
    destruct (recoverable_reads w1 Hw) as [(j & Hj & He)|(doc & m' & id' & Hc & Ha & Hj & Hm & Hi & Hs)].
    - unfold mbind at 1, stm_bind at 1. unfold mbind at 1, stm_bind at 1, lift. unfold mbind, stm_bind.
      rewrite read_manifest_run. destruct (with_journal_ready _ _ Hj) as (_ & Hf & _).
      rewrite Hf, (pf_read _ _ _ _ _ Hp), (pf_id _ _ _ _ _ Hp). cbn [text_of].
      rewrite (read_journal_run j w1 He), (pf_active _ _ _ _ _ Hp). cbn [String.eqb Ascii.eqb Bool.eqb andb negb].
      apply perform_free; [done|]. rewrite Hd in Hf |- *. cbn in Hf. by rewrite Hf.
    - unfold mbind, stm_bind, lift. rewrite read_manifest_run, Hm, Hi. cbn [text_of].
      rewrite (read_journal_run (Some doc) w1 Hj), Hs, Ha. cbn [String.eqb Ascii.eqb Bool.eqb andb].
      by do 3 eexists. }
  rewrite Eb. unfold living. rewrite Hd2. cbn [idle alive].
  rewrite change_free by by eapply idle_free. exists o, (set_gc false w2). split; [done|].
  split; [done|]. split; [|split; [done|cbn; by rewrite Hd2]].
  destruct Hc as (doc & Ha & H1 & H2 & H4). exists doc. split; [done|]. split; [exact H1|]. by split.
Qed.
End Performable.
End Operation.

(** ** Attempts *)

Section Attempts.
Context (sha256 : string -> string) (show_g show_1f : float -> string) (kinds : list string)
        (root kind name : string) (same_fs : bool)
        (bundle : Harvest.Bundle) (rest : Layout) (policy : Policy).

Notation can_perform now := (performable sha256 show_g show_1f kinds root kind name same_fs bundle rest policy now).
Notation do_quarantine := (quarantine sha256 show_g show_1f kinds root kind name same_fs bundle rest policy).

(** What may happen before the last attempt: quarantines at other times, by
    processes that may die at any write, and locks being removed. *)
Inductive attempt (f0 : manifest_file) (l0 : tree) (m : obj) (id : string) (es : list Move) (w : World) : World -> Prop :=
| attempt_run b blocked now :
    can_perform now f0 l0 m id es -> attempt f0 l0 m id es w (do_quarantine blocked true now (start b w)).2
| attempt_unlock : attempt f0 l0 m id es w (unlocked w).

(** The run is where it can be taken up again, and nothing is lost. *)
Definition resumable (f0 : manifest_file) (l0 : tree) (es : list Move) (w : World) : Prop :=
  recoverable root kind name f0 l0 es w /\ intact (solid l0) w.

Lemma resumable_same f0 l0 es w d b :
  manifest d = manifest (dir w) -> resumable f0 l0 es w -> resumable f0 l0 es (set_gc b (set_dir d w)).
Proof.
  intros Hd [H1 H2]. split; [by apply recoverable_gc, recoverable_dir|by apply intact_gc, intact_dir].
Qed.

Lemma attempts_resumable f0 l0 m id es w w' :
  tree_ok l0 -> rtc (attempt f0 l0 m id es) w w' -> resumable f0 l0 es w -> resumable f0 l0 es w'.
Proof.
  intros Hok Hsteps. induction Hsteps as [|w w1 w' Hstep _ IH]; [done|]. intros Hw. apply IH. clear IH.
  destruct Hstep as [b blocked now Hp|]; [|by apply resumable_same].
  destruct (do_quarantine blocked true now (start b w)) as [r w1] eqn:E. cbn [snd].
  pose proof (resumable_same f0 l0 es w (dir (start b w)) (gc_locked w) eq_refl Hw) as Hs.
  change (set_gc _ _) with (start b w) in Hs. split.
  - eapply quarantine_recoverable; [exact Hp|exact Hok|apply Hs|exact E].
  - eapply quarantine_intact; [apply Hs|exact E].
Qed.

(** C22 An interrupted quarantine can always be completed.  Where a quarantine
    can be performed, let any number of attempts at it die at any of their
    writes, or be refused, with the locks they leave being removed: an attempt
    that is not interrupted then succeeds, and afterwards every file of the plan
    is in the trash as it was in the run directory, nothing else of the run
    directory has changed, the journal lists exactly these files, all of them
    moved, the manifest says quarantined, and no lock is held. *)
Theorem quarantine_resumes f0 l0 m id es now w0 w1 :
  manifest (dir w0) = f0 -> live w0 = l0 -> trash w0 = ∅ -> journal w0 = NoJournal -> tree_ok l0 ->
  can_perform now f0 l0 m id es -> rtc (attempt f0 l0 m id es) w0 w1 ->
  exists o w2, do_quarantine None true now (start None (unlocked w1)) = (Ok o, w2) /\
    o_state o = "quarantined" /\ set_aside_file root kind name (manifest (dir w2)) /\
    gc_locked w2 = false /\ manifest_lock (dir w2) = false /\
    (exists doc, journal w2 = HasJournal doc /\ whole (map core es) doc) /\
    (forall e rel, e ∈ es -> rel_ok (m_path e) = Ok rel ->
       live w2 !! rel = None /\ trash w2 !! rel = l0 !! rel) /\
    (forall p, (forall e, e ∈ es -> rel_ok (m_path e) <> Ok p) -> live w2 !! p = l0 !! p).
Proof.
  intros Hf Hl Ht Hj Hok Hp Hsteps.
  assert (resumable f0 l0 es w0) as H0.
  { split; [by left|]. split; [|intros doc e H; congruence]. intros p. left.
    rewrite Hl, Ht. done. }
  pose proof (attempts_resumable _ _ _ _ _ _ _ Hok Hsteps H0) as H1.
  apply (resumable_same _ _ _ _ (mkDir (manifest (dir w1)) false None true) false eq_refl) in H1.
  change (set_gc _ _) with (start None (unlocked w1)) in H1. destruct H1 as [Hr Hi].
  destruct (quarantine_free _ _ _ _ _ _ _ _ _ _ _ _ _ _ _ _ _ Hp Hok _ _ Hr eq_refl eq_refl)
    as (o & w2 & E & Ho & (doc & Hw & (_ & Hout) & [Hjd Hs] & Hg) & Hgc & Hlock).
  assert (intact (solid l0) w2) as Hi2 by (eapply quarantine_intact; [exact Hi|exact E]).
  exists o, w2. split_and!; try done.
  - by exists doc.
  - intros e rel He Hrel. rewrite Forall_forall in Hg.
    destruct (Hg (core e)) as (rel' & Hrel' & Hn); [by apply list_elem_of_fmap_2|].
    cbn [core fst] in Hrel'. rewrite Hrel in Hrel'. injection Hrel' as <-. split; [done|].
    destruct (plan_file _ _ _ _ _ _ _ _ _ _ _ _ _ _ _ _ _ Hp e rel He Hrel) as (x & n & Hx).
    destruct (in_one_place _ _ Hi2 rel) as [[H _]|[_ H]]; unfold solid in H; rewrite ?Hn, Hx in H; [done|].
    rewrite Hx. destruct (trash w2 !! rel) as [[]|]; congruence.
  - intros p Hne. apply Hout. intros c (e & -> & He)%list_elem_of_fmap. by apply Hne.
Qed.

End Attempts.

(** ** Witness *)

Definition tree_okb (t : tree) : bool :=
  forallb (fun pn => forallb (fun q => match t !! q with Some Directory | Some (Link _) => true | _ => false end)
                       (above pn.1)) (map_to_list t).

Lemma tree_okb_ok t : tree_okb t = true -> tree_ok t.
Proof.
  unfold tree_okb. rewrite forallb_true. intros H p q [n Hn] Hq.
  specialize (H (p, n)). rewrite forallb_true in H. specialize (H ltac:(by apply elem_of_map_to_list) q Hq).
  destruct (t !! q) as [[| | |]|]; try done; auto.
Qed.

Definition demo_entries : list Move :=
  [mkMove "a/x.log" (JInt 3) "pending"; mkMove "y.log" (JInt 2) "pending"].

Definition demo_fields : obj := match demo_run_manifest with JObj o => o | _ => [] end.

Definition demo_set_aside : res obj * Dir :=
  update_manifest (run_dir "/w" "kl" "k2") 4 None None (set_aside_patch demo_now) demo_now
    (mkDir (manifest (dir demo_world)) false None true).

Lemma demo_performable :
  performable demo_sha demo_show demo_show RUN_KINDS "/w" "kl" "k2" true demo_bundle (demo_layout []) demo_policy
    demo_now (manifest (dir demo_world)) (live demo_world) demo_fields "k2" demo_entries.
Proof.
  split; [vm_compute; reflexivity..| |].
  - do 2 eexists. split; vm_compute; reflexivity.
  - exists 4%Z, (match demo_set_aside.1 with Ok m => m | Err _ => [] end), demo_set_aside.2.
    split; vm_compute; reflexivity.
Qed.

(** Killed in the middle of the moves, and killed again on the way. *)
Definition demo_killed_twice : World := (demo_quarantine (start (Some 4) (unlocked demo_killed))).2.

Lemma quarantine_resumes_witness :
  alive (dir demo_killed) = false /\ alive (dir demo_killed_twice) = false /\
  exists o w2, demo_quarantine (start None (unlocked demo_killed_twice)) = (Ok o, w2) /\
    o_state o = "quarantined" /\ live w2 !! ["y.log"] = None /\ trash w2 !! ["y.log"] = Some (File "de" 1).
Proof.
  split; [vm_compute; reflexivity|]. split; [vm_compute; reflexivity|].
  destruct (quarantine_resumes demo_sha demo_show demo_show RUN_KINDS "/w" "kl" "k2" true demo_bundle (demo_layout [])
    demo_policy (manifest (dir demo_world)) (live demo_world) demo_fields "k2" demo_entries demo_now
    demo_world demo_killed_twice eq_refl eq_refl eq_refl eq_refl
    (tree_okb_ok (live demo_world) ltac:(vm_compute; reflexivity)) demo_performable)
    as (o & w2 & E & Ho & _ & _ & _ & _ & Hmoved & _).
  - eapply rtc_l; [exact (attempt_run demo_sha demo_show demo_show RUN_KINDS "/w" "kl" "k2" true demo_bundle
      (demo_layout []) demo_policy _ _ _ _ _ demo_world (Some 7) None demo_now demo_performable)|].
    eapply rtc_l; [apply attempt_unlock|]. apply rtc_once.
    exact (attempt_run demo_sha demo_show demo_show RUN_KINDS "/w" "kl" "k2" true demo_bundle
      (demo_layout []) demo_policy _ _ _ _ _ (unlocked demo_killed) (Some 4) None demo_now demo_performable).
  - exists o, w2. split; [exact E|]. split; [exact Ho|].
    apply (Hmoved (mkMove "y.log" (JInt 2) "pending")); [by right; left|reflexivity].
Defined.

End Recovery.
