(* ===== verification/Provenance.v ===== *)
(** Provenance documents: [src/tools/bigcherry/core/provenance.py].

    The typed records with their [document] and [from_document], the class that
    an artifact inherits from its parents, and the contracts an artifact of a
    kind must meet to be promotable. *)

From S2P Require Import Prelude Json Pretty.

Module Provenance.
Import Json Pretty.

Notation obj := (list (string * json)).

Definition ProvenanceError (msg : string) : exn := Exn "ProvenanceError" msg.

Definition SCHEMA_VERSION : Z := 2.
Definition REQUIRED_NAMESPACES : list string := ["project"; "source"; "build"; "workload"; "campaign"].

Inductive ProvenanceClass : Set := Production | ImportedLegacy | Development | Diagnostic.

#[global] Instance ProvenanceClass_eq_dec : EqDecision ProvenanceClass.
Proof. solve_decision. Defined.

Definition class_name (c : ProvenanceClass) : string :=
  match c with
  | Production => "production" | ImportedLegacy => "imported-legacy"
  | Development => "development" | Diagnostic => "diagnostic"
  end.

Definition PROVENANCE_CLASSES : list ProvenanceClass := [Production; ImportedLegacy; Development; Diagnostic].

(** [provenance_class not in _PROVENANCE_CLASSES]: the set hashes its argument. *)
Definition read_class (v : json) : res ProvenanceClass :=
  match v with
  | JArr _ | JObj _ => Err (TypeError ("unhashable type: '" +:+ type_name v +:+ "'"))
  | _ =>
      of_option (ProvenanceError ("unknown project.provenance_class: " +:+ jrepr v))
        (List.find (fun c => is_str (Some v) (class_name c)) PROVENANCE_CLASSES)
  end.

Definition require_str_or_none (o : obj) (key field : string) : res (option string) :=
  match jget o key with
  | None | Some JNull => Ok None
  | Some (JStr s) => Ok (Some s)
  | Some _ => Err (ProvenanceError ("provenance field " +:+ py_repr field +:+ " must be a string or null"))
  end.

Definition as_str (v : json) : option string := match v with JStr s => Some s | _ => None end.

Definition require_str_tuple (o : obj) (key field : string) : res (list string) :=
  let bad := ProvenanceError ("provenance field " +:+ py_repr field +:+ " must be a list of strings") in
  match jget o key with
  | None | Some JNull => Ok []
  | Some (JArr l) => mapR (fun v => of_option bad (as_str v)) l
  | Some _ => Err bad
  end.

(** [isinstance(document, dict)] *)
Definition as_dict (bad : string) (v : json) : res obj :=
  match v with JObj o => Ok o | _ => Err (ProvenanceError bad) end.

(** [document.get(key) or []], which must be a list. *)
Definition raw_list (o : obj) (key bad : string) : res (list json) :=
  let v := get_or o key JNull in
  if jtruthy v then match v with JArr l => Ok l | _ => Err (ProvenanceError bad) end else Ok [].

(** ** The records *)

Record PatchModuleProvenance : Type := mkPatchModule { pm_patch_id : string; pm_content_hash : string }.

Definition patch_module_document (p : PatchModuleProvenance) : json :=
  JObj [("patch_id", JStr (pm_patch_id p)); ("content_hash", JStr (pm_content_hash p))].

Definition patch_module_from (v : json) : res PatchModuleProvenance :=
  o ← as_dict "patch module provenance entry must be an object" v;
  match jget o "patch_id", jget o "content_hash" with
  | Some (JStr p), Some (JStr c) => Ok (mkPatchModule p c)
  | _, _ => Err (ProvenanceError "patch module provenance entry requires patch_id/content_hash strings")
  end.

Record BuildInputProvenance : Type := mkBuildInput { bi_name : string; bi_artifact_id : string; bi_content_hash : string }.

Definition build_input_document (b : BuildInputProvenance) : json :=
  JObj [("name", JStr (bi_name b)); ("artifact_id", JStr (bi_artifact_id b)); ("content_hash", JStr (bi_content_hash b))].

Definition build_input_from (v : json) : res BuildInputProvenance :=
  o ← as_dict "build input provenance entry must be an object" v;
  match jget o "name", jget o "artifact_id", jget o "content_hash" with
  | Some (JStr n), Some (JStr a), Some (JStr c) => Ok (mkBuildInput n a c)
  | _, _, _ => Err (ProvenanceError "build input provenance entry requires name/artifact_id/content_hash strings")
  end.

Record ProjectProvenance : Type := mkProject { provenance_class : ProvenanceClass; bigcherry_revision : option string }.

Notation jostr := (jopt JStr).

Definition project_document (p : ProjectProvenance) : json :=
  JObj [("provenance_class", JStr (class_name (provenance_class p))); ("bigcherry_revision", jostr (bigcherry_revision p))].

Definition project_from (v : json) : res ProjectProvenance :=
  o ← as_dict "project provenance must be an object" v;
  c ← read_class (get_or o "provenance_class" (JStr "production"));
  r ← require_str_or_none o "bigcherry_revision" "project.bigcherry_revision";
  Ok (mkProject c r).

Record SourceProvenance : Type := mkSource {
  upstream_revision : option string;
  source_plan_id : option string;
  materialization_plan_id : option string;
  source_tree_oid : option string;
  source_slice_id : option string;
  git_object_format : option string;
  overlay_content_hash : option string;
  patch_set_id : option string;
  patch_classification : option string;
  patch_modules : list PatchModuleProvenance;
}.

Definition source_document (s : SourceProvenance) : json :=
  JObj [("upstream_revision", jostr (upstream_revision s)); ("source_plan_id", jostr (source_plan_id s));
        ("materialization_plan_id", jostr (materialization_plan_id s)); ("source_tree_oid", jostr (source_tree_oid s));
        ("source_slice_id", jostr (source_slice_id s)); ("git_object_format", jostr (git_object_format s));
        ("overlay_content_hash", jostr (overlay_content_hash s)); ("patch_set_id", jostr (patch_set_id s));
        ("patch_classification", jostr (patch_classification s));
        ("patch_modules", JArr (map patch_module_document (patch_modules s)))].

Definition source_from (v : json) : res SourceProvenance :=
  o ← as_dict "source provenance must be an object" v;
  raw ← raw_list o "patch_modules" "source.patch_modules must be a list";
  a ← require_str_or_none o "upstream_revision" "source.upstream_revision";
  b ← require_str_or_none o "source_plan_id" "source.source_plan_id";
  c ← require_str_or_none o "materialization_plan_id" "source.materialization_plan_id";
  d ← require_str_or_none o "source_tree_oid" "source.source_tree_oid";
  e ← require_str_or_none o "source_slice_id" "source.source_slice_id";
  f ← require_str_or_none o "git_object_format" "source.git_object_format";
  g ← require_str_or_none o "overlay_content_hash" "source.overlay_content_hash";
  h ← require_str_or_none o "patch_set_id" "source.patch_set_id";
  i ← require_str_or_none o "patch_classification" "source.patch_classification";
  ms ← mapR patch_module_from raw;
  Ok (mkSource a b c d e f g h i ms).

Record BuildProvenance : Type := mkBuild {
  build_plan_id : option string;
  effective_build_id : option string;
  binary_hash : option string;
  runtime_bundle_hash : option string;
  targets : list string;
  catalog_architectures : list string;
  inputs : list BuildInputProvenance;
}.

Definition build_document (b : BuildProvenance) : json :=
  JObj [("build_plan_id", jostr (build_plan_id b)); ("effective_build_id", jostr (effective_build_id b));
        ("binary_hash", jostr (binary_hash b)); ("runtime_bundle_hash", jostr (runtime_bundle_hash b));
        ("targets", jstrs (targets b)); ("catalog_architectures", jstrs (catalog_architectures b));
        ("inputs", JArr (map build_input_document (inputs b)))].

Definition build_from (v : json) : res BuildProvenance :=
  o ← as_dict "build provenance must be an object" v;
  raw ← raw_list o "inputs" "build.inputs must be a list";
  a ← require_str_or_none o "build_plan_id" "build.build_plan_id";
  b ← require_str_or_none o "effective_build_id" "build.effective_build_id";
  c ← require_str_or_none o "binary_hash" "build.binary_hash";
  d ← require_str_or_none o "runtime_bundle_hash" "build.runtime_bundle_hash";
  e ← require_str_tuple o "targets" "build.targets";
  f ← require_str_tuple o "catalog_architectures" "build.catalog_architectures";
  ins ← mapR build_input_from raw;
  Ok (mkBuild a b c d e f ins).

Record WorkloadProvenance : Type := mkWorkload { workload_id : option string; workload_spec_id : option string }.

Definition workload_document (w : WorkloadProvenance) : json :=
  JObj [("workload_id", jostr (workload_id w)); ("workload_spec_id", jostr (workload_spec_id w))].

Definition workload_from (v : json) : res WorkloadProvenance :=
  o ← as_dict "workload provenance must be an object" v;
  a ← require_str_or_none o "workload_id" "workload.workload_id";
  b ← require_str_or_none o "workload_spec_id" "workload.workload_spec_id";
  Ok (mkWorkload a b).

Record CampaignProvenance : Type := mkCampaign {
  run_id : option string;
  campaign_plan_id : option string;
  producer_stage : option string;
  producer_artifact_ids : list string;
  comparison_plan_id : option string;
}.

Definition campaign_document (c : CampaignProvenance) : json :=
  JObj [("run_id", jostr (run_id c)); ("campaign_plan_id", jostr (campaign_plan_id c));
        ("producer_stage", jostr (producer_stage c)); ("producer_artifact_ids", jstrs (producer_artifact_ids c));
        ("comparison_plan_id", jostr (comparison_plan_id c))].

Definition campaign_from (v : json) : res CampaignProvenance :=
  o ← as_dict "campaign provenance must be an object" v;
  a ← require_str_or_none o "run_id" "campaign.run_id";
  b ← require_str_or_none o "campaign_plan_id" "campaign.campaign_plan_id";
  c ← require_str_or_none o "producer_stage" "campaign.producer_stage";
  d ← require_str_tuple o "producer_artifact_ids" "campaign.producer_artifact_ids";
  e ← require_str_or_none o "comparison_plan_id" "campaign.comparison_plan_id";
  Ok (mkCampaign a b c d e).

Record ProvenanceV2 : Type := mkProvenance {
  schema_version : Z;
  project : ProjectProvenance;
  source : SourceProvenance;
  build : BuildProvenance;
  workload : WorkloadProvenance;
  campaign : CampaignProvenance;
}.

Definition document (p : ProvenanceV2) : json :=
  JObj [("schema_version", JInt (schema_version p)); ("project", project_document (project p));
        ("source", source_document (source p)); ("build", build_document (build p));
        ("workload", workload_document (workload p)); ("campaign", campaign_document (campaign p))].

(** [isinstance(document.get(name), dict)] *)
Definition has_dict (o : obj) (name : string) : bool :=
  match jget o name with Some (JObj _) => true | _ => false end.

(** [validate]: also the opening of [ProvenanceV2.from_document]. *)
Definition validate (v : json) : res obj :=
  let bad := ProvenanceError "only complete provenance schema v2 is promotable" in
  match v with
  | JObj o =>
      _ ← ensure (is_int (jget o "schema_version") SCHEMA_VERSION) bad;
      let missing := List.filter (fun name => negb (has_dict o name)) REQUIRED_NAMESPACES in
      _ ← ensure (bool_decide (missing = []))
            (ProvenanceError ("missing provenance namespace(s): " +:+ String.concat ", " missing));
      Ok o
  | _ => Err bad
  end.

Definition from_document (v : json) : res ProvenanceV2 :=
  o ← validate v;
  p ← project_from (get_or o "project" JNull);
  s ← source_from (get_or o "source" JNull);
  b ← build_from (get_or o "build" JNull);
  w ← workload_from (get_or o "workload" JNull);
  c ← campaign_from (get_or o "campaign" JNull);
  Ok (mkProvenance SCHEMA_VERSION p s b w c).

(** ** What is inherited *)

Definition class_in (c : ProvenanceClass) (parents : list ProvenanceV2) : bool :=
  existsb (fun p => bool_decide (provenance_class (project p) = c)) parents.

Definition opt_class (o : option ProvenanceClass) : ProvenanceClass := default Production o.

Definition derived_provenance_class (parents : list ProvenanceV2) (local_class : ProvenanceClass) : ProvenanceClass :=
  if negb (bool_decide (local_class = Production)) then local_class
  else opt_class (List.find (fun c => class_in c parents) [ImportedLegacy; Development; Diagnostic]).

Definition derive (parents : list ProvenanceV2) (parent_artifact_ids : list string) (project_revision : string)
    (s : SourceProvenance) (b : BuildProvenance) (w : WorkloadProvenance) (run : string) (stage : string)
    (campaign_plan comparison_plan : option string) (local_class : ProvenanceClass) : ProvenanceV2 :=
  mkProvenance SCHEMA_VERSION
    (mkProject (derived_provenance_class parents local_class) (Some project_revision)) s b w
    (mkCampaign (Some run) campaign_plan (Some stage) (py_sorted String.leb parent_artifact_ids) comparison_plan).

(** ** Contracts of kinds *)

Definition lineage : list string :=
  ["source.source_plan_id"; "source.materialization_plan_id"; "source.source_slice_id"; "source.patch_set_id"].
Definition measured (workload : string) : list string :=
  ["source.source_slice_id"; "build.build_plan_id"; "build.effective_build_id"; workload; "campaign.run_id"].
Definition observed : list string :=
  ["source.source_slice_id"; "build.build_plan_id"; "build.effective_build_id"; "campaign.run_id"; "campaign.producer_stage"].

Definition KIND_REQUIRED_FIELDS : list (string * list string) :=
  [("source-metadata", ["project.bigcherry_revision"; "source.upstream_revision"; "source.source_plan_id";
      "source.materialization_plan_id"; "source.source_tree_oid"; "source.source_slice_id"; "source.git_object_format";
      "source.patch_set_id"; "campaign.run_id"; "campaign.producer_stage"]);
   ("manifest", lineage ++ ["build.build_plan_id"; "campaign.run_id"]);
   ("generated-tree", ["source.source_slice_id"; "build.build_plan_id"; "campaign.run_id"]);
   ("binary", lineage ++ ["build.build_plan_id"; "build.effective_build_id"; "build.binary_hash"; "campaign.run_id"]);
   ("runtime-bundle", lineage ++ ["build.build_plan_id"; "build.effective_build_id"; "build.binary_hash";
      "build.runtime_bundle_hash"; "campaign.run_id"]);
   ("record-jsonl", measured "workload.workload_spec_id");
   ("inventory", measured "workload.workload_id");
   ("dispatch-db", measured "workload.workload_id");
   ("tuning-measurements", measured "workload.workload_id");
   ("promoted-winners", measured "workload.workload_id" ++ ["campaign.producer_stage"]);
   ("replay-cache", measured "workload.workload_id");
   ("replay-coverage", observed);
   ("comparison-report", ["campaign.campaign_plan_id"; "campaign.run_id"; "campaign.comparison_plan_id"; "campaign.producer_stage"]);
   ("comparison-raw-evidence", observed);
   ("smoke-result", ["source.source_plan_id"; "source.materialization_plan_id"; "source.source_tree_oid"; "source.source_slice_id";
      "source.git_object_format"; "source.patch_set_id"; "build.build_plan_id"; "campaign.run_id"; "campaign.producer_stage"])].

(** [dotted.partition(".")] *)
Fixpoint partition_dot (s : string) : string * string :=
  match s with
  | EmptyString => ("", "")
  | String c s' => if Ascii.eqb c "."%char then ("", s') else let '(a, b) := partition_dot s' in (String c a, b)
  end.

Definition get_dotted (doc : json) (dotted : string) : json :=
  let '(namespace, field) := partition_dot dotted in
  match doc with
  | JObj o => match jget o namespace with Some (JObj n) => get_or n field JNull | _ => JNull end
  | _ => JNull
  end.

Definition validate_for_kind (doc : json) (kind : string) : res ProvenanceV2 :=
  parsed ← from_document doc;
  if negb (bool_decide (provenance_class (project parsed) = Production)) then Ok parsed
  else
    required ← of_option (ProvenanceError ("no provenance contract registered for artifact kind " +:+ py_repr kind))
                 (jget KIND_REQUIRED_FIELDS kind);
    let missing := List.filter (fun dotted => negb (jtruthy (get_dotted (document parsed) dotted))) required in
    _ ← ensure (bool_decide (missing = []))
          (ProvenanceError ("production " +:+ py_repr kind +:+ " artifact is missing required provenance field(s): "
             +:+ String.concat ", " missing));
    Ok parsed.

Definition require_promotable (doc : json) (kind : string) : res ProvenanceV2 :=
  parsed ← validate_for_kind doc kind;
  _ ← ensure (bool_decide (provenance_class (project parsed) = Production))
        (ProvenanceError (py_repr kind +:+ " artifact is not promotable: provenance_class="
           +:+ py_repr (class_name (provenance_class (project parsed)))));
  Ok parsed.

(** [actual != wanted], as both are strings or the value is something else. *)
Definition require_compatible (doc : json) (expected : list (string * string)) : res obj :=
  value ← validate doc;
  _ ← mapR (fun dw =>
        let '(namespace, field) := partition_dot dw.1 in
        _ ← ensure (str_in namespace REQUIRED_NAMESPACES && truthy field)
              (ProvenanceError ("invalid expected provenance field " +:+ py_repr dw.1));
        let actual := get_dotted (JObj value) dw.1 in
        ensure (is_str (Some actual) dw.2)
          (ProvenanceError ("provenance mismatch for " +:+ dw.1 +:+ ": expected " +:+ py_repr dw.2 +:+ ", got " +:+ jrepr actual)))
      expected;
  Ok value.

(** ** Inputs of a lane *)

(** What [lane_input_provenance] reads of an [ArtifactRef]. *)
Record Parent : Type := mkParent { par_artifact_id : string; par_content_hash : string }.

Definition parent_identity (r : Parent) : string :=
  if truthy (par_artifact_id r) then par_artifact_id r else par_content_hash r.

(** The mapping's entries, by name. *)
Definition lane_input_provenance (parents : list (string * Parent)) : list BuildInputProvenance * list string :=
  let entries := py_sorted by_key parents in
  (map (fun e => mkBuildInput e.1 (parent_identity e.2) (par_content_hash e.2)) entries,
   py_sorted String.leb (map (fun e => parent_identity e.2) entries)).

(** ** Reading back *)

Lemma require_str_ok o key field x : jget o key = Some (jostr x) -> require_str_or_none o key field = Ok x.
Proof. unfold require_str_or_none. intros ->. by destruct x. Qed.

Lemma require_tuple_ok o key field l : jget o key = Some (jstrs l) -> require_str_tuple o key field = Ok l.
Proof.
  unfold require_str_tuple. intros ->. unfold jstrs. induction l as [|s l IH]; [done|]. cbn [map mapR].
  cbn [as_str of_option mbind result_bind]. cbn [mapR] in IH. by rewrite IH.
Qed.

Lemma raw_list_ok o key bad l : jget o key = Some (JArr l) -> raw_list o key bad = Ok l.
Proof. unfold raw_list, get_or. intros ->. by destruct l. Qed.

Lemma mapR_back {A B} (f : A -> B) (g : B -> res A) l : (forall x, g (f x) = Ok x) -> mapR g (map f l) = Ok l.
Proof. intros H. induction l as [|x l IH]; [done|]. cbn. by rewrite H, IH. Qed.

(** What may happen to the order of the members of a document on its way: [g]
    keeps it, or puts every object's keys in order. *)
Class Reorders (g : json -> json) (members : obj -> obj) : Prop := {
  g_obj o : g (JObj o) = JObj (members o);
  g_get o key : NoDup (map fst o) -> jget (members o) key = g <$> jget o key;
  g_arr l : g (JArr l) = JArr (map g l);
  g_str s : g (JStr s) = JStr s;
  g_int z : g (JInt z) = JInt z;
  g_null : g JNull = JNull;
}.

#[global] Instance sorting : Reorders sort_keys sorted_members.
Proof. split; try done; [apply sort_keys_members|]. intros. by apply jget_sorted_members. Qed.

#[global] Instance keeping : Reorders id id.
Proof. split; try done; intros; [|by rewrite map_id]. by destruct (jget _ _). Qed.

(** The keys of a document are constants. *)
Ltac keys_differ := cbn [map fst]; refine (bool_decide_unpack _ _); vm_compute; exact I.

Section Back.
Context `{Reorders g members}.

Lemma got o key v : NoDup (map fst o) -> jget o key = Some v -> jget (members o) key = Some (g v).
Proof. intros Hnd E. by rewrite g_get, E. Qed.

Lemma got_str o key s : NoDup (map fst o) -> jget o key = Some (JStr s) -> jget (members o) key = Some (JStr s).
Proof. intros Hnd E%(got o key _ Hnd). by rewrite g_str in E. Qed.

Lemma got_opt o key x : NoDup (map fst o) -> jget o key = Some (jostr x) -> jget (members o) key = Some (jostr x).
Proof. intros Hnd E%(got o key _ Hnd). destruct x; cbn in E; by rewrite ?g_str, ?g_null in E. Qed.

Lemma got_strs o key l : NoDup (map fst o) -> jget o key = Some (jstrs l) -> jget (members o) key = Some (jstrs l).
Proof.
  intros Hnd E%(got o key _ Hnd). unfold jstrs in *. rewrite g_arr, map_map in E. rewrite E. do 2 f_equal.
  apply map_ext. intros s. apply g_str.
Qed.

Lemma got_arr o key l : NoDup (map fst o) -> jget o key = Some (JArr l) -> jget (members o) key = Some (JArr (map g l)).
Proof. intros Hnd E%(got o key _ Hnd). by rewrite g_arr in E. Qed.

(** Reading fields one after the other. *)
Ltac read_field :=
  match goal with
  | |- context [require_str_or_none (members ?o) ?k ?f] =>
      erewrite (require_str_ok (members o) k f) by (apply got_opt; [keys_differ|reflexivity])
  | |- context [require_str_tuple (members ?o) ?k ?f] =>
      erewrite (require_tuple_ok (members o) k f) by (apply got_strs; [keys_differ|reflexivity])
  | |- context [raw_list (members ?o) ?k ?b] =>
      erewrite (raw_list_ok (members o) k b) by (apply got_arr; [keys_differ|reflexivity])
  | |- context [jget (members ?o) ?k] =>
      erewrite (got_str o k) by (keys_differ || reflexivity)
  end; cbn [mbind result_bind].

Lemma patch_module_back p : patch_module_from (g (patch_module_document p)) = Ok p.
Proof.
  unfold patch_module_from, patch_module_document. rewrite g_obj. cbn [as_dict mbind result_bind]. repeat read_field. by destruct p.
Qed.

Lemma build_input_back b : build_input_from (g (build_input_document b)) = Ok b.
Proof.
  unfold build_input_from, build_input_document. rewrite g_obj. cbn [as_dict mbind result_bind]. repeat read_field. by destruct b.
Qed.

Lemma project_back p : project_from (g (project_document p)) = Ok p.
Proof.
  unfold project_from, project_document. rewrite g_obj. cbn [as_dict mbind result_bind]. unfold get_or. repeat read_field.
  by destruct p as [[] ?].
Qed.

Lemma workload_back w : workload_from (g (workload_document w)) = Ok w.
Proof.
  unfold workload_from, workload_document. rewrite g_obj. cbn [as_dict mbind result_bind]. repeat read_field. by destruct w.
Qed.

Lemma source_back s : source_from (g (source_document s)) = Ok s.
Proof.
  unfold source_from, source_document. rewrite g_obj. cbn [as_dict mbind result_bind]. repeat read_field.
  rewrite map_map, (mapR_back (fun x => g (patch_module_document x))) by apply patch_module_back. by destruct s.
Qed.

Lemma build_back b : build_from (g (build_document b)) = Ok b.
Proof.
  unfold build_from, build_document. rewrite g_obj. cbn [as_dict mbind result_bind]. repeat read_field.
  rewrite map_map, (mapR_back (fun x => g (build_input_document x))) by apply build_input_back. by destruct b.
Qed.

Lemma campaign_back c : campaign_from (g (campaign_document c)) = Ok c.
Proof.
  unfold campaign_from, campaign_document. rewrite g_obj. cbn [as_dict mbind result_bind]. repeat read_field. by destruct c.
Qed.

Lemma document_back p : schema_version p = SCHEMA_VERSION -> from_document (g (document p)) = Ok p.
Proof.
  intros Hv. unfold from_document, document. rewrite g_obj. set (o := [_; _; _; _; _; _]).
  assert (forall key x, jget o key = Some x -> jget (members o) key = Some (g x)) as Hget.
  { intros key x. apply got. subst o. keys_differ. }
  assert (validate (JObj (members o)) = Ok (members o)) as ->.
  { unfold validate. erewrite (Hget "schema_version") by reflexivity. rewrite g_int. cbn [is_int num_eqb]. rewrite Hv.
    unfold REQUIRED_NAMESPACES. cbn [List.filter]. unfold has_dict. erewrite !Hget by reflexivity.
    unfold project_document, source_document, build_document, workload_document, campaign_document. by rewrite !g_obj. }
  cbn [mbind result_bind]. unfold get_or. erewrite !Hget by reflexivity. cbn [default from_option id].
  rewrite project_back, source_back, build_back, workload_back, campaign_back. cbn. rewrite <- Hv. by destruct p.
Qed.
End Back.

Lemma jwf_document p : jwf (document p).
Proof.
  destruct p as [v [c r] s b w ca]. unfold document. apply jwf_obj. split; [keys_differ|].
  repeat apply Forall_cons_2; try done; cbn [snd]; apply jwf_obj; (split; [keys_differ|]);
    repeat apply Forall_cons_2; try done; cbn [snd]; try apply jwf_jopt; try apply jwf_jstrs.
  - apply jwf_arr. rewrite Forall_map. apply Forall_true. intros x. apply jwf_obj. split; [keys_differ|].
    by repeat constructor.
  - apply jwf_arr. rewrite Forall_map. apply Forall_true. intros x. apply jwf_obj. split; [keys_differ|].
    by repeat constructor.
Qed.

Lemma from_document_schema v p : from_document v = Ok p -> schema_version p = SCHEMA_VERSION.
Proof. unfold from_document. intros H. by repeat (apply bind_Ok in H as (? & _ & H)); injection H as <-. Qed.

(** ** Theorems *)

(** Provenance documents round trip: a typed record of the current schema
    is what its document is read back as, at once and from either text it is
    written as; every document that is accepted gives such a record, however
    its fields were ordered and whatever else it held. *)
Theorem provenance_roundtrip p :
  (exists v, from_document v = Ok p) <-> schema_version p = SCHEMA_VERSION /\
    from_document (document p) = Ok p /\
    (exists v, loads (dumps (document p)) = Some v /\ from_document v = Ok p) /\
    (exists v, loads (dumps_indent (document p) +:+ newline) = Some v /\ from_document v = Ok p).
Proof.
  split; [intros [v Hv%from_document_schema]|intros (_ & H & _); by eexists].
  pose proof (jwf_document p) as Hwf. split_and!; [done|by apply (document_back (g := id))|..].
  - exists (sort_keys (document p)). split; [by apply loads_dumps|by apply document_back].
  - exists (sort_keys (document p)). split; [by apply loads_indent|by apply document_back].
Qed.

(** [c] was derived with [p] among its parents. *)
Definition derived_from (p c : ProvenanceV2) : Prop :=
  exists parents ids rev s b w run stage plan cmp local, p ∈ parents /\
    c = derive parents ids rev s b w run stage plan cmp local.

Lemma derived_class parents local :
  derived_provenance_class parents local = Production <->
  local = Production /\ forall p, p ∈ parents -> provenance_class (project p) = Production.
Proof.
  unfold derived_provenance_class. destruct (bool_decide_reflect (local = Production)) as [->|Hl]; cbn [negb]; [|by split; [|intros [? _]]].
  destruct (List.find (fun c => class_in c parents) _) as [c|] eqn:E; cbn [opt_class default from_option id].
  - apply List.find_some in E as [Hin Hc]. split.
    + intros ->. by cbn in Hin; destruct Hin as [|[|[|[]]]].
    + intros [_ Hall]. unfold class_in in Hc. apply existsb_exists in Hc as (p & Hp%list_elem_of_In & Hd%bool_decide_eq_true).
      rewrite Hall in Hd by done. subst c. by cbn in Hin; destruct Hin as [|[|[|[]]]].
  - split; [|done]. intros _. split; [done|]. intros p Hp.
    assert (forall c, c ∈ [ImportedLegacy; Development; Diagnostic] -> provenance_class (project p) <> c) as Hno.
    { intros c Hc Heq. pose proof (List.find_none _ _ E c ltac:(by apply list_elem_of_In)) as Hf. cbn in Hf.
      apply not_true_iff_false in Hf. apply Hf. unfold class_in. apply existsb_exists. exists p.
      split; [by apply list_elem_of_In|]. by rewrite bool_decide_eq_true. }
    destruct (provenance_class (project p)); [done|exfalso; by eapply Hno; [|reflexivity]; set_solver..].
Qed.

Lemma ancestor_class a c : rtc derived_from a c -> provenance_class (project c) = Production -> provenance_class (project a) = Production.
Proof.
  induction 1 as [|a b c (parents & ids & rev & s & bd & w & run & stage & plan & cmp & local & Hin & ->) _ IH]; [done|].
  intros Hc. specialize (IH Hc). cbn in IH. apply derived_class in IH as [_ Hall]. by apply Hall.
Qed.

(** C17 Taint is sticky: a document is promotable for a kind exactly when its
    class is production and the kind has a contract all of whose fields it
    carries; and then everything it was derived from, through any number of
    stages, was production too, so that nothing with an imported, development
    or diagnostic ancestor is ever promoted.  Conversely a derived artifact is
    production whenever its own stage and all its parents are. *)
Theorem taint_is_sticky c kind :
  schema_version c = SCHEMA_VERSION ->
  (is_ok (require_promotable (document c) kind) = true <->
   provenance_class (project c) = Production /\
   exists required, jget KIND_REQUIRED_FIELDS kind = Some required /\
     forall dotted, dotted ∈ required -> jtruthy (get_dotted (document c) dotted) = true) /\
  (forall a, is_ok (require_promotable (document c) kind) = true -> rtc derived_from a c ->
     provenance_class (project a) = Production) /\
  (forall parents ids rev s b w run stage plan cmp local,
     local = Production -> (forall p, p ∈ parents -> provenance_class (project p) = Production) ->
     provenance_class (project (derive parents ids rev s b w run stage plan cmp local)) = Production).
Proof.
  intros Hv.
  assert (is_ok (require_promotable (document c) kind) = true <->
   provenance_class (project c) = Production /\
   exists required, jget KIND_REQUIRED_FIELDS kind = Some required /\
     forall dotted, dotted ∈ required -> jtruthy (get_dotted (document c) dotted) = true) as Hiff.
  { unfold require_promotable, validate_for_kind. assert (from_document (document c) = Ok c) as -> by by apply (document_back (g := id)). cbn [mbind result_bind].
    destruct (bool_decide_reflect (provenance_class (project c) = Production)) as [Hp|Hp]; cbn [negb].
    2:{ cbn [mbind result_bind]. rewrite bool_decide_false by done. cbn. split; [done|]. by intros [? _]. }
    destruct (jget KIND_REQUIRED_FIELDS kind) as [required|] eqn:Ek; cbn [of_option mbind result_bind].
    2:{ split; [done|]. by intros (_ & ? & ? & _). }
    destruct (bool_decide_reflect (List.filter (fun dotted => negb (jtruthy (get_dotted (document c) dotted))) required = []))
      as [Hm|Hm]; cbn [ensure mbind result_bind].
    - rewrite bool_decide_true by done. cbn. split; [|done]. intros _. split; [done|]. exists required. split; [done|].
      intros d Hd. rewrite filterb_nil in Hm. specialize (Hm d Hd). by apply negb_false_iff in Hm.
    - cbn. split; [done|]. intros (_ & ? & [= <-] & Hall). exfalso. apply Hm. apply filterb_nil. intros d Hd.
      by rewrite (Hall d Hd). }
  split; [exact Hiff|]. split.
  - intros a Hok Ha. apply Hiff in Hok as [Hp _]. by eapply ancestor_class.
  - intros. cbn. by apply derived_class.
Qed.

(** ** Witnesses *)

Definition demo_source : SourceProvenance :=
  mkSource (Some "abc") (Some "sp") (Some "mp") (Some "oid") (Some "slice") (Some "sha1") None (Some "set") None
    [mkPatchModule "0100_core" "h1"].
Definition demo_build : BuildProvenance :=
  mkBuild (Some "plan") (Some "eff") (Some "bin") None ["llama-server"] ["gfx1100"] [mkBuildInput "source" "id0" "h0"].
Definition demo_none : WorkloadProvenance := mkWorkload None None.

Definition demo_stage (parents : list ProvenanceV2) (local : ProvenanceClass) : ProvenanceV2 :=
  derive parents ["id0"] "rev1" demo_source demo_build demo_none "run1" "build" None None local.

Definition demo_tainted : ProvenanceV2 := demo_stage [demo_stage [demo_stage [] Diagnostic] Production] Production.

Lemma taint_is_sticky_witness :
  is_ok (require_promotable (document (demo_stage [demo_stage [] Production] Production)) "binary") = true /\
  is_ok (require_promotable (document demo_tainted) "binary") = false.
Proof.
  split.
  - apply (taint_is_sticky (demo_stage [demo_stage [] Production] Production) "binary" eq_refl).
    split; [reflexivity|]. eexists. split; [reflexivity|]. intros d Hd.
    assert (forallb (fun d => jtruthy (get_dotted (document (demo_stage [demo_stage [] Production] Production)) d))
      (default [] (jget KIND_REQUIRED_FIELDS "binary")) = true) as Hall by (vm_compute; reflexivity).
    rewrite forallb_forall in Hall. by apply Hall, list_elem_of_In.
  - destruct (taint_is_sticky demo_tainted "binary" eq_refl) as (Hiff & _).
    destruct (is_ok (require_promotable (document demo_tainted) "binary")); [|reflexivity].
    by destruct (proj1 Hiff eq_refl).
Defined.

(** The contract is not applied "regardless of provenance_class": without the
    production class nothing is required. *)
Example contract_is_skipped :
  is_ok (validate_for_kind (document (derive [] [] "" (mkSource None None None None None None None None None [])
     (mkBuild None None None None [] [] []) demo_none "" "" None None Development)) "binary") = true.
Proof. by vm_compute. Qed.

(** A class that is a list is not reported as a [ProvenanceError]. *)
Example class_list_is_type_error :
  (match project_from (JObj [("provenance_class", JArr [])]) with Err e => exn_class e | Ok _ => "" end) = "TypeError".
Proof. by vm_compute. Qed.

End Provenance.
