(* ===== verification/Artifacts.v ===== *)
(** The store of immutable artifacts: [src/tools/bigcherry/core/artifacts.py].

    The state is the tree below the root of the store.  Every system call that
    writes may fail, or be the point where the process is killed; a killed
    process runs no handler. *)

From S2P Require Import Prelude Json Pretty Lines Tree Operations Provenance.
Import Lines.

Module Artifacts.
Import Json Pretty Tree.

Definition ArtifactError (msg : string) : exn := Exn "ArtifactError" msg.

(** What ends a run without handlers. *)
Definition Killed : exn := Exn "Killed" "".

Definition DESCRIPTOR_SCHEMA_VERSION : Z := 1.

(** The path is relative to the root of the store. *)
Record ArtifactRef : Type := mkRef {
  ref_kind : string;
  ref_path : path;
  ref_content_hash : string;
  ref_provenance : json;
  ref_artifact_id : string;
}.

Record ArtifactDescriptor : Type := mkDescriptor {
  d_schema_version : Z;
  d_artifact_id : string;
  d_kind : string;
  d_relative_path : string;
  d_content_hash : string;
  d_provenance : Provenance.ProvenanceV2;
}.

Definition descriptor_document (d : ArtifactDescriptor) : json :=
  JObj [("schema_version", JInt (d_schema_version d)); ("artifact_id", JStr (d_artifact_id d)); ("kind", JStr (d_kind d));
        ("relative_path", JStr (d_relative_path d)); ("content_hash", JStr (d_content_hash d));
        ("provenance", Provenance.document (d_provenance d))].

(** [isinstance(value, str)], and not empty. *)
Definition nonempty_str (v : option json) : option string :=
  match v with Some (JStr s) => if truthy s then Some s else None | _ => None end.

(** [str(Path(p).as_posix())] *)
Definition as_posix (p : string) : string :=
  let anchor := if startswith "//" p && negb (startswith "///" p) then "//" else if Operations.is_absolute p then "/" else "" in
  let s := anchor +:+ String.concat "/" (Operations.parts p) in
  if String.eqb s "" then "." else s.

(** [hashlib.blake2b(_, digest_size=16).hexdigest()] and [hashlib.sha256(_).hexdigest()]. *)
Class Hashes : Type := { blake2b : string -> string; sha256 : string -> string }.

Definition hex_char (c : Ascii.ascii) : bool :=
  let n := Ascii.nat_of_ascii c in bool_decide (48 <= n <= 57) || bool_decide (97 <= n <= 102).

(** Hexadecimal text of a fixed length. *)
Class HashesLaws `{Hashes} : Prop := {
  blake2b_length : forall s, String.length (blake2b s) = 32;
  blake2b_hex : forall s, forallb hex_char (String.list_ascii_of_string (blake2b s)) = true;
  sha256_length : forall s, String.length (sha256 s) = 64;
}.

(** [tempfile.mkstemp(prefix, dir)]: a name nothing has. *)
Class TempNames : Type := { temp_name : tree -> path -> string -> string }.
Class TempNamesLaws `{TempNames} : Prop := {
  temp_fresh : forall t dir prefix, t !! (dir ++ [temp_name t dir prefix]) = None;
  temp_prefix : forall t dir prefix, exists random, temp_name t dir prefix = prefix +:+ random;
}.

(** [try: body finally: cleanup] *)
Definition finally {A} (body : stm Disk A) (cleanup : stm Disk unit) : stm Disk A := fun w =>
  match body w with
  | (Err e, w1) => if bool_decide (e = Killed) then (Err e, w1) else (_ ← cleanup; raise e) w1
  | (Ok a, w1) => (_ ← cleanup; mret a) w1
  end.

(** A call that changes nothing that can be read. *)
Definition system_call : stm Disk unit :=
  f ← next_fault; match f with None => mret tt | Some f => raise (raised f) end.

Definition replace (a b : path) : stm Disk unit :=
  _ ← system_call;
  modify (fun w => match files w !! a with Some n => mkDisk (<[b := n]> (delete a (files w))) (faults w) | None => w end).

(** [Path(p).unlink(missing_ok=True)] *)
Definition unlink_missing_ok (p : path) : stm Disk unit :=
  w ← get; if bool_decide (files w !! p = None) then system_call else unlink p.

Section Store.
Context `{Hashes} `{TempNames} (root : path).

Definition artifact_id_of (kind relative_path content_hash : string) (provenance : Provenance.ProvenanceV2) : string :=
  blake2b ("bigcherry/artifact-descriptor/v1" +:+ String "000" (dumps (JObj
    [("schema_version", JInt DESCRIPTOR_SCHEMA_VERSION); ("kind", JStr kind); ("relative_path", JStr relative_path);
     ("content_hash", JStr content_hash); ("provenance", Provenance.document provenance)]))).

Definition create (kind relative_path content_hash : string) (provenance : Provenance.ProvenanceV2) : ArtifactDescriptor :=
  mkDescriptor DESCRIPTOR_SCHEMA_VERSION (artifact_id_of kind relative_path content_hash provenance)
    kind relative_path content_hash provenance.

(** [except ProvenanceError] *)
Definition wrapping {A} (prefix : string) (m : res A) : res A :=
  match m with
  | Err e => if String.eqb (exn_class e) "ProvenanceError" then Err (ArtifactError (prefix +:+ exn_message e)) else Err e
  | Ok a => Ok a
  end.

(** [ArtifactDescriptor.from_document] *)
Definition descriptor_from (document : json) : res ArtifactDescriptor :=
  match document with
  | JObj o =>
      _ ← ensure (is_int (jget o "schema_version") DESCRIPTOR_SCHEMA_VERSION)
            (ArtifactError "artifact descriptor has an unsupported schema_version");
      match nonempty_str (jget o "kind"), nonempty_str (jget o "relative_path"),
            nonempty_str (jget o "content_hash"), nonempty_str (jget o "artifact_id") with
      | Some kind, Some relative_path, Some content_hash, Some artifact_id =>
          provenance ← wrapping "artifact descriptor has invalid provenance: "
                         (Provenance.from_document (get_or o "provenance" JNull));
          let expected := artifact_id_of kind relative_path content_hash provenance in
          _ ← ensure (String.eqb expected artifact_id)
                (ArtifactError ("artifact descriptor artifact_id " +:+ py_repr artifact_id
                   +:+ " disagrees with its own recomputed identity " +:+ py_repr expected
                   +:+ " -- refusing to trust a tampered descriptor"));
          Ok (mkDescriptor DESCRIPTOR_SCHEMA_VERSION artifact_id kind relative_path content_hash provenance)
      | _, _, _, _ =>
          Err (ArtifactError "artifact descriptor requires non-empty kind/relative_path/content_hash/artifact_id")
      end
  | _ => Err (ArtifactError "artifact descriptor must be an object")
  end.

Definition descriptor_relative (artifact_id : string) : string :=
  ".descriptors/v1/" +:+ str_take 2 artifact_id +:+ "/" +:+ artifact_id +:+ ".json".

(** [_path] *)
Definition path_of (relative : string) : res path :=
  of_option (ArtifactError "artifact path escapes the store") (Operations.resolve_inside root relative).

(** The second half of [publish_bytes]: a file is made under a name of its own,
    written, and renamed to the target. *)
Definition place (target : path) (data : string) : stm Disk unit :=
  w ← get;
  let dir := removelast target in
  let temporary := dir ++ [temp_name (files w) dir ("." +:+ List.last target "" +:+ ".")] in
  f ← next_fault;
  match f with
  | Some f => _ ← (match left f with Some c => set_node temporary (File c) | None => mret tt end); raise (raised f)
  | None =>
      _ ← set_node temporary (File "");
      finally
        (_ ← write_file temporary data;
         _ ← system_call;                       (* fsync *)
         replace temporary target)
        (unlink_missing_ok temporary)
  end.

Definition publish_bytes (relative : string) (data : string) : stm Disk string :=
  target ← lift (path_of relative);
  _ ← iterM make_dir (above target);
  let digest := sha256 data in
  w ← get;
  match node_at (files w) target with
  | Some (File c) =>
      if String.eqb c data then mret digest
      else raise (ArtifactError ("immutable artifact already exists with different bytes: " +:+ relative))
  | Some Directory => raise (OSError "[Errno 21] Is a directory")
  | Some Symlink => raise (OSError "[Errno 40] Too many levels of symbolic links")
  | None => _ ← place target data; mret digest
  end.

(** [source]: what reading the file outside the store gives, or its path and
    the error. *)
Definition publish_file (relative : string) (source : result string string) : stm Disk string :=
  match source with
  | Err why => raise (ArtifactError ("cannot read artifact source " +:+ why))
  | Ok data => publish_bytes relative data
  end.

Definition publish_json (relative : string) (value : json) : stm Disk string :=
  publish_bytes relative (dumps_indent value +:+ newline).

Definition bytes_at (t : tree) (p : path) : option string :=
  match node_at t p with Some (File c) => Some c | _ => None end.

Definition verify (t : tree) (relative expected_hash : string) : res bool :=
  target ← path_of relative;
  Ok (match bytes_at t target with Some c => String.eqb (sha256 c) expected_hash | None => false end).

Definition resolve (t : tree) (relative : string) : res path :=
  target ← path_of relative;
  _ ← ensure (is_file t target) (ArtifactError ("artifact is missing: " +:+ relative));
  Ok target.

Definition persist_descriptor (d : ArtifactDescriptor) : stm Disk path :=
  w ← get;
  good ← lift (verify (files w) (d_relative_path d) (d_content_hash d));
  _ ← lift (ensure good (ArtifactError ("refusing to persist descriptor " +:+ py_repr (d_artifact_id d)
        +:+ ": referenced artifact " +:+ py_repr (d_relative_path d) +:+ " does not exist or does not match content_hash "
        +:+ py_repr (d_content_hash d))));
  _ ← publish_bytes (descriptor_relative (d_artifact_id d)) (dumps_indent (descriptor_document d) +:+ newline);
  lift (path_of (descriptor_relative (d_artifact_id d))).

(** The message leaves out the position [json.loads] gives. *)
Definition load_descriptor (t : tree) (artifact_id : string) : res ArtifactDescriptor :=
  let relative := descriptor_relative artifact_id in
  target ← path_of relative;
  match bytes_at t target with
  | None => Err (ArtifactError ("no artifact descriptor for artifact_id=" +:+ py_repr artifact_id))
  | Some text =>
      document ← of_option (ArtifactError ("artifact descriptor " +:+ py_repr artifact_id +:+ " is not valid JSON"))
                   (loads (universal text));
      d ← descriptor_from document;
      _ ← ensure (String.eqb (d_artifact_id d) artifact_id)
            (ArtifactError ("artifact descriptor stored at " +:+ py_repr relative +:+ " has artifact_id "
               +:+ py_repr (d_artifact_id d) +:+ ", not the requested " +:+ py_repr artifact_id));
      Ok d
  end.

Definition rehydrate (t : tree) (artifact_id : string) (expected_kind : option string) (require_promotable : bool) :
    res ArtifactRef :=
  d ← load_descriptor t artifact_id;
  _ ← ensure (match expected_kind with Some k => String.eqb (d_kind d) k | None => true end)
        (ArtifactError ("artifact " +:+ py_repr artifact_id +:+ " has kind " +:+ py_repr (d_kind d) +:+ ", expected "
           +:+ py_repr (opt_or expected_kind "")));
  _ ← wrapping ("artifact " +:+ py_repr artifact_id +:+ " failed provenance validation: ")
        (if require_promotable then Provenance.require_promotable (Provenance.document (d_provenance d)) (d_kind d)
         else Provenance.validate_for_kind (Provenance.document (d_provenance d)) (d_kind d));
  target ← path_of (d_relative_path d);
  match bytes_at t target with
  | None => Err (ArtifactError ("artifact " +:+ py_repr artifact_id +:+ " references missing bytes: " +:+ py_repr (d_relative_path d)))
  | Some c =>
      _ ← ensure (String.eqb (sha256 c) (d_content_hash d))
            (ArtifactError ("artifact " +:+ py_repr artifact_id +:+ " bytes have changed since publication (recorded "
               +:+ py_repr (d_content_hash d) +:+ ", actual " +:+ py_repr (sha256 c) +:+ ") -- refusing to trust them"));
      Ok (mkRef (d_kind d) target (d_content_hash d) (Provenance.document (d_provenance d)) (d_artifact_id d))
  end.

(** [_publish_ref]; a document that is given as a dict is typed first. *)
Definition publish_ref (relative : string) (publish : stm Disk string) (kind : string)
    (provenance : Provenance.ProvenanceV2 + json) : stm Disk ArtifactRef :=
  p ← lift (match provenance with
            | inl p => Ok p
            | inr document =>
                wrapping ("refusing to publish " +:+ relative +:+ " with kind " +:+ py_repr kind
                          +:+ ": invalid provenance document: ") (Provenance.from_document document)
            end);
  _ ← lift (wrapping ("refusing to publish " +:+ relative +:+ " with kind " +:+ py_repr kind +:+ ": ")
              (Provenance.validate_for_kind (Provenance.document p) kind));
  content_hash ← publish;
  w ← get;
  good ← lift (verify (files w) relative content_hash);
  _ ← lift (ensure good (ArtifactError ("published " +:+ relative +:+ " failed verification")));
  let d := create kind (as_posix relative) content_hash p in
  _ ← persist_descriptor d;
  target ← lift (path_of relative);
  mret (mkRef kind target content_hash (Provenance.document p) (d_artifact_id d)).

Definition publish_bytes_ref (relative data kind : string) provenance : stm Disk ArtifactRef :=
  publish_ref relative (publish_bytes relative data) kind provenance.
Definition publish_file_ref (relative : string) (source : result string string) (kind : string) provenance : stm Disk ArtifactRef :=
  publish_ref relative (publish_file relative source) kind provenance.
Definition publish_json_ref (relative : string) (value : json) (kind : string) provenance : stm Disk ArtifactRef :=
  publish_ref relative (publish_json relative value) kind provenance.

(** One call of the store, by any process, whatever fails in it. *)
Inductive call (t t' : tree) : Prop :=
| call_bytes relative data fs r w : publish_bytes relative data (mkDisk t fs) = (r, w) -> t' = files w -> call t t'
| call_file relative source fs r w : publish_file relative source (mkDisk t fs) = (r, w) -> t' = files w -> call t t'
| call_json relative value fs r w : publish_json relative value (mkDisk t fs) = (r, w) -> t' = files w -> call t t'
| call_persist d fs r w : persist_descriptor d (mkDisk t fs) = (r, w) -> t' = files w -> call t t'
| call_bytes_ref relative data kind p fs r w :
    publish_bytes_ref relative data kind p (mkDisk t fs) = (r, w) -> t' = files w -> call t t'
| call_file_ref relative source kind p fs r w :
    publish_file_ref relative source kind p (mkDisk t fs) = (r, w) -> t' = files w -> call t t'
| call_json_ref relative value kind p fs r w :
    publish_json_ref relative value kind p (mkDisk t fs) = (r, w) -> t' = files w -> call t t'.

End Store.

(** ** Texts and paths *)

Definition plain (c : Ascii.ascii) : bool := negb (is_cr c).

Lemma no_cr_plain s : no_cr s = str_all plain s.
Proof. induction s as [|c s IH]; [done|]. cbn. by rewrite IH. Qed.

Lemma str_all_impl (f g : Ascii.ascii -> bool) s : (forall c, f c = true -> g c = true) ->
  str_all f s = true -> str_all g s = true.
Proof. intros Hfg. induction s as [|c s IH]; [done|]. cbn. intros [Hc Hs]%andb_prop. by rewrite Hfg, IH. Qed.

Lemma printable_plain s : str_all printable s = true -> str_all plain s = true.
Proof. apply str_all_impl. intros c Hc. unfold plain. by destruct (printable_not_eol c Hc) as [_ ->]. Qed.

Lemma plain_nl k : str_all plain (nl k) = true.
Proof. unfold nl. rewrite str_all_app. change (str_all plain newline) with true. cbn [andb]. by induction (2 * k). Qed.

Lemma plain_pretty v level : jwf v -> str_all plain (pretty level v) = true.
Proof.
  revert level. induction v as [| | | | |l IH|o IH] using json_ind'; intros level Hwf;
    try (by apply printable_plain, printable_dumps).
  - destruct l as [|x l]; [done|]. apply jwf_arr in Hwf. rewrite pretty_arr, !str_all_app, !plain_nl.
    rewrite str_all_concat; [done|by rewrite str_all_app, plain_nl|].
    change (pretty (S level) x :: map (pretty (S level)) l) with (map (pretty (S level)) (x :: l)).
    rewrite Forall_map. rewrite Forall_forall in *. auto.
  - destruct o as [|kv o]; [done|]. apply jwf_obj in Hwf as [_ Hwf]. rewrite pretty_obj, !str_all_app, !plain_nl.
    rewrite str_all_concat; [done|by rewrite str_all_app, plain_nl|].
    rewrite Forall_map, py_sorted_perm. rewrite Forall_forall in *. intros x Hx.
    rewrite !str_all_app, (printable_plain _ (printable_dumps_str _)). cbn [andb]. by rewrite IH by auto.
Qed.

Lemma loads_written v : jwf v -> loads (universal (dumps_indent v +:+ newline)) = Some (sort_keys v).
Proof.
  intros Hwf. rewrite universal_no_cr; [by apply loads_indent|].
  rewrite no_cr_app, no_cr_plain. unfold dumps_indent. by rewrite plain_pretty.
Qed.

Lemma split_on_app c s rest : str_has c s = false -> split_on c (s +:+ String c rest) = s :: split_on c rest.
Proof.
  induction s as [|d s IH]; intros H; cbn in H.
  - change ("" +:+ ?s) with s. cbn. by rewrite Ascii.eqb_refl.
  - rewrite str_app_cons. cbn. apply orb_false_iff in H as [-> H]. by rewrite IH.
Qed.

Lemma split_on_none c s : str_has c s = false -> split_on c s = [s].
Proof. induction s as [|d s IH]; [done|]. cbn. intros [-> H]%orb_false_iff. by rewrite IH. Qed.

Lemma split_on_concat c l : l <> [] -> Forall (fun s => str_has c s = false) l ->
  split_on c (String.concat (String c "") l) = l.
Proof.
  intros Hne. induction 1 as [|x l Hx Hl IH]; [done|]. rewrite str_concat_cons. destruct l as [|y l].
  - rewrite str_app_nil_r. by apply split_on_none.
  - change (String c "" +:+ ?s) with (String c s). rewrite split_on_app by done. by rewrite IH.
Qed.

Lemma split_on_parts c s : Forall (fun s => str_has c s = false) (split_on c s).
Proof.
  induction s as [|d s IH]; cbn; [by repeat constructor|]. destruct (Ascii.eqb c d) eqn:E; [by constructor|].
  destruct (split_on c s) as [|w ws]; [by repeat constructor; cbn; rewrite E|].
  apply Forall_cons in IH as [Hw Hws]. constructor; [cbn; by rewrite E|done].
Qed.

(** Normalising a path changes neither its parts nor where it starts. *)
Lemma parts_as_posix p : Operations.parts (as_posix p) = Operations.parts p.
Proof.
  set (good := fun c => truthy c && negb (String.eqb c ".")).
  assert (forall l, Forall (fun s => str_has "/"%char s = false) l -> List.filter good l = l -> forall anchor, anchor = "" \/ anchor = "/" \/ anchor = "//" ->
    Operations.parts (anchor +:+ String.concat "/" l) = l) as Hjoin.
  { intros l Hl Hg anchor Ha. assert (Operations.parts (String.concat "/" l) = l) as E.
    { destruct l as [|x l]; [done|]. unfold Operations.parts. rewrite split_on_concat by done. exact Hg. }
    rewrite <- E at 2. by destruct Ha as [->|[->| ->]]. }
  assert (Forall (fun s => str_has "/"%char s = false) (Operations.parts p) /\ List.filter good (Operations.parts p) = Operations.parts p) as [Hl Hg].
  { split.
    - apply Forall_forall. intros x [Hx _]%elem_of_filterb. pose proof (split_on_parts "/"%char p) as Hall.
      rewrite Forall_forall in Hall. by apply Hall.
    - apply filterb_all. by intros x [_ Hx]%elem_of_filterb. }
  unfold as_posix. set (anchor := if _ && _ then _ else _).
  assert (anchor = "" \/ anchor = "/" \/ anchor = "//") as Ha.
  { subst anchor. destruct (_ && _); [by right; right|]. destruct (Operations.is_absolute p); [by right; left|by left]. }
  pose proof (Hjoin _ Hl Hg anchor Ha) as E. destruct (String.eqb_spec (anchor +:+ String.concat "/" (Operations.parts p)) "") as [E0|]; [|done].
  rewrite E0 in E. rewrite <- E. done.
Qed.

Lemma startswith_slashes p : startswith "//" p = true -> Operations.is_absolute p = true.
Proof. destruct p as [|c p]; [done|]. unfold Operations.is_absolute. cbn. by intros [-> _]%andb_prop. Qed.

Lemma absolute_as_posix p : Operations.is_absolute (as_posix p) = Operations.is_absolute p.
Proof.
  unfold as_posix. destruct (startswith "//" p) eqn:E2; [rewrite (startswith_slashes p E2); by destruct (negb _)|].
  cbn [andb]. destruct (Operations.is_absolute p) eqn:E; [done|]. change ("" +:+ ?s) with s.
  destruct (String.eqb_spec (String.concat "/" (Operations.parts p)) "") as [|Hne]; [done|].
  destruct (Operations.parts p) as [|x l] eqn:El; [done|].
  assert (x ∈ Operations.parts p) as Hx by (rewrite El; left). unfold Operations.parts in Hx. apply elem_of_filterb in Hx as [Hin Hg].
  pose proof (split_on_parts "/"%char p) as Hall. rewrite Forall_forall in Hall. specialize (Hall x Hin).
  rewrite str_concat_cons. destruct x as [|c x]; [done|]. unfold Operations.is_absolute.
  rewrite str_app_cons. cbn [startswith str_has] in *. by apply orb_false_iff in Hall as [-> _].
Qed.

(** ** Nothing that is there changes *)

(** [t0] is part of the tree. *)
Definition has (t0 : tree) (w : Disk) : Prop := t0 ⊆ files w.

Lemma has_set t0 p n : t0 !! p = None -> keeps (has t0) (set_node p n).
Proof. intros Hp. apply keeps_modify. intros w Hw. unfold has. cbn. by apply insert_subseteq_r. Qed.

Lemma has_fault t0 : keeps (has t0) next_fault.
Proof. intros w r w' Hw [f [_ Hf]]%next_fault_run. unfold has. by rewrite Hf. Qed.

Lemma has_system_call t0 : keeps (has t0) system_call.
Proof. apply keeps_bind; [apply has_fault|]. intros [f|]; [apply keeps_raise|apply keeps_ret]. Qed.

Lemma has_write t0 p s : t0 !! p = None -> keeps (has t0) (write_file p s).
Proof.
  intros Hp w r w' Hw [E|(_ & _ & c & E & _)]%write_file_run; unfold has; rewrite E; [done|]. by apply insert_subseteq_r.
Qed.

Lemma has_make_dir t0 p : keeps (has t0) (make_dir p).
Proof.
  intros w r w' Hw [E|[Hn E]]%make_dir_run; unfold has; rewrite E; [done|]. apply insert_subseteq_r; [|done].
  by eapply lookup_weaken_None.
Qed.

Lemma delete_has (t0 t : tree) p : t0 !! p = None -> t0 ⊆ t -> t0 ⊆ delete p t.
Proof. intros Hp Ht. rewrite <- (delete_id t0 p) by done. by apply delete_mono. Qed.

Lemma has_unlink t0 p : t0 !! p = None -> keeps (has t0) (unlink_missing_ok p).
Proof.
  intros Hp. apply keeps_bind; [apply keeps_get|]. intros w. destruct (bool_decide _); [apply has_system_call|].
  apply keeps_bind; [apply has_fault|]. intros [f|]; [apply keeps_raise|]. apply keeps_modify. intros w0. by apply delete_has.
Qed.

Lemma has_replace t0 a b : t0 !! a = None -> t0 !! b = None -> keeps (has t0) (replace a b).
Proof.
  intros Ha Hb. apply keeps_bind; [apply has_system_call|]. intros _. apply keeps_modify. intros w Hw.
  destruct (files w !! a); [|done]. unfold has. cbn. apply insert_subseteq_r; [done|]. by apply delete_has.
Qed.

Lemma keeps_try_finally {A} P (body : stm Disk A) cleanup : keeps P body -> keeps P cleanup -> keeps P (finally body cleanup).
Proof.
  intros Hb Hc w r w' Hw. unfold finally. destruct (body w) as [[a|e] w1] eqn:E; pose proof (Hb _ _ _ Hw E) as H1.
  - apply (keeps_bind P cleanup (fun _ => mret a) Hc (fun _ => keeps_ret P a) w1 r w' H1).
  - destruct (bool_decide (e = Killed)); [by intros [= <- <-]|].
    apply (keeps_bind P cleanup (fun _ => raise e) Hc (fun _ => keeps_raise P e) w1 r w' H1).
Qed.

Section Proofs.
Context `{Hashes} `{TempNames} `{!TempNamesLaws} (root : path).

(** What is there stays there, whatever fails in a publication. *)
Lemma has_place t0 target data : t0 !! target = None -> keeps (has t0) (place target data).
Proof.
  intros Ht w r w' Hw. unfold place. unfold mbind at 1, stm_bind at 1, get. cbv zeta.
  set (tmp := removelast target ++ [_]). assert (t0 !! tmp = None) as Htmp.
  { eapply lookup_weaken_None; [|exact Hw]. apply temp_fresh. }
  clearbody tmp. revert w r w' Hw. change (keeps (has t0) (f ← next_fault;
    match f with
    | Some f => _ ← (match left f with Some c => set_node tmp (File c) | None => mret tt end); raise (raised f)
    | None => _ ← set_node tmp (File "");
              finally (_ ← write_file tmp data; _ ← system_call; replace tmp target) (unlink_missing_ok tmp)
    end)).
  apply keeps_bind; [apply has_fault|]. intros [f|].
  - apply keeps_bind; [destruct (left f); [by apply has_set|apply keeps_ret]|intros _; apply keeps_raise].
  - apply keeps_bind; [by apply has_set|intros _]. apply keeps_try_finally; [|by apply has_unlink].
    apply keeps_bind; [by apply has_write|intros _]. apply keeps_bind; [apply has_system_call|intros _]. by apply has_replace.
Qed.

Lemma has_publish_bytes t0 relative data : keeps (has t0) (publish_bytes root relative data).
Proof.
  apply keeps_bind; [apply keeps_lift|intros target]. apply keeps_bind; [apply keeps_iterM; intros; apply has_make_dir|intros _].
  intros w r w' Hw. unfold mbind at 1, stm_bind at 1, get. cbv beta zeta.
  destruct (node_at (files w) target) as [[c| |]|] eqn:E; [destruct (String.eqb c data)|..]; try (by intros [= <- <-]).
  apply (keeps_bind (has t0)); [|intros; apply keeps_ret|done]. apply has_place.
  assert (files w !! target = None) as Hn by (by destruct target). by eapply lookup_weaken_None.
Qed.

Lemma has_publish_file t0 relative source : keeps (has t0) (publish_file root relative source).
Proof. destruct source; [apply has_publish_bytes|apply keeps_raise]. Qed.

Lemma has_persist t0 d : keeps (has t0) (persist_descriptor root d).
Proof.
  unfold persist_descriptor. apply keeps_bind; [apply keeps_get|intros w]. do 2 (apply keeps_bind; [apply keeps_lift|intros]).
  apply keeps_bind; [apply has_publish_bytes|intros; apply keeps_lift].
Qed.

Lemma has_publish_ref t0 relative publish kind p : keeps (has t0) publish -> keeps (has t0) (publish_ref root relative publish kind p).
Proof.
  intros Hp. unfold publish_ref. do 2 (apply keeps_bind; [apply keeps_lift|intros]). apply keeps_bind; [done|intros].
  apply keeps_bind; [apply keeps_get|intros]. do 2 (apply keeps_bind; [apply keeps_lift|intros]).
  apply keeps_bind; [apply has_persist|intros]. apply keeps_bind; [apply keeps_lift|intros; apply keeps_ret].
Qed.

Lemma call_keeps t t' : call root t t' -> t ⊆ t'.
Proof.
  intros Hc.
  assert (forall A (m : stm Disk A) fs r w, keeps (has t) m -> m (mkDisk t fs) = (r, w) -> t' = files w -> t ⊆ t') as Hm.
  { intros A m fs r w Hk Hrun ->. by apply (Hk _ _ _ (reflexivity t : has t (mkDisk t fs)) Hrun). }
  destruct Hc; (eapply Hm; [|eassumption|eassumption]);
    repeat first [apply has_publish_ref|apply has_publish_bytes|apply has_publish_file|apply has_persist].
Qed.

Lemma calls_keep t t' : rtc (call root) t t' -> t ⊆ t'.
Proof. induction 1 as [|t1 t2 t3 Hc _ IH]; [done|]. etrans; [by apply call_keeps|done]. Qed.

(** A publication is done, or it has not begun: the target never holds anything
    but the whole of the bytes. *)
Lemma system_call_run w r w' : system_call w = (r, w') -> files w' = files w.
Proof.
  unfold system_call. unfold mbind, stm_bind. destruct (next_fault w) as [r1 w1] eqn:Ef.
  destruct (next_fault_run _ _ _ Ef) as ([f|] & -> & Hf); by intros [= <- <-].
Qed.

Lemma unlink_missing_run p w r w' : unlink_missing_ok p w = (r, w') ->
  files w' = files w \/ (is_Some (files w !! p) /\ files w' = delete p (files w)).
Proof.
  unfold unlink_missing_ok. unfold mbind at 1, stm_bind at 1, get.
  destruct (bool_decide_reflect (files w !! p = None)) as [Hn|Hn]; [intros E%system_call_run; by left|].
  unfold unlink. unfold mbind, stm_bind. destruct (next_fault w) as [r1 w1] eqn:Ef.
  destruct (next_fault_run _ _ _ Ef) as ([f|] & -> & Hf); intros [= <- <-]; [by left|]. right.
  split; [by apply not_eq_None_Some|]. cbn. by rewrite Hf.
Qed.

Lemma written f0 tmp target data w r w' :
  files w = <[tmp := File ""]> f0 -> f0 !! tmp = None -> tmp <> target ->
  (_ ← write_file tmp data; _ ← system_call; replace tmp target) w = (r, w') ->
  (is_ok r = true /\ files w' = <[target := File data]> f0) \/ (is_ok r = false /\ exists c, files w' = <[tmp := File c]> f0).
Proof.
  intros Hw Hn Hne. unfold mbind at 1, stm_bind at 1. destruct (write_file tmp data w) as [[u|e] w1] eqn:E1.
  2:{ intros [= <- <-]. right. split; [done|]. apply write_file_run in E1 as [->|(_ & _ & c & -> & _)]; rewrite Hw; [by eexists|].
      exists c. by rewrite insert_insert_eq. }
  apply write_file_ok in E1. rewrite Hw, insert_insert_eq in E1.
  unfold mbind at 1, stm_bind at 1. destruct (system_call w1) as [[u2|e] w2] eqn:E2; apply system_call_run in E2.
  2:{ intros [= <- <-]. right. split; [done|]. exists data. by rewrite E2. }
  unfold replace. unfold mbind at 1, stm_bind at 1. destruct (system_call w2) as [[u3|e] w3] eqn:E3; apply system_call_run in E3.
  2:{ intros [= <- <-]. right. split; [done|]. exists data. by rewrite E3, E2. }
  intros [= <- <-]. left. split; [done|]. rewrite E3, E2, E1, lookup_insert_eq. cbn. by rewrite delete_insert_id.
Qed.

Lemma temp_other t target : target <> [] ->
  removelast target ++ [temp_name t (removelast target) ("." +:+ List.last target "" +:+ ".")] <> target.
Proof.
  intros Hne He. destruct (temp_prefix t (removelast target) ("." +:+ List.last target "" +:+ ".")) as [rnd Hr].
  pose proof (app_removelast_last "" Hne) as Ht. rewrite Ht in He at 4. apply app_inv_head in He. injection He as He. rewrite Hr in He.
  apply (f_equal String.length) in He. rewrite !str_length_app in He. cbn in He. lia.
Qed.

Lemma place_run target data w r w' : target <> [] -> files w !! target = None -> place target data w = (r, w') ->
  (files w' !! target = None \/ files w' !! target = Some (File data)) /\
  (is_ok r = true -> files w' = <[target := File data]> (files w)).
Proof.
  intros Hne Ht. unfold place. unfold mbind at 1, stm_bind at 1, get. cbv zeta.
  pose proof (temp_other (files w) target Hne) as Hother.
  pose proof (temp_fresh (files w) (removelast target) ("." +:+ List.last target "" +:+ ".")) as Hfresh.
  set (tmp := removelast target ++ [_]) in *. clearbody tmp.
  unfold mbind at 1, stm_bind at 1. destruct (next_fault w) as [r1 w1] eqn:Ef.
  destruct (next_fault_run _ _ _ Ef) as ([f|] & -> & Hf).
  - intros Hrun. destruct (left f); unfold mbind, stm_bind in Hrun; injection Hrun as <- <-; (split; [left|done]); cbn;
      rewrite Hf; [by rewrite lookup_insert_ne|done].
  - unfold mbind at 1, stm_bind at 1. change (set_node tmp (File "") w1) with (Ok (E:=exn) tt, mkDisk (<[tmp := File ""]> (files w1)) (faults w1)).
    cbv beta iota. unfold finally.
    destruct ((_ ← write_file tmp data; _ ← system_call; replace tmp target) _) as [rb w3] eqn:Eb.
    apply (written (files w)) in Eb; [|cbn; by rewrite Hf|done|done].
    destruct Eb as [[Hok Hw3]|[Hok [c Hw3]]]; (destruct rb as [u|e]; [|try done]; try done).
    + assert (files w3 !! tmp = None) as Hgone by (by rewrite Hw3, lookup_insert_ne).
      unfold mbind, stm_bind. destruct (unlink_missing_ok tmp w3) as [rc w4] eqn:Ec.
      apply unlink_missing_run in Ec as [Ec|[[? Ec] _]]; [|by rewrite Hgone in Ec].
      destruct rc; intros [= <- <-]; rewrite Ec, Hw3; (split; [right; by rewrite lookup_insert_eq|done]).
    + assert (files w3 !! target = None) as Hgone by (by rewrite Hw3, lookup_insert_ne).
      destruct (bool_decide (e = Killed)); [intros [= <- <-]; by split; [left|]|].
      unfold mbind, stm_bind. destruct (unlink_missing_ok tmp w3) as [rc w4] eqn:Ec.
      assert (files w4 !! target = None) as Hg4.
      { apply unlink_missing_run in Ec as [->|[_ ->]]; [done|]. by rewrite lookup_delete_ne. }
      destruct rc; intros [= <- <-]; by split; [left|].
Qed.

(** ** Publishing and reading back *)

Lemma bytes_at_mono t t' p c : t ⊆ t' -> bytes_at t p = Some c -> bytes_at t' p = Some c.
Proof.
  intros Ht. unfold bytes_at. destruct p as [|x p]; [done|]. cbn. destruct (t !! (x :: p)) as [n|] eqn:E; [|done].
  by rewrite (lookup_weaken _ _ _ _ E Ht).
Qed.

Lemma publish_bytes_ok relative data w digest w' : publish_bytes root relative data w = (Ok digest, w') ->
  digest = sha256 data /\ exists target, path_of root relative = Ok target /\ bytes_at (files w') target = Some data.
Proof.
  unfold publish_bytes. intros (target & w1 & [= Hp ->] & Hrun)%stm_bind_Ok. apply stm_bind_Ok in Hrun as (u & w2 & _ & Hrun).
  unfold mbind at 1, stm_bind at 1, get in Hrun. cbv beta zeta in Hrun.
  destruct (node_at (files w2) target) as [[c| |]|] eqn:E; try done.
  - destruct (String.eqb_spec c data) as [->|]; [|done]. injection Hrun as <- <-. split; [done|]. exists target.
    split; [done|]. unfold bytes_at. by rewrite E.
  - apply stm_bind_Ok in Hrun as (u' & w3 & Hplace & [= <- <-]). split; [done|]. exists target. split; [done|].
    assert (target <> []) as Hne by (by intros ->). assert (files w2 !! target = None) as Hn by (by destruct target).
    destruct (place_run target data w2 _ _ Hne Hn Hplace) as [_ Hf]. unfold bytes_at. rewrite Hf by done.
    destruct target; [done|]. cbn. by rewrite lookup_insert_eq.
Qed.

Lemma verify_ok t relative h : verify root t relative h = Ok true ->
  exists target c, path_of root relative = Ok target /\ bytes_at t target = Some c /\ sha256 c = h.
Proof.
  unfold verify. intros (target & Hp & Hv)%bind_Ok. injection Hv as Hv. destruct (bytes_at t target) as [c|] eqn:E; [|done].
  exists target, c. by apply String.eqb_eq in Hv.
Qed.

Lemma path_as_posix p : path_of root (as_posix p) = path_of root p.
Proof. unfold path_of, Operations.resolve_inside. by rewrite absolute_as_posix, parts_as_posix. Qed.

Lemma as_posix_nonempty p : truthy (as_posix p) = true.
Proof. apply truthy_true. unfold as_posix. cbv zeta. by case_match eqn:E; [|apply String.eqb_neq in E]. Qed.

Lemma jwf_descriptor d : jwf (descriptor_document d).
Proof.
  unfold descriptor_document. apply jwf_obj. split; [Provenance.keys_differ|].
  repeat apply Forall_cons_2; try done. apply Provenance.jwf_document.
Qed.

Lemma validated_schema p kind q : Provenance.validate_for_kind (Provenance.document p) kind = Ok q ->
  Provenance.schema_version p = Provenance.SCHEMA_VERSION.
Proof.
  unfold Provenance.validate_for_kind. intros (x & Hx & _)%bind_Ok. unfold Provenance.from_document in Hx.
  apply bind_Ok in Hx as (o & Ho & _). unfold Provenance.validate, Provenance.document in Ho.
  apply bind_Ok in Ho as (u & Hu%ensure_Ok & _).
  change ((2 =? Provenance.schema_version p)%Z = true) in Hu. by apply Z.eqb_eq in Hu.
Qed.

(** A descriptor is what its document is read back as. *)
Lemma descriptor_back kind relative h p :
  truthy kind = true -> truthy relative = true -> truthy h = true -> truthy (artifact_id_of kind relative h p) = true ->
  Provenance.schema_version p = Provenance.SCHEMA_VERSION ->
  descriptor_from (sort_keys (descriptor_document (create kind relative h p))) = Ok (create kind relative h p).
Proof.
  intros Hk Hr Hh Hid Hv. unfold descriptor_document. rewrite sort_keys_members. unfold descriptor_from. set (o := [_; _; _; _; _; _]).
  assert (forall key x, jget o key = Some x -> jget (sorted_members o) key = Some (sort_keys x)) as Hget.
  { intros key x. apply Provenance.got. subst o. Provenance.keys_differ. }
  unfold get_or. erewrite !Hget by reflexivity. cbn [sort_keys is_int num_eqb create d_schema_version nonempty_str d_kind
    d_relative_path d_content_hash d_artifact_id]. rewrite Z.eqb_refl, Hk, Hr, Hh, Hid. cbn [ensure mbind result_bind default from_option id].
  rewrite (Provenance.document_back (g := sort_keys)) by done. cbn [wrapping mbind result_bind].
  by rewrite String.eqb_refl.
Qed.
Lemma make_dirs_other l w r w' q : q ∉ l -> iterM make_dir l w = (r, w') -> files w' !! q = files w !! q.
Proof.
  revert w. induction l as [|p l IH]; intros w Hq; cbn [iterM]; [by intros [= <- <-]|].
  apply not_elem_of_cons in Hq as [Hne Hq]. unfold mbind, stm_bind. destruct (make_dir p w) as [r1 w1] eqn:E.
  assert (files w1 !! q = files w !! q) as Hw1.
  { apply make_dir_run in E as [->|[_ ->]]; [done|]. by rewrite lookup_insert_ne. }
  destruct r1; [|by intros [= <- <-]]. intros Hrun. by rewrite (IH _ Hq Hrun).
Qed.

(** C21 A publication is atomic and changes nothing else: wherever it fails or
    is killed, a target that held nothing holds nothing or the whole of the
    bytes, and the whole of the bytes if it returned; everything that was in
    the store, at the target too, is there unchanged. *)
Theorem publish_atomic relative data w r w' target :
  publish_bytes root relative data w = (r, w') -> path_of root relative = Ok target ->
  files w ⊆ files w' /\
  (files w !! target = None ->
     (files w' !! target = None \/ files w' !! target = Some (File data)) /\
     (is_ok r = true -> files w' !! target = Some (File data))) /\
  (is_ok r = true -> bytes_at (files w') target = Some data /\
     forall c, files w !! target = Some (File c) -> c = data).
Proof.
  intros Hrun Hp. assert (files w ⊆ files w') as Hsub by apply (has_publish_bytes (files w) relative data w r w' (reflexivity _) Hrun).
  split; [exact Hsub|]. split.
  - intros Hn. unfold publish_bytes in Hrun. rewrite Hp in Hrun. unfold mbind at 1, stm_bind at 1, lift in Hrun.
    unfold mbind at 1, stm_bind at 1 in Hrun. destruct (iterM make_dir (above target) w) as [r1 w1] eqn:E1.
    pose proof (make_dirs_other _ _ _ _ target (fun Hin => above_ne _ _ Hin eq_refl) E1) as Hw1. rewrite Hn in Hw1.
    destruct r1 as [u|e]; [|injection Hrun as <- <-; by split; [left|]].
    unfold mbind at 1, stm_bind at 1, get in Hrun. cbv beta zeta in Hrun.
    destruct (node_at (files w1) target) as [n|] eqn:E.
    + destruct target as [|x target]; [cbn in E; injection E as <-; injection Hrun as <- <-; by split; [left|]|].
      cbn in E. by rewrite Hw1 in E.
    + assert (target <> []) as Hne by (by intros ->). unfold mbind, stm_bind in Hrun.
      destruct (place target data w1) as [r2 w2] eqn:E2. destruct (place_run target data w1 _ _ Hne Hw1 E2) as [Hor Hok].
      destruct r2; injection Hrun as <- <-; (split; [done|]); intros Hr; [|done].
      rewrite Hok by done. by rewrite lookup_insert_eq.
  - destruct r as [digest|]; [|done]. intros _. apply publish_bytes_ok in Hrun as (_ & target' & Hp' & Hb).
    rewrite Hp in Hp'. injection Hp' as <-. split; [done|]. intros c Hc.
    pose proof (lookup_weaken _ _ _ _ Hc Hsub) as Hc'. unfold bytes_at in Hb. destruct target; [done|]. cbn in Hb.
    rewrite Hc' in Hb. by injection Hb.
Qed.

(** What was published can be rehydrated from any tree that extends the store. *)
Lemma rehydrate_published `{!HashesLaws} relative publish kind p w ref w' t :
  truthy kind = true -> publish_ref root relative publish kind p w = (Ok ref, w') -> files w' ⊆ t ->
  exists target c q, path_of root relative = Ok target /\ bytes_at t target = Some c /\
    Provenance.validate_for_kind (Provenance.document q) kind = Ok q /\
    load_descriptor root t (artifact_id_of kind (as_posix relative) (sha256 c) q) = Ok (create kind (as_posix relative) (sha256 c) q) /\
    ref = mkRef kind target (sha256 c) (Provenance.document q) (artifact_id_of kind (as_posix relative) (sha256 c) q).
Proof.
  intros Hkind Hrun Ht. unfold publish_ref in Hrun.
  apply stm_bind_Ok in Hrun as (q & w1 & [= _ ->] & Hrun). apply stm_bind_Ok in Hrun as (q' & w2 & [= Hval ->] & Hrun).
  apply stm_bind_Ok in Hrun as (h & w3 & _ & Hrun). apply stm_bind_Ok in Hrun as (w4 & w5 & [= <- <-] & Hrun).
  apply stm_bind_Ok in Hrun as (good & w4 & [= Hver ->] & Hrun). apply stm_bind_Ok in Hrun as (u & w6 & [= Hgood ->] & Hrun).
  apply ensure_Ok in Hgood. subst good. apply verify_ok in Hver as (target & c & Hp & Hc & Hh).
  cbv zeta in Hrun. apply stm_bind_Ok in Hrun as (dp & w7 & Hpers & Hrun). apply stm_bind_Ok in Hrun as (target' & w8 & [= Hp' ->] & Hrun).
  rewrite Hp in Hp'. injection Hp' as <-. injection Hrun as <- ->.
  assert (Provenance.validate_for_kind (Provenance.document q) kind = Ok q') as Hv.
  { unfold wrapping in Hval. destruct (Provenance.validate_for_kind _ _) as [x|e]; [done|]. by destruct (String.eqb _ _). }
  clear Hval. pose proof (validated_schema _ _ _ Hv) as Hschema.
  assert (q' = q) as ->.
  { unfold Provenance.validate_for_kind in Hv. pose proof (Provenance.document_back (g := id) q Hschema) as Hb. unfold id in Hb.
    rewrite Hb in Hv. cbn [mbind result_bind] in Hv. destruct (negb _); [by injection Hv|].
    apply bind_Ok in Hv as (? & _ & Hv). apply bind_Ok in Hv as (? & _ & Hv). by injection Hv. }
  unfold persist_descriptor in Hpers. apply stm_bind_Ok in Hpers as (wa & wb & [= <- <-] & Hpers).
  apply stm_bind_Ok in Hpers as (g & wb & [= _ ->] & Hpers). apply stm_bind_Ok in Hpers as (u1 & wc & [= _ ->] & Hpers).
  apply stm_bind_Ok in Hpers as (dg & wd & Hpub & Hpers). injection Hpers as Hdp ->.
  assert (files wc ⊆ files w') as Hsub by apply (has_publish_bytes (files wc) _ _ _ _ _ (reflexivity _) Hpub).
  apply publish_bytes_ok in Hpub as (_ & dtarget & Hdt & Hdb).
  exists target, c, q. subst h. split_and!; [done| |done| |done].
  - eapply bytes_at_mono; [exact Ht|]. by eapply bytes_at_mono.
  - unfold load_descriptor. cbn [create d_artifact_id] in Hdt. rewrite Hdt. cbn [mbind result_bind].
    rewrite (bytes_at_mono _ _ _ _ Ht Hdb), loads_written by apply jwf_descriptor. cbn [of_option mbind result_bind].
    assert (truthy (sha256 c) = true) as Hsha by (apply truthy_true; intros E; pose proof (sha256_length c) as Hl; by rewrite E in Hl).
    assert (truthy (artifact_id_of kind (as_posix relative) (sha256 c) q) = true) as Hid.
    { apply truthy_true. intros E. unfold artifact_id_of in E.
      match type of E with blake2b ?s = _ => pose proof (blake2b_length s) as Hl end. by rewrite E in Hl. }
    rewrite descriptor_back by (done || apply as_posix_nonempty). cbn [mbind result_bind create d_artifact_id].
    by rewrite String.eqb_refl.
Qed.

(** C15 What was published can be rehydrated for ever: once an artifact has
    been published with its provenance, then whatever any process publishes
    later, one call after the other, and wherever those calls fail or are
    killed, the identifier alone gives back the same reference, with its kind,
    path, provenance and the hash of the bytes that are there; and it passes
    as promotable exactly when its provenance is promotable for the kind. *)
Theorem artifact_survives `{!HashesLaws} relative publish kind p w ref w' t :
  truthy kind = true -> publish_ref root relative publish kind p w = (Ok ref, w') -> rtc (call root) (files w') t ->
  rehydrate root t (ref_artifact_id ref) (Some kind) false = Ok ref /\
  (rehydrate root t (ref_artifact_id ref) (Some kind) true = Ok ref <->
     is_ok (Provenance.require_promotable (ref_provenance ref) kind) = true) /\
  exists c, bytes_at t (ref_path ref) = Some c /\ sha256 c = ref_content_hash ref.
Proof.
  intros Hkind Hrun Ht%calls_keep.
  destruct (rehydrate_published _ _ _ _ _ _ _ _ Hkind Hrun Ht) as (target & c & q & Hp & Hc & Hv & Hload & ->).
  cbn [ref_artifact_id ref_provenance ref_path ref_content_hash].
  assert (forall b, rehydrate root t (artifact_id_of kind (as_posix relative) (sha256 c) q) (Some kind) b
    = _ ← wrapping ("artifact " +:+ py_repr (artifact_id_of kind (as_posix relative) (sha256 c) q) +:+ " failed provenance validation: ")
            (if b then Provenance.require_promotable (Provenance.document q) kind
             else Provenance.validate_for_kind (Provenance.document q) kind);
      Ok (mkRef kind target (sha256 c) (Provenance.document q) (artifact_id_of kind (as_posix relative) (sha256 c) q))) as Hre.
  { intros b. unfold rehydrate. rewrite Hload. cbn [mbind result_bind create d_kind d_provenance d_relative_path d_content_hash d_artifact_id].
    rewrite String.eqb_refl. cbn [ensure mbind result_bind]. destruct (wrapping _ _); cbn [mbind result_bind]; [|done].
    rewrite path_as_posix, Hp. cbn [mbind result_bind]. by rewrite Hc, String.eqb_refl. }
  rewrite !Hre, Hv. split; [done|]. split; [|by exists c].
  destruct (Provenance.require_promotable (Provenance.document q) kind) as [x|e]; cbn; [done|].
  split; [|done]. destruct (String.eqb (exn_class e) "ProvenanceError"); done.
Qed.
End Proofs.

(** Rehydrating trusts nothing: whatever the store holds, a reference that
    is given back is for the identifier asked for, and of the kind; the
    identifier is the hash of the kind, path, content hash and provenance that
    are returned; the path is inside the store and its bytes have that hash
    now; and the provenance meets the contract of the kind, as promotable
    evidence if that was asked. *)
Theorem rehydrate_trusts_nothing `{Hashes} root t id expected promotable ref :
  rehydrate root t id expected promotable = Ok ref ->
  ref_artifact_id ref = id /\ (forall k, expected = Some k -> ref_kind ref = k) /\
  (exists relative p, path_of root relative = Ok (ref_path ref) /\ ref_provenance ref = Provenance.document p /\
     id = artifact_id_of (ref_kind ref) relative (ref_content_hash ref) p) /\
  (exists c, bytes_at t (ref_path ref) = Some c /\ sha256 c = ref_content_hash ref) /\
  is_ok (Provenance.validate_for_kind (ref_provenance ref) (ref_kind ref)) = true /\
  (promotable = true -> is_ok (Provenance.require_promotable (ref_provenance ref) (ref_kind ref)) = true).
Proof.
  unfold rehydrate. intros (d & Hload & Hrun)%bind_Ok. apply bind_Ok in Hrun as (u & Hk%ensure_Ok & Hrun).
  apply bind_Ok in Hrun as (q & Hval & Hrun). apply bind_Ok in Hrun as (target & Hp & Hrun).
  destruct (bytes_at t target) as [c|] eqn:Hc; [|done]. apply bind_Ok in Hrun as (u1 & Hh%ensure_Ok & Hrun).
  injection Hrun as <-. cbn. apply String.eqb_eq in Hh.
  unfold load_descriptor in Hload. apply bind_Ok in Hload as (dt & _ & Hload). destruct (bytes_at t dt); [|done].
  apply bind_Ok in Hload as (doc & _ & Hload). apply bind_Ok in Hload as (d' & Hd & Hload).
  apply bind_Ok in Hload as (u2 & Hid%ensure_Ok & [= ->]). apply String.eqb_eq in Hid.
  assert (d_artifact_id d = artifact_id_of (d_kind d) (d_relative_path d) (d_content_hash d) (d_provenance d)) as Hself.
  { unfold descriptor_from in Hd. destruct doc as [| | | | | |o]; try done. apply bind_Ok in Hd as (u3 & _ & Hd).
    destruct (nonempty_str _) as [k|]; [|done]. destruct (nonempty_str _) as [r|]; [|done].
    destruct (nonempty_str _) as [h|]; [|done]. destruct (nonempty_str _) as [i|]; [|done].
    apply bind_Ok in Hd as (pv & _ & Hd). apply bind_Ok in Hd as (u4 & He%ensure_Ok & [= <-]). apply String.eqb_eq in He. by cbn. }
  assert (is_ok (Provenance.validate_for_kind (Provenance.document (d_provenance d)) (d_kind d)) = true /\
    (promotable = true -> is_ok (Provenance.require_promotable (Provenance.document (d_provenance d)) (d_kind d)) = true)) as [Hv Hpr].
  { unfold wrapping in Hval. destruct promotable.
    - destruct (Provenance.require_promotable _ _) as [x|e] eqn:E; [|by destruct (String.eqb _ _)]. split; [|done].
      unfold Provenance.require_promotable in E. apply bind_Ok in E as (y & -> & _). done.
    - destruct (Provenance.validate_for_kind _ _) as [x|e]; [done|by destruct (String.eqb _ _)]. }
  split_and!; [done| | |by exists c|done|done].
  - intros k ->. by apply String.eqb_eq in Hk.
  - exists (d_relative_path d), (d_provenance d). split_and!; [done|done|]. by rewrite <- Hself.
Qed.

(** ** Witnesses *)

Fixpoint hex_digits (k : nat) (n : Z) : string :=
  match k with O => "" | S k' => String (hexdigit (Z.to_nat (n mod 16))) (hex_digits k' (n / 16)) end.

Definition toy_hash (k : nat) (s : string) : string :=
  hex_digits k (fold_left (fun n c => (n * 257 + Z.of_nat (Ascii.nat_of_ascii c)) mod (16 ^ Z.of_nat k - 1))%Z
    (String.list_ascii_of_string s) 7%Z).

#[local] Instance toy_hashes : Hashes := { blake2b := toy_hash 32; sha256 := toy_hash 64 }.

Lemma hex_digits_length k n : String.length (hex_digits k n) = k.
Proof. revert n. induction k as [|k IH]; intros n; [done|]. cbn. by rewrite IH. Qed.

Lemma hex_digits_hex k n : forallb hex_char (String.list_ascii_of_string (hex_digits k n)) = true.
Proof.
  revert n. induction k as [|k IH]; intros n; [done|]. cbn [hex_digits String.list_ascii_of_string forallb]. rewrite IH, andb_true_r.
  assert (Z.to_nat (n mod 16) < 16) as Hd by (pose proof (Z.mod_pos_bound n 16); lia).
  assert (forallb (fun d => hex_char (hexdigit d)) (seq 0 16) = true) as Hall by (vm_compute; reflexivity).
  rewrite forallb_forall in Hall. apply Hall. apply in_seq. lia.
Qed.

#[local] Instance toy_hashes_laws : HashesLaws.
Proof. split; intros; [apply hex_digits_length|apply hex_digits_hex|apply hex_digits_length]. Qed.

Fixpoint xs (n : nat) : string := match n with O => "" | S n' => String "x" (xs n') end.

Lemma xs_length n : String.length (xs n) = n.
Proof. induction n as [|n IH]; [done|]. cbn. by rewrite IH. Qed.

(** A name longer than any there is. *)
Definition longest (t : tree) : nat := list_max (map (fun pn => String.length (List.last pn.1 "")) (map_to_list t)).

#[local] Instance long_names : TempNames := { temp_name := fun t dir prefix => prefix +:+ xs (S (longest t)) }.

#[local] Instance long_names_laws : TempNamesLaws.
Proof.
  split; [|by intros; eexists]. intros t dir prefix. cbn. destruct (t !! _) as [n|] eqn:E; [|done]. exfalso.
  apply elem_of_map_to_list in E.
  pose proof (proj1 (list_max_le (map (fun pn => String.length (List.last pn.1 "")) (map_to_list t)) (longest t)) (le_n _)) as Hmax.
  rewrite Forall_map, Forall_forall in Hmax. specialize (Hmax _ E). cbn in Hmax. rewrite last_last, str_length_app in Hmax. cbn in Hmax.
  rewrite xs_length in Hmax. lia.
Qed.

Definition demo_root : path := ["work"; "artifacts"].
Definition demo_prov : Provenance.ProvenanceV2 := Provenance.demo_stage [] Provenance.Production.
Definition demo_disk (fs : list (option fault)) : Disk := mkDisk ∅ fs.

(** Killed half way through the bytes. *)
Definition killed : fault := mkFault Killed (Some "hal").

Definition demo_torn : res string * Disk := publish_bytes demo_root "bin/server" "half" (demo_disk [None; None; Some killed]).

Definition demo_target : path := ["bin"; "server"].

Lemma publish_atomic_witness :
  path_of demo_root "bin/server" = Ok demo_target /\ files demo_torn.2 !! demo_target = None /\ is_ok demo_torn.1 = false.
Proof.
  assert (publish_bytes demo_root "bin/server" "half" (demo_disk [None; None; Some killed]) = (demo_torn.1, demo_torn.2)) as Hrun
    by (unfold demo_torn; apply surjective_pairing).
  assert (path_of demo_root "bin/server" = Ok demo_target) as Hp by (vm_compute; reflexivity).
  destruct (publish_atomic demo_root "bin/server" "half" _ _ _ demo_target Hrun Hp) as (_ & Hatomic & _).
  destruct (Hatomic eq_refl) as [[Hn|Hs] _]; [|exfalso; vm_compute in Hs; discriminate Hs].
  split; [exact Hp|]. split; [exact Hn|]. vm_compute. reflexivity.
Defined.

Definition demo_publish : res ArtifactRef * Disk :=
  publish_bytes_ref demo_root "bin//./server" "ELF" "binary" (inl demo_prov) (demo_disk []).

Definition demo_ref : ArtifactRef := match demo_publish.1 with Ok r => r | Err _ => mkRef "" [] "" JNull "" end.

(** Another publication to the same path, refused, and one that is killed. *)
Definition demo_refused : res string * Disk := publish_bytes demo_root "bin/server" "other" (mkDisk (files demo_publish.2) []).
Definition demo_killed : res string * Disk :=
  publish_bytes demo_root "bin/other" "half" (mkDisk (files demo_refused.2) [Some killed]).

Lemma artifact_survives_witness :
  is_ok demo_refused.1 = false /\ is_ok demo_killed.1 = false /\
  rehydrate demo_root (files demo_killed.2) (ref_artifact_id demo_ref) (Some "binary") false = Ok demo_ref.
Proof.
  assert (publish_ref demo_root "bin//./server" (publish_bytes demo_root "bin//./server" "ELF") "binary" (inl demo_prov) (demo_disk [])
    = (Ok demo_ref, demo_publish.2)) as Hrun by (vm_compute; reflexivity).
  assert (rtc (call demo_root) (files demo_publish.2) (files demo_killed.2)) as Ht.
  { eapply rtc_l; [|eapply rtc_once].
    - eapply (call_bytes demo_root _ _ "bin/server" "other" []); [apply surjective_pairing|reflexivity].
    - eapply (call_bytes demo_root _ _ "bin/other" "half" [Some killed]); [apply surjective_pairing|reflexivity]. }
  destruct (artifact_survives demo_root "bin//./server" _ "binary" _ _ _ _ _ eq_refl Hrun Ht) as [Hre _].
  split; [vm_compute; reflexivity|]. split; [vm_compute; reflexivity|]. exact Hre.
Defined.

Lemma rehydrate_trusts_nothing_witness :
  exists ref, rehydrate demo_root (files demo_publish.2) (ref_artifact_id demo_ref) (Some "binary") true = Ok ref /\
    ref_kind ref = "binary" /\ is_ok (Provenance.require_promotable (ref_provenance ref) "binary") = true.
Proof.
  exists demo_ref.
  assert (rehydrate demo_root (files demo_publish.2) (ref_artifact_id demo_ref) (Some "binary") true = Ok demo_ref) as Hre
    by (vm_compute; reflexivity).
  destruct (rehydrate_trusts_nothing demo_root _ _ _ _ _ Hre) as (_ & Hk & _ & _ & _ & Hpr).
  split; [exact Hre|]. split; [exact (Hk "binary" eq_refl)|]. exact (Hpr eq_refl).
Defined.

(** Two processes that publish to one path at the same time: the first has
    looked and found nothing, the second publishes with its descriptor, then
    the first renames its file over it.  Nothing is refused, and the second
    artifact can no longer be rehydrated. *)
Example concurrent_publication_overwrites :
  let second := publish_bytes_ref demo_root "bin/server" "ELF" "binary" (inl demo_prov)
                  (mkDisk {[ ["bin"] := Directory ]} []) in
  let first := place demo_target "other" (mkDisk (files second.2) []) in
  node_at {[ ["bin"] := Directory ]} demo_target = None /\ is_ok second.1 = true /\ is_ok first.1 = true /\
  bytes_at (files first.2) demo_target = Some "other" /\
  match second.1 with
  | Ok ref => is_ok (rehydrate demo_root (files second.2) (ref_artifact_id ref) None false) = true /\
              is_ok (rehydrate demo_root (files first.2) (ref_artifact_id ref) None false) = false
  | Err _ => False
  end.
Proof. vm_compute. by split_and!. Qed.

End Artifacts.
