(* ===== verification/Promotion.v ===== *)
(** The pointer a release is promoted by: [src/tools/bigcherry/tuning/promotion.py],
    with the check of replay coverage of
    [src/tools/bigcherry/campaign/benchmark.py].

    The store of artifacts is the one of [Artifacts]; a pointer is read off what
    rehydrates from it. *)

From S2P Require Import Prelude Json Pretty Lines Tree Operations Provenance Artifacts.

Module Promotion.
Import Json Tree Artifacts.

Definition PromotionError (msg : string) : exn := Exn "PromotionError" msg.

(** A version that is written [2.0] is the version 2. *)
Record PromotionPointer : Type := mkPointer {
  schema_version : Z;
  release_tag : string;
  revision : string;
  campaign_plan_id : string;
  campaign_run_id : string;
  report_hash : string;
  source_slice_id : string;
  build_id : string;
  binary_hash : string;
  required_architectures : list string;
  replay_artifact_hash : string;
  report_artifact_id : string;
  coverage_artifact_id : string;
}.

Definition campaign_part (p : PromotionPointer) : json :=
  JObj [("campaign_plan_id", JStr (campaign_plan_id p)); ("campaign_run_id", JStr (campaign_run_id p));
        ("report_hash", JStr (report_hash p))].

Definition source_part (p : PromotionPointer) : json :=
  JObj [("source_slice_id", JStr (source_slice_id p)); ("build_id", JStr (build_id p)); ("binary_hash", JStr (binary_hash p))].

Definition pointer_document (p : PromotionPointer) : json :=
  JObj ([("schema_version", JInt (schema_version p)); ("release_tag", JStr (release_tag p)); ("revision", JStr (revision p));
         ("validated_campaign", campaign_part p); ("promoted_source", source_part p);
         ("required_architectures", jstrs (required_architectures p)); ("replay_artifact_hash", JStr (replay_artifact_hash p))]
        ++ (if (3 <=? schema_version p)%Z
            then [("report_artifact_id", JStr (report_artifact_id p)); ("coverage_artifact_id", JStr (coverage_artifact_id p))]
            else [])).

(** [_str] *)
Definition pointer_str (v : option json) (field : string) : res string :=
  of_option (PromotionError ("promotion pointer field " +:+ py_repr field +:+ " must be a non-empty string")) (nonempty_str v).

Definition pointer_dict (v : option json) (field : string) : res (list (string * json)) :=
  match v with Some (JObj o) => Ok o | _ => Err (PromotionError ("promotion pointer lacks " +:+ field)) end.

Definition pointer_strs (v : option json) : res (list string) :=
  let e := PromotionError "promotion pointer required_architectures must be a non-empty list of non-empty strings" in
  match v with
  | Some (JArr l) =>
      archs ← of_option e (mapM (fun x => nonempty_str (Some x)) l);
      _ ← ensure (negb (bool_decide (archs = []))) e;
      Ok archs
  | _ => Err e
  end.

Definition pointer_schema (v : option json) : res Z :=
  if is_int v 2 then Ok 2%Z else if is_int v 3 then Ok 3%Z
  else Err (PromotionError "promotion pointer has an unsupported schema_version").

Definition pointer_from (document : json) : res PromotionPointer :=
  match document with
  | JObj o =>
      schema ← pointer_schema (jget o "schema_version");
      tag ← pointer_str (jget o "release_tag") "release_tag";
      rev ← pointer_str (jget o "revision") "revision";
      campaign ← pointer_dict (jget o "validated_campaign") "validated_campaign";
      plan ← pointer_str (jget campaign "campaign_plan_id") "validated_campaign.campaign_plan_id";
      run ← pointer_str (jget campaign "campaign_run_id") "validated_campaign.campaign_run_id";
      report ← pointer_str (jget campaign "report_hash") "validated_campaign.report_hash";
      source ← pointer_dict (jget o "promoted_source") "promoted_source";
      slice ← pointer_str (jget source "source_slice_id") "promoted_source.source_slice_id";
      build ← pointer_str (jget source "build_id") "promoted_source.build_id";
      binary ← pointer_str (jget source "binary_hash") "promoted_source.binary_hash";
      archs ← pointer_strs (jget o "required_architectures");
      replay ← pointer_str (jget o "replay_artifact_hash") "replay_artifact_hash";
      '(report_id, coverage_id) ←
        (if (schema =? 3)%Z then
           a ← pointer_str (jget o "report_artifact_id") "report_artifact_id";
           b ← pointer_str (jget o "coverage_artifact_id") "coverage_artifact_id";
           Ok (a, b)
         else Ok ("", ""));
      Ok (mkPointer schema tag rev plan run report slice build binary archs replay report_id coverage_id)
  | _ => Err (PromotionError "promotion pointer document must be an object")
  end.

Definition make_pointer `{Hashes} (release_tag revision campaign_plan_id campaign_run_id report source_slice_id build_id binary_hash : string)
    (required_architectures : list string) (replay_artifact_hash : string) (valid : bool) : res PromotionPointer :=
  _ ← ensure valid (PromotionError "campaign report is not valid for promotion");
  _ ← ensure (forallb truthy [release_tag; revision; campaign_plan_id; campaign_run_id; source_slice_id; build_id; binary_hash;
                              replay_artifact_hash]) (PromotionError "promotion identities must be non-empty strings");
  _ ← ensure (negb (bool_decide (required_architectures = [])) && forallb truthy required_architectures)
        (PromotionError "promotion requires at least one non-empty required architecture");
  Ok (mkPointer 2 release_tag revision campaign_plan_id campaign_run_id (sha256 report) source_slice_id build_id binary_hash
        required_architectures replay_artifact_hash "" "").

(** What a pointer takes from the result of a lane. *)
Record LaneResult : Type := mkLaneResult {
  resolved_revision : string;
  run_id : string;
  lane_source_slice_id : string;
  build_plan_id : string;
  catalog_architectures : list string;
  targets : list string;
  binary_content_hash : string;
  bundle_content_hash : string;
}.

Definition pointer_from_campaign_result `{Hashes} (result : LaneResult) (release_tag campaign_plan_id : string)
    (architectures : list string) (report : string) (valid : bool) : res PromotionPointer :=
  let covered := match catalog_architectures result with [] => targets result | l => l end in
  _ ← ensure (negb (negb (bool_decide (covered = [])) && negb (forallb (fun a => str_in a covered) architectures)))
        (PromotionError ("claimed required_architectures " +:+ py_repr_list (py_sorted String.leb architectures)
           +:+ " exceed what this campaign result actually covered " +:+ py_repr_list (py_sorted String.leb covered)));
  make_pointer release_tag (resolved_revision result) campaign_plan_id (run_id result) report (lane_source_slice_id result)
    (build_plan_id result) (binary_content_hash result) architectures (bundle_content_hash result) valid.

(** ** Replay coverage *)

(** [isinstance(value, int)] *)
Definition as_int (v : option json) : option Z :=
  match v with Some (JInt z) => Some z | Some (JBool b) => Some (num_of_bool b) | _ => None end.

Definition OUTCOMES : list string := ["exact"; "candidate_unavailable"; "rerun_required"; "incompatible"; "misses"].

Definition zsum (l : list Z) : Z := fold_right Z.add 0%Z l.

Record Coverage : Type := mkCoverage { total_dispatched : Z; total_executed : Z; outcomes : list (string * Z) }.

(** [validate_replay_coverage], of the text of the file; the count of entries is
    passed through.  A text that is not JSON is reported without the position. *)
Definition validate_replay_coverage (text : option string) : res Coverage :=
  text ← of_option (ValueError "replay command did not write its coverage file") text;
  v ← of_option (ValueError "could not read replay coverage") (loads text);
  match v with
  | JObj o =>
      match as_int (jget o "total_dispatched"), as_int (jget o "total_executed") with
      | Some dispatched, Some executed =>
          _ ← ensure (dispatched =? executed)%Z (ValueError ("coverage incomplete: dispatched="
                +:+ jrepr (get_or o "total_dispatched" JNull) +:+ ", executed=" +:+ jrepr (get_or o "total_executed" JNull)));
          match jget o "replay" with
          | Some (JObj replay) =>
              _ ← ensure (is_int (jget replay "schema_version") 2)
                    (ValueError "coverage is not from current replay v2; rerun required");
              found ← of_option (ValueError "replay coverage lacks current resolution outcomes")
                        (mapM (fun name => (fun z => (name, z)) <$> as_int (jget replay name)) OUTCOMES);
              let others := List.filter (fun nz : string * Z => negb (String.eqb nz.1 "exact")) found in
              _ ← ensure (zsum (map snd others) =? 0)%Z
                    (ValueError ("replay has non-exact resolution outcomes: "
                       +:+ String.concat ", " (map (fun nz : string * Z => nz.1 +:+ "=" +:+ jrepr (get_or replay nz.1 JNull))
                             (List.filter (fun nz => negb (nz.2 =? 0)%Z) others))));
              Ok (mkCoverage dispatched executed found)
          | _ => Err (ValueError "coverage lacks replay provenance; use a replay-capable build")
          end
      | _, _ => Err (ValueError "coverage lacks total_dispatched/total_executed")
      end
  | _ => Err (AttributeError "object has no attribute 'get'")
  end.

(** ** The pointer of a comparison *)

Definition opt_repr (o : option string) : string := jrepr (jopt JStr o).
Definition same (v : json) (o : option string) : bool := py_eqb v (jopt JStr o).

Section Comparison.
Context `{Hashes} (root : path) (t : tree).

Definition get_value (o : list (string * json)) (k : string) : json := get_or o k JNull.

(** What the replay arm of a report says of itself, against the provenance of
    the coverage. *)
Definition check_identity (coverage_id : string) (arm : list (string * json)) (coverage : Provenance.ProvenanceV2) : res unit :=
  let reported := [get_value arm "source_slice_id"; get_value arm "build_plan_id"; get_value arm "effective_build_id"] in
  let actual := [Provenance.source_slice_id (Provenance.source coverage); Provenance.build_plan_id (Provenance.build coverage);
                 Provenance.effective_build_id (Provenance.build coverage)] in
  ensure (forallb (fun ra => same ra.1 ra.2) (combine reported actual))
    (PromotionError ("replay validation artifact " +:+ py_repr coverage_id +:+ " identity (" +:+ String.concat ", " (map opt_repr actual)
       +:+ ") does not match the comparison report's replay arm identity (" +:+ String.concat ", " (map jrepr reported) +:+ ")")).

Definition check_parents (coverage_id bundle_id cache_id : string) (coverage : Provenance.ProvenanceV2) : res unit :=
  let expected := sorted_set [bundle_id; cache_id] in
  let actual := sorted_set (Provenance.producer_artifact_ids (Provenance.campaign coverage)) in
  ensure (bool_decide (actual = expected))
    (PromotionError ("replay validation artifact " +:+ py_repr coverage_id +:+ " parent artifacts " +:+ py_repr_list actual
       +:+ " are not exactly the replay arm's runtime-bundle + replay-cache " +:+ py_repr_list expected
       +:+ " -- a matching build identity does not prove the same cache was validated")).

Definition check_workload (coverage_id : string) (arm : list (string * json)) (coverage : Provenance.ProvenanceV2) : res unit :=
  let workload := Provenance.workload_id (Provenance.workload coverage) in
  ensure (bool_decide (workload = None) || same (get_value arm "workload_id") workload)
    (PromotionError ("replay validation artifact " +:+ py_repr coverage_id +:+ " workload " +:+ opt_repr workload
       +:+ " does not match the replay arm's workload " +:+ jrepr (get_value arm "workload_id"))).

(** [except (ProvenanceError, ArtifactError)] *)
Definition not_promotable {A} (coverage_id : string) (m : res A) : res A :=
  match m with
  | Err e => if str_in (exn_class e) ["ProvenanceError"; "ArtifactError"]
             then Err (PromotionError ("replay validation artifact " +:+ py_repr coverage_id +:+ " is not promotable: " +:+ exn_message e))
             else Err e
  | Ok a => Ok a
  end.

(** [except ValueError] *)
Definition exact_replay (coverage_id : string) (text : option string) : res Coverage :=
  match validate_replay_coverage text with
  | Err e => if String.eqb (exn_class e) "ValueError"
             then Err (PromotionError ("replay validation artifact " +:+ py_repr coverage_id
                    +:+ " fails exact-replay coverage validation: " +:+ exn_message e))
             else Err e
  | Ok c => Ok c
  end.

Definition text_or_empty (v : json) : string := match v with JStr s => s | _ => "" end.

(** A report, its bytes and the arm of it that replays. *)
Definition replay_arm_of (report_id : string) (bytes : string) : res (list (string * json) * string * list (string * json)) :=
  let the_report := "comparison report " +:+ py_repr report_id in
  v ← of_option (PromotionError (the_report +:+ " is not valid JSON")) (loads bytes);
  match v with
  | JObj report =>
      _ ← ensure (jtruthy (get_value report "valid")) (PromotionError (the_report +:+ " is not valid"));
      _ ← ensure (jtruthy (get_value report "decision_grade")) (PromotionError (the_report +:+ " is not decision-grade"));
      match get_value report "replay_arm" with
      | JStr side =>
          _ ← ensure (str_in side ["left"; "right"]) (PromotionError (the_report +:+ " has no replay arm to cross-check"));
          match get_value report (side +:+ "_arm") with
          | JObj arm => Ok (report, side, arm)
          | _ => Err (PromotionError (the_report +:+ " is missing its " +:+ side +:+ "_arm"))
          end
      | _ => Err (PromotionError (the_report +:+ " has no replay arm to cross-check"))
      end
  | _ => Err (PromotionError (the_report +:+ " is not valid"))
  end.

Definition read_bytes (p : path) : res string :=
  of_option (OSError "[Errno 2] No such file or directory") (bytes_at t p).

Definition pointer_from_comparison_report (report_artifact_id release_tag replay_coverage_artifact_id : string)
    (required_architectures : list string) : res PromotionPointer :=
  let the_report := "comparison report " +:+ py_repr report_artifact_id in
  report_ref ← rehydrate root t report_artifact_id (Some "comparison-report") false;
  report_doc ← Provenance.from_document (ref_provenance report_ref);
  let class := Provenance.provenance_class (Provenance.project report_doc) in
  _ ← ensure (bool_decide (class = Provenance.Production))
        (PromotionError (the_report +:+ " is not production-class evidence (provenance_class="
           +:+ py_repr (Provenance.class_name class) +:+ ")"));
  report_bytes ← read_bytes (ref_path report_ref);
  '(report, side, arm) ← replay_arm_of report_artifact_id report_bytes;
  coverage_ref ← not_promotable replay_coverage_artifact_id
                   (rehydrate root t replay_coverage_artifact_id (Some "replay-coverage") true);
  coverage ← Provenance.from_document (ref_provenance coverage_ref);
  _ ← check_identity replay_coverage_artifact_id arm coverage;
  bundle_id ← of_option (PromotionError (the_report +:+ " replay arm lacks runtime_bundle_artifact_id"))
                (nonempty_str (jget arm "runtime_bundle_artifact_id"));
  cache_id ← of_option (PromotionError (the_report +:+ " replay arm lacks replay_cache_artifact_id -- a replay arm without a verified cache is not release evidence"))
               (nonempty_str (jget arm "replay_cache_artifact_id"));
  _ ← check_parents replay_coverage_artifact_id bundle_id cache_id coverage;
  _ ← check_workload replay_coverage_artifact_id arm coverage;
  _ ← exact_replay replay_coverage_artifact_id (read_text t (ref_path coverage_ref));
  _ ← ensure (negb (bool_decide (required_architectures = [])) && forallb truthy required_architectures)
        (PromotionError "promotion requires at least one non-empty required architecture");
  binary_id ← of_option (PromotionError (the_report +:+ " is missing its " +:+ side +:+ "_binary_artifact_id"))
                (nonempty_str (jget report (side +:+ "_binary_artifact_id")));
  binary_ref ← rehydrate root t binary_id (Some "binary") false;
  bundle_ref ← rehydrate root t bundle_id (Some "runtime-bundle") false;
  binary_doc ← Provenance.from_document (ref_provenance binary_ref);
  pointer_from (pointer_document (mkPointer 3 release_tag
    (default "" (Provenance.upstream_revision (Provenance.source binary_doc)))
    (default "" (Provenance.campaign_plan_id (Provenance.campaign report_doc)))
    (default "" (Provenance.run_id (Provenance.campaign report_doc)))
    (sha256 report_bytes)
    (text_or_empty (get_value arm "source_slice_id")) (text_or_empty (get_value arm "build_plan_id"))
    (ref_content_hash binary_ref) required_architectures (ref_content_hash bundle_ref)
    report_artifact_id replay_coverage_artifact_id)).
End Comparison.

(** ** Pointers that are read back *)

(** What a pointer must have. *)
Definition sound_pointer (p : PromotionPointer) : bool :=
  forallb truthy [release_tag p; revision p; campaign_plan_id p; campaign_run_id p; report_hash p; source_slice_id p; build_id p;
                  binary_hash p; replay_artifact_hash p]
  && negb (bool_decide (required_architectures p = [])) && forallb truthy (required_architectures p)
  && (if (schema_version p =? 3)%Z then truthy (report_artifact_id p) && truthy (coverage_artifact_id p)
      else (schema_version p =? 2)%Z && String.eqb (report_artifact_id p) "" && String.eqb (coverage_artifact_id p) "").

Lemma nonempty_str_Some v s : nonempty_str v = Some s <-> v = Some (JStr s) /\ truthy s = true.
Proof.
  unfold nonempty_str. destruct v as [[| | | |x| |]|]; try (by split; [|intros [? ?]]).
  destruct (truthy x) eqn:E; (split; [intros Hs|intros [[= ->] Ht]]); [by injection Hs as <-|done|done|congruence].
Qed.

Lemma pointer_str_Ok v f s : pointer_str v f = Ok s <-> v = Some (JStr s) /\ truthy s = true.
Proof. unfold pointer_str. by rewrite of_option_Ok, nonempty_str_Some. Qed.

Lemma pointer_strs_Ok v l : pointer_strs v = Ok l <-> v = Some (jstrs l) /\ l <> [] /\ forallb truthy l = true.
Proof.
  unfold pointer_strs. assert (forall k m, mapM (fun x => nonempty_str (Some x)) k = Some m <-> k = map JStr m /\ forallb truthy m = true) as HM.
  { intros k m. rewrite mapM_Some. split.
    - induction 1 as [|x y k m [[= ->] Hy]%nonempty_str_Some _ [-> Hm]]; [done|]. cbn [forallb]. by rewrite Hy.
    - intros [-> Ht]. induction m as [|y m IH]; [constructor|]. cbn [forallb] in Ht. apply andb_true_iff in Ht as [Hy Hm].
      constructor; [by apply nonempty_str_Some|by apply IH]. }
  split.
  - destruct v as [[]|]; try done. intros (m & Hm%of_option_Ok%HM & H)%bind_Ok. apply bind_Ok in H as (u & Hn%ensure_Ok & [= <-]).
    destruct Hm as [-> Ht]. apply negb_true_iff, bool_decide_eq_false in Hn. done.
  - intros (-> & Hn & Ht). cbn [jstrs]. unfold jstrs. rewrite (proj2 (HM _ l) (conj eq_refl Ht)). cbn [of_option mbind result_bind].
    by rewrite bool_decide_eq_false_2.
Qed.

Lemma pointer_schema_Ok v z : pointer_schema v = Ok z -> z = 2%Z \/ z = 3%Z.
Proof. unfold pointer_schema. destruct (is_int v 2); [intros [= <-]; by left|]. destruct (is_int v 3); [intros [= <-]; by right|done]. Qed.

Lemma pointer_from_sound v p : pointer_from v = Ok p -> sound_pointer p = true.
Proof.
  unfold pointer_from. destruct v as [| | | | | |o]; try done. intros (z & Hz%pointer_schema_Ok & H)%bind_Ok.
  repeat match type of H with
  | mbind _ (pointer_str _ _) = Ok _ => let s := fresh "s" in let E := fresh "Hs" in apply bind_Ok in H as (s & E & H); apply pointer_str_Ok in E as [_ E]
  | mbind _ (pointer_dict _ _) = Ok _ => apply bind_Ok in H as (? & _ & H)
  | mbind _ (pointer_strs _) = Ok _ => let E := fresh "E" in apply bind_Ok in H as (archs & E & H); apply pointer_strs_Ok in E as (_ & Hne & Harchs)
  end.
  apply bind_Ok in H as ([a b] & Hab & [= <-]). unfold sound_pointer. cbn. repeat match goal with E : truthy _ = true |- _ => rewrite E; clear E end.
  rewrite bool_decide_eq_false_2 by done. rewrite Harchs. cbn [negb andb].
  destruct Hz as [-> | ->]; cbn in *.
  - by injection Hab as <- <-.
  - apply bind_Ok in Hab as (a' & Ha%pointer_str_Ok & Hab). apply bind_Ok in Hab as (b' & Hb%pointer_str_Ok & [= <- <-]).
    destruct Ha as [_ ->], Hb as [_ ->]. done.
Qed.

Lemma keys_pointer p : NoDup (map fst (match pointer_document p with JObj o => o | _ => [] end)).
Proof. unfold pointer_document. destruct (3 <=? schema_version p)%Z; apply (bool_decide_eq_true_1 (NoDup _)); vm_compute; reflexivity. Qed.

Lemma pointer_back `{Provenance.Reorders g members} p : sound_pointer p = true -> pointer_from (g (pointer_document p)) = Ok p.
Proof.
  intros Hs. unfold sound_pointer in Hs. apply andb_prop in Hs as [Hs Hv]. apply andb_prop in Hs as [Hs Ha].
  apply andb_prop in Hs as [Hs Hne]. apply negb_true_iff, bool_decide_eq_false in Hne.
  rewrite forallb_forall in Hs.
  assert (forall s f, In s [release_tag p; revision p; campaign_plan_id p; campaign_run_id p; report_hash p; source_slice_id p; build_id p;
    binary_hash p; replay_artifact_hash p] -> pointer_str (Some (JStr s)) f = Ok s) as Hstr by (intros s f Hin; apply pointer_str_Ok; split; [done|by apply Hs]).
  pose proof (keys_pointer p) as Hnd. unfold pointer_document in *. set (o := _ ++ _) in *. rewrite Provenance.g_obj.
  assert (forall key x, jget o key = Some x -> jget (members o) key = Some (g x)) as Hget by (intros key x; by apply Provenance.got).
  assert (forall key s f, jget o key = Some (JStr s) -> truthy s = true -> pointer_str (jget (members o) key) f = Ok s) as Hfield.
  { intros key s f Hk Ht. rewrite (Hget key _ Hk), Provenance.g_str. by apply pointer_str_Ok. }
  cbn [pointer_from].
  assert (pointer_schema (jget (members o) "schema_version") = Ok (schema_version p)) as ->.
  { rewrite (Hget "schema_version" (JInt (schema_version p)) eq_refl), Provenance.g_int. unfold pointer_schema. cbn [is_int num_eqb].
    destruct (Z.eqb_spec 2 (schema_version p)) as [->|]; [done|]. destruct (Z.eqb_spec 3 (schema_version p)) as [->|]; [done|].
    exfalso. rewrite (proj2 (Z.eqb_neq _ 3)), (proj2 (Z.eqb_neq _ 2)) in Hv by lia. done. }
  cbn [mbind result_bind].
  assert (forall x key s f, NoDup (map fst x) -> jget x key = Some (JStr s) -> truthy s = true ->
    pointer_str (jget (members x) key) f = Ok s) as Hin.
  { intros x key s f Hx Hk Ht. rewrite (Provenance.got_str x key s Hx Hk). by apply pointer_str_Ok. }
  rewrite (Hfield "release_tag" (release_tag p) _ eq_refl), (Hfield "revision" (revision p) _ eq_refl) by (apply Hs; cbn; tauto).
  cbn [mbind result_bind]. rewrite (Hget "validated_campaign" (campaign_part p) eq_refl), (Hget "promoted_source" (source_part p) eq_refl).
  unfold campaign_part, source_part. rewrite !Provenance.g_obj. cbn [pointer_dict mbind result_bind].
  rewrite (Hin _ "campaign_plan_id" (campaign_plan_id p)), (Hin _ "campaign_run_id" (campaign_run_id p)),
    (Hin _ "report_hash" (report_hash p)), (Hin _ "source_slice_id" (source_slice_id p)), (Hin _ "build_id" (build_id p)),
    (Hin _ "binary_hash" (binary_hash p)) by (Provenance.keys_differ || reflexivity || (apply Hs; cbn; tauto)).
  cbn [mbind result_bind].
  rewrite (Provenance.got_strs o "required_architectures" (required_architectures p) Hnd eq_refl).
  rewrite (proj2 (pointer_strs_Ok _ (required_architectures p)) (conj eq_refl (conj Hne Ha))). cbn [mbind result_bind].
  rewrite (Hfield "replay_artifact_hash" (replay_artifact_hash p) _ eq_refl) by (apply Hs; cbn; tauto). cbn [mbind result_bind].
  destruct (Z.eqb_spec (schema_version p) 3) as [E3|E3].
  - apply andb_prop in Hv as [H1 H2]. subst o. rewrite E3 in *. cbn [Z.leb Z.compare Pos.compare Pos.compare_cont app] in *.
    rewrite (Hfield "report_artifact_id" (report_artifact_id p) _ eq_refl H1). cbn [mbind result_bind].
    rewrite (Hfield "coverage_artifact_id" (coverage_artifact_id p) _ eq_refl H2). cbn [mbind result_bind]. destruct p; cbn in *. by subst.
  - apply andb_prop in Hv as [Hv H2%String.eqb_eq]. apply andb_prop in Hv as [_ H1%String.eqb_eq]. cbn [mbind result_bind].
    destruct p; cbn in *. by subst.
Qed.

Lemma jwf_pointer p : jwf (pointer_document p).
Proof.
  unfold pointer_document. apply jwf_obj. split; [apply keys_pointer|]. apply Forall_app. split.
  - repeat apply Forall_cons_2; try done; cbn [snd]; [..|by apply jwf_jstrs].
    all: apply jwf_obj; (split; [Provenance.keys_differ|]); by repeat constructor.
  - destruct (3 <=? schema_version p)%Z; by repeat constructor.
Qed.

(** Putting the keys of a document in order changes nothing for the reader. *)
Lemma pointer_str_sorted v f : pointer_str (sort_keys <$> v) f = pointer_str v f.
Proof. by destruct v as [[]|]. Qed.

Lemma pointer_schema_sorted v : pointer_schema (sort_keys <$> v) = pointer_schema v.
Proof. by destruct v as [[]|]. Qed.

Lemma pointer_strs_sorted v : pointer_strs (sort_keys <$> v) = pointer_strs v.
Proof.
  destruct v as [[| | | | |l|]|]; try done. unfold pointer_strs. cbn [fmap option_fmap option_map sort_keys].
  assert (mapM (fun x => nonempty_str (Some x)) (map sort_keys l) = mapM (fun x => nonempty_str (Some x)) l) as ->; [|done].
  induction l as [|x l IH]; [done|]. cbn [map mapM]. rewrite IH. f_equal. by destruct x.
Qed.

Lemma pointer_from_sorted v : jwf v -> pointer_from (sort_keys v) = pointer_from v.
Proof.
  destruct v as [| | | | | |o]; try done. intros [Hnd Hwf]%jwf_obj. rewrite sort_keys_members. cbn [pointer_from].
  rewrite !jget_sorted_members, pointer_schema_sorted, !pointer_str_sorted, pointer_strs_sorted by done.
  assert (forall k c, jget o k = Some (JObj c) -> NoDup (map fst c)) as Hin.
  { intros k c Hk%jget_Some; [|done]. rewrite Forall_forall in Hwf. by apply Hwf, jwf_obj in Hk as [? _]. }
  assert (forall A k f (F G : list (string * json) -> res A), (forall c, jget o k = Some (JObj c) -> F (sorted_members c) = G c) ->
    (c ← pointer_dict (sort_keys <$> jget o k) f; F c) = (c ← pointer_dict (jget o k) f; G c)) as Hdict.
  { intros A k f F G HF. destruct (jget o k) as [[| | | | | |c]|]; try done. cbn [fmap option_fmap option_map]. rewrite sort_keys_members.
    cbn [pointer_dict mbind result_bind]. by apply HF. }
  destruct (pointer_schema _); [|done]. cbn [mbind result_bind].
  destruct (pointer_str (jget o "release_tag") _); [|done]. destruct (pointer_str (jget o "revision") _); [|done]. cbn [mbind result_bind].
  apply Hdict. intros c Hc. rewrite !jget_sorted_members, !pointer_str_sorted by (by eapply Hin).
  destruct (pointer_str (jget c "campaign_plan_id") _); [|done]. destruct (pointer_str (jget c "campaign_run_id") _); [|done].
  destruct (pointer_str (jget c "report_hash") _); [|done]. cbn [mbind result_bind]. apply Hdict. intros d Hd. by rewrite !jget_sorted_members, !pointer_str_sorted by (by eapply Hin).
Qed.

(** Promotion pointers round trip: a pointer is what its document is read
    back as, at once and from the text of a record, exactly when it is one the
    reader gives for some document; and that is when it is of a version that
    exists, every identity in it is there, at least one architecture is named,
    and the anchors of a version-3 pointer are there, those of a version-2
    pointer are not. *)
Theorem pointer_roundtrip p :
  (exists v, pointer_from v = Ok p) <-> sound_pointer p = true /\ pointer_from (pointer_document p) = Ok p /\
    exists v, loads (Pretty.dumps_indent (pointer_document p) +:+ newline) = Some v /\ pointer_from v = Ok p.
Proof.
  split; [intros [v Hv%pointer_from_sound]|intros (_ & H & _); by eexists]. split_and!; [done|by apply (pointer_back (g := id))|].
  exists (sort_keys (pointer_document p)). split; [apply Pretty.loads_indent, jwf_pointer|by apply (pointer_back (g := sort_keys))].
Qed.

(** ** What a pointer is evidence of *)

Lemma document_only p q : Provenance.from_document (Provenance.document p) = Ok q -> q = p.
Proof.
  intros Hq. assert (Provenance.schema_version p = Provenance.SCHEMA_VERSION) as Hv.
  { unfold Provenance.from_document in Hq. apply bind_Ok in Hq as (o & Ho & _). unfold Provenance.validate, Provenance.document in Ho.
    apply bind_Ok in Ho as (u & Hi%ensure_Ok & _). cbn [jget String.eqb Ascii.eqb Bool.eqb is_int num_eqb] in Hi. by apply Z.eqb_eq in Hi. }
  pose proof (Provenance.document_back (g := id) p Hv) as Hb. cbn [id] in Hb. change (id ?x) with x in Hb. rewrite Hq in Hb.
  by injection Hb.
Qed.

Lemma pointer_document_only m p : schema_version m = 3%Z -> pointer_from (pointer_document m) = Ok p -> p = m.
Proof.
  intros H3. unfold pointer_document, campaign_part, source_part. rewrite H3. cbn [pointer_from Z.leb Z.compare Pos.compare Pos.compare_cont app].
  cbn [jget String.eqb Ascii.eqb Bool.eqb pointer_dict mbind result_bind]. intros (z & Hz & H)%bind_Ok.
  assert (z = 3%Z) as -> by (by injection Hz).
  repeat match type of H with
  | mbind _ (pointer_str _ _) = Ok _ => let s := fresh "s" in let E := fresh "E" in apply bind_Ok in H as (s & E & H); apply pointer_str_Ok in E as [[= <-] _]
  | mbind _ (pointer_strs _) = Ok _ => let E := fresh "E" in apply bind_Ok in H as (archs & E & H); apply pointer_strs_Ok in E as ([= E] & _ & _)
  end.
  apply bind_Ok in H as ([a b] & Hab & [= <-]). cbn [Z.eqb Pos.eqb] in Hab.
  apply bind_Ok in Hab as (a' & [[= <-] _]%pointer_str_Ok & Hab). apply bind_Ok in Hab as (b' & [[= <-] _]%pointer_str_Ok & [= <- <-]).
  assert (archs = required_architectures m) as ->.
  { clear -E. revert E. generalize (required_architectures m) as l. induction archs as [|x archs IH]; intros [|y l]; cbn; try done.
    intros [= -> E]. f_equal. by apply IH. }
  destruct m. cbn in *. by subst.
Qed.

Section Evidence.
Context `{Hashes} (root : path) (t : tree).

(** An artifact of the store: its bytes are there, its identity covers them and
    its provenance, which is that of its kind. *)
Definition stored (kind id content : string) (pv : Provenance.ProvenanceV2) (p : path) : Prop :=
  (exists relative, path_of root relative = Ok p /\ id = artifact_id_of kind relative (sha256 content) pv) /\
  bytes_at t p = Some content /\ is_ok (Provenance.validate_for_kind (Provenance.document pv) kind) = true.

Lemma rehydrate_stored id kind promotable ref :
  rehydrate root t id (Some kind) promotable = Ok ref ->
  exists content pv, stored kind id content pv (ref_path ref) /\ ref_content_hash ref = sha256 content /\
    ref_provenance ref = Provenance.document pv /\ (forall q, Provenance.from_document (ref_provenance ref) = Ok q -> q = pv) /\
    (promotable = true -> Provenance.provenance_class (Provenance.project pv) = Provenance.Production).
Proof.
  intros Hr. destruct (rehydrate_trusts_nothing root t id (Some kind) promotable ref Hr)
    as (_ & Hk & (relative & pv & Hp & Hpv & Hid) & (c & Hc & Hh) & Hv & Hprom).
  specialize (Hk kind eq_refl). rewrite Hk, Hpv in *. exists c, pv. split_and!; try done.
  - split; [exists relative; rewrite Hh; by split|by split].
  - intros q Hq. by apply document_only in Hq.
  - intros Ht. specialize (Hprom Ht). unfold Provenance.require_promotable in Hprom.
    destruct (Provenance.validate_for_kind _ _) as [q|e] eqn:E; [|done]. cbn [mbind result_bind] in Hprom.
    assert (q = pv) as ->.
    { unfold Provenance.validate_for_kind in E. apply bind_Ok in E as (q' & Hq%document_only & E). subst q'.
      destruct (negb _); [by injection E|]. apply bind_Ok in E as (? & _ & E). by apply bind_Ok in E as (? & _ & [= ->]). }
    destruct (ensure _ _) as [[]|] eqn:E2; [|done]. by apply ensure_Ok, bool_decide_eq_true in E2.
Qed.

(** Every replay resolved to the winner it was recorded for. *)
Definition exact_coverage (text : string) : Prop :=
  exists cov, validate_replay_coverage (Some text) = Ok cov /\ total_dispatched cov = total_executed cov /\
    map fst (outcomes cov) = OUTCOMES /\
    ((forall n z, (n, z) ∈ outcomes cov -> (0 <= z)%Z) -> forall n z, (n, z) ∈ outcomes cov -> n <> "exact" -> z = 0%Z).

(** The documents behind a pointer. *)
Record evidence (p : PromotionPointer) (tag report_id coverage_id : string) : Prop := {
  ev_report : exists text report pv path side arm,
    stored "comparison-report" report_id text pv path /\
    Provenance.provenance_class (Provenance.project pv) = Provenance.Production /\
    report_hash p = sha256 text /\ loads text = Some (JObj report) /\
    jtruthy (get_value report "valid") = true /\ jtruthy (get_value report "decision_grade") = true /\
    (side = "left" \/ side = "right") /\ jget report "replay_arm" = Some (JStr side) /\
    jget report (side +:+ "_arm") = Some (JObj arm) /\
    campaign_run_id p = default "" (Provenance.run_id (Provenance.campaign pv)) /\
    (exists coverage cv cpath bundle_id cache_id,
       stored "replay-coverage" coverage_id coverage cv cpath /\
       Provenance.provenance_class (Provenance.project cv) = Provenance.Production /\
       exact_coverage (universal coverage) /\
       Provenance.source_slice_id (Provenance.source cv) = Some (source_slice_id p) /\
       Provenance.build_plan_id (Provenance.build cv) = Some (build_id p) /\
       get_value arm "effective_build_id" = jopt JStr (Provenance.effective_build_id (Provenance.build cv)) /\
       jget arm "runtime_bundle_artifact_id" = Some (JStr bundle_id) /\ jget arm "replay_cache_artifact_id" = Some (JStr cache_id) /\
       (forall x, x ∈ Provenance.producer_artifact_ids (Provenance.campaign cv) <-> x = bundle_id \/ x = cache_id) /\
       (forall w, Provenance.workload_id (Provenance.workload cv) = Some w -> jget arm "workload_id" = Some (JStr w)) /\
       exists bundle bv bpath, stored "runtime-bundle" bundle_id bundle bv bpath /\ replay_artifact_hash p = sha256 bundle) /\
    (exists binary_id binary nv npath,
       jget report (side +:+ "_binary_artifact_id") = Some (JStr binary_id) /\
       stored "binary" binary_id binary nv npath /\ binary_hash p = sha256 binary /\
       Provenance.upstream_revision (Provenance.source nv) = Some (revision p));
  ev_sound : sound_pointer p = true;
  ev_named : schema_version p = 3%Z /\ release_tag p = tag /\ report_artifact_id p = report_id /\ coverage_artifact_id p = coverage_id;
}.

Lemma zsum_zero l : (forall z, z ∈ l -> (0 <= z)%Z) -> zsum l = 0%Z -> forall z, z ∈ l -> z = 0%Z.
Proof.
  induction l as [|x l IH]; intros Hpos Hs z Hz; [by apply elem_of_nil in Hz|]. change (x + zsum l = 0)%Z in Hs.
  assert (0 <= zsum l)%Z as Hl.
  { clear IH Hs Hz. induction l as [|y l IH]; [done|]. change (0 <= y + zsum l)%Z. pose proof (Hpos y ltac:(right; left)).
    assert (0 <= zsum l)%Z; [|lia]. apply IH. intros w Hw. apply Hpos. apply elem_of_cons in Hw as [->|Hw]; [by left|by right; right]. }
  pose proof (Hpos x ltac:(left)). apply elem_of_cons in Hz as [->|Hz]; [lia|].
  apply IH; [intros w Hw; apply Hpos; by right|lia|done].
Qed.

Lemma coverage_exact text cov : validate_replay_coverage (Some text) = Ok cov -> exact_coverage text.
Proof.
  intros Hv. exists cov. split; [done|]. unfold validate_replay_coverage in Hv. cbn [of_option mbind result_bind] in Hv.
  apply bind_Ok in Hv as (v & _ & Hv). destruct v as [| | | | | |o]; try done.
  destruct (as_int _) as [d|]; [|done]. destruct (as_int _) as [x|]; [|done]. apply bind_Ok in Hv as (u & He%ensure_Ok & Hv).
  apply Z.eqb_eq in He. subst x. destruct (jget o "replay") as [[| | | | | |r]|]; try done.
  apply bind_Ok in Hv as (u1 & _ & Hv). apply bind_Ok in Hv as (found & Hf%of_option_Ok & Hv).
  apply bind_Ok in Hv as (u2 & Hz%ensure_Ok & [= <-]). apply Z.eqb_eq in Hz. cbn [total_dispatched total_executed outcomes]. split_and!; [done| |].
  - apply mapM_Some in Hf. clear Hz. revert Hf. generalize OUTCOMES as ks. intros ks Hf.
    induction Hf as [|k [n z] ks found Hk _ IH]; [done|]. cbn. rewrite IH. destruct (as_int _); [|done]. by injection Hk as <- _.
  - intros Hpos n z Hin Hn. eapply (zsum_zero _ _ Hz). 
    apply (list_elem_of_fmap_2 snd _ (n, z)). apply list_elem_of_In, filter_In. split; [by apply list_elem_of_In|].
    cbn. by apply negb_true_iff, String.eqb_neq.
    Unshelve. intros w ([n' z'] & -> & Hw)%list_elem_of_fmap. apply list_elem_of_In, filter_In in Hw as [Hw _].
    apply (Hpos n'). by apply list_elem_of_In.
Qed.

Lemma same_spec v o : same v o = true <-> v = jopt JStr o.
Proof. apply py_eqb_opt. Qed.

Lemma get_value_Some o k v : get_value o k = v -> v <> JNull -> jget o k = Some v.
Proof. unfold get_value, get_or. destruct (jget o k) as [w|]; intros Hv Hn; [by f_equal|by destruct Hn]. Qed.

Lemma replay_arm_of_Ok report_id text report side arm :
  replay_arm_of report_id text = Ok (report, side, arm) ->
  loads text = Some (JObj report) /\ jtruthy (get_value report "valid") = true /\ jtruthy (get_value report "decision_grade") = true /\
  (side = "left" \/ side = "right") /\ jget report "replay_arm" = Some (JStr side) /\ jget report (side +:+ "_arm") = Some (JObj arm).
Proof.
  unfold replay_arm_of. intros (v & Hl%of_option_Ok & Hr)%bind_Ok. destruct v as [| | | | | |o]; try done.
  apply bind_Ok in Hr as (u & Hv%ensure_Ok & Hr). apply bind_Ok in Hr as (u1 & Hd%ensure_Ok & Hr).
  destruct (get_value o "replay_arm") as [| | | |s| |] eqn:Es; try done. apply bind_Ok in Hr as (u2 & Hs%ensure_Ok%str_in_true & Hr).
  destruct (get_value o (s +:+ "_arm")) as [| | | | | |a] eqn:Ea; try done. injection Hr as <- <- <-.
  split_and!; [done|done|done| |by apply get_value_Some|by apply get_value_Some].
  apply elem_of_cons in Hs as [->|Hs%list_elem_of_singleton]; [by left|by right].
Qed.

Lemma not_promotable_Ok {A} id (m : res A) a : not_promotable id m = Ok a -> m = Ok a.
Proof. unfold not_promotable. destruct m; [done|]. by destruct (str_in _ _). Qed.

Lemma exact_replay_Ok id text c : exact_replay id text = Ok c -> validate_replay_coverage text = Ok c.
Proof. unfold exact_replay. destruct (validate_replay_coverage text); [done|]. by destruct (String.eqb _ _). Qed.

Lemma sound_parts p : sound_pointer p = true ->
  truthy (revision p) = true /\ truthy (source_slice_id p) = true /\ truthy (build_id p) = true.
Proof.
  unfold sound_pointer. intros [[[Hs _]%andb_prop _]%andb_prop _]%andb_prop. rewrite forallb_forall in Hs.
  split_and!; apply Hs; cbn; tauto.
Qed.

Lemma text_of_opt o : text_or_empty (jopt JStr o) = default "" o.
Proof. by destruct o. Qed.

Lemma default_given o : truthy (default "" o) = true -> o = Some (default "" o).
Proof. by destruct o. Qed.

End Evidence.

(** ** The properties are not empty *)

#[local] Instance demo_hashes : Hashes := { blake2b := fun s => "id" +:+ show_nat (String.length s); sha256 := fun s => "sha:" +:+ s }.

Definition demo_prov (parents : list string) : Provenance.ProvenanceV2 :=
  Provenance.derive [] parents "rev1" Provenance.demo_source
    (Provenance.mkBuild (Some "plan") (Some "eff") (Some "bin") (Some "bundle") [] [] []) Provenance.demo_none "run1" "compare"
    (Some "campaign") (Some "comparison") Provenance.Production.

Definition demo_put (relative content kind : string) (parents : list string) (t : tree) : string * tree :=
  let '(r, w) := @publish_bytes_ref demo_hashes long_names ["store"] relative content kind (inl (demo_prov parents)) (mkDisk t []) in
  (match r with Ok ref => ref_artifact_id ref | Err _ => "" end, files w).

Definition demo_text (v : json) : string := Pretty.dumps_indent v +:+ newline.

Definition demo_coverage (dispatched misses : Z) : string :=
  demo_text (JObj [("total_dispatched", JInt dispatched); ("total_executed", JInt dispatched);
    ("replay", JObj [("schema_version", JInt 2); ("exact", JInt dispatched); ("candidate_unavailable", JInt 0);
                     ("rerun_required", JInt 0); ("incompatible", JInt 0); ("misses", JInt misses)])]).

(** The tree of a store with a report, and the identifiers of the report and of
    the coverage; [cache]: the cache the coverage consumed. *)
Definition demo_store (cache : string) (dispatched misses : Z) : string * string * tree :=
  let '(binary, t) := demo_put "a" "ELF" "binary" [] ∅ in
  let '(bundle, t) := demo_put "bc" "SO" "runtime-bundle" [] t in
  let '(coverage, t) := demo_put "def" (demo_coverage dispatched misses) "replay-coverage" [bundle; cache] t in
  let '(report, t) := demo_put "ghij" (demo_text (JObj
       [("valid", JBool true); ("decision_grade", JBool true); ("replay_arm", JStr "right");
        ("right_arm", JObj [("source_slice_id", JStr "slice"); ("build_plan_id", JStr "plan"); ("effective_build_id", JStr "eff");
                            ("runtime_bundle_artifact_id", JStr bundle); ("replay_cache_artifact_id", JStr "cache1")]);
        ("right_binary_artifact_id", JStr binary)])) "comparison-report" [] t in
  (report, coverage, t).

Definition demo_promote (cache : string) (dispatched misses : Z) : res PromotionPointer :=
  let '(report, coverage, t) := demo_store cache dispatched misses in
  pointer_from_comparison_report ["store"] t report "b5000" coverage ["gfx1100"].

Definition demo_pointer : PromotionPointer :=
  match demo_promote "cache1" 7 0 with Ok p => p | Err _ => mkPointer 0 "" "" "" "" "" "" "" "" [] "" "" "" end.

Example demo_promoted :
  (release_tag demo_pointer, revision demo_pointer, binary_hash demo_pointer, replay_artifact_hash demo_pointer, campaign_plan_id demo_pointer)
  = ("b5000", "abc", "sha:ELF", "sha:SO", "campaign").
Proof. vm_compute. reflexivity. Qed.

(** Coverage of another cache, or with a miss, is no evidence. *)
Example demo_promotion_refusals : is_ok (demo_promote "cache2" 7 0) = false /\ is_ok (demo_promote "cache1" 7 1) = false.
Proof. vm_compute. by split. Qed.

(** Coverage of a replay in which nothing was looked up passes. *)
Example nothing_replayed : is_ok (demo_promote "cache1" 0 0) = true.
Proof. vm_compute. reflexivity. Qed.

(** And so do outcomes that cancel each other. *)
Example cancelled_outcomes :
  is_ok (validate_replay_coverage (Some (demo_text (JObj [("total_dispatched", JInt 1); ("total_executed", JInt 1);
    ("replay", JObj [("schema_version", JInt 2); ("exact", JInt 1); ("candidate_unavailable", JInt (-1));
                     ("rerun_required", JInt 0); ("incompatible", JInt 0); ("misses", JInt 1)])])))) = true.
Proof. vm_compute. reflexivity. Qed.

(** A result without architectures of its own is promoted for any. *)
Example claims_anything :
  is_ok (pointer_from_campaign_result (mkLaneResult "abc" "run1" "slice" "plan" [] [] "bin" "bundle") "b5000" "campaign"
    ["gfx9999"] "report" true) = true.
Proof. reflexivity. Qed.

Lemma demo_promote_value :
  pointer_from_comparison_report ["store"] (demo_store "cache1" 7 0).2 (demo_store "cache1" 7 0).1.1 "b5000" (demo_store "cache1" 7 0).1.2
    ["gfx1100"] = Ok demo_pointer.
Proof. vm_compute. reflexivity. Qed.

End Promotion.
