(* ===== verification/Records.v ===== *)
(** The records of releases: [src/tools/bigcherry/release/records.py].

    A record is in memory and on the disk; what a method does to either is
    state, and stays done when it raises.  The disk is the tree of [Tree], where
    every system call may fail or be the end of the process. *)

From S2P Require Import Prelude Json Pretty Lines Tree Operations Provenance Artifacts Promotion.
Import Lines.

Module Records.
Import Json Pretty Tree.
Import Artifacts(Killed, system_call, replace, unlink_missing_ok).
Import Promotion(PromotionPointer, pointer_document, pointer_from).

(** ** Stages *)

Definition STAGE_ORDER : list string :=
  ["pulled"; "audited"; "patched"; "generated"; "built"; "tested"; "tuned"; "validated"].
Definition VALID_STAGES : list string := STAGE_ORDER ++ ["broken"].
Definition ARTIFACT_VERSION : Z := 1.

Definition validate_stage (stage : string) : res unit :=
  ensure (str_in stage VALID_STAGES) (ValueError ("unknown release stage: " +:+ py_repr stage)).

Fixpoint index_in (x : string) (l : list string) : option nat :=
  match l with
  | [] => None
  | y :: l' => if String.eqb x y then Some 0 else S <$> index_in x l'
  end.

(** [STAGE_ORDER.index(stage)] *)
Definition stage_index (stage : string) : res nat :=
  of_option (ValueError "tuple.index(x): x not in tuple") (index_in stage STAGE_ORDER).

Definition validate_transition (current proposed : string) : res unit :=
  _ ← validate_stage current;
  _ ← validate_stage proposed;
  if String.eqb current proposed || String.eqb current "broken" then Ok tt
  else if String.eqb proposed "broken" then Ok tt
  else
    i ← stage_index proposed; j ← stage_index current;
    ensure (negb (i <? j)%nat)
      (ValueError ("release stage cannot move backwards: " +:+ py_repr current +:+ " -> " +:+ py_repr proposed)).

(** ** Records *)

(** The fields whose type a loaded record is checked for have it; the others are
    what the file has. *)
Record ReleaseRecord : Type := mkRecord {
  revision : string;
  release_tag : string;
  stage : string;
  bigcherry_revision : json;
  artifact_version : json;
  audit : json;
  patches : json;
  manifest_hash : json;
  tree_state : json;
  promotion : json;
  notes : json;
  runtime_assets : json;
  evidence_gate : json;
  first_seen : json;
  updated_at : json;
}.

Definition new_record (revision release_tag : string) : ReleaseRecord :=
  mkRecord revision release_tag "pulled" (JStr "") (JInt ARTIFACT_VERSION) (JObj []) (JObj []) (JStr "") (JStr "") JNull (JStr "")
    (JObj []) (JObj []) (JStr "") (JStr "").

(** [asdict], in the order of the fields *)
Definition record_document (r : ReleaseRecord) : list (string * json) :=
  [("revision", JStr (revision r)); ("release_tag", JStr (release_tag r)); ("stage", JStr (stage r));
   ("bigcherry_revision", bigcherry_revision r); ("artifact_version", artifact_version r); ("audit", audit r);
   ("patches", patches r); ("manifest_hash", manifest_hash r); ("tree_state", tree_state r); ("promotion", promotion r);
   ("notes", notes r); ("runtime_assets", runtime_assets r); ("evidence_gate", evidence_gate r); ("first_seen", first_seen r);
   ("updated_at", updated_at r)].

Definition with_stage (s : string) (r : ReleaseRecord) : ReleaseRecord :=
  mkRecord (revision r) (release_tag r) s (bigcherry_revision r) (artifact_version r) (audit r) (patches r) (manifest_hash r)
    (tree_state r) (promotion r) (notes r) (runtime_assets r) (evidence_gate r) (first_seen r) (updated_at r).

Definition with_evidence (manifest promotion : json) (r : ReleaseRecord) : ReleaseRecord :=
  mkRecord (revision r) (release_tag r) (stage r) (bigcherry_revision r) (artifact_version r) (audit r) (patches r) manifest
    (tree_state r) promotion (notes r) (runtime_assets r) (evidence_gate r) (first_seen r) (updated_at r).

Definition with_stamps (first updated : json) (r : ReleaseRecord) : ReleaseRecord :=
  mkRecord (revision r) (release_tag r) (stage r) (bigcherry_revision r) (artifact_version r) (audit r) (patches r) (manifest_hash r)
    (tree_state r) (promotion r) (notes r) (runtime_assets r) (evidence_gate r) first updated.

Definition with_identity (rev tag : string) (bigcherry : json) (r : ReleaseRecord) : ReleaseRecord :=
  mkRecord rev tag (stage r) bigcherry (artifact_version r) (audit r) (patches r) (manifest_hash r)
    (tree_state r) (promotion r) (notes r) (runtime_assets r) (evidence_gate r) (first_seen r) (updated_at r).

Definition with_patches (patches notes : json) (r : ReleaseRecord) : ReleaseRecord :=
  mkRecord (revision r) (release_tag r) (stage r) (bigcherry_revision r) (artifact_version r) (audit r) patches (manifest_hash r)
    (tree_state r) (promotion r) notes (runtime_assets r) (evidence_gate r) (first_seen r) (updated_at r).

Definition release_key (revision release_tag : string) : string :=
  if truthy release_tag then release_tag else str_take 12 revision.

Definition slug (r : ReleaseRecord) : string := release_key (revision r) (release_tag r).

(** [self.release_tag or self.revision] *)
Definition tag_or_revision (r : ReleaseRecord) : string := if truthy (release_tag r) then release_tag r else revision r.

(** *** Moving on *)

Definition advance_to (s : string) : stm ReleaseRecord unit :=
  _ ← lift (ensure (negb (String.eqb s "validated"))
        (ValueError "cannot advance to 'validated' directly -- call releases.promote() instead"));
  r ← get;
  _ ← lift (validate_transition (stage r) s);
  modify (with_stage s).

Definition set_validated_via_promotion : stm ReleaseRecord unit :=
  r ← get;
  _ ← lift (validate_transition (stage r) "validated");
  modify (with_stage "validated").

(** [self.promotion = p] *)
Definition set_promotion (p : json) : stm ReleaseRecord unit := modify (fun r => with_evidence (manifest_hash r) p r).

Definition record_apply_result (succeeded mutated : bool) : stm ReleaseRecord unit :=
  if negb succeeded then
    _ ← set_promotion JNull;
    advance_to "broken"
  else
    r ← get;
    if String.eqb (stage r) "broken" then advance_to "patched"
    else
      invalidates ← (if mutated then i ← lift (stage_index (stage r)); j ← lift (stage_index "patched"); mret (j <=? i)%nat
                     else mret false);
      if (invalidates : bool) then
        modify (fun r => with_evidence (JStr "") JNull (with_stage "patched" r))
      else
        i ← lift (stage_index (stage r)); j ← lift (stage_index "patched");
        if (i <? j)%nat then advance_to "patched" else mret tt.

Definition promote (p : PromotionPointer) : stm ReleaseRecord unit :=
  p ← lift (pointer_from (pointer_document p));
  r ← get;
  _ ← lift (ensure (String.eqb (Promotion.revision p) (revision r))
        (ValueError ("promotion pointer revision " +:+ py_repr (Promotion.revision p) +:+ " does not match release record revision "
           +:+ py_repr (revision r))));
  _ ← lift (ensure (String.eqb (Promotion.release_tag p) (tag_or_revision r))
        (ValueError ("promotion pointer release_tag " +:+ py_repr (Promotion.release_tag p)
           +:+ " does not match release record release_tag " +:+ py_repr (release_tag r))));
  _ ← set_promotion (pointer_document p);
  set_validated_via_promotion.

(** *** Validity *)

Definition is_dict (v : json) : bool := match v with JObj _ => true | _ => false end.

Definition check_evidence_gate (v : json) : res unit :=
  ensure (is_dict v) (ValueError "release record evidence_gate must be an object").
Definition check_runtime_assets (v : json) : res unit :=
  ensure (match v with JObj o => forallb (fun kv => is_dict kv.2) o | _ => false end)
    (ValueError "release record runtime_assets must map release tags to asset receipts").
Definition check_revision (s : string) : res unit :=
  ensure (negb (blank s)) (ValueError "release record has no source revision").

Definition check_promotion (r : ReleaseRecord) : res unit :=
  if String.eqb (stage r) "validated" then
    match pointer_from (promotion r) with
    | Err e => Err (ValueError ("validated release record has an invalid promotion pointer: " +:+ exn_message e))
    | Ok p =>
        _ ← ensure (String.eqb (Promotion.revision p) (revision r))
              (ValueError "promotion pointer revision disagrees with release record");
        ensure (String.eqb (Promotion.release_tag p) (tag_or_revision r))
          (ValueError "promotion pointer release_tag disagrees with release record")
    end
  else Ok tt.

Definition validate (r : ReleaseRecord) : res unit :=
  _ ← validate_stage (stage r);
  _ ← check_evidence_gate (evidence_gate r);
  _ ← check_runtime_assets (runtime_assets r);
  _ ← check_revision (revision r);
  check_promotion r.

(** *** What happens to a record in memory *)

(** The drivers set the other fields as they like. *)
Record Details : Type := mkDetails {
  de_audit : json; de_patches : json; de_manifest_hash : json; de_tree_state : json; de_notes : json;
  de_runtime_assets : json; de_evidence_gate : json;
}.

Definition with_details (d : Details) (r : ReleaseRecord) : ReleaseRecord :=
  mkRecord (revision r) (release_tag r) (stage r) (bigcherry_revision r) (artifact_version r) (de_audit d) (de_patches d)
    (de_manifest_hash d) (de_tree_state d) (promotion r) (de_notes d) (de_runtime_assets d) (de_evidence_gate d)
    (first_seen r) (updated_at r).

Inductive event : Type :=
| Advanced (s : string)
| Applied (succeeded mutated : bool)
| Promoted (p : PromotionPointer)
| Edited (d : Details).

Definition handle (e : event) : stm ReleaseRecord unit :=
  match e with
  | Advanced s => advance_to s
  | Applied succeeded mutated => record_apply_result succeeded mutated
  | Promoted p => promote p
  | Edited d => modify (with_details d)
  end.

(** One event after the other, whether it raises or not. *)
Definition history (r : ReleaseRecord) (es : list event) : ReleaseRecord := fold_left (fun r e => (handle e r).2) es r.

(** *** Reading a record *)

(** The constructor, given the known keys of [data]. *)
Definition fields_of (o : list (string * json)) : res (list (string * json)) :=
  _ ← ensure (has_key o "revision") (TypeError "ReleaseRecord.__init__() missing 1 required positional argument: 'revision'");
  Ok (map (fun kv => (kv.1, get_or o kv.1 kv.2)) (record_document (new_record "" ""))).

(** [stage not in VALID_STAGES], of any value *)
Definition read_stage (v : json) : res string :=
  match v with
  | JStr s => _ ← validate_stage s; Ok s
  | JArr _ => Err (TypeError "unhashable type: 'list'")
  | JObj _ => Err (TypeError "unhashable type: 'dict'")
  | _ => Err (ValueError ("unknown release stage: " +:+ jrepr v))
  end.

(** The record of a file, and its [validate]. *)
Definition read_record (data : list (string * json)) : res ReleaseRecord :=
  o ← fields_of data;
  let field k := get_or o k JNull in
  s ← read_stage (field "stage");
  _ ← check_evidence_gate (field "evidence_gate");
  _ ← check_runtime_assets (field "runtime_assets");
  rev ← (match field "revision" with JStr s => _ ← check_revision s; Ok s | _ => Err (ValueError "release record has no source revision") end);
  tag ← (match field "release_tag" with JStr s => Ok s | _ => Err (ValueError "release record has an invalid release tag") end);
  let r := mkRecord rev tag s (field "bigcherry_revision") (field "artifact_version") (field "audit") (field "patches")
             (field "manifest_hash") (field "tree_state") (field "promotion") (field "notes") (field "runtime_assets")
             (field "evidence_gate") (field "first_seen") (field "updated_at") in
  _ ← check_promotion r;
  Ok r.

(** *** What is kept of an audit *)

(** [v[k]], of dictionaries *)
Definition subscript (v : json) (k : string) : res json :=
  match v with JObj o => of_option (KeyError (py_repr k)) (jget o k) | _ => Err (TypeError "string indices must be integers") end.

Definition audit_passed (report : json) (strict : bool) : res bool :=
  summary ← subscript report "summary";
  errors ← subscript summary "errors";
  if jtruthy errors then Ok false
  else if strict then warnings ← subscript summary "warnings"; Ok (negb (jtruthy warnings))
  else Ok true.

(** The id of a check that failed. *)
Definition failed_check (c : json) : res (option json) :=
  ok ← subscript c "ok";
  if jtruthy ok then Ok None else i ← subscript c "id"; Ok (Some i).

(** The checks are a list. *)
Definition failed_checks (checks : json) : res (list json) :=
  match checks with
  | JArr l => found ← mapR failed_check l; Ok (omap (fun x : option json => x) (found : list (option json)))
  | _ => Err (TypeError "object is not iterable")
  end.

Definition summarise_audit (report : json) (strict : bool) : res json :=
  checks ← subscript report "checks";
  failures ← failed_checks checks;
  passed ← audit_passed report strict;
  summary ← subscript report "summary";
  Ok (JObj [("passed", JBool passed); ("strict", JBool strict); ("summary", summary); ("failed_checks", JArr failures)]).

(** ** The directory *)

(** [NamedTemporaryFile(prefix=..., suffix=..., dir=...)] *)
Class TempFiles : Type := { temp_file : tree -> path -> string -> string -> string }.
Class TempFilesLaws `{TempFiles} : Prop := {
  temp_file_fresh : forall t dir prefix suffix, t !! (dir ++ [temp_file t dir prefix suffix]) = None;
  temp_file_shape : forall t dir prefix suffix, exists random, temp_file t dir prefix suffix = prefix +:+ random +:+ suffix;
}.

(** [finally], of what is still there only when the body failed *)
Definition on_error {A} (body : stm Disk A) (cleanup : stm Disk unit) : stm Disk A := fun w =>
  match body w with
  | (Err e, w1) => if bool_decide (e = Killed) then (Err e, w1) else (_ ← cleanup; raise e) w1
  | (Ok a, w1) => (Ok a, w1)
  end.

(** [os.replace], which puts no file in the place of a directory *)
Definition replace_file (a b : path) : stm Disk unit :=
  w ← get;
  match node_at (files w) b with
  | Some Directory => raise (OSError "[Errno 21] Is a directory")
  | _ => replace a b
  end.

(** The flush of a directory that need not open. *)
Definition sync_directory : stm Disk unit :=
  f ← next_fault;
  match f with
  | Some f => if bool_decide (raised f = Killed) then raise Killed else mret tt
  | None => system_call
  end.

Definition endswith (suffix s : string) : bool :=
  (String.length suffix <=? String.length s)%nat && String.eqb (str_drop (String.length s - String.length suffix) s) suffix.

Section Directory.
Context `{TempFiles} (dir : path).

(** The directory, and what it has. *)
Definition index_path : path := dir ++ ["index.json"].
Definition record_path (key : string) : path := dir ++ Operations.parts (key +:+ ".json").

Definition put_atomically (target : path) (data : string) : stm Disk unit :=
  w ← get;
  let parent := removelast target in
  let temporary := parent ++ [temp_file (files w) parent ("." +:+ List.last target "" +:+ ".") ".tmp"] in
  f ← next_fault;
  match f with
  | Some f => _ ← (match left f with Some c => set_node temporary (File c) | None => mret tt end); raise (raised f)
  | None =>
      _ ← set_node temporary (File "");
      _ ← on_error (_ ← write_file temporary data; _ ← system_call; replace_file temporary target) (unlink_missing_ok temporary);
      sync_directory
  end.

Definition atomic_write_json (target : path) (document : json) : stm Disk unit :=
  _ ← lift (ensure (jfinite document) (ValueError ("refusing to publish invalid JSON for " +:+ String.concat "/" target)));
  _ ← iterM make_dir (above target);
  put_atomically target (dumps_indent document +:+ newline).

(** The names [glob("*.json")] gives in a directory, in order. *)
Definition json_names (t : tree) : list string :=
  py_sorted String.leb (List.filter (endswith ".json")
    (map (fun pn => List.last pn.1 "") (List.filter (fun pn => negb (bool_decide (pn.1 = [])) && bool_decide (removelast pn.1 = dir)) (map_to_list t)))).

(** [json.loads(path.read_text(...))] *)
Definition read_json (t : tree) (p : path) : res json :=
  text ← of_option (OSError ("cannot read " +:+ String.concat "/" p)) (read_text t p);
  of_option (Exn "JSONDecodeError" "Expecting value") (loads text).

(** What is read of one file of the directory, [None] where it is no record. *)
Definition record_in (t : tree) (name : string) : res (option ReleaseRecord) :=
  v ← read_json t (dir ++ [name]);
  match v with
  | JObj o =>
      if has_key o "revision" then
        r ← read_record o;
        _ ← ensure (String.eqb (slug r +:+ ".json") name) (ValueError ("release filename does not match slug: " +:+ name));
        Ok (Some r)
      else Ok None
  | _ => Ok None
  end.

Definition newer (a b : json) : bool :=
  match a, b with JStr x, JStr y => String.leb y x | _, _ => true end.

Definition is_string (v : json) : bool := match v with JStr _ => true | _ => false end.

(** [sorted(records, key=..., reverse=True)]; stamps that are not strings are
    not compared. *)
Definition newest_first (rs : list ReleaseRecord) : res (list ReleaseRecord) :=
  _ ← ensure (forallb (fun r => is_string (updated_at r)) rs) (TypeError "'<' not supported between instances");
  Ok (py_sorted (fun a b => newer (updated_at a) (updated_at b)) rs).

Definition all_records (t : tree) : res (list ReleaseRecord) :=
  if bool_decide (node_at t dir = Some Directory) then
    found ← mapR (record_in t) (List.filter (fun n => negb (String.eqb n "index.json")) (json_names t));
    newest_first (omap id found)
  else Ok [].

(** ** The index *)

Definition INDEX_FIELDS : list string :=
  ["slug"; "revision"; "release_tag"; "stage"; "manifest_hash"; "audit_passed"; "updated_at"].

Definition index_entry (r : ReleaseRecord) : res (list (string * json)) :=
  match audit r with
  | JObj a =>
      Ok [("slug", JStr (slug r)); ("revision", JStr (revision r)); ("release_tag", JStr (release_tag r)); ("stage", JStr (stage r));
          ("manifest_hash", manifest_hash r); ("audit_passed", JBool (jtruthy (get_or a "passed" JNull))); ("updated_at", updated_at r)]
  | _ => Err (AttributeError "object has no attribute 'get'")
  end.

(** The index that is there, if it can be read. *)
Definition existing_index (t : tree) : option json :=
  if is_file t index_path then match read_json t index_path with Ok v => Some v | Err _ => None end else None.

Definition rebuild_index (now : string) : stm Disk unit :=
  w ← get;
  records ← lift (all_records (files w));
  entries ← lift (mapR index_entry records);
  let releases := JArr (map JObj entries) in
  if (match existing_index (files w) with
      | Some (JObj o) => match jget o "releases" with Some v => py_eqb v releases | None => false end
      | _ => false
      end)
  then mret tt
  else atomic_write_json index_path
         (JObj [("artifact_version", JInt ARTIFACT_VERSION); ("generated_at", JStr now); ("releases", releases)]).

(** The entries of an index, by their slugs. *)
Fixpoint read_entries (seen : list (string * list (string * json))) (l : list json) : res (list (string * list (string * json))) :=
  match l with
  | [] => Ok seen
  | JObj o :: l' =>
      match jget o "slug" with
      | Some (JStr s) =>
          _ ← ensure (negb (has_key seen s)) (ValueError ("release index contains duplicate slug: " +:+ s));
          read_entries (seen ++ [(s, o)]) l'
      | _ => Err (ValueError "release index contains an invalid entry")
      end
  | _ => Err (ValueError "release index contains an invalid entry")
  end.

Definition entry_agrees (actual : list (string * list (string * json))) (e : list (string * json)) : bool :=
  match jget e "slug" with
  | Some (JStr s) =>
      match jget actual s with
      | Some a => forallb (fun f => py_eqb (get_or a f JNull) (get_or e f JNull)) INDEX_FIELDS
      | None => false
      end
  | _ => false
  end.

Definition slug_of (e : list (string * json)) : string := match jget e "slug" with Some (JStr s) => s | _ => "" end.

Definition validate_index_consistency (t : tree) : res unit :=
  if is_file t index_path then
    index ← (match read_json t index_path with Ok v => Ok v | Err _ => Err (ValueError ("invalid release index: " +:+ String.concat "/" index_path)) end);
    entries ← (match index with
               | JObj o => match jget o "releases" with
                           | Some (JArr l) => Ok l
                           | _ => Err (ValueError "release index has no releases list")
                           end
               | _ => Err (ValueError "release index has no releases list")
               end);
    records ← all_records t;
    expected ← mapR index_entry records;
    actual ← read_entries [] entries;
    _ ← ensure (bool_decide (sorted_set (map fst actual) = sorted_set (map slug_of expected)))
          (ValueError "release index does not match source records");
    _ ← mapR (fun e => ensure (entry_agrees actual e) (ValueError ("release index disagrees with source record: " +:+ slug_of e))) expected;
    Ok tt
  else Ok tt.

(** ** Saving and loading *)

Definition comparable (o : list (string * json)) : list (string * json) := jremove (jremove o "updated_at") "first_seen".

(** A record in memory, and the disk. *)
Record World : Type := mkWorld { memory : ReleaseRecord; disk : Disk }.

Definition on_record {A} (m : stm ReleaseRecord A) : stm World A := fun w =>
  let '(r, x) := m (memory w) in (r, mkWorld x (disk w)).
Definition on_disk {A} (m : stm Disk A) : stm World A := fun w =>
  let '(r, x) := m (disk w) in (r, mkWorld (memory w) x).

(** The stamps of a record that is the same on the disk. *)
Definition unchanged (t : tree) (target : path) (r : ReleaseRecord) : res (option (json * json)) :=
  if is_file t target then
    v ← read_json t target;
    match v with
    | JObj data =>
        o ← fields_of data;
        Ok (if py_eqb (JObj (comparable o)) (JObj (comparable (record_document r)))
            then Some (get_or o "first_seen" JNull, get_or o "updated_at" JNull) else None)
    | _ => Err (AttributeError "object has no attribute 'items'")
    end
  else Ok None.

(** [now], [now_index]: the two readings of the clock. *)
Definition save (now now_index : string) : stm World path :=
  _ ← on_disk (iterM make_dir (above dir ++ [dir]));
  w ← get;
  let r := memory w in
  _ ← lift (validate r);
  let target := record_path (slug r) in
  same ← lift (unchanged (files (disk w)) target r);
  match same with
  | Some (first, updated) => _ ← on_record (modify (with_stamps first updated)); mret target
  | None =>
      _ ← on_record (modify (with_stamps (if jtruthy (first_seen r) then first_seen r else JStr now) (JStr now)));
      w ← get;
      _ ← on_disk (atomic_write_json target (JObj (record_document (memory w))));
      _ ← on_disk (rebuild_index now_index);
      w ← get;
      _ ← lift (validate_index_consistency (files (disk w)));
      mret target
  end.

Definition load (t : tree) (revision release_tag : string) : res ReleaseRecord :=
  let p := record_path (release_key revision release_tag) in
  if is_file t p then
    v ← read_json t p;
    match v with JObj o => read_record o | _ => Err (AttributeError "object has no attribute 'items'") end
  else Ok (new_record revision release_tag).

(** [revision], [tag], [bigcherry]: what git says. *)
Definition record_for_checkout (t : tree) (revision tag bigcherry : string) : res ReleaseRecord :=
  r ← load t revision tag; Ok (with_identity revision tag (JStr bigcherry) r).
End Directory.

(** ** The life of a record *)

(** What takes the evidence of a record away. *)
Definition invalidates (e : event) : bool :=
  match e with
  | Advanced s => String.eqb s "broken"
  | Applied succeeded mutated => negb succeeded || mutated
  | _ => false
  end.

Lemma validate_transition_cases cur new u : validate_transition cur new = Ok u ->
  cur ∈ VALID_STAGES /\ new ∈ VALID_STAGES /\
  (cur = new \/ cur = "broken" \/ new = "broken" \/
   exists i j, index_in cur STAGE_ORDER = Some i /\ index_in new STAGE_ORDER = Some j /\ i <= j).
Proof.
  unfold validate_transition, validate_stage. intros (u1 & Hc%ensure_Ok%str_in_true & H)%bind_Ok.
  apply bind_Ok in H as (u2 & Hn%ensure_Ok%str_in_true & H). split_and!; [done|done|].
  destruct (String.eqb_spec cur new) as [->|]; [by left|]. destruct (String.eqb_spec cur "broken") as [->|]; [by right; left|].
  cbn [orb] in H. destruct (String.eqb_spec new "broken") as [->|]; [by right; right; left|].
  apply bind_Ok in H as (j & Hj%of_option_Ok & H). apply bind_Ok in H as (i & Hi%of_option_Ok & H). apply ensure_Ok, negb_true_iff, Nat.ltb_ge in H.
  right. right. right. by exists i, j.
Qed.

Ltac run_stm := unfold mbind, stm_bind, lift, get, modify, raise, mret, stm_ret; cbv beta iota zeta.

Lemma to_broken cur : cur ∈ VALID_STAGES -> validate_transition cur "broken" = Ok tt.
Proof.
  intros Hc%str_in_true. unfold validate_transition, validate_stage. rewrite Hc. cbn [ensure mbind result_bind].
  change (str_in "broken" VALID_STAGES) with true. cbn [ensure mbind result_bind]. by destruct (_ || _).
Qed.

Lemma advance_run s r :
  ((exists e, advance_to s r = (Err e, r)) /\ (s = "broken" -> ~ stage r ∈ VALID_STAGES)) \/
  (advance_to s r = (Ok tt, with_stage s r) /\ s <> "validated" /\ exists u, validate_transition (stage r) s = Ok u).
Proof.
  unfold advance_to. run_stm. destruct (String.eqb_spec s "validated") as [->|Hne]; cbn [negb ensure]; [left; split; [by eexists|done]|].
  destruct (validate_transition (stage r) s) as [u|e] eqn:Ev; [right; split_and!; [done|done|by eexists]|left]. split; [by eexists|].
  intros -> Hc%to_broken. by rewrite Hc in Ev.
Qed.

(** A record at [validated] came there by a promotion that is still its own, or was there. *)
Definition promoted_by (p : PromotionPointer) (r : ReleaseRecord) : Prop :=
  exists q, pointer_from (pointer_document p) = Ok q /\ promotion r = pointer_document q /\
    Promotion.revision q = revision r /\ Promotion.release_tag q = tag_or_revision r.

Definition rank (s : string) : nat := default 0 (index_in s STAGE_ORDER).

(** What one event may do to the stage of a record. *)
Record step_ok (e : event) (r r' : ReleaseRecord) : Prop := {
  so_revision : revision r' = revision r;
  so_tag : release_tag r' = release_tag r;
  so_validated : stage r' = "validated" ->
    (exists p, e = Promoted p /\ promoted_by p r') \/ (stage r = "validated" /\ promotion r' = promotion r /\ invalidates e = false);
  so_valid : stage r ∈ VALID_STAGES -> stage r' ∈ VALID_STAGES;
  so_forward : invalidates e = false -> stage r ∈ VALID_STAGES -> stage r <> "broken" ->
    stage r' <> "broken" /\ rank (stage r) <= rank (stage r');
}.

Lemma step_same e r : invalidates e = false \/ stage r <> "validated" -> step_ok e r r.
Proof. intros [Hi|Hi]; split; try done; intros ?; right; by split_and!. Qed.

Lemma transition_forward cur new u : validate_transition cur new = Ok u -> cur <> "broken" -> new <> "broken" -> rank cur <= rank new.
Proof.
  intros (_ & _ & [->|[->|[->|(i & j & Hi & Hj & Hle)]]])%validate_transition_cases; try done.
  intros _ _. unfold rank. by rewrite Hi, Hj.
Qed.

Lemma step_stage e s r : s <> "validated" -> (exists u, validate_transition (stage r) s = Ok u) ->
  (invalidates e = false -> s <> "broken") -> step_ok e r (with_stage s r).
Proof.
  intros Hs [u Hv] Hb. split; cbn [revision release_tag stage with_stage]; try done.
  - intros _. by destruct (validate_transition_cases _ _ _ Hv) as (_ & ? & _).
  - intros He _ Hr. split; [by apply Hb|]. by apply (transition_forward _ _ u Hv), Hb.
Qed.

Lemma validated_is_valid r : ~ stage r ∈ VALID_STAGES -> stage r <> "validated".
Proof. intros Hn Hv. apply Hn. rewrite Hv. by apply str_in_true. Qed.

Lemma step_advanced s r : step_ok (Advanced s) r (advance_to s r).2.
Proof.
  destruct (advance_run s r) as [[[x ->] Hb]|(-> & Hne & Hv)]; cbn [snd].
  - apply step_same. cbn [invalidates]. destruct (String.eqb_spec s "broken") as [Heq|]; [right|by left].
    by apply validated_is_valid, Hb.
  - apply step_stage; [done|done|]. cbn [invalidates]. by intros Hi ->.
Qed.

Lemma step_applied b m r : step_ok (Applied b m) r (record_apply_result b m r).2.
Proof.
  unfold record_apply_result. destruct b; cbn [negb].
  2:{ unfold set_promotion. set (r1 := with_evidence (manifest_hash r) JNull r).
      change ((_ ← modify (fun r => with_evidence (manifest_hash r) JNull r); advance_to "broken") r) with (advance_to "broken" r1).
      destruct (advance_run "broken" r1) as [[[x ->] Hb]|(-> & Hne & Hv)]; cbn [snd].
      - split; try done. intros Hv. exfalso. by apply (validated_is_valid r1), Hv; auto.
      - split; try done. intros _. by apply str_in_true. }
  unfold mbind at 1, stm_bind at 1, get. destruct (String.eqb_spec (stage r) "broken") as [Hb|Hb].
  { destruct (advance_run "patched" r) as [[[x ->] _]|(-> & Hne & Hv)]; cbn [snd].
    - apply step_same. right. by rewrite Hb.
    - split; try done. intros _. by apply str_in_true. }
  change (stage_index "patched") with (Ok (E:=exn) 2). destruct m.
  - unfold mbind at 1, stm_bind at 1. run_stm. destruct (stage_index (stage r)) as [i|x] eqn:Ei; cbn [snd].
    2:{ apply step_same. right. intros Hv. by rewrite Hv in Ei. }
    destruct (2 <=? i)%nat eqn:Ele; cbn [snd].
    + split; try done. intros _. by apply str_in_true.
    + destruct (Nat.ltb_spec i 2) as [Hlt|]; [|by apply Nat.leb_gt in Ele; lia].
      destruct (advance_run "patched" r) as [[[x ->] _]|(-> & Hne & Hv)]; cbn [snd].
      * apply step_same. right. intros Hv. rewrite Hv in Ei. injection Ei as <-. lia.
      * by apply step_stage.
  - run_stm. destruct (stage_index (stage r)) as [i|x] eqn:Ei; cbn [snd]; [|apply step_same; by left].
    destruct (i <? 2)%nat; [|apply step_same; by left].
    destruct (advance_run "patched" r) as [[[x ->] _]|(-> & Hne & Hv)]; cbn [snd]; [apply step_same; by left|by apply step_stage].
Qed.

Lemma step_promoted p r : step_ok (Promoted p) r (promote p r).2.
Proof.
  unfold promote, set_promotion, set_validated_via_promotion. run_stm.
  destruct (pointer_from (pointer_document p)) as [q|e] eqn:Eq; [|apply step_same; by left].
  destruct (String.eqb_spec (Promotion.revision q) (revision r)) as [Hr|]; cbn [ensure]; [|apply step_same; by left].
  destruct (String.eqb_spec (Promotion.release_tag q) (tag_or_revision r)) as [Ht|]; cbn [ensure]; [|apply step_same; by left].
  cbn [stage with_evidence]. destruct (validate_transition (stage r) "validated") as [u|e] eqn:Ev; cbn [snd].
  - split; try done.
    + intros _. left. exists p. split; [done|]. by exists q.
    + intros _. by apply str_in_true.
    + intros _ _ Hb. split; [done|]. by apply (transition_forward _ _ u Ev).
  - split; try done. cbn. intros Hv. rewrite Hv in Ev. vm_compute in Ev. discriminate Ev.
Qed.

Lemma handle_step e r : step_ok e r (handle e r).2.
Proof.
  destruct e as [s|b m|p|d]; cbn [handle]; [apply step_advanced|apply step_applied|apply step_promoted|].
  split; try done. intros Hv. right. by split_and!.
Qed.

Lemma promoted_check p r : promoted_by p r -> check_promotion r = Ok tt.
Proof.
  intros (q & Hq & Hp & Hr & Ht). unfold check_promotion. destruct (String.eqb _ _); [|done]. rewrite Hp.
  assert (pointer_from (pointer_document q) = Ok q) as ->
    by (apply (Promotion.pointer_back (g := id)); by eapply Promotion.pointer_from_sound).
  rewrite Hr, Ht, !String.eqb_refl. done.
Qed.

Lemma check_promotion_same r r' : revision r' = revision r -> release_tag r' = release_tag r -> stage r = "validated" ->
  promotion r' = promotion r -> check_promotion r = Ok tt -> check_promotion r' = Ok tt.
Proof.
  intros Hr Ht Hs Hp. unfold check_promotion, tag_or_revision. rewrite Hr, Ht, Hp, Hs. cbn [String.eqb].
  by destruct (String.eqb (stage r') "validated").
Qed.

(** C9 The life of a record.  Whatever happens to a record in memory, with
    handlers that raise half way included: it keeps the release it is of; it is
    [validated] only with a pointer that is read back and names that release,
    and that pointer is the one of the last promotion that counted, after which
    no apply failed or changed the tree and nothing declared it broken; its stage
    exists; and as long as nothing takes evidence away, it only moves forward. *)
Theorem record_life es r :
  stage r ∈ VALID_STAGES -> check_promotion r = Ok tt ->
  let r' := history r es in
  (revision r' = revision r /\ release_tag r' = release_tag r) /\ stage r' ∈ VALID_STAGES /\ check_promotion r' = Ok tt /\
  (stage r' = "validated" ->
     (stage r = "validated" /\ promotion r' = promotion r /\ forallb (fun e => negb (invalidates e)) es = true) \/
     exists before p after, es = before ++ Promoted p :: after /\ promoted_by p r' /\
       forallb (fun e => negb (invalidates e)) after = true) /\
  (forallb (fun e => negb (invalidates e)) es = true -> stage r <> "broken" ->
     stage r' <> "broken" /\ rank (stage r) <= rank (stage r')).
Proof.
  revert r. induction es as [|e es IH]; intros r Hv Hc; cbv zeta.
  { split_and!; try done. intros Hs. by left. }
  pose proof (handle_step e r) as [Hr Ht Hval Hst Hfw]. change (history r (e :: es)) with (history (handle e r).2 es).
  set (r1 := (handle e r).2) in *.
  assert (check_promotion r1 = Ok tt) as Hc1.
  { unfold check_promotion at 1. destruct (String.eqb_spec (stage r1) "validated") as [Hs|]; [|done].
    assert (check_promotion r1 = Ok tt) as Hx.
    { destruct (Hval Hs) as [(p & _ & Hp)|(Hs0 & Hp & _)]; [by apply (promoted_check p)|by apply (check_promotion_same r)]. }
    unfold check_promotion in Hx. by rewrite Hs in Hx. }
  destruct (IH r1 (Hst Hv) Hc1) as ((Hr' & Ht') & Hv' & Hc' & Hval' & Hfw'). set (r' := history r1 es) in *.
  split_and!; [by rewrite Hr', Hr|by rewrite Ht', Ht|done|done| |].
  - intros Hs. destruct (Hval' Hs) as [(Hs1 & Hp & Hno)|(before & p & after & -> & Hp & Hno)].
    + destruct (Hval Hs1) as [(p & -> & q & Hq & Hpq & Hrq & Htq)|(Hs0 & Hp0 & Hi)].
      * right. exists [], p, es. split_and!; [done| |done]. exists q. rewrite Hp. split_and!; [done|done|by rewrite Hr'|].
        unfold tag_or_revision in *. by rewrite Hr', Ht'.
      * left. cbn [forallb]. rewrite Hi, Hp, Hp0. by split_and!.
    + right. by exists (e :: before), p, after.
  - cbn [forallb]. intros [Hi%negb_true_iff Hno]%andb_prop Hb. destruct (Hfw Hi Hv Hb) as [Hb1 Hle].
    destruct (Hfw' Hno Hb1) as [Hb2 Hle2]. split; [done|lia].
Qed.

(** ** Writing *)

Lemma str_drop_prefix s t : str_drop (String.length s) (s +:+ t) = t.
Proof. by induction s as [|c s IH]. Qed.

Lemma endswith_app s suffix : endswith suffix (s +:+ suffix) = true.
Proof.
  unfold endswith. rewrite str_length_app, (proj2 (Nat.leb_le _ _)) by lia.
  replace (String.length s + String.length suffix - String.length suffix) with (String.length s) by lia.
  rewrite str_drop_prefix. cbn [andb]. apply String.eqb_refl.
Qed.

Section Writing.
Context `{TempFiles} `{!TempFilesLaws} (dir : path).

Definition temporary_for (t : tree) (target tmp : path) : Prop :=
  t !! tmp = None /\ tmp <> target /\ endswith ".tmp" (List.last tmp "") = true.

Lemma temporary_fresh t target : target <> [] -> endswith ".tmp" (List.last target "") = false ->
  temporary_for t target (removelast target ++ [temp_file t (removelast target) ("." +:+ List.last target "" +:+ ".") ".tmp"]).
Proof.
  intros Hne Hend. set (tmp := removelast target ++ [_]).
  assert (endswith ".tmp" (List.last tmp "") = true) as Ht.
  { subst tmp. rewrite last_last. destruct (temp_file_shape t (removelast target) ("." +:+ List.last target "" +:+ ".") ".tmp") as [rnd ->].
    rewrite <- str_app_assoc. apply endswith_app. }
  split_and!; [apply temp_file_fresh|intros E; rewrite E in Ht; congruence|done].
Qed.

Lemma replace_file_run a b w r w' : replace_file a b w = (r, w') ->
  (is_ok r = false /\ files w' = files w) \/
  (r = Ok tt /\ files w' = match files w !! a with Some n => <[b := n]> (delete a (files w)) | None => files w end).
Proof.
  unfold replace_file. unfold mbind at 1, stm_bind at 1, get. intros E.
  assert ((r = Err (OSError "[Errno 21] Is a directory") /\ w' = w) \/ replace a b w = (r, w')) as [[-> ->]|Hr].
  { destruct (node_at (files w) b) as [[]|]; first [by right|left; by injection E as <- <-]. }
  { by left. }
  unfold replace in Hr. unfold mbind, stm_bind in Hr. destruct (system_call w) as [[u|e] w1] eqn:Es.
  - pose proof (Artifacts.system_call_run _ _ _ Es) as Hf. injection Hr as <- <-. right. split; [done|]. rewrite Hf.
    destruct (files w !! a); [done|]. by rewrite Hf.
  - pose proof (Artifacts.system_call_run _ _ _ Es) as Hf. injection Hr as <- <-. by left.
Qed.

(** The body of a write: its file is renamed, or is still there under its name
    for the time being. *)
Lemma body_run f0 tmp target data w r w' :
  files w = <[tmp := File ""]> f0 -> f0 !! tmp = None -> tmp <> target ->
  (_ ← write_file tmp data; _ ← system_call; replace_file tmp target) w = (r, w') ->
  (is_ok r = true /\ files w' = <[target := File data]> f0) \/ (is_ok r = false /\ exists c, files w' = <[tmp := File c]> f0).
Proof.
  intros Hw Hn Hne. unfold mbind at 1, stm_bind at 1. destruct (write_file tmp data w) as [[u|e] w1] eqn:E1.
  2:{ intros [= <- <-]. right. split; [done|]. apply write_file_run in E1 as [->|(_ & _ & c & -> & _)]; rewrite Hw; [by eexists|].
      exists c. by rewrite insert_insert_eq. }
  apply write_file_ok in E1. rewrite Hw, insert_insert_eq in E1.
  unfold mbind at 1, stm_bind at 1. destruct (system_call w1) as [[u2|e] w2] eqn:E2; apply Artifacts.system_call_run in E2.
  2:{ intros [= <- <-]. right. split; [done|]. exists data. by rewrite E2. }
  intros [[Hok ->]|[-> ->]]%replace_file_run; rewrite E2, E1.
  - right. split; [done|]. by exists data.
  - left. split; [done|]. by rewrite lookup_insert_eq, delete_insert_id.
Qed.

Lemma sync_run w r w' : sync_directory w = (r, w') -> files w' = files w.
Proof.
  unfold sync_directory. unfold mbind at 1, stm_bind at 1. destruct (next_fault w) as [r1 w1] eqn:Ef.
  destruct (next_fault_run _ _ _ Ef) as ([f|] & -> & Hf).
  - by destruct (bool_decide _); intros [= <- <-].
  - intros E%Artifacts.system_call_run. by rewrite E.
Qed.

(** A write puts the whole text in place, or leaves a file of its own name. *)
Lemma put_run target data w r w' : target <> [] -> endswith ".tmp" (List.last target "") = false ->
  put_atomically target data w = (r, w') ->
  (is_ok r = false /\ files w' = files w) \/ files w' = <[target := File data]> (files w) \/
  (is_ok r = false /\ exists tmp c, temporary_for (files w) target tmp /\ files w' = <[tmp := File c]> (files w)).
Proof.
  intros Hne Hend. unfold put_atomically. unfold mbind at 1, stm_bind at 1, get. cbv zeta.
  pose proof (temporary_fresh (files w) target Hne Hend) as Hfor. set (tmp := removelast target ++ [_]) in *. clearbody tmp.
  pose proof Hfor as (Hfresh & Hother & _).
  unfold mbind at 1, stm_bind at 1. destruct (next_fault w) as [r1 w1] eqn:Ef.
  destruct (next_fault_run _ _ _ Ef) as ([f|] & -> & Hf).
  - intros Hrun. destruct (left f) as [c|]; unfold mbind, stm_bind in Hrun; injection Hrun as <- <-.
    + right. right. split; [done|]. exists tmp, c. cbn. by rewrite Hf.
    + by left.
  - unfold mbind at 1, stm_bind at 1. change (set_node tmp (File "") w1) with (Ok (E:=exn) tt, mkDisk (<[tmp := File ""]> (files w1)) (faults w1)).
    cbv beta iota. unfold mbind at 1, stm_bind at 1, on_error.
    destruct ((_ ← write_file tmp data; _ ← system_call; replace_file tmp target) _) as [rb w3] eqn:Eb.
    apply (body_run (files w)) in Eb; [|cbn; by rewrite Hf|done|done].
    destruct Eb as [[Hok Hw3]|[Hok [c Hw3]]]; (destruct rb as [u|e]; [|try done]; try done).
    + intros E%sync_run. right. left. by rewrite E.
    + destruct (bool_decide (e = Killed)); [intros [= <- <-]; right; right; split; [done|]; by exists tmp, c|].
      unfold mbind, stm_bind. destruct (unlink_missing_ok tmp w3) as [rc w4] eqn:Ec.
      assert (files w4 = files w \/ files w4 = <[tmp := File c]> (files w)) as H4.
      { apply Artifacts.unlink_missing_run in Ec as [->|[_ ->]]; [by right|left]. by rewrite Hw3, delete_insert_id. }
      destruct rc; intros [= <- <-]; (destruct H4 as [H4|H4]; [by left|right; right; split; [done|]; by exists tmp, c]).
Qed.

(** Every file is as it was, or has one of the [texts] it may get, whole; what
    else is there is a directory or a file no reader looks at. *)
Definition whole (t0 : tree) (texts : path -> string -> Prop) (t : tree) : Prop :=
  forall p, t !! p = t0 !! p \/ (exists c, texts p c /\ t !! p = Some (File c)) \/
    (t0 !! p = None /\ (t !! p = Some Directory \/ exists c, t !! p = Some (File c) /\ endswith ".tmp" (List.last p "") = true)).

Lemma whole_refl t texts : whole t texts t.
Proof. intros p. by left. Qed.

Lemma whole_insert t0 texts t p n : whole t0 texts t ->
  ((exists c, n = File c /\ texts p c) \/
   (t !! p = None /\ (n = Directory \/ exists c, n = File c /\ endswith ".tmp" (List.last p "") = true))) ->
  whole t0 texts (<[p := n]> t).
Proof.
  intros Hw Hn q. destruct (decide (q = p)) as [->|Hne]; [|by rewrite lookup_insert_ne by done]. rewrite lookup_insert_eq.
  destruct Hn as [(c & -> & Hc)|[Ht Hn]]; [right; left; by exists c|]. right. right.
  assert (t0 !! p = None) as Hn0 by (destruct (Hw p) as [E|[(c & _ & E)|(E & _)]]; congruence).
  split; [done|]. destruct Hn as [->|(c & -> & Hc)]; [by left|right; by exists c].
Qed.

Lemma whole_make_dir t0 texts p : keeps (fun w => whole t0 texts (files w)) (make_dir p).
Proof.
  intros w r w' Hw [->|[Hn ->]]%make_dir_run; [done|]. apply whole_insert; [done|]. right. split; [done|]. by left.
Qed.

Lemma whole_put t0 (texts : path -> string -> Prop) target data : target <> [] -> endswith ".tmp" (List.last target "") = false ->
  texts target data -> keeps (fun w => whole t0 texts (files w)) (put_atomically target data).
Proof.
  intros Hne Hend Ht w r w' Hw [[_ ->]|[->|(_ & tmp & c & (Hf & _ & He) & ->)]]%put_run; [done|..|done|done]; apply whole_insert; try done.
  - left. by exists data.
  - right. split; [done|]. right. by exists c.
Qed.

Definition json_text (v : json) : string := dumps_indent v +:+ newline.

Lemma whole_write t0 (texts : path -> string -> Prop) target doc : target <> [] -> endswith ".tmp" (List.last target "") = false ->
  texts target (json_text doc) -> keeps (fun w => whole t0 texts (files w)) (atomic_write_json target doc).
Proof.
  intros Hne Hend Ht. unfold atomic_write_json. apply keeps_bind; [apply keeps_lift|intros _].
  apply keeps_bind; [apply keeps_iterM; intros; apply whole_make_dir|intros _]. by apply whole_put.
Qed.

Lemma not_tmp k : endswith ".tmp" (k +:+ ".json") = false.
Proof.
  unfold endswith. rewrite str_length_app. cbn [String.length]. rewrite (proj2 (Nat.leb_le _ _)) by lia.
  replace (String.length k + 5 - 4) with (S (String.length k)) by lia.
  assert (str_drop (S (String.length k)) (k +:+ ".json") = "json") as ->; [|done].
  induction k as [|c k IH]; [done|]. exact IH.
Qed.

(** A key that is one name, and not that of the index. *)
Definition flat_key (key : string) : Prop := Operations.parts (key +:+ ".json") = [key +:+ ".json"] /\ key <> "index".

Lemma record_path_flat key : flat_key key -> record_path dir key = dir ++ [key +:+ ".json"].
Proof. intros [Hk _]. unfold record_path. by rewrite Hk. Qed.

Lemma whole_index t0 (texts : path -> string -> Prop) now : (forall doc, texts (index_path dir) (json_text doc)) ->
  keeps (fun w => whole t0 texts (files w)) (rebuild_index dir now).
Proof.
  intros Ht. unfold rebuild_index. apply keeps_bind; [apply keeps_get|intros w]. do 2 (apply keeps_bind; [apply keeps_lift|intros]).
  assert (index_path dir <> [] /\ endswith ".tmp" (List.last (index_path dir) "") = false) as [Hne Hend].
  { unfold index_path. split; [by destruct dir|]. by rewrite last_last. }
  destruct (match existing_index _ _ with Some _ => _ | None => _ end); [apply keeps_ret|by apply whole_write].
Qed.

(** C40 Saving never tears a file.  Whatever system call fails while a record is
    saved, or kills the process: the file of the record is as it was or has the
    whole text of the record with its new stamps, the index is as it was or has
    a whole text, and every other record is as it was; nothing else appears but
    directories and files whose names end with [.tmp]. *)
Theorem save_atomic now now_index r t fs x w' :
  flat_key (slug r) ->
  save dir now now_index (mkWorld r (mkDisk t fs)) = (x, w') ->
  let target := dir ++ [slug r +:+ ".json"] in
  let stamped := with_stamps (if jtruthy (first_seen r) then first_seen r else JStr now) (JStr now) r in
  whole t (fun p c => (p = target /\ c = json_text (JObj (record_document stamped))) \/ (p = index_path dir /\ exists doc, c = json_text doc))
    (files (disk w')) /\
  forall name c, t !! (dir ++ [name]) = Some (File c) -> dir ++ [name] <> target -> name <> "index.json" ->
    record_in dir (files (disk w')) name = record_in dir t name.
Proof.
  intros Hflat. cbv zeta. set (target := dir ++ [_]). set (stamped := with_stamps _ _ r). set (texts := fun p c => _ \/ _). intros Hrun.
  assert (target <> [] /\ endswith ".tmp" (List.last target "") = false) as [Hne Hend].
  { subst target. split; [by destruct dir|]. rewrite last_last. apply not_tmp. }
  enough (whole t texts (files (disk w'))) as Hw.
  { split; [done|]. intros name c Hc Hn Hi. unfold record_in, read_json, read_text.
    assert (files (disk w') !! (dir ++ [name]) = t !! (dir ++ [name])) as E.
    { destruct (Hw (dir ++ [name])) as [E|[(c' & [[Ep _]|[Ep _]] & _)|[E _]]]; [done|done| |congruence].
      exfalso. unfold index_path in Ep. apply app_inv_head in Ep. by injection Ep. }
    assert (forall t, node_at t (dir ++ [name]) = t !! (dir ++ [name])) as Hnode by (intros t'; by destruct dir). by rewrite !Hnode, E. }
  revert Hrun. unfold save. unfold mbind at 1, stm_bind at 1, on_disk at 1. cbn [disk memory].
  destruct (iterM make_dir (above dir ++ [dir]) (mkDisk t fs)) as [r1 d1] eqn:E1.
  assert (whole t texts (files d1)) as H1.
  { eapply (keeps_iterM (fun w => whole t texts (files w))); [intros; apply whole_make_dir| |exact E1]. apply whole_refl. }
  destruct r1 as [u|e]; [|by intros [= <- <-]]. unfold mbind at 1, stm_bind at 1, get at 1. cbn [memory disk].
  unfold mbind at 1, stm_bind at 1, lift at 1. destruct (validate r) as [u1|e]; [|by intros [= <- <-]].
  rewrite (record_path_flat _ Hflat). fold target.
  unfold mbind at 1, stm_bind at 1, lift at 1. destruct (unchanged _ target r) as [[[first updated]|]|e]; [by intros [= <- <-]| |by intros [= <- <-]].
  unfold mbind at 1, stm_bind at 1, on_record at 1, modify at 1. cbn [memory disk]. fold stamped.
  unfold mbind at 1, stm_bind at 1, get at 1. cbn [memory disk].
  unfold mbind at 1, stm_bind at 1, on_disk at 1. cbn [memory disk].
  destruct (atomic_write_json target _ d1) as [r2 d2] eqn:E2.
  assert (whole t texts (files d2)) as H2.
  { eapply (whole_write t texts target); [done|done| |exact H1|exact E2]. by left. }
  destruct r2 as [u2|e]; [|by intros [= <- <-]]. unfold mbind at 1, stm_bind at 1, on_disk at 1. cbn [memory disk].
  destruct (rebuild_index dir now_index d2) as [r3 d3] eqn:E3.
  assert (whole t texts (files d3)) as H3.
  { eapply (whole_index t texts); [|exact H2|exact E3]. intros doc. right. split; [done|by exists doc]. }
  destruct r3 as [u3|e]; [|by intros [= <- <-]]. unfold mbind at 1, stm_bind at 1, get at 1. cbn [memory disk].
  unfold mbind at 1, stm_bind at 1, lift at 1. by destruct (validate_index_consistency _ _); intros [= <- <-].
Qed.
End Writing.

(** ** Reading back *)

(** A record with the keys of its values in order, as a file has them. *)
Definition sorted_record (r : ReleaseRecord) : ReleaseRecord :=
  mkRecord (revision r) (release_tag r) (stage r) (sort_keys (bigcherry_revision r)) (sort_keys (artifact_version r)) (sort_keys (audit r))
    (sort_keys (patches r)) (sort_keys (manifest_hash r)) (sort_keys (tree_state r)) (sort_keys (promotion r)) (sort_keys (notes r))
    (sort_keys (runtime_assets r)) (sort_keys (evidence_gate r)) (sort_keys (first_seen r)) (sort_keys (updated_at r)).

Lemma keys_record r : NoDup (map fst (record_document r)).
Proof. apply (bool_decide_eq_true_1 (NoDup _)). vm_compute. reflexivity. Qed.

Lemma fields_of_record r :
  fields_of (sorted_members (record_document r)) = Ok (map (fun kv => (kv.1, sort_keys kv.2)) (record_document r)).
Proof.
  unfold fields_of, has_key. rewrite jget_sorted_members by apply keys_record. cbn [jget record_document String.eqb Ascii.eqb Bool.eqb fmap option_fmap option_map ensure mbind result_bind].
  unfold get_or. cbn [map new_record record_document fst snd].
  rewrite !(jget_sorted_members (record_document r)) by apply keys_record. reflexivity.
Qed.

Lemma is_dict_sorted v : is_dict (sort_keys v) = is_dict v.
Proof. by destruct v. Qed.

Lemma assets_sorted v : check_runtime_assets (sort_keys v) = check_runtime_assets v.
Proof.
  destruct v as [| | | | | |o]; try done. rewrite sort_keys_members. unfold check_runtime_assets.
  assert (forallb (fun kv => is_dict kv.2) (sorted_members o) = forallb (fun kv => is_dict kv.2) o) as ->; [|done].
  apply eq_true_iff_eq. rewrite !forallb_forall. setoid_rewrite <- list_elem_of_In. unfold sorted_members. split.
  - intros Hall kv Hkv. rewrite <- is_dict_sorted. apply (Hall (kv.1, sort_keys kv.2)).
    apply (list_elem_of_fmap_2 (fun kv => (kv.1, sort_keys kv.2)) _ kv). by rewrite py_sorted_perm.
  - intros Hall x (kv & -> & Hkv)%list_elem_of_fmap. cbn [snd]. rewrite is_dict_sorted. apply Hall. by rewrite py_sorted_perm in Hkv.
Qed.

Lemma jwf_fields r kv : jwf (JObj (record_document r)) -> kv ∈ record_document r -> jwf kv.2.
Proof. intros [_ Hf]%jwf_obj. rewrite Forall_forall in Hf. apply Hf. Qed.

Lemma check_promotion_sorted r : jwf (promotion r) -> check_promotion (sorted_record r) = check_promotion r.
Proof. intros Hp. unfold check_promotion, sorted_record. cbn [stage promotion]. by rewrite Promotion.pointer_from_sorted. Qed.

(** What [asdict] gives is read back as the record. *)
Lemma read_record_sorted r : jwf (JObj (record_document r)) -> validate r = Ok tt ->
  read_record (sorted_members (record_document r)) = Ok (sorted_record r).
Proof.
  intros Hwf Hv. unfold validate in Hv. apply bind_Ok in Hv as ([] & Hs & Hv). apply bind_Ok in Hv as ([] & He & Hv).
  apply bind_Ok in Hv as ([] & Ha & Hv). apply bind_Ok in Hv as ([] & Hr & Hp).
  unfold read_record. rewrite fields_of_record. cbn [mbind result_bind]. unfold get_or.
  cbn [map record_document fst snd jget String.eqb Ascii.eqb Bool.eqb default from_option id sort_keys].
  unfold read_stage. rewrite Hs. cbn [mbind result_bind].
  assert (check_evidence_gate (sort_keys (evidence_gate r)) = Ok tt) as -> by (unfold check_evidence_gate in *; by rewrite is_dict_sorted).
  cbn [mbind result_bind]. rewrite assets_sorted, Ha. cbn [mbind result_bind]. rewrite Hr. cbn [mbind result_bind].
  assert (jwf (promotion r)) as Hwp by (apply (jwf_fields r ("promotion", promotion r) Hwf); apply list_elem_of_In; cbn; tauto).
  pose proof (check_promotion_sorted r Hwp) as Hsp. rewrite Hp in Hsp. unfold sorted_record in *. by rewrite Hsp.
Qed.

Section Listing.
Context (dir : path).

(** A file of the directory that may be a record. *)
Definition listed (t : tree) (name : string) : Prop :=
  endswith ".json" name = true /\ name <> "index.json" /\ is_Some (t !! (dir ++ [name])).

Lemma elem_of_json_names t n : n ∈ json_names dir t <-> endswith ".json" n = true /\ is_Some (t !! (dir ++ [n])).
Proof.
  unfold json_names. rewrite elem_of_py_sorted, elem_of_filterb. split.
  - intros [([p v] & -> & Hp)%list_elem_of_fmap He]. apply elem_of_filterb in Hp as [Hp%elem_of_map_to_list Hq]. cbn [fst] in *.
    apply andb_prop in Hq as [Hne Hd%bool_decide_eq_true]. apply negb_true_iff, bool_decide_eq_false in Hne.
    split; [done|]. rewrite <- Hd, <- (app_removelast_last "" Hne). by eexists.
  - intros [He [v Hv]]. split; [|done]. apply list_elem_of_fmap. exists (dir ++ [n], v). cbn [fst]. split; [by rewrite last_last|].
    apply elem_of_filterb. split; [by apply elem_of_map_to_list|]. cbn [fst]. rewrite removelast_last, bool_decide_eq_false_2 by (by destruct dir).
    by rewrite bool_decide_eq_true_2.
Qed.

Lemma nodup_json_names t : NoDup (json_names dir t).
Proof.
  unfold json_names. apply NoDup_py_sorted. eapply sublist_NoDup; [|apply filterb_sublist].
  pose proof (NoDup_fst_map_to_list t) as Hnd. revert Hnd. generalize (map_to_list t) as l. intros l Hnd.
  induction l as [|[p v] l IH]; [constructor|]. cbn [fmap list_fmap fst] in Hnd. apply NoDup_cons in Hnd as [Hp Hnd]. cbn [List.filter fst].
  destruct (negb _ && _) eqn:E; [|by apply IH]. apply andb_prop in E as [Hne Hd%bool_decide_eq_true]. apply negb_true_iff, bool_decide_eq_false in Hne.
  cbn [map fst]. constructor; [|by apply IH]. intros ([q u] & Hlast & Hq)%list_elem_of_fmap. apply elem_of_filterb in Hq as [Hq Hc].
  cbn [fst] in *. apply andb_prop in Hc as [Hne' Hd'%bool_decide_eq_true]. apply negb_true_iff, bool_decide_eq_false in Hne'.
  apply Hp. rewrite (app_removelast_last "" Hne), Hd, Hlast, <- Hd', <- (app_removelast_last "" Hne').
  by apply (list_elem_of_fmap_2 fst) in Hq.
Qed.

Definition names (t : tree) : list string := List.filter (fun n => negb (String.eqb n "index.json")) (json_names dir t).

Lemma elem_of_names t n : n ∈ names t <-> listed t n.
Proof.
  unfold names, listed. rewrite elem_of_filterb, elem_of_json_names, negb_true_iff, String.eqb_neq. tauto.
Qed.

Lemma record_in_name t n r : record_in dir t n = Ok (Some r) -> n = slug r +:+ ".json".
Proof.
  unfold record_in. intros (v & _ & H)%bind_Ok. destruct v as [| | | | | |o]; try done. destruct (has_key o "revision"); [|done].
  apply bind_Ok in H as (r' & _ & H). apply bind_Ok in H as (u & Hs%ensure_Ok%String.eqb_eq & [= <-]). done.
Qed.

(** What the records of a directory are. *)
Definition lists (t : tree) (rs : list ReleaseRecord) : Prop :=
  NoDup (map slug rs) /\ (forall n, listed t n -> is_ok (record_in dir t n) = true) /\
  (forall x, x ∈ rs <-> exists n, listed t n /\ record_in dir t n = Ok (Some x)) /\
  (forall x, x ∈ rs -> is_string (updated_at x) = true).

Lemma all_records_lists t rs : node_at t dir = Some Directory -> all_records dir t = Ok rs -> lists t rs.
Proof.
  intros Hd. unfold all_records. rewrite bool_decide_eq_true_2 by done. fold (names t).
  intros (found & Hf%mapR_Ok & H)%bind_Ok. unfold newest_first in H. apply bind_Ok in H as (u & Hs%ensure_Ok & [= <-]).
  assert (forall x, x ∈ omap id found <-> exists n, listed t n /\ record_in dir t n = Ok (Some x)) as Hmem.
  { intros x. setoid_rewrite <- elem_of_names. rewrite list_elem_of_omap. clear Hs. induction Hf as [|n o ns os Hn _ IH].
    - split; [by intros (? & ?%elem_of_nil & _)|by intros (? & ?%elem_of_nil & _)].
    - split.
      + intros (y & [->|Hy]%elem_of_cons & Hi); [cbn in Hi; subst o; exists n; by split; [left|]|].
        destruct (proj1 IH (ex_intro _ y (conj Hy Hi))) as (m & Hm & Hr). exists m. by split; [right|].
      + intros (m & [->|Hm]%elem_of_cons & Hr); [exists o; split; [by left|]; cbn; congruence|].
        destruct (proj2 IH (ex_intro _ m (conj Hm Hr))) as (y & Hy & Hi). exists y. by split; [right|]. }
  split_and!.
  - assert (NoDup (names t)) as Hnd by (eapply sublist_NoDup; [apply nodup_json_names|apply filterb_sublist]). clear Hmem Hs.
    rewrite (py_sorted_perm (fun a b : ReleaseRecord => newer (updated_at a) (updated_at b))).
    induction Hf as [|n o ns os Hn Hf IH]; [constructor|]. apply NoDup_cons in Hnd as [Hni Hnd]. cbn [omap list_omap].
    destruct o as [r|]; cbn [id]; [|by apply IH]. cbn [map]. constructor; [|by apply IH].
    intros (r' & Hsl & Hr')%list_elem_of_fmap. apply list_elem_of_omap in Hr' as (o' & Ho' & Hi). cbn in Hi. subst o'.
    apply Hni. apply list_elem_of_lookup in Ho' as [k Hk]. destruct (Forall2_lookup_r _ _ _ _ _ Hf Hk) as (m & Hm & Hrm).
    apply record_in_name in Hn, Hrm. rewrite Hn, Hsl, <- Hrm. by eapply list_elem_of_lookup_2.
  - intros n Hn%elem_of_names. apply list_elem_of_lookup in Hn as [k Hk]. destruct (Forall2_lookup_l _ _ _ _ _ Hf Hk) as (o & _ & ->). done.
  - intros x. by rewrite elem_of_py_sorted.
  - intros x Hx. rewrite elem_of_py_sorted in Hx. rewrite forallb_forall in Hs. by apply Hs, list_elem_of_In.
Qed.

Lemma all_records_total t : node_at t dir = Some Directory ->
  (forall n, listed t n -> exists o, record_in dir t n = Ok o /\ forall x, o = Some x -> is_string (updated_at x) = true) ->
  exists rs, all_records dir t = Ok rs.
Proof.
  intros Hd Hall. unfold all_records. rewrite bool_decide_eq_true_2 by done. fold (names t).
  rewrite (mapR_all_ok (record_in dir t) (fun n => match record_in dir t n with Ok o => o | Err _ => None end)).
  2:{ intros n Hn%elem_of_names. by destruct (Hall n Hn) as (o & -> & _). }
  cbn [mbind result_bind]. unfold newest_first. assert (forallb (fun r => is_string (updated_at r))
    (omap id ((fun n => match record_in dir t n with Ok o => o | Err _ => None end) <$> names t)) = true) as ->; [|by eexists].
  apply forallb_forall. intros x Hx%list_elem_of_In. apply list_elem_of_omap in Hx as (o & Ho & Hi). cbn in Hi. subst o.
  apply list_elem_of_fmap in Ho as (n & Hx & Hn%elem_of_names). destruct (Hall n Hn) as (o & Hr & Hs). rewrite Hr in Hx. by apply Hs.
Qed.

(** *** The index *)

Lemma index_entry_Ok r e : index_entry r = Ok e ->
  NoDup (map fst e) /\ map fst e = INDEX_FIELDS /\ jget e "slug" = Some (JStr (slug r)).
Proof.
  unfold index_entry. destruct (audit r); try done. intros [= <-]. split_and!; [|done|done].
  apply (bool_decide_eq_true_1 (NoDup _)). vm_compute. reflexivity.
Qed.

Definition agrees (o e : list (string * json)) : Prop := forall k v, jget e k = Some v -> exists u, jget o k = Some u /\ py_eqb u v = true.

Lemma read_entries_Ok seen sos :
  (forall so, so ∈ sos -> jget so.2 "slug" = Some (JStr so.1)) -> NoDup (map fst (seen ++ sos)) ->
  read_entries seen (map (fun so => JObj so.2) sos) = Ok (seen ++ sos).
Proof.
  revert seen. induction sos as [|[s o] sos IH]; intros seen Hs Hnd; [cbn; by rewrite app_nil_r|]. cbn [map read_entries snd].
  pose proof (Hs (s, o) ltac:(left)) as Hfirst. cbn [fst snd] in Hfirst. rewrite Hfirst. clear Hfirst.
  assert (has_key seen s = false) as ->.
  { unfold has_key. destruct (jget seen s) as [x|] eqn:E; [|done]. exfalso. rewrite map_app in Hnd. apply NoDup_app in Hnd as (Hn & Hd & _).
    apply jget_Some in E; [|done]. apply (Hd s); [by apply (list_elem_of_fmap_2 fst) in E|by left]. }
  cbn [negb ensure mbind result_bind]. rewrite IH; [by rewrite <- app_assoc|intros so Hso; apply Hs; by right|by rewrite <- app_assoc].
Qed.

(** An index whose entries are equal to those of the records passes the check. *)
Lemma index_good t rs rs' es o v :
  is_file t (index_path dir) = true -> read_json t (index_path dir) = Ok (JObj o) -> unique (JObj o) ->
  jget o "releases" = Some v -> py_eqb v (JArr (map JObj es)) = true -> mapR index_entry rs = Ok es ->
  all_records dir t = Ok rs' -> NoDup (map slug rs) -> (forall x, x ∈ rs' <-> x ∈ rs) ->
  validate_index_consistency dir t = Ok tt.
Proof.
  intros Hfile Hread Huniq Hv Heq Hes Hall Hnd Hsame. apply mapR_Ok in Hes. apply py_eqb_arr in Heq as (l & -> & Hl).
  assert (Forall unique l) as Hul.
  { apply unique_obj in Huniq as [Hndo Hu]. apply jget_Some in Hv; [|done]. rewrite Forall_forall in Hu. by apply Hu, unique_arr in Hv. }
  assert (exists sos, l = map (fun so => JObj so.2) sos /\ map fst sos = map slug rs /\
    forall so, so ∈ sos -> jget so.2 "slug" = Some (JStr so.1) /\ forall r e, r ∈ rs -> slug r = so.1 -> index_entry r = Ok e -> agrees so.2 e)
    as (sos & -> & Hslugs & Hsos).
  { clear Hfile Hread Huniq Hv Hall Hsame. revert l Hl Hul. induction Hes as [|r e rs es He Hes IH]; intros l Hl Hul.
    - inversion Hl; subst. exists []. split_and!; [done|done|]. by intros so ?%elem_of_nil.
    - cbn [map] in Hl. inversion Hl as [|x ? l' ? Hx Hl']; subst. apply Forall_cons in Hul as [Hux Hul].
      cbn [map] in Hnd. apply NoDup_cons in Hnd as [Hni Hnd].
      destruct (IH Hnd l' Hl' Hul) as (sos & -> & Hsl & Hsos).
      destruct x as [| | | | | |ox]; try done. apply unique_obj in Hux as [Hndx _].
      destruct (index_entry_Ok _ _ He) as (Hnde & _ & Hslug). apply py_eqb_obj in Hx as [_ Hx]; [|done|done].
      exists ((slug r, ox) :: sos). cbn [map fst snd]. split_and!; [done|by rewrite Hsl|].
      intros so [->|Hso]%elem_of_cons.
      + cbn [fst snd]. destruct (Hx _ _ Hslug) as (u & Hu & Hue). apply py_eqb_str in Hue as ->. split; [done|].
        intros r' e' [->|Hr']%elem_of_cons Hs He'; [rewrite He in He'; by injection He' as <-|].
        exfalso. apply Hni. rewrite <- Hs. by apply (list_elem_of_fmap_2 slug).
      + destruct (Hsos so Hso) as [Hj Ha]. split; [done|]. intros r' e' [->|Hr']%elem_of_cons Hs He'; [|by apply (Ha r')].
        exfalso. apply Hni. rewrite Hs, <- Hsl. by apply (list_elem_of_fmap_2 fst). }
  unfold validate_index_consistency. rewrite Hfile, Hread. cbn [mbind result_bind]. rewrite Hv, Hall.
  cbn [mbind result_bind].
  destruct (mapR index_entry rs') as [es'|] eqn:Hes'.
  2:{ exfalso. assert (forall r, r ∈ rs' -> is_ok (index_entry r) = true) as Hok.
      { intros r Hr%Hsame. apply list_elem_of_lookup in Hr as [k Hk]. by destruct (Forall2_lookup_l _ _ _ _ _ Hes Hk) as (e' & _ & ->). }
      clear -Hes' Hok. induction rs' as [|r rs' IH]; [done|]. cbn [mapR] in Hes'. pose proof (Hok r ltac:(left)) as Hr.
      destruct (index_entry r); [|done]. cbn [mbind result_bind] in Hes'. destruct (mapR index_entry rs') as [bs|e0]; [done|].
      cbn [mbind result_bind] in Hes'. apply IH; [exact Hes'|]. intros r' Hr'. apply Hok. by right. }
  cbn [mbind result_bind]. apply mapR_Ok in Hes'.
  rewrite (read_entries_Ok [] sos); [|intros so Hso; by apply Hsos|cbn [app]; by rewrite Hslugs].
  cbn [app mbind result_bind].
  assert (forall x, x ∈ map slug_of es' <-> x ∈ map slug rs') as Hse.
  { intros x. assert (map slug_of es' = map slug rs') as ->; [|done]. clear -Hes'. induction Hes' as [|r e rs es He _ IH]; [done|].
    cbn [map]. rewrite IH. f_equal. unfold slug_of. by destruct (index_entry_Ok _ _ He) as (_ & _ & ->). }
  assert (sorted_set (map fst sos) = sorted_set (map slug_of es')) as ->.
  { apply sorted_set_ext. intros x. rewrite Hslugs, Hse, !list_elem_of_fmap. by setoid_rewrite Hsame. }
  rewrite bool_decide_eq_true_2 by done. cbn [ensure mbind result_bind].
  assert (forall e, e ∈ es' -> entry_agrees sos e = true) as Hagree.
  { intros e Hin. apply list_elem_of_lookup in Hin as [k Hk]. destruct (Forall2_lookup_r _ _ _ _ _ Hes' Hk) as (r & Hr & He).
    apply list_elem_of_lookup_2, Hsame in Hr. destruct (index_entry_Ok _ _ He) as (_ & Hkeys & Hsl).
    assert (slug r ∈ map fst sos) as ([s0 o0] & Hs0 & Hso)%list_elem_of_fmap by (rewrite Hslugs; by apply (list_elem_of_fmap_2 slug)).
    cbn [fst] in Hs0. unfold entry_agrees. rewrite Hsl. rewrite (proj2 (jget_Some sos (slug r) o0 ltac:(by rewrite Hslugs))) by (by rewrite Hs0).
    destruct (Hsos _ Hso) as [_ Ha]. specialize (Ha r e Hr Hs0 He). cbn [snd] in Ha.
    apply forallb_forall. intros f Hf. rewrite <- Hkeys in Hf. apply list_elem_of_In, list_elem_of_fmap in Hf as ([f' v'] & -> & Hf).
    cbn [fst]. apply jget_Some in Hf; [|by destruct (index_entry_Ok _ _ He) as (? & _)]. destruct (Ha _ _ Hf) as (u & Hu & Hue).
    unfold get_or. by rewrite Hu, Hf. }
  rewrite (mapR_all_ok _ (fun _ => tt)); [done|]. intros e He. by rewrite (Hagree e He).
Qed.
End Listing.

(** *** Without faults *)

Lemma make_dirs_there l t : Forall (fun q => node_at t q = Some Directory) l -> iterM make_dir l (mkDisk t []) = (Ok tt, mkDisk t []).
Proof.
  induction 1 as [|q l Hq _ IH]; [done|]. cbn [iterM]. unfold mbind, stm_bind. unfold make_dir at 1.
  unfold mbind, stm_bind, get. cbn [files]. rewrite Hq. exact IH.
Qed.

Lemma above_snoc p x : above (p ++ [x]) = match p with [] => [] | _ => above p ++ [p] end.
Proof.
  induction p as [|c p IH]; [done|]. destruct p as [|d p]; [done|].
  change (above ((c :: d :: p) ++ [x])) with ([c] :: map (cons c) (above ((d :: p) ++ [x]))). rewrite IH.
  change (above (c :: d :: p)) with ([c] :: map (cons c) (above (d :: p))). by rewrite map_app.
Qed.

Section Saved.
Context `{TempFiles} `{!TempFilesLaws} (dir : path).

Lemma node_at_file t x : node_at t (dir ++ [x]) = t !! (dir ++ [x]).
Proof. by destruct dir. Qed.

(** A run in which nothing fails. *)
Definition quiet {A} (m : stm Disk A) (t : tree) (a : A) (t' : tree) : Prop := m (mkDisk t []) = (Ok a, mkDisk t' []).

Lemma quiet_bind {A B} (m : stm Disk A) (f : A -> stm Disk B) t a t' b t'' :
  quiet m t a t' -> quiet (f a) t' b t'' -> quiet (m ≫= f) t b t''.
Proof. unfold quiet, mbind, stm_bind. by intros ->. Qed.

Lemma quiet_write p data t c : t !! p = Some (File c) -> p <> [] -> quiet (write_file p data) t tt (<[p := File data]> t).
Proof.
  intros Hp Hne. unfold quiet, write_file. unfold mbind at 1, stm_bind at 1, get. cbn [files].
  assert (node_at t p = t !! p) as -> by (by destruct p). by rewrite Hp.
Qed.

Lemma quiet_system_call t : quiet system_call t tt t.
Proof. done. Qed.

Lemma quiet_replace a b t c : t !! a = Some (File c) -> node_at t b <> Some Directory ->
  quiet (replace_file a b) t tt (<[b := File c]> (delete a t)).
Proof.
  intros Ha Hb. unfold quiet, replace_file. unfold mbind at 1, stm_bind at 1, get. cbn [files].
  assert (replace a b (mkDisk t []) = (Ok tt, mkDisk (<[b := File c]> (delete a t)) [])) as Hr.
  { change (replace a b (mkDisk t [])) with
      (Ok (E:=exn) tt, match t !! a with Some n => mkDisk (<[b := n]> (delete a t)) [] | None => mkDisk t [] end). by rewrite Ha. }
  by destruct (node_at t b) as [[]|].
Qed.

Lemma put_ok target data t : target <> [] -> endswith ".tmp" (List.last target "") = false -> node_at t target <> Some Directory ->
  quiet (put_atomically target data) t tt (<[target := File data]> t).
Proof.
  intros Hne Hend Hdir. unfold quiet, put_atomically. unfold mbind at 1, stm_bind at 1, get. cbv zeta. cbn [files].
  pose proof (temporary_fresh t target Hne Hend) as Hfor. set (tmp := removelast target ++ [_]) in *.
  assert (tmp <> []) as Htmp by (subst tmp; by destruct (removelast target)). clearbody tmp.
  destruct Hfor as (Hfresh & Hother & _).
  change (quiet (f ← next_fault; match f with
    | Some f => _ ← (match left f with Some c => set_node tmp (File c) | None => mret tt end); raise (raised f)
    | None => _ ← set_node tmp (File "");
        _ ← on_error (_ ← write_file tmp data; _ ← system_call; replace_file tmp target) (unlink_missing_ok tmp); sync_directory
    end) t tt (<[target := File data]> t)).
  eapply (quiet_bind _ _ t None t); [done|]. eapply (quiet_bind _ _ t tt (<[tmp := File ""]> t)); [done|].
  eapply (quiet_bind _ _ _ tt (<[target := File data]> t)); [|done].
  assert (quiet (_ ← write_file tmp data; _ ← system_call; replace_file tmp target) (<[tmp := File ""]> t) tt (<[target := File data]> t)) as Hbody.
  { eapply quiet_bind; [apply (quiet_write _ _ _ ""); [by rewrite lookup_insert_eq|done]|].
    eapply quiet_bind; [apply quiet_system_call|]. rewrite insert_insert_eq.
    pose proof (quiet_replace tmp target (<[tmp := File data]> t) data) as Hr. rewrite delete_insert_id in Hr by done.
    apply Hr; [by rewrite lookup_insert_eq|]. assert (forall u : tree, node_at u target = u !! target) as Hn by (intros u; by destruct target).
    rewrite Hn in *. by rewrite lookup_insert_ne. }
  unfold quiet in *. unfold on_error. by rewrite Hbody.
Qed.

Lemma write_ok x doc t : node_at t dir = Some Directory -> Forall (fun q => node_at t q = Some Directory) (above dir) ->
  endswith ".tmp" x = false -> t !! (dir ++ [x]) <> Some Directory -> jfinite doc = true ->
  atomic_write_json (dir ++ [x]) doc (mkDisk t []) = (Ok tt, mkDisk (<[dir ++ [x] := File (json_text doc)]> t) []).
Proof.
  intros Hd Habove Hend Hdir Hfin. unfold atomic_write_json. rewrite Hfin. cbn [ensure]. unfold mbind at 1, stm_bind at 1, lift.
  unfold mbind at 1, stm_bind at 1. rewrite make_dirs_there.
  - apply put_ok; [by destruct dir|by rewrite last_last|by rewrite node_at_file].
  - rewrite above_snoc. destruct dir as [|c p] eqn:E; [constructor|]. rewrite <- E in *. apply Forall_app. split; [done|by repeat constructor].
Qed.

Lemma read_written x doc t : jwf doc -> read_json (<[dir ++ [x] := File (json_text doc)]> t) (dir ++ [x]) = Ok (sort_keys doc).
Proof.
  intros Hwf. unfold read_json, read_text. rewrite node_at_file, lookup_insert_eq. cbn [of_option mbind result_bind].
  unfold json_text. by rewrite Artifacts.loads_written.
Qed.

Lemma read_other p q n t : p <> q -> read_json (<[p := n]> t) q = read_json t q.
Proof.
  intros Hne. unfold read_json, read_text, node_at. destruct q; [done|]. by rewrite lookup_insert_ne.
Qed.

Lemma record_in_other x y n t : x <> y -> record_in dir (<[dir ++ [x] := n]> t) y = record_in dir t y.
Proof.
  intros Hne. unfold record_in. rewrite read_other; [done|]. intros E. apply app_inv_head in E. by injection E.
Qed.

Lemma listed_insert x n t y : listed dir (<[dir ++ [x] := n]> t) y <-> listed dir t y \/ (y = x /\ endswith ".json" x = true /\ x <> "index.json").
Proof.
  unfold listed. destruct (decide (y = x)) as [->|Hne].
  - rewrite lookup_insert_eq. split; [intros (? & ? & _); right; done|]. intros [(? & ? & _)|(_ & ? & ?)]; by split_and!.
  - rewrite lookup_insert_ne by (intros E; apply app_inv_head in E; congruence). naive_solver.
Qed.

Lemma json_name_inj a b : a +:+ ".json" = b +:+ ".json" -> a = b.
Proof.
  intros Hab. apply (f_equal (fun x => str_take (String.length x - 5) x)) in Hab. rewrite !str_length_app in Hab. cbn [String.length] in Hab.
  rewrite !Nat.add_sub in Hab. assert (forall s u, str_take (String.length s) (s +:+ u) = s) as Ht; [|by rewrite !Ht in Hab].
  intros s u. induction s as [|c s IH]; [by destruct u|]. rewrite str_app_cons. cbn. by rewrite IH.
Qed.

Lemma endswith_json k : endswith ".json" (k +:+ ".json") = true.
Proof. apply endswith_app. Qed.

Lemma jwf_stamped first updated r : jwf (JObj (record_document r)) -> jwf first -> jwf updated ->
  jwf (JObj (record_document (with_stamps first updated r))).
Proof.
  intros [_ Hf]%jwf_obj H1 H2. apply jwf_obj. split; [apply keys_record|]. unfold record_document in *. cbn.
  rewrite !Forall_cons in *. cbn [snd] in *. naive_solver.
Qed.

Lemma unique_of_jwf v : jwf v -> unique v.
Proof.
  induction v as [| | | | |l IH|o IH] using json_ind'; intros Hv; try done.
  - apply jwf_arr in Hv. apply unique_arr. rewrite Forall_forall in *. auto.
  - apply jwf_obj in Hv as [Hnd Hv]. apply unique_obj. split; [done|]. rewrite Forall_forall in *. auto.
Qed.

(** A directory of records, and a record that may be put there.  The values of a
    record are JSON without floats. *)
Record ready (t : tree) (rs : list ReleaseRecord) (r : ReleaseRecord) : Prop := {
  rd_dir : Forall (fun q => node_at t q = Some Directory) (above dir ++ [dir]);
  rd_records : all_records dir t = Ok rs;
  rd_indexed : Forall (fun x => is_dict (audit x) = true /\ jwf (manifest_hash x)) rs;
  rd_key : flat_key (slug r);
  rd_valid : validate r = Ok tt;
  rd_json : jwf (JObj (record_document r));
  rd_audit : is_dict (audit r) = true;
  rd_changed : unchanged t (dir ++ [slug r +:+ ".json"]) r = Ok None;
  rd_target : t !! (dir ++ [slug r +:+ ".json"]) <> Some Directory;
  rd_index : t !! index_path dir = None \/ exists c, t !! index_path dir = Some (File c);
}.

Section Ready.
Context (t : tree) (rs : list ReleaseRecord) (r : ReleaseRecord) (now now_index : string) (Hr : ready t rs r).
Let stamped := with_stamps (if jtruthy (first_seen r) then first_seen r else JStr now) (JStr now) r.
Let name := slug r +:+ ".json".
Let t1 := <[dir ++ [name] := File (json_text (JObj (record_document stamped)))]> t.

Lemma dir_there : node_at t dir = Some Directory.
Proof. pose proof (rd_dir _ _ _ Hr) as H1. apply Forall_app in H1 as [_ H1]. by inversion H1. Qed.

Lemma dir_kept x n u : node_at u dir = Some Directory -> node_at (<[dir ++ [x] := n]> u) dir = Some Directory.
Proof.
  intros Hd. destruct dir as [|c p] eqn:E; [done|]. cbn [node_at] in *. rewrite lookup_insert_ne; [done|].
  intros El. apply (f_equal length) in El. rewrite length_app in El. cbn in El. lia.
Qed.

Lemma stamped_json : jwf (JObj (record_document stamped)).
Proof.
  apply jwf_stamped; [apply Hr| |done]. destruct (jtruthy (first_seen r)); [|done].
  apply (jwf_fields r ("first_seen", first_seen r) (rd_json _ _ _ Hr)). apply list_elem_of_In. cbn. tauto.
Qed.

Lemma name_other : name <> "index.json".
Proof.
  intros E. apply (proj2 (rd_key _ _ _ Hr)). unfold name in E. change "index.json" with ("index" +:+ ".json") in E.
  by apply json_name_inj.
Qed.

Lemma stamped_in : record_in dir t1 name = Ok (Some (sorted_record stamped)).
Proof.
  unfold record_in, t1. rewrite read_written by apply stamped_json. cbn [mbind result_bind]. rewrite sort_keys_members.
  assert (has_key (sorted_members (record_document stamped)) "revision" = true) as ->.
  { unfold has_key. by rewrite jget_sorted_members by apply keys_record. }
  rewrite read_record_sorted; [|apply stamped_json|exact (rd_valid _ _ _ Hr)]. cbn [mbind result_bind].
  change (slug (sorted_record stamped)) with (slug r). fold name. by rewrite String.eqb_refl.
Qed.

Lemma listed_t1 n : listed dir t1 n <-> listed dir t n \/ n = name.
Proof.
  unfold t1. rewrite listed_insert. pose proof (endswith_json (slug r)) as He. fold name in He. pose proof name_other. naive_solver.
Qed.

(** What a tree with the new record, and whatever index, has. *)
Lemma records_then u : node_at u dir = Some Directory -> (forall n, listed dir u n <-> listed dir t1 n) ->
  (forall n, n <> "index.json" -> record_in dir u n = record_in dir t1 n) ->
  exists rs', all_records dir u = Ok rs' /\ lists dir u rs' /\
    (forall x, x ∈ rs' <-> x = sorted_record stamped \/ (x ∈ rs /\ slug x <> slug r)).
Proof.
  intros Hd Hl Hin. pose proof (all_records_lists dir t rs dir_there (rd_records _ _ _ Hr)) as (Hnd & Hok & Hmem & Hstr).
  assert (forall n, n <> name -> record_in dir t1 n = record_in dir t n) as Hother by (intros n Hn; by apply record_in_other).
  assert (exists rs', all_records dir u = Ok rs') as [rs' Hall].
  { apply all_records_total; [done|]. intros n Hn. pose proof Hn as (_ & Hni & _). apply Hl, listed_t1 in Hn.
    rewrite (Hin n Hni). destruct (decide (n = name)) as [->|Hne].
    - rewrite stamped_in. eexists. split; [done|]. by intros x [= <-].
    - destruct Hn as [Hn|]; [|done]. rewrite (Hother n Hne). specialize (Hok n Hn). destruct (record_in dir t n) as [o|] eqn:E; [|done].
      exists o. split; [done|]. intros x ->. apply Hstr, Hmem. by exists n. }
  exists rs'. split; [done|]. pose proof (all_records_lists dir u rs' Hd Hall) as HL. split; [done|].
  destruct HL as (_ & _ & Hmem' & _). intros x. rewrite Hmem'. split.
  - intros (n & Hn & Hx). pose proof Hn as (_ & Hni & _). apply Hl, listed_t1 in Hn. rewrite (Hin n Hni) in Hx.
    destruct (decide (n = name)) as [->|Hne]; [rewrite stamped_in in Hx; injection Hx as <-; by left|]. right.
    destruct Hn as [Hn|]; [|done]. rewrite (Hother n Hne) in Hx. split; [apply Hmem; by exists n|].
    intros Hs. apply Hne. rewrite (record_in_name _ _ _ _ Hx), Hs. done.
  - intros [->|[Hx Hs]].
    + exists name. rewrite Hl, listed_t1, (Hin name name_other). split; [by right|apply stamped_in].
    + apply Hmem in Hx as (n & Hn & Hx). pose proof Hn as (_ & Hni & _). exists n. rewrite Hl, listed_t1, (Hin n Hni). split; [by left|].
      rewrite Hother; [done|]. intros ->. apply Hs. pose proof (record_in_name _ _ _ _ Hx) as E. unfold name in E.
      symmetry. by apply json_name_inj.
Qed.

Lemma index_name x : x <> "index.json" -> dir ++ [x] <> index_path dir.
Proof. unfold index_path. intros Hx E. apply app_inv_head in E. by injection E. Qed.

(** What a record of the new directory gives to the index. *)
Lemma entry_there (rs' : list ReleaseRecord) x : (forall x, x ∈ rs' <-> x = sorted_record stamped \/ (x ∈ rs /\ slug x <> slug r)) -> x ∈ rs' ->
  is_string (updated_at x) = true -> exists e, index_entry x = Ok e /\ jwf (JObj e).
Proof.
  intros Hmem Hx Hs. assert (is_dict (audit x) = true /\ jwf (manifest_hash x)) as [Ha Hm].
  { apply Hmem in Hx as [->|[Hx _]].
    - cbn. rewrite is_dict_sorted. split; [apply Hr|]. apply jwf_sort_keys.
      apply (jwf_fields r ("manifest_hash", manifest_hash r) (rd_json _ _ _ Hr)). apply list_elem_of_In. cbn. tauto.
    - pose proof (rd_indexed _ _ _ Hr) as Hi. rewrite Forall_forall in Hi. by apply Hi. }
  unfold index_entry. destruct (audit x); try done. eexists. split; [done|]. apply jwf_obj. split.
  - apply (bool_decide_eq_true_1 (NoDup _)). vm_compute. reflexivity.
  - repeat constructor; cbn [snd]; try done. by destruct (updated_at x).
Qed.

Lemma index_rebuilt :
  exists u rs', quiet (rebuild_index dir now_index) t1 tt u /\ (forall p, p <> index_path dir -> u !! p = t1 !! p) /\
    all_records dir u = Ok rs' /\ (forall x, x ∈ rs' <-> x = sorted_record stamped \/ (x ∈ rs /\ slug x <> slug r)) /\
    validate_index_consistency dir u = Ok tt.
Proof.
  assert (node_at t1 dir = Some Directory) as Hd1 by (apply dir_kept, dir_there).
  destruct (records_then t1 Hd1 ltac:(done) ltac:(done)) as (rs1 & Hall1 & (Hnd & _ & _ & Hstr) & Hmem1).
  assert (exists es, mapR index_entry rs1 = Ok es /\ Forall (fun e => jwf (JObj e)) es) as (es & Hes & Hjes).
  { clear Hall1 Hnd. assert (forall x, x ∈ rs1 -> exists e, index_entry x = Ok e /\ jwf (JObj e)) as Hx by (intros x Hx; apply (entry_there rs1); auto).
    clear -Hx. induction rs1 as [|x l IH]; [by exists []|]. destruct (Hx x ltac:(left)) as (e & He & Hj).
    destruct IH as (es & Hes & Hjs); [intros y Hy; apply Hx; by right|]. exists (e :: es). cbn [mapR]. rewrite He. cbn [mbind result_bind].
    rewrite Hes. by split; [|constructor]. }
  set (releases := JArr (map JObj es)).
  assert (jwf releases) as Hjr by (apply jwf_arr; rewrite Forall_map; done).
  assert (quiet (rebuild_index dir now_index) t1 = quiet
    (if (match existing_index dir t1 with Some (JObj o) => match jget o "releases" with Some v => py_eqb v releases | None => false end | _ => false end)
     then mret tt
     else atomic_write_json (index_path dir)
       (JObj [("artifact_version", JInt ARTIFACT_VERSION); ("generated_at", JStr now_index); ("releases", releases)])) t1) as ->.
  { unfold quiet, rebuild_index. unfold mbind at 1, stm_bind at 1, get. cbn [files]. unfold mbind at 1, stm_bind at 1, lift at 1. rewrite Hall1.
    unfold mbind at 1, stm_bind at 1, lift at 1. by rewrite Hes. }
  destruct (match existing_index dir t1 with Some _ => _ | None => _ end) eqn:Eold.
  - exists t1, rs1. split_and!; [done|done|done|done|].
    destruct (existing_index dir t1) as [[| | | | | |o]|] eqn:Ex; try done. destruct (jget o "releases") as [v|] eqn:Ev; [|done].
    unfold existing_index in Ex. destruct (is_file t1 (index_path dir)) eqn:Ef; [|done].
    destruct (read_json t1 (index_path dir)) as [w|] eqn:Er; [|done]. injection Ex as ->.
    eapply index_good; [done|exact Er| |exact Ev|exact Eold|exact Hes|exact Hall1|done|done].
    unfold read_json in Er. apply bind_Ok in Er as (text & _ & Hl%of_option_Ok). by eapply loads_unique.
  - set (idoc := JObj _). assert (jwf idoc) as Hji.
    { apply jwf_obj. split; [apply (bool_decide_eq_true_1 (NoDup _)); vm_compute; reflexivity|]. by repeat constructor. }
    pose proof (rd_dir _ _ _ Hr) as Hdirs. apply Forall_app in Hdirs as [Habove _].
    assert (t1 !! index_path dir <> Some Directory) as Hni.
    { unfold t1. rewrite lookup_insert_ne by (by apply index_name, name_other). by destruct (rd_index _ _ _ Hr) as [->|[c ->]]. }
    set (u := <[index_path dir := File (json_text idoc)]> t1).
    assert (node_at u dir = Some Directory) as Hdu by (by apply dir_kept).
    assert (forall n, n <> "index.json" -> record_in dir u n = record_in dir t1 n) as Hru by (intros n Hn; by apply record_in_other).
    destruct (records_then u Hdu) as (rs2 & Hall2 & (_ & _ & _ & _) & Hmem2); [|done|].
    { intros n. unfold u, index_path. rewrite listed_insert. split; [intros [?|(_ & _ & ?)]; done|by left]. }
    exists u, rs2. split_and!; [|intros p Hp; by apply lookup_insert_ne|done|done|].
    + apply write_ok; [done| |done|exact Hni|by apply jwf_finite].
      clear -Habove Hr t1. apply Forall_forall. intros q Hq. rewrite Forall_forall in Habove. specialize (Habove q Hq).
      destruct q as [|c q]; [done|]. cbn [node_at] in *. unfold t1. rewrite lookup_insert_ne; [done|]. intros E. 
      apply above_length in Hq. rewrite <- E, length_app in Hq. cbn in Hq. lia.
    + pose proof (read_written "index.json" idoc t1 Hji) as Hread. fold (index_path dir) in Hread. fold u in Hread.
      unfold idoc in Hread. rewrite sort_keys_members in Hread.
      eapply (index_good dir u rs1 rs2 es); [|exact Hread| | | |exact Hes|exact Hall2|done|].
      * unfold is_file, u, index_path. by rewrite node_at_file, lookup_insert_eq.
      * rewrite <- sort_keys_members. by apply unique_of_jwf, jwf_sort_keys.
      * rewrite jget_sorted_members by (apply (bool_decide_eq_true_1 (NoDup _)); vm_compute; reflexivity). reflexivity.
      * by apply py_eqb_sort.
      * intros x. by rewrite Hmem2, Hmem1.
Qed.
End Ready.

End Saved.

(** ** The properties are not empty *)

#[local] Instance long_files : TempFiles :=
  { temp_file := fun t dir prefix suffix => prefix +:+ Artifacts.xs (S (Artifacts.longest t)) +:+ suffix }.

#[local] Instance long_files_laws : TempFilesLaws.
Proof.
  split; [|by intros; eexists]. intros t dir prefix suffix. cbn. destruct (t !! _) as [n|] eqn:E; [|done]. exfalso.
  apply elem_of_map_to_list in E.
  pose proof (proj1 (list_max_le (map (fun pn => String.length (List.last pn.1 "")) (map_to_list t)) (Artifacts.longest t)) (le_n _)) as Hmax.
  rewrite Forall_map, Forall_forall in Hmax. specialize (Hmax _ E). cbn [fst] in Hmax.
  rewrite last_last, !str_length_app in Hmax. cbn [Artifacts.xs String.length] in Hmax. rewrite ?str_length_app in Hmax.
  cbn [String.length] in Hmax. rewrite ?Artifacts.xs_length in Hmax. lia.
Qed.

Definition demo_pointer (rev tag : string) : PromotionPointer :=
  Promotion.mkPointer 2 tag rev "campaign" "run1" "report" "slice" "build" "binary" ["gfx1100"] "bundle" "" "".

Definition demo_details (manifest : string) : Details :=
  mkDetails (JObj [("passed", JBool true)]) (JObj []) (JStr manifest) (JStr "") (JStr "") (JObj []) (JObj []).

(** A release that is promoted, then patched again. *)
Definition demo_events : list event :=
  [Advanced "audited"; Applied true true; Edited (demo_details "m1"); Advanced "tested"; Advanced "built";
   Promoted (demo_pointer "abc" "b5000"); Advanced "validated"; Applied true false].

Example demo_life :
  map (fun n => (stage (history (new_record "abc" "b5000") (take n demo_events)))) [2; 5; 6; 8] =
    ["patched"; "tested"; "validated"; "validated"] /\
  stage (history (new_record "abc" "b5000") (demo_events ++ [Applied true true])) = "patched" /\
  stage (history (new_record "abc" "b5000") [Promoted (demo_pointer "other" "b5000")]) = "pulled".
Proof. vm_compute. by split_and!. Qed.

Lemma record_life_witness :
  stage (history (new_record "abc" "b5000") demo_events) = "validated" /\
  check_promotion (history (new_record "abc" "b5000") demo_events) = Ok tt.
Proof.
  destruct (record_life demo_events (new_record "abc" "b5000")) as (_ & _ & Hc & _); [by apply str_in_true|reflexivity|].
  split; [vm_compute; reflexivity|exact Hc].
Defined.

(** A failed apply forgets the promotion and keeps the hash of the manifest: the
    next apply that changes the tree leaves the record [patched] with it. *)
Example stale_manifest :
  let r := history (new_record "abc" "b5000") (demo_events ++ [Applied false false; Applied true true]) in
  stage r = "patched" /\ manifest_hash r = JStr "m1".
Proof. vm_compute. by split. Qed.

(** *** On the disk *)

Definition demo_dir : path := ["releases"].
Definition demo_old : ReleaseRecord := with_stamps (JStr "t0") (JStr "t0") (with_details (demo_details "") (new_record "aaa" "b4999")).
Definition demo_new : ReleaseRecord := with_details (demo_details "m1") (new_record "abc" "b5000").

(** A directory with the older release, and the newer one saved there. *)
Definition demo_tree : tree :=
  files (disk (save demo_dir "t0" "t0" (mkWorld demo_old (mkDisk (<[demo_dir := Directory]> ∅) []))).2).

Definition demo_rs : list ReleaseRecord := match all_records demo_dir demo_tree with Ok rs => rs | Err _ => [] end.

Lemma demo_ready : ready demo_dir demo_tree demo_rs demo_new.
Proof.
  split; try (vm_compute; reflexivity).
  - by repeat constructor.
  - assert (forallb (fun x => is_dict (audit x) && match manifest_hash x with JStr _ => true | _ => false end) demo_rs = true) as H
      by (vm_compute; reflexivity).
    apply Forall_forall. intros x Hx. rewrite forallb_forall in H. specialize (H x (proj1 (list_elem_of_In _ _) Hx)).
    apply andb_prop in H as [Ha Hm]. split; [done|]. by destruct (manifest_hash x).
  - split; [vm_compute; reflexivity|done].
  - apply jwf_obj. split; [apply keys_record|]. repeat (apply Forall_cons; split); cbn; try done; repeat constructor; set_solver.
  - vm_compute. discriminate.
  - right. assert (match demo_tree !! index_path demo_dir with Some (File _) => true | _ => false end = true) as H by (vm_compute; reflexivity).
    destruct (demo_tree !! index_path demo_dir) as [[c| |]|]; try done. by exists c.
Qed.


(** Killed after the record is in place and before the index is written. *)
Definition demo_killed : res path * World :=
  save demo_dir "t1" "t2" (mkWorld demo_new (mkDisk demo_tree (repeat None 6 ++ [Some (mkFault Killed None)]))).

Lemma demo_killed_value : is_ok demo_killed.1 = false /\ is_ok (load demo_dir (files (disk demo_killed.2)) "abc" "b5000") = true.
Proof. vm_compute. by split. Qed.

Lemma save_atomic_witness :
  exists x w', save demo_dir "t1" "t2" (mkWorld demo_new (mkDisk demo_tree (repeat None 6 ++ [Some (mkFault Killed None)]))) = (x, w') /\
    is_ok x = false /\ record_in demo_dir (files (disk w')) "b4999.json" = record_in demo_dir demo_tree "b4999.json".
Proof.
  exists demo_killed.1, demo_killed.2. split; [apply surjective_pairing|]. split; [apply demo_killed_value|].
  destruct (demo_tree !! (demo_dir ++ ["b4999.json"])) as [[c| |]|] eqn:E; [|exfalso; vm_compute in E; discriminate E..].
  apply (save_atomic demo_dir "t1" "t2" demo_new demo_tree (repeat None 6 ++ [Some (mkFault Killed None)]) _ _
    (rd_key _ _ _ _ demo_ready) (surjective_pairing _)) with (c := c); [exact E|vm_compute; discriminate|discriminate].
Defined.

(** The record is then the same as the one on the disk, so the index is never
    repaired: the next save succeeds, and the check fails. *)
Example index_stays_stale :
  let w := save demo_dir "t3" "t4" (mkWorld demo_new (mkDisk (files (disk demo_killed.2)) [])) in
  is_ok w.1 = true /\ is_ok (validate_index_consistency demo_dir (files (disk w.2))) = false.
Proof. vm_compute. by split. Qed.

(** A tag that is moved: the record of the commit it was on, with its stage and
    its evidence, becomes that of the commit it is on. *)
Example evidence_of_another_commit :
  let r := with_stage "tested" demo_new in
  let t := files (disk (save demo_dir "t1" "t2" (mkWorld r (mkDisk demo_tree []))).2) in
  (r' ← record_for_checkout demo_dir t "fff" "b5000" "rev2"; Ok (revision r', stage r', manifest_hash r')) =
  Ok ("fff", "tested", JStr "m1").
Proof. vm_compute. reflexivity. Qed.
End Records.
