(* ===== verification/Csource.v ===== *)
(** Scanning of C and C++ sources without parsing them:
    [src/tools/bigcherry/core/csource.py].

    The module's regular expressions are fixed; each of them is the function
    that gives the length of its match at a place, and [finditer] finds the
    matches from left to right as Python's [re] does.  No match is empty. *)

From S2P Require Import Prelude Json Lines.
Import Lines.

Module Csource.

Definition quote : Ascii.ascii := Ascii.ascii_of_nat 34.
Definition apostrophe : Ascii.ascii := Ascii.ascii_of_nat 39.
Definition backslash : Ascii.ascii := Ascii.ascii_of_nat 92.

(** ** The expressions *)

(** [[^\n]*] *)
Fixpoint to_eol (s : string) : nat :=
  match s with
  | EmptyString => 0
  | String c s' => if is_lf c then 0 else S (to_eol s')
  end.

(** [//[^\n]*] *)
Definition line_comment (s : string) : option nat :=
  if startswith "//" s then Some (2 + to_eol (str_drop 2 s)) else None.

(** [#[^\n]*] *)
Definition cmake_comment (s : string) : option nat :=
  if startswith "#" s then Some (1 + to_eol (str_drop 1 s)) else None.

(** [.*?\*/] with [DOTALL] *)
Fixpoint to_close (s : string) : option nat :=
  if startswith "*/" s then Some 2
  else match s with EmptyString => None | String _ s' => S <$> to_close s' end.

(** [/\*.*?\*/] *)
Definition block_comment (s : string) : option nat :=
  if startswith "/*" s then Nat.add 2 <$> to_close (str_drop 2 s) else None.

(** What follows the opening quote of a string: characters other than a quote, a
    backslash or a line feed, or escapes, up to the closing quote. *)
Fixpoint to_quote (s : string) : option nat :=
  match s with
  | EmptyString => None
  | String c s' =>
      if Ascii.eqb c quote then Some 1
      else if is_lf c then None
      else if Ascii.eqb c backslash then
        match s' with
        | String d s'' => if is_lf d then None else Nat.add 2 <$> to_quote s''
        | EmptyString => None
        end
      else S <$> to_quote s'
  end.

Definition string_literal (s : string) : option nat :=
  match s with String c s' => if Ascii.eqb c quote then S <$> to_quote s' else None | EmptyString => None end.

(** One character other than an apostrophe, a backslash or a line feed, or an
    escape, between apostrophes. *)
Definition char_literal (s : string) : option nat :=
  match s with
  | String a (String b (String c s')) =>
      if negb (Ascii.eqb a apostrophe) then None
      else if Ascii.eqb b backslash then
        match s' with
        | String d _ => if negb (is_lf c) && Ascii.eqb d apostrophe then Some 4 else None
        | EmptyString => None
        end
      else if negb (Ascii.eqb b apostrophe) && negb (is_lf b) && Ascii.eqb c apostrophe then Some 3
      else None
  | _ => None
  end.

Definition is_blank (c : Ascii.ascii) : bool := Ascii.eqb c " "%char || (Ascii.nat_of_ascii c =? 9)%nat.

(** [[ \t]*]: how many, and what is left. *)
Fixpoint skip_blanks (s : string) : nat * string :=
  match s with
  | String c s' => if is_blank c then let '(n, r) := skip_blanks s' in (S n, r) else (0, s)
  | EmptyString => (0, s)
  end.

(** Up to a quote, in the same line. *)
Fixpoint to_plain_quote (s : string) : option nat :=
  match s with
  | EmptyString => None
  | String c s' =>
      if Ascii.eqb c quote then Some 1 else if is_lf c then None else S <$> to_plain_quote s'
  end.

(** [^[ \t]*#[ \t]*include[ \t]*] after the anchor, and a quoted path *)
Definition include_path (s : string) : option nat :=
  let '(n1, s) := skip_blanks s in
  if negb (startswith "#" s) then None
  else
    let '(n2, s) := skip_blanks (str_drop 1 s) in
    if negb (startswith "include" s) then None
    else
      let '(n3, s) := skip_blanks (str_drop 7 s) in
      match s with
      | String c s' =>
          if Ascii.eqb c quote then Nat.add (n1 + 1 + n2 + 7 + n3 + 1) <$> to_plain_quote s' else None
      | EmptyString => None
      end.

(** ** Matches *)

(** The spans of the matches; [skip] characters still belong to the last one,
    and [bol] holds at the start of a line. *)
Fixpoint scan (m : bool -> string -> option nat) (pos skip : nat) (bol : bool) (s : string) : list (nat * nat) :=
  match s with
  | EmptyString => []
  | String c s' =>
      match skip with
      | S k => scan m (S pos) k (is_lf c) s'
      | O =>
          match m bol s with
          | Some (S k) => (pos, pos + S k) :: scan m (S pos) k (is_lf c) s'
          | _ => scan m (S pos) 0 (is_lf c) s'
          end
      end
  end.

Definition finditer (m : string -> option nat) (s : string) : list (nat * nat) := scan (fun _ => m) 0 0 true s.

(** For an expression that starts with the anchor, in [MULTILINE] mode. *)
Definition finditer_bol (m : string -> option nat) (s : string) : list (nat * nat) :=
  scan (fun bol s => if bol : bool then m s else None) 0 0 true s.

Definition inside (spans : list (nat * nat)) (i : nat) : bool :=
  existsb (fun sp => (sp.1 <=? i)%nat && (i <? sp.2)%nat) spans.

(** [_blank_preserving_newlines], on the characters where [f] holds. *)
Fixpoint blank_where (f : nat -> bool) (pos : nat) (s : string) : string :=
  match s with
  | EmptyString => EmptyString
  | String c s' => String (if f pos && negb (is_lf c) then " "%char else c) (blank_where f (S pos) s')
  end.

(** [pattern.sub(_blank_preserving_newlines, text)] *)
Definition sub_blank (spans : list (nat * nat)) (text : string) : string := blank_where (inside spans) 0 text.

Definition blank_strings_outside_includes (text : string) : string :=
  let protected := finditer_bol include_path text in
  let kept sp := existsb (fun p => (p.1 <=? sp.1)%nat && (sp.2 <=? p.2)%nat) protected in
  sub_blank (List.filter (fun sp => negb (kept sp)) (finditer string_literal text)) text.

Definition strip_noise (text language : string) : string :=
  if String.eqb language "cmake" then sub_blank (finditer cmake_comment text) text
  else if String.eqb language "none" then text
  else
    let text := sub_blank (finditer block_comment text) text in
    let text := sub_blank (finditer line_comment text) text in
    let text := blank_strings_outside_includes text in
    sub_blank (finditer char_literal text) text.

(** [s.endswith(p)] *)
Definition endswith (p s : string) : bool :=
  (String.length p <=? String.length s)%nat && String.eqb (str_drop (String.length s - String.length p) s) p.

Definition language_for (path : string) : string :=
  let slashed := map (fun c => if Ascii.eqb c backslash then "/"%char else c) (String.list_ascii_of_string path) in
  let name := List.last (split_on "/"%char (String.string_of_list_ascii slashed)) "" in
  if String.eqb name "CMakeLists.txt" || endswith ".cmake" name then "cmake"
  else if existsb (fun e => endswith e name) [".py"; ".sh"; ".yml"; ".yaml"] then "none"
  else "c".

(** ** Braces *)

(** [text.find(c, start)] *)
Fixpoint find_from (c : Ascii.ascii) (pos start : nat) (s : string) : option nat :=
  match s with
  | EmptyString => None
  | String d s' => if (start <=? pos)%nat && Ascii.eqb c d then Some pos else find_from c (S pos) start s'
  end.

(** The loop of [find_braced_block] at [i], where the text left is [s]. *)
Fixpoint close_brace (depth : Z) (i : nat) (s : string) : option nat :=
  match s with
  | EmptyString => None
  | String c s' =>
      if Ascii.eqb c "{"%char then close_brace (depth + 1) (S i) s'
      else if Ascii.eqb c "}"%char then
        if (depth - 1 =? 0)%Z then Some (S i) else close_brace (depth - 1) (S i) s'
      else close_brace depth (S i) s'
  end.

Definition find_braced_block (text : string) (from_index : nat) : option (nat * nat) :=
  open_at ← find_from "{"%char 0 from_index text;
  close ← close_brace 0 open_at (str_drop open_at text);
  Some (open_at, close).

(** ** Function and switch bodies *)

(** [\w] on the code points of a one-byte character. *)
Definition word_char (c : Ascii.ascii) : bool :=
  let n := Ascii.nat_of_ascii c in
  bool_decide (48 <= n <= 57) || bool_decide (65 <= n <= 90) || bool_decide (97 <= n <= 122) || (n =? 95)%nat
  || existsb (Nat.eqb n) [170; 178; 179; 181; 185; 186; 188; 189; 190]
  || (bool_decide (192 <= n) && negb (n =? 215)%nat && negb (n =? 247)%nat).

Fixpoint skip_space (s : string) : nat * string :=
  match s with
  | String c s' => if py_isspace c then let '(n, r) := skip_space s' in (S n, r) else (0, s)
  | EmptyString => (0, s)
  end.

Definition head_word (s : string) : bool := match s with String c _ => word_char c | EmptyString => false end.

(** What follows [\b]: a literal, then [rest], which [prev] is in front of. *)
Definition bounded (literal : string) (rest : string -> option nat) (prev : bool) (s : string) : option nat :=
  if negb (Bool.eqb prev (head_word s)) && startswith literal s
  then Nat.add (String.length literal) <$> rest (str_drop (String.length literal) s) else None.

(** [\s*] and a character *)
Definition spaced (c : string) (rest : string -> option nat) (s : string) : option nat :=
  let '(n, s) := skip_space s in
  if startswith c s then Nat.add (n + String.length c) <$> rest (str_drop (String.length c) s) else None.

Definition done_here (s : string) : option nat := Some 0.

(** [\b name \s*\(] *)
Definition call_of (name : string) : bool -> string -> option nat := bounded name (spaced "(" done_here).

(** [\bswitch\s*\(\s* subject \s*\)] *)
Definition switch_on (subject : string) : bool -> string -> option nat :=
  bounded "switch" (spaced "(" (spaced subject (spaced ")" done_here))).

(** As [scan], for an expression that looks at the character before. *)
Fixpoint scan_word (m : bool -> string -> option nat) (pos skip : nat) (prev : bool) (s : string) : list (nat * nat) :=
  match s with
  | EmptyString => []
  | String c s' =>
      match skip with
      | S k => scan_word m (S pos) k (word_char c) s'
      | O =>
          match m prev s with
          | Some (S k) => (pos, pos + S k) :: scan_word m (S pos) k (word_char c) s'
          | _ => scan_word m (S pos) 0 (word_char c) s'
          end
      end
  end.

Definition slice (a b : nat) (s : string) : string := str_take (b - a) (str_drop a s).

(** The loop of [function_body] over the matches, [seen] definitions passed. *)
Fixpoint definition_at (stripped : string) (occurrence seen : nat) (spans : list (nat * nat)) : option string :=
  match spans with
  | [] => None
  | (_, stop) :: spans' =>
      let declared :=
        match find_from "{"%char 0 stop stripped, find_from ";"%char 0 stop stripped with
        | None, _ => true
        | Some brace, Some semi => (semi <? brace)%nat
        | Some _, None => false
        end in
      match (if declared then None else find_braced_block stripped stop) with
      | None => definition_at stripped occurrence seen spans'
      | Some (a, b) =>
          if negb (seen =? occurrence)%nat then definition_at stripped occurrence (S seen) spans'
          else Some (slice a b stripped)
      end
  end.

Definition function_body (text name : string) (occurrence : nat) : option string :=
  let stripped := strip_noise text "c" in
  definition_at stripped occurrence 0 (scan_word (call_of name) 0 0 false stripped).

Definition switch_body (text subject : string) : option string :=
  let stripped := strip_noise text "c" in
  match scan_word (switch_on subject) 0 0 false stripped with
  | [] => None
  | (_, stop) :: _ => '(a, b) ← find_braced_block stripped stop; Some (slice a b stripped)
  end.

(** ** Lemmas *)

Lemma blank_where_get f pos s i :
  String.get i (blank_where f pos s)
  = (fun c => if f (pos + i) && negb (is_lf c) then " "%char else c) <$> String.get i s.
Proof.
  revert pos i. induction s as [|c s IH]; intros pos i; [by destruct i|].
  destruct i as [|i]; cbn [blank_where String.get fmap option_fmap option_map].
  - by rewrite Nat.add_0_r.
  - rewrite IH. by rewrite Nat.add_succ_r.
Qed.

Lemma blank_where_length f pos s : String.length (blank_where f pos s) = String.length s.
Proof. revert pos. induction s; intros; cbn; auto. Qed.

(** Some characters that are no line feeds are spaces in [t]. *)
Definition blanked (s t : string) : Prop :=
  String.length t = String.length s /\
  forall i c, String.get i s = Some c ->
    String.get i t = Some c \/ (is_lf c = false /\ String.get i t = Some " "%char).

Lemma blanked_refl s : blanked s s.
Proof. split; auto. Qed.

Lemma blanked_trans s t u : blanked s t -> blanked t u -> blanked s u.
Proof.
  intros [L1 H1] [L2 H2]. split; [congruence|]. intros i c Hc.
  destruct (H1 i c Hc) as [Ht|[Hl Ht]]; destruct (H2 i _ Ht) as [Hu|[Hl' Hu]]; auto.
Qed.

Lemma blanked_sub spans s : blanked s (sub_blank spans s).
Proof.
  split; [apply blank_where_length|]. intros i c Hc. unfold sub_blank. rewrite blank_where_get, Hc. cbn.
  destruct (is_lf c); [rewrite andb_false_r; by left|]. rewrite andb_true_r. destruct (inside spans i); auto.
Qed.

Lemma strip_noise_blanked text language : blanked text (strip_noise text language).
Proof.
  unfold strip_noise. destruct (String.eqb language "cmake"); [apply blanked_sub|].
  destruct (String.eqb language "none"); [apply blanked_refl|].
  eapply blanked_trans; [apply blanked_sub|]. eapply blanked_trans; [apply blanked_sub|].
  eapply blanked_trans; [apply blanked_sub|]. apply blanked_sub.
Qed.

(** ** Braces *)

(** How many braces are open at the end. *)
Fixpoint depth (s : string) : Z :=
  match s with
  | EmptyString => 0
  | String c s' =>
      (if Ascii.eqb c "{"%char then 1 else if Ascii.eqb c "}"%char then -1 else 0) + depth s'
  end.

Lemma find_from_Some c pos start s i :
  find_from c pos start s = Some i ->
  start <= i /\ pos <= i /\ String.get (i - pos) s = Some c /\
  forall k, start <= k -> pos <= k < i -> String.get (k - pos) s <> Some c.
Proof.
  revert pos. induction s as [|d s IH]; intros pos; [done|]. cbn [find_from].
  destruct (Nat.leb_spec start pos) as [Hle|Hle]; cbn [andb].
  - destruct (Ascii.eqb_spec c d) as [->|Hne].
    + intros [= <-]. rewrite Nat.sub_diag. split_and!; [done|done|done|]. intros; lia.
    + intros (H1 & H2 & H3 & H4)%IH. replace (i - pos) with (S (i - S pos)) by lia. split_and!; [done|lia|done|].
      intros k Hk1 Hk2. destruct (Nat.eq_dec k pos) as [->|]; [rewrite Nat.sub_diag; cbn; congruence|].
      replace (k - pos) with (S (k - S pos)) by lia. cbn. apply H4; lia.
  - intros (H1 & H2 & H3 & H4)%IH. replace (i - pos) with (S (i - S pos)) by lia. split_and!; [done|lia|done|].
    intros k Hk1 Hk2. replace (k - pos) with (S (k - S pos)) by lia. cbn. apply H4; lia.
Qed.

Lemma find_from_None c pos start s :
  find_from c pos start s = None -> forall k, start <= k -> pos <= k -> String.get (k - pos) s <> Some c.
Proof.
  revert pos. induction s as [|d s IH]; intros pos; [intros _ k _ _; by destruct (k - pos)|]. cbn [find_from].
  intros H k Hk1 Hk2.
  destruct (Nat.leb_spec start pos) as [Hle|Hle]; cbn [andb] in H.
  - destruct (Ascii.eqb_spec c d) as [->|Hne]; [done|].
    destruct (Nat.eq_dec k pos) as [->|]; [rewrite Nat.sub_diag; cbn; congruence|].
    replace (k - pos) with (S (k - S pos)) by lia. cbn. apply IH; [done|lia|lia].
  - replace (k - pos) with (S (k - S pos)) by lia. cbn. apply IH; [done|lia|lia].
Qed.

(** The loop ends where the braces that are open, [d] of them before, are closed. *)
Lemma close_brace_spec d i s :
  (0 < d)%Z ->
  match close_brace d i s with
  | Some e => exists n, e = i + n /\ 0 < n <= String.length s /\ (d + depth (str_take n s) = 0)%Z /\
      forall k, k < n -> (0 < d + depth (str_take k s))%Z
  | None => forall k, (0 < d + depth (str_take k s))%Z
  end.
Proof.
  revert d i. induction s as [|c s IH]; intros d i Hd; [intros [|k]; cbn; lia|]. cbn [close_brace].
  assert (forall d', (0 < d')%Z ->
    (forall k, (d + depth (str_take (S k) (String c s)) = d' + depth (str_take k s))%Z) ->
    match close_brace d' (S i) s with
    | Some e => exists n, e = i + n /\ 0 < n <= String.length (String c s) /\
        (d + depth (str_take n (String c s)) = 0)%Z /\ forall k, k < n -> (0 < d + depth (str_take k (String c s)))%Z
    | None => forall k, (0 < d + depth (str_take k (String c s)))%Z
    end) as Hstep.
  { intros d' Hd' Heq. specialize (IH d' (S i) Hd'). destruct (close_brace d' (S i) s) as [e|].
    - destruct IH as (n & -> & Hn & H0 & Hk). exists (S n). split; [lia|]. split; [cbn; lia|].
      split; [by rewrite Heq|]. intros [|k] Hlt; [cbn; lia|]. rewrite Heq. apply Hk. lia.
    - intros [|k]; [cbn; lia|]. by rewrite Heq. }
  destruct (Ascii.eqb c "{"%char) eqn:Eo; [apply Hstep; [lia|intros; cbn [str_take depth]; rewrite Eo; lia]|].
  destruct (Ascii.eqb c "}"%char) eqn:Ec; [|apply Hstep; [lia|intros; cbn [str_take depth]; rewrite Eo, Ec; lia]].
  destruct (Z.eqb_spec (d - 1) 0) as [Hz|Hz]; [|apply Hstep; [lia|intros; cbn [str_take depth]; rewrite Eo, Ec; lia]].
  exists 1. split; [lia|]. split; [cbn; lia|]. split; [cbn [str_take depth]; rewrite Eo, Ec; destruct s; cbn; lia|].
  intros k Hk. replace k with 0 by lia. cbn. lia.
Qed.

Lemma get_str_drop a i s : String.get i (str_drop a s) = String.get (a + i) s.
Proof. revert s. induction a as [|a IH]; intros s; [done|]. destruct s; [by destruct i|]. apply IH. Qed.

Lemma length_str_drop a s : String.length (str_drop a s) = String.length s - a.
Proof. revert s. induction a as [|a IH]; intros [|c s]; try done. apply IH. Qed.

Lemma get_length s i c : String.get i s = Some c -> i < String.length s.
Proof. revert i. induction s as [|d s IH]; intros [|i]; try done; cbn; [lia|]. intros H%IH. lia. Qed.

Lemma length_get s i : i < String.length s -> exists c, String.get i s = Some c.
Proof. revert i. induction s as [|d s IH]; intros [|i] H; cbn in *; try lia; [by exists d|]. apply IH. lia. Qed.

(** The block starts at the first opening brace, and ends where it is closed. *)
Lemma open_block text from a :
  find_from "{"%char 0 from text = Some a ->
  String.get a text = Some "{"%char /\ from <= a /\ (forall k, from <= k < a -> String.get k text <> Some "{"%char) /\
  close_brace 0 a (str_drop a text) = close_brace 1 (S a) (str_drop (S a) text) /\
  forall k, depth (str_take (S k) (str_drop a text)) = (1 + depth (str_take k (str_drop (S a) text)))%Z.
Proof.
  intros (H1 & _ & H2 & H3)%find_from_Some. rewrite Nat.sub_0_r in H2. split; [done|]. split; [done|].
  split; [intros k [Hk1 Hk2]; specialize (H3 k); rewrite Nat.sub_0_r in H3; apply H3; lia|].
  assert (str_drop a text = String "{"%char (str_drop (S a) text)) as Hd.
  { clear -H2. revert text H2. induction a as [|a IH]; intros [|c text] H; try done; cbn in H.
    - by injection H as <-.
    - by apply IH. }
  rewrite Hd. by split.
Qed.

(** ** Theorems *)

(** Stripping preserves offsets: the stripped text is as long as the text;
    at every place it has the character of the text or a space; line feeds stay
    where they are and none is made, so that line numbers are kept; and what is
    not blank in it is the text, so that a match can be used to slice the text. *)
Theorem strip_noise_offsets text language :
  String.length (strip_noise text language) = String.length text /\
  (forall i, String.get i (strip_noise text language) = String.get i text \/
             String.get i (strip_noise text language) = Some " "%char) /\
  (forall i c, is_lf c = true ->
     String.get i (strip_noise text language) = Some c <-> String.get i text = Some c) /\
  (forall i c, c <> " "%char -> String.get i (strip_noise text language) = Some c -> String.get i text = Some c).
Proof.
  destruct (strip_noise_blanked text language) as [Hlen H]. split; [done|].
  assert (forall i, String.get i (strip_noise text language) = String.get i text \/
            (String.get i (strip_noise text language) = Some " "%char /\
             forall c, String.get i text = Some c -> is_lf c = false)) as Hget.
  { intros i. destruct (String.get i text) as [c|] eqn:E.
    - destruct (H i c E) as [->|[Hc ->]]; [by left|]. right. split; [done|]. by intros ? [= <-].
    - left. destruct (String.get i (strip_noise text language)) as [c|] eqn:E'; [|done].
      apply get_length in E'. rewrite Hlen in E'. apply length_get in E' as [? ?]. congruence. }
  split_and!.
  - intros i. destruct (Hget i) as [?|[? _]]; auto.
  - intros i c Hc. destruct (Hget i) as [->|[-> Hn]]; [done|]. split.
    + intros [= <-]. by vm_compute in Hc.
    + intros Ht. rewrite (Hn c Ht) in Hc. done.
  - intros i c Hc. destruct (Hget i) as [->|[-> _]]; [done|congruence].
Qed.

(** A braced block is exactly one: it starts at the first opening brace
    from the index on; it ends at the first place where as many braces have been
    closed as opened, inside the text; and there is no block only if no brace is
    opened from there on or the first one is never closed. *)
Theorem find_braced_block_spec text from :
  match find_braced_block text from with
  | Some (a, b) =>
      from <= a < b /\ b <= String.length text /\ String.get a text = Some "{"%char /\
      (forall k, from <= k < a -> String.get k text <> Some "{"%char) /\
      depth (slice a b text) = 0%Z /\ (forall k, a < k < b -> (0 < depth (slice a k text))%Z)
  | None =>
      (forall k, from <= k -> String.get k text <> Some "{"%char) \/
      exists a, from <= a /\ String.get a text = Some "{"%char /\
        (forall k, from <= k < a -> String.get k text <> Some "{"%char) /\
        forall k, a < k -> (0 < depth (slice a k text))%Z
  end.
Proof.
  unfold find_braced_block. destruct (find_from "{"%char 0 from text) as [a|] eqn:Ef; cbn.
  2:{ left. intros k Hk. pose proof (find_from_None _ _ _ _ Ef k Hk (Nat.le_0_l k)) as H. by rewrite Nat.sub_0_r in H. }
  destruct (open_block _ _ _ Ef) as (Ha & Hle & Hfirst & Hclose & Hdepth). rewrite Hclose.
  pose proof (close_brace_spec 1 (S a) (str_drop (S a) text) eq_refl) as H.
  assert (forall k, a < k -> depth (slice a k text) = (1 + depth (str_take (k - S a) (str_drop (S a) text)))%Z) as Hs.
  { intros k Hk. unfold slice. replace (k - a) with (S (k - S a)) by lia. apply Hdepth. }
  destruct (close_brace 1 (S a) (str_drop (S a) text)) as [e|]; cbn.
  - destruct H as (n & -> & Hn & H0 & Hk). rewrite length_str_drop in Hn. split_and!; try done; try lia.
    + rewrite Hs by lia. by replace (S a + n - S a) with n by lia.
    + intros k Hk'. rewrite Hs by lia. apply Hk. lia.
  - right. exists a. split_and!; try done. intros k Hk. rewrite Hs by lia. apply H.
Qed.

(** ** Examples *)

Definition demo_text : string :=
  "int f(int x); // f {" +:+ newline +:+ "int f(int x) { /* } */ return g(x); }" +:+ newline.

Example demo_stripped :
  strip_noise demo_text "c"
  = "int f(int x);       " +:+ newline +:+ "int f(int x) {         return g(x); }" +:+ newline.
Proof. vm_compute. reflexivity. Qed.

Example demo_body : function_body demo_text "f" 0 = Some "{         return g(x); }".
Proof. vm_compute. reflexivity. Qed.

(** The path of an include stays, other strings do not. *)
Example demo_include :
  let q := String quote "" in
  strip_noise ("#include " +:+ q +:+ "a.h" +:+ q +:+ newline +:+ "s = " +:+ q +:+ "a.h" +:+ q +:+ ";") "c"
  = "#include " +:+ q +:+ "a.h" +:+ q +:+ newline +:+ "s =      ;".
Proof. vm_compute. reflexivity. Qed.

Example demo_language :
  map language_for ["ggml/src/CMakeLists.txt"; "a\b.cmake"; "tools/x.py"; "ggml/src/ggml.c"] = ["cmake"; "cmake"; "none"; "c"].
Proof. reflexivity. Qed.

(** Strings are looked for before character literals are: after a quote in a
    character literal the string that follows is taken for code. *)
Example string_taken_for_code :
  let q := String quote "" in
  strip_noise ("c = '" +:+ q +:+ "'; s = " +:+ q +:+ "f(x)" +:+ q +:+ ";") "c"
  = "c = '         f(x)" +:+ q +:+ ";".
Proof. vm_compute. reflexivity. Qed.

End Csource.
