(* ===== verification/Apply.v ===== *)
(** Anchored patching of files: [src/tools/bigcherry/patch/apply.py].

    The state is the source tree.  Python's [re] is a parameter, the class
    [Regex]: a pattern is what the author of a patch wrote.  Reading never
    fails; every write may, and what a failed write leaves is open, so a
    statement for every [faults] is one about every failure. *)

From S2P Require Import Prelude Json Lines Tree Operations Csource.
Import Lines Tree Csource.

Module Apply.

Definition PatchError (msg : string) : exn := Exn "PatchError" msg.


(** ** Data *)

Inductive Mode : Set := InsertAfter | InsertBefore | Replace | ReplaceAll.

Definition mode_name (m : Mode) : string :=
  match m with
  | InsertAfter => "insert_after" | InsertBefore => "insert_before"
  | Replace => "replace" | ReplaceAll => "replace_all"
  end.

Record Edit : Type := mkEdit {
  id : string;
  anchor : string;
  text : string;
  mode : Mode;
  guard : option string;
  expect_matches : Z;
  occurrence : Z;
  rationale : string;
  applies_if : option string;
  max_span_lines : Z;
}.

Record FilePatch : Type := mkFilePatch {
  fp_path : string;
  edits : list Edit;
  description : string;
  language : string;
  create : bool;
}.

Inductive Status : Set := Applied | AlreadyApplied | NotApplicable | Failed.

#[global] Instance Status_eq_dec : EqDecision Status.
Proof. solve_decision. Defined.

Record EditResult : Type := mkEditResult { edit_id : string; status : Status; detail : string }.

Record PatchResult : Type := mkPatchResult { pr_path : string; results : list EditResult; changed : bool }.

(** [PatchResult.ok] *)
Definition ok (r : PatchResult) : bool := forallb (fun e => negb (bool_decide (status e = Failed))) (results r).

Definition dialect (p : FilePatch) : string :=
  if truthy (language p) then language p else language_for (fp_path p).

(** ** Guards *)

(** The characters at which [str.splitlines] breaks. *)
Definition is_break (c : Ascii.ascii) : bool :=
  let n := Ascii.nat_of_ascii c in
  bool_decide (10 <= n <= 13) || bool_decide (28 <= n <= 30) || (n =? 133)%nat.

Fixpoint splitlines (s : string) : list string :=
  match s with
  | EmptyString => []
  | String c s' =>
      if is_break c then
        "" :: match s' with
              | String d s'' => if is_cr c && is_lf d then splitlines s'' else splitlines s'
              | EmptyString => []
              end
      else match splitlines s' with l :: ls => String c l :: ls | [] => [String c ""] end
  end.

(** The characters [re.escape] puts a backslash in front of. *)
Definition is_special (c : Ascii.ascii) : bool :=
  existsb (Ascii.eqb c) (String.list_ascii_of_string "()[]{}?*+-|^$\.&~# ")
  || bool_decide (9 <= Ascii.nat_of_ascii c <= 13).

Fixpoint re_escape (s : string) : string :=
  match s with
  | EmptyString => EmptyString
  | String c s' => if is_special c then String backslash (String c (re_escape s')) else String c (re_escape s')
  end.

Definition guard_pattern (e : Edit) : res string :=
  match guard e with
  | Some g => Ok g
  | None =>
      match List.find (fun l => negb (blank l)) (splitlines (text e)) with
      | Some l => Ok (re_escape (py_strip l))
      | None => Err (PatchError ("edit " +:+ py_repr (id e) +:+ " has neither guard nor text"))
      end
  end.

(** ** Regular expressions *)

(** [re.compile(pattern, re.MULTILINE).finditer], as spans, and [Match.expand]. *)
Class Regex : Type := {
  re_finditer : string -> string -> res (list (nat * nat));
  re_expand : string -> string -> nat * nat -> string -> res string;
}.

(** Spans from left to right, inside a text of [n] characters. *)
Fixpoint spans_in (from n : nat) (l : list (nat * nat)) : Prop :=
  match l with
  | [] => True
  | (a, b) :: l' => from <= a <= b /\ b <= n /\ spans_in b n l'
  end.

Definition substring (s t : string) : Prop := exists u v, t = u +:+ s +:+ v.

(** What is documented of [re]: matches do not overlap and come from left to
    right; the escaped form of a text matches exactly where the text is. *)
Class RegexLaws `{Regex} : Prop := {
  finditer_spans : forall p t l, re_finditer p t = Ok l -> spans_in 0 (String.length t) l;
  finditer_escape : forall s t, s <> "" -> exists l, re_finditer (re_escape s) t = Ok l /\ (substring s t -> l <> []);
}.

(** ** Containment *)

Section Apply.
Context `{Regex} (root : string) (show_exn : exn -> string).

Definition resolve_contained_target (t : tree) (relative : string) : res path :=
  if blank relative then Err (PatchError "patch target path is empty")
  else if Operations.is_absolute relative then
    Err (PatchError ("patch target path must be relative, got absolute path: " +:+ py_repr relative))
  else
    let p := Operations.parts relative in
    if str_in ".." p then
      Err (PatchError ("patch target path must not contain '..' components: " +:+ py_repr relative))
    else
      match List.find (fun q => bool_decide (node_at t q = Some Symlink)) (above p) with
      | Some q =>
          Err (PatchError ("patch target path " +:+ py_repr relative +:+ " passes through a symlink at "
            +:+ root +:+ "/" +:+ String.concat "/" q +:+ " -- refusing to write through a path component "
            +:+ "that could redirect outside the source root"))
      | None =>
          if bool_decide (node_at t p = Some Symlink) then
            Err (PatchError ("patch target " +:+ py_repr relative +:+ " is itself a symlink -- refusing to "
              +:+ "write through it since its destination is not guaranteed to "
              +:+ "be contained by the source root"))
          else Ok p
      end.

(** ** One edit *)

Definition attached (e : Edit) : string :=
  if truthy (rationale e) then " It attaches to: " +:+ rationale e else "".

Definition find_all_anchors (stripped : string) (e : Edit) : res (list (nat * nat)) :=
  matches ← re_finditer (anchor e) stripped;
  if negb (Z.of_nat (length matches) =? expect_matches e)%Z
  then Err (PatchError ("anchor for edit " +:+ py_repr (id e) +:+ " matched " +:+ show_nat (length matches)
    +:+ " time(s), expected exactly " +:+ show_Z (expect_matches e) +:+ ". Anchor: " +:+ py_repr (anchor e)
    +:+ "." +:+ attached e))
  else Ok matches.

(** [l[i]] *)
Definition py_index {A} (l : list A) (i : Z) : res A :=
  let n := Z.of_nat (length l) in
  let j := if (i <? 0)%Z then (i + n)%Z else i in
  if (j <? 0)%Z then Err (Exn "IndexError" "list index out of range")
  else of_option (Exn "IndexError" "list index out of range") (nth_error l (Z.to_nat j)).

Fixpoint count_lf (s : string) : Z :=
  match s with EmptyString => 0 | String c s' => (if is_lf c then 1 else 0) + count_lf s' end.

Definition find_anchor (stripped : string) (e : Edit) : res (nat * nat) :=
  matches ← re_finditer (anchor e) stripped;
  if negb (Z.of_nat (length matches) =? expect_matches e)%Z
  then Err (PatchError ("anchor for edit " +:+ py_repr (id e) +:+ " matched " +:+ show_nat (length matches)
    +:+ " time(s), expected " +:+ show_Z (expect_matches e) +:+ ". Anchor: " +:+ py_repr (anchor e)
    +:+ "." +:+ attached e))
  else
    m ← py_index matches (occurrence e);
    let span_lines := (count_lf (slice m.1 m.2 stripped) + 1)%Z in
    if (max_span_lines e <? span_lines)%Z
    then Err (PatchError ("anchor for edit " +:+ py_repr (id e) +:+ " matched " +:+ show_Z span_lines
      +:+ " lines, more than the " +:+ show_Z (max_span_lines e) +:+ "-line limit. It has almost "
      +:+ "certainly gone greedy and would place the edit far from where "
      +:+ "it belongs. Anchor: " +:+ py_repr (anchor e) +:+ "."))
    else Ok m.

Definition search (pattern s : string) : res bool :=
  l ← re_finditer pattern s; Ok (negb (bool_decide (l = []))).

(** [text[:a] + s + text[b:]] *)
Definition splice (a b : nat) (s t : string) : string := str_take a t +:+ s +:+ str_drop b t.

(** [except PatchError as exc]: the edit failed. *)
Definition or_failed (e : Edit) (t : string) (m : res (string * EditResult)) : res (string * EditResult) :=
  match m with
  | Err x => if String.eqb (exn_class x) "PatchError" then Ok (t, mkEditResult (id e) Failed (exn_message x)) else Err x
  | r => r
  end.

(** Replaces the matches from right to left. *)
Definition replace_right_to_left (e : Edit) (stripped : string) (matches : list (nat * nat)) (t : string) : res string :=
  foldR (fun t m => s ← re_expand (anchor e) stripped m (text e); Ok (splice m.1 m.2 s t)) (rev matches) t.

Definition insert_at (e : Edit) (m : nat * nat) (t : string) : string :=
  match mode e with
  | InsertAfter => splice m.2 m.2 (text e) t
  | InsertBefore => splice m.1 m.1 (text e) t
  | _ => splice m.1 m.2 (text e) t
  end.

(** The body of the loop over the edits. *)
Definition apply_edit (lang : string) (t : string) (e : Edit) : res (string * EditResult) :=
  g ← guard_pattern e;
  there ← search g t;
  if (there : bool) then Ok (t, mkEditResult (id e) AlreadyApplied "guard matched; left unchanged")
  else
    let stripped := strip_noise t lang in
    relevant ← (match applies_if e with None => Ok true | Some p => search p stripped end);
    if negb relevant then
      Ok (t, mkEditResult (id e) NotApplicable ("this release does not have the shape this edit handles ("
               +:+ py_repr (opt_or (applies_if e) "") +:+ ")"))
    else
      match mode e with
      | ReplaceAll =>
          match find_all_anchors stripped e with
          | Err x => or_failed e t (Err x)
          | Ok matches =>
              t' ← replace_right_to_left e stripped matches t;
              Ok (t', mkEditResult (id e) Applied ("replace_all (" +:+ show_nat (length matches) +:+ " sites)"))
          end
      | _ =>
          match find_anchor stripped e with
          | Err x => or_failed e t (Err x)
          | Ok m => Ok (insert_at e m t, mkEditResult (id e) Applied (mode_name (mode e)))
          end
      end.

Fixpoint apply_edits (lang t : string) (es : list Edit) : res (string * list EditResult) :=
  match es with
  | [] => Ok (t, [])
  | e :: es' =>
      '(t1, r) ← apply_edit lang t e;
      '(t2, rs) ← apply_edits lang t1 es';
      Ok (t2, r :: rs)
  end.

(** ** One file *)

(** [all(re.search(edit.guard_pattern(), text) for edit in edits)] *)
Fixpoint all_guards (t : string) (es : list Edit) : res bool :=
  match es with
  | [] => Ok true
  | e :: es' => g ← guard_pattern e; b ← search g t; if (b : bool) then all_guards t es' else Ok false
  end.

Notation texts := (gmap string string).

(** The text the edits start from, or why there is none. *)
Definition start_text (p : FilePatch) (target : path) (ts : option texts) (t : tree) : res (string + EditResult) :=
  match ts ≫= fun m => m !! fp_path p with
  | Some s => Ok (inl s)
  | None =>
      match read_text t target with
      | None =>
          if create p then Ok (inl "")
          else Ok (inr (mkEditResult "<file>" Failed ("target file does not exist: " +:+ fp_path p)))
      | Some s =>
          if create p then
            b ← all_guards s (edits p);
            if (b : bool) then Ok (inl s)
            else Ok (inr (mkEditResult "<file>" Failed (fp_path p
                   +:+ " already exists upstream with other content; a created file must not collide with an upstream file")))
          else Ok (inl s)
      end
  end.

(** The result, and the texts with this file's. *)
Definition apply_patch (p : FilePatch) (dry_run : bool) (ts : option texts) :
    stm Disk (PatchResult * option texts) :=
  w ← get;
  target ← lift (resolve_contained_target (files w) (fp_path p));
  start ← lift (start_text p target ts (files w));
  match start with
  | inr r => mret (mkPatchResult (fp_path p) [r] false, ts)
  | inl original =>
      '(t, rs) ← lift (apply_edits (dialect p) original (edits p));
      let result := mkPatchResult (fp_path p) rs (negb (String.eqb t original)) in
      _ ← (if changed result && ok result && negb dry_run then
             _ ← (if create p then iterM make_dir (above target) else mret tt);
             write_file target t
           else mret tt);
      mret (result, <[fp_path p := t]> <$> ts)
  end.

(** ** Every file *)

(** The two comprehensions of [apply_all]. *)
Fixpoint trial_pass (ps : list FilePatch) (ts : texts) : stm Disk (list PatchResult * texts) :=
  match ps with
  | [] => mret ([], ts)
  | p :: ps' =>
      '(r, ts1) ← apply_patch p true (Some ts);
      '(rs, ts2) ← trial_pass ps' (default ∅ ts1);
      mret (r :: rs, ts2)
  end.

Fixpoint real_pass (ps : list FilePatch) : stm Disk (list PatchResult) :=
  match ps with
  | [] => mret []
  | p :: ps' => '(r, _) ← apply_patch p false None; rs ← real_pass ps'; mret (r :: rs)
  end.

(** The paths in patch order, each once. *)
Fixpoint touched_paths (seen : list string) (ps : list FilePatch) : list string :=
  match ps with
  | [] => []
  | p :: ps' =>
      if str_in (fp_path p) seen then touched_paths seen ps'
      else fp_path p :: touched_paths (fp_path p :: seen) ps'
  end.

Definition snapshot (t : tree) (relative : string) : res (path * option string) :=
  target ← resolve_contained_target t relative; Ok (target, read_text t target).

(** [except OSError], and [except Exception]. *)
Definition is_OSError (e : exn) : bool :=
  str_in (exn_class e) ["OSError"; "FileExistsError"; "FileNotFoundError"; "PermissionError"; "IsADirectoryError";
    "NotADirectoryError"; "InterruptedError"; "TimeoutError"; "BlockingIOError"].
Definition is_Exception (e : exn) : bool :=
  negb (str_in (exn_class e) ["KeyboardInterrupt"; "SystemExit"; "GeneratorExit"]).

Definition restore_one (b : path * option string) : stm Disk unit :=
  match b.2 with
  | None => w ← get; if is_file (files w) b.1 then unlink b.1 else mret tt
  | Some original => write_file b.1 original
  end.

Fixpoint restore_each (bs : list (path * option string)) : stm Disk (list exn) :=
  match bs with
  | [] => mret []
  | b :: bs' => fun w =>
      match restore_one b w with
      | (Ok _, w1) => restore_each bs' w1
      | (Err e, w1) =>
          if is_OSError e then (errors ← restore_each bs'; mret (e :: errors)) w1 else (Err e, w1)
      end
  end.

Definition rollback_error (errors : list exn) : exn :=
  PatchError ("rollback failed to restore " +:+ show_nat (length errors)
    +:+ " file(s) after a partial apply_all() failure: [" +:+ String.concat ", " (map show_exn errors) +:+ "]").

(** [_restore] *)
Definition restore (backup : list (path * option string)) : stm Disk unit :=
  errors ← restore_each (rev backup);
  if bool_decide (errors = []) then mret tt else raise (rollback_error errors).

(** The second pass, with its snapshot. *)
Definition pass_or_restore (ps : list FilePatch) (backup : list (path * option string)) :
    stm Disk (list PatchResult) := fun w =>
  match real_pass ps w with
  | (Err e, w1) => if is_Exception e then (_ ← restore backup; raise e) w1 else (Err e, w1)
  | (Ok rs, w1) => (_ ← (if forallb ok rs then mret tt else restore backup); mret rs) w1
  end.

Definition write_all (ps : list FilePatch) : stm Disk (list PatchResult) :=
  w ← get;
  backup ← lift (mapR (snapshot (files w)) (touched_paths [] ps));
  pass_or_restore ps backup.

Definition apply_all (ps : list FilePatch) (dry_run : bool) (initial_texts : option texts) :
    stm Disk (list PatchResult) :=
  '(trial, _) ← trial_pass ps (default ∅ initial_texts);
  if negb (forallb ok trial) || dry_run then mret trial else write_all ps.
End Apply.

(** ** Texts *)

Lemma substring_refl s : substring s s.
Proof. exists "", "". by rewrite str_app_nil_r. Qed.

Lemma substring_trans s t u : substring s t -> substring t u -> substring s u.
Proof.
  intros (a & b & ->) (c & d & ->). exists (c +:+ a), (b +:+ d). by rewrite !str_app_assoc.
Qed.

Lemma substring_cons c s t : substring s t -> substring s (String c t).
Proof. intros (a & b & ->). by exists (String c a), b. Qed.

Lemma substring_mid a s b : substring s (a +:+ s +:+ b).
Proof. by exists a, b. Qed.

Lemma lstrip_substring s : substring (lstrip s) s.
Proof.
  induction s as [|c s IH]; [apply substring_refl|]. cbn [lstrip].
  destruct (py_isspace c); [by apply substring_cons|apply substring_refl].
Qed.

Lemma rstrip_prefix s : exists v, s = rstrip s +:+ v.
Proof.
  induction s as [|c s [v IH]]; [by exists ""|]. cbn [rstrip].
  destruct (rstrip s) as [|d r] eqn:E.
  - destruct (py_isspace c); [by exists (String c s)|]. exists s. done.
  - exists v. rewrite IH at 1. done.
Qed.

Lemma strip_substring s : substring (py_strip s) s.
Proof.
  eapply substring_trans; [|apply lstrip_substring]. unfold py_strip. destruct (rstrip_prefix (lstrip s)) as [v Hv].
  exists "", v. exact Hv.
Qed.

(** The lines of a text, from its end. *)
Lemma splitlines_substring s l : l ∈ splitlines s -> substring l s.
Proof.
  assert (forall n s, String.length s <= n ->
    forall l, l ∈ splitlines s -> substring l s /\ (forall l', splitlines s = l :: l' -> exists v, s = l +:+ v)) as H.
  { induction n as [|n IH]; intros [|c s'] Hn l' Hl; cbn in Hn; try lia; try by apply elem_of_nil in Hl.
    cbn [splitlines] in Hl |- *. destruct (is_break c) eqn:Ec.
    - split; [|intros l1 [= <- _]; by exists (String c s')].
      apply elem_of_cons in Hl as [->|Hl]; [by exists "", (String c s')|]. apply substring_cons.
      destruct s' as [|d s'']; [by apply elem_of_nil in Hl|]. cbn in Hn.
      destruct (is_cr c && is_lf d); [apply substring_cons|]; apply IH; cbn; try done; lia.
    - destruct (splitlines s') as [|l1 ls] eqn:E.
      + apply list_elem_of_singleton in Hl as ->. split; [by exists "", s'|]. intros l2 [= <-]. by exists s'.
      + destruct (IH s' ltac:(lia) l1) as [_ Hp]; [rewrite E; by left|]. destruct (Hp ls E) as [v Hv].
        apply elem_of_cons in Hl as [->|Hl].
        * split; [exists "", v; by rewrite Hv|]. intros l2 _. exists v. by rewrite Hv.
        * split; [|].
          { apply substring_cons. apply IH; [lia|]. rewrite E. by right. }
          intros l2 [= <- _]. exists v. by rewrite Hv. }
  intros Hl. by apply (H (String.length s) s).
Qed.

Lemma str_take_drop n s : str_take n s +:+ str_drop n s = s.
Proof. revert s. induction n as [|n IH]; intros [|c s]; try done. cbn. by rewrite <- (IH s) at 3. Qed.

Lemma splice_insert n s t : splice n n s t = str_take n t +:+ s +:+ str_drop n t.
Proof. done. Qed.

Lemma splice_substring a b s t : substring s (splice a b s t).
Proof. apply substring_mid. Qed.

Lemma insert_at_substring e m t : substring (text e) (insert_at e m t).
Proof. unfold insert_at. destruct (mode e); apply splice_substring. Qed.

(** ** Replacing from right to left *)

(** The text from [pos] on, with the matches replaced, from left to right. *)
Fixpoint substituted (pos : nat) (l : list (nat * nat)) (news : list string) (t : string) : string :=
  match l, news with
  | (a, b) :: l', s :: news' => slice pos a t +:+ s +:+ substituted b l' news' t
  | _, _ => str_drop pos t
  end.

Lemma str_take_app_le n s t : n <= String.length s -> str_take n (s +:+ t) = str_take n s.
Proof.
  revert s. induction n as [|n IH]; intros [|c s] H; cbn in H; try done; try lia. 
  rewrite str_app_cons. cbn. by rewrite IH by lia.
Qed.

Lemma str_drop_app_le n s t : n <= String.length s -> str_drop n (s +:+ t) = str_drop n s +:+ t.
Proof.
  revert s. induction n as [|n IH]; intros [|c s] H; cbn in H; try done; try lia.
  rewrite str_app_cons. cbn. by rewrite IH by lia.
Qed.

Lemma str_take_length n s : n <= String.length s -> String.length (str_take n s) = n.
Proof. revert s. induction n as [|n IH]; intros [|c s] H; cbn in *; try lia. by rewrite IH by lia. Qed.

Lemma str_drop_take n m s : str_drop n (str_take m s) = slice n m s.
Proof.
  unfold slice. revert m s. induction n as [|n IH]; intros [|m] [|c s]; try done.
  - cbn. by destruct (m - n).
  - apply IH.
Qed.

Lemma str_take_take n m s : n <= m -> str_take n (str_take m s) = str_take n s.
Proof. revert m s. induction n as [|n IH]; intros [|m] [|c s] H; try done; try lia. cbn. by rewrite IH by lia. Qed.

Lemma str_take_slice a b s : a <= b -> str_take a s +:+ slice a b s = str_take b s.
Proof.
  intros Hab. rewrite <- (str_drop_take a b s). rewrite <- (str_take_take a b s Hab). apply str_take_drop.
Qed.

Lemma str_drop_all n s : String.length s <= n -> str_drop n s = "".
Proof. revert s. induction n as [|n IH]; intros [|c s] H; cbn in *; try done; try lia. apply IH. lia. Qed.

Lemma foldR_app {E A S} (f : S -> A -> result E S) l k s :
  foldR f (l ++ k) s = (s' ← foldR f l s; foldR f k s').
Proof. revert s. induction l as [|x l IH]; intros s; [done|]. cbn. destruct (f s x); [apply IH|done]. Qed.

Lemma replace_substituted `{Regex} e stripped l t t' pos :
  replace_right_to_left e stripped l t = Ok t' -> spans_in pos (String.length t) l ->
  exists news, mapR (fun m => re_expand (anchor e) stripped m (text e)) l = Ok news /\
    t' = str_take pos t +:+ substituted pos l news t.
Proof.
  unfold replace_right_to_left. revert t' pos. induction l as [|[a b] l IH]; intros t' pos Hr Hs.
  { injection Hr as <-. exists []. split; [done|]. cbn. by rewrite str_take_drop. }
  destruct Hs as ((Hpa & Hab) & Hbn & Hs). cbn [rev] in Hr. rewrite foldR_app in Hr.
  apply bind_Ok in Hr as (t1 & H1 & Hr). cbn [foldR] in Hr. apply bind_Ok in Hr as (t2 & Hr & [= <-]).
  apply bind_Ok in Hr as (s & Hexp & [= <-]). destruct (IH t1 b H1 Hs) as (news & Hnews & ->).
  exists (s :: news). cbn [mapR]. rewrite Hexp, Hnews. split; [done|].
  unfold splice. cbn [fst snd substituted].
  rewrite str_take_app_le by (rewrite str_take_length; lia). rewrite str_take_take by lia.
  rewrite str_drop_app_le by (rewrite str_take_length; lia).
  rewrite (str_drop_all b (str_take b t)) by (rewrite str_take_length; lia).
  rewrite <- (str_take_slice pos a t) by lia. by rewrite !str_app_assoc.
Qed.

(** ** One edit *)

Section Edits.
Context `{RegexLaws}.

Lemma search_true p t b : search p t = Ok b -> b = true <-> exists l, re_finditer p t = Ok l /\ l <> [].
Proof.
  unfold search. intros (l & Hl & [= <-])%bind_Ok. rewrite negb_true_iff, bool_decide_eq_false. rewrite Hl. naive_solver.
Qed.

Lemma find_anchor_Ok stripped e m : find_anchor stripped e = Ok m ->
  exists l, re_finditer (anchor e) stripped = Ok l /\ Z.of_nat (length l) = expect_matches e /\
    py_index l (occurrence e) = Ok m /\ (count_lf (slice m.1 m.2 stripped) + 1 <= max_span_lines e)%Z.
Proof.
  unfold find_anchor. intros (l & Hl & Hm)%bind_Ok. exists l. split; [done|].
  destruct (Z.eqb_spec (Z.of_nat (length l)) (expect_matches e)) as [He|]; [|done]. cbn [negb] in Hm.
  apply bind_Ok in Hm as (m' & Hi & Hm). destruct (Z.ltb_spec (max_span_lines e) (count_lf (slice m'.1 m'.2 stripped) + 1)); [done|].
  injection Hm as <-. done.
Qed.

Lemma find_all_anchors_Ok stripped e l : find_all_anchors stripped e = Ok l ->
  re_finditer (anchor e) stripped = Ok l /\ Z.of_nat (length l) = expect_matches e.
Proof.
  unfold find_all_anchors. intros (l' & Hl & Hm)%bind_Ok.
  destruct (Z.eqb_spec (Z.of_nat (length l')) (expect_matches e)) as [He|]; [|done]. by injection Hm as <-.
Qed.

Lemma py_index_elem {A} (l : list A) i x : py_index l i = Ok x -> x ∈ l.
Proof.
  unfold py_index. destruct (_ <? 0)%Z; [done|]. intros Hx%of_option_Ok. apply nth_error_In in Hx.
  by apply list_elem_of_In.
Qed.

Lemma or_failed_Ok e t m t' r : or_failed e t m = Ok (t', r) ->
  m = Ok (t', r) \/ (t' = t /\ status r = Failed).
Proof.
  unfold or_failed. destruct m as [x|x]; [by left|]. destruct (String.eqb _ _); [|done]. intros [= <- <-]. by right.
Qed.

(** What an applied edit does to the text. *)
Definition placed (e : Edit) (stripped t t' : string) : Prop :=
  exists l, re_finditer (anchor e) stripped = Ok l /\ Z.of_nat (length l) = expect_matches e /\
    match mode e with
    | ReplaceAll =>
        exists news, mapR (fun m => re_expand (anchor e) stripped m (text e)) l = Ok news /\
          t' = substituted 0 l news t
    | _ =>
        exists a b, py_index l (occurrence e) = Ok (a, b) /\ (count_lf (slice a b stripped) + 1 <= max_span_lines e)%Z /\
          t' = match mode e with
               | InsertAfter => str_take b t +:+ text e +:+ str_drop b t
               | InsertBefore => str_take a t +:+ text e +:+ str_drop a t
               | _ => str_take a t +:+ text e +:+ str_drop b t
               end
    end.

Lemma apply_edit_cases lang t e t' r :
  apply_edit lang t e = Ok (t', r) ->
  edit_id r = id e /\
  exists g there, guard_pattern e = Ok g /\ search g t = Ok there /\
    match status r with
    | AlreadyApplied => there = true /\ t' = t
    | NotApplicable => there = false /\ t' = t /\
        exists p, applies_if e = Some p /\ search p (strip_noise t lang) = Ok false
    | Failed => there = false /\ t' = t
    | Applied => there = false /\ placed e (strip_noise t lang) t t'
    end.
Proof.
  unfold apply_edit. intros (g & Hg & Ht)%bind_Ok. apply bind_Ok in Ht as (there & Hs & Ht).
  destruct there; [injection Ht as <- <-; split; [done|]; by exists g, true|].
  apply bind_Ok in Ht as (relevant & Hrel & Ht). destruct relevant; cbn [negb] in Ht.
  2:{ injection Ht as <- <-. split; [done|]. exists g, false. cbn [status]. split_and!; try done.
      destruct (applies_if e) as [p|]; [|done]. by exists p. }
  assert (forall x, or_failed e t (Err x) = Ok (t', r) -> edit_id r = id e /\ status r = Failed /\ t' = t) as Hfail.
  { intros x. unfold or_failed. destruct (String.eqb _ _); [|done]. by intros [= <- <-]. }
  assert (mode e <> ReplaceAll -> match find_anchor (strip_noise t lang) e with
            | Err x => or_failed e t (Err x)
            | Ok m => Ok (insert_at e m t, mkEditResult (id e) Applied (mode_name (mode e)))
            end = Ok (t', r) -> edit_id r = id e /\ (status r = Failed /\ t' = t \/
              status r = Applied /\ placed e (strip_noise t lang) t t')) as Hone.
  { intros Hm. destruct (find_anchor (strip_noise t lang) e) as [[a b]|x] eqn:E; [|intros (? & ? & ?)%Hfail; auto].
    intros [= <- <-]. split; [done|]. right. split; [done|].
    destruct (find_anchor_Ok _ _ _ E) as (l & Hl & Hlen & Hi & Hspan).
    exists l. split_and!; [done|done|]. destruct (mode e) eqn:Em; try done; exists a, b; split_and!; try done;
      unfold insert_at, splice; by rewrite Em. }
  destruct (mode e) eqn:Em.
  4:{ destruct (find_all_anchors (strip_noise t lang) e) as [l|x] eqn:E.
      2:{ destruct (Hfail x Ht) as (? & Hr & ->). split; [done|]. exists g, false. rewrite Hr. split_and!; try done. }
      apply bind_Ok in Ht as (t1 & Hr & [= <- <-]). split; [done|]. exists g, false. cbn [status]. split_and!; try done.
      destruct (find_all_anchors_Ok _ _ _ E) as [Hl Hlen]. exists l. rewrite Em. split_and!; try done.
      pose proof (finditer_spans _ _ _ Hl) as Hspans.
      destruct (strip_noise_blanked t lang) as [Hn _]. rewrite Hn in Hspans.
      destruct (replace_substituted _ _ _ _ _ _ Hr Hspans) as (news & Hnews & ->). by exists news. }
  all: destruct (Hone ltac:(done) Ht) as (? & [[Hr ->]|[Hr Hp]]); (split; [done|]); exists g, false; rewrite Hr; by split_and!.
Qed.
End Edits.

(** ** What the writes do *)

Section Tracked.
Context `{Regex} (root : string) (show_exn : exn -> string).
Context (t0 : tree) (ps : list FilePatch).

Definition target_of (p : FilePatch) : path := Operations.parts (fp_path p).
Definition is_target (p : path) : Prop := exists q, q ∈ ps /\ p = target_of q.
Definition is_above (p : path) : Prop := exists q, q ∈ ps /\ p ∈ above (target_of q).

(** What a node may become: a directory above a target, or the file of a target. *)
Definition tracks (p : path) (o o' : option node) : Prop :=
  o' = o \/ (o = None /\ o' = Some Directory /\ is_above p) \/
  (p <> [] /\ is_target p /\ (o = None \/ exists c, o = Some (File c)) /\ exists c, o' = Some (File c)).

Definition tracked (w : Disk) : Prop := forall p, tracks p (t0 !! p) (files w !! p).

(** The node is what it was, up to the ends of its lines. *)
Definition put_back (p : path) (w : Disk) : Prop :=
  match t0 !! p with
  | Some (File c) => files w !! p = Some (File c) \/ files w !! p = Some (File (universal c))
  | o => files w !! p = o \/ (o = None /\ files w !! p = Some Directory /\ is_above p)
  end.

Lemma tracks_set_file p o o' c :
  tracks p o o' -> p <> [] -> is_target p -> (o' = None \/ exists c', o' = Some (File c')) -> tracks p o (Some (File c)).
Proof. unfold tracks. naive_solver. Qed.

Lemma tracked_faults w fs : tracked w -> tracked (mkDisk (files w) fs).
Proof. done. Qed.

Lemma tracked_file w p c :
  tracked w -> p <> [] -> is_target p -> (files w !! p = None \/ exists c', files w !! p = Some (File c')) ->
  tracked (mkDisk (<[p := File c]> (files w)) (faults w)).
Proof.
  intros Hw Hp Ht Hn q. cbn. destruct (decide (p = q)) as [->|Hne]; [rewrite lookup_insert_eq|by rewrite lookup_insert_ne].
  by eapply tracks_set_file.
Qed.


Lemma write_file_Ok p s w u w' : write_file p s w = (Ok u, w') -> files w' = <[p := File s]> (files w).
Proof.
  unfold write_file. unfold mbind at 1, stm_bind at 1, get.
  destruct (node_at (files w) p) as [[c0| |]|] eqn:E; try done.
  all: unfold mbind at 1, stm_bind at 1; destruct (next_fault w) as [r1 w1] eqn:Ef;
    destruct (next_fault_run _ _ _ Ef) as ([f|] & -> & Hf); unfold set_node, modify, mbind, stm_bind, raise, mret, stm_ret;
    [by destruct (left f)|]; intros [= <- <-]; cbn; by rewrite Hf.
Qed.

Lemma write_file_tracked p s : is_target p -> keeps tracked (write_file p s).
Proof.
  intros Ht w r w' Hw [Hf|(Hp & Hn & c & Hf & _)]%write_file_run.
  - intros q. rewrite Hf. apply Hw.
  - intros q. rewrite Hf. by apply (tracked_file w p c).
Qed.


Lemma make_dirs_tracked l : (forall p, p ∈ l -> is_above p) -> keeps tracked (iterM make_dir l).
Proof.
  induction l as [|p l IH]; intros Hl; cbn [iterM]; [apply keeps_ret|].
  apply keeps_bind; [|intros u; apply IH; intros; apply Hl; set_solver].
  intros w r w' Hw [Hf|[Hn Hf]]%make_dir_run; intros q; rewrite Hf; [apply Hw|].
  destruct (decide (p = q)) as [->|Hne]; [rewrite lookup_insert_eq|rewrite lookup_insert_ne by done; apply Hw].
  specialize (Hw q). rewrite Hn in Hw. right. left. split_and!; [|done|apply Hl; set_solver].
  unfold tracks in Hw. naive_solver.
Qed.

Lemma resolve_Ok t rel p : resolve_contained_target root t rel = Ok p -> p = Operations.parts rel.
Proof.
  unfold resolve_contained_target. destruct (blank rel); [done|]. destruct (Operations.is_absolute rel); [done|].
  destruct (str_in _ _); [done|]. destruct (List.find _ _); [done|]. destruct (bool_decide _); [done|]. by intros [= <-].
Qed.

Lemma apply_patch_tracked p dry ts : p ∈ ps -> keeps tracked (apply_patch root p dry ts).
Proof.
  intros Hp. apply (keeps_hoare _ _ (fun _ => tracked)); [|done]. unfold apply_patch.
  apply hoare_skip; [apply keeps_get|intros w|done].
  apply hoare_lift; [|done]. intros target ->%resolve_Ok. fold (target_of p).
  apply hoare_lift; [|done]. intros [original|r] _; [|apply hoare_keeps, keeps_ret].
  apply hoare_lift; [|done]. intros [t rs] _. apply hoare_skip; [|intros u; apply hoare_keeps, keeps_ret|done].
  destruct (_ && _); [|apply keeps_ret]. apply keeps_bind; [|intros _; apply write_file_tracked; by exists p].
  destruct (create p); [|apply keeps_ret]. apply make_dirs_tracked. intros q Hq. by exists p.
Qed.

Lemma real_pass_tracked l : (forall p, p ∈ l -> p ∈ ps) -> keeps tracked (real_pass root l).
Proof.
  induction l as [|p l IH]; intros Hl; cbn [real_pass]; [apply keeps_ret|].
  apply keeps_bind; [apply apply_patch_tracked, Hl; by left|intros [r ts]].
  apply keeps_bind; [|intros; apply keeps_ret]. apply IH. intros; apply Hl; by right.
Qed.

(** ** Rolling back *)

Lemma put_back_set p q c w : p <> q -> put_back q w -> put_back q (mkDisk (<[p := c]> (files w)) (faults w)).
Proof. intros Hne. unfold put_back. cbn. by rewrite lookup_insert_ne. Qed.

(** The snapshot of a target. *)
Definition taken (b : path * option string) : Prop := is_target b.1 /\ b.2 = read_text t0 b.1.



Lemma unlink_run p w r w' : unlink p w = (r, w') ->
  (files w' = files w /\ is_ok r = false) \/ (r = Ok tt /\ files w' = delete p (files w)).
Proof.
  unfold unlink, mbind, stm_bind. destruct (next_fault w) as [r1 w1] eqn:Ef.
  destruct (next_fault_run _ _ _ Ef) as ([f|] & -> & Hf); intros [= <- <-]; [by left|]. right. cbn. by rewrite Hf.
Qed.

(** Restoring one file puts it back, if it does not fail, and takes nothing back
    from the others. *)
Lemma restore_one_spec b w r w' :
  taken b -> tracked w -> restore_one b w = (r, w') ->
  tracked w' /\ (is_ok r = true -> put_back b.1 w') /\
  (forall q, (q <> b.1 \/ is_ok r = true) -> put_back q w -> put_back q w').
Proof.
  intros [Ht Hb] Hw. assert (forall w1, files w1 = files w -> tracked w1 /\ forall q, put_back q w -> put_back q w1) as Hsame.
  { intros w1 Hf. unfold tracked, put_back. by rewrite Hf. }
  unfold restore_one. destruct (b.2) as [original|] eqn:Eb.
  - symmetry in Hb. apply read_text_Some in Hb as (c & Hc & ->). intros Hrun.
    pose proof (write_file_tracked _ _ Ht _ _ _ Hw Hrun) as Hw'. split; [done|].
    assert (is_ok r = true -> put_back b.1 w') as Hback.
    { destruct r as [u|]; [|done]. intros _. apply write_file_Ok in Hrun. unfold put_back. rewrite Hc, Hrun.
      rewrite lookup_insert_eq. by right. }
    split; [done|]. intros q Hq Hpq. destruct (decide (q = b.1)) as [->|Hne]; [apply Hback; tauto|].
    apply write_file_run in Hrun as [Hf|(_ & _ & c' & Hf & _)]; [by apply Hsame|].
    unfold put_back. rewrite Hf, lookup_insert_ne by done. exact Hpq.
  - unfold mbind, stm_bind, get. destruct (is_file (files w) b.1) eqn:Hfile.
    + assert (exists c, files w !! b.1 = Some (File c) /\ b.1 <> []) as (c & Hc & Hne).
      { unfold is_file in Hfile. destruct (b.1) as [|x p]; [done|]. cbn in Hfile.
        destruct (files w !! (x :: p)) as [[c| |]|]; try done. by exists c. }
      assert (t0 !! b.1 = None) as H0.
      { symmetry in Hb. apply read_text_None in Hb as [?|Hb]; [done|]. specialize (Hw b.1). rewrite Hc in Hw.
        unfold tracks in Hw. naive_solver. }
      intros [[Hf Hr]|[-> Hf]]%unlink_run.
      * destruct (Hsame w' Hf) as [? Hq]. split; [done|]. split; [by rewrite Hr|]. auto.
      * assert (put_back b.1 w') as Hback by (unfold put_back; rewrite H0, Hf, lookup_delete_eq; by left).
        split; [|split; [done|]].
        -- intros q. rewrite Hf. destruct (decide (b.1 = q)) as [<-|Hq]; [rewrite lookup_delete_eq, H0; by left|].
           rewrite lookup_delete_ne by done. apply Hw.
        -- intros q _ Hpq. destruct (decide (b.1 = q)) as [<-|Hq]; [done|]. unfold put_back.
           rewrite Hf, lookup_delete_ne by done. exact Hpq.
    + intros [= <- <-]. split; [done|]. split; [|by intros]. intros _. unfold put_back.
      symmetry in Hb. specialize (Hw b.1).
      assert (b.1 = [] \/ forall c, files w !! b.1 <> Some (File c)) as Hnf.
      { unfold is_file in Hfile. destruct (b.1) as [|x p]; [by left|]. right. intros c Hc. cbn in Hfile. by rewrite Hc in Hfile. }
      unfold tracks in Hw. destruct (t0 !! b.1) as [[c| |]|] eqn:E0; naive_solver.
Qed.

Lemma restore_each_spec bs qs w r w' :
  Forall taken bs -> tracked w -> Forall (fun q => put_back q w) qs -> restore_each bs w = (r, w') ->
  tracked w' /\ (r = Ok [] -> Forall (fun q => put_back q w') (qs ++ map fst bs)).
Proof.
  revert qs w r w'. induction bs as [|b bs IH]; intros qs w r w' Hbs Hw Hqs; cbn [restore_each].
  { intros [= <- <-]. split; [done|]. intros _. by rewrite app_nil_r. }
  apply Forall_cons in Hbs as [Hb Hbs]. destruct (restore_one b w) as [[u|e] w1] eqn:E.
  - destruct (restore_one_spec _ _ _ _ Hb Hw E) as (Hw1 & Hback & Hkeep). intros Hrun.
    destruct (IH (qs ++ [b.1]) w1 r w' Hbs Hw1) as [Hw' Hr]; [|exact Hrun|].
    + apply Forall_app. split; [|constructor; [by apply Hback|done]]. eapply Forall_impl; [exact Hqs|]. intros q. by apply Hkeep; right.
    + split; [done|]. intros Hnil. specialize (Hr Hnil). by rewrite <- app_assoc in Hr.
  - destruct (restore_one_spec _ _ _ _ Hb Hw E) as (Hw1 & _ & _). destruct (is_OSError e); [|by intros [= <- <-]].
    unfold mbind, stm_bind. destruct (restore_each bs w1) as [r2 w2] eqn:E2. intros Hrun.
    destruct (IH [] w1 r2 w2 Hbs Hw1 (Forall_nil_2 _) E2) as [Hw2 _].
    destruct r2; injection Hrun as <- <-; split; done.
Qed.

Lemma restore_each_err bs w e w' : restore_each bs w = (Err e, w') -> is_OSError e = false.
Proof.
  revert w e w'. induction bs as [|b bs IH]; intros w e w'; cbn [restore_each]; [done|].
  destruct (restore_one b w) as [[u|x] w1]; [apply IH|]. destruct (is_OSError x) eqn:Ex; [|by intros [= <- <-]].
  unfold mbind, stm_bind. destruct (restore_each bs w1) as [[l|y] w2] eqn:E2; [done|]. intros [= <- <-]. by eapply IH.
Qed.

Lemma put_back_other w p : tracked w -> ~ is_target p -> put_back p w.
Proof.
  intros Hw Hn. specialize (Hw p). unfold tracks in Hw. unfold put_back.
  destruct (t0 !! p) as [[c| |]|]; naive_solver.
Qed.

(** Whatever the snapshots cover is put back. *)
Lemma restore_spec backup w r w' :
  Forall taken backup -> (forall p, is_target p -> p ∈ map fst backup) -> tracked w ->
  restore show_exn backup w = (r, w') ->
  tracked w' /\
  ((r = Ok tt /\ forall p, put_back p w') \/
   (exists errors, errors <> [] /\ r = Err (rollback_error show_exn errors)) \/
   (exists e, r = Err e /\ is_OSError e = false)).
Proof.
  intros Hb Hall Hw. unfold restore, mbind, stm_bind. destruct (restore_each (rev backup) w) as [r1 w1] eqn:E.
  assert (Forall taken (rev backup)) as Hb' by by rewrite <- Permutation_rev.
  destruct (restore_each_spec _ [] _ _ _ Hb' Hw (Forall_nil_2 _) E) as [Hw1 Hr].
  destruct r1 as [errors|e]; [|intros [= <- <-]; split; [done|]; right; right; exists e; by split; [|eapply restore_each_err]].
  case_bool_decide as Hnil; intros [= <- <-]; (split; [done|]); [left|right; left; by exists errors].
  split; [done|]. intros p. subst errors. specialize (Hr eq_refl). cbn [app] in Hr. rewrite Forall_forall in Hr.
  destruct (decide (p ∈ map fst backup)) as [Hin|Hout]; [|apply put_back_other; [done|by intros ?%Hall]].
  apply Hr. rewrite map_rev. by rewrite <- Permutation_rev.
Qed.

Lemma elem_of_touched_paths seen l rel :
  rel ∈ touched_paths seen l <-> rel ∈ map fp_path l /\ ~ rel ∈ seen.
Proof.
  revert seen. induction l as [|p l IH]; intros seen; cbn [touched_paths map]; [set_solver|].
  destruct (str_in (fp_path p) seen) eqn:E.
  - apply str_in_true in E. rewrite IH, elem_of_cons. naive_solver.
  - assert (~ fp_path p ∈ seen) as Hn by (by rewrite <- str_in_true, E).
    rewrite !elem_of_cons, IH, not_elem_of_cons. destruct (decide (rel = fp_path p)) as [->|]; naive_solver.
Qed.

Lemma snapshots_taken backup :
  mapR (snapshot root t0) (touched_paths [] ps) = Ok backup ->
  Forall taken backup /\ forall p, is_target p -> p ∈ map fst backup.
Proof.
  intros Hb%mapR_Ok.
  assert (forall rel b, snapshot root t0 rel = Ok b -> b = (Operations.parts rel, read_text t0 (Operations.parts rel))) as Hsnap.
  { intros rel b. unfold snapshot. intros (target & ->%resolve_Ok & [= <-])%bind_Ok. done. }
  split.
  - apply Forall_forall. intros b Hin. apply list_elem_of_lookup in Hin as [i Hi].
    destruct (Forall2_lookup_r _ _ _ _ _ Hb Hi) as (rel & Hrel & ->%Hsnap). split; [|done]. cbn [fst].
    apply list_elem_of_lookup_2, elem_of_touched_paths in Hrel as [(p & -> & Hp)%list_elem_of_fmap _]. by exists p.
  - intros p (q & Hq & ->). assert (fp_path q ∈ touched_paths [] ps) as Hin.
    { apply elem_of_touched_paths. split; [by apply list_elem_of_fmap_2|set_solver]. }
    apply list_elem_of_lookup in Hin as [i Hi]. destruct (Forall2_lookup_l _ _ _ _ _ Hb Hi) as (b & Hbi & ->%Hsnap).
    apply list_elem_of_fmap. eexists. split; [|by eapply list_elem_of_lookup_2]. done.
Qed.

(** Writes fail with an [OSError]. *)
Definition io (w : Disk) : Prop := Forall (fun f => forall x, f = Some x -> is_OSError (raised x) = true) (faults w).

Lemma next_fault_io w r w' : io w -> next_fault w = (r, w') ->
  io w' /\ forall x, r = Ok (Some x) -> is_OSError (raised x) = true.
Proof.
  unfold next_fault, io. destruct (faults w) as [|f fs] eqn:E; intros Hw [= <- <-].
  - rewrite E. by split.
  - apply Forall_cons in Hw as [Hf Hw]. split; [done|]. intros x [= ->]. by apply Hf.
Qed.

Definition io_post {A} (r : res A) (w : Disk) : Prop := io w /\ forall e, r = Err e -> is_OSError e = true.

Lemma write_file_io p s : hoare io (write_file p s) io_post.
Proof.
  intros w r w' Hw. unfold write_file. unfold mbind at 1, stm_bind at 1, get.
  destruct (node_at (files w) p) as [[c0| |]|]; try (intros [= <- <-]; split; [done|by intros e [= <-]]).
  all: unfold mbind at 1, stm_bind at 1; destruct (next_fault w) as [r1 w1] eqn:Ef;
    destruct (next_fault_io _ _ _ Hw Ef) as [Hio Hx];
    destruct (next_fault_run _ _ _ Ef) as ([f|] & -> & _); unfold set_node, modify, mbind, stm_bind, raise, mret, stm_ret;
    try destruct (left f); intros [= <- <-]; (split; [exact Hio|]); try done; intros e [= <-]; by apply Hx.
Qed.

Lemma unlink_io p : hoare io (unlink p) io_post.
Proof.
  intros w r w' Hw. unfold unlink, mbind, stm_bind. destruct (next_fault w) as [r1 w1] eqn:Ef.
  destruct (next_fault_io _ _ _ Hw Ef) as [Hio Hx]. destruct (next_fault_run _ _ _ Ef) as ([f|] & -> & _);
    intros [= <- <-]; (split; [exact Hio|]); [|done]. intros e [= <-]. by apply Hx.
Qed.

Lemma restore_one_io b : hoare io (restore_one b) io_post.
Proof.
  unfold restore_one. destruct (b.2); [apply write_file_io|]. intros w r w' Hw. unfold mbind, stm_bind, get.
  destruct (is_file _ _); [by apply unlink_io|]. by intros [= <- <-].
Qed.

Lemma restore_each_io bs w r w' : io w -> restore_each bs w = (r, w') -> exists errors, r = Ok errors.
Proof.
  revert w r w'. induction bs as [|b bs IH]; intros w r w' Hw; cbn [restore_each]; [intros [= <- _]; by eexists|].
  destruct (restore_one b w) as [r1 w1] eqn:E. destruct (restore_one_io b w _ _ Hw E) as [Hw1 He].
  destruct r1 as [u|e]; [by apply IH|]. rewrite (He e eq_refl). unfold mbind, stm_bind.
  destruct (restore_each bs w1) as [r2 w2] eqn:E2. destruct (IH _ _ _ Hw1 E2) as [l ->]. intros [= <- _]. by eexists.
Qed.

Lemma make_dir_io p : keeps io (make_dir p).
Proof.
  intros w r w' Hw. unfold make_dir. unfold mbind at 1, stm_bind at 1, get.
  destruct (node_at (files w) p) as [[c0| |]|]; try by intros [= <- <-].
  unfold mbind, stm_bind. destruct (next_fault w) as [r1 w1] eqn:Ef.
  destruct (next_fault_io _ _ _ Hw Ef) as [Hio _]. destruct (next_fault_run _ _ _ Ef) as ([f|] & -> & _); by intros [= <- <-].
Qed.

Lemma apply_patch_io p dry ts : keeps io (apply_patch root p dry ts).
Proof.
  unfold apply_patch. apply keeps_bind; [apply keeps_get|intros w]. do 2 (apply keeps_bind; [apply keeps_lift|intros ?]).
  destruct a0 as [original|r]; [|apply keeps_ret]. apply keeps_bind; [apply keeps_lift|intros [t rs]].
  apply keeps_bind; [|intros; apply keeps_ret]. destruct (_ && _); [|apply keeps_ret].
  apply keeps_bind; [destruct (create p); [apply keeps_iterM; intros; apply make_dir_io|apply keeps_ret]|intros _].
  eapply keeps_hoare; [apply write_file_io|by intros ? ? []].
Qed.

Lemma real_pass_io l : keeps io (real_pass root l).
Proof.
  induction l as [|p l IH]; cbn [real_pass]; [apply keeps_ret|].
  apply keeps_bind; [apply apply_patch_io|intros [r ts]]. apply keeps_bind; [exact IH|intros; apply keeps_ret].
Qed.

(** How a run ends: complete, undone, or with the error of a rollback that
    could not be completed; or with an exception that no handler catches. *)
Definition ending (r : res (list PatchResult)) (w : Disk) : Prop :=
  (exists rs, r = Ok rs /\ forallb ok rs = true) \/
  (forall p, put_back p w) \/
  (exists errors, errors <> [] /\ r = Err (rollback_error show_exn errors)) \/
  (exists e, r = Err e /\ is_Exception e = false).

Lemma restore_ending backup w r w' :
  mapR (snapshot root t0) (touched_paths [] ps) = Ok backup -> tracked w -> io w ->
  restore show_exn backup w = (r, w') ->
  tracked w' /\ ((forall p, put_back p w') \/ exists errors, errors <> [] /\ r = Err (rollback_error show_exn errors)).
Proof.
  intros [Hb Hall]%snapshots_taken Hw Hio Hrun. pose proof Hrun as Hrun'.
  apply (restore_spec _ _ _ _ Hb Hall Hw) in Hrun as [Hw' [[_ H1]|[H1|(e & -> & He)]]]; (split; [done|]); auto.
  unfold restore, mbind, stm_bind in Hrun'. destruct (restore_each (rev backup) w) as [r1 w1] eqn:E.
  destruct (restore_each_io _ _ _ _ Hio E) as [errors ->]. case_bool_decide; [done|].
  injection Hrun' as <- <-. right. by exists errors.
Qed.

Lemma put_back_start w : files w = t0 -> forall p, put_back p w.
Proof. intros Hf p. unfold put_back. rewrite Hf. destruct (t0 !! p) as [[]|]; auto. Qed.

Lemma tracked_start w : files w = t0 -> tracked w.
Proof. intros Hf p. left. by rewrite Hf. Qed.

Lemma write_all_ending w r w' :
  files w = t0 -> io w -> write_all root show_exn ps w = (r, w') -> tracked w' /\ ending r w'.
Proof.
  intros Hf Hio. unfold write_all. unfold mbind at 1, stm_bind at 1, get. unfold mbind at 1, stm_bind at 1, lift.
  rewrite Hf. destruct (mapR (snapshot root t0) (touched_paths [] ps)) as [backup|e] eqn:Eb.
  2:{ intros [= <- <-]. split; [by apply tracked_start|]. right. left. by apply put_back_start. }
  unfold pass_or_restore. destruct (real_pass root ps w) as [r1 w1] eqn:E.
  pose proof (real_pass_tracked ps (fun _ H => H) _ _ _ (tracked_start w Hf) E) as Hw1.
  pose proof (real_pass_io ps _ _ _ Hio E) as Hio1.
  destruct r1 as [rs|e].
  - unfold mbind, stm_bind. destruct (forallb ok rs) eqn:Hok.
    { intros [= <- <-]. split; [done|]. left. by exists rs. }
    destruct (restore show_exn backup w1) as [r2 w2] eqn:E2.
    destruct (restore_ending _ _ _ _ Eb Hw1 Hio1 E2) as [Hw2 [H1|(errors & Hne & ->)]].
    + destruct r2; intros [= <- <-]; (split; [done|]); right; by left.
    + intros [= <- <-]. split; [done|]. right. right. left. by exists errors.
  - destruct (is_Exception e) eqn:Hex; [|intros [= <- <-]; split; [done|]; right; right; right; by exists e].
    unfold mbind, stm_bind. destruct (restore show_exn backup w1) as [r2 w2] eqn:E2.
    destruct (restore_ending _ _ _ _ Eb Hw1 Hio1 E2) as [Hw2 [H1|(errors & Hne & ->)]].
    + destruct r2; intros [= <- <-]; (split; [done|]); right; by left.
    + intros [= <- <-]. split; [done|]. right. right. left. by exists errors.
Qed.
End Tracked.


(** ** The trial *)

Section All.
Context `{Regex} (root : string) (show_exn : exn -> string).

Lemma apply_patch_dry p ts w r w' : apply_patch root p true ts w = (r, w') -> w' = w.
Proof.
  unfold apply_patch. unfold mbind at 1, stm_bind at 1, get.
  assert (forall A (P : stm Disk A), (forall w r w', P w = (r, w') -> w' = w) <-> (forall w0, keeps (fun w => w = w0) P)) as Hk.
  { intros A P. split; [intros HP w0 w1 r1 w2 ->; apply HP|]. intros HP w1 r1 w2 Hr. by eapply (HP w1). }
  apply (proj2 (Hk _ _)). intros w0. do 2 (apply keeps_bind; [apply keeps_lift|intros ?]).
  destruct a0 as [original|x]; [|apply keeps_ret]. apply keeps_bind; [apply keeps_lift|intros [t rs]].
  rewrite andb_false_r. apply keeps_bind; [apply keeps_ret|intros; apply keeps_ret].
Qed.

Lemma trial_pass_dry ps ts w r w' : trial_pass root ps ts w = (r, w') -> w' = w.
Proof.
  revert ts w r w'. induction ps as [|p ps IH]; intros ts w r w'; cbn [trial_pass]; [by intros [= <- <-]|].
  unfold mbind at 1, stm_bind at 1. destruct (apply_patch root p true (Some ts) w) as [[[r1 ts1]|e] w1] eqn:E;
    apply apply_patch_dry in E as ->; [|by intros [= <- <-]].
  unfold mbind, stm_bind. destruct (trial_pass root ps (default ∅ ts1) w) as [[[rs ts2]|e] w2] eqn:E2;
    apply IH in E2 as ->; by intros [= <- <-].
Qed.


(** ** The second pass does what the trial did *)

Lemma universal_lf s : no_cr (universal s) = true.
Proof.
  assert (forall n s, String.length s <= n -> no_cr (universal s) = true) as Hn.
  { induction n as [|n IH]; intros [|c t] Hl; cbn in Hl; try done; try lia. cbn [universal].
    destruct (is_cr c) eqn:Ec.
    - cbn. destruct t as [|d t]; [done|]. cbn in Hl. destruct (is_lf d); apply IH; cbn; lia.
    - cbn. rewrite Ec. cbn. apply IH. lia. }
  by apply (Hn (String.length s)).
Qed.

(** The edits of a patch write no carriage returns. *)
Definition lf_only (p : FilePatch) : Prop :=
  forall t t' rs, no_cr t = true -> apply_edits (dialect p) t (edits p) = Ok (t', rs) -> no_cr t' = true.

(** What the patches name: a file has one spelling, and a file that a patch
    creates is the business of that patch alone. *)
Record orderly (ps : list FilePatch) : Prop := {
  one_spelling : forall p q, p ∈ ps -> q ∈ ps -> target_of p = target_of q -> fp_path p = fp_path q;
  created_once : forall l1 p l2, ps = l1 ++ p :: l2 -> create p = true -> ~ fp_path p ∈ map fp_path (l1 ++ l2);
  writes_lf : forall p, p ∈ ps -> lf_only p;
}.

Context (ps : list FilePatch) (t0 : tree) (Hps : orderly ps).

(** The file is as the trial has it. *)
Definition landed (ts : gmap string string) (w : Disk) (p : FilePatch) : Prop :=
  forall t, ts !! fp_path p = Some t ->
    no_cr t = true /\ (read_text (files w) (target_of p) = Some t \/ (t = "" /\ read_text (files w) (target_of p) = None)).

(** A patch yet to be applied finds what it found in the trial. *)
Definition awaits (ts : gmap string string) (w : Disk) (p : FilePatch) : Prop :=
  match ts !! fp_path p with
  | Some t => read_text (files w) (target_of p) = Some t /\ create p = false
  | None => read_text (files w) (target_of p) = read_text t0 (target_of p)
  end.

Record in_step (done rest : list FilePatch) (ts : gmap string string) (w : Disk) : Prop := {
  is_tracked : tracked t0 ps w;
  have_landed : forall p, p ∈ ps -> landed ts w p;
  are_awaiting : forall p, p ∈ rest -> awaits ts w p;
  only_done : forall p, p ∈ ps -> is_Some (ts !! fp_path p) -> fp_path p ∈ map fp_path done;
}.

Lemma symlink_tracked w p : tracked t0 ps w ->
  bool_decide (node_at (files w) p = Some Symlink) = bool_decide (node_at t0 p = Some Symlink).
Proof.
  intros Hw. apply bool_decide_ext. destruct p as [|x p]; [done|]. cbn. 
  destruct (Hw (x :: p)) as [->|[(-> & -> & _)|(_ & _ & [->|[c ->]] & c' & ->)]]; by split.
Qed.

Lemma resolve_tracked w rel : tracked t0 ps w ->
  resolve_contained_target root (files w) rel = resolve_contained_target root t0 rel.
Proof.
  intros Hw. unfold resolve_contained_target.
  assert (forall l, List.find (fun q => bool_decide (node_at (files w) q = Some Symlink)) l
                  = List.find (fun q => bool_decide (node_at t0 q = Some Symlink)) l) as Hfind.
  { induction l as [|q l IH]; [reflexivity|]. cbn. by rewrite symlink_tracked, IH by done. }
  rewrite Hfind. by rewrite symlink_tracked.
Qed.

(** The trial and the second pass start an edit from the same text. *)
Lemma start_in_step done p rest ts w :
  in_step done (p :: rest) ts w ->
  start_text p (target_of p) (Some ts) t0 = start_text p (target_of p) None (files w).
Proof.
  intros Hw. unfold start_text. cbn. pose proof (are_awaiting _ _ _ _ Hw p ltac:(by left)) as Ha. unfold awaits in Ha.
  destruct (ts !! fp_path p) as [t|]; [|by rewrite Ha]. destruct Ha as [-> ->]. done.
Qed.

(** ** Reading after the writes *)

Lemma read_text_insert t p c q :
  p <> [] -> read_text (<[p := File c]> t) q = if decide (p = q) then Some (universal c) else read_text t q.
Proof.
  intros Hp. unfold read_text. destruct (decide (p = q)) as [<-|Hne].
  - destruct p; [done|]. cbn. by rewrite lookup_insert_eq.
  - destruct q; [done|]. cbn. by rewrite lookup_insert_ne.
Qed.

Lemma make_dirs_read l w r w' q :
  iterM make_dir l w = (r, w') -> read_text (files w') q = read_text (files w) q.
Proof.
  revert w r w'. induction l as [|p l IH]; intros w r w'; cbn [iterM]; [by intros [= <- <-]|].
  unfold mbind, stm_bind. destruct (make_dir p w) as [r1 w1] eqn:E.
  assert (read_text (files w1) q = read_text (files w) q) as Hq.
  { apply make_dir_run in E as [->|[Hn ->]]; [done|]. unfold read_text. destruct q as [|x q]; [done|]. cbn.
    destruct (decide (p = x :: q)) as [->|Hne]; [by rewrite lookup_insert_eq, Hn|by rewrite lookup_insert_ne]. }
  destruct r1; [|by intros [= <- <-]]. intros Hr. rewrite <- Hq. by eapply IH.
Qed.

Lemma write_file_nonempty p c w u w' : write_file p c w = (Ok u, w') -> p <> [].
Proof. by intros Hr ->. Qed.

(** The write of a changed file, with the directories above it. *)
Definition write_changed (p : FilePatch) (t : string) : stm Disk unit :=
  _ ← (if create p then iterM make_dir (above (target_of p)) else mret tt);
  write_file (target_of p) t.

Lemma write_changed_read p t w u w' q :
  no_cr t = true -> write_changed p t w = (Ok u, w') ->
  read_text (files w') q = if decide (target_of p = q) then Some t else read_text (files w) q.
Proof.
  intros Ht. unfold write_changed, mbind, stm_bind.
  destruct ((if create p then iterM make_dir (above (target_of p)) else mret tt) w) as [r1 w1] eqn:E.
  assert (forall q, read_text (files w1) q = read_text (files w) q) as Hq.
  { intros q0. destruct (create p); [by eapply make_dirs_read|]. by injection E as <- <-. }
  destruct r1; [|done]. intros Hr. pose proof (write_file_nonempty _ _ _ _ _ Hr) as Hne.
  apply write_file_Ok in Hr. rewrite Hr, read_text_insert, universal_no_cr, Hq by done. done.
Qed.

(** What an application makes of a text: the record, and the text. *)
Definition edited (p : FilePatch) (original t : string) (r : PatchResult) : Prop :=
  exists rs, apply_edits (dialect p) original (edits p) = Ok (t, rs) /\
    r = mkPatchResult (fp_path p) rs (negb (String.eqb t original)) /\ ok r = true.

Lemma trial_step p ts w r ts1 :
  apply_patch root p true (Some ts) w = (Ok (r, ts1), w) -> ok r = true ->
  exists original t, resolve_contained_target root (files w) (fp_path p) = Ok (target_of p) /\
    start_text p (target_of p) (Some ts) (files w) = Ok (inl original) /\ edited p original t r /\
    ts1 = Some (<[fp_path p := t]> ts).
Proof.
  unfold apply_patch. unfold mbind at 1, stm_bind at 1, get. unfold mbind at 1, stm_bind at 1, lift at 1.
  destruct (resolve_contained_target root (files w) (fp_path p)) as [target|e] eqn:Er; [|done].
  pose proof (resolve_Ok _ _ _ _ Er) as ->. fold (target_of p).
  unfold mbind at 1, stm_bind at 1, lift at 1.
  destruct (start_text p (target_of p) (Some ts) (files w)) as [[original|x]|e] eqn:Es; [| |done].
  2:{ intros [= <- <-]. unfold start_text in Es. cbn in Es.
      assert (status x = Failed) as Hx.
      { destruct (ts !! fp_path p); [done|]. destruct (read_text _ _).
        - destruct (create p); [|done]. apply bind_Ok in Es as ([] & _ & Es); [done|]. by injection Es as <-.
        - destruct (create p); [done|]. by injection Es as <-. }
      cbn. by rewrite Hx. }
  unfold mbind at 1, stm_bind at 1, lift at 1.
  destruct (apply_edits _ _ _) as [[t rs]|e] eqn:Ee; [|done]. rewrite andb_false_r. cbn. intros [= <- <-] Hok.
  exists original, t. split_and!; try done. by exists rs.
Qed.

(** Without failures the file that is there is written. *)
Lemma write_changed_quiet p t w original :
  create p = false -> faults w = [] -> read_text (files w) (target_of p) = Some original ->
  exists w', write_changed p t w = (Ok tt, w') /\ faults w' = [].
Proof.
  intros Hc Hq Hr. unfold write_changed. rewrite Hc. unfold mbind at 1, stm_bind at 1. cbn [mret stm_ret].
  unfold write_file, mret, stm_ret. unfold mbind at 1, stm_bind at 1, get.
  unfold read_text in Hr. destruct (node_at (files w) (target_of p)) as [[c| |]|]; try done.
  unfold mbind, stm_bind, next_fault. rewrite Hq. by eexists.
Qed.

Lemma real_step p ts w0 w r ts1 rr w' original t done rest :
  files w0 = t0 -> in_step done (p :: rest) ts w ->
  resolve_contained_target root (files w0) (fp_path p) = Ok (target_of p) ->
  start_text p (target_of p) (Some ts) (files w0) = Ok (inl original) -> edited p original t r ->
  ts1 = Some (<[fp_path p := t]> ts) ->
  apply_patch root p false None w = (rr, w') ->
  (is_ok rr = false /\ (faults w = [] -> create p = true)) \/
  (rr = Ok (r, None) /\ (faults w = [] -> create p = false -> faults w' = []) /\
   if changed r then write_changed p t w = (Ok tt, w') else w' = w).
Proof.
  intros Hf Hw Hr Hs (rs & Ee & Hres & Hok) ->. unfold apply_patch. unfold mbind at 1, stm_bind at 1, get.
  unfold mbind at 1, stm_bind at 1, lift at 1. rewrite (resolve_tracked _ _ (is_tracked _ _ _ _ Hw)), <- Hf, Hr.
  unfold mbind at 1, stm_bind at 1, lift at 1. rewrite Hf in Hs. rewrite (start_in_step _ _ _ _ _ Hw) in Hs. rewrite Hs.
  unfold mbind at 1, stm_bind at 1, lift at 1. rewrite Ee. rewrite <- Hres, Hok, andb_true_r. cbn [negb]. rewrite andb_true_r.
  assert (create p = false -> read_text (files w) (target_of p) = Some original) as Hread.
  { intros Hc. unfold start_text in Hs. cbn in Hs. rewrite Hc in Hs.
    destruct (read_text _ _); [by injection Hs as ->|done]. }
  destruct (changed r).
  - unfold mbind at 1, stm_bind at 1. fold (write_changed p t).
    assert (faults w = [] -> create p = false -> exists w1, write_changed p t w = (Ok tt, w1) /\ faults w1 = []) as Hquiet.
    { intros Hq Hc. by eapply write_changed_quiet; [..|apply Hread]. }
    destruct (write_changed p t w) as [[[]|e] w1]; intros [= <- <-].
    + right. split_and!; [done| |done]. intros Hq Hc. destruct (Hquiet Hq Hc) as (w2 & [= ->] & ?). done.
    + left. split; [done|]. intros Hq. apply not_false_is_true. intros Hc.
      by destruct (Hquiet Hq Hc) as (w2 & ? & _).
  - intros [= <- <-]. by right.
Qed.

Lemma start_read p w original :
  start_text p (target_of p) None (files w) = Ok (inl original) ->
  no_cr original = true /\
  (read_text (files w) (target_of p) = Some original \/
   (create p = true /\ original = "" /\ read_text (files w) (target_of p) = None)).
Proof.
  unfold start_text. cbn. destruct (read_text (files w) (target_of p)) as [s|] eqn:E.
  - pose proof E as (c & _ & ->)%read_text_Some. intros Hs. assert (original = universal c) as ->.
    { destruct (create p); [|by injection Hs as <-]. apply bind_Ok in Hs as ([] & _ & Hs); [by injection Hs as <-|done]. }
    split; [apply universal_lf|by left].
  - destruct (create p); [|done]. intros [= <-]. split; [done|by right].
Qed.

Lemma step_in_step done p rest ts w w' original t r :
  ps = done ++ p :: rest -> in_step done (p :: rest) ts w -> edited p original t r ->
  start_text p (target_of p) None (files w) = Ok (inl original) ->
  tracked t0 ps w' -> (if changed r then write_changed p t w = (Ok tt, w') else w' = w) ->
  in_step (done ++ [p]) rest (<[fp_path p := t]> ts) w'.
Proof.
  intros Hsplit Hw (rs & Ee & Hres & _) [Hcr Hread]%start_read Ht Hrun.
  assert (p ∈ ps) as Hp by (rewrite Hsplit; set_solver).
  pose proof (writes_lf _ Hps p Hp _ _ _ Hcr Ee) as Hcr'.
  (* what is read afterwards: the text at the target, nothing new elsewhere *)
  assert ((forall q, target_of p <> q -> read_text (files w') q = read_text (files w) q) /\
          (read_text (files w') (target_of p) = Some t \/
           (create p = true /\ t = "" /\ read_text (files w') (target_of p) = None))) as [Helse Hhere].
  { rewrite Hres in Hrun. cbn [changed] in Hrun. destruct (String.eqb_spec t original) as [->|]; cbn [negb] in Hrun.
    - subst w'. split; [done|]. destruct Hread as [?|(? & ? & ?)]; auto.
    - split; intros; rewrite (write_changed_read _ _ _ _ _ _ Hcr' Hrun); [by rewrite decide_False|].
      left. by rewrite decide_True. }
  assert (forall q, q ∈ ps -> fp_path q <> fp_path p -> target_of p <> target_of q) as Hother.
  { intros q Hq Hne He. apply Hne. symmetry. by apply (one_spelling _ Hps). }
  destruct Hw as [_ Hl Ha Hd]. split; [done|..].
  - intros q Hq t1. destruct (decide (fp_path q = fp_path p)) as [He|Hne].
    + rewrite He, lookup_insert_eq. intros [= <-]. split; [done|].
      replace (target_of q) with (target_of p) by (unfold target_of; congruence).
      destruct Hhere as [?|(? & ? & ?)]; auto.
    + rewrite lookup_insert_ne by done. rewrite Helse by by apply Hother. by apply Hl.
  - intros q Hq. unfold awaits. assert (q ∈ ps) as Hqps by (rewrite Hsplit; set_solver).
    destruct (decide (fp_path q = fp_path p)) as [He|Hne].
    + rewrite He, lookup_insert_eq. replace (target_of q) with (target_of p) by (unfold target_of; congruence).
      assert (forall x, x = p \/ x = q -> create x = false) as Hnc.
      { intros x Hx. apply not_true_is_false. intros Hc. destruct Hx as [->| ->].
        - apply (created_once _ Hps done p rest Hsplit Hc). rewrite <- He.
          rewrite map_app, elem_of_app. right. by apply list_elem_of_fmap_2.
        - apply list_elem_of_split in Hq as (l1 & l2 & ->).
          apply (created_once _ Hps (done ++ p :: l1) q l2); [by rewrite Hsplit, <- app_assoc|done|].
          rewrite He, !map_app. cbn [map]. set_solver. }
      split; [|apply Hnc; by right]. destruct Hhere as [?|(Hc & _ & _)]; [done|]. rewrite (Hnc p) in Hc; [done|by left].
    + rewrite lookup_insert_ne by done. rewrite Helse by by apply Hother. apply Ha. by right.
  - intros q Hq. rewrite map_app, elem_of_app. destruct (decide (fp_path q = fp_path p)) as [He|Hne].
    + intros _. right. rewrite He. by left.
    + rewrite lookup_insert_ne by done. intros Hs%Hd; [by left|done].
Qed.

Lemma trial_pass_keys l ts w rs ts' w' k :
  trial_pass root l ts w = (Ok (rs, ts'), w') -> is_Some (ts !! k) -> is_Some (ts' !! k).
Proof.
  revert ts w rs ts' w'. induction l as [|p l IH]; intros ts w rs ts' w'; cbn [trial_pass]; [by intros [= <- <- <-]|].
  unfold mbind at 1, stm_bind at 1. destruct (apply_patch root p true (Some ts) w) as [[[r ts1]|e] w1] eqn:E1; [|done].
  unfold mbind at 1, stm_bind at 1. destruct (trial_pass root l (default ∅ ts1) w1) as [[[trs ts2]|e] w2] eqn:E2; [|done].
  intros [= <- <- <-] Hk. eapply IH; [exact E2|].
  assert (ts1 = Some ts \/ exists t, ts1 = Some (<[fp_path p := t]> ts)) as Hts.
  { revert E1. unfold apply_patch. unfold mbind at 1, stm_bind at 1, get.
    unfold mbind at 1, stm_bind at 1, lift at 1. destruct (resolve_contained_target _ _ _); [|done].
    unfold mbind at 1, stm_bind at 1, lift at 1. destruct (start_text _ _ _ _) as [[original|x]|e]; [| |done].
    - unfold mbind at 1, stm_bind at 1, lift at 1. destruct (apply_edits _ _ _) as [[t rs']|e]; [|done].
      rewrite andb_false_r. cbn. intros [= <- <- <-]. right. by exists t.
    - intros [= <- <- <-]. by left. }
  destruct Hts as [->|[t ->]]; [done|]. cbn. destruct (decide (fp_path p = k)) as [->|Hne].
  - rewrite lookup_insert_eq. by eexists.
  - by rewrite lookup_insert_ne.
Qed.

Lemma passes_agree done rest ts w0 w trial ts' rr w' :
  ps = done ++ rest -> files w0 = t0 -> in_step done rest ts w ->
  trial_pass root rest ts w0 = (Ok (trial, ts'), w0) -> forallb ok trial = true ->
  real_pass root rest w = (rr, w') ->
  (is_ok rr = false /\ (faults w = [] -> exists p, p ∈ ps /\ create p = true)) \/
  (rr = Ok trial /\ in_step ps [] ts' w' /\ forall p, p ∈ rest -> is_Some (ts' !! fp_path p)).
Proof.
  intros Hsplit Hf. revert done ts w trial ts' rr w' Hsplit.
  induction rest as [|p rest IH]; intros done ts w trial ts' rr w' Hsplit Hw; cbn [trial_pass real_pass].
  { intros [= <- <-] _ [= <- <-]. right. rewrite app_nil_r in Hsplit. subst done. split_and!; try done. intros p Hp.
    by apply elem_of_nil in Hp. }
  unfold mbind at 1, stm_bind at 1. destruct (apply_patch root p true (Some ts) w0) as [[[r ts1]|e] w1] eqn:E1; [|done].
  pose proof (apply_patch_dry _ _ _ _ _ E1) as ->.
  unfold mbind at 1, stm_bind at 1. destruct (trial_pass root rest (default ∅ ts1) w0) as [[[trs ts2]|e] w1] eqn:E2; [|done].
  intros [= <- <- ->] Hok. cbn [forallb] in Hok. apply andb_true_iff in Hok as [Hr Hok].
  destruct (trial_step _ _ _ _ _ E1 Hr) as (original & t & Hres & Hs & Hed & ->). cbn [default] in E2.
  unfold mbind at 1, stm_bind at 1. destruct (apply_patch root p false None w) as [rr1 w2] eqn:E3.
  pose proof (apply_patch_tracked root t0 ps p false None ltac:(rewrite Hsplit; set_solver) _ _ _ (is_tracked _ _ _ _ Hw) E3) as Ht2.
  destruct (real_step _ _ _ _ _ _ _ _ _ _ _ _ Hf Hw Hres Hs Hed eq_refl E3) as [[Hbad Hq]|(-> & Hq & Hrun)].
  { destruct rr1; [done|]. intros [= <- <-]. left. split; [done|]. intros Hn. exists p.
    split; [rewrite Hsplit; set_solver|by apply Hq]. }
  rewrite Hf in Hs. rewrite (start_in_step _ _ _ _ _ Hw) in Hs.
  pose proof (step_in_step _ _ _ _ _ _ _ _ _ Hsplit Hw Hed Hs Ht2 Hrun) as Hw2.
  unfold mbind, stm_bind. destruct (real_pass root rest w2) as [rr2 w3] eqn:E4.
  destruct (IH (done ++ [p]) _ _ _ _ _ _ ltac:(by rewrite <- app_assoc) Hw2 E2 Hok E4) as [[Hbad Hq2]|(-> & Hw3 & Hall)].
  { destruct rr2; [done|]. intros [= <- <-]. left. split; [done|]. intros Hn.
    destruct (create p) eqn:Hc; [exists p; split; [rewrite Hsplit; set_solver|done]|]. by apply Hq2, Hq. }
  intros [= <- <-]. right. split; [done|]. split; [done|]. intros q [->|Hin]%elem_of_cons; [|by apply Hall].
  eapply trial_pass_keys; [exact E2|]. cbn; rewrite lookup_insert_eq. by eexists.
Qed.

Lemma start_together w : files w = t0 -> in_step [] ps ∅ w.
Proof.
  intros Hf. split; [by apply tracked_start|..].
  - intros p _ t. by rewrite lookup_empty.
  - intros p _. unfold awaits. by rewrite lookup_empty, Hf.
  - intros p _. rewrite lookup_empty. by intros [? ?].
Qed.

Lemma trial_resolves l ts w rs ts' p :
  trial_pass root l ts w = (Ok (rs, ts'), w) -> p ∈ l -> is_ok (resolve_contained_target root (files w) (fp_path p)) = true.
Proof.
  revert ts rs ts'. induction l as [|q l IH]; intros ts rs ts'; cbn [trial_pass]; [by intros _ ?%elem_of_nil|].
  unfold mbind at 1, stm_bind at 1. destruct (apply_patch root q true (Some ts) w) as [[[r ts1]|e] w1] eqn:E1; [|done].
  pose proof (apply_patch_dry _ _ _ _ _ E1) as ->.
  unfold mbind at 1, stm_bind at 1. destruct (trial_pass root l (default ∅ ts1) w) as [[[trs ts2]|e] w2] eqn:E2; [|done].
  intros [= <- <- ->] [->|Hp]%elem_of_cons; [|by eapply IH].
  revert E1. unfold apply_patch. unfold mbind at 1, stm_bind at 1, get. unfold mbind at 1, stm_bind at 1, lift at 1.
  by destruct (resolve_contained_target _ _ _).
Qed.

Lemma snapshots_ok l : (forall p, p ∈ l -> is_ok (resolve_contained_target root t0 (fp_path p)) = true) ->
  exists backup, mapR (snapshot root t0) (touched_paths [] l) = Ok backup.
Proof.
  intros H1. assert (forall rels, (forall rel, rel ∈ rels -> rel ∈ map fp_path l) ->
    exists backup, mapR (snapshot root t0) rels = Ok backup) as Hm.
  { induction rels as [|rel rels IH]; intros Hin; [by exists []|]. cbn [mapR].
    assert (rel ∈ map fp_path l) as (p & -> & Hp)%list_elem_of_fmap by (apply Hin; by left). specialize (H1 p Hp).
    assert (exists b, snapshot root t0 (fp_path p) = Ok b) as [b Hb].
    { unfold snapshot. destruct (resolve_contained_target root t0 (fp_path p)); [by eexists|done]. }
    destruct IH as [bs Hbs]; [intros; apply Hin; by right|]. rewrite Hb, Hbs. by eexists. }
  apply Hm. intros rel [Hr _]%elem_of_touched_paths. done.
Qed.

End All.

(** C23 What the trial shows is what is done.  When every patch could be placed
    in the trial, the second pass either raises, or gives exactly the results of
    the trial and leaves every file with the text the trial arrived at, so that
    nothing is rolled back because an edit lost its anchor in between; and it
    does not raise if no write fails and no patch creates a file.  This needs a
    file to be spelled in one way, a created file to be the business of one
    patch, and edits that write no carriage returns. *)
Theorem apply_all_as_tried `{Regex} root show_exn ps w trial ts r w' :
  orderly ps -> trial_pass root ps ∅ w = (Ok (trial, ts), w) -> forallb ok trial = true ->
  apply_all root show_exn ps false None w = (r, w') ->
  (r = Ok trial /\ forall p, p ∈ ps -> exists t, ts !! fp_path p = Some t /\
     (read_text (files w') (target_of p) = Some t \/ (t = "" /\ read_text (files w') (target_of p) = None))) \/
  (is_ok r = false /\ (faults w = [] -> exists p, p ∈ ps /\ create p = true)).
Proof.
  intros Hps Ht Hok. unfold apply_all. cbn [default]. unfold mbind at 1, stm_bind at 1.
  change (default ∅ None) with (∅ : gmap string string). rewrite Ht, Hok. cbn [negb orb].
  unfold write_all. unfold mbind at 1, stm_bind at 1, get. unfold mbind at 1, stm_bind at 1, lift.
  destruct (snapshots_ok root (files w) ps) as [backup ->]; [intros p; by eapply trial_resolves|].
  unfold pass_or_restore. destruct (real_pass root ps w) as [rr w1] eqn:E.
  destruct (passes_agree root show_exn ps (files w) Hps [] ps ∅ w w trial ts rr w1 eq_refl eq_refl
    (start_together ps (files w) w eq_refl) Ht Hok E) as [[Hbad Hq]|(-> & Hw & Hall)].
  - destruct rr as [?|e]; [done|]. destruct (is_Exception e).
    + unfold mbind, stm_bind. destruct (restore show_exn backup w1) as [[] w2]; intros [= <- <-]; right; by split.
    + intros [= <- <-]. right. by split.
  - rewrite Hok. intros [= <- <-]. left. split; [done|]. intros p Hp. destruct (Hall p Hp) as [t Hts].
    exists t. split; [done|]. by apply (have_landed _ _ _ _ _ _ Hw p Hp t Hts).
Qed.


Lemma guard_text e g : guard e = None -> guard_pattern e = Ok g ->
  exists l, g = re_escape l /\ l <> "" /\ substring l (text e).
Proof.
  intros Hn. unfold guard_pattern. rewrite Hn. destruct (List.find _ _) as [l|] eqn:E; [|done].
  intros [= <-]. apply List.find_some in E as [Hin Hb]. exists (py_strip l). split; [done|]. split.
  - intros Hs. unfold blank in Hb. by rewrite Hs in Hb.
  - eapply substring_trans; [apply strip_substring|]. apply splitlines_substring. by apply list_elem_of_In.
Qed.

(** An edit with the guard it is given by default is idempotent: once it
    has been applied, the first line of what it wrote is found again, and
    applying it to the text it made changes nothing. *)
Theorem edit_idempotent `{RegexLaws} lang lang' t e t' r :
  guard e = None -> mode e <> ReplaceAll -> apply_edit lang t e = Ok (t', r) -> status r = Applied ->
  exists r', apply_edit lang' t' e = Ok (t', r') /\ status r' = AlreadyApplied.
Proof.
  intros Hguard Hmode Hrun Hst. apply apply_edit_cases in Hrun as (_ & g & there & Hg & _ & Hr). rewrite Hst in Hr.
  destruct Hr as (_ & l & _ & _ & Hplace). destruct (guard_text e g Hguard Hg) as (line & -> & Hne & Hsub).
  assert (substring (text e) t') as Ht.
  { destruct (mode e); [..|done]; destruct Hplace as (a & b & _ & _ & ->); apply substring_mid. }
  destruct (finditer_escape line t' Hne) as (l' & Hl' & Hfound).
  unfold apply_edit. rewrite Hg. cbn [mbind result_bind]. unfold search. rewrite Hl'. cbn [mbind result_bind].
  rewrite bool_decide_eq_false_2 by (apply Hfound; by eapply substring_trans). cbn [negb]. by eexists.
Qed.

(** ** Literal patterns *)

(** The regular expressions this instance knows: escaped texts, and the start of
    the text.  It is what the patches that create or extend a table need. *)
Fixpoint unescape (p : string) : option string :=
  match p with
  | EmptyString => Some ""
  | String c p' =>
      if Ascii.eqb c backslash then
        match p' with
        | String d p'' => if is_special d then String d <$> unescape p'' else None
        | EmptyString => None
        end
      else if is_special c then None else String c <$> unescape p'
  end.

Definition at_start : string := String backslash "A".

Definition occurs (lit s : string) : option nat := if startswith lit s then Some (String.length lit) else None.

Definition literal_finditer (p t : string) : res (list (nat * nat)) :=
  if String.eqb p at_start then Ok [(0, 0)]
  else
    match unescape p with
    | None => Err (Exn "error" "not a literal")
    | Some "" => Ok (map (fun i => (i, i)) (seq 0 (S (String.length t))))
    | Some lit => Ok (finditer (occurs lit) t)
    end.

#[global] Instance Literal : Regex :=
  {| re_finditer := literal_finditer; re_expand := fun _ _ _ template => Ok template |}.

Lemma unescape_escape s : unescape (re_escape s) = Some s.
Proof.
  induction s as [|c s IH]; [done|]. cbn [re_escape]. destruct (is_special c) eqn:E.
  - cbn [unescape]. rewrite E, IH. done.
  - cbn [unescape]. destruct (Ascii.eqb_spec c backslash) as [->|]; [by vm_compute in E|]. by rewrite E, IH.
Qed.

Lemma escape_not_start s : re_escape s <> at_start.
Proof.
  destruct s as [|c s]; [done|]. cbn [re_escape]. destruct (is_special c) eqn:E; unfold at_start.
  - intros [= -> _]. by vm_compute in E.
  - intros [= -> _]. by vm_compute in E.
Qed.

(** The matches of a scan, which starts at [pos] with [skip] characters to go. *)
Lemma scan_spans m pos skip bol s :
  (forall b u n, m b u = Some n -> n <= String.length u) -> skip <= String.length s ->
  spans_in (pos + skip) (pos + String.length s) (scan m pos skip bol s).
Proof.
  intros Hm. revert pos skip bol. induction s as [|c s IH]; intros pos skip bol Hs; [done|]. cbn [scan String.length].
  replace (pos + S (String.length s)) with (S pos + String.length s) by lia.
  destruct skip as [|k].
  - rewrite Nat.add_0_r.
    assert (spans_in pos (S pos + String.length s) (scan m (S pos) 0 (is_lf c) s)) as H0.
    { specialize (IH (S pos) 0 (is_lf c) ltac:(lia)). rewrite Nat.add_0_r in IH. revert IH.
      destruct (scan m (S pos) 0 (is_lf c) s) as [|[a b] l]; cbn; [done|]. intros (? & ? & ?). split_and!; [lia|lia|lia|done]. }
    destruct (m bol (String c s)) as [[|k]|] eqn:E; try exact H0.
    apply Hm in E. cbn in E. cbn [spans_in]. split; [lia|]. split; [lia|].
    replace (pos + S k) with (S pos + k) by lia. apply IH. lia.
  - replace (pos + S k) with (S pos + k) by lia. apply IH. cbn in Hs. lia.
Qed.

Lemma startswith_app p s : startswith p (p +:+ s) = true.
Proof. induction p as [|c p IH]; [done|]. rewrite str_app_cons. cbn [startswith]. by rewrite Ascii.eqb_refl. Qed.

Lemma startswith_length p s : startswith p s = true -> String.length p <= String.length s.
Proof. revert s. induction p as [|c p IH]; intros [|d s]; cbn; try done; try lia. intros [_ H1]%andb_true_iff. apply IH in H1. lia. Qed.

Lemma scan_finds lit pos bol u v :
  lit <> "" -> scan (fun _ => occurs lit) pos 0 bol (u +:+ lit +:+ v) <> [].
Proof.
  intros Hne. revert pos bol. induction u as [|c u IH]; intros pos bol.
  - destruct lit as [|d lit]; [done|].
    change ("" +:+ String d lit +:+ v) with (String d (lit +:+ v)). cbn [scan].
    unfold occurs at 1. change (String d (lit +:+ v)) with (String d lit +:+ v). by rewrite startswith_app.
  - rewrite str_app_cons. cbn [scan]. destruct (occurs lit _) as [[|k]|]; [apply IH|done|apply IH].
Qed.

#[global] Instance Literal_laws : RegexLaws.
Proof.
  split.
  - intros p t l. cbn. unfold literal_finditer. destruct (String.eqb _ _); [intros [= <-]; cbn; lia|].
    destruct (unescape p) as [[|c lit]|]; [| |done].
    + intros [= <-]. assert (forall n from, spans_in from (from + n) (map (fun i => (i, i)) (seq from (S n)))) as Hseq.
      { induction n as [|n IH]; intros from; [cbn; lia|]. cbn [seq map spans_in]. split; [lia|]. split; [lia|].
        specialize (IH (S from)). replace (S from + n) with (from + S n) in IH by lia. revert IH. cbn [seq map spans_in].
        intros (? & ? & ?). split_and!; [lia|lia|lia|done]. }
      apply (Hseq (String.length t) 0).
    + intros [= <-]. apply (scan_spans (fun _ => occurs (String c lit)) 0 0 true t); [|lia].
      intros b u n. unfold occurs. destruct (startswith (String c lit) u) eqn:E; [|done].
      intros [= <-]. by apply (startswith_length (String c lit)).
  - intros s t Hne. cbn. unfold literal_finditer. rewrite (proj2 (String.eqb_neq _ _) (escape_not_start s)), unescape_escape.
    destruct s as [|c s]; [done|]. eexists. split; [done|]. intros (u & v & ->). by apply scan_finds.
Qed.

(** ** Patches that write line feeds *)

Lemma no_cr_take n s : no_cr s = true -> no_cr (str_take n s) = true.
Proof.
  revert s. induction n as [|n IH]; intros [|c s]; try done. cbn. intros [H1 H2]%andb_true_iff.
  by rewrite H1, (IH _ H2).
Qed.

Lemma no_cr_drop n s : no_cr s = true -> no_cr (str_drop n s) = true.
Proof. revert s. induction n as [|n IH]; intros [|c s]; try done. cbn. intros [_ H2]%andb_true_iff. by apply IH. Qed.

(** Edits that insert their text as it is. *)
Definition verbatim (p : FilePatch) : bool :=
  forallb (fun e => no_cr (text e) && match mode e with ReplaceAll => false | _ => true end) (edits p).

Lemma verbatim_lf_only `{RegexLaws} p : verbatim p = true -> lf_only p.
Proof.
  unfold verbatim, lf_only. generalize (dialect p) as lang. induction (edits p) as [|e es IH]; intros lang Hv t t' rs Ht.
  { by intros [= <- <-]. }
  cbn [forallb] in Hv. apply andb_true_iff in Hv as [[He Hmode]%andb_true_iff Hv].
  cbn [apply_edits]. intros ([t1 r] & H1 & Hr)%bind_Ok. apply bind_Ok in Hr as ([t2 rs2] & H2 & [= <- <-]).
  eapply IH; [done| |exact H2]. apply apply_edit_cases in H1 as (_ & g & there & _ & _ & Hr).
  destruct (status r); [|by destruct Hr as [_ ->]|by destruct Hr as (_ & -> & _)|by destruct Hr as [_ ->]].
  destruct Hr as (_ & l & _ & _ & Hp). destruct (mode e); [..|done]; destruct Hp as (a & b & _ & _ & ->);
    by rewrite !no_cr_app, He, no_cr_take, no_cr_drop.
Qed.

(** ** Witnesses *)

Definition demo_edit : Edit :=
  mkEdit "add-g" (re_escape "int f();") (newline +:+ "int g();") InsertAfter None 1 0 "" None 40.
Definition demo_patch : FilePatch := mkFilePatch "src/f.h" [demo_edit] "" "" false.

(** Depends on what the first one wrote. *)
Definition demo_second : FilePatch :=
  mkFilePatch "src/f.h" [mkEdit "add-h" (re_escape "int g();") "int h(); " InsertBefore None 1 0 "" None 40] "" "" false.

Definition demo_create : FilePatch :=
  mkFilePatch "doc/new.txt" [mkEdit "new" at_start "new file" InsertAfter None 1 0 "" None 40] "" "none" true.

Definition demo_files : tree :=
  <[["src"] := Directory]> (<[["src"; "f.h"] := File ("int f();" +:+ newline)]>
    (<[["src"; "g.h"] := File ("int k();" +:+ String "013" newline)]> ∅)).

Definition demo_disk (fs : list (option fault)) : Disk := mkDisk demo_files fs.
Definition demo_ps : list FilePatch := [demo_patch; demo_create; demo_second].
Definition demo_apply (ps : list FilePatch) : stm Disk (list PatchResult) := apply_all "/src" exn_class ps false None.

(** The disk is full after half of the created file. *)
Definition demo_full : fault := mkFault (OSError "[Errno 28] No space left on device") (Some "new").

Example demo_applied :
  let '(r, w) := demo_apply demo_ps (demo_disk []) in
  is_ok r = true /\
  files w !! ["src"; "f.h"] = Some (File ("int f();" +:+ newline +:+ "int h(); int g();" +:+ newline)) /\
  files w !! ["doc"; "new.txt"] = Some (File "new file").
Proof. vm_compute. done. Qed.


Lemma edit_idempotent_witness :
  exists t r r', apply_edit "c" ("int f();" +:+ newline) demo_edit = Ok (t, r) /\
    apply_edit "c" t demo_edit = Ok (t, r') /\ status r' = AlreadyApplied.
Proof.
  set (t := "int f();" +:+ newline +:+ "int g();" +:+ newline).
  destruct (@edit_idempotent Literal Literal_laws "c" "c" ("int f();" +:+ newline) demo_edit t
    (mkEditResult "add-g" Applied "insert_after") eq_refl ltac:(discriminate) ltac:(vm_compute; reflexivity) eq_refl) as (r' & Hr & Hs).
  exists t, (mkEditResult "add-g" Applied "insert_after"), r'. split_and!; [vm_compute; reflexivity|exact Hr|exact Hs].
Defined.

Definition demo_failed : res (list PatchResult) * Disk := demo_apply demo_ps (demo_disk [None; None; Some demo_full]).


Definition demo_two : list FilePatch := [demo_patch; demo_second].

Lemma demo_orderly : orderly demo_two.
Proof.
  split.
  - intros p q Hp Hq _. unfold demo_two in *. set_solver.
  - intros l1 p l2 H1 Hc. assert (p ∈ demo_two) as Hp by (rewrite H1; set_solver).
    repeat (apply elem_of_cons in Hp as [->|Hp]; [done|]). by apply elem_of_nil in Hp.
  - intros p Hp. apply verbatim_lf_only.
    repeat (apply elem_of_cons in Hp as [->|Hp]; [reflexivity|]). by apply elem_of_nil in Hp.
Qed.

Lemma apply_all_as_tried_witness :
  exists trial, (demo_apply demo_two (demo_disk [])).1 = Ok trial /\
    read_text (files (demo_apply demo_two (demo_disk [])).2) ["src"; "f.h"]
    = Some ("int f();" +:+ newline +:+ "int h(); int g();" +:+ newline).
Proof.
  destruct (trial_pass "/src" demo_two ∅ (demo_disk [])) as [[[trial ts]|e] w0] eqn:E; [|by vm_compute in E].
  pose proof (trial_pass_dry _ _ _ _ _ _ E) as ->.
  assert (forallb ok trial = true) as Hok by (vm_compute in E; injection E as <- <-; reflexivity).
  destruct (@apply_all_as_tried Literal "/src" exn_class demo_two (demo_disk []) trial ts
    (demo_apply demo_two (demo_disk [])).1 (demo_apply demo_two (demo_disk [])).2 demo_orderly E Hok
    (surjective_pairing _)) as [[Hr _]|[_ Hq]].
  - exists trial. split; [exact Hr|vm_compute; reflexivity].
  - destruct (Hq eq_refl) as (p & Hp & Hc). unfold demo_two in Hp. exfalso.
    repeat (apply elem_of_cons in Hp as [->|Hp]; [done|]). by apply elem_of_nil in Hp.
Defined.

(** ** Where the code goes wrong *)

(** Rolling back writes the text that was read, whose line ends are translated:
    a file with carriage returns is changed by a run that failed. *)
Definition demo_crlf : FilePatch :=
  mkFilePatch "src/g.h" [mkEdit "k" (re_escape "int k();") " // k" InsertAfter None 1 0 "" None 40] "" "" false.

Example rollback_translates_line_ends :
  let '(r, w) := demo_apply [demo_crlf; demo_create] (demo_disk [None; None; Some demo_full]) in
  is_ok r = false /\ files w !! ["src"; "g.h"] = Some (File ("int k();" +:+ newline)) /\
  demo_files !! ["src"; "g.h"] = Some (File ("int k();" +:+ String "013" newline)).
Proof. vm_compute. done. Qed.

(** An interrupt in the second pass is no [Exception]: nothing is rolled back. *)
Example interrupt_leaves_tree_half_patched :
  let '(r, w) := demo_apply demo_ps (demo_disk [None; Some (mkFault (Exn "KeyboardInterrupt" "") None)]) in
  is_ok r = false /\ files w !! ["src"; "f.h"] = Some (File ("int f();" +:+ newline +:+ "int g();" +:+ newline)).
Proof. vm_compute. done. Qed.

(** A second creating patch on the same path passes the trial, and not the
    second pass, where the file is there. *)
Definition demo_again : FilePatch :=
  mkFilePatch "doc/new.txt" [mkEdit "more" at_start "more: " InsertAfter None 1 0 "" None 40] "" "none" true.

Example trial_accepts_second_creation :
  let '(r, w) := apply_all "/src" exn_class [demo_create; demo_again] true None (demo_disk []) in
  let '(r', w') := demo_apply [demo_create; demo_again] (demo_disk []) in
  (forallb ok <$> (match r with Ok rs => Some rs | Err _ => None end)) = Some true /\
  (forallb ok <$> (match r' with Ok rs => Some rs | Err _ => None end)) = Some false /\
  files w' !! ["doc"; "new.txt"] = None.
Proof. vm_compute. done. Qed.

End Apply.
