(* ===== verification/Patchset.v ===== *)
(** The selection of patches and the order they are applied in:
    [src/tools/bigcherry/patch/patchset.py].

    The catalogue is a map from identifiers to modules.  Sets that are only
    tested are sorted lists.  [seen] of the search holds what [order] holds and
    is left out. *)

From S2P Require Import Prelude.

Module Patchset.

Definition STATES : list string := ["validated"; "rejected"; "untested"; "evaluated"; "superseded"].
Definition RETIRED_STATES : list string := ["rejected"; "superseded"].

(** The fields the resolution and the probe use. *)
Record PatchModule : Type := mkPatchModule {
  engine : string;
  patch_id : string;
  order : Z;
  state : string;
  content_hash : string;
  requires : list string;
  conflicts : list string;
  catalog_root : option string;
}.

Notation catalog := (gmap string PatchModule).

Record ResolvedPatchSet : Type := mkResolved { modules : list PatchModule; required_state : option string }.
Record CompositionExpansion : Type := mkExpansion { requested : list string; expanded : list string }.

Definition pulled_in (c : CompositionExpansion) : list string :=
  List.filter (fun id => negb (str_in id (requested c))) (expanded c).

Definition comma_list (l : list string) : string := String.concat ", " l.

(** The modules of another engine. *)
Definition check_engine (engine_name : string) (ms : catalog) : res unit :=
  let wrong := py_sorted String.leb (map fst (List.filter (fun kv => negb (String.eqb (engine kv.2) engine_name))
                 (map_to_list ms))) in
  ensure (bool_decide (wrong = []))
    (ValueError ("catalog contains patch module(s) outside engine " +:+ py_repr engine_name +:+ ": " +:+ comma_list wrong)).

(** [modules[pid]] *)
Definition module_at (ms : catalog) (pid : string) : res PatchModule := of_option (KeyError (py_repr pid)) (ms !! pid).

(** ** Topological order *)

(** [(modules[pid].order, pid)] *)
Definition key (ms : catalog) (pid : string) : Z * string :=
  (match ms !! pid with Some m => order m | None => 0%Z end, pid).

Definition key_leb (ms : catalog) : string -> string -> bool := on_key (key ms) (lex_leb Z.leb String.leb).

(** [min(ready, key=...)] *)
Definition min_key (ms : catalog) (x : string) (l : list string) : string :=
  fold_left (fun best y => if key_leb ms best y then best else y) l x.

(** A patch that remains, with what it still waits for. *)
Notation unmet := (string * list string)%type.

Fixpoint order_loop (ms : catalog) (fuel : nat) (remaining : list unmet) (ordered : list string) : res (list string) :=
  match fuel, remaining with
  | O, _ | _, [] => Ok ordered
  | S fuel', _ =>
      match map fst (List.filter (fun u => bool_decide (u.2 = [])) remaining) with
      | [] => Err (ValueError ("REQUIRES cycle detected among: " +:+ comma_list (py_sorted String.leb (map fst remaining))))
      | x :: ready =>
          let pick := min_key ms x ready in
          order_loop ms fuel'
            (map (fun u => (u.1, List.filter (fun d => negb (String.eqb d pick)) u.2))
               (List.filter (fun u => negb (String.eqb u.1 pick)) remaining))
            (ordered ++ [pick])
      end
  end.

Definition unmet_of (ms : catalog) (remaining : list string) (pid : string) : res unmet :=
  m ← module_at ms pid;
  Ok (pid, sorted_set (List.filter (fun d => str_in d remaining) (requires m))).

Definition topological_order (engine_name : string) (patch_ids : list string) (ms : catalog) : res (list string) :=
  _ ← check_engine engine_name ms;
  let remaining := sorted_set patch_ids in
  unmet ← mapR (unmet_of ms remaining) remaining;
  order_loop ms (length remaining) unmet [].

(** ** Exact resolution *)

Definition check_state (required : option string) (allow_rejected : bool) (m : PatchModule) : res unit :=
  _ ← ensure (str_in (state m) STATES) (ValueError (patch_id m +:+ ": invalid STATE=" +:+ py_repr (state m)));
  _ ← ensure (negb (str_in (state m) RETIRED_STATES && negb allow_rejected))
        (ValueError (patch_id m +:+ ": " +:+ state m +:+ " patch requires --allow-rejected"));
  match required with
  | Some s => ensure (String.eqb (state m) s)
      (ValueError (patch_id m +:+ ": state " +:+ py_repr (state m) +:+ " does not satisfy required state " +:+ py_repr s))
  | None => Ok tt
  end.

Definition check_links (selected_ids : list string) (m : PatchModule) : res unit :=
  let missing := sorted_set (List.filter (fun d => negb (str_in d selected_ids)) (requires m)) in
  _ ← ensure (bool_decide (missing = []))
        (ValueError (patch_id m +:+ " requires explicitly selected module(s): " +:+ comma_list missing));
  let clashes := sorted_set (List.filter (fun d => str_in d selected_ids) (conflicts m)) in
  ensure (bool_decide (clashes = []))
    (ValueError (patch_id m +:+ " conflicts with selected module(s): " +:+ comma_list clashes)).

Definition resolve_exact_from_catalog (engine_name : string) (ids : list string) (ms : catalog)
    (required : option string) (allow_rejected : bool) (context_ids : list string) : res ResolvedPatchSet :=
  _ ← check_engine engine_name ms;
  _ ← ensure (bool_decide (NoDup ids)) (ValueError "patch selection contains duplicate canonical IDs");
  let unknown := sorted_set (List.filter (fun i => bool_decide (ms !! i = None)) ids) in
  _ ← ensure (bool_decide (unknown = [])) (ValueError ("unknown patch module(s): " +:+ comma_list unknown));
  selected ← mapR (module_at ms) ids;
  _ ← mapR (check_state required allow_rejected) selected;
  let selected_ids := map patch_id selected ++ context_ids in
  _ ← mapR (check_links selected_ids) selected;
  ordered ← topological_order engine_name ids ms;
  result ← mapR (module_at ms) ordered;
  Ok (mkResolved result required).

(** ** Expansion *)

(** [in_progress[in_progress.index(pid):]] *)
Fixpoint from_index (pid : string) (l : list string) : list string :=
  match l with
  | [] => []
  | x :: l' => if String.eqb x pid then l else from_index pid l'
  end.

(** The inner [visit]; the fuel bounds how deep the search goes. *)
Fixpoint visit (ms : catalog) (fuel : nat) (in_progress order : list string) (pid : string) : res (list string) :=
  match fuel with
  | O => Err (Exn "RecursionError" "maximum recursion depth exceeded")
  | S fuel' =>
      if str_in pid order then Ok order
      else if str_in pid in_progress then
        Err (ValueError ("REQUIRES cycle detected: "
               +:+ String.concat " -> " (from_index pid in_progress ++ [pid])))
      else
        m ← module_at ms pid;
        order' ← foldR (fun order dependency =>
                    match ms !! dependency with
                    | None => Err (ValueError (pid +:+ " REQUIRES unknown module " +:+ py_repr dependency))
                    | Some _ => visit ms fuel' (in_progress ++ [pid]) order dependency
                    end) (requires m) order;
        Ok (order' ++ [pid])
  end.

Definition expand_composition_from_modules (engine_name : string) (patch_ids : list string) (ms : catalog) :
    res CompositionExpansion :=
  _ ← check_engine engine_name ms;
  let unknown := sorted_set (List.filter (fun i => bool_decide (ms !! i = None)) patch_ids) in
  _ ← ensure (bool_decide (unknown = [])) (ValueError ("unknown patch module(s): " +:+ comma_list unknown));
  order ← foldR (visit ms (S (size ms)) []) patch_ids [];
  expanded ← topological_order engine_name order ms;
  Ok (mkExpansion patch_ids expanded).

(** [parse_filter] *)
Definition parse_filter (arg : option string) : option (list string) :=
  match arg with
  | None => None
  | Some s => Some (sorted_set (List.filter truthy (map py_strip (split_on ","%char s))))
  end.

(** ** The order *)

#[global] Instance Z_leb_antisym : AntisymLeb Z.leb.
Proof. intros x y H1%Z.leb_le H2%Z.leb_le. lia. Qed.

#[global] Instance key_leb_total ms : TotalLeb (key_leb ms).
Proof. apply on_key_total. apply _. Qed.

Lemma key_leb_antisym ms x y : key_leb ms x y = true -> key_leb ms y x = true -> x = y.
Proof.
  unfold key_leb, on_key. intros H1 H2. pose proof (leb_antisym (leb:=lex_leb Z.leb String.leb) _ _ H1 H2) as H.
  by injection H.
Qed.

Lemma min_key_spec ms x l :
  min_key ms x l ∈ x :: l /\ forall y, y ∈ x :: l -> key_leb ms (min_key ms x l) y = true.
Proof.
  unfold min_key. revert x. induction l as [|y l IH]; intros x; cbn [fold_left].
  - split; [by left|]. intros y ->%list_elem_of_singleton. apply leb_refl.
  - destruct (key_leb ms x y) eqn:E.
    + destruct (IH x) as [Hin Hmin]. split; [set_solver|]. intros z [->|[->|Hz]%elem_of_cons]%elem_of_cons.
      * apply Hmin. by left.
      * eapply leb_trans; [apply (Hmin x); by left|exact E].
      * apply Hmin. by right.
    + destruct (IH y) as [Hin Hmin]. split; [set_solver|].
      assert (key_leb ms y x = true) as Hyx by (destruct (leb_total (leb:=key_leb ms) x y); congruence).
      intros z [->|[->|Hz]%elem_of_cons]%elem_of_cons.
      * eapply leb_trans; [apply (Hmin y); by left|exact Hyx].
      * apply Hmin. by left.
      * apply Hmin. by right.
Qed.

Definition requires_of (ms : catalog) (pid : string) : list string :=
  match ms !! pid with Some m => requires m | None => [] end.

Section Order.
Context (ms : catalog) (ids : list string).

(** What [x] requires of [ids] is done. *)
Definition ready_after (past : list string) (x : string) : Prop :=
  forall d, d ∈ requires_of ms x -> d ∈ ids -> d ∈ past.

(** Each patch comes when it is ready, before every other one that is ready
    then and has a larger key. *)
Fixpoint greedy (past l : list string) : Prop :=
  match l with
  | [] => True
  | x :: l' => ready_after past x /\ (forall y, y ∈ l' -> ready_after past y -> key_leb ms x y = true) /\
      greedy (past ++ [x]) l'
  end.

(** A set of patches each of which waits for another one of the set. *)
Definition deadlock (stuck : list string) : Prop :=
  stuck <> [] /\ forall x, x ∈ stuck -> x ∈ ids /\ exists d, d ∈ requires_of ms x /\ d ∈ stuck.

(** No order, whatever the keys, gets past a deadlock. *)
Fixpoint in_turn (past l : list string) : Prop :=
  match l with [] => True | x :: l' => ready_after past x /\ in_turn (past ++ [x]) l' end.

Lemma greedy_in_turn past l : greedy past l -> in_turn past l.
Proof. revert past. induction l as [|x l IH]; intros past; cbn; [done|]. intros (? & _ & ?). auto. Qed.

Lemma in_turn_no_deadlock past l stuck :
  in_turn past l -> deadlock stuck -> (forall x, x ∈ stuck -> x ∈ l /\ ~ x ∈ past) -> False.
Proof.
  intros Hl [Hne Hstuck]. revert past Hl. induction l as [|x l IH]; intros past Hl Hin.
  { destruct stuck as [|y stuck]; [done|]. destruct (Hin y) as [Hy _]; [by left|]. by apply elem_of_nil in Hy. }
  destruct Hl as [Hx Hl]. assert (~ x ∈ stuck) as Hn.
  { intros Hs. destruct (Hstuck x Hs) as (_ & d & Hd & Hds). destruct (Hstuck d Hds) as [Hid _].
    by apply (proj2 (Hin d Hds)), Hx. }
  apply (IH (past ++ [x]) Hl). intros y Hy. destruct (Hin y Hy) as [[->|Hyl]%elem_of_cons Hd]; [done|].
  split; [done|]. rewrite elem_of_app, list_elem_of_singleton. intros [?| ->]; done.
Qed.

Lemma greedy_unique past l l' : NoDup l -> l ≡ₚ l' -> greedy past l -> greedy past l' -> l = l'.
Proof.
  revert past l'. induction l as [|x l IH]; intros past l' Hnd Hp H1 H2.
  { by apply Permutation_nil in Hp as ->. }
  destruct l' as [|x' l']; [by symmetry in Hp; apply Permutation_nil in Hp|].
  destruct H1 as (Hr & Hm & Hg), H2 as (Hr' & Hm' & Hg').
  assert (x = x') as <-.
  { destruct (decide (x = x')) as [|Hne]; [done|]. apply (key_leb_antisym ms).
    - apply Hm; [|done]. assert (x' ∈ x :: l) as [->|?]%elem_of_cons by (rewrite Hp; by left); done.
    - apply Hm'; [|done]. assert (x ∈ x' :: l') as [->|?]%elem_of_cons by (rewrite <- Hp; by left); done. }
  f_equal. apply NoDup_cons in Hnd as [_ Hnd]. eapply IH; [done|by apply Permutation_cons_inv in Hp|done|done].
Qed.

(** The loop between two rounds. *)
Record waiting (past : list string) (remaining : list unmet) : Prop := {
  w_perm : past ++ map fst remaining ≡ₚ ids;
  w_nodup : NoDup ids;
  w_unmet : forall u d, u ∈ remaining -> d ∈ u.2 <-> d ∈ requires_of ms u.1 /\ d ∈ map fst remaining;
}.

Lemma waiting_ready past remaining u :
  waiting past remaining -> u ∈ remaining -> u.2 = [] <-> ready_after past u.1.
Proof.
  intros [Hp Hnd Hu] Hin. split.
  - intros He d Hd Hid. rewrite <- Hp in Hid. apply elem_of_app in Hid as [?|Hr]; [done|].
    assert (d ∈ u.2) as Hdu by (by apply Hu). rewrite He in Hdu. by apply elem_of_nil in Hdu.
  - intros Hr. destruct (u.2) as [|d l] eqn:E; [done|]. exfalso.
    assert (d ∈ u.2) as Hd by (rewrite E; by left). apply Hu in Hd as [Hreq Hrem]; [|done].
    rewrite <- Hp in Hnd. apply NoDup_app in Hnd as (_ & Hdisj & _).
    apply (Hdisj d); [|done]. apply Hr; [done|]. rewrite <- Hp. apply elem_of_app. by right.
Qed.

Lemma perm_pick (x : string) l :
  NoDup l -> x ∈ l -> l ≡ₚ x :: List.filter (fun y => negb (String.eqb y x)) l.
Proof.
  induction l as [|y l IH]; intros Hnd Hx; [by apply elem_of_nil in Hx|]. apply NoDup_cons in Hnd as [Hy Hnd]. cbn.
  destruct (String.eqb_spec y x) as [->|Hne]; cbn.
  - rewrite filterb_all; [done|]. intros z Hz. apply negb_true_iff, String.eqb_neq. by intros ->.
  - apply elem_of_cons in Hx as [->|Hx]; [done|]. rewrite (IH Hnd Hx) at 1. apply Permutation_swap.
Qed.

(** What is left after a round. *)
Definition rest_of (pick : string) (remaining : list unmet) : list unmet :=
  map (fun u => (u.1, List.filter (fun d => negb (String.eqb d pick)) u.2))
    (List.filter (fun u => negb (String.eqb u.1 pick)) remaining).

Lemma rest_of_ids pick remaining :
  map fst (rest_of pick remaining) = List.filter (fun y => negb (String.eqb y pick)) (map fst remaining).
Proof. unfold rest_of. rewrite map_map. cbn. by rewrite filterb_map. Qed.

Lemma waiting_step past remaining pick :
  waiting past remaining -> pick ∈ map fst remaining -> waiting (past ++ [pick]) (rest_of pick remaining).
Proof.
  intros [Hp Hnd Hu] Hpick.
  assert (NoDup (map fst remaining)) as Hr by (rewrite <- Hp in Hnd; by apply NoDup_app in Hnd as (_ & _ & ?)).
  split; [|done|].
  - rewrite rest_of_ids, <- app_assoc. cbn [app]. by rewrite <- (perm_pick pick _ Hr Hpick).
  - intros u d Hin. rewrite rest_of_ids, elem_of_filterb. unfold rest_of in Hin.
    apply list_elem_of_fmap in Hin as (u0 & -> & Hin). apply elem_of_filterb in Hin as [Hin _]. cbn [fst snd].
    rewrite elem_of_filterb, (Hu u0 d Hin). tauto.
Qed.

Definition deadlocked (stuck : list string) : exn :=
  ValueError ("REQUIRES cycle detected among: " +:+ comma_list (py_sorted String.leb stuck)).

(** The patches that are ready are those that wait for nothing. *)
Lemma elem_of_ready past remaining x :
  waiting past remaining ->
  x ∈ map fst (List.filter (fun u : unmet => bool_decide (u.2 = [])) remaining)
  <-> x ∈ map fst remaining /\ ready_after past x.
Proof.
  intros Hw. rewrite !list_elem_of_fmap. setoid_rewrite elem_of_filterb. setoid_rewrite bool_decide_eq_true. split.
  - intros (u & -> & Hu & He). split; [by exists u|]. by eapply waiting_ready.
  - intros ((u & -> & Hu) & Hr). exists u. split_and!; [done|done|]. by eapply waiting_ready.
Qed.

Lemma patch_loop_spec fuel remaining past :
  waiting past remaining -> length remaining <= fuel ->
  match order_loop ms fuel remaining past with
  | Ok out => exists l, out = past ++ l /\ l ≡ₚ map fst remaining /\ greedy past l
  | Err e => exists stuck, deadlock stuck /\ e = deadlocked stuck
  end.
Proof.
  revert remaining past. induction fuel as [|fuel IH]; intros remaining past Hw Hlen.
  { destruct remaining; [|cbn in Hlen; lia]. exists []. cbn. by rewrite app_nil_r. }
  destruct (decide (remaining = [])) as [->|Hne]; [exists []; cbn; by rewrite app_nil_r|].
  pose proof (elem_of_ready past remaining) as Hready.
  assert (order_loop ms (S fuel) remaining past =
    match map fst (List.filter (fun u : unmet => bool_decide (u.2 = [])) remaining) with
    | [] => Err (deadlocked (map fst remaining))
    | x :: ready => order_loop ms fuel (rest_of (min_key ms x ready) remaining) (past ++ [min_key ms x ready])
    end) as -> by by destruct remaining.
  destruct (map fst (List.filter (fun u : unmet => bool_decide (u.2 = [])) remaining)) as [|x ready].
  - exists (map fst remaining). split; [|done]. split; [by destruct remaining|]. intros y Hy.
    split; [rewrite <- (w_perm _ _ Hw); apply elem_of_app; by right|].
    pose proof Hy as (u & -> & Hu)%list_elem_of_fmap. destruct (u.2) as [|d l] eqn:E.
    + exfalso. apply (waiting_ready _ _ _ Hw Hu) in E. assert (u.1 ∈ []) as Hn by (by apply (Hready u.1 Hw)).
      by apply elem_of_nil in Hn.
    + exists d. apply (w_unmet _ _ Hw u d Hu). rewrite E. by left.
  - destruct (min_key_spec ms x ready) as [Hin Hmin]. set (pick := min_key ms x ready) in *.
    apply (Hready pick Hw) in Hin as [Hpick Hnow].
    pose proof (waiting_step _ _ _ Hw Hpick) as Hw'.
    assert (NoDup (map fst remaining)) as Hnd.
    { pose proof (w_nodup _ _ Hw) as Hnd. rewrite <- (w_perm _ _ Hw) in Hnd. by apply NoDup_app in Hnd as (_ & _ & ?). }
    pose proof (perm_pick pick _ Hnd Hpick) as Hperm. rewrite <- rest_of_ids in Hperm.
    assert (length (rest_of pick remaining) <= fuel) as Hlen'.
    { apply Permutation_length in Hperm. cbn in Hperm. rewrite !length_map in Hperm. lia. }
    specialize (IH _ _ Hw' Hlen'). destruct (order_loop ms fuel _ _) as [out|e]; [|exact IH].
    destruct IH as (l & -> & Hl & Hg). exists (pick :: l). rewrite <- app_assoc. split; [done|].
    split; [by rewrite Hl, <- Hperm|]. split; [done|]. split; [|done]. intros y Hy Hyr. apply Hmin, (Hready y Hw).
    split; [|done]. rewrite Hperm. right. by rewrite <- Hl.
Qed.
End Order.

(** ** The order of a set of patches *)

Definition known (ms : catalog) (ids : list string) : Prop := forall x, x ∈ ids -> is_Some (ms !! x).

Lemma unmet_ok ms ids l :
  known ms l -> exists us, mapR (unmet_of ms ids) l = Ok us /\ map fst us = l /\
    forall u d, u ∈ us -> d ∈ u.2 <-> d ∈ requires_of ms u.1 /\ d ∈ ids.
Proof.
  induction l as [|x l IH]; intros Hk; [exists []; split_and!; try done; by intros u d ?%elem_of_nil|].
  destruct IH as (us & Hus & Hfst & Hd); [intros y Hy; apply Hk; by right|]. destruct (Hk x) as [m Hm]; [by left|].
  exists ((x, sorted_set (List.filter (fun d => str_in d ids) (requires m))) :: us).
  assert (unmet_of ms ids x = Ok (x, sorted_set (List.filter (fun d => str_in d ids) (requires m)))) as Hx
    by (unfold unmet_of, module_at; by rewrite Hm).
  cbn [mapR]. rewrite Hx, Hus. split; [done|]. split; [cbn; by rewrite Hfst|]. intros u d [->|Hu]%elem_of_cons; [|by apply Hd]. cbn [fst snd].
  unfold requires_of. rewrite Hm, elem_of_sorted_set, elem_of_filterb, str_in_true. done.
Qed.

Lemma patch_order_cases eng ids ms :
  check_engine eng ms = Ok tt -> known ms ids ->
  match topological_order eng ids ms with
  | Ok out => out ≡ₚ sorted_set ids /\ greedy ms ids [] out
  | Err e => exists stuck, deadlock ms ids stuck /\ e = deadlocked stuck
  end.
Proof.
  intros He Hk. unfold topological_order. rewrite He. cbn [mbind result_bind].
  destruct (unmet_ok ms (sorted_set ids) (sorted_set ids)) as (us & Hus & Hfst & Hd).
  { intros x Hx. apply Hk. by apply elem_of_sorted_set. }
  rewrite Hus. cbn [mbind result_bind].
  assert (waiting ms (sorted_set ids) [] us) as Hw.
  { split; [cbn; by rewrite Hfst|apply NoDup_sorted_set|]. intros u d Hu. rewrite Hfst. by apply Hd. }
  pose proof (patch_loop_spec ms (sorted_set ids) (length (sorted_set ids)) us [] Hw) as H.
  rewrite <- Hfst in H at 1. rewrite length_map in H. specialize (H ltac:(done)).
  assert (forall past x, ready_after ms (sorted_set ids) past x <-> ready_after ms ids past x) as Hready.
  { intros past x. unfold ready_after. setoid_rewrite elem_of_sorted_set. done. }
  destruct (order_loop _ _ _ _) as [out|e].
  - destruct H as (l & -> & Hl & Hg). rewrite Hfst in Hl. split; [done|]. cbn. revert Hg. clear -Hready.
    generalize (@nil string) as past. induction l as [|x l IH]; intros past; cbn; [done|].
    intros (H1 & H2 & H3). split_and!; [by apply Hready| |by apply IH]. intros y Hy Hr. apply H2; [done|]. by apply Hready.
  - destruct H as (stuck & [Hne Hs] & ->). exists stuck. split; [|done]. split; [done|]. intros x Hx.
    destruct (Hs x Hx) as [Hin Hx']. split; [by apply elem_of_sorted_set|done].
Qed.

(** The order of a set of patches: exactly one order is given, whatever the
    order and the repetitions of the selection are; in it every patch comes
    after everything it requires of the set, and whenever several are ready the
    one with the smallest number and name comes first.  There is no order only
    if some of the patches require each other in a circle, and the error names
    such a set; then indeed no order would do. *)
Theorem patch_order_spec eng ids ms :
  check_engine eng ms = Ok tt -> known ms ids ->
  (exists out, topological_order eng ids ms = Ok out /\ out ≡ₚ sorted_set ids /\ in_turn ms ids [] out /\
     forall l, l ≡ₚ sorted_set ids -> greedy ms ids [] l <-> l = out) \/
  (exists stuck, topological_order eng ids ms = Err (deadlocked stuck) /\ deadlock ms ids stuck /\
     forall l, l ≡ₚ sorted_set ids -> ~ in_turn ms ids [] l).
Proof.
  intros He Hk. pose proof (patch_order_cases eng ids ms He Hk) as H.
  destruct (topological_order eng ids ms) as [out|e].
  - left. exists out. destruct H as [Hp Hg]. split_and!; [done|done|by apply greedy_in_turn|].
    intros l Hl. split; [|by intros ->]. intros Hgl. eapply greedy_unique; [|by rewrite Hl, Hp|exact Hgl|exact Hg].
    rewrite Hl. apply NoDup_sorted_set.
  - right. destruct H as (stuck & Hd & ->). exists stuck. split_and!; [done|done|]. intros l Hl Hin.
    apply (in_turn_no_deadlock ms ids [] l stuck Hin Hd). intros x Hx. split; [|by apply not_elem_of_nil].
    rewrite Hl. apply elem_of_sorted_set. by apply Hd.
Qed.

(** The order of a part that is closed under what it requires is the order of
    the whole, without the others. *)
Lemma greedy_part ms ids (f : string -> bool) past l :
  (forall x, x ∈ ids -> f x = true -> forall d, d ∈ requires_of ms x -> d ∈ ids -> f d = true) ->
  (forall x, x ∈ l -> x ∈ ids) -> greedy ms ids past l ->
  greedy ms (List.filter f ids) (List.filter f past) (List.filter f l).
Proof.
  intros Hc. revert past. induction l as [|x l IH]; intros past Hin; [done|]. cbn [greedy List.filter]. intros (Hr & Hm & Hg).
  assert (greedy ms (List.filter f ids) (List.filter f (past ++ [x])) (List.filter f l)) as Hrest.
  { apply IH; [|done]. intros y Hy. apply Hin. by right. }
  rewrite List.filter_app in Hrest. cbn [List.filter] in Hrest.
  destruct (f x) eqn:E; [|by rewrite app_nil_r in Hrest]. cbn [greedy]. split_and!; [..|done].
  - intros d Hd [Hdi Hfd]%elem_of_filterb. apply elem_of_filterb. split; [by apply Hr|done].
  - intros y [Hy Hfy]%elem_of_filterb Hry. apply Hm; [done|]. intros d Hd Hdi.
    assert (f d = true) as Hfd by (eapply (Hc y); [apply Hin; by right|done|done|done]).
    assert (d ∈ List.filter f past) as [? _]%elem_of_filterb; [|done]. apply Hry; [done|]. by apply elem_of_filterb.
Qed.

Lemma order_of_part eng ids ms out (f : string -> bool) :
  check_engine eng ms = Ok tt -> known ms ids -> topological_order eng ids ms = Ok out ->
  (forall x, x ∈ ids -> f x = true -> forall d, d ∈ requires_of ms x -> d ∈ ids -> f d = true) ->
  topological_order eng (List.filter f out) ms = Ok (List.filter f out).
Proof.
  intros He Hk Ho Hc. pose proof (patch_order_cases eng ids ms He Hk) as H. rewrite Ho in H. destruct H as [Hp Hg].
  assert (forall x, x ∈ out <-> x ∈ ids) as Hin by (intros x; by rewrite Hp, elem_of_sorted_set).
  assert (greedy ms (List.filter f out) [] (List.filter f out)) as Hpart.
  { pose proof (greedy_part ms ids f [] out Hc (fun x => proj1 (Hin x)) Hg) as Hf. revert Hf.
    cbn [List.filter]. generalize (@nil string) as past. generalize (List.filter f out) at 1 3 as l.
    induction l as [|x l IH]; intros past; cbn [greedy]; [done|].
    assert (forall y, ready_after ms (List.filter f out) past y <-> ready_after ms (List.filter f ids) past y) as Hr.
    { intros y. unfold ready_after. setoid_rewrite elem_of_filterb. by setoid_rewrite Hin. }
    rewrite Hr. setoid_rewrite Hr. intros (? & ? & ?). auto. }
  assert (NoDup (List.filter f out)) as Hnd.
  { eapply sublist_NoDup; [|apply filterb_sublist]. rewrite Hp. apply NoDup_sorted_set. }
  assert (known ms (List.filter f out)) as Hk' by (intros x [Hx _]%elem_of_filterb; apply Hk; by apply Hin).
  pose proof (patch_order_cases eng (List.filter f out) ms He Hk') as H.
  destruct (topological_order eng (List.filter f out) ms) as [out'|e].
  - destruct H as [Hp' Hg']. f_equal. symmetry. eapply greedy_unique; [exact Hnd| |exact Hpart|exact Hg'].
    rewrite Hp'. apply NoDup_Permutation; [done|apply NoDup_sorted_set|]. intros x. by rewrite elem_of_sorted_set.
  - destruct H as (stuck & Hd & _). exfalso.
    apply (in_turn_no_deadlock ms _ [] _ stuck (greedy_in_turn _ _ _ _ Hpart) Hd). intros x Hx.
    split; [by apply Hd|by apply not_elem_of_nil].
Qed.

(** ** Expansion *)

Section Expansion.
Context (ms : catalog).

Definition needs (x y : string) : Prop := y ∈ requires_of ms x.

(** Every patch is known and comes once, after what it requires. *)
Definition closed (l : list string) : Prop :=
  NoDup l /\ forall l1 x l2, l = l1 ++ x :: l2 -> is_Some (ms !! x) /\ forall d, needs x d -> d ∈ l1.

(** What a search from [ds] adds to the order. *)
Definition grows (in_progress ds order order' : list string) : Prop :=
  exists l, order' = order ++ l /\
    (forall y, y ∈ l -> (exists d, d ∈ ds /\ rtc needs d y) /\ ~ y ∈ in_progress) /\
    (forall d, d ∈ ds -> d ∈ order') /\ (closed order -> closed order').

Lemma closed_snoc l x :
  closed l -> ~ x ∈ l -> is_Some (ms !! x) -> (forall d, needs x d -> d ∈ l) -> closed (l ++ [x]).
Proof.
  intros [Hnd Hl] Hx Hk Hd. split.
  - apply NoDup_app. split_and!; [done| |apply NoDup_singleton]. intros y Hy ->%list_elem_of_singleton. done.
  - intros l1 y l2 Heq. destruct l2 as [|z l2 _] using rev_ind.
    + apply app_inj_tail in Heq as [-> ->]. by split.
    + rewrite app_comm_cons, app_assoc in Heq. apply app_inj_tail in Heq as [-> _]. by apply (Hl l1 y l2).
Qed.

Lemma foldR_grows (f : list string -> string -> res (list string)) in_progress ds order order' :
  (forall order d order', d ∈ ds -> f order d = Ok order' -> grows in_progress [d] order order') ->
  foldR f ds order = Ok order' -> grows in_progress ds order order'.
Proof.
  intros Hf. revert order. induction ds as [|d ds IH]; intros order; cbn [foldR].
  { intros [= <-]. exists []. rewrite app_nil_r. split_and!; try done; by intros ? ?%elem_of_nil. }
  intros (order1 & H1 & H2)%bind_Ok. apply Hf in H1 as (l1 & -> & Hy1 & Hd1 & Hc1); [|by left].
  apply IH in H2 as (l2 & -> & Hy2 & Hd2 & Hc2); [|intros; apply Hf; [by right|done]].
  exists (l1 ++ l2). rewrite <- app_assoc in *. split_and!; [done| | |auto].
  - intros y [Hy|Hy]%elem_of_app.
    + destruct (Hy1 y Hy) as [(d0 & ->%list_elem_of_singleton & Hr) Hn]. split; [exists d; split; [by left|done]|done].
    + destruct (Hy2 y Hy) as [(d0 & Hd0 & Hr) Hn]. split; [exists d0; split; [by right|done]|done].
  - intros d0 [->|Hd0]%elem_of_cons; [|by apply Hd2]. specialize (Hd1 d ltac:(by left)). set_solver.
Qed.

Lemma visit_grows fuel in_progress order pid order' :
  visit ms fuel in_progress order pid = Ok order' -> grows in_progress [pid] order order'.
Proof.
  revert in_progress order pid order'. induction fuel as [|fuel IH]; intros in_progress order pid order'; [done|].
  cbn [visit]. destruct (str_in pid order) eqn:Eo.
  { intros [= <-]. exists []. rewrite app_nil_r. split_and!; [done|by intros ? ?%elem_of_nil| |done].
    intros d ->%list_elem_of_singleton. by apply str_in_true. }
  destruct (str_in pid in_progress) eqn:Ep; [done|]. intros (m & Hm & H)%bind_Ok. apply bind_Ok in H as (order1 & H & [= <-]).
  unfold module_at in Hm. apply of_option_Ok in Hm. assert (requires_of ms pid = requires m) as Hreq by (unfold requires_of; by rewrite Hm).
  apply (foldR_grows _ (in_progress ++ [pid])) in H as (l & -> & Hy & Hd & Hc).
  2:{ intros o d o' _ Ho. destruct (ms !! d); [|done]. by eapply IH. }
  assert (~ pid ∈ order) as Hno by (by rewrite <- str_in_true, Eo).
  assert (~ pid ∈ in_progress) as Hnp by (by rewrite <- str_in_true, Ep).
  exists (l ++ [pid]). rewrite <- app_assoc. split_and!; [done|..].
  - intros y [Hyl| ->%list_elem_of_singleton]%elem_of_app.
    + destruct (Hy y Hyl) as [(d & Hdr & Hr) Hn]. split; [|set_solver]. exists pid. split; [by left|].
      eapply rtc_l; [|exact Hr]. unfold needs. by rewrite Hreq.
    + split; [|done]. exists pid. split; [by left|apply rtc_refl].
  - intros d ->%list_elem_of_singleton. set_solver.
  - intros Hcl. rewrite app_assoc. apply closed_snoc; [by apply Hc| |by exists m|].
    + intros [?|Hl]%elem_of_app; [done|]. destruct (Hy pid Hl) as [_ Hn]. set_solver.
    + intros d Hdn. unfold needs in Hdn. rewrite Hreq in Hdn. by apply Hd.
Qed.

Lemma foldR_Err {A B} (f : A -> B -> res A) l s e :
  foldR f l s = Err e -> exists x s', x ∈ l /\ f s' x = Err e.
Proof.
  revert s. induction l as [|x l IH]; intros s; [done|]. cbn [foldR]. destruct (f s x) as [s'|e'] eqn:E; cbn.
  - intros (y & s2 & Hy & Hf)%IH. exists y, s2. split; [by right|done].
  - intros [= <-]. exists x, s. split; [by left|done].
Qed.

Lemma NoDup_length_size l : NoDup l -> (forall x, x ∈ l -> is_Some (ms !! x)) -> length l <= size ms.
Proof.
  intros Hnd Hk. rewrite <- size_dom, <- (size_list_to_set (C:=gset string) l Hnd). apply subseteq_size.
  intros x. rewrite elem_of_list_to_set, elem_of_dom. apply Hk.
Qed.

(** What is reachable is known, and not on a circle. *)
Definition sound_from (pid : string) : Prop :=
  forall x, rtc needs pid x -> is_Some (ms !! x) /\ ~ tc needs x x.

Lemma visit_fails fuel in_progress order pid e :
  visit ms fuel in_progress order pid = Err e -> sound_from pid ->
  NoDup in_progress -> (forall x, x ∈ in_progress -> is_Some (ms !! x) /\ tc needs x pid) ->
  size ms < fuel + length in_progress -> False.
Proof.
  revert in_progress order pid. induction fuel as [|fuel IH]; intros in_progress order pid Hv Hs Hnd Hp Hfuel.
  { pose proof (NoDup_length_size in_progress Hnd (fun x Hx => proj1 (Hp x Hx))). lia. }
  cbn [visit] in Hv. destruct (str_in pid order); [done|]. destruct (str_in pid in_progress) eqn:Ep.
  { apply str_in_true in Ep. destruct (Hs pid (rtc_refl _ _)) as [_ Hn]. by apply Hn, Hp. }
  destruct (Hs pid (rtc_refl _ _)) as [[m Hm] _]. unfold module_at in Hv. rewrite Hm in Hv. cbn [of_option] in Hv.
  assert (requires_of ms pid = requires m) as Hreq by (unfold requires_of; by rewrite Hm).
  cbn [mbind result_bind] in Hv.
  destruct (foldR _ (requires m) order) as [order1|e1] eqn:E; [done|]. injection Hv as ->.
  apply foldR_Err in E as (d & order1 & Hd & E).
  assert (needs pid d) as Hnd' by (unfold needs; by rewrite Hreq).
  assert (sound_from d) as Hsd by (intros x Hx; apply Hs; by eapply rtc_l).
  destruct (Hsd d (rtc_refl _ _)) as [[n Hn] _]. rewrite Hn in E.
  apply (IH _ _ _ E Hsd).
  - apply NoDup_app. split_and!; [done| |apply NoDup_singleton]. intros x Hx ->%list_elem_of_singleton.
    by rewrite <- str_in_true, Ep in Hx.
  - intros x [Hx| ->%list_elem_of_singleton]%elem_of_app; [|split; [by exists m|by apply tc_once]].
    destruct (Hp x Hx) as [? ?]. split; [done|]. by eapply tc_r.
  - rewrite length_app. cbn. lia.
Qed.

(** A closed list holds what its patches need, and has no circle. *)
Lemma closed_reaches l x y : closed l -> x ∈ l -> rtc needs x y -> y ∈ l.
Proof.
  intros [_ Hl] Hx Hr. induction Hr as [x|x y z Hxy _ IH]; [done|]. apply IH.
  apply list_elem_of_split in Hx as (l1 & l2 & Heq). destruct (Hl _ _ _ Heq) as [_ Hd]. rewrite Heq.
  apply elem_of_app. left. by apply Hd.
Qed.

Lemma closed_prefix l1 l2 : closed (l1 ++ l2) -> closed l1.
Proof.
  intros [Hnd Hl]. split; [by apply NoDup_app in Hnd as (? & _ & _)|]. intros k1 x k2 ->. apply (Hl k1 x (k2 ++ l2)).
  by rewrite <- app_assoc.
Qed.

Lemma closed_acyclic l x : closed l -> x ∈ l -> ~ tc needs x x.
Proof.
  intros Hc Hx Ht. apply list_elem_of_split in Hx as (l1 & l2 & ->).
  pose proof Hc as [Hnd Hl]. destruct (Hl l1 x l2 eq_refl) as [_ Hd].
  assert (x ∈ l1) as Hin.
  { inversion Ht as [a b Hab|a b c Hab Hbc]; subst; [by apply Hd|].
    eapply closed_reaches; [by eapply closed_prefix|by apply Hd|by apply tc_rtc]. }
  apply NoDup_app in Hnd as (_ & Hdisj & _). apply (Hdisj x Hin). by left.
Qed.

Lemma closed_in_turn l : closed l -> in_turn ms l [] l.
Proof.
  intros Hc. assert (forall k past, past ++ k = l -> in_turn ms l past k) as H; [|by apply H].
  induction k as [|x k IH]; intros past Heq; [done|]. split.
  - intros d Hd _. destruct Hc as [_ Hl]. by apply (Hl past x k).
  - apply IH. by rewrite <- app_assoc.
Qed.
End Expansion.

Lemma unknown_nil ms ids :
  sorted_set (List.filter (fun i => bool_decide (ms !! i = None)) ids) = [] <-> known ms ids.
Proof.
  unfold known. split.
  - intros He x Hx. destruct (ms !! x) as [m|] eqn:E; [by exists m|].
    assert (x ∈ sorted_set (List.filter (fun i => bool_decide (ms !! i = None)) ids)) as Hin.
    { rewrite elem_of_sorted_set, elem_of_filterb. split; [done|]. by apply bool_decide_eq_true. }
    rewrite He in Hin. by apply elem_of_nil in Hin.
  - intros Hk. destruct (sorted_set _) as [|x l] eqn:E; [done|].
    assert (x ∈ sorted_set (List.filter (fun i => bool_decide (ms !! i = None)) ids)) as Hin by (rewrite E; by left).
    rewrite elem_of_sorted_set, elem_of_filterb in Hin. destruct Hin as [Hin Hn%bool_decide_eq_true].
    destruct (Hk x Hin). congruence.
Qed.

(** What the search gives. *)
Lemma search_spec ms ids order :
  foldR (visit ms (S (size ms)) []) ids [] = Ok order ->
  closed ms order /\ forall y, y ∈ order <-> exists p, p ∈ ids /\ rtc (needs ms) p y.
Proof.
  intros H. apply (foldR_grows ms _ []) in H as (l & -> & Hy & Hd & Hc).
  2:{ intros o d o' _ Ho. by eapply visit_grows. }
  assert (closed ms ([] ++ l)) as Hcl.
  { apply Hc. split; [constructor|]. intros [|? ?] x l2 Heq; done. }
  split; [done|]. intros y. split; [intros Hin; by apply Hy|]. intros (p & Hp & Hr). eapply closed_reaches; [done|by apply Hd|done].
Qed.

Lemma closed_order ms eng order :
  check_engine eng ms = Ok tt -> closed ms order ->
  exists out, topological_order eng order ms = Ok out /\ out ≡ₚ order /\ greedy ms order [] out.
Proof.
  intros He Hc. assert (known ms order) as Hk.
  { intros x (l1 & l2 & Heq)%list_elem_of_split. by apply (proj2 Hc l1 x l2). }
  pose proof (patch_order_cases eng order ms He Hk) as H. destruct (topological_order eng order ms) as [out|e].
  - exists out. destruct H as [Hp Hg]. split_and!; [done| |done]. rewrite Hp.
    apply NoDup_Permutation; [apply NoDup_sorted_set|apply Hc|]. intros x. apply elem_of_sorted_set.
  - destruct H as (stuck & Hd & _). exfalso.
    apply (in_turn_no_deadlock ms order [] order stuck (closed_in_turn ms order Hc) Hd). intros x Hx.
    split; [by apply Hd|by apply not_elem_of_nil].
Qed.

(** The expansion of a request is its closure: it succeeds exactly when
    everything reachable from the request over REQUIRES is known and nothing
    reachable is on a circle (so the depth of the search is never the limit);
    and then it holds exactly what is reachable, each patch once, after all it
    requires. *)
Theorem composition_expansion_spec eng ids ms :
  check_engine eng ms = Ok tt ->
  (is_ok (expand_composition_from_modules eng ids ms) = true <->
   forall p, p ∈ ids -> sound_from ms p) /\
  (forall c, expand_composition_from_modules eng ids ms = Ok c ->
     requested c = ids /\ NoDup (expanded c) /\
     (forall y, y ∈ expanded c <-> exists p, p ∈ ids /\ rtc (needs ms) p y) /\
     greedy ms (expanded c) [] (expanded c)).
Proof.
  intros He. unfold expand_composition_from_modules. rewrite He. cbn [mbind result_bind].
  case_bool_decide as Hu; cbn [ensure mbind result_bind].
  2:{ split; [|done]. split; [done|]. intros Hs. exfalso. apply Hu, unknown_nil. intros x Hx.
      by apply (Hs x Hx), rtc_refl. }
  apply unknown_nil in Hu. destruct (foldR _ ids []) as [order|e] eqn:E; cbn [mbind result_bind].
  - apply search_spec in E as [Hc Hy]. destruct (closed_order ms eng order He Hc) as (out & -> & Hp & Hg).
    cbn [mbind result_bind]. split.
    + split; [|done]. intros _ p Hp' x Hx. assert (x ∈ order) as Hin by (apply Hy; by exists p).
      split; [|by eapply closed_acyclic]. pose proof Hin as (l1 & l2 & Heq)%list_elem_of_split. by apply (proj2 Hc l1 x l2).
    + intros c [= <-]. cbn [requested expanded]. split_and!; [done|rewrite Hp; apply Hc| |].
      * intros y. by rewrite Hp.
      * revert Hg. clear -Hp. generalize (@nil string) as past. generalize out at 1 3 as l.
        induction l as [|x l IH]; intros past; cbn; [done|]. intros (H1 & H2 & H3).
        assert (forall y, ready_after ms out past y -> ready_after ms order past y) as Hr.
        { intros y Hr d Hd Hin. apply Hr; [done|]. by rewrite Hp. }
        split_and!; [|intros y Hyl Hy; by apply H2, Hr|by apply IH]. intros d Hd Hin. apply H1; [done|]. by rewrite <- Hp.
  - split; [|done]. split; [done|]. intros Hs. exfalso. apply foldR_Err in E as (p & order & Hp & E).
    eapply (visit_fails ms _ _ _ _ _ E); [by apply Hs|constructor|by intros x ?%elem_of_nil|cbn; lia].
Qed.

(** ** Resolution *)

(** The catalogue is filed by identifier, as [catalog] builds it. *)
Definition keyed (ms : catalog) : Prop := forall k m, ms !! k = Some m -> patch_id m = k.

Lemma modules_at ms l : known ms l -> keyed ms ->
  exists sel, mapR (module_at ms) l = Ok sel /\ map patch_id sel = l /\ forall m, m ∈ sel -> ms !! patch_id m = Some m.
Proof.
  intros Hk Hkey. induction l as [|x l IH]; [exists []; split_and!; try done; by intros m ?%elem_of_nil|].
  destruct IH as (sel & Hsel & Hids & Hm); [intros y Hy; apply Hk; by right|]. destruct (Hk x) as [m Hx]; [by left|].
  assert (module_at ms x = Ok m) as Hat by (unfold module_at; by rewrite Hx).
  exists (m :: sel). cbn [mapR]. rewrite Hat, Hsel. split; [done|]. split; [cbn; by rewrite (Hkey x m Hx), Hids|]. intros n [->|Hn]%elem_of_cons; [by rewrite (Hkey x m Hx)|by apply Hm].
Qed.

(** What a module must be to be selected with [ids]. *)
Definition selectable (ids : list string) (required : option string) (allow_rejected : bool) (m : PatchModule) : Prop :=
  state m ∈ STATES /\ (state m ∈ RETIRED_STATES -> allow_rejected = true) /\
  (forall s, required = Some s -> state m = s) /\
  (forall d, d ∈ requires m -> d ∈ ids) /\ (forall d, d ∈ conflicts m -> ~ d ∈ ids).

Lemma check_state_ok required allow m :
  check_state required allow m = Ok tt <->
  state m ∈ STATES /\ (state m ∈ RETIRED_STATES -> allow = true) /\ (forall s, required = Some s -> state m = s).
Proof.
  unfold check_state. destruct (str_in (state m) STATES) eqn:E1; cbn [ensure mbind result_bind].
  2:{ split; [done|]. intros (H & _). apply str_in_true in H. congruence. }
  apply str_in_true in E1.
  destruct (str_in (state m) RETIRED_STATES) eqn:E2, allow; cbn [negb andb ensure mbind result_bind].
  2:{ split; [done|]. intros (_ & H & _). apply str_in_true in E2. by specialize (H E2). }
  all: assert (state m ∈ RETIRED_STATES -> true = true) as Ht by done.
  all: destruct required as [s|]; [destruct (String.eqb_spec (state m) s)|]; cbn; split; try done;
    try (intros _; split_and!; try done; try (by intros ? [= <-]); intros H%str_in_true; congruence);
    intros (_ & _ & H); by specialize (H s eq_refl).
Qed.

Lemma filter_nil_sorted f l : sorted_set (List.filter f l) = [] <-> forall d : string, d ∈ l -> f d = false.
Proof.
  split.
  - intros He d Hd. apply not_true_is_false. intros Hf.
    assert (d ∈ sorted_set (List.filter f l)) as Hin by (by rewrite elem_of_sorted_set, elem_of_filterb).
    rewrite He in Hin. by apply elem_of_nil in Hin.
  - intros Hf. rewrite (proj2 (filterb_nil f l)); [done|]. exact Hf.
Qed.

Lemma check_links_ok ids m :
  check_links ids m = Ok tt <-> (forall d, d ∈ requires m -> d ∈ ids) /\ (forall d, d ∈ conflicts m -> ~ d ∈ ids).
Proof.
  unfold check_links.
  assert (sorted_set (List.filter (fun d => negb (str_in d ids)) (requires m)) = [] <-> forall d, d ∈ requires m -> d ∈ ids) as Hr.
  { rewrite filter_nil_sorted. by setoid_rewrite negb_false_iff; setoid_rewrite str_in_true. }
  assert (sorted_set (List.filter (fun d => str_in d ids) (conflicts m)) = [] <-> forall d, d ∈ conflicts m -> ~ d ∈ ids) as Hc.
  { rewrite filter_nil_sorted. setoid_rewrite <- not_true_iff_false. by setoid_rewrite str_in_true. }
  rewrite <- Hr, <- Hc. destruct (sorted_set (List.filter (fun d => negb (str_in d ids)) (requires m))); cbn.
  - destruct (sorted_set (List.filter (fun d => str_in d ids) (conflicts m))); by (split; [intros|intros [? ?]]).
  - split; [done|]. by intros [? ?].
Qed.

Lemma mapR_units {A} (f : A -> res unit) l : (exists us, mapR f l = Ok us) <-> forall x, x ∈ l -> f x = Ok tt.
Proof.
  induction l as [|x l IH]; [split; [by intros _ y ?%elem_of_nil|by exists []]|]. cbn [mapR]. split.
  - intros (us & (u & Hu & H)%bind_Ok). apply bind_Ok in H as (us' & Hus & _). destruct u.
    intros y [->|Hy]%elem_of_cons; [done|]. by apply (proj1 IH (ex_intro _ us' Hus)).
  - intros Hall. rewrite (Hall x) by by left. destruct (proj2 IH) as [us Hus]; [intros; apply Hall; by right|].
    cbn. rewrite Hus. by eexists.
Qed.

Lemma mapR_units_cases {A} (f : A -> res unit) l :
  (exists us, mapR f l = Ok us /\ forall x, x ∈ l -> f x = Ok tt) \/
  (exists e, mapR f l = Err e /\ ~ forall x, x ∈ l -> f x = Ok tt).
Proof.
  pose proof (mapR_units f l) as H. destruct (mapR f l) as [us|e].
  - left. exists us. split; [done|]. apply H. by exists us.
  - right. exists e. split; [done|]. intros Hall. by destruct (proj2 H Hall).
Qed.

(** An exact selection is accepted exactly if it is one: no repetition, nothing
    unknown, every module selectable, and no circle. *)
Lemma resolve_exact_cases eng ids ms required allow ctx :
  check_engine eng ms = Ok tt -> keyed ms ->
  match resolve_exact_from_catalog eng ids ms required allow ctx with
  | Ok r => NoDup ids /\ known ms ids /\ (forall x m, x ∈ ids -> ms !! x = Some m -> selectable (ids ++ ctx) required allow m) /\
      topological_order eng ids ms = Ok (map patch_id (modules r)) /\
      (forall m, m ∈ modules r -> ms !! patch_id m = Some m) /\ required_state r = required
  | Err e => ~ NoDup ids \/ ~ known ms ids \/
      ~ (forall x m, x ∈ ids -> ms !! x = Some m -> selectable (ids ++ ctx) required allow m) \/
      exists stuck, deadlock ms ids stuck
  end.
Proof.
  intros He Hkey. unfold resolve_exact_from_catalog. rewrite He. cbn [mbind result_bind].
  destruct (bool_decide_reflect (NoDup ids)) as [Hnd|Hnd]; cbn [ensure mbind result_bind]; [|by left].
  case_bool_decide as Hk; cbn [ensure mbind result_bind]; [|right; left; by rewrite <- unknown_nil].
  apply unknown_nil in Hk. destruct (modules_at ms ids Hk Hkey) as (sel & Hsel & Hids & Hm). rewrite Hsel. cbn [mbind result_bind].
  assert (forall P : PatchModule -> Prop, (forall m, m ∈ sel -> P m) <-> forall x m, x ∈ ids -> ms !! x = Some m -> P m) as Hall.
  { intros P. split.
    - intros HP x m Hx Hxm. rewrite <- Hids in Hx. apply list_elem_of_fmap in Hx as (n & -> & Hn).
      rewrite (Hm n Hn) in Hxm. injection Hxm as <-. by apply HP.
    - intros HP m Hin. apply (HP (patch_id m)); [|by apply Hm]. rewrite <- Hids. by apply list_elem_of_fmap_2. }
  pose proof (Hall (selectable (ids ++ ctx) required allow)) as Hsel'. clear Hall.
  destruct (mapR_units_cases (check_state required allow) sel) as [(us & -> & H1)|(e & -> & H1)]; cbn [mbind result_bind].
  2:{ right. right. left. intros Hs. rewrite <- Hsel' in Hs. apply H1. intros m Hin. apply check_state_ok. by destruct (Hs m Hin) as (? & ? & ? & _). }
  rewrite Hids.
  destruct (mapR_units_cases (check_links (ids ++ ctx)) sel) as [(us2 & -> & H2)|(e & -> & H2)]; cbn [mbind result_bind].
  2:{ right. right. left. intros Hs. rewrite <- Hsel' in Hs. apply H2. intros m Hin. apply check_links_ok. by destruct (Hs m Hin) as (_ & _ & _ & ? & ?). }
  pose proof (patch_order_cases eng ids ms He Hk) as Ht.
  destruct (topological_order eng ids ms) as [out|e]; cbn [mbind result_bind].
  2:{ right. right. right. destruct Ht as (stuck & Hd & _). by exists stuck. }
  destruct Ht as [Hp _]. assert (known ms out) as Hko by (intros x; rewrite Hp, elem_of_sorted_set; apply Hk).
  destruct (modules_at ms out Hko Hkey) as (res & -> & Hout & Hres). cbn [mbind result_bind modules required_state].
  split_and!; try done; [|by rewrite Hout]. apply Hsel'. intros m Hin.
  pose proof (proj1 (check_state_ok _ _ _) (H1 m Hin)) as (? & ? & ?).
  pose proof (proj1 (check_links_ok _ _) (H2 m Hin)) as (? & ?). by split_and!.
Qed.

(** The two layers fit: an expanded composition lacks nothing, is not
    circular, and is resolved exactly in its own order, as soon as every patch
    of it may be selected by its state and none conflicts with another; and
    only then. *)
Theorem expanded_resolves eng ids ms c required allow :
  check_engine eng ms = Ok tt -> keyed ms -> expand_composition_from_modules eng ids ms = Ok c ->
  (exists r, resolve_exact_from_catalog eng (expanded c) ms required allow [] = Ok r /\
     map patch_id (modules r) = expanded c) <->
  forall m, (exists p, p ∈ ids /\ rtc (needs ms) p (patch_id m)) -> ms !! patch_id m = Some m ->
    state m ∈ STATES /\ (state m ∈ RETIRED_STATES -> allow = true) /\ (forall s, required = Some s -> state m = s) /\
    (forall d, d ∈ conflicts m -> ~ exists p, p ∈ ids /\ rtc (needs ms) p d).
Proof.
  intros He Hkey Hc. unfold expand_composition_from_modules in Hc. rewrite He in Hc. cbn [mbind result_bind] in Hc.
  apply bind_Ok in Hc as (u & _ & Hc). apply bind_Ok in Hc as (order & Ho & Hc). apply bind_Ok in Hc as (out & Hout & [= <-]).
  apply search_spec in Ho as [Hcl Hy]. destruct (closed_order ms eng order He Hcl) as (out' & Hout' & Hp & _).
  rewrite Hout in Hout'. injection Hout' as <-. cbn [expanded].
  assert (forall x, x ∈ out <-> exists p, p ∈ ids /\ rtc (needs ms) p x) as Hin by (intros x; by rewrite Hp).
  assert (topological_order eng out ms = Ok out) as Hself.
  { rewrite <- Hout. unfold topological_order. by rewrite (sorted_set_ext out order) by (intros x; by rewrite Hp). }
  assert (known ms order) as Hk.
  { intros x (l1 & l2 & Heq)%list_elem_of_split. by apply (proj2 Hcl l1 x l2). }
  pose proof (resolve_exact_cases eng out ms required allow [] He Hkey) as Hcases. rewrite app_nil_r in Hcases. split.
  - intros (r & Hr & _) m Hm Hlook. rewrite Hr in Hcases. destruct Hcases as (_ & _ & Hsel & _).
    destruct (Hsel (patch_id m) m) as (? & ? & ? & _ & Hconf); [by apply Hin|done|]. split_and!; try done.
    intros d Hd Hreach. apply (Hconf d Hd). by apply Hin.
  - intros Hall. destruct (resolve_exact_from_catalog _ _ _ _ _ _) as [r|e].
    + exists r. split; [done|]. destruct Hcases as (_ & _ & _ & Ht & _). congruence.
    + exfalso. destruct Hcases as [Hn|[Hn|[Hn|(stuck & Hd)]]].
      * apply Hn. rewrite Hp. apply Hcl.
      * apply Hn. intros x Hx. apply Hk. by rewrite <- Hp.
      * apply Hn. intros x m Hx Hlook. pose proof (Hkey x m Hlook) as Hid. subst x.
        destruct (Hall m) as (? & ? & ? & Hconf); [by apply Hin|done|]. split_and!; try done.
        -- intros d Hd. apply Hin. apply Hin in Hx as (p & Hpi & Hr). exists p. split; [done|].
           eapply rtc_r; [exact Hr|]. unfold needs, requires_of. by rewrite Hlook.
        -- intros d Hd. rewrite Hin. by apply Hconf.
      * destruct (closed_order ms eng order He Hcl) as (out2 & Hout2 & _ & Hg). rewrite Hout in Hout2. injection Hout2 as <-.
        apply (in_turn_no_deadlock ms order [] out stuck (greedy_in_turn _ _ _ _ Hg)).
        -- destruct Hd as [Hne Hd]. split; [done|]. intros x Hx. destruct (Hd x Hx) as [Ho Hx']. split; [by rewrite <- Hp|done].
        -- intros x Hx. split; [by apply Hd|by apply not_elem_of_nil].
Qed.

(** ** Witnesses *)

Definition demo_module (id : string) (n : Z) (reqs : list string) : PatchModule :=
  mkPatchModule "llamacpp" id n "validated" ("hash of " +:+ id) reqs [] (Some "patches").

(** The smaller number requires the larger one. *)
Definition demo_catalog : catalog :=
  <["a" := demo_module "a" 100 ["b"]]> (<["b" := demo_module "b" 200 []]> (<["c" := demo_module "c" 150 []]> ∅)).

Definition demo_circle : catalog :=
  <["a" := demo_module "a" 100 ["b"]]> (<["b" := demo_module "b" 200 ["a"]]> ∅).

Example demo_patch_order : topological_order "llamacpp" ["a"; "b"; "c"; "a"] demo_catalog = Ok ["c"; "b"; "a"].
Proof. vm_compute. reflexivity. Qed.

Example demo_cycle_path :
  expand_composition_from_modules "llamacpp" ["a"] demo_circle
  = Err (ValueError "REQUIRES cycle detected: a -> b -> a").
Proof. vm_compute. reflexivity. Qed.

Lemma demo_known : known demo_catalog ["a"; "b"; "c"].
Proof. intros x Hx. repeat (apply elem_of_cons in Hx as [->|Hx]; [by eexists|]). by apply elem_of_nil in Hx. Qed.

Lemma patch_order_spec_witness :
  exists out, topological_order "llamacpp" ["a"; "b"; "c"] demo_catalog = Ok out /\
    in_turn demo_catalog ["a"; "b"; "c"] [] out.
Proof.
  destruct (patch_order_spec "llamacpp" ["a"; "b"; "c"] demo_catalog ltac:(vm_compute; reflexivity) demo_known)
    as [(out & H1 & _ & H2 & _)|(stuck & H1 & _)]; [by exists out|]. exfalso. revert H1. vm_compute. discriminate.
Defined.

Lemma composition_expansion_spec_witness :
  exists c, expand_composition_from_modules "llamacpp" ["a"] demo_catalog = Ok c /\ expanded c = ["b"; "a"] /\
    ("b" ∈ expanded c <-> exists p, p ∈ ["a"] /\ rtc (needs demo_catalog) p "b").
Proof.
  destruct (composition_expansion_spec "llamacpp" ["a"] demo_catalog ltac:(vm_compute; reflexivity)) as [_ H].
  exists (mkExpansion ["a"] ["b"; "a"]). split; [vm_compute; reflexivity|]. split; [reflexivity|].
  apply (H (mkExpansion ["a"] ["b"; "a"])). vm_compute. reflexivity.
Defined.

Lemma demo_keyed : keyed demo_catalog.
Proof.
  intros k m. unfold demo_catalog. rewrite !lookup_insert_Some, lookup_empty. naive_solver.
Qed.

Lemma expanded_resolves_witness :
  exists r, resolve_exact_from_catalog "llamacpp" ["b"; "a"] demo_catalog (Some "validated") false [] = Ok r /\
    map patch_id (modules r) = ["b"; "a"].
Proof.
  apply (expanded_resolves "llamacpp" ["a"] demo_catalog (mkExpansion ["a"] ["b"; "a"]) (Some "validated") false
    ltac:(vm_compute; reflexivity) demo_keyed ltac:(vm_compute; reflexivity)).
  intros m _ Hm. unfold demo_catalog in Hm. rewrite !lookup_insert_Some, lookup_empty in Hm.
  assert (state m = "validated" /\ conflicts m = []) as [-> ->] by naive_solver.
  split_and!; [by left|intros H; vm_compute in H|by intros s [= <-]|by intros d ?%elem_of_nil].
  apply str_in_true in H. by vm_compute in H.
Defined.

(** The word [all] is a filter like any other. *)
Example filter_all_is_a_word :
  parse_filter (Some "all") = Some ["all"] /\ parse_filter (Some "") = Some [] /\ parse_filter None = None.
Proof. by vm_compute. Qed.
End Patchset.
