(* ===== verification/Selection.v ===== *)
(** What a selection of patches is, and how the lane of a source is composed:
    [src/tools/bigcherry/campaign/resolution.py].

    Reading the patch registry again, which the code does when it is given no
    modules, is a parameter; so is BLAKE2b.  Of the configuration there are the
    fields the resolution reads. *)

From S2P Require Import Prelude Json Patchset.
Import Json Patchset.

Module Selection.

Definition ResolutionError (msg : string) : exn := Exn "ResolutionError" msg.

Notation catalog := (gmap string PatchModule).

(** ** The identity of a selection *)

Definition SELECTOR_IDENTITY_SCHEMA_VERSION : Z := 3.
Definition SELECTOR_KIND_SOURCE : string := "source".
Definition SELECTOR_KIND_EXPERIMENT : string := "experiment".
Definition SELECTOR_KIND_FOCAL_OVERLAY : string := "focal-overlay".
Definition SELECTOR_KIND_ALL_PATCHES : string := "all-patches".

Definition SELECTOR_KINDS : list string :=
  [SELECTOR_KIND_SOURCE; SELECTOR_KIND_EXPERIMENT; SELECTOR_KIND_FOCAL_OVERLAY; SELECTOR_KIND_ALL_PATCHES].
Definition SOURCE_BOUNDED_KINDS : list string :=
  [SELECTOR_KIND_SOURCE; SELECTOR_KIND_EXPERIMENT; SELECTOR_KIND_FOCAL_OVERLAY].
Definition PAYLOAD_KEYS : list string :=
  ["schema_version"; "engine"; "selector_kind"; "selector_name"; "source_name"; "source_ref"; "patch_set_id"; "patch_ids";
   "module_hashes"].

Definition selector_name_for (kind name : string) : res string :=
  if String.eqb kind SELECTOR_KIND_SOURCE then Ok name
  else if String.eqb kind SELECTOR_KIND_EXPERIMENT then Ok ("experiment:" +:+ name)
  else if String.eqb kind SELECTOR_KIND_FOCAL_OVERLAY then Ok ("focal:" +:+ name)
  else if String.eqb kind SELECTOR_KIND_ALL_PATCHES then Ok SELECTOR_KIND_ALL_PATCHES
  else Err (ResolutionError ("unknown selector kind " +:+ py_repr kind)).

(** [removeprefix], where there is the prefix *)
Fixpoint without_prefix (p s : string) : option string :=
  match p, s with
  | EmptyString, _ => Some s
  | String c p', String d s' => if Ascii.eqb c d then without_prefix p' s' else None
  | String _ _, EmptyString => None
  end.

Definition split_selector_name (kind selector_name : string) : res string :=
  let prefix := if String.eqb kind SELECTOR_KIND_EXPERIMENT then "experiment:" else "focal:" in
  match without_prefix prefix selector_name with
  | None => Err (ResolutionError ("selector name " +:+ py_repr selector_name +:+ " does not carry the " +:+ py_repr kind
              +:+ " " +:+ py_repr prefix +:+ " prefix"))
  | Some suffix =>
      _ ← ensure (truthy suffix) (ResolutionError ("selector name " +:+ py_repr selector_name +:+ " carries an empty "
            +:+ py_repr prefix +:+ " qualifier -- experiment/focal names must be non-empty"));
      Ok suffix
  end.

Record SelectorIdentity : Type := mkIdentity {
  si_engine : string;
  selector_kind : string;
  selector_name : string;
  source_name : option string;
  source_ref : option string;
  patch_set_id : option string;
  patch_ids : list string;
  module_hashes : list (string * string);
}.

(** [value is not None and value] *)
Definition given (o : option string) : bool := match o with Some s => truthy s | None => false end.
Definition is_none (o : option string) : bool := match o with None => true | Some _ => false end.

Definition require (b : bool) (msg : string) : res unit := ensure b (ResolutionError msg).

(** The name a source-bounded selection must have. *)
Definition expected_name (i : SelectorIdentity) : res string :=
  if String.eqb (selector_kind i) SELECTOR_KIND_SOURCE then
    selector_name_for SELECTOR_KIND_SOURCE (match source_name i with Some s => s | None => "" end)
  else
    suffix ← split_selector_name (selector_kind i) (selector_name i);
    selector_name_for (selector_kind i) suffix.

Fixpoint check_aligned (ids : list string) (hashes : list (string * string)) : res unit :=
  match ids, hashes with
  | pid :: ids', (hash_id, _) :: hashes' =>
      _ ← require (String.eqb pid hash_id) ("selector identity module_hashes entry " +:+ py_repr hash_id
            +:+ " does not align with patch_ids " +:+ py_repr pid);
      check_aligned ids' hashes'
  | _, _ => Ok tt
  end.

(** [__post_init__], of values that have their types *)
Definition check_identity (i : SelectorIdentity) : res unit :=
  _ ← require (truthy (si_engine i)) "selector identity engine must be a non-empty string";
  _ ← require (str_in (selector_kind i) SELECTOR_KINDS) ("unknown selector kind " +:+ py_repr (selector_kind i));
  _ ← require (truthy (selector_name i)) "selector name must be a non-empty string";
  _ ← require (forallb truthy (patch_ids i)) "selector identity patch_ids must be a tuple of non-empty strings";
  _ ← require (forallb (fun e => truthy e.1 && truthy e.2) (module_hashes i))
        "selector identity module_hashes must be a tuple of (patch_id, content_hash) non-empty string pairs";
  _ ← (if str_in (selector_kind i) SOURCE_BOUNDED_KINDS then
         _ ← require (given (source_name i) && given (source_ref i) && given (patch_set_id i))
               (py_repr (selector_kind i) +:+ " selector identity requires non-empty string source_name, source_ref, and patch_set_id");
         expected ← expected_name i;
         require (String.eqb (selector_name i) expected) ("selector name " +:+ py_repr (selector_name i)
           +:+ " is not the deterministic name " +:+ py_repr expected +:+ " for this selection")
       else
         _ ← require (is_none (source_name i) && is_none (source_ref i) && is_none (patch_set_id i))
               "all-patches coverage identity carries no source-bounded fields -- it is coverage identity, not a production composition claim";
         require (String.eqb (selector_name i) SELECTOR_KIND_ALL_PATCHES)
           ("all-patches selector name must be " +:+ py_repr SELECTOR_KIND_ALL_PATCHES));
  _ ← require (length (patch_ids i) =? length (module_hashes i))%nat
        ("selector identity patch_ids/module_hashes cardinality mismatch (" +:+ show_nat (length (patch_ids i)) +:+ " vs "
         +:+ show_nat (length (module_hashes i)) +:+ ")");
  _ ← check_aligned (patch_ids i) (module_hashes i);
  require (bool_decide (NoDup (patch_ids i))) "selector identity contains duplicate patch ids".

(** [SelectorIdentity(...)] *)
Definition new_identity (i : SelectorIdentity) : res SelectorIdentity := _ ← check_identity i; Ok i.

#[global] Instance SelectorIdentity_eq_dec : EqDecision SelectorIdentity.
Proof. solve_decision. Defined.

Definition describe_diff (i j : SelectorIdentity) : list string :=
  map fst (List.filter (fun kv : string * bool => negb kv.2)
    [("engine", String.eqb (si_engine i) (si_engine j)); ("selector_kind", String.eqb (selector_kind i) (selector_kind j));
     ("selector_name", String.eqb (selector_name i) (selector_name j));
     ("source_name", bool_decide (source_name i = source_name j)); ("source_ref", bool_decide (source_ref i = source_ref j));
     ("patch_set_id", bool_decide (patch_set_id i = patch_set_id j)); ("patch_ids", bool_decide (patch_ids i = patch_ids j));
     ("module_hashes", bool_decide (module_hashes i = module_hashes j))]).

Definition to_payload (i : SelectorIdentity) : list (string * json) :=
  [("schema_version", JInt SELECTOR_IDENTITY_SCHEMA_VERSION); ("engine", JStr (si_engine i));
   ("selector_kind", JStr (selector_kind i)); ("selector_name", JStr (selector_name i));
   ("source_name", jopt JStr (source_name i)); ("source_ref", jopt JStr (source_ref i));
   ("patch_set_id", jopt JStr (patch_set_id i)); ("patch_ids", jstrs (patch_ids i));
   ("module_hashes", JArr (map (fun e => JArr [JStr e.1; JStr e.2]) (module_hashes i)))].

(** Fields of a payload by their types. *)
Definition need_str (o : list (string * json)) (k : string) : res string :=
  match jget o k with
  | Some (JStr s) => Ok s
  | _ => Err (ResolutionError ("selector identity " +:+ py_repr k +:+ " must be a string"))
  end.

Definition need_opt (o : list (string * json)) (k : string) : res (option string) :=
  match jget o k with
  | Some (JStr s) => Ok (Some s)
  | Some JNull => Ok None
  | _ => Err (ResolutionError ("selector identity " +:+ py_repr k +:+ " must be a string or null"))
  end.

Definition as_str (v : json) : option string := match v with JStr s => Some s | _ => None end.
Definition as_pair (v : json) : option (string * string) :=
  match v with JArr [JStr a; JStr b] => Some (a, b) | _ => None end.

Definition need_ids (o : list (string * json)) : res (list string) :=
  match jget o "patch_ids" with
  | Some (JArr l) => of_option (ResolutionError "selector identity patch_ids must be a list of strings") (mapM as_str l)
  | _ => Err (ResolutionError "selector identity patch_ids must be a list of strings")
  end.

Definition need_hashes (o : list (string * json)) (ids : list string) : res (list (string * string)) :=
  let e := ResolutionError "selector identity module_hashes must be a list of [patch_id, content_hash] pairs aligned with patch_ids" in
  match jget o "module_hashes" with
  | Some (JArr l) => _ ← ensure (length l =? length ids)%nat e; of_option e (mapM as_pair l)
  | _ => Err e
  end.

Definition same_keys (o : list (string * json)) : bool :=
  forallb (fun k => str_in k PAYLOAD_KEYS) (map fst o) && forallb (has_key o) PAYLOAD_KEYS.

Definition from_payload (payload : json) : res SelectorIdentity :=
  match payload with
  | JObj o =>
      _ ← require (same_keys o) ("selector identity payload keys do not match the canonical shape (got "
            +:+ py_repr_list (sorted_set (map fst o)) +:+ ", want " +:+ py_repr_list (sorted_set PAYLOAD_KEYS) +:+ ")");
      _ ← require (is_int (jget o "schema_version") SELECTOR_IDENTITY_SCHEMA_VERSION)
            ("selector identity schema_version " +:+ jrepr (get_or o "schema_version" JNull) +:+ " != current "
             +:+ show_Z SELECTOR_IDENTITY_SCHEMA_VERSION);
      e ← need_str o "engine"; k ← need_str o "selector_kind"; n ← need_str o "selector_name";
      s ← need_opt o "source_name"; r ← need_opt o "source_ref"; p ← need_opt o "patch_set_id";
      ids ← need_ids o; hashes ← need_hashes o ids;
      new_identity (mkIdentity e k n s r p ids hashes)
  | _ => Err (ResolutionError "selector identity payload must be a mapping")
  end.

Definition hashes_of (ms : list PatchModule) : list (string * string) := map (fun m => (patch_id m, content_hash m)) ms.

Definition build_all_patches_identity (engine_name : string) (cat : list PatchModule) : res SelectorIdentity :=
  let wrong := py_sorted String.leb (map patch_id (List.filter (fun m => negb (String.eqb (engine m) engine_name)) cat)) in
  _ ← require (bool_decide (wrong = []))
        ("catalog contains patch module(s) outside engine " +:+ py_repr engine_name +:+ ": " +:+ comma_list wrong);
  let live := List.filter (fun m => negb (str_in (state m) RETIRED_STATES)) cat in
  new_identity (mkIdentity engine_name SELECTOR_KIND_ALL_PATCHES SELECTOR_KIND_ALL_PATCHES None None None
    (map patch_id live) (hashes_of live)).

(** ** Configuration *)

Record PatchSet : Type := mkPatchSet { ps_name : string; ps_patches : list string; ps_required_state : string }.
Record Source : Type := mkSource { so_name : string; ref : string; so_patch_sets : list string }.
Record Experiment : Type := mkExperiment { ex_name : string; ex_patches : list string }.

Record Config : Type := mkConfig {
  pinned : string;
  patch_sets : gmap string PatchSet;
  sources : gmap string Source;
  experiments : gmap string Experiment;
}.

(** ** Patch sets *)

Record ResolvedPatchSet : Type := mkResolvedSet {
  rp_engine : string;
  rp_name : string;
  module_ids : list string;
  rp_module_hashes : list (string * string);
  classification : string;
  rp_required_state : option string;
  rp_patch_set_id : string;
}.

Record ResolvedLane : Type := mkLane {
  la_engine : string;
  la_name : string;
  la_source_name : string;
  patch_set : ResolvedPatchSet;
  promoted_enhancements : list string;
}.

Section Resolution.
(** [blake2b(data, digest_size=16).hexdigest()], and what reading the registry gives. *)
Context (blake2b : string -> string) (physical : catalog).

Definition nul : string := String (Ascii.ascii_of_nat 0) "".

Definition patch_set_digest (payload : json) : string := blake2b ("bigcherry/patch-set/v1" +:+ nul +:+ dumps payload).

(** [{module.patch_id: module for module in catalog}] *)
Definition by_id (cat : list PatchModule) : catalog := fold_left (fun ms m => <[patch_id m := m]> ms) cat ∅.

Definition identity_payload (name : string) (required : option string) (hashes : list (string * string)) (class : string)
    (names : list string) : json :=
  JObj [("schema_version", JInt 1); ("name", JStr name); ("required_state", jopt JStr required);
        ("modules", JArr (map (fun e => JArr [JStr e.1; JStr e.2]) hashes)); ("classification", JStr class);
        ("composition_names", jstrs names)].

Definition resolved_set (engine_name name : string) (mods : list PatchModule) (class : string) (required : option string)
    (names : list string) : ResolvedPatchSet :=
  mkResolvedSet engine_name name (map patch_id mods) (hashes_of mods) class required
    (patch_set_digest (identity_payload name required (hashes_of mods) class names)).

(** The modules of a selection, from the given ones or from the registry. *)
Definition select (engine_name : string) (cat : list PatchModule) (ids : list string) (required : option string)
    (context_ids : list string) (given_modules : option catalog) : res (list PatchModule) :=
  match given_modules with
  | Some ms =>
      selected ← resolve_exact_from_catalog engine_name ids ms required false context_ids;
      Ok (modules selected)
  | None =>
      selected ← resolve_exact_from_catalog engine_name ids physical required false context_ids;
      _ ← require (bool_decide (dom (by_id cat) = dom physical)) "catalog argument does not match the physical patch catalog";
      _ ← mapR (fun m => require
                  (match by_id cat !! patch_id m with Some s => String.eqb (content_hash s) (content_hash m) | None => false end)
                  ("catalog identity mismatch for " +:+ patch_id m)) (modules selected);
      Ok (modules selected)
  end.

Definition resolve_patch_set (engine_name name : string) (cfg : Config) (cat : list PatchModule)
    (extra_patch_ids : list string) (override : option string) (class : string) (names : option (list string))
    (given_modules : option catalog) (context_ids : list string) : res ResolvedPatchSet :=
  _ ← require (negb (String.eqb name "all")) "'all' is not a valid production patch-set";
  declared ← of_option (ResolutionError ("unknown patch set " +:+ py_repr name)) (patch_sets cfg !! name);
  let ids := ps_patches declared ++ extra_patch_ids in
  _ ← require (bool_decide (NoDup ids)) "resolved patch set contains duplicate module IDs";
  let required := Some (opt_or override (ps_required_state declared)) in
  mods ← select engine_name cat ids required context_ids given_modules;
  let names := match names with Some (n :: l) => n :: l | _ => [name] end in
  Ok (resolved_set engine_name name mods class required names).

(** ** Lanes *)

(** The modules a merged composition is read from. *)
Definition lookup_modules (cat : list PatchModule) (given_modules : option catalog) : catalog :=
  match given_modules with Some ms => ms | None => by_id cat end.

(** [tuple(by_id[pid] for pid in topological_order(...))] *)
Definition merged_modules (engine_name : string) (ids : list string) (ms : catalog) : res (list PatchModule) :=
  ordered ← topological_order engine_name ids ms; mapR (module_at ms) ordered.

(** Each patch set under its own policy, the earlier ones as context. *)
Fixpoint resolve_sets (engine_name : string) (cfg : Config) (cat : list PatchModule) (given_modules : option catalog)
    (names earlier : list string) : res (list ResolvedPatchSet) :=
  match names with
  | [] => Ok []
  | name :: names' =>
      s ← resolve_patch_set engine_name name cfg cat [] None "base" (Some [name]) given_modules earlier;
      ss ← resolve_sets engine_name cfg cat given_modules names' (earlier ++ module_ids s);
      Ok (s :: ss)
  end.

(** Every patch with the set that claims it. *)
Definition claims (ss : list ResolvedPatchSet) : list (string * string) :=
  concat (map (fun s => map (fun pid => (pid, rp_name s)) (module_ids s)) ss).

Fixpoint check_claims (source : string) (claimed : list (string * string)) (l : list (string * string)) : res unit :=
  match l with
  | [] => Ok tt
  | (pid, name) :: l' =>
      _ ← require (negb (has_key claimed pid)) ("patch " +:+ py_repr pid +:+ " is claimed by more than one patch-set in source "
            +:+ py_repr source +:+ " (" +:+ py_repr (get_or claimed pid "") +:+ " and " +:+ py_repr name +:+ ")");
      check_claims source (claimed ++ [(pid, name)]) l'
  end.

Definition check_clash (source : string) (ms : catalog) (merged_ids : list string) (pid : string) : res unit :=
  m ← module_at ms pid;
  let clash := sorted_set (List.filter (fun d => str_in d merged_ids) (conflicts m)) in
  require (bool_decide (clash = []))
    (pid +:+ " conflicts with selected module(s) in source " +:+ py_repr source +:+ ": " +:+ comma_list clash).

Definition merge_sets (engine_name source : string) (set_names : list string) (class : string) (ms : catalog)
    (per_set : list ResolvedPatchSet) : res ResolvedPatchSet :=
  let merged_ids := concat (map module_ids per_set) in
  _ ← check_claims source [] (claims per_set);
  _ ← mapR (check_clash source ms merged_ids) (sorted_set merged_ids);
  mods ← merged_modules engine_name merged_ids ms;
  let required := match per_set with
                  | s :: ss => if forallb (fun s' => bool_decide (rp_required_state s' = rp_required_state s)) ss
                               then rp_required_state s else None
                  | [] => None
                  end in
  Ok (resolved_set engine_name "__merged__" mods class required set_names).

(** What [resolve_lane] composes before it looks at the experiment. *)
Definition base_set (engine_name source_name : string) (source : Source) (cfg : Config) (cat : list PatchModule)
    (experimental : bool) (given_modules : option catalog) : res ResolvedPatchSet :=
  let class := if experimental then "experimental" else "base" in
  match so_patch_sets source with
  | [] => Ok (mkResolvedSet engine_name "empty" [] [] "upstream" None (patch_set_digest (JObj [("modules", JArr [])])))
  | [base_name] => resolve_patch_set engine_name base_name cfg cat [] None class (Some [base_name]) given_modules []
  | set_names =>
      per_set ← resolve_sets engine_name cfg cat given_modules set_names [];
      merge_sets engine_name source_name set_names class (lookup_modules cat given_modules) per_set
  end.

Definition source_of (cfg : Config) (source_name : string) : res Source :=
  of_option (ResolutionError ("unknown source " +:+ py_repr source_name)) (sources cfg !! source_name).

Definition promoted (cfg : Config) (ids : list string) : list string :=
  match patch_sets cfg !! "validated-enhancements" with
  | Some s => List.filter (fun pid => str_in pid ids) (ps_patches s)
  | None => []
  end.

(** [resolve_lane] without an experiment *)
Definition plain_lane (engine_name source_name : string) (cfg : Config) (cat : list PatchModule) (given_modules : option catalog) :
    res ResolvedLane :=
  source ← source_of cfg source_name;
  resolved ← base_set engine_name source_name source cfg cat false given_modules;
  Ok (mkLane engine_name source_name source_name resolved (promoted cfg (module_ids resolved))).

Definition check_base_conflicts (ms : catalog) (overlay_name : string) (overlay_ids : list string) (base_pid : string) : res unit :=
  m ← module_at ms base_pid;
  let clash := sorted_set (List.filter (fun d => str_in d overlay_ids) (conflicts m)) in
  require (bool_decide (clash = []))
    ("base module " +:+ py_repr base_pid +:+ " conflicts with overlay " +:+ py_repr overlay_name +:+ " module(s): " +:+ comma_list clash).

Definition resolve_lane_overlay (engine_name source_name : string) (cfg : Config) (cat : list PatchModule)
    (overlay_patch_ids : list string) (overlay_name : string) (given_modules : option catalog) : res ResolvedLane :=
  source ← source_of cfg source_name;
  base ← plain_lane engine_name source_name cfg cat given_modules;
  let base_ids := module_ids (patch_set base) in
  selection ← resolve_exact_from_catalog engine_name overlay_patch_ids
                (match given_modules with Some ms => ms | None => physical end) None false base_ids;
  let overlay_ids := map patch_id (modules selection) in
  let ms := lookup_modules cat given_modules in
  _ ← require (negb (existsb (fun pid => str_in pid overlay_ids) base_ids))
        ("overlay " +:+ py_repr overlay_name +:+ " repeats a base patch module");
  _ ← mapR (check_base_conflicts ms overlay_name overlay_ids) base_ids;
  mods ← merged_modules engine_name (base_ids ++ overlay_ids) ms;
  Ok (mkLane engine_name (source_name +:+ "+" +:+ overlay_name) source_name
        (resolved_set engine_name (rp_name (patch_set base)) mods "experimental" (rp_required_state (patch_set base))
           (so_patch_sets source ++ [overlay_name]))
        (promoted_enhancements base)).

Definition resolve_lane (engine_name source_name : string) (cfg : Config) (cat : list PatchModule) (experiment : option string)
    (given_modules : option catalog) : res ResolvedLane :=
  source ← source_of cfg source_name;
  _ ← (match experiment with
       | Some e => require (bool_decide (is_Some (experiments cfg !! e))) ("unknown experiment " +:+ py_repr e)
       | None => Ok tt
       end);
  resolved ← base_set engine_name source_name source cfg cat (opt_truthy experiment) given_modules;
  match experiment with
  | Some e =>
      if truthy e then
        ex ← of_option (KeyError (py_repr e)) (experiments cfg !! e);
        overlaid ← resolve_lane_overlay engine_name source_name cfg cat (ex_patches ex) ("experiment:" +:+ e) given_modules;
        let resolved := patch_set overlaid in
        Ok (mkLane engine_name (source_name +:+ "+" +:+ e) source_name resolved (promoted cfg (module_ids resolved)))
      else Ok (mkLane engine_name source_name source_name resolved (promoted cfg (module_ids resolved)))
  | None => Ok (mkLane engine_name source_name source_name resolved (promoted cfg (module_ids resolved)))
  end.

(** The modules of an empty catalogue directory are not told from those of no
    directory; [CanonicalSelection] is its identity. *)
Definition resolve_canonical_selection (engine_name source_name_ : string) (cfg : Config) (cat : list PatchModule)
    (experiment focal : option string) : res SelectorIdentity :=
  _ ← require (negb (negb (is_none experiment) && negb (is_none focal))) "experiment and focal_overlay_patch_id are mutually exclusive";
  source ← source_of cfg source_name_;
  let resolved_ref := if String.eqb (ref source) "pinned" then pinned cfg else ref source in
  let ms := by_id cat in
  '(lane, kind) ←
    (match focal with
     | Some f =>
         _ ← require (bool_decide (is_Some (ms !! f))) ("unknown focal patch " +:+ py_repr f);
         base ← plain_lane engine_name source_name_ cfg cat (Some ms);
         closure ← expand_composition_from_modules engine_name [f] ms;
         let overlay_ids := List.filter (fun pid => negb (str_in pid (module_ids (patch_set base)))) (expanded closure) in
         overlay_name ← selector_name_for SELECTOR_KIND_FOCAL_OVERLAY f;
         lane ← resolve_lane_overlay engine_name source_name_ cfg cat overlay_ids overlay_name (Some ms);
         Ok (lane, SELECTOR_KIND_FOCAL_OVERLAY)
     | None =>
         lane ← resolve_lane engine_name source_name_ cfg cat experiment (Some ms);
         Ok (lane, if opt_truthy experiment then SELECTOR_KIND_EXPERIMENT else SELECTOR_KIND_SOURCE)
     end);
  name ← selector_name_for kind (opt_or experiment (opt_or focal source_name_));
  new_identity (mkIdentity engine_name kind name (Some source_name_) (Some resolved_ref)
    (Some (rp_patch_set_id (patch_set lane))) (module_ids (patch_set lane)) (rp_module_hashes (patch_set lane))).
End Resolution.

(** ** Payloads *)

Lemma as_str_spec k l : Forall2 (fun a b => py_eqb a b = true) k (map JStr l) <-> mapM as_str k = Some l.
Proof.
  rewrite mapM_Some. revert l. induction k as [|x k IH]; intros [|y l]; cbn [map]; (split; intros Hf; inversion Hf; subst; try done); constructor.
  - apply py_eqb_str in H2 as ->. done.
  - by apply IH.
  - apply py_eqb_str. by destruct x; cbn in *; simplify_eq.
  - by apply IH.
Qed.

Lemma as_pair_one x a b : py_eqb x (JArr [JStr a; JStr b]) = true <-> as_pair x = Some (a, b).
Proof.
  rewrite py_eqb_arr. split.
  - intros (k & -> & Hk). inversion Hk as [|u ? k1 ? Hu Hk1]; subst. inversion Hk1 as [|w ? k2 ? Hw Hk2]; subst. inversion Hk2; subst.
    apply py_eqb_str in Hu as ->. apply py_eqb_str in Hw as ->. done.
  - destruct x as [| | | | |[|[| | | |u| |] [|[| | | |w| |] [|]]]|]; try done. intros [= -> ->]. eexists. split; [done|].
    repeat constructor; by apply py_eqb_str.
Qed.

Lemma as_pair_spec k (l : list (string * string)) :
  Forall2 (fun a b => py_eqb a b = true) k (map (fun e => JArr [JStr e.1; JStr e.2]) l) <-> mapM as_pair k = Some l.
Proof.
  rewrite mapM_Some. revert l. induction k as [|x k IH]; intros [|[a b] l]; cbn [map]; (split; intros Hf; inversion Hf; subst; try done); constructor.
  - by apply as_pair_one.
  - by apply IH.
  - by apply as_pair_one.
  - by apply IH.
Qed.

(** A payload has the value of an identity under each key. *)
Definition carries (o : list (string * json)) (i : SelectorIdentity) : Prop :=
  forall k v, jget (to_payload i) k = Some v -> exists u, jget o k = Some u /\ py_eqb u v = true.

Lemma keys_payload i : map fst (to_payload i) = PAYLOAD_KEYS.
Proof. done. Qed.

Lemma nodup_payload_keys : NoDup PAYLOAD_KEYS.
Proof. apply (bool_decide_eq_true_1 (NoDup _)). vm_compute. reflexivity. Qed.

Lemma same_keys_perm o : NoDup (map fst o) -> same_keys o = true <-> map fst o ≡ₚ PAYLOAD_KEYS.
Proof.
  intros Hnd. unfold same_keys. rewrite andb_true_iff, !forallb_forall. setoid_rewrite <- list_elem_of_In.
  setoid_rewrite str_in_true. split.
  - intros [H1 H2]. apply NoDup_Permutation; [done|apply nodup_payload_keys|]. intros k. split; [apply H1|].
    intros Hk%H2. unfold has_key in Hk. destruct (jget o k) as [v|] eqn:E; [|done]. apply jget_Some in E; [|done].
    by apply (list_elem_of_fmap_2 fst) in E.
  - intros Hp. split; [intros k; by rewrite Hp|]. intros k. rewrite <- Hp. intros ([k' v] & -> & Hin)%list_elem_of_fmap.
    unfold has_key. cbn. by rewrite (proj2 (jget_Some o k' v Hnd) Hin).
Qed.

Lemma payload_eqb o i : NoDup (map fst o) ->
  py_eqb (JObj o) (JObj (to_payload i)) = true <-> map fst o ≡ₚ PAYLOAD_KEYS /\ carries o i.
Proof. intros Hnd. exact (py_eqb_obj o (to_payload i) Hnd nodup_payload_keys). Qed.

Lemma need_str_Ok o k s : need_str o k = Ok s <-> jget o k = Some (JStr s).
Proof. unfold need_str. destruct (jget o k) as [[]|]; naive_solver. Qed.

Lemma need_opt_Ok o k x : need_opt o k = Ok x <-> jget o k = Some (jopt JStr x).
Proof. unfold need_opt. destruct (jget o k) as [[]|], x; naive_solver. Qed.

Lemma need_ids_Ok o l : need_ids o = Ok l <-> exists u, jget o "patch_ids" = Some u /\ py_eqb u (jstrs l) = true.
Proof.
  unfold need_ids, jstrs. setoid_rewrite py_eqb_arr. setoid_rewrite as_str_spec.
  destruct (jget o "patch_ids") as [[]|]; try naive_solver. rewrite of_option_Ok. naive_solver.
Qed.

Lemma need_hashes_Ok o ids l : length l = length ids ->
  need_hashes o ids = Ok l <->
  exists u, jget o "module_hashes" = Some u /\ py_eqb u (JArr (map (fun e => JArr [JStr e.1; JStr e.2]) l)) = true.
Proof.
  intros Hlen. unfold need_hashes. setoid_rewrite py_eqb_arr. setoid_rewrite as_pair_spec.
  destruct (jget o "module_hashes") as [[| | | | |k|]|]; try naive_solver. split.
  - intros (u & _ & H%of_option_Ok)%bind_Ok. naive_solver.
  - intros (u & [= <-] & k' & [= <-] & H). pose proof (proj1 (mapM_Some _ _ _) H) as Hl%Forall2_length.
    rewrite Hl, Hlen, Nat.eqb_refl. cbn. by rewrite H.
Qed.

Lemma need_hashes_length o ids l : need_hashes o ids = Ok l -> length l = length ids.
Proof.
  unfold need_hashes. destruct (jget o "module_hashes") as [[| | | | |k|]|]; try done.
  intros (u & He%ensure_Ok & H%of_option_Ok)%bind_Ok. apply Nat.eqb_eq in He. rewrite <- He.
  apply mapM_Some, Forall2_length in H. done.
Qed.

(** Each field of a payload that carries an identity. *)
Lemma carries_fields o i :
  carries o i <->
  is_int (jget o "schema_version") SELECTOR_IDENTITY_SCHEMA_VERSION = true /\
  need_str o "engine" = Ok (si_engine i) /\ need_str o "selector_kind" = Ok (selector_kind i) /\
  need_str o "selector_name" = Ok (selector_name i) /\ need_opt o "source_name" = Ok (source_name i) /\
  need_opt o "source_ref" = Ok (source_ref i) /\ need_opt o "patch_set_id" = Ok (patch_set_id i) /\
  need_ids o = Ok (patch_ids i) /\
  exists u, jget o "module_hashes" = Some u /\
    py_eqb u (JArr (map (fun e => JArr [JStr e.1; JStr e.2]) (module_hashes i))) = true.
Proof.
  rewrite !need_str_Ok, !need_opt_Ok, need_ids_Ok. split.
  - intros Hc.
    assert (forall k s, jget (to_payload i) k = Some (JStr s) -> jget o k = Some (JStr s)) as Hs
      by (intros k s (u & Hu & ->%py_eqb_str)%Hc; done).
    assert (forall k x, jget (to_payload i) k = Some (jopt JStr x) -> jget o k = Some (jopt JStr x)) as Ho
      by (intros k x (u & Hu & ->%py_eqb_opt)%Hc; done).
    split_and!; try (by apply Hs); try (by apply Ho); try (by apply Hc).
    destruct (Hc "schema_version" _ eq_refl) as (u & Hu & He). rewrite Hu. by rewrite py_eqb_int in He.
  - intros (H1 & H2 & H3 & H4 & H5 & H6 & H7 & H8 & H9) k v Hk. unfold to_payload in Hk. cbn [jget] in Hk.
    repeat match type of Hk with (if String.eqb k ?x then _ else _) = _ =>
      destruct (String.eqb_spec k x) as [->|]; [injection Hk as <-|] end; [..|done];
    lazymatch goal with
    | |- exists u, jget o "schema_version" = _ /\ _ =>
        destruct (jget o "schema_version") as [u|]; [|done]; exists u; split; [done|by rewrite py_eqb_int]
    | |- exists u, jget o "patch_ids" = _ /\ _ => exact H8
    | |- exists u, jget o "module_hashes" = _ /\ _ => exact H9
    | _ => eexists; split; [eassumption|]; (by apply py_eqb_str || by apply py_eqb_opt)
    end.
Qed.

(** What a payload is read as. *)
Lemma from_payload_spec o i :
  NoDup (map fst o) ->
  from_payload (JObj o) = Ok i <-> check_identity i = Ok tt /\ map fst o ≡ₚ PAYLOAD_KEYS /\ carries o i.
Proof.
  intros Hnd. rewrite carries_fields. cbn [from_payload]. split.
  - intros (? & Hk%ensure_Ok & H)%bind_Ok. apply bind_Ok in H as (? & Hv%ensure_Ok & H).
    repeat (let x := fresh "x" in let Hx := fresh "Hx" in apply bind_Ok in H as (x & Hx & H)).
    injection H as <-. match goal with Hc : check_identity _ = Ok ?u |- _ => destruct u end. split; [done|]. split; [by apply same_keys_perm|].
    cbn [si_engine selector_kind selector_name source_name source_ref patch_set_id patch_ids module_hashes].
    split_and!; try done. eapply need_hashes_Ok; [by eapply need_hashes_length|done].
  - intros (Hc & Hk & Hv & H2 & H3 & H4 & H5 & H6 & H7 & H8 & H9).
    assert (length (module_hashes i) = length (patch_ids i)) as Hlen.
    { unfold check_identity in Hc. do 6 (apply bind_Ok in Hc as (? & _ & Hc)). apply bind_Ok in Hc as (? & Hl%ensure_Ok & _).
      by apply Nat.eqb_eq in Hl. }
    apply (need_hashes_Ok o (patch_ids i)) in H9; [|done].
    unfold require. rewrite (proj2 (same_keys_perm o Hnd) Hk), Hv. cbn [ensure mbind result_bind].
    rewrite H2, H3, H4, H5, H6, H7, H8. cbn [mbind result_bind]. rewrite H9. cbn [mbind result_bind].
    unfold new_identity.
    replace (mkIdentity _ _ _ _ _ _ _ _) with i by (by destruct i). by rewrite Hc.
Qed.

(** C39 The payload is exact: of every mapping, [from_payload] accepts those that
    are equal, as Python compares them, to the payload of an identity that
    passes its checks, and gives back that identity; everything else, one
    field more, less or of another type, is refused. *)
Theorem payload_exact o i :
  NoDup (map fst o) ->
  from_payload (JObj o) = Ok i <-> check_identity i = Ok tt /\ py_eqb (JObj o) (JObj (to_payload i)) = true.
Proof. intros Hnd. by rewrite payload_eqb, from_payload_spec by done. Qed.

Lemma jwf_payload i : jwf (JObj (to_payload i)).
Proof.
  apply jwf_obj. split; [apply nodup_payload_keys|]. unfold to_payload.
  repeat (apply Forall_cons; split; [cbn [snd]; try done; try apply jwf_jopt; try apply jwf_jstrs|]); [|by constructor].
  apply jwf_arr, Forall_forall. intros v (e & -> & _)%list_elem_of_fmap. by apply jwf_arr; repeat constructor.
Qed.

(** A payload that was written is read back. *)
Lemma from_payload_back i : check_identity i = Ok tt -> from_payload (sort_keys (JObj (to_payload i))) = Ok i.
Proof.
  intros Hc. pose proof (jwf_payload i) as Hw. pose proof (proj1 (jwf_obj _) Hw) as [Hnd Hv].
  rewrite sort_keys_members. assert (map fst (sorted_members (to_payload i)) ≡ₚ PAYLOAD_KEYS) as Hk.
  { unfold sorted_members. rewrite map_map. cbn [fst]. by rewrite py_sorted_perm. }
  apply from_payload_spec; [rewrite Hk; apply nodup_payload_keys|]. split_and!; [done|done|].
  intros k v Hget. rewrite jget_sorted_members, Hget by done. eexists. split; [done|].
  apply py_eqb_sort. rewrite Forall_forall in Hv. apply (Hv (k, v)). by apply jget_Some.
Qed.

(** ** Compositions *)

Lemma keyed_by_id cat : keyed (by_id cat).
Proof.
  unfold by_id. assert (forall ms : catalog, keyed ms -> keyed (fold_left (fun ms m => <[patch_id m := m]> ms) cat ms)) as H.
  { induction cat as [|m cat IH]; intros ms Hms; [done|]. cbn [fold_left]. apply IH. intros k n.
    rewrite lookup_insert_Some. intros [[<- <-]|[_ ?]]; [done|by apply Hms]. }
  apply H. intros k m. by rewrite lookup_empty.
Qed.

Lemma topological_order_ext eng ids ids' ms : (forall x, x ∈ ids <-> x ∈ ids') ->
  topological_order eng ids ms = topological_order eng ids' ms.
Proof. intros He. unfold topological_order. by rewrite (sorted_set_ext ids ids' He). Qed.

Section Compositions.
Context (engine_name : string) (ms : catalog).

(** Modules that make one composition, on top of [ctx]. *)
Record composes (ctx : list string) (mods : list PatchModule) : Prop := {
  co_nodup : NoDup (map patch_id mods);
  co_known : forall m, m ∈ mods -> ms !! patch_id m = Some m;
  co_states : forall m, m ∈ mods -> state m ∈ STATES /\ ~ state m ∈ RETIRED_STATES;
  co_closed : forall m d, m ∈ mods -> d ∈ requires m -> d ∈ map patch_id mods ++ ctx;
  co_peace : forall m d, m ∈ mods -> d ∈ conflicts m -> ~ d ∈ map patch_id mods ++ ctx;
  co_order : topological_order engine_name (map patch_id mods) ms = Ok (map patch_id mods);
}.

Context (He : check_engine engine_name ms = Ok tt) (Hk : keyed ms).

(** An order gives back itself. *)
Lemma order_again ids out :
  known ms ids -> topological_order engine_name ids ms = Ok out ->
  (forall x, x ∈ out <-> x ∈ ids) /\ NoDup out /\ topological_order engine_name out ms = Ok out.
Proof.
  intros Hkn Ho. pose proof (patch_order_cases engine_name ids ms He Hkn) as Hp. rewrite Ho in Hp. destruct Hp as [Hp _].
  assert (forall x, x ∈ out <-> x ∈ ids) as Hin by (intros x; by rewrite Hp, elem_of_sorted_set).
  split_and!; [done|rewrite Hp; apply NoDup_sorted_set|]. rewrite <- Ho. by apply topological_order_ext.
Qed.

Lemma exact_composes ids required ctx r :
  resolve_exact_from_catalog engine_name ids ms required false ctx = Ok r ->
  composes ctx (modules r) /\ map patch_id (modules r) ≡ₚ ids /\
  (forall s m, required = Some s -> m ∈ modules r -> state m = s).
Proof.
  intros Hr. pose proof (resolve_exact_cases engine_name ids ms required false ctx He Hk) as Hc. rewrite Hr in Hc.
  destruct Hc as (Hnd & Hkn & Hsel & Ho & Hmods & _). destruct (order_again _ _ Hkn Ho) as (Hin & Hndo & Hoo).
  assert (map patch_id (modules r) ≡ₚ ids) as Hp by (by apply NoDup_Permutation).
  assert (forall m, m ∈ modules r -> selectable (ids ++ ctx) required false m) as Hs.
  { intros m Hm. apply (Hsel (patch_id m)); [|by apply Hmods]. apply Hin. by apply list_elem_of_fmap_2. }
  split_and!; [|done|].
  - split; try done.
    + intros m Hm. destruct (Hs m Hm) as (? & Hret & _). split; [done|]. intros Hx. by specialize (Hret Hx).
    + intros m d Hm Hd. destruct (Hs m Hm) as (_ & _ & _ & Hc & _). rewrite Hp. by apply Hc.
    + intros m d Hm Hd. destruct (Hs m Hm) as (_ & _ & _ & _ & Hc). rewrite Hp. by apply Hc.
  - intros s m -> Hm. destruct (Hs m Hm) as (_ & _ & Hst & _). by apply Hst.
Qed.

(** A composition on nothing is an exact selection, in its own order. *)
Lemma composes_exact mods :
  composes [] mods -> exists r, resolve_exact_from_catalog engine_name (map patch_id mods) ms None false [] = Ok r /\ modules r = mods.
Proof.
  intros [Hnd Hkn Hst Hcl Hpe Ho]. rewrite app_nil_r in *.
  assert (known ms (map patch_id mods)) as Hknown by (intros x (m & -> & Hm)%list_elem_of_fmap; by rewrite Hkn).
  assert (forall x m, x ∈ map patch_id mods -> ms !! x = Some m -> m ∈ mods) as Hback.
  { intros x m (n & -> & Hn)%list_elem_of_fmap Hx. rewrite (Hkn n Hn) in Hx. by injection Hx as <-. }
  pose proof (resolve_exact_cases engine_name (map patch_id mods) ms None false [] He Hk) as Hc. rewrite app_nil_r in Hc.
  destruct (resolve_exact_from_catalog engine_name (map patch_id mods) ms None false []) as [r|e].
  - exists r. split; [done|]. destruct Hc as (_ & _ & _ & Ho' & Hr & _). rewrite Ho in Ho'. injection Ho' as Hids.
    revert Hids Hr Hkn. clear. generalize (modules r) as l. induction mods as [|m mods IH]; intros [|n l]; try done.
    cbn [map]. intros [= Hmn Hids] Hr Hkn. f_equal; [|apply IH; [done|intros; apply Hr; by right|intros; apply Hkn; by right]].
    pose proof (Hr n ltac:(by left)) as H1. pose proof (Hkn m ltac:(by left)) as H2. rewrite <- Hmn in H1. congruence.
  - exfalso. destruct Hc as [Hn|[Hn|[Hn|(stuck & Hd)]]]; [done|done| |].
    + apply Hn. intros x m Hx Hm. pose proof (Hback x m Hx Hm) as Hin. destruct (Hst m Hin) as [? Hret].
      split_and!; [done|intros ?; by exfalso|done| |]; intros d Hd; [by apply (Hcl m)|by apply (Hpe m)].
    + pose proof (patch_order_cases engine_name (map patch_id mods) ms He Hknown) as Hg. rewrite Ho in Hg. destruct Hg as [_ Hg].
      apply (in_turn_no_deadlock ms _ [] _ stuck (greedy_in_turn _ _ _ _ Hg) Hd). intros x Hx.
      split; [by apply Hd|by apply not_elem_of_nil].
Qed.

(** What is read back in order from the catalogue. *)
Lemma merged_modules_spec ids mods :
  known ms ids -> merged_modules engine_name ids ms = Ok mods ->
  (forall x, x ∈ map patch_id mods <-> x ∈ ids) /\ NoDup (map patch_id mods) /\
  topological_order engine_name (map patch_id mods) ms = Ok (map patch_id mods) /\ (forall m, m ∈ mods -> ms !! patch_id m = Some m).
Proof.
  intros Hkn. unfold merged_modules. intros (out & Ho & Hm)%bind_Ok. destruct (order_again _ _ Hkn Ho) as (Hin & Hnd & Hoo).
  assert (known ms out) as Hko by (intros x Hx; apply Hkn; by apply Hin).
  destruct (modules_at ms out Hko Hk) as (sel & Hsel & Hids & Hall). rewrite Hm in Hsel. injection Hsel as <-. by rewrite Hids.
Qed.

(** Two layers make one, when nothing of the lower conflicts with the upper. *)
Lemma composes_union ctx lower upper mods :
  composes ctx lower -> composes (ctx ++ map patch_id lower) upper ->
  (forall m d, m ∈ lower -> d ∈ conflicts m -> ~ d ∈ map patch_id upper) ->
  merged_modules engine_name (map patch_id lower ++ map patch_id upper) ms = Ok mods -> composes ctx mods.
Proof.
  intros HL HU Hpeace Hm.
  assert (known ms (map patch_id lower ++ map patch_id upper)) as Hkn.
  { intros x [(m & -> & Hx)%list_elem_of_fmap|(m & -> & Hx)%list_elem_of_fmap]%elem_of_app;
      [by rewrite (co_known _ _ HL m Hx)|by rewrite (co_known _ _ HU m Hx)]. }
  destruct (merged_modules_spec _ _ Hkn Hm) as (Hin & Hnd & Ho & Hk').
  assert (forall m, m ∈ mods -> m ∈ lower \/ m ∈ upper) as Hof.
  { intros m Hmm. assert (patch_id m ∈ map patch_id lower ++ map patch_id upper) as Hx by (apply Hin; by apply list_elem_of_fmap_2).
    pose proof (Hk' m Hmm) as Hlook. apply elem_of_app in Hx as [(n & Hn & Hx)%list_elem_of_fmap|(n & Hn & Hx)%list_elem_of_fmap].
    - left. rewrite Hn, (co_known _ _ HL n Hx) in Hlook. by injection Hlook as <-.
    - right. rewrite Hn, (co_known _ _ HU n Hx) in Hlook. by injection Hlook as <-. }
  split; [done|done|..|done].
  - intros m [Hx|Hx]%Hof; [by apply (co_states _ _ HL)|by apply (co_states _ _ HU)].
  - intros m d Hx Hd. rewrite elem_of_app, Hin, elem_of_app.
    apply Hof in Hx as [Hx|Hx]; [pose proof (co_closed _ _ HL m d Hx Hd) as Hc|pose proof (co_closed _ _ HU m d Hx Hd) as Hc];
      rewrite ?elem_of_app in Hc; tauto.
  - intros m d Hx Hd. rewrite elem_of_app, Hin, elem_of_app.
    apply Hof in Hx as [Hx|Hx];
      [pose proof (co_peace _ _ HL m d Hx Hd) as Hc; pose proof (Hpeace m d Hx Hd)|pose proof (co_peace _ _ HU m d Hx Hd) as Hc];
      rewrite ?elem_of_app in Hc; tauto.
Qed.
End Compositions.

(** ** Lanes *)

Section Lanes.
Context (blake2b : string -> string) (physical : catalog) (engine_name : string) (cfg : Config) (cat : list PatchModule).
Local Abbreviation ms := (by_id cat).
Context (He : check_engine engine_name ms = Ok tt).

(** A resolved set is that of these modules. *)
Definition of_modules (s : ResolvedPatchSet) (mods : list PatchModule) : Prop :=
  module_ids s = map patch_id mods /\ rp_module_hashes s = hashes_of mods.

Definition declared (name : string) : list string :=
  match patch_sets cfg !! name with Some d => ps_patches d | None => [] end.

(** Every patch a set declares has the state the set requires. *)
Definition policy (names : list string) (mods : list PatchModule) : Prop :=
  forall n d m, n ∈ names -> patch_sets cfg !! n = Some d -> m ∈ mods -> patch_id m ∈ ps_patches d -> state m = ps_required_state d.

Lemma opt_or_None s : opt_or None s = s.
Proof. done. Qed.

Lemma patch_set_composes name class names ctx s :
  resolve_patch_set blake2b physical engine_name name cfg cat [] None class names (Some ms) ctx = Ok s ->
  rp_name s = name /\ exists mods, of_modules s mods /\ composes engine_name ms ctx mods /\ module_ids s ≡ₚ declared name /\ policy [name] mods.
Proof.
  unfold resolve_patch_set. intros (u & _ & H)%bind_Ok. apply bind_Ok in H as (d & Hd%of_option_Ok & H). rewrite app_nil_r in H.
  apply bind_Ok in H as (u2 & _ & H). apply bind_Ok in H as (mods & Hsel & [= <-]). unfold select in Hsel.
  apply bind_Ok in Hsel as (r & Hr & [= <-]). destruct (exact_composes engine_name ms He (keyed_by_id cat) _ _ _ _ Hr) as (Hc & Hp & Hst).
  split; [done|]. exists (modules r). unfold declared. rewrite Hd. split_and!; [done|done|done|].
  intros n d' m ->%list_elem_of_singleton Hd' Hm _. rewrite Hd in Hd'. injection Hd' as <-. apply Hst; [|done]. by rewrite opt_or_None.
Qed.

Lemma sets_compose names earlier ss :
  resolve_sets blake2b physical engine_name cfg cat (Some ms) names earlier = Ok ss ->
  exists mods, concat (map module_ids ss) = map patch_id mods /\
    (forall m, m ∈ mods -> ms !! patch_id m = Some m /\ state m ∈ STATES /\ ~ state m ∈ RETIRED_STATES /\
       forall d, d ∈ requires m -> d ∈ earlier ++ map patch_id mods) /\
    map patch_id mods ≡ₚ concat (map declared names) /\
    forall n d m, n ∈ names -> patch_sets cfg !! n = Some d -> m ∈ mods -> NoDup (map patch_id mods) ->
      patch_id m ∈ ps_patches d -> state m = ps_required_state d.
Proof.
  revert earlier ss. induction names as [|n names IH]; intros earlier ss; cbn [resolve_sets].
  { intros [= <-]. exists []. split_and!; [done|by intros m ?%elem_of_nil|done|by intros n d m ?%elem_of_nil]. }
  intros (s & Hs & H)%bind_Ok. apply bind_Ok in H as (ss' & Hss & [= <-]).
  destruct (patch_set_composes _ _ _ _ _ Hs) as (_ & mods1 & [Hi1 _] & Hc1 & Hp1 & Hpol).
  destruct (IH _ _ Hss) as (mods2 & Hi2 & Hall2 & Hp2 & Hpol2). exists (mods1 ++ mods2). cbn [map concat]. rewrite Hi1, Hi2, map_app. split_and!.
  - done.
  - intros m [Hm|Hm]%elem_of_app.
    + destruct (co_states _ _ _ _ Hc1 m Hm). split_and!; [by apply (co_known _ _ _ _ Hc1)|done|done|].
      intros d Hd. pose proof (co_closed _ _ _ _ Hc1 m d Hm Hd) as Hx. rewrite !elem_of_app in *. tauto.
    + destruct (Hall2 m Hm) as (? & ? & ? & Hcl). split_and!; try done. intros d Hd. specialize (Hcl d Hd). rewrite Hi1 in Hcl.
      rewrite !elem_of_app in *. tauto.
  - by rewrite Hp2, <- Hi1, Hp1.
  - intros n' d m Hn Hd Hm Hnd Hmd.
    assert (forall x y, x ∈ mods1 -> y ∈ mods2 -> patch_id x <> patch_id y) as Hdisj.
    { intros x y Hx Hy Heq. apply NoDup_app in Hnd as (_ & Hdj & _). apply (Hdj (patch_id x)); [by apply list_elem_of_fmap_2|].
      rewrite Heq. by apply list_elem_of_fmap_2. }
    apply NoDup_app in Hnd as (_ & _ & Hnd2).
    apply elem_of_cons in Hn as [->|Hn]; apply elem_of_app in Hm as [Hm|Hm].
    + apply (Hpol n d m); [by left|done|done|done].
    + exfalso. assert (patch_id m ∈ map patch_id mods1) as (x & Hx & Hx1)%list_elem_of_fmap.
      { rewrite <- Hi1, Hp1. unfold declared. by rewrite Hd. }
      by apply (Hdisj x m).
    + exfalso. assert (patch_id m ∈ map patch_id mods2) as (x & Hx & Hx2)%list_elem_of_fmap.
      { rewrite Hp2. apply list_elem_of_In, in_concat. exists (declared n').
        split; [apply in_map; by apply list_elem_of_In|]. unfold declared. rewrite Hd. by apply list_elem_of_In. }
      by apply (Hdisj m x).
    + by apply (Hpol2 n' d m).
Qed.

Lemma check_claims_nodup source l claimed :
  NoDup (map fst claimed) -> check_claims source claimed l = Ok tt -> NoDup (map fst claimed ++ map fst l).
Proof.
  revert claimed. induction l as [|[pid n] l IH]; intros claimed Hnd; cbn [check_claims map fst]; [by rewrite app_nil_r|].
  intros (u & Hn%ensure_Ok & H)%bind_Ok. apply negb_true_iff in Hn.
  assert (~ pid ∈ map fst claimed) as Hp.
  { intros ([k v] & Hkv & Hin)%list_elem_of_fmap. cbn in Hkv. subst k. unfold has_key in Hn.
    by rewrite (proj2 (jget_Some claimed pid v Hnd) Hin) in Hn. }
  assert (map fst claimed ++ pid :: map fst l = map fst (claimed ++ [(pid, n)]) ++ map fst l) as -> by (rewrite map_app, <- app_assoc; done).
  apply IH; [|done]. rewrite map_app. apply NoDup_app. split_and!; [done| |apply NoDup_singleton].
  intros x Hx Hx'. apply list_elem_of_singleton in Hx' as ->. done.
Qed.

Lemma claims_ids ss : map fst (claims ss) = concat (map module_ids ss).
Proof.
  unfold claims. rewrite concat_map, map_map. f_equal. apply map_ext. intros s. rewrite map_map. cbn. by rewrite map_id.
Qed.

(** A composition of these patch sets, under their policies. *)
Definition lane_of (names extra : list string) (s : ResolvedPatchSet) : Prop :=
  exists mods, of_modules s mods /\ composes engine_name ms [] mods /\
    module_ids s ≡ₚ concat (map declared names) ++ extra /\ policy names mods.

Lemma merge_composes source names class per_set s :
  resolve_sets blake2b physical engine_name cfg cat (Some ms) names [] = Ok per_set ->
  merge_sets blake2b engine_name source names class ms per_set = Ok s -> lane_of names [] s.
Proof.
  intros Hsets H. destruct (sets_compose _ _ _ Hsets) as (mods0 & Hids & Hall & Hp & Hpol).
  unfold merge_sets in H. rewrite Hids in H. apply bind_Ok in H as ([] & Hcl & H).
  assert (NoDup (map patch_id mods0)) as Hnd.
  { pose proof (check_claims_nodup source (claims per_set) [] ltac:(constructor) Hcl) as Hn. by rewrite claims_ids, Hids in Hn. }
  apply bind_Ok in H as (us & Hus & H). apply bind_Ok in H as (mods & Hm & [= <-]).
  assert (known ms (map patch_id mods0)) as Hkn by (intros x (m & -> & Hx)%list_elem_of_fmap; destruct (Hall m Hx) as (Hl & _); by rewrite Hl).
  destruct (merged_modules_spec engine_name ms He (keyed_by_id cat) _ _ Hkn Hm) as (Hin & Hndm & Ho & Hk').
  assert (forall m, m ∈ mods -> m ∈ mods0) as Hof.
  { intros m Hx. assert (patch_id m ∈ map patch_id mods0) as (n & Hn & Hx0)%list_elem_of_fmap by (apply Hin; by apply list_elem_of_fmap_2).
    destruct (Hall n Hx0) as (Hl & _). pose proof (Hk' m Hx) as Hl'. rewrite Hn, Hl in Hl'. by injection Hl' as <-. }
  exists mods. split; [done|]. split; [|split].
  - split; [done|done|..|done].
    + intros m (_ & ? & ? & _)%Hof%Hall. done.
    + intros m d Hx Hd. rewrite app_nil_r, Hin. apply Hof, Hall in Hx as (_ & _ & _ & Hc). by apply (Hc d).
    + intros m d Hx Hd. rewrite app_nil_r, Hin. intros Hdi.
      assert (check_clash source ms (map patch_id mods0) (patch_id m) = Ok tt) as Hcc.
      { apply (proj1 (mapR_units _ _) (ex_intro _ us Hus)). apply elem_of_sorted_set, Hin. by apply list_elem_of_fmap_2. }
      unfold check_clash, module_at in Hcc. rewrite (Hk' m Hx) in Hcc. cbn [of_option mbind result_bind] in Hcc.
      apply ensure_Ok, bool_decide_eq_true in Hcc. rewrite filter_nil_sorted in Hcc. specialize (Hcc d Hd).
      apply str_in_true in Hdi. congruence.
  - cbn [module_ids resolved_set]. rewrite app_nil_r, <- Hp. by apply NoDup_Permutation.
  - intros n d m Hn Hd Hx Hmd. apply (Hpol n d m Hn Hd (Hof m Hx) Hnd Hmd).
Qed.

Lemma base_composes source_name source experimental s :
  base_set blake2b physical engine_name source_name source cfg cat experimental (Some ms) = Ok s ->
  lane_of (so_patch_sets source) [] s.
Proof.
  unfold base_set. destruct (so_patch_sets source) as [|n [|n' names]] eqn:E.
  - intros [= <-]. exists []. split; [done|]. split; [|split; [done|by intros n d m ?%elem_of_nil]].
    split; try (by intros ? ?%elem_of_nil); try (by intros ? ? ?%elem_of_nil); [constructor|].
    unfold topological_order. by rewrite He.
  - intros H. destruct (patch_set_composes _ _ _ _ _ H) as (_ & mods & Hof & Hc & Hp & Hpol). exists mods.
    split_and!; [done|done|cbn; by rewrite !app_nil_r|done].
  - intros (per_set & Hs & H)%bind_Ok. by eapply merge_composes.
Qed.

Lemma plain_composes source_name la : plain_lane blake2b physical engine_name source_name cfg cat (Some ms) = Ok la ->
  exists source, source_of cfg source_name = Ok source /\ lane_of (so_patch_sets source) [] (patch_set la).
Proof.
  unfold plain_lane. intros (source & Hs & H)%bind_Ok. apply bind_Ok in H as (r & Hr & [= <-]). exists source.
  split; [done|]. by eapply base_composes.
Qed.

(** An overlay is a second layer on the composition of the source. *)
Lemma overlay_composes source_name overlay_ids overlay_name la :
  resolve_lane_overlay blake2b physical engine_name source_name cfg cat overlay_ids overlay_name (Some ms) = Ok la ->
  exists source, source_of cfg source_name = Ok source /\ lane_of (so_patch_sets source) overlay_ids (patch_set la).
Proof.
  unfold resolve_lane_overlay. intros (source & Hs & H)%bind_Ok. apply bind_Ok in H as (base & Hb & H).
  destruct (plain_composes _ _ Hb) as (source' & Hs' & lower & [Hi _] & HL & Hp & Hpol). rewrite Hs in Hs'. injection Hs' as <-.
  apply bind_Ok in H as (sel & Hsel & H). destruct (exact_composes engine_name ms He (keyed_by_id cat) _ _ _ _ Hsel) as (HU & Hpu & _).
  apply bind_Ok in H as (u & Hrep%ensure_Ok & H). apply bind_Ok in H as (us & Hus & H). apply bind_Ok in H as (mods & Hm & [= <-]).
  rewrite Hi in *. exists source. split; [done|].
  assert (composes engine_name ms [] mods) as Hc.
  { apply (composes_union engine_name ms He (keyed_by_id cat) [] lower (modules sel)); [done|done| |done].
    intros m d Hx Hd Hdu.
    assert (check_base_conflicts ms overlay_name (map patch_id (modules sel)) (patch_id m) = Ok tt) as Hcc
      by (apply (proj1 (mapR_units _ _) (ex_intro _ us Hus)); by apply list_elem_of_fmap_2).
    unfold check_base_conflicts, module_at in Hcc. rewrite (co_known _ _ _ _ HL m Hx) in Hcc. cbn [of_option mbind result_bind] in Hcc.
    apply ensure_Ok, bool_decide_eq_true in Hcc. rewrite filter_nil_sorted in Hcc. specialize (Hcc d Hd).
    apply str_in_true in Hdu. congruence. }
  assert (NoDup (map patch_id lower ++ map patch_id (modules sel))) as Hnd.
  { apply NoDup_app. split_and!; [apply HL| |apply HU]. intros x Hx Hx'. apply negb_true_iff, not_true_iff_false in Hrep.
    apply Hrep, existsb_exists. exists x. split; [by apply list_elem_of_In|by apply str_in_true]. }
  assert (known ms (map patch_id lower ++ map patch_id (modules sel))) as Hkn.
  { intros x [(m & -> & Hx)%list_elem_of_fmap|(m & -> & Hx)%list_elem_of_fmap]%elem_of_app;
      [by rewrite (co_known _ _ _ _ HL m Hx)|by rewrite (co_known _ _ _ _ HU m Hx)]. }
  destruct (merged_modules_spec engine_name ms He (keyed_by_id cat) _ _ Hkn Hm) as (Hin & Hndm & _ & Hk').
  exists mods. split; [done|]. split; [exact Hc|]. cbn [patch_set module_ids resolved_set]. split.
  - rewrite app_nil_r in Hp. rewrite <- Hp, <- Hpu. by apply NoDup_Permutation.
  - intros n d m Hn Hd Hx Hmd. apply (Hpol n d m Hn Hd); [|done].
    assert (patch_id m ∈ map patch_id lower) as (k & Hkm & Hxk)%list_elem_of_fmap.
    { rewrite app_nil_r in Hp. rewrite Hp. apply list_elem_of_In, in_concat. exists (declared n).
      split; [apply in_map; by apply list_elem_of_In|]. unfold declared. rewrite Hd. by apply list_elem_of_In. }
    pose proof (Hk' m Hx) as Hl. rewrite Hkm, (co_known _ _ _ _ HL k Hxk) in Hl. by injection Hl as <-.
Qed.

(** What is laid over the source of a selection. *)
Definition overlay_of (experiment focal : option string) (base : list string) : list string :=
  match focal with
  | Some f => match expand_composition_from_modules engine_name [f] ms with
              | Ok c => List.filter (fun pid => negb (str_in pid base)) (expanded c)
              | Err _ => []
              end
  | None => if opt_truthy experiment
            then match experiments cfg !! opt_or experiment "" with Some e => ex_patches e | None => [] end else []
  end.

(** What a resolution gives. *)
Lemma canonical_composes source_name experiment focal i :
  resolve_canonical_selection blake2b physical engine_name source_name cfg cat experiment focal = Ok i ->
  exists source base mods,
    source_of cfg source_name = Ok source /\ base ≡ₚ concat (map declared (so_patch_sets source)) /\
    check_identity i = Ok tt /\ si_engine i = engine_name /\
    source_ref i = Some (if String.eqb (ref source) "pinned" then pinned cfg else ref source) /\
    composes engine_name ms [] mods /\ policy (so_patch_sets source) mods /\
    patch_ids i ≡ₚ base ++ overlay_of experiment focal base /\
    patch_ids i = map patch_id mods /\ module_hashes i = hashes_of mods /\
    exists r, resolve_exact_from_catalog engine_name (patch_ids i) ms None false [] = Ok r /\ modules r = mods.
Proof.
  unfold resolve_canonical_selection. intros (u & _ & H)%bind_Ok. apply bind_Ok in H as (source & Hs & H).
  apply bind_Ok in H as ([la kind] & Hla & H). apply bind_Ok in H as (name & _ & H).
  unfold new_identity in H. apply bind_Ok in H as ([] & Hci & [= <-]).
  cbn [si_engine source_ref patch_ids module_hashes].
  assert (exists base, base ≡ₚ concat (map declared (so_patch_sets source)) /\
    exists mods, of_modules (patch_set la) mods /\ composes engine_name ms [] mods /\
      module_ids (patch_set la) ≡ₚ base ++ overlay_of experiment focal base /\ policy (so_patch_sets source) mods)
    as (base & Hbase & mods & [Hi Hh] & Hc & Hp & Hpol).
  2:{ exists source, base, mods. destruct (composes_exact engine_name ms He (keyed_by_id cat) mods Hc) as (r & Hr & Hrm).
      split_and!; try done. exists r. by rewrite Hi. }
  destruct focal as [f|].
  - apply bind_Ok in Hla as (u2 & _ & Hla). apply bind_Ok in Hla as (base & Hb & Hla).
    apply bind_Ok in Hla as (c & Hcl & Hla). apply bind_Ok in Hla as (on & _ & Hla). apply bind_Ok in Hla as (la' & Hov & [= <- <-]).
    destruct (plain_composes _ _ Hb) as (source1 & Hs1 & mods1 & _ & _ & Hp1 & _). rewrite Hs in Hs1. injection Hs1 as <-.
    rewrite app_nil_r in Hp1. exists (module_ids (patch_set base)). split; [done|].
    destruct (overlay_composes _ _ _ _ Hov) as (source2 & Hs2 & mods & Hof & Hc & Hp & Hpol). rewrite Hs in Hs2. injection Hs2 as <-.
    exists mods. unfold overlay_of. rewrite Hcl. split_and!; try done. by rewrite Hp, Hp1.
  - apply bind_Ok in Hla as (la' & Hl & [= <- <-]). unfold resolve_lane in Hl. rewrite Hs in Hl. cbn [mbind result_bind] in Hl.
    apply bind_Ok in Hl as (u2 & _ & Hl). apply bind_Ok in Hl as (rs & Hrs & Hl). exists (concat (map declared (so_patch_sets source))).
    split; [done|]. pose proof (base_composes _ _ _ _ Hrs) as (mods & Hof & Hc & Hp & Hpol). rewrite app_nil_r in Hp.
    unfold overlay_of. destruct experiment as [e|]; cbn [opt_truthy opt_or].
    2:{ injection Hl as <-. exists mods. cbn [patch_set]. rewrite app_nil_r. by split_and!. }
    destruct (truthy e) eqn:Et.
    + apply bind_Ok in Hl as (ex & Hex%of_option_Ok & Hl). apply bind_Ok in Hl as (ov & Hov & [= <-]).
      destruct (overlay_composes _ _ _ _ Hov) as (source2 & Hs2 & mods2 & Hof2 & Hc2 & Hp2 & Hpol2). rewrite Hs in Hs2. injection Hs2 as <-.
      exists mods2. cbn [patch_set]. rewrite Hex. by split_and!.
    + injection Hl as <-. exists mods. cbn [patch_set]. rewrite app_nil_r. by split_and!.
Qed.


End Lanes.

(** ** The properties are not empty *)

Definition demo_hash (s : string) : string := "digest".

Definition demo_module (pid : string) (order : Z) (state : string) (requires conflicts : list string) : PatchModule :=
  mkPatchModule "llamacpp" pid order state ("hash-" +:+ pid) requires conflicts None.

(** "two" comes before "one" by its number and after it by its requirement. *)
Definition demo_catalog : list PatchModule :=
  [demo_module "two" 1 "validated" ["one"] []; demo_module "one" 2 "validated" [] ["rival"];
   demo_module "fast" 3 "evaluated" ["two"] []; demo_module "helper" 4 "untested" [] [];
   demo_module "focal" 5 "untested" ["helper"; "one"] []; demo_module "rival" 6 "untested" [] [];
   demo_module "old" 7 "rejected" [] []].

Definition demo_config : Config :=
  mkConfig "b5000"
    (<["core" := mkPatchSet "core" ["two"; "one"] "validated"]> (<["extra" := mkPatchSet "extra" ["fast"] "evaluated"]> ∅))
    (<["main" := mkSource "main" "pinned" ["core"; "extra"]]> (<["stock" := mkSource "stock" "b4999" []]> ∅))
    (<["rivalry" := mkExperiment "rivalry" ["rival"]]> ∅).

Definition demo_select (source : string) (experiment focal : option string) : res SelectorIdentity :=
  resolve_canonical_selection demo_hash ∅ "llamacpp" source demo_config demo_catalog experiment focal.

Definition ids_of (r : res SelectorIdentity) : res (list string) := i ← r; Ok (patch_ids i).

Example demo_main : ids_of (demo_select "main" None None) = Ok ["one"; "two"; "fast"].
Proof. vm_compute. reflexivity. Qed.

Example demo_focal : ids_of (demo_select "main" None (Some "focal")) = Ok ["one"; "two"; "fast"; "helper"; "focal"].
Proof. vm_compute. reflexivity. Qed.

(** A module of the source conflicts with the experiment; of the empty source none does. *)
Example demo_rivalry :
  demo_select "main" (Some "rivalry") None =
    Err (ResolutionError "base module 'one' conflicts with overlay 'experiment:rivalry' module(s): rival") /\
  ids_of (demo_select "stock" (Some "rivalry") None) = Ok ["rival"].
Proof. vm_compute. by split. Qed.

Example demo_all : ids_of (build_all_patches_identity "llamacpp" demo_catalog) = Ok ["two"; "one"; "fast"; "helper"; "focal"; "rival"].
Proof. vm_compute. reflexivity. Qed.

Definition demo_identity : SelectorIdentity :=
  mkIdentity "llamacpp" "focal-overlay" "focal:focal" (Some "main") (Some "b5000") (Some "digest")
    ["one"; "two"; "fast"; "helper"; "focal"]
    [("one", "hash-one"); ("two", "hash-two"); ("fast", "hash-fast"); ("helper", "hash-helper"); ("focal", "hash-focal")].

Lemma demo_identity_value : demo_select "main" None (Some "focal") = Ok demo_identity.
Proof. vm_compute. reflexivity. Qed.

(** The fields in another order, and the version as a float: still the payload. *)
Definition demo_payload : list (string * json) :=
  ("module_hashes", JArr (map (fun e => JArr [JStr e.1; JStr e.2]) (module_hashes demo_identity))) ::
  ("schema_version", JFloat "3.0") :: take 7 (drop 1 (to_payload demo_identity)).

Example demo_payload_read :
  from_payload (JObj demo_payload) = Ok demo_identity /\
  (exists e, from_payload (JObj (("note", JNull) :: demo_payload)) = Err e) /\
  (exists e, from_payload (JObj (drop 1 demo_payload)) = Err e).
Proof. split_and!; [vm_compute; reflexivity|eexists; vm_compute; reflexivity..]. Qed.

Lemma payload_exact_witness : from_payload (JObj demo_payload) = Ok demo_identity.
Proof.
  apply payload_exact; [apply (bool_decide_eq_true_1 (NoDup _)); vm_compute; reflexivity|]. split; vm_compute; reflexivity.
Defined.

End Selection.
