(* ===== verification/Rebase.v ===== *)
(** Probing the patches against a revision, and the subset that is known to be
    good: [src/tools/bigcherry/patch/rebase.py].

    The worktree is a fixed tree, which a probe only reads.  [re] is the class
    [Regex] of Apply; a patch's implementation is Python code of its own, so
    loading one is a parameter, as is [git diff]. *)

From S2P Require Import Prelude Json Lines Tree Operations Csource Apply Patchset.
Import Json Lines Tree Csource Apply Patchset.

Module Rebase.

Definition RebaseCheckError (msg : string) : exn := Exn "RebaseCheckError" msg.

(** ** Statuses *)

(** [STATUS_*], of a patch or of a file. *)
Inductive PatchStatus : Set :=
  Clean | CleanNoop | NotApplicableByDesign | FailedNeedsReconciliation | BlockedByDependency | Quarantined | UpstreamAbsorbed.

#[global] Instance PatchStatus_eq_dec : EqDecision PatchStatus.
Proof. solve_decision. Defined.

(** [EDIT_*] *)
Inductive EditStatus : Set := EditApplied | EditAlreadyApplied | EditNotApplicable | EditFailed.

#[global] Instance EditStatus_eq_dec : EqDecision EditStatus.
Proof. solve_decision. Defined.

(** [REASON_*] *)
Inductive Reason : Set :=
  TargetMissing | AnchorNoMatch | AnchorMatchCount | AnchorSpanTooWide | InvalidAnchorRegex | UnsafeTarget | Other
  | UpstreamPresent | UpstreamGuardOnly.

#[global] Instance Reason_eq_dec : EqDecision Reason.
Proof. solve_decision. Defined.

(** ** Reasons, read from the messages of apply.py *)

(** [\d+] at the start of a text, with what follows. *)
Fixpoint digits_from (n : N) (s : string) : N * string :=
  match s with
  | String c s' => match digit_val c with Some d => digits_from (n * 10 + d) s' | None => (n, s) end
  | EmptyString => (n, EmptyString)
  end.

Definition digits (s : string) : option (N * string) :=
  match s with
  | String c s' => match digit_val c with Some d => Some (digits_from d s') | None => None end
  | EmptyString => None
  end.

(** A literal at the start. *)
Definition literal (lit s : string) : option string :=
  if startswith lit s then Some (str_drop (String.length lit) s) else None.

(** [_SPAN_RE] *)
Definition span_match (s : string) : option N :=
  s ← literal "matched " s; '(n, s) ← digits s; s ← literal " lines, more than the " s;
  '(_, s) ← digits s; _ ← literal "-line limit" s; Some n.

(** [_MATCH_COUNT_RE] *)
Definition count_match (s : string) : option N :=
  s ← literal "matched " s; '(n, s) ← digits s; s ← literal " time(s), expected" s;
  s ← literal " " (default s (literal " exactly" s)); _ ← digits s; Some n.

(** [search]: the leftmost place. *)
Fixpoint find_match {A} (m : string -> option A) (s : string) : option A :=
  match m s with
  | Some a => Some a
  | None => match s with String _ s' => find_match m s' | EmptyString => None end
  end.

Definition reason_for (detail : string) : Reason * option N :=
  if startswith "target file does not exist" detail then (TargetMissing, None)
  else
    match find_match span_match detail with
    | Some n => (AnchorSpanTooWide, Some n)
    | None =>
        match find_match count_match detail with
        | Some n => if (n =? 0)%N then (AnchorNoMatch, Some 0%N) else (AnchorMatchCount, Some n)
        | None => (Other, None)
        end
    end.

(** ** What a human reads *)

Definition line_number (text : string) (offset : nat) : Z := (count_lf (str_take offset text) + 1)%Z.

(** [f"{n:>6}"] *)
Definition right6 (s : string) : string := String.concat "" (repeat " " (6 - String.length s)) +:+ s.

Definition context_snippet (text : string) (offset : nat) (context_lines : Z) : string :=
  let lines := splitlines text in
  let line_no := line_number text offset in
  let start := Z.max 0 (line_no - 1 - context_lines) in
  let stop := Z.min (Z.of_nat (length lines)) (line_no + context_lines) in
  String.concat newline
    (map (fun il => right6 (show_nat (S il.1)) +:+ ": " +:+ il.2)
       (firstn (Z.to_nat (stop - start)) (drop (Z.to_nat start) (combine (seq 0 (length lines)) lines)))).

(** ** Probes *)

Record EditProbe : Type := mkEditProbe {
  ep_edit_id : string;
  ep_status : EditStatus;
  reason_code : option Reason;
  ep_anchor : string;
  ep_expect_matches : Z;
  actual_matches : option N;
  ep_applies_if : option string;
  ep_rationale : string;
  context : option string;
}.

Record FileProbe : Type := mkFileProbe { fpr_path : string; fpr_edits : list EditProbe }.

Record PatchProbe : Type := mkPatchProbe {
  pp_patch_id : string;
  implementation_digest : string;
  pp_state : string;
  pp_requires : list string;
  pp_conflicts : list string;
  pp_files : list FileProbe;
  pp_status : PatchStatus;
}.

Definition with_status (s : PatchStatus) (p : PatchProbe) : PatchProbe :=
  mkPatchProbe (pp_patch_id p) (implementation_digest p) (pp_state p) (pp_requires p) (pp_conflicts p) (pp_files p) s.

Definition has_status (s : EditStatus) (e : EditProbe) : bool := bool_decide (ep_status e = s).
Definition has_reason (r : Reason) (e : EditProbe) : bool := bool_decide (reason_code e = Some r).

(** [FileProbe.status] *)
Definition file_status (f : FileProbe) : PatchStatus :=
  let es := fpr_edits f in
  if existsb (has_status EditFailed) es then FailedNeedsReconciliation
  else if negb (bool_decide (es = [])) && forallb (has_reason UpstreamPresent) es then UpstreamAbsorbed
  else if existsb (has_reason UpstreamPresent) es || existsb (has_reason UpstreamGuardOnly) es then FailedNeedsReconciliation
  else if forallb (has_status EditNotApplicable) es then NotApplicableByDesign
  else if forallb (has_status EditAlreadyApplied) es then CleanNoop
  else Clean.

Definition is_status (s : PatchStatus) (f : FileProbe) : bool := bool_decide (file_status f = s).

Definition classify_files (fs : list FileProbe) : PatchStatus :=
  if existsb (is_status FailedNeedsReconciliation) fs then FailedNeedsReconciliation
  else if negb (bool_decide (fs = [])) && forallb (is_status UpstreamAbsorbed) fs then UpstreamAbsorbed
  else if existsb (is_status UpstreamAbsorbed) fs then FailedNeedsReconciliation
  else if forallb (is_status NotApplicableByDesign) fs then NotApplicableByDesign
  else if forallb (is_status CleanNoop) fs then CleanNoop
  else Clean.

(** [re.error], whose class the library has renamed. *)
Definition is_re_error (x : exn) : bool := str_in (exn_class x) ["error"; "PatternError"].

Notation texts := (gmap string string).
Notation catalog := (gmap string PatchModule).

(** ** Groups without conflicts *)

Section Groups.
Context (ms : gmap string PatchModule).

(** The search of [closure]: [stack] from its top, [fuel] for each visit. *)
Fixpoint close (fuel : nat) (seen : gset string) (stack : list string) : gset string :=
  match fuel, stack with
  | O, _ | _, [] => seen
  | S fuel', current :: stack' =>
      if bool_decide (current ∈ seen) then close fuel' seen stack'
      else close fuel' ({[ current ]} ∪ seen) (rev_append (requires_of ms current) stack')
  end.

(** Everything that can be pushed, and the start. *)
Definition close_fuel : nat := S (S (list_sum (map (fun kv => length (requires kv.2)) (map_to_list ms)))).

Definition closure (pid : string) : gset string := close close_fuel ∅ [pid].

Definition closure_conflicts (pid : string) : gset string :=
  ⋃ (map (fun member => match ms !! member with Some m => list_to_set (conflicts m) | None => ∅ end) (elements (closure pid))).

(** [isdisjoint] *)
Definition apart (x y : gset string) : bool := bool_decide (x ## y).

Definition fits (pid : string) (group : list string) : bool :=
  forallb (fun member => apart (closure_conflicts pid) (closure member)
                         && apart (closure_conflicts member) (closure pid)) group.

(** The first group it fits in, or one of its own. *)
Fixpoint place (pid : string) (groups : list (list string)) : list (list string) :=
  match groups with
  | [] => [[pid]]
  | group :: groups' => if fits pid group then (group ++ [pid]) :: groups' else group :: place pid groups'
  end.

Definition partition_conflict_free (ids : list string) : list (list string) :=
  fold_left (fun groups pid => place pid groups) ids [].
End Groups.

Section Probe.
Context `{Regex} (root : string) (tree : Tree.tree).
(** [registry.load_implementation]: engine, identifier, catalogue, digest. *)
Context (load_implementation : string -> string -> string -> string -> res (list FilePatch)).
(** [_diff_context] for a file of the worktree. *)
Context (diff_context : string -> option string) (context_lines : Z).

(** [patcher.apply_patch(p, root, dry_run=True, texts=ts)], with the texts after it *)
Definition dry_apply (p : FilePatch) (ts : texts) : res (PatchResult * texts) :=
  '(r, ts') ← (apply_patch root p true (Some ts) (mkDisk tree [])).1; Ok (r, default ∅ ts').

(** [patcher.FilePatch(path=patch.path, edits=(edit,), language=patch.language)] *)
Definition single (p : FilePatch) (e : Edit) : FilePatch := mkFilePatch (fp_path p) [e] "" (language p) false.

(** The probe of an edit, with what differs. *)
Definition edit_probe (e : Edit) (s : EditStatus) (r : option Reason) (n : option N) (c : option string) : EditProbe :=
  mkEditProbe (id e) s r (anchor e) (expect_matches e) n (applies_if e) (rationale e) c.

Definition bad_regex (what : string) (e : Edit) (x : exn) : EditProbe :=
  mkEditProbe (id e) EditFailed (Some InvalidAnchorRegex) (anchor e) (expect_matches e) None (applies_if e)
    ("invalid " +:+ what +:+ " regex: " +:+ exn_message x) None.

(** [edit.text and edit.text in pristine] *)
Definition contains (s t : string) : bool :=
  match find_match (fun u => if startswith s u then Some tt else None) t with Some _ => true | None => false end.

(** Why an edit's guard is there: whether upstream itself has it. *)
Definition upstream_reason (p : FilePatch) (e : Edit) (g : string) (target : path) (overlay_paths : list string) :
    res (option Reason) :=
  if str_in (fp_path p) overlay_paths then Ok None
  else
    match read_text tree target with
    | None => Ok None
    | Some pristine =>
        there ← search g pristine;
        Ok (if (there : bool) then
              Some (if truthy (Apply.text e) && contains (Apply.text e) pristine then UpstreamPresent else UpstreamGuardOnly)
            else None)
    end.

(** The edit's effect is committed to the shared texts. *)
Definition commit (p : FilePatch) (e : Edit) (ts : texts) : res texts :=
  '(merged, ts') ← dry_apply (single p e) ts;
  _ ← ensure (ok merged)
        (RebaseCheckError ("probe/commit divergence on " +:+ fp_path p +:+ "::" +:+ id e +:+ " -- "
           +:+ "this indicates a non-deterministic anchor or a bug in the probe"));
  Ok ts'.

(** The body of the loop over the edits; [text] is what the file had before it. *)
Definition probe_edit (p : FilePatch) (text : string) (target : path) (overlay_paths : list string) (ts : texts) (e : Edit) :
    res (EditProbe * texts) :=
  g ← guard_pattern e;
  match search g text with
  | Err x => if is_re_error x then Ok (bad_regex "guard" e x, ts) else Err x
  | Ok true =>
      reason ← upstream_reason p e g target overlay_paths;
      Ok (edit_probe e EditAlreadyApplied reason None None, ts)
  | Ok false =>
      match dry_apply (single p e) ts with
      | Err x => if is_re_error x then Ok (bad_regex "anchor" e x, ts) else Err x
      | Ok (result, _) =>
          edit_result ← of_option (Exn "IndexError" "list index out of range") (head (results result));
          match status edit_result with
          | NotApplicable => Ok (edit_probe e EditNotApplicable None None None, ts)
          | AlreadyApplied => Ok (edit_probe e EditAlreadyApplied None None None, ts)
          | Failed =>
              let '(reason, actual) := reason_for (detail edit_result) in
              let context := default (context_snippet text 0 context_lines) (diff_context (fp_path p)) in
              Ok (edit_probe e EditFailed (Some reason) actual (Some context), ts)
          | Applied => ts' ← commit p e ts; Ok (edit_probe e EditApplied None None None, ts')
          end
      end
  end.

Fixpoint probe_edits (p : FilePatch) (text : string) (target : path) (overlay_paths : list string) (ts : texts)
    (es : list Edit) : res (list EditProbe * texts) :=
  match es with
  | [] => Ok ([], ts)
  | e :: es' =>
      '(pr, ts1) ← probe_edit p text target overlay_paths ts e;
      '(prs, ts2) ← probe_edits p text target overlay_paths ts1 es';
      Ok (pr :: prs, ts2)
  end.

(** The text the edits are probed on. *)
Definition probe_text (p : FilePatch) (target : path) (ts : texts) : option string :=
  match ts !! fp_path p with
  | Some s => Some s
  | None => match read_text tree target with Some s => Some s | None => if create p then Some "" else None end
  end.

Definition probe_file_patch (overlay_paths : list string) (p : FilePatch) (ts : texts) : res (FileProbe * texts) :=
  match resolve_contained_target root tree (fp_path p) with
  | Err x =>
      if String.eqb (exn_class x) "PatchError" then
        Ok (mkFileProbe (fp_path p)
              [mkEditProbe "<file>" EditFailed (Some UnsafeTarget) "" 0 None None (exn_message x) None], ts)
      else Err x
  | Ok target =>
      match probe_text p target ts with
      | None => Ok (mkFileProbe (fp_path p) (map (fun e => edit_probe e EditFailed (Some TargetMissing) None None) (edits p)), ts)
      | Some text =>
          '(prs, ts') ← probe_edits p text target overlay_paths (<[fp_path p := text]> ts) (edits p);
          Ok (mkFileProbe (fp_path p) prs, ts')
      end
  end.

Fixpoint probe_files (overlay_paths : list string) (ps : list FilePatch) (ts : texts) : res (list FileProbe * texts) :=
  match ps with
  | [] => Ok ([], ts)
  | p :: ps' =>
      '(f, ts1) ← probe_file_patch overlay_paths p ts;
      '(fs, ts2) ← probe_files overlay_paths ps' ts1;
      Ok (f :: fs, ts2)
  end.

(** [_load_module_patches] *)
Definition load_module_patches (engine_name : string) (m : PatchModule) : res (list FilePatch) :=
  _ ← ensure (String.eqb (engine m) engine_name)
        (RebaseCheckError ("patch " +:+ py_repr (patch_id m) +:+ " belongs to engine " +:+ py_repr (engine m)
           +:+ ", not " +:+ py_repr engine_name));
  root ← of_option (RebaseCheckError ("patch " +:+ py_repr (patch_id m) +:+ " has no catalog root")) (catalog_root m);
  load_implementation engine_name (patch_id m) root (content_hash m).

Definition probe_of (m : PatchModule) (files : list FileProbe) (s : PatchStatus) : PatchProbe :=
  mkPatchProbe (patch_id m) (content_hash m) (state m) (requires m) (conflicts m) files s.

Definition probe_patch (engine_name : string) (m : PatchModule) (ts : texts) (overlay_paths : list string) :
    res (PatchProbe * texts) :=
  file_patches ← load_module_patches engine_name m;
  '(files, ts') ← probe_files overlay_paths file_patches ts;
  Ok (probe_of m files (if bool_decide (files = []) then CleanNoop else classify_files files), ts').

(** ** Known-good fixed point *)

Notation ids := (gset string).

(** [round_failed] *)
Definition is_failure (s : PatchStatus) : bool :=
  match s with FailedNeedsReconciliation | UpstreamAbsorbed => true | _ => false end.

(** One round: a probe of each patch that is left, in order, on shared texts. *)
Fixpoint probe_round (engine_name : string) (overlay_paths : list string) (ms : list PatchModule) (ts : texts) :
    res (list PatchProbe) :=
  match ms with
  | [] => Ok []
  | m :: ms' =>
      '(p, ts') ← probe_patch engine_name m ts overlay_paths;
      ps ← probe_round engine_name overlay_paths ms' ts';
      Ok (p :: ps)
  end.

(** The inner loop of [_propagate_dependency_blocks]. *)
Definition block_pass (ms : list PatchModule) (unavailable blocked : ids) : ids :=
  fold_left (fun blocked m =>
    if bool_decide (patch_id m ∈ unavailable ∪ blocked) then blocked
    else if existsb (fun d => bool_decide (d ∈ unavailable ∪ blocked)) (requires m) then {[ patch_id m ]} ∪ blocked
    else blocked) ms blocked.

(** The outer one: until a pass adds nothing. *)
Fixpoint propagate (fuel : nat) (ms : list PatchModule) (unavailable blocked : ids) : ids :=
  let blocked' := block_pass ms unavailable blocked in
  match fuel with
  | O => blocked'
  | S fuel' => if bool_decide (blocked' = blocked) then blocked' else propagate fuel' ms unavailable blocked'
  end.

Definition propagate_dependency_blocks (ms : list PatchModule) (unavailable : ids) : ids :=
  propagate (length ms) ms unavailable ∅.

(** What the loop keeps between two rounds. *)
Record Fixing : Type := mkFixing {
  quarantined : ids;
  blocked : ids;
  direct_failures : option ids;
  final_probes : gmap string PatchProbe;
}.

Definition failed_ids (ps : list PatchProbe) : list string :=
  map pp_patch_id (List.filter (fun p => is_failure (pp_status p)) ps).

Definition left_over (ms : list PatchModule) (s : Fixing) : list PatchModule :=
  List.filter (fun m => negb (bool_decide (patch_id m ∈ quarantined s ∪ blocked s))) ms.

Definition put_probes (ps : list PatchProbe) (m : gmap string PatchProbe) : gmap string PatchProbe :=
  fold_left (fun m p => <[pp_patch_id p := p]> m) ps m.

(** A round that found failures: they are quarantined, and what needs them is blocked. *)
Definition quarantine (ms : list PatchModule) (s : Fixing) (round : list PatchProbe) : Fixing :=
  let failed := list_to_set (failed_ids round) : ids in
  let direct := default failed (direct_failures s) in
  let newly_failed := List.filter (fun p => is_failure (pp_status p)
                        && negb (bool_decide (pp_patch_id p ∈ quarantined s))) round in
  let marked := map (fun p => if bool_decide (pp_patch_id p ∈ direct) then p else with_status Quarantined p) newly_failed in
  let quarantined' := quarantined s ∪ list_to_set (map pp_patch_id newly_failed) in
  let newly_blocked := propagate_dependency_blocks ms (quarantined' ∪ blocked s) ∖ (quarantined' ∪ blocked s) in
  let stubs := map (fun m => probe_of m [] BlockedByDependency)
                 (List.filter (fun m => bool_decide (patch_id m ∈ newly_blocked)) ms) in
  mkFixing quarantined' (blocked s ∪ newly_blocked) (Some direct) (put_probes stubs (put_probes marked (final_probes s))).

Fixpoint fixing_loop (fuel : nat) (engine_name : string) (ms : list PatchModule) (overlay_texts : texts) (s : Fixing) :
    res Fixing :=
  match fuel with
  | O => Err (Exn "OutOfFuel" "")
  | S fuel' =>
      round ← probe_round engine_name (map fst (map_to_list overlay_texts)) (left_over ms s) overlay_texts;
      if bool_decide (list_to_set (failed_ids round) ∖ quarantined s = (∅ : ids))
      then Ok (mkFixing (quarantined s) (blocked s) (direct_failures s) (put_probes round (final_probes s)))
      else fixing_loop fuel' engine_name ms overlay_texts (quarantine ms s round)
  end.

Definition known_good (ms : list PatchModule) (s : Fixing) : list string := map patch_id (left_over ms s).

Definition quarantine_fixed_point (engine_name : string) (selection : ResolvedPatchSet) (overlay_texts : texts) :
    res (gmap string PatchProbe * list string) :=
  s ← fixing_loop (S (length (modules selection))) engine_name (modules selection) overlay_texts (mkFixing ∅ ∅ None ∅);
  Ok (final_probes s, known_good (modules selection) s).

(** ** The whole check *)

(** One group, in a worktree of its own. *)
Definition probe_group (engine_name : string) (group_ids context_ids : list string) (ms : catalog) (overlay_texts : texts) :
    res (list PatchModule * gmap string PatchProbe * list string) :=
  selection ← (match resolve_exact_from_catalog engine_name group_ids ms None false context_ids with
               | Err x => if String.eqb (exn_class x) "ValueError"
                          then Err (RebaseCheckError ("patch-rebase-check: " +:+ exn_message x)) else Err x
               | r => r
               end);
  '(probes, good) ← quarantine_fixed_point engine_name selection overlay_texts;
  Ok (modules selection, probes, good).

(** What a group requires of other groups. *)
Definition context_of (group_ids : list string) (ms : catalog) : res (list string) :=
  reqs ← mapR (fun pid => m ← module_at ms pid; Ok (List.filter (fun d => negb (str_in d group_ids)) (requires m))) group_ids;
  Ok (concat reqs).

Fixpoint probe_groups (engine_name : string) (groups : list (list string)) (ms : catalog) (overlay_texts : texts) :
    res (list PatchModule * gmap string PatchProbe * list string) :=
  match groups with
  | [] => Ok ([], ∅, [])
  | group_ids :: groups' =>
      context ← context_of group_ids ms;
      '(mods, probes, good) ← probe_group engine_name group_ids context ms overlay_texts;
      '(mods', probes', good') ← probe_groups engine_name groups' ms overlay_texts;
      Ok (mods ++ mods', probes' ∪ probes, good ++ good')
  end.

Record Summary : Type := mkSummary {
  total : nat; clean : nat; not_applicable : nat; failed : nat; blocked_by_dependency : nat; n_quarantined : nat;
  upstream_absorbed : nat; reconciliation_required : bool;
}.

Definition count (ss : list PatchStatus) (ps : list PatchProbe) : nat :=
  length (List.filter (fun p => bool_decide (pp_status p ∈ ss)) ps).

Definition summarise (ordered : list PatchProbe) : Summary :=
  let f := count [FailedNeedsReconciliation] ordered in
  let b := count [BlockedByDependency] ordered in
  let q := count [Quarantined] ordered in
  let u := count [UpstreamAbsorbed] ordered in
  mkSummary (length ordered) (count [Clean; CleanNoop] ordered) (count [NotApplicableByDesign] ordered) f b q u
    (negb (f =? 0)%nat || negb (b =? 0)%nat || negb (q =? 0)%nat || negb (u =? 0)%nat).

Record Report : Type := mkReport {
  known_good_patch_ids : list string;
  summary : Summary;
  patches : list PatchProbe;
}.

(** The groups of the check: all alternatives apart, or the one composition. *)
Definition run_rebase_check (engine_name : string) (all_patches : bool) (patch_ids : list string) (ms : catalog)
    (overlay_texts : texts) : res Report :=
  '(mods, probes, good) ←
    (if all_patches then probe_groups engine_name (partition_conflict_free ms patch_ids) ms overlay_texts
     else probe_group engine_name patch_ids [] ms overlay_texts);
  let ordered := omap (fun m => probes !! patch_id m) mods in
  Ok (mkReport good (summarise ordered) ordered).

(** ** Applying the known-good subset *)

(** What the entries of a report say the implementations are. *)
Definition digests (report : list PatchProbe) : list (string * string) :=
  map (fun p => (pp_patch_id p, implementation_digest p)) report.

(** The implementations [apply_known_good] applies, each by its digest in the report. *)
Definition known_good_patches (engine_name : string) (good : list string) (ms : catalog) (report_digests : list (string * string)) :
    res (list FilePatch) :=
  resolved ← (if bool_decide (good = []) then Ok (mkResolved [] None)
              else resolve_exact_from_catalog engine_name good ms None true []);
  loaded ← mapR (fun m =>
    root ← (match catalog_root m with
            | Some root => if String.eqb (engine m) engine_name then Ok root
                           else Err (RebaseCheckError ("patch " +:+ py_repr (patch_id m) +:+ " is not bound to engine " +:+ py_repr engine_name))
            | None => Err (RebaseCheckError ("patch " +:+ py_repr (patch_id m) +:+ " is not bound to engine " +:+ py_repr engine_name))
            end);
    digest ← item report_digests (patch_id m);
    load_implementation engine_name (patch_id m) root digest) (modules resolved);
  Ok (concat loaded).
End Probe.


(** ** The groups *)

Section GroupsSpec.
Context (ms : gmap string PatchModule).

Definition weigh (seen : gset string) (l : list (string * PatchModule)) : nat :=
  list_sum (map (fun kv => if bool_decide (kv.1 ∈ seen) then 0 else length (requires kv.2)) l).

Lemma weigh_cons seen kv l :
  weigh seen (kv :: l) = (if bool_decide (kv.1 ∈ seen) then 0 else length (requires kv.2)) + weigh seen l.
Proof. done. Qed.

Lemma weigh_grows x seen l : weigh ({[ x ]} ∪ seen) l <= weigh seen l.
Proof.
  induction l as [|kv l IH]; [done|]. rewrite !weigh_cons.
  destruct (bool_decide_reflect (kv.1 ∈ seen)) as [Hin|Hin]; [rewrite bool_decide_eq_true_2 by set_solver; lia|].
  case_bool_decide; lia.
Qed.

Lemma weigh_visit x m seen l : (x, m) ∈ l -> ~ x ∈ seen -> weigh ({[ x ]} ∪ seen) l + length (requires m) <= weigh seen l.
Proof.
  intros Hin Hx. induction l as [|kv l IH]; [by apply elem_of_nil in Hin|].
  rewrite !weigh_cons. apply elem_of_cons in Hin as [<-|Hin].
  - cbn [fst snd]. rewrite bool_decide_eq_true_2, bool_decide_eq_false_2 by set_solver.
    pose proof (weigh_grows x seen l). lia.
  - specialize (IH Hin). destruct (bool_decide_reflect (kv.1 ∈ seen)); [rewrite bool_decide_eq_true_2 by set_solver; lia|].
    case_bool_decide; lia.
Qed.

Lemma weigh_requires x seen : ~ x ∈ seen ->
  weigh ({[ x ]} ∪ seen) (map_to_list ms) + length (requires_of ms x) <= weigh seen (map_to_list ms).
Proof.
  intros Hx. unfold requires_of. destruct (ms !! x) as [m|] eqn:E.
  - apply weigh_visit; [by apply elem_of_map_to_list|done].
  - cbn. pose proof (weigh_grows x seen (map_to_list ms)). lia.
Qed.

(** With enough fuel the search has visited everything it can reach. *)
Lemma close_spec fuel seen stack :
  length stack + weigh seen (map_to_list ms) < fuel ->
  let r := close ms fuel seen stack in
  seen ⊆ r /\ (forall x, x ∈ stack -> x ∈ r) /\ (forall x d, x ∈ r -> ~ x ∈ seen -> d ∈ requires_of ms x -> d ∈ r) /\
  (forall x, x ∈ r -> x ∈ seen \/ exists y, y ∈ stack /\ rtc (needs ms) y x).
Proof.
  revert seen stack. induction fuel as [|fuel IH]; intros seen stack Hf; [lia|]. cbn [close].
  destruct stack as [|c stack]; cbn [length] in Hf.
  { split_and!; [done|intros x ?%elem_of_nil; done|done|auto]. }
  case_bool_decide as Hc.
  - destruct (IH seen stack ltac:(lia)) as (H1 & H2 & H3 & H4). split_and!; [done| |done|].
    + intros x [->|Hx]%elem_of_cons; [by apply H1|by apply H2].
    + intros x [?|(y & Hy & Hr)]%H4; [by left|right]. exists y. split; [by right|done].
  - pose proof (weigh_requires c seen Hc).
    destruct (IH ({[c]} ∪ seen) (rev_append (requires_of ms c) stack)) as (H1 & H2 & H3 & H4).
    { rewrite rev_append_rev, length_app, length_rev. lia. }
    assert (forall x, x ∈ rev_append (requires_of ms c) stack <-> x ∈ requires_of ms c \/ x ∈ stack) as Hst.
    { intros x. rewrite rev_append_rev, elem_of_app, !list_elem_of_In, <- in_rev. done. }
    setoid_rewrite Hst in H2. setoid_rewrite Hst in H4. split_and!.
    + set_solver.
    + intros x [->|Hx]%elem_of_cons; [set_solver|]. apply H2. by right.
    + intros x d Hx Hs Hd. destruct (decide (x = c)) as [->|]; [apply H2; by left|]. apply (H3 x); [done|set_solver|done].
    + intros x [[->%elem_of_singleton|Hx]%elem_of_union|(y & [Hy|Hy] & Hr)]%H4.
      * right. exists c. split; [by left|done].
      * by left.
      * right. exists c. split; [by left|]. by eapply rtc_l.
      * right. exists y. split; [by right|done].
Qed.

Lemma weigh_nothing l : weigh ∅ l = list_sum (map (fun kv => length (requires kv.2)) l).
Proof.
  induction l as [|kv l IH]; [done|]. rewrite weigh_cons, IH. by rewrite bool_decide_eq_false_2 by set_solver.
Qed.

Lemma close_fuel_enough (pid : string) : length [pid] + weigh ∅ (map_to_list ms) < close_fuel ms.
Proof. rewrite weigh_nothing. unfold close_fuel. cbn [length]. lia. Qed.

(** The closure is what is reachable over [requires]. *)
Lemma closure_reaches pid x : x ∈ closure ms pid <-> rtc (needs ms) pid x.
Proof.
  destruct (close_spec (close_fuel ms) ∅ [pid] (close_fuel_enough pid)) as (_ & Hin & Hcl & Hwhy). unfold closure. split.
  - intros [Hx|(y & ->%list_elem_of_singleton & Hr)]%Hwhy; [set_solver|done].
  - intros Hr. assert (pid ∈ close ms (close_fuel ms) ∅ [pid]) as Hp by (apply Hin; by left).
    revert Hp. revert Hcl. generalize (close ms (close_fuel ms) ∅ [pid]) as r. clear Hin Hwhy. intros r Hcl. induction Hr as [y|y z w Hyz _ IH]; [done|]. intros Hy. apply IH. by eapply (Hcl y); [|set_solver|].
Qed.
(** Two patches that cannot be probed together. *)
Definition clash (x y : string) : Prop :=
  exists a c, rtc (needs ms) x a /\ (exists m, ms !! a = Some m /\ c ∈ conflicts m) /\ rtc (needs ms) y c.

Lemma closure_conflicts_spec pid c :
  c ∈ closure_conflicts ms pid <-> exists a m, rtc (needs ms) pid a /\ ms !! a = Some m /\ c ∈ conflicts m.
Proof.
  unfold closure_conflicts. rewrite elem_of_union_list. setoid_rewrite list_elem_of_fmap.
  setoid_rewrite elem_of_elements. setoid_rewrite closure_reaches. split.
  - intros (X & (a & -> & Ha) & Hc). destruct (ms !! a) as [m|] eqn:E; [|set_solver]. exists a, m.
    by rewrite elem_of_list_to_set in Hc.
  - intros (a & m & Ha & Hm & Hc). exists (list_to_set (conflicts m)). split; [|by rewrite elem_of_list_to_set].
    exists a. by rewrite Hm.
Qed.

Lemma apart_clash x y : apart (closure_conflicts ms x) (closure ms y) = true <-> ~ clash x y.
Proof.
  unfold apart, clash. rewrite bool_decide_eq_true. setoid_rewrite elem_of_disjoint.
  setoid_rewrite closure_conflicts_spec. setoid_rewrite closure_reaches. naive_solver.
Qed.

Lemma fits_spec pid group : fits ms pid group = true <-> forall y, y ∈ group -> ~ clash pid y /\ ~ clash y pid.
Proof.
  unfold fits. rewrite forallb_forall. setoid_rewrite <- list_elem_of_In. setoid_rewrite andb_true_iff.
  by setoid_rewrite apart_clash.
Qed.

(** No two of the list clash. *)
Fixpoint peaceful (l : list string) : Prop :=
  match l with [] => True | x :: l' => (forall y, y ∈ l' -> ~ clash x y /\ ~ clash y x) /\ peaceful l' end.

Lemma peaceful_snoc l x : peaceful l -> (forall y, y ∈ l -> ~ clash x y /\ ~ clash y x) -> peaceful (l ++ [x]).
Proof.
  induction l as [|z l IH]; cbn [peaceful app]; [intros _ _; split; [by intros y ?%elem_of_nil|done]|]. intros [Hz Hl] Hx. split.
  - intros y [Hy|Hy%list_elem_of_singleton]%elem_of_app; [by apply Hz|]. subst y. destruct (Hx z); [by left|done].
  - apply IH; [done|]. intros y Hy. apply Hx. by right.
Qed.

(** Each group opens with a patch that clashes with one of every group before. *)
Fixpoint needed (before groups : list (list string)) : Prop :=
  match groups with
  | [] => True
  | g :: groups' =>
      (exists x l, g = x :: l /\ forall h, h ∈ before -> exists y, y ∈ h /\ (clash x y \/ clash y x)) /\
      needed (before ++ [g]) groups'
  end.

Lemma place_perm pid groups : concat (place ms pid groups) ≡ₚ concat groups ++ [pid].
Proof.
  induction groups as [|g groups IH]; [done|]. cbn [place]. destruct (fits ms pid g); cbn [concat].
  - rewrite <- !app_assoc. f_equiv. apply Permutation_app_comm.
  - by rewrite IH, app_assoc.
Qed.

Lemma place_peaceful pid groups : Forall peaceful groups -> Forall peaceful (place ms pid groups).
Proof.
  induction 1 as [|g groups Hg Hgs IH]; [constructor; [split; [by intros y ?%elem_of_nil|done]|constructor]|]. cbn [place].
  destruct (fits ms pid g) eqn:E; [|by constructor]. constructor; [|done]. apply peaceful_snoc; [done|]. by apply fits_spec.
Qed.

Lemma apart_false x y : apart (closure_conflicts ms x) (closure ms y) = false -> clash x y.
Proof.
  unfold apart. intros Hd%bool_decide_eq_false.
  destruct (set_choose_or_empty (closure_conflicts ms x ∩ closure ms y)) as [[c Hc]|He]; [|set_solver].
  apply elem_of_intersection in Hc as [(a & m & Ha & Hm & Hc)%closure_conflicts_spec Hr%closure_reaches].
  exists a, c. split_and!; [done|by exists m|done].
Qed.

Lemma fits_false pid g : fits ms pid g = false -> exists y, y ∈ g /\ (clash pid y \/ clash y pid).
Proof.
  unfold fits. induction g as [|y g IH]; [done|]. cbn [forallb]. intros [[H|H]%andb_false_iff|H]%andb_false_iff.
  - exists y. split; [by left|left; by apply apart_false].
  - exists y. split; [by left|right; by apply apart_false].
  - destruct (IH H) as (z & Hz & Hc). exists z. split; [by right|done].
Qed.

Lemma needed_mono b b' gs : (forall h, h ∈ b' -> exists h0, h0 ∈ b /\ forall y, y ∈ h0 -> y ∈ h) -> needed b gs -> needed b' gs.
Proof.
  revert b b'. induction gs as [|g gs IH]; intros b b' Hb; [done|]. cbn [needed]. intros [(x & l & -> & Hx) Hgs]. split.
  - exists x, l. split; [done|]. intros h (h0 & Hh0 & Hs)%Hb. destruct (Hx h0 Hh0) as (y & Hy & Hc). exists y. auto.
  - eapply IH; [|exact Hgs]. intros h [Hh|Hh%list_elem_of_singleton]%elem_of_app.
    + destruct (Hb h Hh) as (h0 & Hh0 & Hs). exists h0. split; [apply elem_of_app; by left|done].
    + subst h. exists (x :: l). split; [apply elem_of_app; right; by left|done].
Qed.

Lemma place_needed pid before groups :
  (forall h, h ∈ before -> exists y, y ∈ h /\ (clash pid y \/ clash y pid)) ->
  needed before groups -> needed before (place ms pid groups).
Proof.
  revert before. induction groups as [|g groups IH]; intros before Hb.
  { intros _. split; [|done]. by exists pid, []. }
  cbn [needed place]. intros [(x & l & -> & Hx) Hg]. destruct (fits ms pid (x :: l)) eqn:E; cbn [needed]; (split; [by eexists _, _|]).
  - eapply needed_mono; [|exact Hg]. intros h [Hh|Hh%list_elem_of_singleton]%elem_of_app.
    + exists h. split; [apply elem_of_app; by left|done].
    + subst h. exists (x :: l). split; [apply elem_of_app; right; by left|]. intros y Hy. apply elem_of_app. by left.
  - apply IH; [|done]. intros h [Hh|Hh%list_elem_of_singleton]%elem_of_app; [by apply Hb|]. subst h. by apply fits_false.
Qed.

(** The patches of a whole registry are split into groups that can be
    probed together: every patch is in exactly one group, no patch of a group
    conflicts, itself or through anything it requires however indirectly, with
    another of the group or anything that one requires; and no group is
    superfluous, for each opens with a patch that clashes with one of every
    group before it. *)
Theorem partition_spec ids :
  let groups := partition_conflict_free ms ids in
  concat groups ≡ₚ ids /\ Forall peaceful groups /\ needed [] groups.
Proof.
  unfold partition_conflict_free.
  assert (forall gs, Forall peaceful gs -> needed [] gs ->
    let groups := fold_left (fun groups pid => place ms pid groups) ids gs in
    concat groups ≡ₚ concat gs ++ ids /\ Forall peaceful groups /\ needed [] groups) as H; [|by apply (H [])].
  induction ids as [|pid ids IH]; intros gs Hp Hn; cbn [fold_left]; [by rewrite app_nil_r|].
  destruct (IH (place ms pid gs)) as (H1 & H2 & H3).
  - by apply place_peaceful.
  - apply place_needed; [by intros h ?%elem_of_nil|done].
  - split_and!; [|done|done]. by rewrite H1, place_perm, <- app_assoc.
Qed.
End GroupsSpec.

(** ** A probe finds what applying does *)

Section Agree.
Context `{RegexLaws} (root : string) (tree : Tree.tree).

Lemma dry_single p e ts t target :
  ts !! fp_path p = Some t -> resolve_contained_target root tree (fp_path p) = Ok target ->
  dry_apply root tree (single p e) ts =
    '(t', r) ← apply_edit (dialect p) t e;
    Ok (mkPatchResult (fp_path p) [r] (negb (String.eqb t' t)), <[fp_path p := t']> ts).
Proof.
  intros Ht Hr. unfold dry_apply, apply_patch, start_text. cbn [single fp_path edits create].
  unfold mbind at 2, stm_bind, get. cbn [files]. rewrite Hr. unfold lift at 1, mbind at 2, stm_bind. cbn [option_bind mbind].
  unfold mbind, option_bind. rewrite Ht. unfold lift, stm_bind, result_bind. cbn [apply_edits].
  change (dialect (single p e)) with (dialect p). destruct (apply_edit (dialect p) t e) as [[t' r]|x]; [|done].
  cbn. by rewrite andb_false_r.
Qed.

(** No edit of the file that was found in place comes after one that was applied. *)
Fixpoint settled (es : list EditProbe) : bool :=
  match es with
  | [] => true
  | e :: es' => negb (has_status EditApplied e && existsb (has_status EditAlreadyApplied) es') && settled es'
  end.

Definition fine (r : EditResult) : bool := negb (bool_decide (status r = Failed)).

Context (diff_context : string -> option string) (context_lines : Z).

(** What one probe says is what the edit does to the text that is there. *)
Lemma probe_edit_agrees p text target ov ts t e pr ts' :
  ts !! fp_path p = Some t -> resolve_contained_target root tree (fp_path p) = Ok target ->
  probe_edit root tree diff_context context_lines p text target ov ts e = Ok (pr, ts') ->
  has_status EditFailed pr = false -> (t = text \/ has_status EditAlreadyApplied pr = false) ->
  exists t' r, apply_edit (dialect p) t e = Ok (t', r) /\ fine r = true /\ ts' = <[fp_path p := t']> ts /\
    (has_status EditApplied pr = false -> t' = t).
Proof.
  intros Ht Hr Hp Hf Hs. unfold probe_edit in Hp. apply bind_Ok in Hp as (g & Hg & Hp).
  destruct (search g text) as [[]|x] eqn:Es.
  - apply bind_Ok in Hp as (reason & _ & [= <- <-]). destruct Hs as [->|Hs]; [|by cbn in Hs].
    exists text, (mkEditResult (id e) AlreadyApplied "guard matched; left unchanged"). unfold apply_edit. rewrite Hg. cbn [mbind result_bind].
    rewrite Es. split_and!; try done. by rewrite insert_id.
  - destruct (dry_apply root tree (single p e) ts) as [[result ts1]|x] eqn:Ed.
    2:{ destruct (is_re_error x); [|done]. by injection Hp as <- <-. }
    pose proof Ed as Ed'. rewrite (dry_single p e ts t target Ht Hr) in Ed'. apply bind_Ok in Ed' as ([t' r] & Ha & [= <- <-]).
    cbn [results head of_option mbind result_bind] in Hp. exists t', r. pose proof (apply_edit_cases _ _ _ _ _ Ha) as (_ & g0 & there & _ & _ & Hcase).
    unfold fine. destruct (status r) eqn:E; cbn [negb] in *.
    + apply bind_Ok in Hp as (ts2 & Hc & [= <- <-]). unfold commit in Hc. rewrite Ed in Hc. cbn [mbind result_bind] in Hc.
      apply bind_Ok in Hc as (u & _ & [= <-]). by split_and!.
    + injection Hp as <- <-. destruct Hcase as [_ ->]. split_and!; try done. by rewrite insert_id.
    + injection Hp as <- <-. destruct Hcase as (_ & -> & _). split_and!; try done. by rewrite insert_id.
    + destruct (reason_for _) as [a b]. by injection Hp as <- <-.
  - destruct (is_re_error x); [|done]. by injection Hp as <- <-.
Qed.

Lemma probe_edits_agree p text target ov es ts t prs ts' :
  ts !! fp_path p = Some t -> resolve_contained_target root tree (fp_path p) = Ok target ->
  probe_edits root tree diff_context context_lines p text target ov ts es = Ok (prs, ts') ->
  existsb (has_status EditFailed) prs = false -> (t = text \/ existsb (has_status EditAlreadyApplied) prs = false) ->
  settled prs = true ->
  exists t' rs, apply_edits (dialect p) t es = Ok (t', rs) /\ forallb fine rs = true /\ ts' = <[fp_path p := t']> ts.
Proof.
  revert ts t prs ts'. induction es as [|e es IH]; intros ts t prs ts' Ht Hr; cbn [probe_edits].
  { intros [= <- <-] _ _ _. exists t, []. split_and!; try done. by rewrite insert_id. }
  intros ([pr ts1] & H1 & Hp)%bind_Ok. apply bind_Ok in Hp as ([prs1 ts2] & H2 & [= <- <-]).
  cbn [existsb settled]. intros [Hf1 Hf2]%orb_false_iff Ha [Hset1 Hset2]%andb_true_iff.
  destruct (probe_edit_agrees _ _ _ _ _ _ _ _ _ Ht Hr H1 Hf1) as (t' & r & Hap & Hfr & -> & Hsame).
  { destruct Ha as [->|[? _]%orb_false_iff]; [by left|by right]. }
  destruct (IH (<[fp_path p := t']> ts) t' prs1 ts2) as (t2 & rs & Hap2 & Hfr2 & ->); try done.
  { by rewrite lookup_insert_eq. }
  { destruct Ha as [->|[_ ?]%orb_false_iff]; [|by right]. destruct (has_status EditApplied pr) eqn:E; [right|left; by apply Hsame].
    by apply negb_true_iff in Hset1. }
  exists t2, (r :: rs). cbn [apply_edits forallb]. rewrite Hap. cbn [mbind result_bind]. rewrite Hap2. split_and!; [done|by rewrite Hfr|].
  by rewrite insert_insert_eq.
Qed.
(** A file patch whose probe can be relied on: it has an edit, and a file it
    creates is not in the tree already. *)
Definition dependable (overlay_texts : texts) (p : FilePatch) : Prop :=
  edits p <> [] /\
  (create p = true -> is_Some (overlay_texts !! fp_path p) \/ read_text tree (Operations.parts (fp_path p)) = None).

Definition failing (f : FileProbe) : bool := is_failure (file_status f).

Lemma sound_file f : failing f = false -> existsb (has_status EditFailed) (fpr_edits f) = false.
Proof. unfold failing, file_status. by destruct (existsb (has_status EditFailed) _). Qed.

Lemma sound_files fs : is_failure (classify_files fs) = false -> forallb (fun f => negb (failing f)) fs = true.
Proof.
  unfold classify_files. destruct (existsb (is_status FailedNeedsReconciliation) fs) eqn:E1; [done|].
  destruct (negb _ && _); [done|]. destruct (existsb (is_status UpstreamAbsorbed) fs) eqn:E2; [done|]. intros _.
  apply forallb_forall. intros f Hf. unfold failing. destruct (file_status f) eqn:E; try done; exfalso.
  - apply not_true_iff_false in E1. apply E1, existsb_exists. exists f. unfold is_status. by rewrite E.
  - apply not_true_iff_false in E2. apply E2, existsb_exists. exists f. unfold is_status. by rewrite E.
Qed.

Lemma subseteq_insert_dom (overlay ts : texts) k v : dom overlay ⊆ dom ts -> dom overlay ⊆ dom (<[k := v]> ts).
Proof. rewrite dom_insert. set_solver. Qed.

Lemma file_agrees ov overlay p ts f ts' w :
  files w = tree -> dom overlay ⊆ dom ts -> dependable overlay p ->
  probe_file_patch root tree diff_context context_lines ov p ts = Ok (f, ts') ->
  failing f = false -> settled (fpr_edits f) = true ->
  dom overlay ⊆ dom ts' /\ exists r, apply_patch root p true (Some ts) w = (Ok (r, Some ts'), w) /\ ok r = true.
Proof.
  intros Hw Hdom [Hne Hc] Hp Hf%sound_file Hs. unfold probe_file_patch in Hp.
  destruct (resolve_contained_target root tree (fp_path p)) as [target|x] eqn:Hr.
  2:{ destruct (String.eqb _ _); [|done]. by injection Hp as <- <-. }
  destruct (probe_text tree p target ts) as [text|] eqn:Ht.
  2:{ injection Hp as <- <-. cbn [fpr_edits] in Hf. by destruct (edits p). }
  apply bind_Ok in Hp as ([prs ts1] & Hp & [= <- <-]). cbn [fpr_edits] in *.
  destruct (probe_edits_agree p text target ov (edits p) (<[fp_path p := text]> ts) text prs ts1) as (t' & rs & Ha & Hrs & ->);
    try done; [by rewrite lookup_insert_eq|by left|].
  assert (start_text p target (Some ts) tree = Ok (inl text)) as Hstart.
  { unfold start_text, probe_text in *. cbn [mbind option_bind]. destruct (ts !! fp_path p) as [s'|] eqn:El; [by injection Ht as <-|].
    pose proof (resolve_Ok _ _ _ _ Hr) as ->. destruct (read_text tree (Operations.parts (fp_path p))) as [s'|] eqn:Er.
    - injection Ht as <-. destruct (create p); [|done]. destruct (Hc eq_refl) as [[v Hv]|]; [|done].
      assert (fp_path p ∈ dom ts) as Hin by (apply Hdom, elem_of_dom; by exists v). apply elem_of_dom in Hin as [? ?]. congruence.
    - destruct (create p); [by injection Ht as <-|done]. }
  split; [apply subseteq_insert_dom, subseteq_insert_dom, Hdom|]. rewrite insert_insert_eq.
  exists (mkPatchResult (fp_path p) rs (negb (String.eqb t' text))). split; [|exact Hrs].
  unfold apply_patch, mbind, stm_bind, get, lift. rewrite Hw, Hr, Hstart, Ha. by rewrite andb_false_r.
Qed.

Lemma trial_pass_cons p ps ts w r ts1 :
  apply_patch root p true (Some ts) w = (Ok (r, Some ts1), w) ->
  trial_pass root (p :: ps) ts w =
    match trial_pass root ps ts1 w with (Ok (rs, ts2), w') => (Ok (r :: rs, ts2), w') | (Err e, w') => (Err e, w') end.
Proof.
  intros Ha. cbn [trial_pass]. unfold mbind, stm_bind. rewrite Ha. change (default ∅ (Some ts1)) with ts1.
  by destruct (trial_pass root ps ts1 w) as [[[rs ts2]|e] w'].
Qed.

Definition settled_probe (p : PatchProbe) : bool := forallb (fun f => settled (fpr_edits f)) (pp_files p).

(** Patches whose trial, from [ts] on, succeeds and leaves [ts']. *)
Definition passes (w : Disk) (ps : list FilePatch) (ts ts' : texts) : Prop :=
  exists rs, trial_pass root ps ts w = (Ok (rs, ts'), w) /\ forallb ok rs = true.

Lemma passes_app w ps qs ts1 ts2 ts3 : passes w ps ts1 ts2 -> passes w qs ts2 ts3 -> passes w (ps ++ qs) ts1 ts3.
Proof.
  intros (rs & Hp & Hok) (rs2 & Hq & Hok2). revert ts1 rs Hp Hok. induction ps as [|p ps IH]; intros ts1 rs Hp Hok.
  { injection Hp as <- <-. by exists rs2. }
  cbn [trial_pass] in Hp. unfold mbind at 1, stm_bind at 1 in Hp.
  destruct (apply_patch root p true (Some ts1) w) as [[[r o]|e] w1] eqn:E; [|done]. pose proof (apply_patch_dry _ _ _ _ _ _ E) as ->.
  unfold mbind, stm_bind in Hp. destruct (trial_pass root ps (default ∅ o) w) as [[[rs1 ts4]|e] w2] eqn:E2; [|done].
  injection Hp as <- <- ->. cbn [forallb] in Hok. apply andb_true_iff in Hok as [Hr Hok].
  destruct (IH _ _ E2 Hok) as (rs3 & H3 & Hok3). exists (r :: rs3). split; [|cbn; by rewrite Hr].
  change ((p :: ps) ++ qs) with (p :: (ps ++ qs)). cbn [trial_pass]. unfold mbind at 1, stm_bind at 1. rewrite E.
  unfold mbind, stm_bind. by rewrite H3.
Qed.

Lemma files_agree ov overlay ps ts fs ts' w :
  files w = tree -> dom overlay ⊆ dom ts -> (forall p, p ∈ ps -> dependable overlay p) ->
  probe_files root tree diff_context context_lines ov ps ts = Ok (fs, ts') ->
  forallb (fun f => negb (failing f)) fs = true -> forallb (fun f => settled (fpr_edits f)) fs = true ->
  dom overlay ⊆ dom ts' /\ passes w ps ts ts'.
Proof.
  intros Hw. revert ts fs ts'. induction ps as [|p ps IH]; intros ts fs ts' Hdom Hdep; cbn [probe_files].
  { intros [= <- <-] _ _. split; [done|]. by exists []. }
  intros ([f ts1] & H1 & Hp)%bind_Ok. apply bind_Ok in Hp as ([fs1 ts2] & H2 & [= <- <-]). cbn [forallb].
  intros [Hf%negb_true_iff Hfs]%andb_true_iff [Hs Hss]%andb_true_iff.
  destruct (file_agrees ov overlay p ts f ts1 w) as (Hd1 & r & Ha & Hok); try done; [apply Hdep; by left|].
  destruct (IH ts1 fs1 ts2) as (Hd2 & Hps); try done; [intros q Hq; apply Hdep; by right|]. split; [done|].
  apply (passes_app w [p] ps ts ts1 ts2); [|done]. exists [r]. rewrite (trial_pass_cons _ _ _ _ _ _ Ha). split; [done|cbn; by rewrite Hok].
Qed.

Context (load_implementation : string -> string -> string -> string -> res (list FilePatch)) (engine_name : string).

(** Rounds in which nothing fails: the implementations that were loaded pass. *)
Lemma round_agrees ov overlay ms ts ps w :
  files w = tree -> dom overlay ⊆ dom ts ->
  (forall m fps p, m ∈ ms -> load_module_patches load_implementation engine_name m = Ok fps -> p ∈ fps -> dependable overlay p) ->
  probe_round root tree load_implementation diff_context context_lines engine_name ov ms ts = Ok ps ->
  forallb (fun p => negb (is_failure (pp_status p))) ps = true -> forallb settled_probe ps = true ->
  exists fpss ts', mapR (load_module_patches load_implementation engine_name) ms = Ok fpss /\ passes w (concat fpss) ts ts'.
Proof.
  intros Hw. revert ts ps. induction ms as [|m ms IH]; intros ts ps Hdom Hdep; cbn [probe_round].
  { intros [= <-] _ _. exists [], ts. split; [done|]. by exists []. }
  intros ([p ts1] & H1 & Hp)%bind_Ok. apply bind_Ok in Hp as (ps1 & H2 & [= <-]).
  cbn [forallb]. intros [Hf%negb_true_iff Hfs]%andb_true_iff [Hs Hss]%andb_true_iff.
  unfold probe_patch in H1. apply bind_Ok in H1 as (fps & Hl & H1). apply bind_Ok in H1 as ([fs ts2] & Hfp & [= <- <-]).
  cbn [pp_status probe_of] in Hf. unfold settled_probe in Hs. cbn [pp_files probe_of] in Hs.
  destruct (files_agree ov overlay fps ts fs ts2 w) as (Hd1 & Hps); try done.
  { intros q Hq. eapply Hdep; [by left|exact Hl|done]. }
  { case_bool_decide as Hn; [by rewrite Hn|]. by apply sound_files. }
  destruct (IH ts2 ps1) as (fpss & ts3 & Hm & Hps2); try done; [intros n; intros; eapply Hdep; [by right|done|done]|].
  exists (fps :: fpss), ts3. cbn [mapR concat]. rewrite Hl. cbn [mbind result_bind]. rewrite Hm. split; [done|]. by eapply passes_app.
Qed.
End Agree.

(** ** What is blocked *)

Section Blocks.
Context (ms : list PatchModule).

(** [x] is a patch of the selection that requires [y]. *)
Definition wants (x y : string) : Prop := exists m, m ∈ ms /\ patch_id m = x /\ y ∈ requires m.

Definition all_ids : gset string := list_to_set (map patch_id ms).

Lemma elem_of_all_ids x : x ∈ all_ids <-> exists m, m ∈ ms /\ patch_id m = x.
Proof. unfold all_ids. rewrite elem_of_list_to_set, list_elem_of_fmap. naive_solver. Qed.

Lemma size_all_ids : size all_ids <= length ms.
Proof.
  unfold all_ids. induction ms as [|m l IH]; [done|]. cbn [map list_to_set length]. rewrite size_union_alt, size_singleton.
  enough (size ((list_to_set (map patch_id l) : gset string) ∖ {[patch_id m]}) <= size (list_to_set (map patch_id l) : gset string)) by lia.
  apply subseteq_size. set_solver.
Qed.

Section Pass.
Context (unavailable : gset string).

(** Patches that are blocked with a reason. *)
Definition held (b : gset string) : Prop :=
  b ⊆ all_ids ∖ unavailable /\ forall x, x ∈ b -> exists q, q ∈ unavailable /\ tc wants x q.

Definition block_step (b : gset string) (m : PatchModule) : gset string :=
  if bool_decide (patch_id m ∈ unavailable ∪ b) then b
  else if existsb (fun d => bool_decide (d ∈ unavailable ∪ b)) (requires m) then {[ patch_id m ]} ∪ b else b.

Lemma block_step_grows b m : b ⊆ block_step b m.
Proof. unfold block_step. repeat case_match; set_solver. Qed.

Lemma block_step_held b m : m ∈ ms -> held b -> held (block_step b m).
Proof.
  intros Hm [Hs Hw]. unfold block_step. case_bool_decide as Hn; [done|]. destruct (existsb _ _) eqn:E; [|done].
  apply existsb_exists in E as (d & Hd%list_elem_of_In & Hdu%bool_decide_eq_true). split.
  - assert (patch_id m ∈ all_ids) by (apply elem_of_all_ids; by exists m). set_solver.
  - intros x [->%elem_of_singleton|Hx]%elem_of_union; [|by apply Hw]. assert (wants (patch_id m) d) as Hwant by by exists m.
    apply elem_of_union in Hdu as [Hdu|Hdb]; [exists d; split; [done|by apply tc_once]|].
    destruct (Hw d Hdb) as (q & Hq & Ht). exists q. split; [done|]. by eapply tc_l.
Qed.

Lemma block_step_fixed b m : block_step b m = b -> ~ patch_id m ∈ unavailable ∪ b ->
  forall d, d ∈ requires m -> ~ d ∈ unavailable ∪ b.
Proof.
  unfold block_step. intros He Hn d Hd Hu. rewrite bool_decide_eq_false_2 in He by done.
  destruct (existsb _ _) eqn:E; [set_solver|]. apply not_true_iff_false in E. apply E, existsb_exists. exists d.
  split; [by apply list_elem_of_In|by apply bool_decide_eq_true].
Qed.

Lemma block_pass_fold l b : block_pass l unavailable b = fold_left block_step l b.
Proof. done. Qed.

Lemma block_pass_grows l b : b ⊆ block_pass l unavailable b.
Proof.
  rewrite block_pass_fold. revert b. induction l as [|m l IH]; intros b; [done|]. cbn [fold_left].
  etrans; [apply block_step_grows|apply IH].
Qed.

Lemma block_pass_held l b : (forall m, m ∈ l -> m ∈ ms) -> held b -> held (block_pass l unavailable b).
Proof.
  rewrite block_pass_fold. revert b. induction l as [|m l IH]; intros b Hl Hb; [done|]. cbn [fold_left].
  apply IH; [intros n Hn; apply Hl; by right|]. apply block_step_held; [apply Hl; by left|done].
Qed.

Lemma block_pass_fixed l b : block_pass l unavailable b = b ->
  forall m, m ∈ l -> ~ patch_id m ∈ unavailable ∪ b -> forall d, d ∈ requires m -> ~ d ∈ unavailable ∪ b.
Proof.
  induction l as [|m l IH]; intros Hb n Hn; [by apply elem_of_nil in Hn|].
  assert (block_step b m = b) as Hstep.
  { apply set_eq. intros x. split; [|apply block_step_grows]. intros Hx. rewrite <- Hb.
    apply (block_pass_grows l (block_step b m) x Hx). }
  apply elem_of_cons in Hn as [->|Hn]; [by apply block_step_fixed|]. apply IH; [|done].
  rewrite block_pass_fold in *. cbn [fold_left] in Hb. by rewrite Hstep in Hb.
Qed.

Lemma propagate_fixed fuel b : held b -> length ms <= fuel + size b ->
  let r := propagate fuel ms unavailable b in held r /\ block_pass ms unavailable r = r.
Proof.
  revert b. induction fuel as [|fuel IH]; intros b Hb Hlen; cbn [propagate].
  - pose proof (block_pass_held ms b (fun m Hm => Hm) Hb) as Hp. split; [done|].
    assert (b = block_pass ms unavailable b) as He; [|by rewrite <- !He].
    apply set_subseteq_size_eq; [apply block_pass_grows|]. etrans; [|exact Hlen].
    etrans; [|apply size_all_ids]. apply subseteq_size. destruct Hp as [Hp _]. set_solver.
  - case_bool_decide as He; [by rewrite He|]. apply IH; [by apply block_pass_held|].
    assert (size b < size (block_pass ms unavailable b)); [|lia]. apply subset_size. split; [apply block_pass_grows|].
    intros Hsub. apply He, set_eq. intros x. split; [apply Hsub|apply block_pass_grows].
Qed.

(** What is blocked requires something unavailable, directly or not; and what is
    not blocked does not. *)
Lemma propagate_spec :
  let b := propagate_dependency_blocks ms unavailable in
  held b /\ forall m, m ∈ ms -> ~ patch_id m ∈ unavailable ∪ b -> forall d, d ∈ requires m -> ~ d ∈ unavailable ∪ b.
Proof.
  destruct (propagate_fixed (length ms) ∅) as [H1 H2]; [split; set_solver|lia|]. split; [exact H1|].
  intros m Hm. by eapply block_pass_fixed.
Qed.
End Pass.
End Blocks.

(** ** The fixed point *)

(** A probe of this module. *)
Definition describes (p : PatchProbe) (m : PatchModule) : Prop :=
  exists fs st, p = probe_of m fs st.

Lemma put_probes_lookup ps m x :
  NoDup (map pp_patch_id ps) ->
  (forall p, put_probes ps m !! x = Some p <-> (p ∈ ps /\ pp_patch_id p = x) \/ (~ x ∈ map pp_patch_id ps /\ m !! x = Some p)).
Proof.
  unfold put_probes. revert m. induction ps as [|q ps IH]; intros m Hnd p; cbn [fold_left map].
  { rewrite elem_of_nil. split; [intros ?; right; split; [apply not_elem_of_nil|done]|by intros [[[] _]|[_ ?]]]. }
  cbn [map] in Hnd. apply NoDup_cons in Hnd as [Hq Hnd]. rewrite (IH _ Hnd). rewrite !elem_of_cons. destruct (decide (x = pp_patch_id q)) as [->|Hne].
  - rewrite lookup_insert_eq. split.
    + intros [[Hp He]|[_ [= <-]]]; [exfalso; apply Hq; rewrite <- He; by apply list_elem_of_fmap_2|left; split; [by left|done]].
    + intros [[[->|Hp] He]|[Hn _]]; [by right| |exfalso; apply Hn; by left].
      exfalso. apply Hq. rewrite <- He. by apply list_elem_of_fmap_2.
  - rewrite lookup_insert_ne by done. split.
    + intros [[Hp He]|[Hn Hm]]; [left; split; [by right|done]|right; split; [by intros [?|?]|done]].
    + intros [[[->|Hp] He]|[Hn Hm]]; [done|by left|right]. split; [|done]. intros ?. apply Hn. by right.
Qed.

Lemma elem_of_failed_ids x ps : x ∈ failed_ids ps <-> exists p, p ∈ ps /\ is_failure (pp_status p) = true /\ pp_patch_id p = x.
Proof. unfold failed_ids. rewrite list_elem_of_fmap. setoid_rewrite elem_of_filterb. naive_solver. Qed.

Lemma describes_ids ps l : Forall2 describes ps l -> map pp_patch_id ps = map patch_id l.
Proof. induction 1 as [|p m ps l (fs & st & ->) _ IH]; [done|]. cbn. by rewrite IH. Qed.


Lemma describes_in ps l p : Forall2 describes ps l -> p ∈ ps -> exists m, m ∈ l /\ describes p m.
Proof.
  induction 1 as [|q m ps l Hq _ IH]; [by intros ?%elem_of_nil|]. intros [->|Hp]%elem_of_cons; [exists m; split; [by left|done]|].
  destruct (IH Hp) as (n & Hn & Hd). exists n. split; [by right|done].
Qed.


(** In a list without repetition of [f], [f] decides. *)
Lemma NoDup_key_inj {A B} (f : A -> B) l x y : NoDup (map f l) -> x ∈ l -> y ∈ l -> f x = f y -> x = y.
Proof.
  induction l as [|z l IH]; [by intros _ ?%elem_of_nil|]. cbn [map]. intros [Hz Hl]%NoDup_cons.
  intros [->|Hx]%elem_of_cons [->|Hy]%elem_of_cons He; [done|..|by apply IH].
  - exfalso. apply Hz. rewrite He. by apply list_elem_of_fmap_2.
  - exfalso. apply Hz. rewrite <- He. by apply list_elem_of_fmap_2.
Qed.


Lemma put_probes_some ps m x : x ∈ map pp_patch_id ps \/ is_Some (m !! x) -> is_Some (put_probes ps m !! x).
Proof.
  unfold put_probes. revert m. induction ps as [|q ps IH]; intros m; cbn [fold_left map]; [by intros [?%elem_of_nil|?]|].
  rewrite elem_of_cons. intros Hx. apply IH. destruct (decide (x = pp_patch_id q)) as [->|Hne]; [right; by rewrite lookup_insert_eq|].
  rewrite lookup_insert_ne by done. naive_solver.
Qed.

Section Fixed.
Context `{Regex} (root : string) (tree : Tree.tree).
Context (load_implementation : string -> string -> string -> string -> res (list FilePatch)).
Context (diff_context : string -> option string) (context_lines : Z).
Context (engine_name : string) (ms : list PatchModule) (overlay_texts : texts).

Local Abbreviation round := (probe_round root tree load_implementation diff_context context_lines engine_name).
Local Abbreviation ov := (map fst (map_to_list overlay_texts)).

Lemma round_describes ov' l ts ps : round ov' l ts = Ok ps -> Forall2 describes ps l.
Proof.
  revert ts ps. induction l as [|m l IH]; intros ts ps; cbn [probe_round]; [by intros [= <-]|].
  intros ([p ts1] & H1 & Hp)%bind_Ok. apply bind_Ok in Hp as (ps1 & H2 & [= <-]). constructor; [|by eapply IH].
  unfold probe_patch in H1. apply bind_Ok in H1 as (fps & _ & H1). apply bind_Ok in H1 as ([fs ts2] & _ & [= <- <-]).
  by eexists _, _.
Qed.

(** What is true between two rounds: the patches that are out, each with its
    probe, and why. *)
Record fixing (s : Fixing) (direct : gset string) : Prop := {
  fx_in : quarantined s ∪ blocked s ⊆ all_ids ms;
  fx_disj : quarantined s ## blocked s;
  fx_closed : forall m, m ∈ ms -> ~ patch_id m ∈ quarantined s ∪ blocked s ->
    forall d, d ∈ requires m -> ~ d ∈ quarantined s ∪ blocked s;
  fx_why : forall x, x ∈ blocked s -> exists q, q ∈ quarantined s /\ tc (wants ms) x q;
  fx_probes : forall x p, final_probes s !! x = Some p ->
    exists m, m ∈ ms /\ patch_id m = x /\ describes p m /\
      (x ∈ quarantined s /\ (if decide (x ∈ direct) then is_failure (pp_status p) = true else pp_status p = Quarantined) \/
       x ∈ blocked s /\ pp_status p = BlockedByDependency);
  fx_all : forall x, x ∈ quarantined s ∪ blocked s -> is_Some (final_probes s !! x);
}.

Lemma fixing_start direct : fixing (mkFixing ∅ ∅ None ∅) direct.
Proof. split; cbn; set_solver. Qed.

Lemma left_over_in s m : m ∈ left_over ms s <-> m ∈ ms /\ ~ patch_id m ∈ quarantined s ∪ blocked s.
Proof. unfold left_over. rewrite elem_of_filterb, negb_true_iff, bool_decide_eq_false. done. Qed.

Context (Hnd : NoDup (map patch_id ms)).

Lemma left_over_nodup s : NoDup (map patch_id (left_over ms s)).
Proof. eapply sublist_NoDup; [exact Hnd|]. apply sublist_map, filterb_sublist. Qed.

(** The status a failed probe keeps or gets. *)
Definition mark (direct : gset string) (q : PatchProbe) : PatchProbe :=
  if bool_decide (pp_patch_id q ∈ direct) then q else with_status Quarantined q.

Definition stubs_of (blocks : gset string) : list PatchProbe :=
  map (fun m => probe_of m [] BlockedByDependency) (List.filter (fun m => bool_decide (patch_id m ∈ blocks)) ms).

(** What a round puts out, in terms of sets. *)
Lemma quarantine_sets s ps :
  Forall2 describes ps (left_over ms s) ->
  let failed := list_to_set (failed_ids ps) : gset string in
  let out := quarantined s ∪ failed ∪ blocked s in
  let blocks := propagate_dependency_blocks ms out in
  quarantined (quarantine ms s ps) = quarantined s ∪ failed /\
  blocked (quarantine ms s ps) = blocked s ∪ blocks /\
  final_probes (quarantine ms s ps) = put_probes (stubs_of blocks)
    (put_probes (map (mark (default failed (direct_failures s))) (List.filter (fun q => is_failure (pp_status q)) ps)) (final_probes s)) /\
  failed ## quarantined s ∪ blocked s /\ failed ⊆ all_ids ms /\ held ms out blocks.
Proof.
  intros Hd failed out blocks. pose proof (propagate_spec ms out) as [Hheld _]. fold blocks in Hheld.
  assert (forall x, x ∈ map pp_patch_id ps -> x ∈ all_ids ms /\ ~ x ∈ quarantined s ∪ blocked s) as Hleft.
  { intros x. rewrite (describes_ids _ _ Hd), list_elem_of_fmap. intros (m & -> & [Hm Hn]%left_over_in).
    split; [apply elem_of_all_ids; by exists m|done]. }
  assert (forall x, x ∈ failed -> x ∈ map pp_patch_id ps) as Hfail.
  { intros x. unfold failed. rewrite elem_of_list_to_set, elem_of_failed_ids. intros (p & Hp & _ & <-). by apply list_elem_of_fmap_2. }
  assert (List.filter (fun p => is_failure (pp_status p) && negb (bool_decide (pp_patch_id p ∈ quarantined s))) ps
          = List.filter (fun p => is_failure (pp_status p)) ps) as Hnew.
  { apply filterb_ext. intros p Hp. destruct (Hleft (pp_patch_id p)) as [_ Hn]; [by apply list_elem_of_fmap_2|].
    rewrite bool_decide_eq_false_2 by set_solver. by rewrite andb_true_r. }
  assert (blocks ∖ out = blocks) as Hb by (destruct Hheld as [Hb _]; set_solver).
  unfold quarantine. rewrite Hnew. cbn [quarantined blocked final_probes]. change (list_to_set (map pp_patch_id _)) with failed.
  fold out blocks. rewrite Hb.
  split_and!; [done|done|done|intros x Hx Hu; by apply Hfail, Hleft in Hx as [_ ?]|intros x Hx; by apply Hfail, Hleft in Hx as [? _]|done].
Qed.

Lemma elem_of_stubs blocks p : p ∈ stubs_of blocks <->
  exists m, m ∈ ms /\ patch_id m ∈ blocks /\ p = probe_of m [] BlockedByDependency.
Proof.
  unfold stubs_of. rewrite list_elem_of_fmap. setoid_rewrite elem_of_filterb. setoid_rewrite bool_decide_eq_true. naive_solver.
Qed.

Lemma stubs_ids blocks : map pp_patch_id (stubs_of blocks) = map patch_id (List.filter (fun m => bool_decide (patch_id m ∈ blocks)) ms).
Proof. unfold stubs_of. by rewrite map_map. Qed.

Lemma mark_id direct q : pp_patch_id (mark direct q) = pp_patch_id q.
Proof. unfold mark. by destruct (bool_decide _). Qed.

Lemma marked_ids direct ps : map pp_patch_id (map (mark direct) (List.filter (fun q => is_failure (pp_status q)) ps)) = failed_ids ps.
Proof. rewrite map_map. unfold failed_ids. apply map_ext. intros q. apply mark_id. Qed.

Lemma failed_nodup s ps : Forall2 describes ps (left_over ms s) -> NoDup (failed_ids ps).
Proof.
  intros Hd. eapply sublist_NoDup; [|apply sublist_map, filterb_sublist]. rewrite (describes_ids _ _ Hd). apply left_over_nodup.
Qed.

(** A round that fails keeps the invariant, and puts something out. *)
Lemma quarantine_fixing s direct ps :
  fixing s direct -> Forall2 describes ps (left_over ms s) ->
  default (list_to_set (failed_ids ps)) (direct_failures s) = direct -> failed_ids ps <> [] ->
  let s' := quarantine ms s ps in
  fixing s' direct /\ direct_failures s' = Some direct /\
  size (quarantined s ∪ blocked s) < size (quarantined s' ∪ blocked s').
Proof.
  intros Hf Hd Hdir Hne s'. destruct (quarantine_sets s ps Hd) as (Hq & Hb & Hp & Hdj & Hin & [Hheld Hwhy]).
  fold s' in Hq, Hb, Hp. set (failed := list_to_set (failed_ids ps) : gset string) in *.
  set (out := quarantined s ∪ failed ∪ blocked s) in *. set (blocks := propagate_dependency_blocks ms out) in *.
  destruct Hf as [Fin Fdj Fcl Fwhy Fpr Fall]. rewrite Hdir in Hp.
  assert (NoDup (map pp_patch_id (stubs_of blocks))) as Hnds.
  { rewrite stubs_ids. eapply sublist_NoDup; [exact Hnd|apply sublist_map, filterb_sublist]. }
  assert (NoDup (map pp_patch_id (map (mark direct) (List.filter (fun q => is_failure (pp_status q)) ps)))) as Hndm.
  { rewrite marked_ids. by eapply failed_nodup. }
  split_and!.
  - split.
    + rewrite Hq, Hb. set_solver.
    + rewrite Hq, Hb. set_solver.
    + intros m Hm Hn d Hdm Hd'. destruct (propagate_spec ms out) as [_ Hcl]. fold blocks in Hcl.
      apply (Hcl m Hm) with d; [|done|]; rewrite Hq, Hb in *; set_solver.
    + intros x Hx. rewrite Hq, Hb in *. apply elem_of_union in Hx as [Hx|Hx].
      { destruct (Fwhy x Hx) as (q & Hqq & Ht). exists q. split; [set_solver|done]. }
      destruct (Hwhy x Hx) as (q & Hqq & Ht). unfold out in Hqq. apply elem_of_union in Hqq as [Hqq|Hqq]; [by exists q|].
      destruct (Fwhy q Hqq) as (q' & Hq' & Ht'). exists q'. split; [set_solver|]. by etrans.
    + intros x p Hx. rewrite Hp in Hx. rewrite Hq, Hb. apply put_probes_lookup in Hx; [|done].
      destruct Hx as [[(m & Hm & Hmb & ->)%elem_of_stubs He]|[Hns Hx]].
      { cbn in He. subst x. exists m. split_and!; [done|done|by eexists _, _|]. right. split; [set_solver|done]. }
      apply put_probes_lookup in Hx; [|done]. destruct Hx as [[(q & -> & [Hqp Hqf]%elem_of_filterb)%list_elem_of_fmap He]|[_ Hx]].
      * rewrite mark_id in He. subst x. destruct (describes_in _ _ _ Hd Hqp) as (m & [Hm _]%left_over_in & fs & st & ->).
        exists m. split_and!; [done|done|unfold mark; destruct (bool_decide _); by eexists _, _|].
        left. split; [apply elem_of_union_r, elem_of_list_to_set, elem_of_failed_ids; by eexists|].
        unfold mark. destruct (decide _) as [Hdd|Hdd]; [by rewrite bool_decide_eq_true_2|by rewrite bool_decide_eq_false_2].
      * destruct (Fpr x p Hx) as (m & Hm & Hid & Hde & Hc). exists m. split_and!; try done.
        destruct Hc as [[? ?]|[? ?]]; [left|right]; (split; [set_solver|done]).
    + intros x. rewrite Hp. intros Hx. apply put_probes_some. rewrite stubs_ids.
      destruct (decide (x ∈ blocks)) as [Hxb|Hxb].
      { left. apply list_elem_of_fmap. assert (x ∈ all_ids ms) as (m & Hm & <-)%elem_of_all_ids by set_solver.
        exists m. split; [done|]. apply elem_of_filterb. split; [done|by apply bool_decide_eq_true]. }
      right. apply put_probes_some. rewrite marked_ids. destruct (decide (x ∈ failed)) as [Hxf|Hxf]; [left; by apply elem_of_list_to_set in Hxf|].
      right. apply Fall. rewrite Hq, Hb in Hx. set_solver.
  - unfold s', quarantine. cbn [direct_failures]. f_equal. exact Hdir.
  - apply subset_size. rewrite Hq, Hb. split; [set_solver|]. intros Hsub. destruct (failed_ids ps) as [|x l] eqn:E; [done|].
    assert (x ∈ failed) by (unfold failed; rewrite elem_of_list_to_set; by left). set_solver.
Qed.

(** The state the loop ends in: the last round failed nowhere. *)
Definition fixed (s : Fixing) (direct : gset string) : Prop :=
  exists s0 last, fixing s0 direct /\ round ov (left_over ms s) overlay_texts = Ok last /\ failed_ids last = [] /\
    quarantined s = quarantined s0 /\ blocked s = blocked s0 /\ final_probes s = put_probes last (final_probes s0).

Lemma no_new_failure s ps : Forall2 describes ps (left_over ms s) ->
  list_to_set (failed_ids ps) ∖ quarantined s = (∅ : gset string) <-> failed_ids ps = [].
Proof.
  intros Hd. destruct (quarantine_sets s ps Hd) as (_ & _ & _ & Hdj & _). split; [|intros ->; set_solver].
  intros He. destruct (failed_ids ps) as [|x l]; [done|]. exfalso.
  assert (x ∈ (list_to_set (x :: l) : gset string)) as Hx by (rewrite elem_of_list_to_set; by left). set_solver.
Qed.

Lemma outs_bounded s direct : fixing s direct -> size (quarantined s ∪ blocked s) <= length ms.
Proof. intros Hf. etrans; [|apply size_all_ids]. apply subseteq_size, Hf. Qed.

Lemma fixing_loop_spec fuel s direct :
  fixing s direct -> direct_failures s = Some direct -> length ms < fuel + size (quarantined s ∪ blocked s) ->
  match fixing_loop root tree load_implementation diff_context context_lines fuel engine_name ms overlay_texts s with
  | Ok s' => fixed s' direct
  | Err e => exists s', round ov (left_over ms s') overlay_texts = Err e
  end.
Proof.
  revert s. induction fuel as [|fuel IH]; intros s Hf Hdir Hlen.
  { pose proof (outs_bounded s direct Hf). lia. }
  cbn [fixing_loop]. destruct (round ov (left_over ms s) overlay_texts) as [ps|e] eqn:E; cbn [mbind result_bind]; [|by exists s].
  pose proof (round_describes _ _ _ _ E) as Hd. case_bool_decide as He; rewrite (no_new_failure s ps Hd) in He.
  { exists s, ps. by split_and!. }
  destruct (quarantine_fixing s direct ps Hf Hd) as (Hf' & Hdir' & Hsize); [by rewrite Hdir|done|]. apply IH; [done|done|lia].
Qed.

(** The whole loop, from its start. *)
Lemma fixing_loop_start :
  match fixing_loop root tree load_implementation diff_context context_lines (S (length ms)) engine_name ms overlay_texts
          (mkFixing ∅ ∅ None ∅) with
  | Ok s' => exists first, round ov ms overlay_texts = Ok first /\ fixed s' (list_to_set (failed_ids first))
  | Err e => exists s', round ov (left_over ms s') overlay_texts = Err e
  end.
Proof.
  set (s := mkFixing ∅ ∅ None ∅). assert (left_over ms s = ms) as Hall.
  { unfold left_over. apply filterb_all. intros m _. apply negb_true_iff, bool_decide_eq_false. cbn. set_solver. }
  cbn [fixing_loop]. destruct (round ov (left_over ms s) overlay_texts) as [ps|e] eqn:E; cbn [mbind result_bind]; [|by exists s].
  pose proof (round_describes _ _ _ _ E) as Hd. pose proof (fixing_start (list_to_set (failed_ids ps))) as Hs.
  case_bool_decide as He; rewrite (no_new_failure s ps Hd) in He.
  { exists ps. split; [by rewrite Hall in E|]. exists s, ps. by split_and!. }
  destruct (quarantine_fixing s _ ps Hs Hd eq_refl He) as (Hf' & Hdir' & Hsize).
  pose proof (fixing_loop_spec (length ms) _ _ Hf' Hdir' ltac:(lia)) as Hl.
  destruct (fixing_loop _ _ _ _ _ (length ms) _ _ _ _) as [s'|e]; [|done]. exists ps. rewrite Hall in E. done.
Qed.

(** A probe decides between good and failed. *)
Definition decided (p : PatchProbe) : bool :=
  match pp_status p with BlockedByDependency | Quarantined => false | _ => true end.

Lemma round_decided ov' l ts ps : round ov' l ts = Ok ps -> forall p, p ∈ ps -> decided p = true.
Proof.
  revert ts ps. induction l as [|m l IH]; intros ts ps; cbn [probe_round]; [intros [= <-] p ?%elem_of_nil; done|].
  intros ([p ts1] & H1 & Hp)%bind_Ok. apply bind_Ok in Hp as (ps1 & H2 & [= <-]).
  intros q [->|Hq]%elem_of_cons; [|by eapply IH].
  unfold probe_patch in H1. apply bind_Ok in H1 as (fps & _ & H1). apply bind_Ok in H1 as ([fs ts2] & _ & [= <- <-]).
  unfold decided. cbn [pp_status probe_of]. case_bool_decide; [done|]. unfold classify_files. by repeat case_match.
Qed.

(** The selected patches that are good. *)
Definition selected (good : list string) : list PatchModule := List.filter (fun m => str_in (patch_id m) good) ms.

Lemma selected_left_over s : selected (map patch_id (left_over ms s)) = left_over ms s.
Proof.
  unfold selected, left_over at 2. apply filterb_ext. intros m Hm. apply eq_true_iff_eq.
  rewrite str_in_true, negb_true_iff, bool_decide_eq_false, list_elem_of_fmap. split.
  - by intros (n & -> & [_ ?]%left_over_in).
  - intros Hn. exists m. split; [done|]. by apply left_over_in.
Qed.

(** Nothing requires what is not good, of what was selected. *)
Definition closed_in (good : list string) : Prop :=
  forall m, m ∈ ms -> patch_id m ∈ good -> forall d, d ∈ requires m -> d ∈ map patch_id ms -> d ∈ good.

Lemma fixed_good s direct x : fixed s direct -> x ∈ map patch_id ms ->
  x ∈ map patch_id (left_over ms s) <-> ~ x ∈ quarantined s ∪ blocked s.
Proof.
  intros _ (m & -> & Hm)%list_elem_of_fmap. rewrite list_elem_of_fmap. split; [by intros (n & -> & [_ ?]%left_over_in)|].
  intros Hn. exists m. split; [done|]. by apply left_over_in.
Qed.

Lemma fixed_closed s direct : fixed s direct -> closed_in (map patch_id (left_over ms s)).
Proof.
  intros Hs m Hm Hg d Hd Hds. pose proof Hs as (s0 & last & [_ _ Hcl _ _ _] & _ & _ & Hq & Hb & _).
  rewrite (fixed_good s direct) in Hg |- * by (try done; by apply list_elem_of_fmap_2). rewrite Hq, Hb in *. by eapply Hcl.
Qed.

Lemma fixed_dom s direct x p : fixed s direct -> final_probes s !! x = Some p -> x ∈ map patch_id ms.
Proof.
  intros (s0 & last & Hf & Hl & _ & _ & _ & ->). pose proof (round_describes _ _ _ _ Hl) as Hd.
  intros Hx. apply put_probes_lookup in Hx as [[Hp <-]|[_ Hx]].
  - destruct (describes_in _ _ _ Hd Hp) as (m & [Hm _]%left_over_in & fs & st & ->).
    by apply (list_elem_of_fmap_2 patch_id).
  - destruct (fx_probes _ _ Hf _ _ Hx) as (m & Hm & <- & _). by apply list_elem_of_fmap_2.
  - rewrite (describes_ids _ _ Hd). apply left_over_nodup.
Qed.

Definition is_out (st : PatchStatus) : Prop := st = FailedNeedsReconciliation \/ st = UpstreamAbsorbed \/ st = Quarantined.

(** What each status of the final probes means. *)
Definition verdict (probes : gmap string PatchProbe) (good : list string) (first last : list PatchProbe) (p : PatchProbe) : Prop :=
  let x := pp_patch_id p in
  match pp_status p with
  | FailedNeedsReconciliation | UpstreamAbsorbed => ~ x ∈ good /\ x ∈ failed_ids first
  | Quarantined => ~ x ∈ good /\ ~ x ∈ failed_ids first
  | BlockedByDependency => ~ x ∈ good /\ exists q pq, probes !! q = Some pq /\ is_out (pp_status pq) /\ tc (wants ms) x q
  | _ => x ∈ good /\ p ∈ last
  end.

Lemma same_module m n : m ∈ ms -> n ∈ ms -> patch_id m = patch_id n -> m = n.
Proof. by apply NoDup_key_inj. Qed.
Lemma fixed_verdict s first m :
  fixed s (list_to_set (failed_ids first)) -> m ∈ ms ->
  exists last p, round ov (left_over ms s) overlay_texts = Ok last /\ final_probes s !! patch_id m = Some p /\ describes p m /\
    verdict (final_probes s) (map patch_id (left_over ms s)) first last p.
Proof.
  intros Hs Hm. pose proof Hs as (s0 & last & [Fin Fdj Fcl Fwhy Fpr Fall] & Hl & Hnone & Hq & Hb & Hp).
  pose proof (round_describes _ _ _ _ Hl) as Hd. exists last.
  assert (patch_id m ∈ map patch_id ms) as Hid by (by apply list_elem_of_fmap_2).
  assert (NoDup (map pp_patch_id last)) as Hndl by (rewrite (describes_ids _ _ Hd); apply left_over_nodup).
  assert (forall x, x ∈ quarantined s ∪ blocked s -> exists p, final_probes s !! x = Some p /\ final_probes s0 !! x = Some p) as Hold.
  { intros x Hx. rewrite Hq, Hb in Hx. destruct (Fall x Hx) as [p Hx0]. exists p. split; [|done].
    rewrite Hp. apply put_probes_lookup; [done|]. right. split; [|done]. rewrite (describes_ids _ _ Hd).
    intros (n & -> & [_ Hn]%left_over_in)%list_elem_of_fmap. apply Hn. by rewrite Hq, Hb. }
  destruct (decide (patch_id m ∈ quarantined s ∪ blocked s)) as [Hout|Hin].
  - assert (~ patch_id m ∈ map patch_id (left_over ms s)) as Hng by (rewrite (fixed_good s _ _ Hs Hid); tauto).
    destruct (Hold _ Hout) as (p & Hps & Hps0). exists p. destruct (Fpr _ _ Hps0) as (n & Hn & Hni & Hde & Hwhy).
    apply same_module in Hni as ->; [|done|done]. split_and!; try done. destruct Hde as (fs & st & ->).
    unfold verdict. cbn [pp_patch_id pp_status probe_of] in *. destruct Hwhy as [[_ Hst]|[Hbl ->]].
    + destruct (decide _) as [Hdir|Hdir]; rewrite elem_of_list_to_set in Hdir; [by destruct st|by subst st].
    + split; [done|]. destruct (Fwhy _ Hbl) as (q & Hqq & Ht). destruct (Hold q) as (pq & Hpq & Hpq0); [rewrite Hq; set_solver|].
      exists q, pq. split_and!; [done| |done]. destruct (Fpr _ _ Hpq0) as (k & _ & _ & _ & [[_ Hk]|[? _]]); [|set_solver].
      unfold is_out. destruct (decide _); [destruct (pp_status pq); naive_solver|auto].
  - assert (patch_id m ∈ map pp_patch_id last) as (p & Hpi & Hpl)%list_elem_of_fmap.
    { rewrite (describes_ids _ _ Hd). by apply (fixed_good s _ _ Hs). }
    exists p. destruct (describes_in _ _ _ Hd Hpl) as (n & [Hn _]%left_over_in & Hde).
    pose proof Hde as (fs & st & He). assert (pp_patch_id p = patch_id n) as Hpn by by rewrite He.
    rewrite Hpn in Hpi. apply same_module in Hpi as <-; [|done|done]. split_and!; try done.
    { rewrite Hp. apply put_probes_lookup; [done|]. left. split; [done|by rewrite Hpn]. }
    pose proof (round_decided _ _ _ _ Hl p Hpl) as Hdec. unfold decided in Hdec.
    assert (is_failure (pp_status p) = false) as Hnf.
    { apply not_true_is_false. intros Hf. assert (pp_patch_id p ∈ failed_ids last) as Hx by (apply elem_of_failed_ids; by exists p).
      rewrite Hnone in Hx. by apply elem_of_nil in Hx. }
    unfold verdict. rewrite Hpn. destruct (pp_status p) eqn:Est; try done; (split; [by apply (fixed_good s _ _ Hs)|done]).
Qed.
End Fixed.

Section KnownGood.
Context `{Regex} (root : string) (tree : Tree.tree).
Context (load_implementation : string -> string -> string -> string -> res (list FilePatch)).
Context (diff_context : string -> option string) (context_lines : Z) (engine_name : string) (overlay_texts : texts).

Local Abbreviation round := (probe_round root tree load_implementation diff_context context_lines engine_name
  (map fst (map_to_list overlay_texts))).
Local Abbreviation fixed_point := (quarantine_fixed_point root tree load_implementation diff_context context_lines engine_name).

(** What the fixed point gives. *)
Lemma fixed_point_cases sel :
  let ms := modules sel in
  NoDup (map patch_id ms) ->
  match fixed_point sel overlay_texts with
  | Ok (probes, good) => exists first last,
      round ms overlay_texts = Ok first /\ round (selected ms good) overlay_texts = Ok last /\ failed_ids last = [] /\
      good = map patch_id (selected ms good) /\ closed_in ms good /\
      (forall x p, probes !! x = Some p -> x ∈ map patch_id ms) /\
      forall m, m ∈ ms -> exists p, probes !! patch_id m = Some p /\ describes p m /\ verdict ms probes good first last p
  | Err e => exists part, part `sublist_of` ms /\ round part overlay_texts = Err e
  end.
Proof.
  intros ms Hnd. unfold quarantine_fixed_point. fold ms.
  pose proof (fixing_loop_start root tree load_implementation diff_context context_lines engine_name ms overlay_texts Hnd) as Hl.
  destruct (fixing_loop _ _ _ _ _ _ _ _ _ _) as [s|e]; cbn [mbind result_bind].
  2:{ destruct Hl as [s Hs]. exists (left_over ms s). split; [apply filterb_sublist|exact Hs]. }
  destruct Hl as (first & Hfirst & Hs). pose proof Hs as (s0 & last & _ & Hlast & Hnone & _).
  unfold known_good. exists first, last. rewrite selected_left_over. split_and!; try done.
  - by eapply fixed_closed.
  - intros x p. by eapply fixed_dom.
  - intros m Hm. destruct (fixed_verdict _ _ _ _ _ _ _ _ Hnd s first m Hs Hm) as (last' & p & Hlast' & Hp & Hde & Hv).
    rewrite Hlast in Hlast'. injection Hlast' as <-. by exists p.
Qed.

(** C13 The known-good subset: the loop over the rounds ends (it raises only what
    loading or probing a patch raises), and then every selected patch has
    exactly one final status, with what it means.  The good ones are those of
    the last round, in which nothing failed; they are given in their order,
    and nothing good requires what is not.  A patch that failed did so in the
    first round, one that is quarantined did not, and one that is blocked
    requires, however indirectly, one that failed or is quarantined. *)
Theorem known_good_spec sel :
  let ms := modules sel in
  NoDup (map patch_id ms) ->
  match fixed_point sel overlay_texts with
  | Ok (probes, good) => exists first last,
      round ms overlay_texts = Ok first /\ round (selected ms good) overlay_texts = Ok last /\ failed_ids last = [] /\
      good = map patch_id (selected ms good) /\ closed_in ms good /\
      (forall x p, probes !! x = Some p -> x ∈ map patch_id ms) /\
      forall m, m ∈ ms -> exists p, probes !! patch_id m = Some p /\ describes p m /\ verdict ms probes good first last p
  | Err e => exists part, part `sublist_of` ms /\ round part overlay_texts = Err e
  end.
Proof. exact (fixed_point_cases sel). Qed.

End KnownGood.

(** ** From the probe to the patched tree *)

(** A part of an exact selection that is closed is itself an exact selection,
    in the same order. *)
Lemma resolve_part eng ids ms sel (good : list string) :
  check_engine eng ms = Ok tt -> keyed ms ->
  resolve_exact_from_catalog eng ids ms None false [] = Ok sel ->
  closed_in (modules sel) good ->
  let part := selected (modules sel) good in
  exists r, resolve_exact_from_catalog eng (map patch_id part) ms None true [] = Ok r /\ modules r = part.
Proof.
  intros He Hk Hsel Hcl part.
  pose proof (resolve_exact_cases eng ids ms None false [] He Hk) as Hc. rewrite Hsel in Hc.
  destruct Hc as (Hnd & Hknown & Hok & Ho & Hmods & _). rewrite app_nil_r in Hok.
  pose proof (patch_order_cases eng ids ms He Hknown) as Hp. rewrite Ho in Hp. destruct Hp as [Hp _].
  assert (forall x, x ∈ map patch_id (modules sel) <-> x ∈ ids) as Hin by (intros x; by rewrite Hp, elem_of_sorted_set).
  assert (map patch_id part = List.filter (fun x => str_in x good) (map patch_id (modules sel))) as Hpart
    by (unfold part, selected; by rewrite filterb_map).
  assert (topological_order eng (map patch_id part) ms = Ok (map patch_id part)) as Hord.
  { rewrite Hpart. apply (order_of_part eng ids ms); try done. intros x Hx Hg d Hd Hdi. apply str_in_true.
    apply Hin in Hx as Hx'. apply list_elem_of_fmap in Hx' as (m & -> & Hm). apply (Hcl m); [done|by apply str_in_true| |by apply Hin].
    unfold requires_of in Hd. by rewrite (Hmods m Hm) in Hd. }
  assert (forall x m, x ∈ map patch_id part -> ms !! x = Some m -> selectable (map patch_id part) None true m) as Hall.
  { intros x m Hx Hlook. rewrite Hpart in Hx |- *. apply elem_of_filterb in Hx as [Hx Hg]. apply Hin in Hx as Hxi.
    destruct (Hok x m Hxi Hlook) as (H1 & _ & H3 & H4 & H5). split_and!; try done.
    - intros d Hd. apply elem_of_filterb. split; [apply Hin; by apply H4|]. apply str_in_true.
      apply list_elem_of_fmap in Hx as (n & -> & Hn). rewrite (Hmods n Hn) in Hlook. injection Hlook as ->.
      apply (Hcl m); [done|by apply str_in_true|done|apply Hin; by apply H4].
    - intros d Hd [Hdi _]%elem_of_filterb. by apply (H5 d Hd), Hin. }
  assert (known ms (map patch_id part)) as Hkp.
  { intros x. rewrite Hpart. intros [Hx _]%elem_of_filterb. by apply Hknown, Hin. }
  pose proof (resolve_exact_cases eng (map patch_id part) ms None true [] He Hk) as Hc. rewrite app_nil_r in Hc.
  destruct (resolve_exact_from_catalog eng (map patch_id part) ms None true []) as [r|e].
  - exists r. split; [done|]. destruct Hc as (_ & _ & _ & Ho' & Hr & _). rewrite Hord in Ho'. injection Ho' as Hids.
    assert (forall m, m ∈ part -> ms !! patch_id m = Some m) as Hpm by (intros m [Hm _]%elem_of_filterb; by apply Hmods).
    revert Hids Hr Hpm. clear. generalize (modules r) as l. induction part as [|m part IH]; intros [|n l]; try done.
    cbn [map]. intros [= Hmn Hids] Hr Hpm. f_equal; [|apply IH; [done|intros; apply Hr; by right|intros; apply Hpm; by right]].
    pose proof (Hr n ltac:(by left)) as H1. pose proof (Hpm m ltac:(by left)) as H2. rewrite <- Hmn in H1. congruence.
  - exfalso. destruct Hc as [Hn|[Hn|[Hn|(stuck & Hd)]]]; [|done|by apply Hn|].
    + apply Hn. rewrite Hpart. eapply sublist_NoDup; [|apply filterb_sublist]. rewrite Hp. apply NoDup_sorted_set.
    + pose proof (patch_order_cases eng (map patch_id part) ms He Hkp) as Hg. rewrite Hord in Hg. destruct Hg as [_ Hg].
      apply (in_turn_no_deadlock ms _ [] _ stuck (greedy_in_turn _ _ _ _ Hg) Hd). intros x Hx.
      split; [by apply Hd|by apply not_elem_of_nil].
Qed.

Section Applies.
Context `{RegexLaws} (root : string) (show_exn : exn -> string) (tree : Tree.tree).
Context (load_implementation : string -> string -> string -> string -> res (list FilePatch)).
Context (diff_context : string -> option string) (context_lines : Z) (engine_name : string) (overlay_texts : texts).

Local Abbreviation load := (load_module_patches load_implementation engine_name).
Local Abbreviation run := (run_rebase_check root tree load_implementation diff_context context_lines engine_name).

(** The entries of the report, by the modules they are of. *)
Lemma report_entry (ms : list PatchModule) (probes : gmap string PatchProbe) m :
  NoDup (map patch_id ms) ->
  (forall m, m ∈ ms -> exists p, probes !! patch_id m = Some p /\ describes p m) -> m ∈ ms ->
  item (digests (omap (fun m => probes !! patch_id m) ms)) (patch_id m) = Ok (content_hash m).
Proof.
  intros Hnd Hp Hm. unfold item, digests. apply of_option_Ok. induction ms as [|n ms IH]; [by apply elem_of_nil in Hm|].
  apply NoDup_cons in Hnd as [Hn Hnd]. destruct (Hp n ltac:(by left)) as (p & Hpn & fs & st & ->).
  cbn [omap list_omap]. rewrite Hpn. cbn [map jget pp_patch_id implementation_digest probe_of].
  destruct (String.eqb_spec (patch_id m) (patch_id n)) as [He|Hne].
  - apply elem_of_cons in Hm as [->|Hm]; [done|]. exfalso. apply Hn. rewrite <- He. by apply list_elem_of_fmap_2.
  - apply elem_of_cons in Hm as [->|Hm]; [done|]. apply IH; [done| |done]. intros k Hk. apply Hp. by right.
Qed.

Lemma concat_elem {A} (ls : list (list A)) x : x ∈ concat ls <-> exists l, l ∈ ls /\ x ∈ l.
Proof. rewrite list_elem_of_In, in_concat. setoid_rewrite <- list_elem_of_In. done. Qed.

(** The patches that [apply_known_good] loads are those that were probed. *)
Lemma loads_probed (sel good_ms : list PatchModule) (probes : gmap string PatchProbe) fpss :
  NoDup (map patch_id sel) -> (forall m, m ∈ sel -> exists p, probes !! patch_id m = Some p /\ describes p m) ->
  (forall m, m ∈ good_ms -> m ∈ sel) -> mapR load good_ms = Ok fpss ->
  mapR (fun m =>
    root ← (match catalog_root m with
            | Some root => if String.eqb (engine m) engine_name then Ok root
                           else Err (RebaseCheckError ("patch " +:+ py_repr (patch_id m) +:+ " is not bound to engine " +:+ py_repr engine_name))
            | None => Err (RebaseCheckError ("patch " +:+ py_repr (patch_id m) +:+ " is not bound to engine " +:+ py_repr engine_name))
            end);
    digest ← item (digests (omap (fun m => probes !! patch_id m) sel)) (patch_id m);
    load_implementation engine_name (patch_id m) root digest) good_ms = Ok fpss.
Proof.
  intros Hnd Hp. revert fpss. induction good_ms as [|m l IH]; intros fpss Hin; cbn [mapR]; [done|].
  intros (fps & Hl & H2)%bind_Ok. apply bind_Ok in H2 as (fpss1 & Hls & [= <-]).
  unfold load_module_patches in Hl. apply bind_Ok in Hl as (u & Heng%ensure_Ok & Hl). apply bind_Ok in Hl as (rt & Hrt%of_option_Ok & Hl).
  pose proof (report_entry sel probes m Hnd Hp ltac:(apply Hin; by left)) as Hdig.
  rewrite Hrt, Heng, Hdig. cbn [mbind result_bind]. rewrite Hl. cbn [mbind result_bind].
  rewrite (IH fpss1); [done| |done]. intros n Hn. apply Hin. by right.
Qed.

(** Of a probed composition: its modules, and that the good ones are closed. *)
Lemma known_good_part ids ms report :
  check_engine engine_name ms = Ok tt -> keyed ms -> run false ids ms overlay_texts = Ok report ->
  exists sel (probes : gmap string PatchProbe), resolve_exact_from_catalog engine_name ids ms None false [] = Ok sel /\
    patches report = omap (fun m => probes !! patch_id m) (modules sel) /\ NoDup (map patch_id (modules sel)) /\
    (forall m, m ∈ modules sel -> ms !! patch_id m = Some m /\ exists p, probes !! patch_id m = Some p /\ describes p m) /\
    known_good_patch_ids report = map patch_id (selected (modules sel) (known_good_patch_ids report)) /\
    closed_in (modules sel) (known_good_patch_ids report).
Proof.
  intros He Hk Hrun. unfold run_rebase_check in Hrun.
  apply bind_Ok in Hrun as ([[mods probes] good] & Hg & [= <-]). cbn [known_good_patch_ids patches].
  unfold probe_group in Hg. destruct (resolve_exact_from_catalog engine_name ids ms None false []) as [sel|x] eqn:Hsel.
  2:{ by destruct (String.eqb _ _). }
  cbn [mbind result_bind] in Hg. apply bind_Ok in Hg as ([probes' good'] & Hq & [= <- <- <-]).
  pose proof (resolve_exact_cases engine_name ids ms None false [] He Hk) as Hc. rewrite Hsel in Hc.
  destruct Hc as (Hnd & Hknown & _ & Ho & Hmods & _).
  assert (NoDup (map patch_id (modules sel))) as Hndm.
  { pose proof (patch_order_cases engine_name ids ms He Hknown) as Hp. rewrite Ho in Hp. destruct Hp as [Hp _]. rewrite Hp. apply NoDup_sorted_set. }
  pose proof (fixed_point_cases root tree load_implementation diff_context context_lines engine_name overlay_texts sel Hndm) as Hspec.
  rewrite Hq in Hspec. destruct Hspec as (first & last & _ & _ & _ & Hgood & Hclosed & _ & Hall).
  exists sel, probes'. split_and!; try done. intros m Hm. split; [by apply Hmods|].
  destruct (Hall m Hm) as (p & ? & ? & _). by exists p.
Qed.

(** What the probe proved clean applies cleanly: from the report of a
    composition, [apply_known_good] loads exactly the implementations that were
    probed, resolves them to the very order they were probed in, and every one
    of their edits succeeds on the tree that was probed; so that the dry run
    says so, and the real run goes on to write.  The report can be relied on
    for this where no file's edit was found in place after another one of the
    file had been applied, every file patch has an edit, and no created file
    is there upstream: on these the probe and the application differ. *)
Theorem known_good_applies ids ms report w :
  check_engine engine_name ms = Ok tt -> keyed ms -> files w = tree ->
  run false ids ms overlay_texts = Ok report ->
  (forall m fps p, ms !! patch_id m = Some m -> patch_id m ∈ known_good_patch_ids report ->
     load m = Ok fps -> p ∈ fps -> dependable tree overlay_texts p) ->
  (forall p, p ∈ patches report -> pp_patch_id p ∈ known_good_patch_ids report -> settled_probe p = true) ->
  exists fps rs,
    known_good_patches load_implementation engine_name (known_good_patch_ids report) ms (digests (patches report)) = Ok fps /\
    apply_all root show_exn fps true (Some overlay_texts) w = (Ok rs, w) /\ forallb ok rs = true /\
    apply_all root show_exn fps false (Some overlay_texts) w = write_all root show_exn fps w.
Proof.
  intros He Hk Hw Hrun Hdep Hset. unfold run_rebase_check in Hrun.
  apply bind_Ok in Hrun as ([[mods probes] good] & Hg & [= <-]). cbn [known_good_patch_ids patches] in *.
  unfold probe_group in Hg. destruct (resolve_exact_from_catalog engine_name ids ms None false []) as [sel|x] eqn:Hsel.
  2:{ by destruct (String.eqb _ _). }
  cbn [mbind result_bind] in Hg. apply bind_Ok in Hg as ([probes' good'] & Hq & [= <- <- <-]).
  pose proof (resolve_exact_cases engine_name ids ms None false [] He Hk) as Hc. rewrite Hsel in Hc.
  destruct Hc as (Hnd & Hknown & _ & Ho & Hmods & _).
  assert (NoDup (map patch_id (modules sel))) as Hndm.
  { pose proof (patch_order_cases engine_name ids ms He Hknown) as Hp. rewrite Ho in Hp. destruct Hp as [Hp _]. rewrite Hp. apply NoDup_sorted_set. }
  pose proof (fixed_point_cases root tree load_implementation diff_context context_lines engine_name overlay_texts sel Hndm) as Hspec.
  rewrite Hq in Hspec. destruct Hspec as (first & last & _ & Hlast & Hnone & Hgood & Hclosed & _ & Hall).
  set (part := selected (modules sel) good') in *.
  assert (forall m, m ∈ part -> m ∈ modules sel /\ patch_id m ∈ good') as Hpart.
  { intros m. unfold part, selected. by rewrite elem_of_filterb, str_in_true. }
  assert (forall m, m ∈ modules sel -> exists p, probes' !! patch_id m = Some p /\ describes p m) as Hde.
  { intros m Hm. destruct (Hall m Hm) as (p & ? & ? & _). by exists p. }
  pose proof (round_describes _ _ _ _ _ _ _ _ _ _ Hlast) as Hd.
  destruct (round_agrees root tree diff_context context_lines load_implementation engine_name
    (map fst (map_to_list overlay_texts)) overlay_texts part overlay_texts last w Hw) as (fpss & ts & Hload & rs & Htrial & Hok); try done.
  { intros m fps p [Hm Hmg]%Hpart. apply Hdep; [by apply Hmods|done]. }
  { apply forallb_forall. intros p Hp%list_elem_of_In. apply negb_true_iff, not_true_is_false. intros Hf.
    assert (pp_patch_id p ∈ failed_ids last) as Hx by (apply elem_of_failed_ids; by exists p). rewrite Hnone in Hx. by apply elem_of_nil in Hx. }
  { apply forallb_forall. intros p Hp%list_elem_of_In. destruct (describes_in _ _ _ Hd Hp) as (m & [Hm Hmg]%Hpart & fs & st & ->).
    apply Hset; [|done]. destruct (Hall m Hm) as (q & Hqm & (fs' & st' & ->) & Hv).
    apply list_elem_of_omap. exists m. split; [done|]. rewrite Hqm. f_equal.
    unfold verdict in Hv. cbn [pp_patch_id pp_status probe_of] in Hv.
    assert (probe_of m fs' st' ∈ last) as Hql by (destruct st'; naive_solver).
    assert (NoDup (map pp_patch_id last)) as Hndl.
    { rewrite (describes_ids _ _ Hd). eapply sublist_NoDup; [exact Hndm|]. apply sublist_map, filterb_sublist. }
    by apply (NoDup_key_inj pp_patch_id last). }
  assert (known_good_patches load_implementation engine_name good' ms (digests (omap (fun m => probes' !! patch_id m) (modules sel))) = Ok (concat fpss)) as Hkg.
  { unfold known_good_patches. destruct (resolve_part engine_name ids ms sel good' He Hk Hsel Hclosed) as (r & Hr & Hrm).
    fold part in Hr, Hrm. rewrite <- Hgood in Hr.
    assert (exists r', (if bool_decide (good' = []) then Ok (mkResolved [] None)
              else resolve_exact_from_catalog engine_name good' ms None true []) = Ok r' /\ modules r' = part) as (r' & -> & Hr').
    { case_bool_decide as Hn; [|by exists r]. exists (mkResolved [] None). split; [done|]. rewrite Hn in Hgood. by destruct part. }
    cbn [mbind result_bind]. rewrite Hr', (loads_probed (modules sel) part probes' fpss); [done|done|done|by intros m [? _]%Hpart|done]. }
  exists (concat fpss), rs. split; [exact Hkg|]. change (trial_pass root (concat fpss) (default ∅ (Some overlay_texts)) w = (Ok (rs, ts), w)) in Htrial.
  unfold apply_all, mbind, stm_bind. rewrite Htrial, Hok. by split_and!.
Qed.

End Applies.

(** ** The report *)

Section Reports.
Context `{Regex} (root : string) (tree : Tree.tree).
Context (load_implementation : string -> string -> string -> string -> res (list FilePatch)).
Context (diff_context : string -> option string) (context_lines : Z) (engine_name : string) (overlay_texts : texts).

(** A patch that needs no reconciliation. *)
Definition healthy (p : PatchProbe) : bool :=
  match pp_status p with Clean | CleanNoop | NotApplicableByDesign => true | _ => false end.

Definition entries (mods : list PatchModule) (probes : gmap string PatchProbe) : list PatchProbe :=
  omap (fun m => probes !! patch_id m) mods.

(** What a group or the whole registry has to say of its patches. *)
Record reported (ms : catalog) (ids : list string) (mods : list PatchModule) (probes : gmap string PatchProbe) (good : list string) : Prop := {
  rp_mods : map patch_id mods ≡ₚ ids;
  rp_entries : map pp_patch_id (entries mods probes) = map patch_id mods;
  rp_good : good = map pp_patch_id (List.filter healthy (entries mods probes));
  rp_dom : forall x p, probes !! x = Some p -> x ∈ ids;
  rp_describes : forall p, p ∈ entries mods probes -> exists m, ms !! patch_id m = Some m /\ describes p m;
}.

Lemma verdict_healthy ms probes good first last p :
  verdict ms probes good first last p -> healthy p = str_in (pp_patch_id p) good.
Proof.
  unfold verdict, healthy. intros Hv. symmetry. destruct (pp_status p); (apply str_in_true || apply not_true_iff_false; rewrite ?str_in_true); tauto.
Qed.

Lemma entries_reported mods probes good :
  (forall m, m ∈ mods -> exists p, probes !! patch_id m = Some p /\ describes p m /\ healthy p = str_in (patch_id m) good) ->
  map pp_patch_id (entries mods probes) = map patch_id mods /\
  map pp_patch_id (List.filter healthy (entries mods probes)) = map patch_id (selected mods good).
Proof.
  unfold entries, selected. induction mods as [|m mods IH]; intros Hall; [done|].
  destruct IH as [IH1 IH2]; [intros n Hn; apply Hall; by right|]. destruct (Hall m) as (p & Hp & (fs & st & ->) & Hh); [by left|].
  cbn [omap list_omap map List.filter]. rewrite Hp, <- Hh. cbn [map List.filter]. rewrite IH1. split; [done|].
  destruct (healthy _); cbn [map]; by rewrite IH2.
Qed.

Lemma group_reported ids ctx ms mods probes good :
  check_engine engine_name ms = Ok tt -> keyed ms ->
  probe_group root tree load_implementation diff_context context_lines engine_name ids ctx ms overlay_texts = Ok (mods, probes, good) ->
  reported ms ids mods probes good.
Proof.
  intros He Hk Hg. unfold probe_group in Hg.
  destruct (resolve_exact_from_catalog engine_name ids ms None false ctx) as [sel|x] eqn:Hsel; [|by destruct (String.eqb _ _)].
  cbn [mbind result_bind] in Hg. apply bind_Ok in Hg as ([probes' good'] & Hq & [= <- <- <-]).
  pose proof (resolve_exact_cases engine_name ids ms None false ctx He Hk) as Hc. rewrite Hsel in Hc.
  destruct Hc as (Hnd & Hknown & _ & Ho & Hmods & _).
  pose proof (patch_order_cases engine_name ids ms He Hknown) as Hp. rewrite Ho in Hp. destruct Hp as [Hp _].
  assert (NoDup (map patch_id (modules sel))) as Hndm by (rewrite Hp; apply NoDup_sorted_set).
  pose proof (fixed_point_cases root tree load_implementation diff_context context_lines engine_name overlay_texts sel Hndm) as Hspec.
  rewrite Hq in Hspec. destruct Hspec as (first & last & _ & _ & _ & Hgood & _ & Hdom & Hall).
  destruct (entries_reported (modules sel) probes' good') as [H1 H2].
  { intros m Hm. destruct (Hall m Hm) as (p & Hpm & Hde & Hv). exists p. split_and!; [done|done|].
    rewrite (verdict_healthy _ _ _ _ _ _ Hv). by destruct Hde as (fs & st & ->). }
  assert (map patch_id (modules sel) ≡ₚ ids) as Hperm.
  { rewrite Hp. apply NoDup_Permutation; [apply NoDup_sorted_set|done|]. intros x. apply elem_of_sorted_set. }
  split; [done|done|by rewrite H2| |].
  - intros x p Hx. rewrite <- Hperm. by eapply Hdom.
  - intros p (m & Hm & Hpm)%list_elem_of_omap. exists m. split; [by apply Hmods|].
    destruct (Hall m Hm) as (q & Hqm & Hd & _). rewrite Hpm in Hqm. by injection Hqm as ->.
Qed.

Lemma entries_ext mods probes probes' :
  (forall m, m ∈ mods -> probes !! patch_id m = probes' !! patch_id m) -> entries mods probes = entries mods probes'.
Proof.
  unfold entries. induction mods as [|m mods IH]; intros He; [done|]. cbn [omap list_omap].
  rewrite (He m) by by left. rewrite IH; [done|]. intros n Hn. apply He. by right.
Qed.

(** Reports of groups that have no patch in common merge. *)
Lemma reported_app ms ids1 mods1 probes1 good1 ids2 mods2 probes2 good2 :
  NoDup (ids1 ++ ids2) -> reported ms ids1 mods1 probes1 good1 -> reported ms ids2 mods2 probes2 good2 ->
  reported ms (ids1 ++ ids2) (mods1 ++ mods2) (probes2 ∪ probes1) (good1 ++ good2).
Proof.
  intros (_ & Hdisj & _)%NoDup_app [M1 E1 G1 D1 P1] [M2 E2 G2 D2 P2].
  assert (entries (mods1 ++ mods2) (probes2 ∪ probes1) = entries mods1 probes1 ++ entries mods2 probes2) as He.
  { unfold entries at 1. rewrite omap_app. f_equal; apply entries_ext; intros m Hm.
    - apply lookup_union_r. apply eq_None_not_Some. intros [p Hp%D2]. apply (Hdisj (patch_id m)); [|done].
      rewrite <- M1. by apply list_elem_of_fmap_2.
    - apply lookup_union_l. apply eq_None_not_Some. intros [p Hp%D1]. apply (Hdisj (patch_id m)); [done|].
      rewrite <- M2. by apply list_elem_of_fmap_2. }
  split.
  - by rewrite map_app, M1, M2.
  - by rewrite He, !map_app, E1, E2.
  - by rewrite He, List.filter_app, map_app, <- G1, <- G2.
  - intros x p [Hx|[_ Hx]]%lookup_union_Some_raw; apply elem_of_app; [right; by eapply D2|left; by eapply D1].
  - intros p. rewrite He. intros [?|?]%elem_of_app; [by apply P1|by apply P2].
Qed.

Lemma groups_reported groups ms mods probes good :
  check_engine engine_name ms = Ok tt -> keyed ms -> NoDup (concat groups) ->
  probe_groups root tree load_implementation diff_context context_lines engine_name groups ms overlay_texts = Ok (mods, probes, good) ->
  reported ms (concat groups) mods probes good.
Proof.
  intros He Hk. revert mods probes good. induction groups as [|g groups IH]; intros mods probes good Hnd; cbn [probe_groups].
  { intros [= <- <- <-]. split; try done. by intros p ?%elem_of_nil. }
  intros (ctx & _ & Hg)%bind_Ok. apply bind_Ok in Hg as ([[mods1 probes1] good1] & H1 & Hg).
  apply bind_Ok in Hg as ([[mods2 probes2] good2] & H2 & [= <- <- <-]). cbn [concat] in *.
  apply reported_app; [done|by eapply group_reported|]. apply IH; [|done]. by apply NoDup_app in Hnd as (_ & _ & ?).
Qed.

Lemma filterb_full {A} (f : A -> bool) l : length (List.filter f l) = length l -> forall x, x ∈ l -> f x = true.
Proof.
  induction l as [|y l IH]; [by intros _ x ?%elem_of_nil|]. cbn [List.filter length].
  pose proof (sublist_length _ _ (filterb_sublist f l)). destruct (f y) eqn:E; cbn [length]; [|lia].
  intros Hlen x [->|Hx]%elem_of_cons; [done|]. apply IH; [lia|done].
Qed.

Lemma count_cons ss p ps : count ss (p :: ps) = (if bool_decide (pp_status p ∈ ss) then 1 else 0) + count ss ps.
Proof. unfold count. cbn [List.filter]. by destruct (bool_decide _). Qed.

(** The counts of a summary, of the statuses of a list. *)
Lemma summarise_spec ps :
  let s := summarise ps in
  clean s + not_applicable s = length (List.filter healthy ps) /\
  total s = clean s + not_applicable s + failed s + blocked_by_dependency s + n_quarantined s + upstream_absorbed s /\
  (reconciliation_required s = false <-> forall p, p ∈ ps -> healthy p = true).
Proof.
  unfold summarise. cbn [total clean not_applicable failed blocked_by_dependency n_quarantined upstream_absorbed reconciliation_required].
  set (out := count [FailedNeedsReconciliation] ps + count [BlockedByDependency] ps + count [Quarantined] ps + count [UpstreamAbsorbed] ps).
  assert (count [Clean; CleanNoop] ps + count [NotApplicableByDesign] ps = length (List.filter healthy ps) /\
    length ps = length (List.filter healthy ps) + out) as [H1 H2].
  { unfold out. induction ps as [|p ps [IH1 IH2]]; [done|]. rewrite !count_cons. cbn [List.filter length].
    assert (healthy p = match pp_status p with Clean | CleanNoop | NotApplicableByDesign => true | _ => false end) as -> by done.
    destruct (pp_status p);
      repeat match goal with |- context [bool_decide ?P] =>
        let b := eval vm_compute in (bool_decide P) in change (bool_decide P) with b end; cbn [length]; lia. }
  split_and!; [done|lia|].
  rewrite !orb_false_iff, !negb_false_iff, !Nat.eqb_eq. split.
  - intros Hz. apply (filterb_full healthy ps). lia.
  - intros Hall. rewrite (filterb_all _ _ Hall) in H2. unfold out in H2. lia.
Qed.

(** What a check reports. *)
Lemma check_reported all_patches ids ms report :
  check_engine engine_name ms = Ok tt -> keyed ms -> NoDup ids ->
  run_rebase_check root tree load_implementation diff_context context_lines engine_name all_patches ids ms overlay_texts = Ok report ->
  summary report = summarise (patches report) /\ exists mods probes,
    patches report = entries mods probes /\ reported ms ids mods probes (known_good_patch_ids report).
Proof.
  intros He Hk Hnd Hrun. unfold run_rebase_check in Hrun. apply bind_Ok in Hrun as ([[mods probes] good] & Hg & [= <-]).
  cbn [summary known_good_patch_ids patches]. change (omap _ mods) with (entries mods probes).
  split; [done|]. exists mods, probes. split; [done|].
  destruct all_patches; [|by eapply group_reported]. pose proof (partition_spec ms ids) as (Hp & _ & _).
  destruct (groups_reported _ _ _ _ _ He Hk ltac:(by rewrite Hp) Hg) as [M E G D P]. split; [by rewrite M|done|done| |done].
  intros x p Hx. rewrite <- Hp. by eapply D.
Qed.

(** The report tells everything and counts everything once: of a composition
    or of a whole registry in groups, it has one entry for every selected patch
    and no other; the known-good patches are those whose entry is clean or not
    applicable by design; the counts of the summary add up to the selection,
    and reconciliation is required exactly if some selected patch is not
    known to be good. *)
Theorem report_complete all_patches ids ms report :
  check_engine engine_name ms = Ok tt -> keyed ms -> NoDup ids ->
  run_rebase_check root tree load_implementation diff_context context_lines engine_name all_patches ids ms overlay_texts = Ok report ->
  let s := summary report in
  map pp_patch_id (patches report) ≡ₚ ids /\
  known_good_patch_ids report = map pp_patch_id (List.filter healthy (patches report)) /\
  total s = length ids /\ clean s + not_applicable s = length (known_good_patch_ids report) /\
  total s = clean s + not_applicable s + failed s + blocked_by_dependency s + n_quarantined s + upstream_absorbed s /\
  (reconciliation_required s = false <-> forall x, x ∈ ids -> x ∈ known_good_patch_ids report).
Proof.
  intros He Hk Hnd Hrun.
  destruct (check_reported _ _ _ _ He Hk Hnd Hrun) as (Hs & mods & probes & Hpatches & [Hm Hent Hgood Hdom _]).
  cbv zeta. rewrite Hs, Hpatches.
  pose proof (summarise_spec (entries mods probes)) as (H1 & H2 & H3).
  assert (map pp_patch_id (entries mods probes) ≡ₚ ids) as Hperm by by rewrite Hent.
  split_and!; try done.
  - cbn [summarise total]. rewrite <- Hperm. by rewrite length_map.
  - by rewrite Hgood, length_map.
  - rewrite H3, Hgood. split.
    + intros Hall x Hx. rewrite <- Hperm in Hx. by rewrite (filterb_all _ _ Hall).
    + intros Hall p Hp. assert (NoDup (map pp_patch_id (entries mods probes))) as Hnde by by rewrite Hperm.
      assert (pp_patch_id p ∈ ids) as Hid by (rewrite <- Hperm; by apply list_elem_of_fmap_2).
      apply Hall, list_elem_of_fmap in Hid as (q & Hq & [Hqe Hh]%elem_of_filterb).
      by rewrite (NoDup_key_inj pp_patch_id _ p q Hnde Hp Hqe Hq).
Qed.
End Reports.

(** ** Witnesses *)

Definition demo_insert (name at_text new : string) : Edit :=
  mkEdit name (re_escape at_text) new InsertAfter None 1 0 "" None 40.
Definition demo_file (es : list Edit) : FilePatch := mkFilePatch "src/f.h" es "" "" false.

(** [x] fails at its second edit, and its first one is what [q] builds on
    without saying so; [y] requires [x]. *)
Definition demo_load (eng pid rt digest : string) : res (list FilePatch) :=
  if String.eqb pid "a" then Ok [demo_patch]
  else if String.eqb pid "b" then Ok [demo_second]
  else if String.eqb pid "x" then Ok [demo_file [demo_insert "p" "int f();" " int p();"; demo_insert "lost" "int lost();" " int l();"]]
  else if String.eqb pid "q" then Ok [demo_file [demo_insert "q" "int p();" " int q();"]]
  else if String.eqb pid "y" then Ok [demo_file [demo_insert "y" "int f();" " int y();"]]
  else Err (KeyError (py_repr pid)).

Definition demo_five : catalog :=
  <["a" := demo_module "a" 1 []]> (<["b" := demo_module "b" 2 ["a"]]> (<["x" := demo_module "x" 3 []]>
  (<["q" := demo_module "q" 4 []]> (<["y" := demo_module "y" 5 ["x"]]> ∅)))).

Definition demo_run (all_patches : bool) (ids : list string) (ms : catalog) : res Report :=
  run_rebase_check "/src" demo_files demo_load (fun _ => None) 3 "llamacpp" all_patches ids ms ∅.

Definition statuses (r : res Report) : res (list (string * PatchStatus) * list string) :=
  rep ← r; Ok (map (fun p => (pp_patch_id p, pp_status p)) (patches rep), known_good_patch_ids rep).

Example demo_verdicts : statuses (demo_run false ["y"; "q"; "x"; "b"; "a"] demo_five) =
  Ok ([("a", Clean); ("b", Clean); ("x", FailedNeedsReconciliation); ("q", Quarantined); ("y", BlockedByDependency)], ["a"; "b"]).
Proof. vm_compute. reflexivity. Qed.

Example reasons :
  reason_for "anchor for edit 'e' matched 2 time(s), expected exactly 1. Anchor: 'x'." = (AnchorMatchCount, Some 2%N) /\
  reason_for "anchor for edit 'e' matched 0 time(s), expected 1. Anchor: 'x'." = (AnchorNoMatch, Some 0%N) /\
  reason_for "anchor for edit 'e' matched 57 lines, more than the 40-line limit." = (AnchorSpanTooWide, Some 57%N).
Proof. vm_compute. done. Qed.

Definition demo_sel : ResolvedPatchSet :=
  mkResolved [demo_module "a" 1 []; demo_module "b" 2 ["a"]; demo_module "x" 3 []; demo_module "q" 4 []; demo_module "y" 5 ["x"]] None.

Lemma demo_five_keyed : keyed demo_five.
Proof. intros k m. unfold demo_five. rewrite !lookup_insert_Some, lookup_empty. naive_solver. Qed.

Definition demo_fixed : res (gmap string PatchProbe * list string) :=
  quarantine_fixed_point "/src" demo_files demo_load (fun _ => None) 3 "llamacpp" demo_sel ∅.

Lemma demo_fixed_value :
  match demo_fixed with Ok (ps, g) => Some (g, pp_status <$> ps !! "q") | Err _ => None end = Some (["a"; "b"], Some Quarantined).
Proof. vm_compute. reflexivity. Qed.

(** [q] got its status because it did not fail at first. *)
Lemma known_good_spec_witness :
  exists probes first p, demo_fixed = Ok (probes, ["a"; "b"]) /\
    probe_round "/src" demo_files demo_load (fun _ => None) 3 "llamacpp" [] (modules demo_sel) ∅ = Ok first /\
    probes !! "q" = Some p /\ pp_status p = Quarantined /\ ~ "q" ∈ failed_ids first.
Proof.
  pose proof (@known_good_spec Literal "/src" demo_files demo_load (fun _ => None) 3 "llamacpp" ∅ demo_sel
    ltac:(apply (bool_decide_eq_true_1 (NoDup _)); vm_compute; reflexivity)) as H.
  fold demo_fixed in H. pose proof demo_fixed_value as Hv.
  destruct demo_fixed as [[probes good]|e]; [|discriminate Hv]. injection Hv as -> Hq.
  destruct H as (first & last & Hfirst & _ & _ & _ & _ & _ & Hall).
  destruct (Hall (demo_module "q" 4 [])) as (p & Hp & (fs & st & Hd) & Hver); [apply list_elem_of_In; cbn; auto|].
  exists probes, first, p. change (patch_id (demo_module "q" 4 [])) with "q" in Hp. rewrite Hp in Hq. injection Hq as Hst.
  split; [reflexivity|]. split; [exact Hfirst|]. split; [exact Hp|]. split; [exact Hst|].
  unfold verdict in Hver. rewrite Hst, Hd in Hver. exact (proj2 Hver).
Defined.

Definition demo_report : Report :=
  Eval vm_compute in match demo_run false ["y"; "q"; "x"; "b"; "a"] demo_five with Ok r => r | Err _ => mkReport [] (summarise []) [] end.

Lemma demo_report_run : demo_run false ["y"; "q"; "x"; "b"; "a"] demo_five = Ok demo_report.
Proof. vm_compute. reflexivity. Qed.

Lemma demo_dependable m fps p :
  demo_five !! patch_id m = Some m -> patch_id m ∈ known_good_patch_ids demo_report ->
  load_module_patches demo_load "llamacpp" m = Ok fps -> p ∈ fps -> dependable demo_files ∅ p.
Proof.
  intros Hm Hg Hl Hp. cbn [known_good_patch_ids demo_report] in Hg.
  assert (fps = [demo_patch] \/ fps = [demo_second]) as Hf.
  { unfold load_module_patches in Hl. apply bind_Ok in Hl as (u & _ & Hl). apply bind_Ok in Hl as (rt & _ & Hl).
    repeat (apply elem_of_cons in Hg as [Hg|Hg]; [rewrite Hg in Hl; vm_compute in Hl; injection Hl as <-; auto|]). by apply elem_of_nil in Hg. }
  destruct Hf as [->| ->]; apply list_elem_of_singleton in Hp as ->; split; done.
Qed.

Lemma known_good_applies_witness :
  exists rs, apply_all "/src" exn_class [demo_patch; demo_second] true (Some ∅) (demo_disk []) = (Ok rs, demo_disk []) /\
    forallb ok rs = true /\
    known_good_patches demo_load "llamacpp" ["a"; "b"] demo_five (digests (patches demo_report)) = Ok [demo_patch; demo_second].
Proof.
  destruct (@known_good_applies Literal Literal_laws "/src" exn_class demo_files demo_load (fun _ => None) 3 "llamacpp" ∅
    ["y"; "q"; "x"; "b"; "a"] demo_five demo_report (demo_disk []) ltac:(vm_compute; reflexivity) demo_five_keyed
    eq_refl demo_report_run demo_dependable) as (fps & rs & Hk & Ha & Hok & _).
  { intros p Hp Hg. assert (forallb (fun p => negb (str_in (pp_patch_id p) ["a"; "b"]) || settled_probe p) (patches demo_report) = true) as Hall
      by (vm_compute; reflexivity).
    rewrite forallb_forall in Hall. specialize (Hall p (proj1 (list_elem_of_In _ _) Hp)).
    change (known_good_patch_ids demo_report) with ["a"; "b"] in Hg. apply str_in_true in Hg. rewrite Hg in Hall. exact Hall. }
  change (known_good_patch_ids demo_report) with ["a"; "b"] in Hk.
  assert (known_good_patches demo_load "llamacpp" ["a"; "b"] demo_five (digests (patches demo_report)) = Ok [demo_patch; demo_second]) as Hv
    by (vm_compute; reflexivity).
  rewrite Hv in Hk. injection Hk as <-. exists rs. split; [exact Ha|]. split; [exact Hok|exact Hv].
Defined.

Definition demo_whole : res Report := demo_run true ["a"; "b"; "x"; "q"; "y"] demo_five.

Lemma demo_whole_value : match demo_whole with Ok r => reconciliation_required (summary r) | Err _ => false end = true.
Proof. vm_compute. reflexivity. Qed.

Lemma report_complete_witness :
  exists rep, demo_whole = Ok rep /\ map pp_patch_id (patches rep) ≡ₚ ["a"; "b"; "x"; "q"; "y"] /\
    reconciliation_required (summary rep) = true /\ total (summary rep) = 5.
Proof.
  pose proof demo_whole_value as Hv. destruct demo_whole as [rep|e] eqn:E; [|discriminate Hv].
  destruct (@report_complete Literal "/src" demo_files demo_load (fun _ => None) 3 "llamacpp" ∅ true ["a"; "b"; "x"; "q"; "y"]
    demo_five rep ltac:(vm_compute; reflexivity) demo_five_keyed
    ltac:(apply (bool_decide_eq_true_1 (NoDup _)); vm_compute; reflexivity) E) as (H1 & _ & H2 & _).
  exists rep. split; [reflexivity|]. split; [exact H1|]. split; [exact Hv|exact H2].
Defined.

(** A guard that an earlier edit of the file removes: the probe finds it in the
    text the file had before, so it calls the patch clean; the application
    looks for it in the text it has now, and the edit fails. *)
Definition demo_stale : FilePatch :=
  demo_file [mkEdit "drop" (re_escape "int f();") "int g();" Replace None 1 0 "" None 40;
             mkEdit "keep" (re_escape "nothing") "none" InsertAfter (Some (re_escape "int f();")) 1 0 "" None 40].

Definition demo_one (p : FilePatch) : res Report :=
  run_rebase_check "/src" demo_files (fun _ _ _ _ => Ok [p]) (fun _ => None) 3 "llamacpp" false ["a"]
    (<["a" := demo_module "a" 1 []]> ∅) {["src/f.h" := "int f();" +:+ newline]}.

Definition applied_ok (p : FilePatch) (ts : texts) : res bool :=
  rs ← (apply_all "/src" exn_class [p] true (Some ts) (demo_disk [])).1; Ok (forallb ok rs).

Example stale_guard_probed_clean :
  statuses (demo_one demo_stale) = Ok ([("a", Clean)], ["a"]) /\
  applied_ok demo_stale {["src/f.h" := "int f();" +:+ newline]} = Ok false.
Proof. vm_compute. done. Qed.

(** A created file that is there upstream with other content: the probe edits
    what is there and calls the patch clean, the application refuses. *)
Definition demo_collides : FilePatch :=
  mkFilePatch "src/f.h" [mkEdit "new" at_start "new file" InsertAfter None 1 0 "" None 40] "" "none" true.

Example collision_probed_clean :
  statuses (run_rebase_check "/src" demo_files (fun _ _ _ _ => Ok [demo_collides]) (fun _ => None) 3 "llamacpp" false ["a"]
    (<["a" := demo_module "a" 1 []]> ∅) ∅) = Ok ([("a", Clean)], ["a"]) /\
  applied_ok demo_collides ∅ = Ok false.
Proof. vm_compute. done. Qed.

(** Groups: [d] requires [x], which fails, and is an alternative to [a]; it is
    probed in a group of its own, where [x] is context, and ends up known to be
    good without what it requires. *)
Definition demo_alternatives : catalog :=
  <["a" := demo_module "a" 1 []]> (<["x" := demo_module "x" 3 []]>
  (<["y" := mkPatchModule "llamacpp" "y" 5 "validated" "" ["x"] ["a"] (Some "patches")]> ∅)).

Example known_good_is_not_closed :
  partition_conflict_free demo_alternatives ["a"; "x"; "y"] = [["a"; "x"]; ["y"]] /\
  statuses (demo_run true ["a"; "x"; "y"] demo_alternatives) =
    Ok ([("a", Clean); ("x", FailedNeedsReconciliation); ("y", Clean)], ["a"; "y"]) /\
  known_good_patches demo_load "llamacpp" ["a"; "y"] demo_alternatives [] =
    Err (ValueError "y requires explicitly selected module(s): x").
Proof. vm_compute. done. Qed.
End Rebase.
