(* ===== verification/KnownGood.v ===== *)
(** The report of a rebase check, when it may still be relied on, and the
    application of the subset it proved good: the rest of
    [src/tools/bigcherry/patch/rebase.py], on the summary of
    [release/records.py] and the marker of [pin_transition.py].

    What git, the registry, the configuration and the overlay are at a moment is
    the record [Live].  The checkout and the directory of the repository are two
    trees of files; every write may fail. *)

From S2P Require Import Prelude Json Pretty Lines Tree Operations Artifacts Csource Apply Patchset Selection Rebase Promotion Records.
Import Json Lines Tree Csource Apply Patchset Selection Rebase.

Module KnownGood.

Definition Stale (msg : string) : exn := Exn "StaleRebaseReportError" msg.

Definition REPORT_SCHEMA_VERSION : Z := 2.
Definition PATCH_APPLICATION_SEMANTICS_VERSION : Z := 1.

(** ** The report as a document *)

Definition status_text (s : PatchStatus) : string :=
  match s with
  | Clean => "CLEAN" | CleanNoop => "CLEAN_NOOP" | NotApplicableByDesign => "NOT_APPLICABLE_BY_DESIGN"
  | FailedNeedsReconciliation => "FAILED_NEEDS_RECONCILIATION" | BlockedByDependency => "BLOCKED_BY_DEPENDENCY"
  | Quarantined => "QUARANTINED" | UpstreamAbsorbed => "UPSTREAM_ABSORBED"
  end.

Definition edit_status_text (s : EditStatus) : string :=
  match s with
  | EditApplied => "applied-clean" | EditAlreadyApplied => "already-applied"
  | EditNotApplicable => "not-applicable-by-design" | EditFailed => "failed"
  end.

Definition reason_text (r : Reason) : string :=
  match r with
  | TargetMissing => "target-file-missing" | AnchorNoMatch => "anchor-no-match" | AnchorMatchCount => "anchor-match-count"
  | AnchorSpanTooWide => "anchor-span-too-wide" | InvalidAnchorRegex => "invalid-anchor-regex" | UnsafeTarget => "unsafe-target"
  | Other => "other-patch-error" | UpstreamPresent => "upstream-already-contains-output"
  | UpstreamGuardOnly => "upstream-guard-match-without-full-output"
  end.

Definition edit_document (e : EditProbe) : json :=
  JObj [("edit_id", JStr (ep_edit_id e)); ("status", JStr (edit_status_text (ep_status e)));
        ("reason_code", jopt (fun r => JStr (reason_text r)) (reason_code e)); ("anchor", JStr (ep_anchor e));
        ("expect_matches", JInt (ep_expect_matches e)); ("actual_matches", jopt (fun n => JInt (Z.of_N n)) (actual_matches e));
        ("applies_if", jopt JStr (ep_applies_if e)); ("rationale", JStr (ep_rationale e)); ("context", jopt JStr (Rebase.context e))].

Definition file_document (f : FileProbe) : json :=
  JObj [("path", JStr (fpr_path f)); ("edits", JArr (map edit_document (fpr_edits f)))].

Definition patch_document (p : PatchProbe) : list (string * json) :=
  [("patch_id", JStr (pp_patch_id p)); ("implementation_digest", JStr (implementation_digest p)); ("state", JStr (pp_state p));
   ("requires", jstrs (pp_requires p)); ("conflicts", jstrs (pp_conflicts p)); ("status", JStr (status_text (pp_status p)));
   ("files", JArr (map file_document (pp_files p)))].

Definition summary_document (s : Summary) : json :=
  JObj [("total", JInt (Z.of_nat (total s))); ("clean", JInt (Z.of_nat (clean s)));
        ("not_applicable", JInt (Z.of_nat (not_applicable s))); ("failed", JInt (Z.of_nat (failed s)));
        ("blocked_by_dependency", JInt (Z.of_nat (blocked_by_dependency s))); ("quarantined", JInt (Z.of_nat (n_quarantined s)));
        ("upstream_absorbed", JInt (Z.of_nat (upstream_absorbed s)));
        ("reconciliation_required", JBool (reconciliation_required s))].

(** ** The overlay *)

(** The files under a directory, by their paths relative to it. *)
Definition overlay_texts (t : tree) (overlay_root : path) : texts :=
  list_to_map (omap (fun pn : path * node =>
    match pn with
    | (p, File c) =>
        if bool_decide (overlay_root `prefix_of` p)
        then Some (String.concat "/" (drop (length overlay_root) p), universal c) else None
    | _ => None
    end) (map_to_list t)).

(** What the digest of an overlay is of. *)
Definition digest_text (ts : texts) : string :=
  String.concat "" (map (fun k => k +:+ nul +:+ default "" (ts !! k) +:+ nul) (py_sorted String.leb (map fst (map_to_list ts)))).

(** ** What there is at a moment *)

Record Live : Type := mkLive {
  live_catalog : list PatchModule;     (**r [patchset.catalog(engine)] *)
  live_config : res Config;            (**r [config.load(recipes_path)] *)
  vendor_head : res string;            (**r [git rev-parse HEAD] of the checkout *)
  bigcherry_head : res string;         (**r and of the repository *)
  live_overlay : texts;
}.

(** What a check is asked for. *)
Record Request : Type := mkRequest {
  rq_source : option string;
  rq_all : bool;
  rq_experiment : option string;
  rq_focal : option string;
}.

Definition is_selection_error (x : exn) : bool := str_in (exn_class x) ["ResolutionError"; "ConfigError"; "ValueError"].

(** [removeprefix] *)
Definition removeprefix (p s : string) : string := default s (without_prefix p s).

Section Check.
Context (blake2b sha256 : string -> string) (physical : gmap string PatchModule) (engine_name : string).

Definition digest_from_texts (ts : texts) : string := sha256 (digest_text ts).

Definition check_request (q : Request) : res unit :=
  _ ← ensure (xorb (opt_truthy (rq_source q)) (rq_all q)) (RebaseCheckError "patch-rebase-check: pass exactly one of --source NAME or --all");
  _ ← ensure (is_none (rq_experiment q) || is_none (rq_focal q)) (RebaseCheckError "--experiment and --focal-overlay are mutually exclusive");
  ensure (is_none (rq_experiment q) && is_none (rq_focal q) || opt_truthy (rq_source q))
    (RebaseCheckError "--experiment/--focal-overlay require --source NAME").

(** The identity of what is asked for, now. *)
Definition requested_identity (live : Live) (q : Request) : res SelectorIdentity :=
  if rq_all q then build_all_patches_identity engine_name (live_catalog live)
  else
    source ← of_option (RebaseCheckError "patch-rebase-check: --source NAME required") (rq_source q);
    cfg ← live_config live;
    resolve_canonical_selection blake2b physical engine_name source cfg (live_catalog live) (rq_experiment q) (rq_focal q).

(** [except (ResolutionError, ConfigError, ValueError)] *)
Definition as_check_error {A} (m : res A) : res A :=
  match m with
  | Err x => if is_selection_error x then Err (RebaseCheckError ("patch-rebase-check: " +:+ exn_message x)) else Err x
  | r => r
  end.

Definition selector (live : Live) (q : Request) : res SelectorIdentity :=
  _ ← check_request q; as_check_error (requested_identity live q).

Record SelectorSnapshot : Type := mkSnapshot {
  sn_identity : SelectorIdentity;
  sn_modules : list PatchModule;
  modules_by_id : gmap string PatchModule;
}.

Definition resolve_selector_snapshot (live : Live) (q : Request) : res SelectorSnapshot :=
  identity ← selector live q;
  let ms := by_id (live_catalog live) in
  mods ← mapR (module_at ms) (Selection.patch_ids identity);
  _ ← ensure (bool_decide (hashes_of mods = module_hashes identity))
        (RebaseCheckError ("patch-rebase-check: internal inconsistency -- the selector identity does not match the catalog "
           +:+ "snapshot it was resolved from"));
  Ok (mkSnapshot identity mods ms).

(** [pin_transition.load], of the tree the marker is in: [None] where there is none *)
Definition load_marker (t : tree) (p : path) : res (option (string * string)) :=
  let MarkerError msg := Exn "MarkerError" (msg +:+ String.concat "/" p) in
  if is_file t p then
    raw ← (match Records.read_json t p with Ok v => Ok v | Err _ => Err (MarkerError "unreadable pin-transition marker: ") end);
    match raw with
    | JObj o =>
        _ ← ensure (is_int (jget o "schema_version") 1) (MarkerError "pin-transition marker has wrong schema_version: ");
        fields ← mapR (fun k => match jget o k with
                                | Some (JStr s) => if truthy s then Ok s else Err (Exn "MarkerError" ("pin-transition marker field " +:+ py_repr k +:+ " is missing or not a string"))
                                | _ => Err (Exn "MarkerError" ("pin-transition marker field " +:+ py_repr k +:+ " is missing or not a string"))
                                end) ["from_sha"; "to_sha"; "tag"; "declaring_commit"; "set_at"];
        Ok (match fields with from_sha :: to_sha :: _ => Some (from_sha, to_sha) | _ => None end)
    | _ => Err (MarkerError "pin-transition marker has wrong schema_version: ")
    end
  else Ok None.

Definition previous_upstream_revision (t : tree) (releases : path) (revision : string) : option string :=
  match load_marker t (releases ++ ["pin-transition-" +:+ engine_name +:+ ".json"]) with
  | Ok (Some (from_sha, to_sha)) => if String.eqb to_sha revision then Some from_sha else None
  | _ => None
  end.

Definition report_document (revision : string) (previous : option string) (bigcherry overlay : string) (i : SelectorIdentity)
    (r : Report) : list (string * json) :=
  [("schema_version", JInt REPORT_SCHEMA_VERSION); ("engine", JStr engine_name); ("upstream_revision", JStr revision);
   ("previous_upstream_revision", jopt JStr previous); ("bigcherry_revision", JStr bigcherry);
   ("patch_application_semantics_version", JInt PATCH_APPLICATION_SEMANTICS_VERSION); ("overlay_digest", JStr overlay);
   ("selector", JObj (to_payload i)); ("known_good_patch_ids", jstrs (known_good_patch_ids r));
   ("summary", summary_document (summary r)); ("patches", JArr (map (fun p => JObj (patch_document p)) (patches r)))].

Section Run.
Context `{Regex} (root : string) (load_implementation : string -> string -> string -> string -> res (list FilePatch)).
Context (diff_context : string -> option string) (context_lines : Z).

(** The probe of what is asked for: [pristine] is the worktree. *)
Definition probe_request (live : Live) (q : Request) (pristine : tree) : res (SelectorIdentity * Report) :=
  snap ← resolve_selector_snapshot live q;
  let i := sn_identity snap in
  _ ← vendor_head live;
  r ← run_rebase_check root pristine load_implementation diff_context context_lines engine_name (rq_all q)
        (if rq_all q then Selection.patch_ids i else map patch_id (sn_modules snap)) (modules_by_id snap) (live_overlay live);
  Ok (i, r).

(** [run_rebase_check]; [repo] is the repository. *)
Definition run_check (live : Live) (q : Request) (pristine repo : tree) (releases : path) : res (list (string * json)) :=
  '(i, r) ← probe_request live q pristine;
  revision ← vendor_head live;
  bigcherry ← bigcherry_head live;
  Ok (report_document revision (previous_upstream_revision repo releases revision) bigcherry (digest_from_texts (live_overlay live)) i r).
End Run.

(** ** The report on disk *)

(** [contextlib.suppress(OSError)] *)
Definition suppress_os (m : stm Disk unit) : stm Disk unit := fun w =>
  match m w with
  | (Err e, w1) => if is_OSError e then (Ok tt, w1) else (Err e, w1)
  | r => r
  end.

(** [write_report], with [mkstemp]. *)
Definition write_report `{Records.TempFiles} (p : path) (report : json) : stm Disk unit :=
  _ ← iterM make_dir (above p);
  w ← get;
  let tmp := removelast p ++ [Records.temp_file (files w) (removelast p) (List.last p "" +:+ ".") ".tmp"] in
  f ← next_fault;
  match f with
  | Some f => _ ← (match left f with Some c => set_node tmp (File c) | None => mret tt end); raise (raised f)
  | None =>
      _ ← set_node tmp (File "");
      Records.on_error (_ ← write_file tmp (Pretty.dumps_indent report +:+ newline); Records.replace_file tmp p) (suppress_os (unlink tmp))
  end.

Definition load_report (t : tree) (p : path) : res json :=
  match Records.read_json t p with
  | Err x => Err (RebaseCheckError ("unreadable rebase report: " +:+ String.concat "/" p +:+ ": " +:+ exn_message x))
  | r => r
  end.

(** ** Freshness *)

(** The selector of a report, resolved again. *)
Definition live_identity_for (live : Live) (reported : SelectorIdentity) : res SelectorIdentity :=
  let again experiment focal := selector live (mkRequest (Selection.source_name reported) false experiment focal) in
  if String.eqb (selector_kind reported) SELECTOR_KIND_ALL_PATCHES then build_all_patches_identity engine_name (live_catalog live)
  else if is_none (Selection.source_name reported) then
    Err (RebaseCheckError "schema-2 selector identity names no source for a source-bounded kind")
  else if String.eqb (selector_kind reported) SELECTOR_KIND_EXPERIMENT then
    again (Some (removeprefix "experiment:" (selector_name reported))) None
  else if String.eqb (selector_kind reported) SELECTOR_KIND_FOCAL_OVERLAY then
    again None (Some (removeprefix "focal:" (selector_name reported)))
  else again None None.

(** [report.get] *)
Definition mapping (v : json) : res (list (string * json)) := match v with JObj o => Ok o | _ => Err (no_get v) end.

(** What can be an element of a set. *)
Definition hashable (v : json) : res json :=
  match v with
  | JArr _ | JObj _ => Err (TypeError ("unhashable type: '" +:+ type_name v +:+ "'"))
  | _ => Ok v
  end.

Definition in_strs (l : list string) (v : json) : bool := match v with JStr s => str_in s l | _ => false end.

(** [sorted(set(vs))] as text, of values of one type; several numbers are given
    in the order they come in. *)
Definition sorted_text (vs : list json) : res string :=
  match mapM as_str vs with
  | Some ss => Ok (py_repr_list (sorted_set ss))
  | None =>
      let num v := match v with JInt _ | JBool _ | JFloat _ => true | _ => false end in
      let null v := match v with JNull => true | _ => false end in
      if forallb num vs || forallb null vs then Ok ("[" +:+ String.concat ", " (map jrepr vs) +:+ "]")
      else Err (TypeError "'<' not supported between instances")
  end.

(** [tuple(xs) != tuple(ys)] *)
Definition same_tuple (strs : list string) (v : json) : res bool := ys ← json_iter v; Ok (py_eqb (jstrs strs) (JArr ys)).

(** The value of a key is [v]. *)
Definition says (o : list (string * json)) (k : string) (v : json) (msg : string) : res unit :=
  ensure (py_eqb (get_or o k JNull) v) (Stale msg).

Definition entry_id (e : json) : res json := p ← mapping e; hashable (get_or p "patch_id" JNull).

(** One entry of [patches], against the catalogue. *)
Definition check_entry (ms : gmap string PatchModule) (e : json) : res unit :=
  p ← mapping e;
  pid ← item p "patch_id";
  let stale msg := Stale ("patch " +:+ jrepr pid +:+ " " +:+ msg) in
  current ← of_option (stale "no longer exists in the registry") (match pid with JStr s => ms !! s | _ => None end);
  _ ← ensure (py_eqb (get_or p "implementation_digest" JNull) (JStr (content_hash current)))
        (stale "implementation changed since the report was written");
  requires_same ← same_tuple (requires current) (get_or p "requires" (JArr []));
  _ ← ensure requires_same (stale "REQUIRES changed since the report was written");
  conflicts_same ← same_tuple (conflicts current) (get_or p "conflicts" (JArr []));
  ensure conflicts_same (stale "CONFLICTS changed since the report was written").

(** The entries, as one for each patch of the selection. *)
Definition check_entries (ms : gmap string PatchModule) (selected : list string) (entries : list json) : res unit :=
  reported ← mapR entry_id entries;
  let strange := List.filter (fun v => negb (in_strs selected v)) reported in
  let missing := List.filter (fun s => negb (existsb (py_eqb (JStr s)) reported)) selected in
  _ ← (if bool_decide (length strange = 0) && bool_decide (missing = []) then Ok tt
       else
         text ← sorted_text strange;
         Err (Stale ("report's patches[] does not name exactly its own selection.patch_ids (only in patches[]: " +:+ text
           +:+ ", only in selection: " +:+ py_repr_list (sorted_set missing) +:+ ") -- "
           +:+ "the report is internally inconsistent, re-run patch-rebase-check")));
  _ ← mapR (check_entry ms) entries;
  Ok tt.

Definition read_known_good (selected : list string) (v : json) : res (list string) :=
  known ← json_iter v;
  _ ← mapR hashable known;
  match List.filter (fun v => negb (in_strs selected v)) known with
  | [] => Ok (omap as_str known)
  | unknown =>
      text ← sorted_text unknown;
      Err (Stale ("report's known_good_patch_ids contains id(s) outside its own selection: " +:+ text))
  end.

(** The selector of a report, which must be what it resolves to now. *)
Definition fresh_identity (live : Live) (o : list (string * json)) : res SelectorIdentity :=
  payload ← (match jget o "selector" with
             | Some (JObj p) => Ok (JObj p)
             | _ => Err (Stale "report has no canonical 'selector' identity payload (schema 2) -- re-run patch-rebase-check")
             end);
  reported ← (match from_payload payload with
              | Err x => Err (Stale ("report's selector payload is invalid: " +:+ exn_message x))
              | r => r
              end);
  current ← (match live_identity_for live reported with
             | Err x => if str_in (exn_class x) ["RebaseCheckError"; "StaleRebaseReportError"]
                        then Err (Stale ("report's selector no longer resolves: " +:+ exn_message x)) else Err x
             | r => r
             end);
  _ ← ensure (bool_decide (current = reported))
        (Stale ("report's selector identity no longer matches the live config (differs in: "
          +:+ py_repr_tuple (describe_diff reported current) +:+ ") -- re-run patch-rebase-check"));
  Ok reported.

(** [_require_fresh]: [digest] of an overlay that is at hand, or of the one there is. *)
Definition require_fresh (live : Live) (report : json) (digest : option string) : res (list string) :=
  o ← mapping report;
  let shown k := jrepr (get_or o k JNull) in
  _ ← says o "engine" (JStr engine_name) ("report engine " +:+ shown "engine" +:+ " != requested engine " +:+ py_repr engine_name);
  _ ← says o "schema_version" (JInt REPORT_SCHEMA_VERSION)
        ("report schema_version " +:+ shown "schema_version" +:+ " != current " +:+ show_Z REPORT_SCHEMA_VERSION);
  _ ← says o "patch_application_semantics_version" (JInt PATCH_APPLICATION_SEMANTICS_VERSION)
        "report's patch_application_semantics_version no longer matches the live apply.py -- re-run patch-rebase-check";
  revision ← vendor_head live;
  _ ← says o "upstream_revision" (JStr revision)
        ("report upstream_revision " +:+ shown "upstream_revision" +:+ " != live vendor HEAD " +:+ py_repr revision);
  bigcherry ← bigcherry_head live;
  _ ← says o "bigcherry_revision" (JStr bigcherry)
        ("report bigcherry_revision " +:+ shown "bigcherry_revision" +:+ " != live HEAD " +:+ py_repr bigcherry);
  _ ← says o "overlay_digest" (JStr (default (digest_from_texts (live_overlay live)) digest))
        "report overlay_digest no longer matches the overlay -- re-run patch-rebase-check";
  i ← fresh_identity live o;
  entries ← json_iter (get_or o "patches" (JArr []));
  _ ← check_entries (by_id (live_catalog live)) (Selection.patch_ids i) entries;
  read_known_good (Selection.patch_ids i) (get_or o "known_good_patch_ids" (JArr [])).

(** [except (KeyError, TypeError, AttributeError)] *)
Definition as_malformed {A} (m : res A) : res A :=
  match m with
  | Err x => if str_in (exn_class x) ["KeyError"; "TypeError"; "AttributeError"]
             then Err (Stale ("malformed rebase report: " +:+ exn_message x)) else Err x
  | r => r
  end.

Definition require_fresh_report (live : Live) (report : json) (expected : option SelectorIdentity)
    (required : option (list (string * string))) (digest : option string) : res (list string) :=
  _ ← ensure (negb (bool_decide (is_Some expected) && bool_decide (is_Some required)))
        (ValueError ("expected_selector and required_module_hashes are mutually exclusive -- pass one binding, not both"));
  good ← as_malformed (require_fresh live report digest);
  let actual := o ← mapping report;
                match from_payload (get_or o "selector" JNull) with
                | Err x => Err (Stale ("report's selector payload is invalid: " +:+ exn_message x))
                | r => r
                end in
  match expected, required with
  | None, None => Ok good
  | Some e, _ =>
      a ← actual;
      _ ← ensure (bool_decide (a = e))
            (Stale ("report was produced under selector " +:+ py_repr (selector_name a) +:+ ", not the expected "
              +:+ py_repr (selector_name e) +:+ " (differs in: " +:+ py_repr_tuple (describe_diff a e) +:+ ")"));
      Ok good
  | None, Some hashes =>
      a ← actual;
      _ ← ensure (negb (String.eqb (selector_kind a) SELECTOR_KIND_ALL_PATCHES))
            (Stale ("an all-patches rebase report cannot bind a no-source composition evaluation -- it is evidence for the entire "
              +:+ "registry, not for this focal's dependency closure; re-run patch-rebase-check with an explicit --source"));
      _ ← ensure (bool_decide (module_hashes a = hashes))
            (Stale ("the rebase report's selector module_hashes do not exactly match the required composition (order and content "
              +:+ "hashes) -- the report is not evidence for this evaluation; re-run patch-rebase-check"));
      Ok good
  end.

(** ** Applying *)

(** [summarise_patches] *)
Definition result_text (s : Status) : string :=
  match s with Applied => "applied" | AlreadyApplied => "already-applied" | NotApplicable => "not-applicable" | Failed => "failed" end.

Definition failed_edits (rs : list PatchResult) : list string :=
  concat (map (fun r => map (fun e => pr_path r +:+ ":" +:+ edit_id e)
                          (List.filter (fun e => bool_decide (status e = Failed)) (results r))) rs).

Definition summarise_patches (rs : list PatchResult) : json :=
  JObj [("applied_cleanly", JBool (bool_decide (failed_edits rs = []))); ("failed_edits", jstrs (failed_edits rs));
        ("files", JObj (dict_of_pairs (map (fun r =>
           (pr_path r, JObj (dict_of_pairs (map (fun e => (edit_id e, JStr (result_text (status e)))) (results r))))) rs)))].

(** The record, when a run has ended. *)
Definition prefixed_note : string := "patches failed:".
Definition note_of (rs : list PatchResult) : json := JStr ("patches failed: " +:+ comma_list (failed_edits rs)).
Definition set_patches (rs : list PatchResult) : stm Records.ReleaseRecord unit :=
  modify (fun r => Records.with_patches (summarise_patches rs) (Records.notes r) r).
Definition set_notes (v : json) : stm Records.ReleaseRecord unit := modify (fun r => Records.with_patches (Records.patches r) v r).

(** [elif record.notes.startswith("patches failed:")] *)
Definition clear_note : stm Records.ReleaseRecord unit :=
  r ← get;
  match Records.notes r with
  | JStr s => if startswith prefixed_note s then set_notes (JStr "") else mret tt
  | v => raise (AttributeError ("'" +:+ type_name v +:+ "' object has no attribute 'startswith'"))
  end.

(** A part of the selection was applied: the stage never advances. *)
Definition record_partial (ok : bool) (original_stage : string) (rs : list PatchResult) : stm Records.ReleaseRecord unit :=
  if ok then
    if negb (str_in original_stage ["audited"; "broken"]) then
      _ ← modify (Records.with_evidence (JStr "") JNull);
      _ ← Records.advance_to "broken";
      set_notes (JStr ("partial known-good apply (--force) replaced a '" +:+ original_stage
        +:+ "' tree with an incomplete composition -- prior stage evidence invalidated"))
    else clear_note
  else
    _ ← Records.record_apply_result false false;
    set_notes (note_of rs).

(** All of it was. *)
Definition record_full (ok mutated : bool) (rs : list PatchResult) : stm Records.ReleaseRecord unit :=
  _ ← Records.record_apply_result ok mutated;
  if ok then clear_note else set_notes (note_of rs).

(** The checkout, and the repository with the record at hand. *)
Record Both : Type := mkBoth { checkout : Disk; recorded : Records.World }.

Definition on_checkout {A} (m : stm Disk A) : stm Both A := fun w =>
  let '(r, x) := m (checkout w) in (r, mkBoth x (recorded w)).
Definition on_recorded {A} (m : stm Records.World A) : stm Both A := fun w =>
  let '(r, x) := m (recorded w) in (r, mkBoth (checkout w) x).

Record ApplyResult : Type := mkApplyResult {
  ar_ok : bool;
  selected_patch_ids : list json;
  ar_known_good : list string;
  partial : bool;
}.

(** [(report.get("selector") or {}).get("patch_ids", ())] *)
Definition selected_of (report : json) : res (list json) :=
  o ← mapping report;
  s ← mapping (let v := get_or o "selector" JNull in if jtruthy v then v else JObj []);
  json_iter (get_or s "patch_ids" (JArr [])).

(** [set(known_good) != set(selected)] *)
Definition is_partial (good : list string) (selected : list json) : bool :=
  negb (forallb (in_strs good) selected && forallb (fun s => existsb (py_eqb (JStr s)) selected) good).

(** [report_digests], of what are strings in a report that is fresh *)
Definition report_digests (report : json) : res (list (string * string)) :=
  o ← mapping report;
  entries ← json_iter (get_or o "patches" (JArr []));
  pairs ← mapR (fun e => p ← mapping e; pid ← item_str p "patch_id"; d ← item_str p "implementation_digest"; Ok (pid, d)) entries;
  Ok (dict_of_pairs pairs).

Section Apply.
Context `{Regex} `{Records.TempFiles} (root : string) (show_exn : exn -> string) (releases : path).
Context (load_implementation : string -> string -> string -> string -> res (list FilePatch)).

(** [_write_overlay_snapshot]: what was written, and what was there before. *)
Fixpoint write_overlay (dry_run : bool) (l : list (string * string)) : stm Disk (list string * list (string * option string)) :=
  match l with
  | [] => mret ([], [])
  | (relative, text) :: l' =>
      w ← get;
      target ← lift (resolve_contained_target root (files w) relative);
      if bool_decide (node_at (files w) target = Some (File text)) then write_overlay dry_run l'
      else
        _ ← (if dry_run then mret tt else _ ← iterM make_dir (above target); write_file target text);
        '(written, backup) ← write_overlay dry_run l';
        mret (relative :: written, (relative, read_text (files w) target) :: backup)
  end.

Definition write_overlay_snapshot (ts : texts) (dry_run : bool) : stm Disk (list string * list (string * option string)) :=
  write_overlay dry_run (py_sorted by_key (map_to_list ts)).

Definition restore_overlay (backup : list (string * option string)) : stm Disk unit :=
  iterM (fun b => suppress_os (restore_one (Operations.parts b.1, b.2))) backup.

(** The record may be written over. *)
Definition check_record (force partial : bool) (r : Records.ReleaseRecord) : res unit :=
  if force then Ok tt
  else
    a ← (match Records.audit r with JObj a => Ok a | v => Err (no_get v) end);
    _ ← ensure (jtruthy (get_or a "passed" JNull))
          (RebaseCheckError "apply --known-good: tree has not passed a strict audit; run `bigcherry audit` first, or pass --force");
    ensure (negb partial || str_in (Records.stage r) ["audited"; "broken"])
      (RebaseCheckError ("apply --known-good: a PARTIAL known-good subset is only accepted on a tree at stage 'audited' or 'broken' (current: "
        +:+ py_repr (Records.stage r) +:+ ") -- applying it now would leave later-stage evidence describing a "
        +:+ "composition that was never fully applied; pass --force only if you accept invalidating that evidence yourself")).

(** What is written of the checkout. *)
Definition write_tree (overlay : texts) (fps : list FilePatch) (dry_run : bool) : stm Disk (list string * list PatchResult) :=
  '(written, backup) ← write_overlay_snapshot overlay dry_run;
  rs ← apply_all root show_exn fps dry_run (Some overlay);
  _ ← (if forallb ok rs || dry_run then mret tt else restore_overlay backup);
  mret (written, rs).

(** [apply_known_good]; [git]: the revision and the tag of the checkout and the
    revision of the repository, as the record has them; [now], [now_index]: the
    clock. *)
Definition apply_known_good (live : Live) (report_path : path) (git : string * string * string) (now now_index : string)
    (force dry_run : bool) : stm Both ApplyResult :=
  w ← get;
  let repo := files (Records.disk (recorded w)) in
  report ← lift (load_report repo report_path);
  let overlay := live_overlay live in
  good ← lift (require_fresh live report (Some (digest_from_texts overlay)));
  selected ← lift (selected_of report);
  let partial := is_partial good selected in
  let '(revision, tag, bigcherry) := git in
  record ← lift (Records.record_for_checkout releases repo revision tag bigcherry);
  _ ← on_recorded (modify (fun x => Records.mkWorld record (Records.disk x)));
  _ ← lift (check_record force partial record);
  digests ← lift (report_digests report);
  fps ← lift (known_good_patches load_implementation engine_name good (by_id (live_catalog live)) digests);
  '(written, rs) ← on_checkout (write_tree overlay fps dry_run);
  let succeeded := forallb ok rs in
  _ ← (if dry_run then mret tt
       else
         _ ← on_recorded (Records.on_record (set_patches rs));
         _ ← on_recorded (Records.on_record
               (if partial then record_partial succeeded (Records.stage record) rs
                else record_full succeeded (negb (bool_decide (written = [])) || existsb changed rs) rs));
         _ ← on_recorded (Records.save releases now now_index);
         mret tt);
  mret (mkApplyResult succeeded selected good partial).
End Apply.
End Check.

(** ** Reading the report again *)

Lemma says_str o k s msg u : says o k (JStr s) msg = Ok u <-> jget o k = Some (JStr s).
Proof.
  unfold says, get_or. rewrite ensure_Ok, py_eqb_str. destruct (jget o k) as [v|]; cbn; naive_solver.
Qed.

Lemma says_int o k z msg u : says o k (JInt z) msg = Ok u <-> is_int (jget o k) z = true.
Proof.
  unfold says, get_or, is_int. rewrite ensure_Ok. destruct (jget o k) as [v|]; cbn [default]; [|done]. by rewrite py_eqb_int.
Qed.

Lemma same_tuple_strs l k : same_tuple l (jstrs k) = Ok true <-> l = k.
Proof.
  unfold same_tuple, jstrs. cbn [json_iter mbind result_bind]. split.
  - intros H. assert (py_eqb (JArr (map JStr l)) (JArr (map JStr k)) = true) as (k' & Hk & Hf)%py_eqb_arr by congruence.
    injection Hk as Hk. subst k'. clear H. revert k Hf.
    induction l as [|x l IH]; intros [|y k] Hf; inversion Hf as [|? ? ? ? Hxy Hr]; subst; [done|].
    apply py_eqb_str in Hxy. injection Hxy as ->. f_equal. by apply IH.
  - intros ->. f_equal. apply py_eqb_refl. apply jwf_jstrs.
Qed.

Lemma in_strs_map l k : (forall x, x ∈ k -> x ∈ l) -> List.filter (fun v => negb (in_strs l v)) (map JStr k) = [].
Proof.
  intros Hin. apply filterb_nil. intros v (x & -> & Hx)%list_elem_of_fmap. cbn. apply negb_false_iff, str_in_true. by apply Hin.
Qed.

Lemma omap_as_str l : omap as_str (map JStr l) = l.
Proof. induction l as [|x l IH]; [done|]. cbn. by f_equal. Qed.

Lemma read_known_good_strs selected l : (forall x, x ∈ l -> x ∈ selected) -> read_known_good selected (jstrs l) = Ok l.
Proof.
  intros Hin. unfold read_known_good, jstrs. cbn [json_iter mbind result_bind].
  assert (mapR hashable (map JStr l) = Ok (map JStr l)) as ->.
  { clear. induction l as [|x l IH]; [done|]. cbn [map mapR]. rewrite IH. done. }
  cbn [mbind result_bind]. by rewrite in_strs_map, omap_as_str.
Qed.

Lemma read_known_good_back selected l good : read_known_good selected (jstrs l) = Ok good -> good = l.
Proof.
  unfold read_known_good, jstrs. cbn [json_iter mbind result_bind]. intros (u & _ & H)%bind_Ok.
  destruct (List.filter _ _); [|by apply bind_Ok in H as (? & _ & ?)]. injection H as <-. apply omap_as_str.
Qed.

(** An entry, as it is read back. *)
Definition entry_of (p : PatchProbe) : json := JObj (sorted_members (patch_document p)).

Lemma patch_document_keys p : NoDup (map fst (patch_document p)).
Proof. apply (bool_decide_eq_true_1 (NoDup _)). vm_compute. reflexivity. Qed.

Lemma entry_get p k : jget (sorted_members (patch_document p)) k = sort_keys <$> jget (patch_document p) k.
Proof. apply jget_sorted_members, patch_document_keys. Qed.

Lemma entry_id_of p : entry_id (entry_of p) = Ok (JStr (pp_patch_id p)).
Proof. unfold entry_id, entry_of. cbn [mapping mbind result_bind]. unfold get_or. by rewrite entry_get. Qed.

Lemma check_entry_of ms p :
  check_entry ms (entry_of p) = Ok tt <->
  exists m, ms !! pp_patch_id p = Some m /\ content_hash m = implementation_digest p /\ requires m = pp_requires p /\ conflicts m = pp_conflicts p.
Proof.
  unfold check_entry, entry_of. cbn [mapping mbind result_bind]. unfold item, get_or. rewrite !entry_get.
  cbn [patch_document jget String.eqb Ascii.eqb Bool.eqb fmap option_fmap option_map sort_keys of_option mbind result_bind default].
  destruct (ms !! pp_patch_id p) as [m|]; cbn [of_option mbind result_bind]; [|by split; [|intros (? & ? & _)]].
  rewrite !sort_keys_jstrs. cbn [default from_option Datatypes.id]. split.
  - intros (u1 & H1%ensure_Ok%py_eqb_str & H)%bind_Ok. injection H1 as H1.
    apply bind_Ok in H as (b1 & Hr & H). apply bind_Ok in H as (u2 & Hb1%ensure_Ok & H). subst b1.
    apply bind_Ok in H as (b2 & Hc & Hb2%ensure_Ok). subst b2. apply same_tuple_strs in Hr. apply same_tuple_strs in Hc.
    exists m. by split_and!.
  - intros (n & [= <-] & -> & -> & ->). rewrite (proj2 (py_eqb_str _ _) eq_refl). cbn [ensure mbind result_bind].
    rewrite !(proj2 (same_tuple_strs _ _) eq_refl). done.
Qed.

Lemma entry_ids_of ps : mapR entry_id (map entry_of ps) = Ok (map JStr (map pp_patch_id ps)).
Proof. induction ps as [|p ps IH]; [done|]. cbn [map mapR]. by rewrite entry_id_of, IH. Qed.

Lemma exists_str x l : existsb (py_eqb (JStr x)) (map JStr l) = str_in x l.
Proof.
  apply eq_true_iff_eq. rewrite existsb_true, str_in_true. split.
  - intros (v & (y & -> & Hy)%list_elem_of_fmap & He%py_eqb_str). by injection He as ->.
  - intros Hx. exists (JStr x). split; [by apply list_elem_of_fmap_2|]. by apply py_eqb_str.
Qed.

Lemma check_entries_of ms selected ps :
  check_entries ms selected (map entry_of ps) = Ok tt <->
  (forall x, x ∈ selected <-> x ∈ map pp_patch_id ps) /\
  forall p, p ∈ ps -> exists m, ms !! pp_patch_id p = Some m /\ content_hash m = implementation_digest p /\
    requires m = pp_requires p /\ conflicts m = pp_conflicts p.
Proof.
  unfold check_entries. rewrite entry_ids_of. cbn [mbind result_bind].
  set (strange := List.filter _ (map JStr _)). set (missing := List.filter _ selected).
  assert ((length strange = 0 /\ missing = []) <-> forall x, x ∈ selected <-> x ∈ map pp_patch_id ps) as Hsame.
  { rewrite length_zero_iff_nil. unfold strange, missing. rewrite !filterb_nil. setoid_rewrite negb_false_iff.
    setoid_rewrite exists_str. setoid_rewrite str_in_true. split.
    - intros [Hs Hm] x. split; [by apply Hm|]. intros Hx. specialize (Hs (JStr x) ltac:(by apply list_elem_of_fmap_2)).
      by apply str_in_true in Hs.
    - intros Hx. split; [|by intros x ?; apply Hx]. intros v (x & -> & Hv)%list_elem_of_fmap. apply str_in_true. by apply Hx. }
  setoid_rewrite <- check_entry_of. rewrite <- Hsame.
  destruct (bool_decide_reflect (length strange = 0)) as [H1|H1], (bool_decide_reflect (missing = [])) as [H2|H2]; cbn [andb].
  2-4: (split; [intros (u & H & _)%bind_Ok; by apply bind_Ok in H as (? & _ & ?)|tauto]).
  cbn [mbind result_bind]. pose proof (mapR_units (check_entry ms) (map entry_of ps)) as Hall.
  assert ((forall v, v ∈ map entry_of ps -> check_entry ms v = Ok tt) <-> forall p, p ∈ ps -> check_entry ms (entry_of p) = Ok tt) as He.
  { split; [intros Hv p Hp; by apply Hv, list_elem_of_fmap_2|intros Hp v (p & -> & Hv)%list_elem_of_fmap; by apply Hp]. }
  rewrite He in Hall. destruct (mapR _ _) as [us|e]; cbn [mbind result_bind].
  - split; [|done]. intros _. split; [done|]. apply Hall. by exists us.
  - split; [done|]. intros [_ H]. apply Hall in H as [us ?]. done.
Qed.

(** ** The whole report *)

(** What a report is, when it is read. *)
Definition as_read (doc : list (string * json)) : json := sort_keys (JObj doc).

Section Document.
Context (engine_name revision : string) (previous : option string) (bigcherry overlay : string) (i : SelectorIdentity) (r : Report).

Definition written : list (string * json) := report_document engine_name revision previous bigcherry overlay i r.

Lemma written_keys : NoDup (map fst written).
Proof. apply (bool_decide_eq_true_1 (NoDup _)). vm_compute. reflexivity. Qed.

Lemma written_get k : jget (sorted_members written) k = sort_keys <$> jget written k.
Proof. apply jget_sorted_members, written_keys. Qed.

Lemma written_patches : jget (sorted_members written) "patches" = Some (JArr (map entry_of (patches r))).
Proof.
  rewrite written_get. cbn [jget written report_document String.eqb Ascii.eqb Bool.eqb fmap option_fmap option_map sort_keys].
  do 2 f_equal. rewrite map_map. apply map_ext. intros p. apply sort_keys_members.
Qed.

Lemma written_good : jget (sorted_members written) "known_good_patch_ids" = Some (jstrs (known_good_patch_ids r)).
Proof. rewrite written_get. cbn [jget written report_document String.eqb Ascii.eqb Bool.eqb fmap option_fmap option_map]. by rewrite sort_keys_jstrs. Qed.

Lemma written_selector : jget (sorted_members written) "selector" = Some (JObj (sorted_members (to_payload i))).
Proof. rewrite written_get. cbn [jget written report_document String.eqb Ascii.eqb Bool.eqb fmap option_fmap option_map]. by rewrite sort_keys_members. Qed.

Lemma item_entry p k s : jget (patch_document p) k = Some (JStr s) -> item_str (sorted_members (patch_document p)) k = Ok s.
Proof. intros Hk. unfold item_str, item. rewrite entry_get, Hk. done. Qed.

Lemma written_digests : report_digests (as_read written) = Ok (dict_of_pairs (digests (patches r))).
Proof.
  unfold report_digests, as_read. rewrite sort_keys_members. cbn [mapping mbind result_bind].
  unfold get_or. rewrite written_patches. cbn [default from_option Datatypes.id json_iter mbind result_bind].
  assert (forall ps, mapR (fun e => p ← mapping e; pid ← item_str p "patch_id"; d ← item_str p "implementation_digest"; Ok (pid, d))
    (map entry_of ps) = Ok (digests ps)) as ->; [|done].
  induction ps as [|p ps IH]; [done|]. cbn [map mapR entry_of mapping mbind result_bind].
  rewrite (item_entry p "patch_id" (pp_patch_id p) eq_refl). cbn [mbind result_bind].
  rewrite (item_entry p "implementation_digest" (implementation_digest p) eq_refl). cbn [mbind result_bind].
  by rewrite IH.
Qed.

Lemma written_selected : selected_of (as_read written) = Ok (map JStr (Selection.patch_ids i)).
Proof.
  unfold selected_of, as_read. rewrite sort_keys_members. cbn [mapping mbind result_bind]. unfold get_or.
  rewrite written_selector. cbn [default from_option Datatypes.id].
  assert (jtruthy (JObj (sorted_members (to_payload i))) = true) as ->.
  { destruct (sorted_members (to_payload i)) eqn:E; [|done].
    apply (f_equal length) in E. unfold sorted_members in E. by rewrite length_map, length_py_sorted in E. }
  cbn [mapping mbind result_bind]. rewrite jget_sorted_members by apply nodup_payload_keys.
  cbn [jget to_payload String.eqb Ascii.eqb Bool.eqb fmap option_fmap option_map]. rewrite sort_keys_jstrs. done.
Qed.
End Document.

Section Fresh.
Context (blake2b sha256 : string -> string) (physical : gmap string PatchModule) (engine_name : string).

Local Abbreviation live_identity := (live_identity_for blake2b physical engine_name).
Local Abbreviation fresh := (require_fresh blake2b sha256 physical engine_name).

(** An entry of a report agrees with the catalogue. *)
Definition entry_current (ms : gmap string PatchModule) (p : PatchProbe) : Prop :=
  exists m, ms !! pp_patch_id p = Some m /\ content_hash m = implementation_digest p /\
    requires m = pp_requires p /\ conflicts m = pp_conflicts p.

(** What a report that was written binds. *)
Record current (live : Live) (revision bigcherry overlay : string) (i : SelectorIdentity) (r : Report) : Prop := {
  cu_head : vendor_head live = Ok revision;
  cu_bigcherry : bigcherry_head live = Ok bigcherry;
  cu_overlay : digest_from_texts sha256 (live_overlay live) = overlay;
  cu_identity : live_identity live i = Ok i;
  cu_ids : forall x, x ∈ Selection.patch_ids i <-> x ∈ map pp_patch_id (patches r);
  cu_entries : forall p, p ∈ patches r -> entry_current (by_id (live_catalog live)) p;
  cu_good : forall x, x ∈ known_good_patch_ids r -> x ∈ Selection.patch_ids i;
}.

Lemma fresh_identity_written live revision previous bigcherry overlay i r j :
  check_identity i = Ok tt ->
  fresh_identity blake2b physical engine_name live (sorted_members (written engine_name revision previous bigcherry overlay i r)) = Ok j <->
  j = i /\ live_identity live i = Ok i.
Proof.
  intros Hi. unfold fresh_identity. rewrite written_selector. cbn [mbind result_bind].
  rewrite <- sort_keys_members, (from_payload_back i Hi). cbn [mbind result_bind].
  destruct (live_identity live i) as [c|e] eqn:E.
  - cbn [mbind result_bind]. split.
    + intros (u & Hc%ensure_Ok%bool_decide_eq_true & [= <-])%bind_Ok. by subst c.
    + intros [-> [= ->]]. by rewrite bool_decide_eq_true_2.
  - split; [|by intros [_ ?]]. destruct (str_in _ _); cbn [mbind result_bind]; done.
Qed.

Lemma fresh_written live revision previous bigcherry overlay i r good :
  check_identity i = Ok tt ->
  fresh live (as_read (written engine_name revision previous bigcherry overlay i r)) (Some (digest_from_texts sha256 (live_overlay live))) = Ok good <->
  good = known_good_patch_ids r /\ current live revision bigcherry overlay i r.
Proof.
  intros Hi. unfold require_fresh, as_read. rewrite sort_keys_members. cbn [mapping mbind result_bind default from_option Datatypes.id].
  set (o := sorted_members _).
  assert (forall k, jget o k = sort_keys <$> jget (written engine_name revision previous bigcherry overlay i r) k) as Hget
    by (intros k; apply written_get).
  assert (get_or o "patches" (JArr []) = JArr (map entry_of (patches r))) as Hp by (unfold get_or, o; by rewrite (written_patches engine_name)).
  assert (get_or o "known_good_patch_ids" (JArr []) = jstrs (known_good_patch_ids r)) as Hg by (unfold get_or, o; by rewrite (written_good engine_name)).
  rewrite Hp, Hg. split.
  - intros (u1 & _ & H)%bind_Ok. apply bind_Ok in H as (u2 & _ & H). apply bind_Ok in H as (u3 & _ & H).
    apply bind_Ok in H as (h & Hh & H). apply bind_Ok in H as (u4 & H4%says_str & H).
    apply bind_Ok in H as (b & Hb & H). apply bind_Ok in H as (u5 & H5%says_str & H).
    apply bind_Ok in H as (u6 & H6%says_str & H). apply bind_Ok in H as (j & Hj & H).
    apply fresh_identity_written in Hj as [-> Hj]; [|done]. apply bind_Ok in H as (es & [= <-] & H).
    apply bind_Ok in H as ([] & He & H). apply check_entries_of in He as [He1 He2].
    pose proof (read_known_good_back _ _ _ H) as ->.
    rewrite Hget in H4, H5, H6. injection H4 as ->. injection H5 as ->. injection H6 as Hov.
    split; [done|]. split; try done. intros x Hx. unfold read_known_good, jstrs in H. cbn [json_iter mbind result_bind] in H.
    apply bind_Ok in H as (u & _ & H). destruct (List.filter _ _) eqn:Ef; [|by apply bind_Ok in H as (? & _ & ?)].
    rewrite filterb_nil in Ef. specialize (Ef (JStr x) ltac:(by apply list_elem_of_fmap_2)). cbn in Ef.
    by apply negb_false_iff, str_in_true in Ef.
  - intros [-> [Hh Hb Hov Hid Hids Hes Hgood]].
    assert (forall k v msg, jget (written engine_name revision previous bigcherry overlay i r) k = Some (JStr v) -> says o k (JStr v) msg = Ok tt) as Hsays.
    { intros k v msg Hk. apply says_str. by rewrite Hget, Hk. }
    assert (forall k z msg, jget (written engine_name revision previous bigcherry overlay i r) k = Some (JInt z) -> says o k (JInt z) msg = Ok tt) as Hsayi.
    { intros k z msg Hk. apply says_int. rewrite Hget, Hk. cbn. apply Z.eqb_refl. }
    rewrite (Hsays "engine" engine_name) by done. cbn [mbind result_bind].
    rewrite (Hsayi "schema_version" REPORT_SCHEMA_VERSION) by done. cbn [mbind result_bind].
    rewrite (Hsayi "patch_application_semantics_version" PATCH_APPLICATION_SEMANTICS_VERSION) by done. cbn [mbind result_bind].
    rewrite Hh. cbn [mbind result_bind]. rewrite (Hsays "upstream_revision" revision) by done. cbn [mbind result_bind].
    rewrite Hb. cbn [mbind result_bind]. rewrite (Hsays "bigcherry_revision" bigcherry) by done. cbn [mbind result_bind].
    rewrite Hov, (Hsays "overlay_digest" overlay) by done. cbn [mbind result_bind].
    pose proof (proj2 (fresh_identity_written live revision previous bigcherry overlay i r i Hi) (conj eq_refl Hid)) as Hfi.
    fold o in Hfi. rewrite Hfi.
    cbn [mbind result_bind json_iter]. rewrite (proj2 (check_entries_of _ _ _) (conj Hids Hes)). cbn [mbind result_bind].
    by apply read_known_good_strs.
Qed.

(** The gate of a report that is current. *)
Lemma gate_written live revision previous bigcherry i r expected hashes :
  check_identity i = Ok tt -> current live revision bigcherry (digest_from_texts sha256 (live_overlay live)) i r ->
  let report := as_read (written engine_name revision previous bigcherry (digest_from_texts sha256 (live_overlay live)) i r) in
  let gate := require_fresh_report blake2b sha256 physical engine_name live report expected hashes None in
  (expected = None -> hashes = None -> gate = Ok (known_good_patch_ids r)) /\
  is_ok gate = match expected, hashes with
               | None, None => true
               | Some e, None => bool_decide (i = e)
               | None, Some h => negb (String.eqb (selector_kind i) SELECTOR_KIND_ALL_PATCHES) && bool_decide (module_hashes i = h)
               | Some _, Some _ => false
               end.
Proof.
  intros Hi Hcur report gate.
  pose proof (proj2 (fresh_written live revision previous bigcherry _ i r _ Hi) (conj eq_refl Hcur)) as Hf.
  assert (mapping report = Ok (sorted_members (written engine_name revision previous bigcherry (digest_from_texts sha256 (live_overlay live)) i r)))
    as Hm by (unfold report, as_read; by rewrite sort_keys_members).
  assert (from_payload (get_or (sorted_members (written engine_name revision previous bigcherry (digest_from_texts sha256 (live_overlay live)) i r))
    "selector" JNull) = Ok i) as Hfp.
  { unfold get_or. rewrite written_selector. cbn [default from_option Datatypes.id]. rewrite <- sort_keys_members. by apply from_payload_back. }
  assert (fresh live report None = Ok (known_good_patch_ids r)) as Hf' by exact Hf. clearbody report. unfold gate, require_fresh_report.
  rewrite Hf', Hm. cbn [as_malformed mbind result_bind]. rewrite Hfp. cbn [mbind result_bind].
  split; [by intros -> ->|]. destruct expected as [e|], hashes as [h|]; try done; unfold ensure; cbn [negb andb bool_decide]; simpl.
  - by destruct (bool_decide (i = e)).
  - destruct (String.eqb _ _); simpl; [done|]. by destruct (bool_decide (_ = h)).
Qed.

(** What is asked for has names. *)
Definition named (q : Request) : Prop := rq_experiment q <> Some "" /\ rq_focal q <> Some "".

Lemma removeprefix_app p s : removeprefix p (p +:+ s) = s.
Proof.
  unfold removeprefix. assert (without_prefix p (p +:+ s) = Some s) as ->; [|done].
  induction p as [|c p IH]; [done|]. rewrite str_app_cons. cbn [without_prefix]. by rewrite Ascii.eqb_refl.
Qed.

Lemma identity_made i j : new_identity i = Ok j -> j = i /\ check_identity i = Ok tt.
Proof. unfold new_identity. intros ([] & Hc & [= <-])%bind_Ok. done. Qed.

(** An identity says what was asked for. *)
Lemma canonical_says source cfg cat experiment focal i :
  experiment <> Some "" -> focal <> Some "" ->
  resolve_canonical_selection blake2b physical engine_name source cfg cat experiment focal = Ok i ->
  check_identity i = Ok tt /\ Selection.source_name i = Some source /\
  ((focal = None /\ experiment = None /\ selector_kind i = SELECTOR_KIND_SOURCE) \/
   (exists e, focal = None /\ experiment = Some e /\ selector_kind i = SELECTOR_KIND_EXPERIMENT /\ selector_name i = "experiment:" +:+ e) \/
   (exists f, focal = Some f /\ experiment = None /\ selector_kind i = SELECTOR_KIND_FOCAL_OVERLAY /\ selector_name i = "focal:" +:+ f)).
Proof.
  intros Hne Hnf. unfold resolve_canonical_selection. intros (u & Hex%ensure_Ok & H)%bind_Ok.
  apply bind_Ok in H as (so & _ & H). apply bind_Ok in H as ([la kind] & Hla & H).
  apply bind_Ok in H as (name & Hname & [-> Hc]%identity_made). split; [done|]. split; [done|].
  cbn [selector_kind selector_name].
  assert (forall x, truthy x = true <-> Some x <> Some "") as Ht by (intros x; rewrite truthy_true; split; congruence).
  destruct focal as [f|].
  - apply bind_Ok in Hla as (? & _ & Hla). apply bind_Ok in Hla as (? & _ & Hla). apply bind_Ok in Hla as (? & _ & Hla).
    apply bind_Ok in Hla as (? & _ & Hla). apply bind_Ok in Hla as (? & _ & [= <- <-]).
    destruct experiment as [e|]; [done|]. right. right. exists f. cbn [opt_or] in Hname. rewrite (proj2 (Ht f) Hnf) in Hname.
    by injection Hname as <-.
  - apply bind_Ok in Hla as (? & _ & [= <- <-]). destruct experiment as [e|]; [|by left]. right. left. exists e.
    cbn [opt_or opt_truthy] in *. rewrite (proj2 (Ht e) Hne) in *. by injection Hname as <-.
Qed.

Lemma as_check_error_Ok {A} (m : res A) a : as_check_error m = Ok a -> m = Ok a.
Proof. destruct m as [b|e]; [done|]. cbn. by destruct (is_selection_error e). Qed.

(** The selection of a report resolves to itself as long as nothing changes. *)
Lemma identity_again live q i :
  named q -> selector blake2b physical engine_name live q = Ok i -> check_identity i = Ok tt /\ live_identity live i = Ok i.
Proof.
  intros [Hne Hnf]. unfold selector. intros (u & Hq & H)%bind_Ok.
  pose proof (as_check_error_Ok _ _ H) as Hr.
  unfold live_identity_for. destruct (rq_all q) eqn:Hall.
  - unfold requested_identity in Hr. rewrite Hall in Hr. pose proof Hr as Hb. unfold build_all_patches_identity in Hb.
    apply bind_Ok in Hb as (u1 & _ & [-> Hc]%identity_made). split; [done|]. exact Hr.
  - pose proof Hr as Hb. unfold requested_identity in Hb. rewrite Hall in Hb. apply bind_Ok in Hb as (source & Hs%of_option_Ok & Hb).
    apply bind_Ok in Hb as (cfg & _ & Hb). destruct (canonical_says _ _ _ _ _ _ Hne Hnf Hb) as (Hc & Hsn & Hk). split; [done|].
    rewrite Hsn. cbn [is_none].
    assert (forall e f, q = mkRequest (Some source) false e f -> selector blake2b physical engine_name live (mkRequest (Some source) false e f) = Ok i) as Hagain.
    { intros e f <-. unfold selector. rewrite Hq. cbn [mbind result_bind]. unfold as_check_error. by rewrite Hr. }
    destruct q as [so al ex fo]. cbn [rq_source rq_all rq_experiment rq_focal] in *. subst so al.
    destruct Hk as [(-> & -> & ->)|[(e & -> & -> & -> & ->)|(f & -> & -> & -> & ->)]].
    + cbn [String.eqb Ascii.eqb Bool.eqb SELECTOR_KIND_SOURCE SELECTOR_KIND_ALL_PATCHES SELECTOR_KIND_EXPERIMENT SELECTOR_KIND_FOCAL_OVERLAY].
      by apply Hagain.
    + change (String.eqb SELECTOR_KIND_EXPERIMENT SELECTOR_KIND_ALL_PATCHES) with false. rewrite String.eqb_refl.
      rewrite removeprefix_app. by apply Hagain.
    + change (String.eqb SELECTOR_KIND_FOCAL_OVERLAY SELECTOR_KIND_ALL_PATCHES) with false.
      change (String.eqb SELECTOR_KIND_FOCAL_OVERLAY SELECTOR_KIND_EXPERIMENT) with false. rewrite String.eqb_refl.
      rewrite removeprefix_app. by apply Hagain.
Qed.

(** Which selections are of everything. *)
Lemma kind_all live q i :
  named q -> selector blake2b physical engine_name live q = Ok i ->
  String.eqb (selector_kind i) SELECTOR_KIND_ALL_PATCHES = rq_all q.
Proof.
  intros [Hne Hnf]. unfold selector. intros (u & _ & Hr%as_check_error_Ok)%bind_Ok. unfold requested_identity in Hr.
  destruct (rq_all q).
  - unfold build_all_patches_identity in Hr. by apply bind_Ok in Hr as (u1 & _ & [-> _]%identity_made).
  - apply bind_Ok in Hr as (source & _ & Hr). apply bind_Ok in Hr as (cfg & _ & Hr).
    destruct (canonical_says _ _ _ _ _ _ Hne Hnf Hr) as (_ & _ & [(_ & _ & ->)|[(e & _ & _ & -> & _)|(f & _ & _ & -> & _)]]); done.
Qed.
End Fresh.

(** ** Writing a report *)

Section WriteReport.
Context `{Records.TempFiles} `{!Records.TempFilesLaws}.

Lemma suppressed_unlink tmp w r w' : suppress_os (unlink tmp) w = (r, w') -> forall q, q <> tmp -> files w' !! q = files w !! q.
Proof.
  unfold suppress_os, unlink. unfold mbind at 1, stm_bind at 1. destruct (next_fault w) as [r1 w1] eqn:Ef.
  destruct (next_fault_run _ _ _ Ef) as ([f|] & -> & Hf).
  - unfold raise. destruct (is_OSError _); intros [= <- <-] q _; by rewrite Hf.
  - unfold modify. intros [= <- <-] q Hq. cbn. by rewrite Hf, lookup_delete_ne.
Qed.

(** The report is the old one, or the new one, whole. *)
Lemma write_report_run p doc w r w' : p <> [] -> Records.endswith ".tmp" (List.last p "") = false ->
  write_report p doc w = (r, w') ->
  (is_ok r = false /\ files w' !! p = files w !! p) \/ files w' !! p = Some (File (Pretty.dumps_indent doc +:+ newline)).
Proof.
  intros Hne Hend. unfold write_report. unfold mbind at 1, stm_bind at 1.
  destruct (iterM make_dir (above p) w) as [r0 w0] eqn:E0.
  apply (Artifacts.make_dirs_other (above p) w r0 w0 p) in E0; [|by intros Hp%above_ne].
  destruct r0 as [u|e]; [|intros [= <- <-]; by left]. unfold mbind at 1, stm_bind at 1, get. cbv zeta.
  set (tmp := removelast p ++ [_]).
  assert (files w0 !! tmp = None) as Hfresh by apply Records.temp_file_fresh.
  assert (tmp <> p) as Hother.
  { intros E. assert (List.last tmp "" = List.last p "") as Hl by (by rewrite E). subst tmp. rewrite last_last in Hl.
    destruct (Records.temp_file_shape (files w0) (removelast p) (List.last p "" +:+ ".") ".tmp") as [rnd Hrnd].
    rewrite Hrnd, <- str_app_assoc in Hl. rewrite <- Hl, Records.endswith_app in Hend. done. }
  clearbody tmp. unfold mbind at 1, stm_bind at 1. destruct (next_fault w0) as [r1 w1] eqn:Ef.
  destruct (next_fault_run _ _ _ Ef) as ([f|] & -> & Hf).
  - intros Hrun. left. destruct (left f) as [c|]; unfold mbind, stm_bind in Hrun; injection Hrun as <- <-; (split; [done|]); cbn.
    + by rewrite Hf, lookup_insert_ne.
    + by rewrite Hf.
  - unfold mbind at 1, stm_bind at 1. change (set_node tmp (File "") w1) with (Ok (E:=exn) tt, mkDisk (<[tmp := File ""]> (files w1)) (faults w1)).
    cbv beta iota. unfold Records.on_error.
    assert (forall rb w3, (_ ← write_file tmp (Pretty.dumps_indent doc +:+ newline); Records.replace_file tmp p)
      (mkDisk (<[tmp := File ""]> (files w1)) (faults w1)) = (rb, w3) ->
      (is_ok rb = true /\ files w3 !! p = Some (File (Pretty.dumps_indent doc +:+ newline))) \/ (is_ok rb = false /\ files w3 !! p = files w !! p)) as Hbody.
    { intros rb w3. unfold mbind at 1, stm_bind at 1. destruct (write_file tmp _ _) as [[u2|e] w2] eqn:E2.
      - apply write_file_ok in E2. cbn in E2. rewrite insert_insert_eq in E2.
        intros [[Hok Hw]|[-> Hw]]%Records.replace_file_run.
        + right. split; [done|]. rewrite Hw, E2, lookup_insert_ne by done. by rewrite Hf.
        + left. split; [done|]. rewrite Hw, E2, lookup_insert_eq. apply lookup_insert_eq.
      - intros [= <- <-]. right. split; [done|]. apply write_file_run in E2 as [->|(_ & _ & c & -> & _)]; cbn.
        + by rewrite lookup_insert_ne, Hf.
        + by rewrite !lookup_insert_ne, Hf. }
    destruct ((_ ← write_file tmp _; Records.replace_file tmp p) _) as [rb w3]. specialize (Hbody rb w3 eq_refl).
    destruct Hbody as [[Hok Hw]|[Hok Hw]]; (destruct rb as [u2|e]; try done).
    + intros [= <- <-]. by right.
    + destruct (bool_decide (e = Artifacts.Killed)); [intros [= <- <-]; by left|].
      unfold mbind, stm_bind. destruct (suppress_os (unlink tmp) w3) as [rc w4] eqn:Ec.
      pose proof (suppressed_unlink _ _ _ _ Ec p ltac:(done)) as H4.
      destruct rc; intros [= <- <-]; left; (split; [done|]); by rewrite H4.
Qed.

Lemma load_report_at t u p : p <> [] -> t !! p = u !! p -> load_report t p = load_report u p.
Proof. intros Hp Ht. unfold load_report, Records.read_json, read_text. by destruct p; [|cbn [node_at]; rewrite Ht]. Qed.

Lemma load_report_written t p doc : p <> [] -> jwf (JObj doc) ->
  t !! p = Some (File (Pretty.dumps_indent (JObj doc) +:+ newline)) -> load_report t p = Ok (as_read doc).
Proof.
  intros Hp Hd Ht. unfold load_report, Records.read_json, read_text. destruct p; [done|]. cbn [node_at]. rewrite Ht.
  cbn [of_option mbind result_bind]. by rewrite Artifacts.loads_written.
Qed.
End WriteReport.

(** ** From the check to the report *)

Lemma jwf_members o : NoDup (map fst o) -> Forall (fun kv : string * json => jwf kv.2) o -> jwf (JObj o).
Proof. intros. by apply jwf_obj. Qed.

Lemma jwf_list {A} (f : A -> json) l : (forall x, jwf (f x)) -> jwf (JArr (map f l)).
Proof. intros Hf. apply jwf_arr, Forall_forall. by intros v (x & -> & _)%list_elem_of_fmap. Qed.

Lemma jwf_option {A} (f : A -> json) o : (forall x, jwf (f x)) -> jwf (jopt f o).
Proof. destruct o; intros Hf; [apply Hf|exact I]. Qed.

(** The fields of a document, by what each of them is. *)
Ltac jwf_record :=
  apply jwf_members; [apply (bool_decide_eq_true_1 (NoDup _)); vm_compute; reflexivity|];
  repeat (apply Forall_cons; split; [cbn [snd]; first [exact I | apply jwf_jstrs | by apply jwf_option | apply jwf_list | idtac]|]);
  try apply Forall_nil_2.

Lemma jwf_written engine_name revision previous bigcherry overlay i r :
  jwf (JObj (written engine_name revision previous bigcherry overlay i r)).
Proof.
  jwf_record; [apply jwf_payload|jwf_record|]. intros p. jwf_record. intros f. jwf_record. intros e. jwf_record.
Qed.

Lemma checked_ids i : check_identity i = Ok tt -> NoDup (Selection.patch_ids i).
Proof.
  unfold check_identity. intros H. repeat (let u := fresh "u" in apply bind_Ok in H as (u & _ & H)).
  by apply ensure_Ok, bool_decide_eq_true in H.
Qed.

Section Probed.
Context (blake2b sha256 : string -> string) (physical : gmap string PatchModule) (engine_name : string).
Context `{Regex} (root : string) (load_implementation : string -> string -> string -> string -> res (list FilePatch)).
Context (diff_context : string -> option string) (context_lines : Z).

Local Abbreviation probe := (probe_request blake2b physical engine_name root load_implementation diff_context context_lines).
Local Abbreviation check := (run_check blake2b sha256 physical engine_name root load_implementation diff_context context_lines).

(** What was probed is what the identity names. *)
Lemma probe_cases live q pristine i r :
  named q -> probe live q pristine = Ok (i, r) ->
  check_identity i = Ok tt /\ selector blake2b physical engine_name live q = Ok i /\
  run_rebase_check root pristine load_implementation diff_context context_lines engine_name (rq_all q)
    (Selection.patch_ids i) (by_id (live_catalog live)) (live_overlay live) = Ok r.
Proof.
  intros Hq. unfold probe_request. intros (snap & Hs & Hrest)%bind_Ok. apply bind_Ok in Hrest as (u & _ & Hrest).
  apply bind_Ok in Hrest as (r' & Hr & [= <- <-]). unfold resolve_selector_snapshot in Hs.
  apply bind_Ok in Hs as (j & Hj & Hs). apply bind_Ok in Hs as (mods & Hm & Hs). apply bind_Ok in Hs as (u2 & _ & [= <-]).
  cbn [sn_identity sn_modules modules_by_id] in *. destruct (identity_again blake2b physical engine_name live q j Hq Hj) as [Hc _].
  split_and!; [done|done|]. destruct (rq_all q); [done|]. rewrite <- Hr. do 2 f_equal.
  apply mapR_Ok in Hm. clear -Hm. induction Hm as [|x m l ms Hx _ IH]; [done|]. cbn [map]. f_equal; [|done].
  unfold module_at in Hx. apply of_option_Ok in Hx. symmetry. by apply (keyed_by_id (live_catalog live)).
Qed.

(** A check that ended is current as long as nothing changes. *)
Lemma probe_current live q pristine i r revision bigcherry :
  check_engine engine_name (by_id (live_catalog live)) = Ok tt -> named q ->
  probe live q pristine = Ok (i, r) -> vendor_head live = Ok revision -> bigcherry_head live = Ok bigcherry ->
  check_identity i = Ok tt /\
  current blake2b sha256 physical engine_name live revision bigcherry (digest_from_texts sha256 (live_overlay live)) i r.
Proof.
  intros He Hq Hp Hv Hb. destruct (probe_cases _ _ _ _ _ Hq Hp) as (Hc & Hs & Hr). split; [done|].
  destruct (check_reported _ _ _ _ _ _ _ _ _ _ _ He (keyed_by_id _) (checked_ids i Hc) Hr) as (_ & mods & probes & Hps & [Hm Hent Hgood _ Hde]).
  destruct (identity_again blake2b physical engine_name live q i Hq Hs) as [_ Hlive].
  assert (map pp_patch_id (patches r) ≡ₚ Selection.patch_ids i) as Hids by by rewrite Hps, Hent.
  split; try done.
  - intros x. by rewrite Hids.
  - intros p. rewrite Hps. intros (m & Hlook & fs & st & ->)%Hde. exists m. by cbn.
  - intros x. rewrite Hgood, <- Hids, Hps. intros (p & -> & [Hp' _]%elem_of_filterb)%list_elem_of_fmap. by apply list_elem_of_fmap_2.
Qed.

(** C38 A report is fresh until something changes.  Whatever is checked, the
    report is written whole or not at all; what was written is read back, and
    as long as the revisions, the overlay, the catalogue and the configuration
    are what they were it is fresh, with the known-good patches of the check:
    for its selector, as the evidence a gate asks for, and for no other. *)
Theorem checked_is_fresh `{Records.TempFiles} `{!Records.TempFilesLaws} live q pristine repo releases doc p w x w' expected :
  check_engine engine_name (by_id (live_catalog live)) = Ok tt -> named q ->
  check live q pristine repo releases = Ok doc ->
  p <> [] -> Records.endswith ".tmp" (List.last p "") = false -> write_report p (JObj doc) w = (x, w') ->
  (is_ok x = false /\ load_report (files w') p = load_report (files w) p) \/
  exists i r,
    probe live q pristine = Ok (i, r) /\ load_report (files w') p = Ok (as_read doc) /\
    let gate := require_fresh_report blake2b sha256 physical engine_name live (as_read doc) in
    gate None None None = Ok (known_good_patch_ids r) /\
    (is_ok (gate (Some expected) None None) = true <-> expected = i) /\
    (forall hashes, is_ok (gate None (Some hashes) None) = true <-> rq_all q = false /\ hashes = module_hashes i).
Proof.
  intros He Hq Hrun Hp Hend Hw. unfold run_check in Hrun. apply bind_Ok in Hrun as ([i r] & Hpr & Hrun).
  apply bind_Ok in Hrun as (rev & Hv & Hrun). apply bind_Ok in Hrun as (bc & Hb & [= <-]).
  destruct (write_report_run _ _ _ _ _ Hp Hend Hw) as [[Hx Hsame]|Hnew]; [left; split; [done|by apply load_report_at]|].
  right. exists i, r. split; [done|]. split; [apply load_report_written; [done|apply jwf_written|done]|].
  destruct (probe_current _ _ _ _ _ _ _ He Hq Hpr Hv Hb) as [Hc Hcur].
  cbv zeta. pose proof (fun e h => gate_written blake2b sha256 physical engine_name live rev
    (previous_upstream_revision engine_name repo releases rev) bc i r e h Hc Hcur) as Hgate. cbv zeta in Hgate. unfold written in Hgate.
  split; [by apply (Hgate None None)|]. split.
  - rewrite (proj2 (Hgate (Some expected) None)), bool_decide_eq_true. split; congruence.
  - intros hashes. rewrite (proj2 (Hgate None (Some hashes))), andb_true_iff, negb_true_iff, bool_decide_eq_true.
    rewrite (kind_all _ _ _ _ _ _ Hq (proj1 (proj2 (probe_cases _ _ _ _ _ Hq Hpr)))). split; intros [? ?]; split; congruence.
Qed.
End Probed.

(** ** From the report to the patched tree *)

Lemma engine_of eng ms m x : check_engine eng ms = Ok tt -> ms !! x = Some m -> engine m = eng.
Proof.
  unfold check_engine. intros Hw%ensure_Ok%bool_decide_eq_true Hm. destruct (String.eqb_spec (engine m) eng) as [|Hne]; [done|]. exfalso.
  assert (x ∈ py_sorted String.leb (map fst (List.filter (fun kv => negb (String.eqb (engine kv.2) eng)) (map_to_list ms)))) as Hin.
  { apply elem_of_py_sorted, list_elem_of_fmap. exists (x, m). split; [done|]. apply elem_of_filterb.
    split; [by apply elem_of_map_to_list|]. cbn. apply negb_true_iff. by apply String.eqb_neq. }
  rewrite Hw in Hin. by apply elem_of_nil in Hin.
Qed.

Section Transport.
Context `{RegexLaws} (root : string) (show_exn : exn -> string) (engine_name : string).
Context (load_implementation : string -> string -> string -> string -> res (list FilePatch)).
(** An implementation is found by its digest, wherever the registry is. *)
Context (load_by_digest : forall eng pid rt rt' d, load_implementation eng pid rt d = load_implementation eng pid rt' d).

Local Abbreviation loads := (known_good_patches load_implementation engine_name).

Lemma selected_ids mods good : map patch_id (selected mods good) = List.filter (fun x => str_in x good) (map patch_id mods).
Proof. unfold selected. by rewrite filterb_map. Qed.

(** The good part of a composition, in the order of the whole. *)
Definition composed (ms : gmap string PatchModule) (ids : list string) (mods : list PatchModule) : Prop :=
  map patch_id mods = ids /\ (forall m, m ∈ mods -> ms !! patch_id m = Some m) /\
  exists r, resolve_exact_from_catalog engine_name ids ms None false [] = Ok r /\ modules r = mods.

Lemma loads_good ms ids mods good ds :
  check_engine engine_name ms = Ok tt -> keyed ms -> composed ms ids mods -> closed_in mods good ->
  good = map patch_id (selected mods good) ->
  loads good ms ds =
    (loaded ← mapR (fun m =>
       root ← (match catalog_root m with
               | Some root => if String.eqb (engine m) engine_name then Ok root
                              else Err (RebaseCheckError ("patch " +:+ py_repr (patch_id m) +:+ " is not bound to engine " +:+ py_repr engine_name))
               | None => Err (RebaseCheckError ("patch " +:+ py_repr (patch_id m) +:+ " is not bound to engine " +:+ py_repr engine_name))
               end);
       digest ← item ds (patch_id m);
       load_implementation engine_name (patch_id m) root digest) (selected mods good);
     Ok (concat loaded)).
Proof.
  intros He Hk (Hids & Hkn & r & Hr & <-) Hcl Hg. unfold known_good_patches.
  case_bool_decide as Hn.
  - cbn [mbind result_bind modules]. assert (selected (modules r) good = []) as -> by (apply (map_eq_nil patch_id); congruence). done.
  - destruct (resolve_part engine_name ids ms r good He Hk Hr Hcl) as (rp & Hrp & Hpm). rewrite <- Hg in Hrp.
    rewrite Hrp. cbn [mbind result_bind]. by rewrite Hpm.
Qed.

(** The same part of two catalogues loads the same implementations. *)
Lemma loads_again ms0 ms1 ids mods0 mods1 good ds fps :
  check_engine engine_name ms0 = Ok tt -> keyed ms0 -> check_engine engine_name ms1 = Ok tt -> keyed ms1 ->
  composed ms0 ids mods0 -> composed ms1 ids mods1 -> (forall m, m ∈ mods1 -> is_Some (catalog_root m)) ->
  closed_in mods0 good -> closed_in mods1 good -> good = map patch_id (selected mods0 good) ->
  loads good ms0 ds = Ok fps -> loads good ms1 ds = Ok fps.
Proof.
  intros He0 Hk0 He1 Hk1 Hc0 Hc1 Hroot Hcl0 Hcl1 Hg.
  assert (map patch_id (selected mods0 good) = map patch_id (selected mods1 good)) as Hsame.
  { rewrite !selected_ids. destruct Hc0 as [-> _], Hc1 as [-> _]. done. }
  assert (good = map patch_id (selected mods1 good)) as Hg1 by congruence.
  rewrite (loads_good ms0 ids mods0 good ds He0 Hk0 Hc0 Hcl0 Hg), (loads_good ms1 ids mods1 good ds He1 Hk1 Hc1 Hcl1 Hg1).
  assert (forall m, m ∈ selected mods1 good -> engine m = engine_name /\ is_Some (catalog_root m)) as Hin1.
  { intros m [Hm _]%elem_of_filterb. split; [|by apply Hroot]. destruct Hc1 as (_ & Hkn & _). eapply engine_of; [done|by apply Hkn]. }
  intros (fpss & Hl & [= <-])%bind_Ok.
  assert (mapR (fun m =>
       root ← (match catalog_root m with
               | Some root => if String.eqb (engine m) engine_name then Ok root
                              else Err (RebaseCheckError ("patch " +:+ py_repr (patch_id m) +:+ " is not bound to engine " +:+ py_repr engine_name))
               | None => Err (RebaseCheckError ("patch " +:+ py_repr (patch_id m) +:+ " is not bound to engine " +:+ py_repr engine_name))
               end);
       digest ← item ds (patch_id m);
       load_implementation engine_name (patch_id m) root digest) (selected mods1 good) = Ok fpss) as ->; [|done].
  revert fpss Hl Hin1 Hsame. clear -load_by_digest. generalize (selected mods1 good) as l1.
  induction (selected mods0 good) as [|m0 l0 IH]; intros [|m1 l1] fpss Hl Hin Hsame; try done.
  cbn [map] in Hsame. injection Hsame as Hid Hsame. cbn [mapR] in *. apply bind_Ok in Hl as (fps & Hf & Hl).
  apply bind_Ok in Hl as (fpss' & Hls & [= <-]). apply bind_Ok in Hf as (rt & _ & Hf). apply bind_Ok in Hf as (d & Hd & Hf).
  destruct (Hin m1 ltac:(by left)) as [Heng [rt1 Hrt1]]. rewrite Hrt1, Heng, String.eqb_refl, <- Hid, Hd. cbn [mbind result_bind].
  rewrite (load_by_digest _ _ rt1 rt), Hf. cbn [mbind result_bind]. rewrite (IH l1 fpss' Hls); [done| |done].
  intros m Hm. apply Hin. by right.
Qed.

(** A dry run of the overlay writes nothing. *)
Lemma write_overlay_dry l w :
  (forall kv, kv ∈ l -> is_ok (resolve_contained_target root (files w) kv.1) = true) ->
  exists x, write_overlay root true l w = (Ok x, w).
Proof.
  induction l as [|[k v] l IH]; intros Hall; [by eexists|]. cbn [write_overlay]. unfold mbind at 1, stm_bind at 1, get.
  pose proof (Hall (k, v) ltac:(by left)) as Hk. cbn [fst] in Hk. unfold mbind at 1, stm_bind at 1, lift.
  destruct (resolve_contained_target root (files w) k) as [target|]; [|done].
  destruct IH as [[ws bs] Hx]; [intros kv Hkv; apply Hall; by right|].
  case_bool_decide; [by exists (ws, bs)|]. eexists. unfold mbind, stm_bind, mret, stm_ret. rewrite Hx. reflexivity.
Qed.
End Transport.

Section Applying.
Context `{RegexLaws} `{Records.TempFiles} (root : string) (show_exn : exn -> string) (engine_name : string).
Context (blake2b sha256 : string -> string) (physical : gmap string PatchModule).
Context (load_implementation : string -> string -> string -> string -> res (list FilePatch)).
Context (load_by_digest : forall eng pid rt rt' d, load_implementation eng pid rt d = load_implementation eng pid rt' d).
Context (diff_context : string -> option string) (context_lines : Z) (releases : path).

Local Abbreviation probe := (probe_request blake2b physical engine_name root load_implementation diff_context context_lines).
Local Abbreviation check := (run_check blake2b sha256 physical engine_name root load_implementation diff_context context_lines).
Local Abbreviation fresh := (require_fresh blake2b sha256 physical engine_name).
Local Abbreviation digest_of_overlay := (digest_from_texts sha256).
Local Abbreviation apply := (apply_known_good blake2b sha256 physical engine_name root show_exn releases load_implementation).

(** An identity that still resolves is a composition of the catalogue there is. *)
Lemma identity_composed live i :
  check_engine engine_name (by_id (live_catalog live)) = Ok tt ->
  String.eqb (selector_kind i) SELECTOR_KIND_ALL_PATCHES = false ->
  live_identity_for blake2b physical engine_name live i = Ok i ->
  exists mods, composed engine_name (by_id (live_catalog live)) (Selection.patch_ids i) mods.
Proof.
  intros He Hkind. unfold live_identity_for. rewrite Hkind. clear Hkind. destruct (is_none _); [done|]. intros Hl.
  assert (exists e f, selector blake2b physical engine_name live (mkRequest (Selection.source_name i) false e f) = Ok i) as (e & f & Hs).
  { destruct (String.eqb _ _); [eexists _, _; exact Hl|]. destruct (String.eqb _ _); eexists _, _; exact Hl. }
  unfold selector in Hs. apply bind_Ok in Hs as (u & _ & Hs%as_check_error_Ok). unfold requested_identity in Hs. cbn [rq_all rq_source] in Hs.
  apply bind_Ok in Hs as (source & _ & Hs). apply bind_Ok in Hs as (cfg & _ & Hs).
  destruct (canonical_composes _ _ _ _ _ He _ _ _ _ Hs) as (so & base & mods & _ & _ & _ & _ & _ & Hc & _ & _ & Hids & _ & r & Hr & Hm).
  exists mods. split; [done|]. split; [apply (co_known _ _ _ _ Hc)|]. by exists r.
Qed.

(** What the report says of a patch is what the catalogue says. *)
Lemma closed_again live i r revision bigcherry overlay ms0 mods0 (probes : gmap string PatchProbe) mods1 :
  current blake2b sha256 physical engine_name live revision bigcherry overlay i r ->
  patches r = omap (fun m => probes !! patch_id m) mods0 ->
  (forall m, m ∈ mods0 -> ms0 !! patch_id m = Some m /\ exists p, probes !! patch_id m = Some p /\ describes p m) ->
  composed engine_name ms0 (Selection.patch_ids i) mods0 -> composed engine_name (by_id (live_catalog live)) (Selection.patch_ids i) mods1 ->
  closed_in mods0 (known_good_patch_ids r) -> closed_in mods1 (known_good_patch_ids r).
Proof.
  intros Hcur Hps Hde [Hids0 _] (Hids1 & Hkn1 & _) Hcl m1 Hm1 Hg d Hd Hin.
  assert (patch_id m1 ∈ map pp_patch_id (patches r)) as (p & Hid & Hp)%list_elem_of_fmap.
  { apply (cu_ids _ _ _ _ _ _ _ _ _ _ Hcur). rewrite <- Hids1. by apply list_elem_of_fmap_2. }
  destruct (cu_entries _ _ _ _ _ _ _ _ _ _ Hcur p Hp) as (m & Hlook & _ & Hreq & _). rewrite <- Hid, (Hkn1 m1 Hm1) in Hlook.
  injection Hlook as <-. rewrite Hps in Hp. apply list_elem_of_omap in Hp as (m0 & Hm0 & Hpm).
  destruct (Hde m0 Hm0) as (_ & q & Hq & fs & st & ->). rewrite Hpm in Hq. injection Hq as ->.
  cbn [pp_patch_id pp_requires probe_of] in Hid, Hreq. apply (Hcl m0 Hm0); [by rewrite <- Hid|by rewrite <- Hreq|].
  rewrite Hids0, <- Hids1. exact Hin.
Qed.

(** C6 A fresh report is evidence for the tree there is now.  A composition was
    probed, at some time and in whatever state the repository was then; its
    report is found fresh now.  Then the checkout is at the revision that was
    probed and the same patches are known to be good; and a dry run of
    [apply_known_good], which resolves them in the catalogue of now and loads
    them by the digests of the report, finds every one of their edits to
    succeed, and changes nothing.  This holds on the tree that was probed, for a
    record that lets it be patched, where the digests of the two overlays do
    not collide, an implementation is what its digest says, and for the patches
    on which a probe can be relied on. *)
Theorem fresh_report_applies live0 live1 q pristine repo0 i r doc w report_path rev tag bc record now now_index force good :
  check_engine engine_name (by_id (live_catalog live0)) = Ok tt -> check_engine engine_name (by_id (live_catalog live1)) = Ok tt ->
  (forall x m, by_id (live_catalog live1) !! x = Some m -> is_Some (catalog_root m)) ->
  (digest_of_overlay (live_overlay live0) = digest_of_overlay (live_overlay live1) -> live_overlay live0 = live_overlay live1) ->
  named q -> rq_all q = false -> probe live0 q pristine = Ok (i, r) -> check live0 q pristine repo0 releases = Ok doc ->
  (forall m fps p, by_id (live_catalog live0) !! patch_id m = Some m -> patch_id m ∈ known_good_patch_ids r ->
     load_module_patches load_implementation engine_name m = Ok fps -> p ∈ fps -> dependable pristine (live_overlay live0) p) ->
  (forall p, p ∈ patches r -> pp_patch_id p ∈ known_good_patch_ids r -> settled_probe p = true) ->
  files (checkout w) = pristine ->
  (forall kv, kv ∈ map_to_list (live_overlay live1) -> is_ok (resolve_contained_target root pristine kv.1) = true) ->
  let repo := files (Records.disk (recorded w)) in
  load_report repo report_path = Ok (as_read doc) ->
  fresh live1 (as_read doc) (Some (digest_of_overlay (live_overlay live1))) = Ok good ->
  Records.record_for_checkout releases repo rev tag bc = Ok record -> check_record force true record = Ok tt ->
  vendor_head live1 = vendor_head live0 /\ good = known_good_patch_ids r /\
  exists result w',
    apply live1 report_path (rev, tag, bc) now now_index force true w = (Ok result, w') /\
    ar_ok result = true /\ ar_known_good result = good /\ selected_patch_ids result = map JStr (Selection.patch_ids i) /\
    checkout w' = checkout w /\ Records.disk (recorded w') = Records.disk (recorded w).
Proof.
  intros He0 He1 Hroot Hsha Hq Hone Hpr Hrun Hdep Hset Hw Hcont repo Hload Hfresh Hrec Hok.
  unfold run_check in Hrun. rewrite Hpr in Hrun. cbn [mbind result_bind] in Hrun.
  apply bind_Ok in Hrun as (rev0 & Hv0 & Hrun). apply bind_Ok in Hrun as (bc0 & Hb0 & [= <-]).
  destruct (probe_cases _ _ _ _ _ _ _ _ _ _ _ _ Hq Hpr) as (Hc & Hs & Hr). rewrite Hone in Hr.
  destruct (identity_again blake2b physical engine_name live0 q i Hq Hs) as [_ Hlive0].
  pose proof (kind_all _ _ _ _ _ _ Hq Hs) as Hkind. rewrite Hone in Hkind.
  pose proof Hfresh as Hfr. change (report_document ?a ?b ?c ?d ?e ?f ?g) with (written a b c d e f g) in Hfresh.
  apply (fresh_written blake2b sha256 physical engine_name) in Hfresh as [-> Hcur]; [|done].
  pose proof (Hsha (eq_sym (cu_overlay _ _ _ _ _ _ _ _ _ _ Hcur))) as Hov.
  split; [by rewrite (cu_head _ _ _ _ _ _ _ _ _ _ Hcur)|]. split; [done|].
  destruct (identity_composed live0 i He0 Hkind Hlive0) as [mods0 Hc0].
  destruct (identity_composed live1 i He1 Hkind (cu_identity _ _ _ _ _ _ _ _ _ _ Hcur)) as [mods1 Hc1].
  destruct (known_good_part root pristine load_implementation diff_context context_lines engine_name (live_overlay live0)
    _ _ _ He0 (keyed_by_id _) Hr) as (sel & probes & Hsel & Hps & _ & Hde & Hg & Hcl).
  assert (modules sel = mods0) as Hsel0.
  { destruct Hc0 as (_ & _ & r0 & Hr0 & <-). rewrite Hsel in Hr0. by injection Hr0 as <-. }
  rewrite Hsel0 in Hps, Hde, Hg, Hcl.
  pose proof (closed_again _ _ _ _ _ _ _ _ _ _ Hcur Hps Hde Hc0 Hc1 Hcl) as Hcl1.
  destruct (known_good_applies root show_exn pristine load_implementation diff_context context_lines engine_name (live_overlay live0)
    _ _ _ (checkout w) He0 (keyed_by_id _) Hw Hr Hdep Hset) as (fps & rs & Hfps & Happly & Hall & _).
  assert (forall m, m ∈ mods1 -> is_Some (catalog_root m)) as Hroots by (intros m Hm; eapply Hroot; destruct Hc1 as (_ & Hkn & _); by apply Hkn).
  pose proof (loads_again engine_name load_implementation load_by_digest _ _ _ mods0 mods1 _ _ fps
    He0 (keyed_by_id _) He1 (keyed_by_id _) Hc0 Hc1 Hroots Hcl Hcl1 Hg Hfps) as Hagain.
  destruct (check_reported _ _ _ _ _ _ _ _ _ _ _ He0 (keyed_by_id _) (checked_ids i Hc) Hr) as (_ & mods & probes' & Hps' & [Hm Hent _ _ _]).
  assert (dict_of_pairs (digests (patches r)) = digests (patches r)) as Hdict.
  { apply dict_of_pairs_NoDup. unfold digests. rewrite map_map. change (NoDup (map pp_patch_id (patches r))).
    rewrite Hps', Hent, Hm. by apply checked_ids. }
  destruct (write_overlay_dry root (py_sorted by_key (map_to_list (live_overlay live1))) (checkout w)) as [[ws bs] Hwo].
  { intros kv Hkv%elem_of_py_sorted. rewrite Hw. by apply Hcont. }
  set (part := is_partial (known_good_patch_ids r) (map JStr (Selection.patch_ids i))).
  exists (mkApplyResult true (map JStr (Selection.patch_ids i)) (known_good_patch_ids r) part).
  exists (mkBoth (checkout w) (Records.mkWorld record (Records.disk (recorded w)))). split; [|by split_and!].
  unfold apply_known_good. unfold mbind, stm_bind, get, lift, on_recorded, modify, on_checkout, mret, stm_ret. fold repo.
  assert (selected_of (as_read (report_document engine_name rev0 (previous_upstream_revision engine_name repo0 releases rev0) bc0
    (digest_of_overlay (live_overlay live0)) i r)) = Ok (map JStr (Selection.patch_ids i))) as Hselected by apply written_selected.
  assert (report_digests (as_read (report_document engine_name rev0 (previous_upstream_revision engine_name repo0 releases rev0) bc0
    (digest_of_overlay (live_overlay live0)) i r)) = Ok (digests (patches r))) as Hdig by (rewrite <- Hdict; apply written_digests).
  assert (check_record force part record = Ok tt) as Hpart.
  { unfold check_record in *. destruct force; [done|]. apply bind_Ok in Hok as (a & Ha & Hok). apply bind_Ok in Hok as ([] & Hp & Hok).
    rewrite Ha. cbn [mbind result_bind]. rewrite Hp. cbn [mbind result_bind]. destruct part; [exact Hok|done]. }
  rewrite Hload, Hfr, Hselected, Hrec. cbv beta iota zeta. fold part. rewrite Hpart, Hdig, Hagain. cbv beta iota zeta.
  unfold write_tree, write_overlay_snapshot. unfold mbind, stm_bind. cbn [checkout]. rewrite Hwo. cbv beta iota. rewrite <- Hov, Happly, Hall.
  cbn [orb]. unfold mret, stm_ret. cbv beta iota zeta. by rewrite Hall.
Qed.
End Applying.

(** ** What an application leaves *)

Section Nothing.
Context `{Regex} (root : string) (show_exn : exn -> string).

Lemma write_overlay_nothing dry l w bs w' : write_overlay root dry l w = (Ok ([], bs), w') -> w' = w.
Proof.
  revert bs. induction l as [|[k v] l IH]; intros bs; cbn [write_overlay]; [by intros [= _ <-]|].
  unfold mbind at 1, stm_bind at 1, get. unfold mbind at 1, stm_bind at 1, lift.
  destruct (resolve_contained_target _ _ _) as [target|]; [|done]. case_bool_decide; [apply IH|].
  unfold mbind at 1, stm_bind at 1. destruct ((if dry then mret tt else (_ : stm Disk unit)) w) as [[u|] w1]; [|done].
  unfold mbind, stm_bind. destruct (write_overlay root dry l w1) as [[[ws bs']|] w2]; by intros [=].
Qed.

Lemma write_overlay_dry_same l w x w' : write_overlay root true l w = (x, w') -> w' = w.
Proof.
  revert x w'. induction l as [|[k v] l IH]; intros x w'; cbn [write_overlay]; [by intros [= _ <-]|].
  unfold mbind at 1, stm_bind at 1, get. unfold mbind at 1, stm_bind at 1, lift.
  destruct (resolve_contained_target _ _ _) as [target|]; [|by intros [= _ <-]]. case_bool_decide; [apply IH|].
  unfold mbind, stm_bind, mret, stm_ret. destruct (write_overlay root true l w) as [[[ws bs]|] w2];
    pose proof (IH _ _ eq_refl) as ->; by intros [= _ <-].
Qed.

Lemma apply_patch_nothing p ts w r ts' w' : apply_patch root p false ts w = (Ok (r, ts'), w') -> changed r = false -> w' = w.
Proof.
  unfold apply_patch. unfold mbind at 1, stm_bind at 1, get. unfold mbind at 1, stm_bind at 1, lift.
  destruct (resolve_contained_target _ _ _) as [target|]; [|done]. unfold mbind at 1, stm_bind at 1, lift.
  destruct (start_text _ _ _ _) as [[original|e]|]; [|by intros [= <- _ <-]|done].
  unfold mbind at 1, stm_bind at 1, lift. destruct (apply_edits _ _ _) as [[t rs]|]; [|done]. cbn [changed].
  destruct (negb (String.eqb t original)) eqn:Ec; cbn [andb].
  - unfold mbind, stm_bind. destruct ((if (_ : bool) then (_ : stm Disk unit) else _) w) as [[u|] w1]; [|done]. by intros [= <- _ _].
  - by intros [= _ _ <-].
Qed.

Lemma real_pass_nothing ps w rs w' : real_pass root ps w = (Ok rs, w') -> existsb changed rs = false -> w' = w.
Proof.
  revert w rs. induction ps as [|p ps IH]; intros w rs; cbn [real_pass]; [by intros [= <- <-]|].
  unfold mbind at 1, stm_bind at 1. destruct (apply_patch root p false None w) as [[[r ts]|] w1] eqn:E1; [|done].
  unfold mbind, stm_bind. destruct (real_pass root ps w1) as [[rs'|] w2] eqn:E2; [|done]. intros [= <- <-].
  cbn [existsb]. intros [Hc Hcs]%orb_false_iff. apply apply_patch_nothing in E1 as ->; [|done]. by eapply IH.
Qed.

(** Patches that all succeed and change nothing leave the tree. *)
Lemma apply_all_nothing ps dry ts w rs w' :
  apply_all root show_exn ps dry ts w = (Ok rs, w') -> forallb ok rs = true -> existsb changed rs = false -> w' = w.
Proof.
  unfold apply_all. unfold mbind at 1, stm_bind at 1. destruct (trial_pass root ps _ w) as [[[trial ts']|] w1] eqn:E1; [|done].
  apply trial_pass_dry in E1 as ->. destruct (_ || _); [by intros [= <- <-]|].
  unfold write_all. unfold mbind at 1, stm_bind at 1, get. unfold mbind at 1, stm_bind at 1, lift.
  destruct (mapR _ _) as [backup|]; [|done]. unfold pass_or_restore.
  destruct (real_pass root ps w) as [[rs'|e] w2] eqn:E2.
  - unfold mbind, stm_bind. destruct (forallb ok rs') eqn:Eok.
    + intros [= <- <-] _ Hc. by eapply real_pass_nothing.
    + destruct (restore _ _ _) as [[u|] w3]; [|done]. intros [= <- _]. congruence.
  - destruct (is_Exception e); [|done]. unfold mbind, stm_bind, raise. by destruct (restore _ _ _) as [[u|] w3].
Qed.

Lemma apply_all_dry ps ts w x w' : apply_all root show_exn ps true ts w = (x, w') -> w' = w.
Proof.
  unfold apply_all. unfold mbind at 1, stm_bind at 1. destruct (trial_pass root ps _ w) as [[[trial ts']|] w1] eqn:E1;
    apply trial_pass_dry in E1 as ->; [|by intros [= _ <-]]. rewrite orb_true_r. by intros [= _ <-].
Qed.

Lemma write_tree_dry overlay ps w x w' : write_tree root show_exn overlay ps true w = (x, w') -> w' = w.
Proof.
  unfold write_tree, write_overlay_snapshot. unfold mbind at 1, stm_bind at 1.
  destruct (write_overlay root true _ w) as [[[ws bs]|] w1] eqn:E1; apply write_overlay_dry_same in E1 as ->; [|by intros [= _ <-]].
  unfold mbind at 1, stm_bind at 1. destruct (apply_all _ _ _ _ _ w) as [[rs|] w2] eqn:E2; apply apply_all_dry in E2 as ->; [|by intros [= _ <-]].
  rewrite orb_true_r. by intros [= _ <-].
Qed.

Lemma write_tree_nothing overlay ps w rs w' :
  write_tree root show_exn overlay ps false w = (Ok ([], rs), w') -> forallb ok rs = true -> existsb changed rs = false -> w' = w.
Proof.
  unfold write_tree, write_overlay_snapshot. unfold mbind at 1, stm_bind at 1.
  destruct (write_overlay root false _ w) as [[[ws bs]|] w1] eqn:E1; [|done].
  unfold mbind at 1, stm_bind at 1. destruct (apply_all _ _ _ _ _ w1) as [[rs'|] w2] eqn:E2; [|done].
  unfold mbind, stm_bind. destruct ((if (_ : bool) then (_ : stm Disk unit) else _) w2) as [[u|] w3] eqn:E3; [|done]. intros [= -> <- <-] Hok Hc.
  rewrite Hok in E3. injection E3 as <- <-. apply write_overlay_nothing in E1 as ->. by eapply apply_all_nothing.
Qed.
End Nothing.

Section Stage.
Import Records.

Definition same_but_stamps (r0 r : ReleaseRecord) : Prop := with_stamps JNull JNull r = with_stamps JNull JNull r0.

Lemma stamps_fields r0 r : same_but_stamps r0 r -> stage r = stage r0 /\ promotion r = promotion r0 /\ manifest_hash r = manifest_hash r0.
Proof. unfold same_but_stamps. destruct r, r0. by intros [= -> -> -> -> -> -> -> -> -> -> -> -> ->]. Qed.

(** Saving changes nothing of a record but its stamps. *)
Lemma save_keeps_record `{TempFiles} dir now now_index r0 : keeps (fun w => same_but_stamps r0 (memory w)) (save dir now now_index).
Proof.
  assert (forall A (m : stm Disk A), keeps (fun w => same_but_stamps r0 (memory w)) (on_disk m)) as Hd.
  { intros A m w r w' Hw. unfold on_disk. destruct (m (disk w)) as [x d]. by intros [= _ <-]. }
  assert (forall f u, keeps (fun w => same_but_stamps r0 (memory w)) (on_record (modify (with_stamps f u)))) as Hs.
  { intros f u w r w' Hw [= _ <-]. cbn [memory]. unfold same_but_stamps in *. by destruct (memory w). }
  unfold save. repeat first [keeps_step | apply Hd | apply Hs].
Qed.

Definition broken (r : ReleaseRecord) : Prop := stage r = "broken" /\ promotion r = JNull.

Lemma advance_Ok s r u r' : advance_to s r = (Ok u, r') -> r' = with_stage s r.
Proof. destruct (advance_run s r) as [[[e ->] _]|(-> & _)]; [done|]. by intros [= _ <-]. Qed.

Lemma clear_note_Ok r u r' : clear_note r = (Ok u, r') -> stage r' = stage r /\ promotion r' = promotion r /\ manifest_hash r' = manifest_hash r.
Proof.
  unfold clear_note. unfold mbind, stm_bind, get. destruct (notes r); try done.
  destruct (startswith _ _); [|by intros [= _ <-]]. unfold set_notes, modify. by intros [= _ <-].
Qed.

Lemma apply_failed mutated r u r' : record_apply_result false mutated r = (Ok u, r') -> broken r'.
Proof.
  unfold record_apply_result, set_promotion. cbn [negb]. unfold mbind, stm_bind, modify.
  intros Hrun%advance_Ok. by subst r'.
Qed.

Lemma apply_succeeded mutated r u r' : record_apply_result true mutated r = (Ok u, r') ->
  stage r' = "patched" \/ (mutated = false /\ r' = r).
Proof.
  unfold record_apply_result. cbn [negb]. unfold mbind at 1, stm_bind at 1, get.
  destruct (String.eqb (stage r) "broken"); [intros ->%advance_Ok; by left|].
  change (stage_index "patched") with (Ok (E:=exn) 2). unfold mbind, stm_bind, lift, mret, stm_ret, modify.
  destruct mutated; cbv beta iota; (destruct (stage_index (stage r)) as [k|] eqn:Ei; [|done]); cbv beta iota zeta.
  - destruct (2 <=? k)%nat eqn:E; [intros [= _ <-]; by left|]. destruct (Nat.ltb_spec k 2) as [|Hk]; [intros ->%advance_Ok; by left|].
    apply Nat.leb_gt in E. lia.
  - destruct (k <? 2)%nat; [intros ->%advance_Ok; by left|]. intros [= _ <-]. by right.
Qed.

Lemma record_partial_Ok ok s rs r u r' : stage r = s -> record_partial ok s rs r = (Ok u, r') ->
  broken r' \/ (ok = true /\ s ∈ ["audited"; "broken"] /\ stage r' = s).
Proof.
  intros Hs. unfold record_partial. destruct ok.
  - destruct (str_in s _) eqn:Ein; cbn [negb].
    + intros (H1 & _)%clear_note_Ok. right. split; [done|]. split; [by apply str_in_true|congruence].
    + unfold mbind at 1, stm_bind at 1, modify at 1. unfold mbind, stm_bind.
      destruct (advance_to "broken" _) as [[v|] r1] eqn:Ea; [|done]. apply advance_Ok in Ea as ->.
      unfold set_notes, modify. intros [= _ <-]. by left.
  - unfold mbind, stm_bind. destruct (record_apply_result false false r) as [[v|] r1] eqn:Ea; [|done].
    apply apply_failed in Ea. unfold set_notes, modify. intros [= _ <-]. by left.
Qed.

Lemma record_full_Ok ok mutated rs r u r' : record_full ok mutated rs r = (Ok u, r') ->
  if ok then stage r' = "patched" \/ (mutated = false /\ stage r' = stage r /\ promotion r' = promotion r /\ manifest_hash r' = manifest_hash r)
  else broken r'.
Proof.
  unfold record_full. unfold mbind, stm_bind. destruct (record_apply_result ok mutated r) as [[v|] r1] eqn:Ea; [|done]. destruct ok.
  - intros (H1 & H2 & H3)%clear_note_Ok. apply apply_succeeded in Ea as [Hp|[Hm ->]]; [left; congruence|by right].
  - apply apply_failed in Ea. unfold set_notes, modify. intros [= _ <-]. done.
Qed.
End Stage.

Section Recorded.
Context `{Regex} `{Records.TempFiles} (root : string) (show_exn : exn -> string) (engine_name : string).
Context (blake2b sha256 : string -> string) (physical : gmap string PatchModule).
Context (load_implementation : string -> string -> string -> string -> res (list FilePatch)) (releases : path).

(** What is written of the record, when it could be. *)
Lemma record_run (m : stm Records.ReleaseRecord unit) rs now now_index w u w' :
  (_ ← on_recorded (Records.on_record (set_patches rs)); _ ← on_recorded (Records.on_record m);
   _ ← on_recorded (Records.save releases now now_index); mret tt) w = (Ok u, w') ->
  exists v r1, m (Records.with_patches (summarise_patches rs) (Records.notes (Records.memory (recorded w))) (Records.memory (recorded w))) = (Ok v, r1) /\
    same_but_stamps r1 (Records.memory (recorded w')) /\ checkout w' = checkout w.
Proof.
  unfold on_recorded, Records.on_record, set_patches, modify. unfold mbind, stm_bind, mret, stm_ret. cbn [recorded Records.memory Records.disk checkout].
  destruct (m _) as [[v|] r1]; [|done]. cbn [recorded checkout].
  destruct (Records.save releases now now_index _) as [[p|] w2] eqn:Es; [|done]. intros [= _ <-]. cbn [recorded checkout].
  exists v, r1. split; [done|]. split; [|done]. by apply (save_keeps_record releases now now_index r1) in Es.
Qed.

(** How a record ends, by what became of the tree. *)
Definition recorded_as (record : Records.ReleaseRecord) (result : ApplyResult) (w w' : Both) : Prop :=
  let r' := Records.memory (recorded w') in
  if ar_ok result then
    if partial result then
      broken r' \/ (Records.stage record ∈ ["audited"; "broken"] /\ Records.stage r' = Records.stage record)
    else
      Records.stage r' = "patched" \/
      (checkout w' = checkout w /\ Records.stage r' = Records.stage record /\
       Records.promotion r' = Records.promotion record /\ Records.manifest_hash r' = Records.manifest_hash record)
  else broken r'.

End Recorded.

(** ** The properties are not empty *)

Local Abbreviation temp := Records.long_files.

Definition demo_catalog (root : string) (n : Z) : list PatchModule :=
  map (fun m => mkPatchModule "llamacpp" m.1.1 (n * m.1.2) "validated" ("hash-" +:+ m.1.1) m.2 [] (Some root))
    [("a", 1, []); ("b", 2, ["a"]); ("x", 3, []); ("q", 4, []); ("y", 5, ["x"])]%Z.

Definition demo_config (extra : string) : Config :=
  mkConfig "b5000"
    (<["core" := mkPatchSet "core" ["a"; "b"; "x"; "q"; "y"] "validated"]> (<["good" := mkPatchSet "good" ["b"; "a"] "validated"]> ∅))
    (<["main" := mkSource "main" "pinned" ["core"]]> (<["best" := mkSource "best" "pinned" ["good"]]> (<[extra := mkSource extra "b1" []]> ∅))) ∅.

Definition demo_overlay : texts := <["src/o.h" := "int o();" +:+ newline]> ∅.

(** When the check ran, and later: the registry is elsewhere, its numbers are
    others, and the configuration has another source. *)
Definition demo_then : Live := mkLive (demo_catalog "/patches" 1) (Ok (demo_config "one")) (Ok "abc") (Ok "bc") demo_overlay.
Definition demo_now : Live := mkLive (rev (demo_catalog "/moved" 2)) (Ok (demo_config "two")) (Ok "abc") (Ok "bc") demo_overlay.

Definition demo_request (source : string) : Request := mkRequest (Some source) false None None.
Definition demo_hash (s : string) : string := "set-digest".
Definition demo_sha (s : string) : string := s.

Definition demo_probe (source : string) : res (SelectorIdentity * Report) :=
  probe_request demo_hash ∅ "llamacpp" "/src" demo_load (fun _ => None) 3 demo_then (demo_request source) demo_files.
Definition demo_check (source : string) : res (list (string * json)) :=
  run_check demo_hash demo_sha ∅ "llamacpp" "/src" demo_load (fun _ => None) 3 demo_then (demo_request source) demo_files ∅ ["releases"].

Definition demo_doc (source : string) : list (string * json) := match demo_check source with Ok d => d | Err _ => [] end.

Definition demo_path : path := ["report.json"].

(** A release that is audited, and the report of a check. *)
Definition demo_record (stage : string) : Records.ReleaseRecord :=
  Records.with_stage stage (Records.with_details (Records.demo_details "m1") (Records.new_record "abc" "b5000")).
Definition demo_repo (source stage : string) : tree :=
  files (write_report (H := temp) demo_path (JObj (demo_doc source))
    (Records.disk (Records.save (H := temp) ["releases"] "t0" "t0" (Records.mkWorld (demo_record stage) (mkDisk (<[["releases"] := Directory]> ∅) []))).2)).2.
Definition demo_both (source stage : string) (fs : list (option fault)) : Both :=
  mkBoth (mkDisk demo_files fs) (Records.mkWorld (demo_record stage) (mkDisk (demo_repo source stage) [])).

Definition demo_run (live : Live) (source stage : string) (fs : list (option fault)) (force dry_run : bool) : res ApplyResult * Both :=
  apply_known_good (H0 := temp) demo_hash demo_sha ∅ "llamacpp" "/src" exn_class ["releases"] demo_load live demo_path ("abc", "b5000", "bc")
    "t1" "t1" force dry_run (demo_both source stage fs).

(** What became of a run: its result, the stage of the record and the text of the patched file. *)
Definition demo_outcome (x : res ApplyResult * Both) : res (bool * bool) * string * option string :=
  ((r ← x.1; Ok (ar_ok r, partial r)), Records.stage (Records.memory (recorded x.2)), read_text (files (checkout x.2)) ["src"; "f.h"]).

Example demo_stages :
  map (fun s => (demo_outcome (demo_run demo_now s.1 s.2 [] false false)).1) [("main", "audited"); ("best", "audited"); ("best", "built")] =
    [(Ok (true, true), "audited"); (Ok (true, false), "patched"); (Ok (true, false), "patched")].
Proof. vm_compute. reflexivity. Qed.

(** A part of a selection is refused where more was built on the tree, and
    breaks the record where that is forced. *)
Example demo_partial :
  (demo_outcome (demo_run demo_now "main" "built" [] false false)).1.1 =
    Err (RebaseCheckError ("apply --known-good: a PARTIAL known-good subset is only accepted on a tree at stage 'audited' or 'broken' "
      +:+ "(current: 'built') -- applying it now would leave later-stage evidence describing a composition that was never fully "
      +:+ "applied; pass --force only if you accept invalidating that evidence yourself")) /\
  checkout (demo_run demo_now "main" "built" [] false false).2 = mkDisk demo_files [] /\
  (demo_outcome (demo_run demo_now "main" "built" [] true false)).1 = (Ok (true, true), "broken").
Proof. vm_compute. done. Qed.

(** What changed since the report makes it stale. *)
Definition demo_edited (x : string) (reqs : list string) (digest : string) : Live :=
  mkLive (map (fun m => if String.eqb (patch_id m) x then mkPatchModule (engine m) x (order m) (state m) digest reqs (conflicts m) (catalog_root m) else m)
            (live_catalog demo_now)) (live_config demo_now) (vendor_head demo_now) (bigcherry_head demo_now) (live_overlay demo_now).

Definition demo_refusal (live : Live) : res ApplyResult := (demo_run live "best" "audited" [] false false).1.

Example demo_stale_refusals :
  demo_refusal (demo_edited "x" [] "other") = demo_refusal demo_now /\
  demo_refusal (demo_edited "b" ["a"] "other") =
    Err (Stale ("report's selector identity no longer matches the live config (differs in: ('module_hashes',)) -- re-run patch-rebase-check")) /\
  demo_refusal (demo_edited "b" [] "hash-b") = Err (Stale "patch 'b' REQUIRES changed since the report was written") /\
  demo_refusal (mkLive (live_catalog demo_now) (live_config demo_now) (Ok "abd") (Ok "bc") demo_overlay) =
    Err (Stale "report upstream_revision 'abc' != live vendor HEAD 'abd'").
Proof. vm_compute. done. Qed.

(** The overlay is put back with other line ends than it had: the checkout, at
    its revision, has an edited file, on which the patches fail. *)
Definition demo_dirty (fs : list (option fault)) : Disk :=
  mkDisk (<[["src"; "f.h"] := File ("int e();" +:+ newline)]> (<[["src"; "o.h"] := File ("int o2();" +:+ String "013" newline)]> demo_files)) fs.

Example demo_overlay_restored :
  let x := write_tree "/src" exn_class demo_overlay [demo_patch] false (demo_dirty []) in
  (failed_edits match x.1 with Ok r => r.2 | Err _ => [] end) = ["src/f.h:add-g"] /\
  files x.2 !! ["src"; "o.h"] = Some (File ("int o2();" +:+ newline)) /\
  files (demo_dirty []) !! ["src"; "o.h"] = Some (File ("int o2();" +:+ String "013" newline)).
Proof. vm_compute. done. Qed.

(** A write that fails behind the overlay: it stays in the tree, and the record
    goes on to say what it said of the tree without it. *)
Example demo_overlay_left :
  let x := demo_run demo_now "best" "built" [None; Some (mkFault (OSError "[Errno 28] No space left on device") None)] false false in
  is_ok x.1 = false /\ files (checkout x.2) !! ["src"; "o.h"] = Some (File ("int o();" +:+ newline)) /\
  demo_files !! ["src"; "o.h"] = None /\ Records.disk (recorded x.2) = mkDisk (demo_repo "best" "built") [] /\
  Records.stage (Records.memory (recorded x.2)) = "built".
Proof. vm_compute. done. Qed.

Definition demo_i (source : string) : SelectorIdentity :=
  match demo_probe source with Ok x => x.1 | Err _ => mkIdentity "" "" "" None None None [] [] end.
Definition demo_r (source : string) : Report :=
  match demo_probe source with Ok x => x.2 | Err _ => mkReport [] (summarise []) [] end.

Lemma demo_probe_value : demo_probe "main" = Ok (demo_i "main", demo_r "main").
Proof. vm_compute. reflexivity. Qed.

Lemma demo_check_value : demo_check "main" = Ok (demo_doc "main").
Proof. vm_compute. reflexivity. Qed.

Lemma demo_good_value : known_good_patch_ids (demo_r "main") = ["a"; "b"].
Proof. vm_compute. reflexivity. Qed.

Definition demo_written : res unit * Disk := write_report (H := temp) demo_path (JObj (demo_doc "main")) (mkDisk ∅ []).

Lemma demo_written_ok : is_ok demo_written.1 = true.
Proof. vm_compute. reflexivity. Qed.

Lemma checked_is_fresh_witness :
  exists i r, load_report (files demo_written.2) demo_path = Ok (as_read (demo_doc "main")) /\
    require_fresh_report demo_hash demo_sha ∅ "llamacpp" demo_then (as_read (demo_doc "main")) None None None = Ok (known_good_patch_ids r) /\
    is_ok (require_fresh_report demo_hash demo_sha ∅ "llamacpp" demo_then (as_read (demo_doc "main")) None (Some (module_hashes i)) None) = true.
Proof.
  destruct (@checked_is_fresh demo_hash demo_sha ∅ "llamacpp" Literal "/src" demo_load (fun _ => None) 3 temp Records.long_files_laws
    demo_then (demo_request "main") demo_files ∅ ["releases"] (demo_doc "main") demo_path (mkDisk ∅ []) demo_written.1 demo_written.2
    (demo_i "main") ltac:(vm_compute; reflexivity) ltac:(split; discriminate) demo_check_value ltac:(discriminate)
    ltac:(vm_compute; reflexivity) (surjective_pairing demo_written)) as [[Hf _]|(i & r & Hp & Hl & Hg & _ & Hh)].
  - rewrite demo_written_ok in Hf. discriminate.
  - exists i, r. split; [exact Hl|]. split; [exact Hg|]. apply Hh. split; reflexivity.
Defined.

Definition demo_loaded : Records.ReleaseRecord :=
  match Records.record_for_checkout ["releases"] (demo_repo "main" "audited") "abc" "b5000" "bc" with
  | Ok r => r | Err _ => Records.new_record "" "" end.

Lemma demo_loaded_value :
  load_report (demo_repo "main" "audited") demo_path = Ok (as_read (demo_doc "main")) /\
  require_fresh demo_hash demo_sha ∅ "llamacpp" demo_now (as_read (demo_doc "main")) (Some (digest_from_texts demo_sha demo_overlay)) = Ok ["a"; "b"] /\
  Records.record_for_checkout ["releases"] (demo_repo "main" "audited") "abc" "b5000" "bc" = Ok demo_loaded /\
  check_record false true demo_loaded = Ok tt.
Proof. vm_compute. done. Qed.

Lemma demo_good_dependable m fps p :
  patch_id m ∈ known_good_patch_ids (demo_r "main") ->
  load_module_patches demo_load "llamacpp" m = Ok fps -> p ∈ fps -> dependable demo_files demo_overlay p.
Proof.
  rewrite demo_good_value. intros Hg Hl Hp.
  assert (fps = [demo_patch] \/ fps = [demo_second]) as Hf.
  { unfold load_module_patches in Hl. apply bind_Ok in Hl as (u & _ & Hl). apply bind_Ok in Hl as (rt & _ & Hl).
    repeat (apply elem_of_cons in Hg as [Hg|Hg]; [rewrite Hg in Hl; vm_compute in Hl; injection Hl as <-; auto|]). by apply elem_of_nil in Hg. }
  destruct Hf as [->| ->]; apply list_elem_of_singleton in Hp as ->; split; done.
Qed.

Lemma demo_settled p : p ∈ patches (demo_r "main") -> pp_patch_id p ∈ known_good_patch_ids (demo_r "main") -> settled_probe p = true.
Proof.
  assert (forallb (fun p => negb (str_in (pp_patch_id p) ["a"; "b"]) || settled_probe p) (patches (demo_r "main")) = true) as Hall
    by (vm_compute; reflexivity).
  rewrite demo_good_value. intros Hp Hg%str_in_true. rewrite forallb_forall in Hall. specialize (Hall p (proj1 (list_elem_of_In _ _) Hp)).
  by rewrite Hg in Hall.
Qed.

Lemma demo_contained kv : kv ∈ map_to_list demo_overlay -> is_ok (resolve_contained_target "/src" demo_files kv.1) = true.
Proof.
  apply (proj1 (forallb_true (fun kv => is_ok (resolve_contained_target "/src" demo_files kv.1)) (map_to_list demo_overlay))).
  vm_compute. reflexivity.
Qed.

Lemma demo_roots x m : by_id (live_catalog demo_now) !! x = Some m -> is_Some (catalog_root m).
Proof.
  intros Hm%elem_of_map_to_list. apply (bool_decide_eq_true_1 (is_Some (catalog_root (x, m).2))).
  revert Hm. generalize (x, m).
  apply (proj1 (forallb_true (fun kv => bool_decide (is_Some (catalog_root kv.2))) (map_to_list (by_id (live_catalog demo_now))))).
  vm_compute. reflexivity.
Qed.

Lemma fresh_report_applies_witness :
  exists result w', demo_run demo_now "main" "audited" [] false true = (Ok result, w') /\ ar_ok result = true /\
    ar_known_good result = ["a"; "b"] /\ checkout w' = mkDisk demo_files [].
Proof.
  destruct demo_loaded_value as (Hl & Hf & Hr & Hc).
  destruct (@fresh_report_applies Literal Literal_laws temp "/src" exn_class "llamacpp" demo_hash demo_sha ∅ demo_load
    (fun _ _ _ _ _ => eq_refl) (fun _ => None) 3 ["releases"] demo_then demo_now (demo_request "main") demo_files ∅ (demo_i "main") (demo_r "main")
    (demo_doc "main") (demo_both "main" "audited" []) demo_path "abc" "b5000" "bc" demo_loaded "t1" "t1" false ["a"; "b"]
    ltac:(vm_compute; reflexivity) ltac:(vm_compute; reflexivity) demo_roots (fun _ => eq_refl) ltac:(split; discriminate) eq_refl
    demo_probe_value demo_check_value (fun m fps p _ => demo_good_dependable m fps p) demo_settled eq_refl demo_contained Hl Hf Hr Hc)
    as (_ & _ & result & w' & Hrun & Hok & Hgood & _ & Hco & _).
  exists result, w'. split; [exact Hrun|]. split; [exact Hok|]. split; [exact Hgood|exact Hco].
Defined.

Definition demo_recorded : res ApplyResult * Both := demo_run demo_now "best" "built" [] false false.

Lemma demo_recorded_value :
  checkout demo_recorded.2 <> checkout (demo_both "best" "built" []) /\
  match demo_recorded.1 with Ok r => ar_ok r && negb (partial r) | Err _ => false end = true.
Proof.
  split; [|vm_compute; reflexivity]. intros Hsame.
  apply (f_equal (fun d => match read_text (files d) ["src"; "f.h"] with Some s => String.length s | None => 0 end)) in Hsame.
  vm_compute in Hsame. discriminate.
Qed.

Lemma demo_recorded_run :
  apply_known_good (H0 := temp) demo_hash demo_sha ∅ "llamacpp" "/src" exn_class ["releases"] demo_load demo_now demo_path ("abc", "b5000", "bc")
    "t1" "t1" false false (demo_both "best" "built" []) = (demo_recorded.1, demo_recorded.2).
Proof. exact (surjective_pairing demo_recorded). Qed.


(** A report that is no object is not called stale: only the gate does that. *)
Example demo_malformed :
  require_fresh demo_hash demo_sha ∅ "llamacpp" demo_now (JArr []) None = Err (AttributeError "'list' object has no attribute 'get'") /\
  require_fresh_report demo_hash demo_sha ∅ "llamacpp" demo_now (JArr []) None None None =
    Err (Stale "malformed rebase report: 'list' object has no attribute 'get'").
Proof. vm_compute. done. Qed.

End KnownGood.
