(* ===== verification/Wire.v ===== *)
(** The replay cache as bytes: the readers and the preflight check of
    [src/tools/bigcherry/tuning/replay.py].

    A byte is an integer from 0 to 255 and a file is a list of them.  Names are
    kept as their UTF-8 bytes, one character each. *)

From S2P Require Import Prelude Json Capabilities.

Module Wire.
Import Json Capabilities.

Definition SystemExit (msg : string) : exn := Exn "SystemExit" msg.

(** ** Bytes *)

Notation bytes := (list Z).

(** [l[a:b]] for [a <= b]. *)
Definition slice {A} (a b : nat) (l : list A) : list A := take (b - a) (drop a l).

(** Little-endian [struct.pack] and [struct.unpack_from] of [n] bytes. *)
Definition struct_error (msg : string) : exn := Exn "struct.error" msg.

Definition le (n : nat) (v : Z) : bytes := rev (bytes_of_int n v).

Definition pack_uint (n : nat) (v : Z) : res bytes :=
  if (0 <=? v)%Z && (v <? 256 ^ Z.of_nat n)%Z then Ok (le n v) else Err (struct_error "argument out of range").

Definition pack_int (n : nat) (v : Z) : res bytes :=
  let half := (256 ^ Z.of_nat n / 2)%Z in
  if (- half <=? v)%Z && (v <? half)%Z then Ok (le n (v mod 256 ^ Z.of_nat n)) else Err (struct_error "argument out of range").

Definition unpack (n off : nat) (data : bytes) : res Z :=
  let d := slice off (off + n) data in
  if (length d =? n)%nat then Ok (int_of_bytes (rev d)) else Err (struct_error "unpack_from requires a larger buffer").

(** [data[i]] *)
Definition byte_at (i : nat) (data : bytes) : res Z := of_option (Exn "IndexError" "index out of range") (data !! i).

Definition bytes_of_str (s : string) : bytes :=
  map (fun c => Z.of_nat (Ascii.nat_of_ascii c)) (String.list_ascii_of_string s).
Definition str_of_bytes (l : bytes) : string :=
  String.string_of_list_ascii (map (fun z => Ascii.ascii_of_nat (Z.to_nat z)) l).

Definition in_range (lo hi b : Z) : bool := (lo <=? b)%Z && (b <=? hi)%Z.
Definition continues (b : Z) : bool := in_range 128 191 b.

(** What Python decodes as UTF-8: no overlong form, no surrogate, nothing above
    the last code point. *)
Fixpoint utf8_valid (l : bytes) : bool :=
  match l with
  | [] => true
  | a :: l1 =>
      if (a <? 128)%Z then utf8_valid l1 else
      match l1 with
      | [] => false
      | b :: l2 =>
          if in_range 194 223 a then continues b && utf8_valid l2 else
          match l2 with
          | [] => false
          | c :: l3 =>
              if in_range 224 239 a then
                in_range (if (a =? 224)%Z then 160 else 128) (if (a =? 237)%Z then 159 else 191) b
                && continues c && utf8_valid l3
              else
                match l3 with
                | [] => false
                | d :: l4 =>
                    in_range 240 244 a && in_range (if (a =? 240)%Z then 144 else 128) (if (a =? 244)%Z then 143 else 191) b
                    && continues c && continues d && utf8_valid l4
                end
          end
      end
  end.

(** [s.encode("utf-8")], [b.decode("utf-8")] *)
Definition encode (s : string) : res bytes :=
  if utf8_valid (bytes_of_str s) then Ok (bytes_of_str s) else Err (Exn "UnicodeEncodeError" "surrogates not allowed").
Definition decode (l : bytes) : res string :=
  if utf8_valid l then Ok (str_of_bytes l) else Err (Exn "UnicodeDecodeError" "invalid utf-8").

(** ** The format *)

Definition MAGIC : Z := 0x59484342.
Definition REPLAY_VERSION : Z := 5.
Definition REPLAY_VERSION_V4 : Z := 4.
Definition ARTIFACT_VERSION : Z := 1.
Definition SIGNATURE_SCHEMA_VERSION : Z := 2.
Definition HARDWARE_SCHEMA_VERSION : Z := 1.
Definition DIGEST_BYTES : nat := 16.
Definition REPLAY_HEADER_SIZE : nat := 56.
Definition ENT_MANIFEST : nat := 54.
Definition ENT_SOURCE_REVISION : nat := ENT_MANIFEST + DIGEST_BYTES.
Definition ENT_GENERATION : nat := ENT_SOURCE_REVISION + DIGEST_BYTES.
Definition ENT_TRANSFORM : nat := ENT_GENERATION + 4.
Definition ENT_MATCH_KIND : nat := ENT_TRANSFORM + 2.
Definition ENT_SIZE : nat := ENT_MATCH_KIND + 1.
Definition ENT_SIZE_V4 : nat := 90.
Definition MATCH_KIND_EXACT : Z := 0.

(** [re.fullmatch(r"[0-9a-fA-F]{n}", s)] *)
Definition hex_text (n : nat) (s : string) : bool :=
  (String.length s =? n)%nat
  && forallb (fun c => match digit_value c with Some _ => true | None => false end) (String.list_ascii_of_string s).

Definition digest_hex (value : json) (label : string) : res string :=
  match value with
  | JStr s => if hex_text 32 s then Ok (py_lower s) else Err (SystemExit (label +:+ " must be a 16-byte hexadecimal digest"))
  | _ => Err (SystemExit (label +:+ " must be a 16-byte hexadecimal digest"))
  end.

(** [bytes.fromhex(s)] *)
Definition fromhex (s : string) : res bytes :=
  of_option (ValueError "non-hexadecimal number found in fromhex()") (bytes_fromhex s).

(** [hashlib.blake2b(_, digest_size=16, person=b"llama-dispatch").digest()] *)
Class DispatchHash : Type := { blake2b_digest : bytes -> bytes }.
Class DispatchHashLaws `{DispatchHash} : Prop := {
  digest_length : forall data, length (blake2b_digest data) = DIGEST_BYTES;
  digest_bytes : forall data, Forall byte (blake2b_digest data);
}.

(** The identity of an entry: dispatch, manifest, revision, generation. *)
Notation identity := (bytes * bytes * bytes * Z)%type.

Record Header : Type := mkHeader {
  h_version : Z; h_artifact_version : Z; h_signature_schema : Z; h_hardware_schema : Z; h_manifest_hash : string;
}.

(** [match_kind] is [None] in an entry of version 4; [portable_key] and
    [dispatch] have the same value. *)
Record Entry : Type := mkEntry {
  e_portable_key : string; e_signature : string; e_winner : string; e_manifest_hash : string;
  e_source_revision_digest : string; e_generation : Z; e_transform_id : Z; e_match_kind : option Z; e_wire_entry : bytes;
}.

Definition check_v5 (version : Z) : res unit :=
  ensure (version =? REPLAY_VERSION)%Z
    (SystemExit ("replay cache format version mismatch (found " +:+ show_Z version
       +:+ ", this tool produces and consumes " +:+ show_Z REPLAY_VERSION +:+ " only)")).

Definition check_v4 (version : Z) : res unit :=
  ensure (version =? REPLAY_VERSION_V4)%Z
    (SystemExit ("read_cache_legacy_v4 expects a v4 cache, found version " +:+ show_Z version)).

Section Reader.
Context `{DispatchHash}.

(** What both readers check before they look at an entry: the number of
    entries and the size of the string table. *)
Definition preflight (size : nat) (check_version : Z -> res unit) (manifest_hash : option json) (enforce_schema : bool)
    (blob : bytes) : res (nat * nat) :=
  _ ← ensure (REPLAY_HEADER_SIZE <=? length blob)%nat (SystemExit "replay cache is shorter than its header");
  magic ← unpack 4 0 blob; version ← unpack 4 4 blob; artifact ← unpack 4 8 blob;
  _ ← ensure (magic =? MAGIC)%Z (SystemExit "replay cache has bad magic");
  _ ← check_version version;
  _ ← ensure (artifact =? ARTIFACT_VERSION)%Z (SystemExit "replay cache artifact version mismatch");
  sig_schema ← unpack 2 12 blob; hw_schema ← unpack 2 14 blob;
  entry_count ← unpack 4 16 blob; string_bytes ← unpack 4 20 blob;
  _ ← ensure (negb enforce_schema || (sig_schema =? SIGNATURE_SCHEMA_VERSION)%Z)
        (SystemExit "replay cache signature schema version mismatch");
  _ ← ensure (negb enforce_schema || (hw_schema =? HARDWARE_SCHEMA_VERSION)%Z)
        (SystemExit "replay cache hardware schema version mismatch");
  _ ← match manifest_hash with
      | None => Ok tt
      | Some h =>
          hex ← digest_hex h "manifest_hash"; expected ← fromhex hex;
          ensure (bool_decide (slice 24 40 blob = expected)) (SystemExit "replay cache manifest hash differs from supplied manifest")
      end;
  let strings_at := (Z.of_nat REPLAY_HEADER_SIZE + entry_count * Z.of_nat size)%Z in
  let expected := (strings_at + string_bytes)%Z in
  _ ← ensure (negb ((strings_at <? Z.of_nat REPLAY_HEADER_SIZE)%Z || (expected <? strings_at)%Z))
        (SystemExit "replay cache table size overflows");
  _ ← ensure (Z.of_nat (length blob) =? expected)%Z (SystemExit "replay cache file is truncated or has trailing bytes");
  _ ← ensure (bool_decide (slice 40 56 blob = blake2b_digest (drop REPLAY_HEADER_SIZE blob)))
        (SystemExit "replay cache content checksum mismatch");
  Ok (Z.to_nat entry_count, Z.to_nat string_bytes).

Definition entry_at (size : nat) (blob : bytes) (index : nat) : bytes :=
  slice (REPLAY_HEADER_SIZE + index * size) (REPLAY_HEADER_SIZE + (index + 1) * size) blob.

Definition entries_of (size count : nat) (blob : bytes) : list bytes := map (entry_at size blob) (seq 0 count).

Definition strings_of (size count string_bytes : nat) (blob : bytes) : bytes :=
  slice (REPLAY_HEADER_SIZE + count * size) (REPLAY_HEADER_SIZE + count * size + string_bytes) blob.

Definition identity_of (entry : bytes) : res identity :=
  generation ← unpack 4 ENT_GENERATION entry;
  Ok (take DIGEST_BYTES entry, slice ENT_MANIFEST ENT_SOURCE_REVISION entry, slice ENT_SOURCE_REVISION ENT_GENERATION entry, generation).

(** A new identity, put among those already seen. *)
Definition new_identity (seen : list identity) (entry : bytes) : res (list identity) :=
  i ← identity_of entry;
  _ ← ensure (negb (bool_decide (i ∈ seen))) (SystemExit "replay cache contains duplicate generation identity");
  Ok (i :: seen).

Definition name_offset (string_bytes : nat) (entry : bytes) : res nat :=
  off ← unpack 4 32 entry;
  _ ← ensure (off <? Z.of_nat string_bytes)%Z (SystemExit "replay cache entry names a string outside the table");
  Ok (Z.to_nat off).

Definition check_entry (string_bytes : nat) (strings : bytes) (seen : list identity) (entry : bytes) : res (list identity) :=
  seen' ← new_identity seen entry;
  match_kind ← byte_at ENT_MATCH_KIND entry;
  _ ← ensure (match_kind =? MATCH_KIND_EXACT)%Z
        (SystemExit ("replay cache entry " +:+ bytes_hex (take 8 (take DIGEST_BYTES entry)) +:+ "... carries match_kind "
           +:+ show_Z match_kind +:+ ", which this tool does not recognise; refusing to reinterpret "
           +:+ "a future key form as an exact match"));
  off ← name_offset string_bytes entry;
  _ ← ensure (existsb (Z.eqb 0) (drop off strings)) (SystemExit "replay cache string table is not NUL-terminated");
  Ok seen'.

Definition validate_blob (manifest_hash : option json) (enforce_schema : bool) (blob : bytes) : res (nat * nat) :=
  '(entry_count, string_bytes) ← preflight ENT_SIZE check_v5 manifest_hash enforce_schema blob;
  _ ← foldR (check_entry string_bytes (strings_of ENT_SIZE entry_count string_bytes blob))
        (entries_of ENT_SIZE entry_count blob) [];
  Ok (entry_count, string_bytes).

Definition header_of (blob : bytes) : res Header :=
  version ← unpack 4 4 blob; artifact ← unpack 4 8 blob; sig_schema ← unpack 2 12 blob; hw_schema ← unpack 2 14 blob;
  Ok (mkHeader version artifact sig_schema hw_schema (bytes_hex (slice 24 40 blob))).

(** The bytes up to the first NUL: [l[:l.index(0)]]. *)
Fixpoint until_nul (l : bytes) : option bytes :=
  match l with
  | [] => None
  | b :: l' => if (b =? 0)%Z then Some [] else n ← until_nul l'; Some (b :: n)
  end.

Definition name_at (off : nat) (strings : bytes) : res string :=
  raw ← of_option (ValueError "subsection not found") (until_nul (drop off strings)); decode raw.

Definition read_entry (strings entry : bytes) : res Entry :=
  off ← unpack 4 32 entry;
  winner ← name_at (Z.to_nat off) strings;
  generation ← unpack 4 ENT_GENERATION entry;
  transform_id ← unpack 2 ENT_TRANSFORM entry;
  match_kind ← byte_at ENT_MATCH_KIND entry;
  Ok (mkEntry (bytes_hex (take DIGEST_BYTES entry)) (bytes_hex (slice DIGEST_BYTES (2 * DIGEST_BYTES) entry)) winner
        (bytes_hex (slice ENT_MANIFEST ENT_SOURCE_REVISION entry)) (bytes_hex (slice ENT_SOURCE_REVISION ENT_GENERATION entry))
        generation transform_id (Some match_kind) entry).

Definition read_cache (enforce_schema : bool) (blob : bytes) : res (Header * list Entry) :=
  '(entry_count, string_bytes) ← validate_blob None enforce_schema blob;
  header ← header_of blob;
  entries ← mapR (read_entry (strings_of ENT_SIZE entry_count string_bytes blob)) (entries_of ENT_SIZE entry_count blob);
  Ok (header, entries).

(** The offline reader of version 4: its loop checks and reads at once. *)
Definition read_entry_v4 (string_bytes : nat) (strings : bytes) (st : list identity * list Entry) (entry : bytes) :
    res (list identity * list Entry) :=
  seen' ← new_identity st.1 entry;
  off ← name_offset string_bytes entry;
  winner ← name_at off strings;
  generation ← unpack 4 ENT_GENERATION entry;
  Ok (seen', st.2 ++ [mkEntry (bytes_hex (take DIGEST_BYTES entry)) (bytes_hex (slice DIGEST_BYTES (2 * DIGEST_BYTES) entry)) winner
        (bytes_hex (slice ENT_MANIFEST ENT_SOURCE_REVISION entry)) (bytes_hex (slice ENT_SOURCE_REVISION ENT_GENERATION entry))
        generation 0 None entry]).

Definition read_cache_legacy_v4 (enforce_schema : bool) (blob : bytes) : res (Header * list Entry) :=
  '(entry_count, string_bytes) ← preflight ENT_SIZE_V4 check_v4 None enforce_schema blob;
  st ← foldR (read_entry_v4 string_bytes (strings_of ENT_SIZE_V4 entry_count string_bytes blob))
         (entries_of ENT_SIZE_V4 entry_count blob) ([], []);
  header ← header_of blob;
  Ok (header, st.2).

End Reader.
(** ** Slices and integers *)

Lemma length_slice {A} a b (l : list A) : b <= length l -> length (slice a b l) = b - a.
Proof. intros Hb. unfold slice. rewrite length_take, length_drop. lia. Qed.

Lemma slice_app_l {A} a b (l k : list A) : b <= length l -> slice a b (l ++ k) = slice a b l.
Proof.
  intros Hb. unfold slice. destruct (decide (a <= b)).
  - rewrite drop_app_le, take_app_le by (rewrite ?length_drop; lia). done.
  - by replace (b - a) with 0 by lia.
Qed.

Lemma slice_app_r {A} a b (l k : list A) : length l <= a -> slice a b (l ++ k) = slice (a - length l) (b - length l) k.
Proof. intros Ha. unfold slice. rewrite drop_app_ge by done. f_equal. lia. Qed.

Lemma slice_skip {A} n a b (l k : list A) : length l = n -> slice (n + a) (n + b) (l ++ k) = slice a b k.
Proof. intros <-. rewrite slice_app_r by lia. f_equal; lia. Qed.

Lemma slice_all {A} n (l : list A) : length l = n -> slice 0 n l = l.
Proof. intros <-. unfold slice. rewrite drop_0. apply take_ge. lia. Qed.

Lemma slice_head {A} n (l k : list A) : length l = n -> slice 0 n (l ++ k) = l.
Proof. intros Hn. rewrite slice_app_l by lia. by apply slice_all. Qed.

Lemma slice_slice {A} a b c d (l : list A) : c + b <= d -> slice a b (slice c d l) = slice (c + a) (c + b) l.
Proof.
  intros Hb. unfold slice. rewrite skipn_firstn_comm, firstn_firstn, drop_drop.
  f_equal; lia.
Qed.

Lemma Forall_slice {A} (P : A -> Prop) a b l : Forall P l -> Forall P (slice a b l).
Proof. intros. by apply Forall_take, Forall_drop. Qed.

Lemma slice_take {A} a b n (l : list A) : b <= n -> slice a b (take n l) = slice a b l.
Proof. intros Hb. unfold slice. rewrite skipn_firstn_comm, firstn_firstn. f_equal. lia. Qed.

Lemma length_le n v : length (le n v) = n.
Proof. unfold le. by rewrite length_rev, length_bytes_of_int. Qed.

Lemma byte_le n v : Forall byte (le n v).
Proof. unfold le. apply Forall_rev, bytes_of_int_byte. Qed.

Lemma unpack_slice n off data : off + n <= length data -> unpack n off data = Ok (int_of_bytes (rev (slice off (off + n) data))).
Proof. intros Hl. unfold unpack. rewrite length_slice by lia. by replace (off + n - off) with n by lia; rewrite Nat.eqb_refl. Qed.

Lemma unpack_le n off data v : slice off (off + n) data = le n v -> (0 <= v < 256 ^ Z.of_nat n)%Z -> unpack n off data = Ok v.
Proof.
  intros Hs Hv. unfold unpack. rewrite Hs, length_le, Nat.eqb_refl. unfold le. rewrite rev_involutive. by rewrite int_of_bytes_of_int.
Qed.

Lemma unpack_bounds n off data v : Forall byte data -> unpack n off data = Ok v -> (0 <= v < 256 ^ Z.of_nat n)%Z.
Proof.
  intros Hb. unfold unpack. destruct (_ =? n)%nat eqn:E; [|done]. apply Nat.eqb_eq in E. intros [= <-].
  pose proof (int_of_bytes_bounds (rev (slice off (off + n) data)) ltac:(by apply Forall_rev, Forall_slice)) as Hi.
  by rewrite length_rev, E in Hi.
Qed.

(** Equal integers of equal slices. *)
Lemma le_unpack n off data v : Forall byte data -> unpack n off data = Ok v -> le n v = slice off (off + n) data.
Proof.
  intros Hb. unfold unpack. destruct (_ =? n)%nat eqn:E; [|done]. apply Nat.eqb_eq in E. intros [= <-]. unfold le.
  pose proof (bytes_of_int_of_bytes (rev (slice off (off + n) data)) ltac:(by apply Forall_rev, Forall_slice)) as Hi.
  rewrite length_rev, E in Hi. by rewrite Hi, rev_involutive.
Qed.

Lemma le_inj n v w : (0 <= v < 256 ^ Z.of_nat n)%Z -> (0 <= w < 256 ^ Z.of_nat n)%Z -> le n v = le n w -> v = w.
Proof.
  intros Hv Hw H. apply (f_equal (fun l => int_of_bytes (rev l))) in H. unfold le in H. rewrite !rev_involutive in H.
  by rewrite !int_of_bytes_of_int in H.
Qed.

Lemma byte_at_Ok i data : i < length data -> exists b, byte_at i data = Ok b.
Proof. intros [b Hb]%lookup_lt_is_Some. exists b. unfold byte_at. by rewrite Hb. Qed.

(** ** Text *)

Lemma str_of_bytes_of_str s : str_of_bytes (bytes_of_str s) = s.
Proof.
  unfold str_of_bytes, bytes_of_str. rewrite map_map. etrans; [|apply String.string_of_list_ascii_of_string]. f_equal.
  etrans; [|apply map_id]. apply map_ext. intros c. by rewrite Nat2Z.id, Ascii.ascii_nat_embedding.
Qed.

Lemma bytes_of_str_of_bytes l : Forall byte l -> bytes_of_str (str_of_bytes l) = l.
Proof.
  unfold bytes_of_str, str_of_bytes. intros Hl. rewrite String.list_ascii_of_string_of_list_ascii, map_map. induction Hl as [|b l Hb Hl IH]; [done|].
  cbn [map]. rewrite IH. f_equal. unfold byte in Hb. rewrite Ascii.nat_ascii_embedding by lia. lia.
Qed.

Lemma byte_of_str s : Forall byte (bytes_of_str s).
Proof.
  unfold bytes_of_str. apply Forall_map, Forall_true. intros c. unfold byte, compose. pose proof (Ascii.nat_ascii_bounded c). lia.
Qed.

(** No NUL in a name. *)
Definition no_nul (s : string) : bool := forallb (fun b => negb (b =? 0)%Z) (bytes_of_str s).

Lemma until_nul_app l k : forallb (fun b => negb (b =? 0)%Z) l = true -> until_nul (l ++ 0%Z :: k) = Some l.
Proof.
  induction l as [|b l IH]; [done|]. cbn. intros [Hb Hl]%andb_prop. apply negb_true_iff in Hb. rewrite Hb. by rewrite IH.
Qed.

Lemma until_nul_Some l : existsb (Z.eqb 0) l = true -> exists n, until_nul l = Some n.
Proof.
  induction l as [|b l IH]; [done|]. cbn [existsb until_nul]. rewrite Z.eqb_sym. destruct (b =? 0)%Z; [by eexists|]. cbn [orb].
  intros [n Hn]%IH. rewrite Hn. by eexists.
Qed.

Lemma decode_encode s raw : encode s = Ok raw -> raw = bytes_of_str s /\ decode raw = Ok s.
Proof. unfold encode. destruct (utf8_valid _) eqn:E; [|done]. intros [= <-]. split; [done|]. unfold decode. by rewrite E, str_of_bytes_of_str. Qed.

Lemma hex_text_digits n s : hex_text n s = true ->
  String.length s = n /\ forall c, c ∈ String.list_ascii_of_string s -> exists v, digit_value c = Some v.
Proof.
  unfold hex_text. intros [Hl Hs]%andb_prop. apply Nat.eqb_eq in Hl. split; [done|]. intros c Hc.
  apply (proj1 (forallb_true _ _) Hs) in Hc. destruct (digit_value c); [by eexists|done].
Qed.

Lemma digit_value_py_lower c v : digit_value c = Some v -> ascii_space (lower_char c) = false /\ digit_value (lower_char c) = Some v.
Proof.
  destruct c as [[] [] [] [] [] [] [] []]; vm_compute; intros H; first [discriminate|by split].
Qed.

Lemma fromhex_lower k s : (forall c, c ∈ String.list_ascii_of_string s -> exists v, digit_value c = Some v) ->
  String.length s = 2 * k -> exists l, bytes_fromhex (py_lower s) = Some l /\ length l = k.
Proof.
  revert s. induction k as [|k IH]; intros s Hs Hl; [destruct s; [by exists []|done]|].
  destruct s as [|a [|b s]]; cbn in Hl; try lia.
  cbn [String.list_ascii_of_string] in Hs.
  destruct (Hs a ltac:(left)) as [x Hx%digit_value_py_lower]. destruct (Hs b ltac:(right; left)) as [y Hy%digit_value_py_lower].
  destruct (IH s) as (l & Hk & Hn); [intros c Hc; apply Hs; by do 2 right|lia|].
  destruct Hx as [Hsp Hx], Hy as [_ Hy]. cbn [py_lower bytes_fromhex]. rewrite Hsp, Hx, Hy, Hk. cbn. eexists. split; [done|]. cbn. lia.
Qed.

Lemma digest_hex_fromhex v label h : digest_hex v label = Ok h -> exists l, fromhex h = Ok l /\ length l = DIGEST_BYTES.
Proof.
  unfold digest_hex. destruct v; try done. destruct (hex_text 32 s) eqn:E; [|done]. intros [= <-].
  apply hex_text_digits in E as [Hl Hs]. destruct (fromhex_lower 16 s Hs Hl) as (l & Hf & Hn). exists l.
  unfold fromhex. by rewrite Hf.
Qed.

(** ** The readers *)

(** The exceptions a computation may raise. *)
Definition raises {A} (classes : list string) (m : res A) : Prop := forall e, m = Err e -> exn_class e ∈ classes.

Lemma raises_Ok {A} C (a : A) : raises C (Ok a).
Proof. by intros e [=]. Qed.

Lemma raises_Err {A} C e : exn_class e ∈ C -> raises C (Err e : res A).
Proof. by intros He e' [= <-]. Qed.

Lemma raises_ensure C b e : exn_class e ∈ C -> raises C (ensure b e).
Proof. intros He. destruct b; [apply raises_Ok|by apply raises_Err]. Qed.

Lemma raises_bind {A B} C (m : res A) (f : A -> res B) : raises C m -> (forall a, m = Ok a -> raises C (f a)) -> raises C (m ≫= f).
Proof. intros Hm Hf. destruct m as [a|e]; cbn; [by apply Hf|]. by intros e' [= <-]; apply Hm. Qed.

Lemma raises_foldR {A S} C (f : S -> A -> res S) l s : (forall s a, a ∈ l -> raises C (f s a)) -> raises C (foldR f l s).
Proof.
  revert s; induction l as [|a l IH]; intros s Hf; [apply raises_Ok|]. cbn. apply raises_bind; [apply Hf; left|].
  intros s' _. apply IH. intros. apply Hf. by right.
Qed.

Lemma raises_mapR {A B} C (f : A -> res B) l : (forall a, a ∈ l -> raises C (f a)) -> raises C (mapR f l).
Proof.
  induction l as [|a l IH]; intros Hf; [apply raises_Ok|]. cbn. apply raises_bind; [apply Hf; left|]. intros b _.
  apply raises_bind; [apply IH; intros; apply Hf; by right|]. intros bs _. apply raises_Ok.
Qed.

Lemma raises_weaken {A} C C' (m : res A) : C ⊆ C' -> raises C m -> raises C' m.
Proof. intros HC Hm e He. by apply HC, Hm. Qed.

#[local] Hint Resolve raises_Ok : core.

Ltac raising := first
  [ apply raises_ensure; cbn; set_solver
  | apply raises_Ok
  | apply raises_bind; [|intros ? ?] ].

Section ReaderProofs.
Context `{DispatchHash}.

Lemma raises_digest_hex v label : raises ["SystemExit"] (digest_hex v label).
Proof. unfold digest_hex. destruct v as [| | | |s| |]; try destruct (hex_text 32 s); first [apply raises_Ok|apply raises_Err; cbn; set_solver]. Qed.

Lemma preflight_raises size check m enforce blob :
  (forall v, raises ["SystemExit"] (check v)) -> raises ["SystemExit"] (preflight size check m enforce blob).
Proof.
  intros Hc. unfold preflight. raising; [raising|]. match goal with H : ensure _ _ = _ |- _ => apply ensure_Ok, Nat.leb_le in H as Hl end.
  unfold REPLAY_HEADER_SIZE in Hl. rewrite !unpack_slice by lia. cbn [mbind result_bind].
  raising; [raising|]. raising; [apply Hc|]. raising; [raising|].
  do 2 (raising; [raising|]). raising.
  - destruct m as [h|]; [|raising]. raising; [apply raises_digest_hex|].
    destruct (digest_hex_fromhex _ _ _ ltac:(eassumption)) as (raw & -> & _). cbn [mbind result_bind]. raising.
  - do 3 (raising; [raising|]). raising.
Qed.

Lemma preflight_Ok size check m enforce blob n sb : Forall byte blob -> preflight size check m enforce blob = Ok (n, sb) ->
  length blob = REPLAY_HEADER_SIZE + n * size + sb /\ slice 40 56 blob = blake2b_digest (drop REPLAY_HEADER_SIZE blob) /\
  is_ok (check (int_of_bytes (rev (slice 4 8 blob)))) = true.
Proof.
  intros Hb. unfold preflight. intros (u & Hl%ensure_Ok & Hrun)%bind_Ok. apply Nat.leb_le in Hl. unfold REPLAY_HEADER_SIZE in *.
  rewrite !(unpack_slice 4 0), !(unpack_slice 4 4), !(unpack_slice 4 8), !(unpack_slice 2) in Hrun by lia. cbn [mbind result_bind] in Hrun. apply bind_Ok in Hrun as (u1 & _ & Hrun).
  apply bind_Ok in Hrun as (u2 & Hv & Hrun). apply bind_Ok in Hrun as (u3 & _ & Hrun).
  apply bind_Ok in Hrun as (count & Hcount%unpack_bounds & Hrun); [|done].
  apply bind_Ok in Hrun as (strs & Hstrs%unpack_bounds & Hrun); [|done].
  do 4 apply bind_Ok in Hrun as (? & _ & Hrun).
  apply bind_Ok in Hrun as (u4 & Hlen%ensure_Ok & Hrun). apply Z.eqb_eq in Hlen.
  apply bind_Ok in Hrun as (u5 & Hsum%ensure_Ok%bool_decide_eq_true & Hrun). injection Hrun as <- <-.
  split_and!; [|done|by rewrite (Hv : check (int_of_bytes (rev (slice 4 8 blob))) = _)]. apply Nat2Z.inj. rewrite Hlen. rewrite !Nat2Z.inj_add, Nat2Z.inj_mul, !Z2Nat.id by lia. done.
Qed.

Lemma preflight_count size check m enforce blob n sb : preflight size check m enforce blob = Ok (n, sb) ->
  n = Z.to_nat (int_of_bytes (rev (slice 16 20 blob))) /\ sb = Z.to_nat (int_of_bytes (rev (slice 20 24 blob))).
Proof.
  unfold preflight. intros (u & Hl%ensure_Ok & Hrun)%bind_Ok. apply Nat.leb_le in Hl. unfold REPLAY_HEADER_SIZE in *.
  rewrite !unpack_slice in Hrun by lia. cbn [mbind result_bind] in Hrun.
  repeat (apply bind_Ok in Hrun as (? & _ & Hrun)). by injection Hrun as <- <-.
Qed.

Lemma length_entry_at size n sb blob i : length blob = REPLAY_HEADER_SIZE + n * size + sb -> i < n ->
  length (entry_at size blob i) = size.
Proof. intros Hl Hi. unfold entry_at. rewrite length_slice; nia. Qed.

Lemma entries_of_lengths size n sb blob e : length blob = REPLAY_HEADER_SIZE + n * size + sb -> e ∈ entries_of size n blob ->
  length e = size.
Proof.
  intros Hl (i & -> & Hi%list_elem_of_In%in_seq)%list_elem_of_fmap. eapply length_entry_at; [done|lia].
Qed.

Lemma slice_join {A} a b c (l : list A) : a <= b -> b <= c -> slice a b l ++ slice b c l = slice a c l.
Proof.
  intros Hab Hbc. unfold slice. replace (drop b l) with (drop (b - a) (drop a l)) by (rewrite drop_drop; f_equal; lia).
  replace (c - a) with ((b - a) + (c - b)) by lia. by rewrite <- take_take_drop.
Qed.

(** The entries lie one after the other, and nothing lies between. *)
Lemma concat_entries size k blob :
  concat (entries_of size k blob) = slice REPLAY_HEADER_SIZE (REPLAY_HEADER_SIZE + k * size) blob.
Proof.
  induction k as [|k IH]; [by unfold slice; replace (_ - _) with 0 by lia|].
  unfold entries_of in *. rewrite seq_S, map_app, concat_app, IH. cbn [map concat]. rewrite app_nil_r. unfold entry_at.
  rewrite Nat.add_0_l. replace (k + 1) with (S k) by lia. apply slice_join; lia.
Qed.

Lemma blob_parts size n sb blob : length blob = REPLAY_HEADER_SIZE + n * size + sb ->
  blob = take REPLAY_HEADER_SIZE blob ++ concat (entries_of size n blob) ++ strings_of size n sb blob.
Proof.
  intros Hl. rewrite concat_entries. unfold strings_of. rewrite slice_join by lia.
  replace (take REPLAY_HEADER_SIZE blob) with (slice 0 REPLAY_HEADER_SIZE blob) by (unfold slice; by rewrite drop_0).
  rewrite slice_join by lia. symmetry. by apply slice_all.
Qed.

Lemma new_identity_Ok seen e seen' : new_identity seen e = Ok seen' -> exists i, identity_of e = Ok i /\ i ∉ seen /\ seen' = i :: seen.
Proof.
  unfold new_identity. intros (i & Hi & Hrun)%bind_Ok. apply bind_Ok in Hrun as (u & Hn%ensure_Ok & [= <-]).
  exists i. split_and!; [done| |done]. by apply negb_true_iff, bool_decide_eq_false in Hn.
Qed.

Lemma check_entries_Ok sb strings es seen seen' : foldR (check_entry sb strings) es seen = Ok seen' ->
  exists ids, mapR identity_of es = Ok ids /\ seen' = rev ids ++ seen /\ (NoDup seen -> NoDup seen') /\
    Forall (fun e => exists off, name_offset sb e = Ok off /\ existsb (Z.eqb 0) (drop off strings) = true /\
              byte_at ENT_MATCH_KIND e = Ok MATCH_KIND_EXACT) es.
Proof.
  revert seen; induction es as [|e es IH]; intros seen.
  - intros [= <-]. exists []. by split_and!.
  - cbn [foldR]. intros (s1 & Hs1 & Hrun)%bind_Ok. apply IH in Hrun as (ids & Hids & -> & Hnd & Hes).
    unfold check_entry in Hs1. apply bind_Ok in Hs1 as (s2 & (i & Hi & Hin & ->)%new_identity_Ok & Hs1).
    apply bind_Ok in Hs1 as (kind & Hk & Hs1). apply bind_Ok in Hs1 as (u & Hk0%ensure_Ok%Z.eqb_eq & Hs1). subst kind.
    apply bind_Ok in Hs1 as (off & Ho & Hs1). apply bind_Ok in Hs1 as (u1 & Hn%ensure_Ok & [= <-]).
    exists (i :: ids). cbn [mapR]. rewrite Hi. cbn [mbind result_bind]. rewrite Hids. cbn [mbind result_bind rev].
    split_and!; [done|by rewrite <- app_assoc| |].
    + intros Hs. apply Hnd. by constructor.
    + constructor; [by exists off|done].
Qed.

Lemma identity_of_raises e : length e = ENT_SIZE \/ length e = ENT_SIZE_V4 -> exists i, identity_of e = Ok i.
Proof. intros Hl. unfold identity_of. rewrite unpack_slice by (destruct Hl as [->| ->]; vm_compute; lia). by eexists. Qed.

Lemma new_identity_raises seen e : length e = ENT_SIZE \/ length e = ENT_SIZE_V4 -> raises ["SystemExit"] (new_identity seen e).
Proof. intros [i Hi]%identity_of_raises. unfold new_identity. rewrite Hi. cbn [mbind result_bind]. do 2 raising. Qed.

Lemma name_offset_raises sb e : 36 <= length e -> raises ["SystemExit"] (name_offset sb e).
Proof. intros Hl. unfold name_offset. rewrite unpack_slice by lia. cbn [mbind result_bind]. do 2 raising. Qed.

Lemma check_entry_raises sb strings seen e : length e = ENT_SIZE -> raises ["SystemExit"] (check_entry sb strings seen e).
Proof.
  intros Hl. unfold check_entry. raising; [by apply new_identity_raises; left|].
  destruct (byte_at_Ok ENT_MATCH_KIND e) as [k ->]; [rewrite Hl; vm_compute; lia|]. cbn [mbind result_bind]. raising; [raising|].
  raising; [apply name_offset_raises; rewrite Hl; vm_compute; lia|]. do 2 raising.
Qed.

Lemma validate_raises m enforce blob : Forall byte blob -> raises ["SystemExit"] (validate_blob m enforce blob).
Proof.
  intros Hb. unfold validate_blob. raising; [apply preflight_raises; intros; unfold check_v5; raising|].
  destruct a as [n sb]. raising; [|raising]. apply raises_foldR. intros s e He. apply check_entry_raises.
  eapply entries_of_lengths; [|done]. by eapply preflight_Ok.
Qed.

Lemma validate_Ok m enforce blob n sb : Forall byte blob -> validate_blob m enforce blob = Ok (n, sb) ->
  preflight ENT_SIZE check_v5 m enforce blob = Ok (n, sb) /\
  exists ids, mapR identity_of (entries_of ENT_SIZE n blob) = Ok ids /\ NoDup ids /\
    Forall (fun e => exists off, name_offset sb e = Ok off /\
              existsb (Z.eqb 0) (drop off (strings_of ENT_SIZE n sb blob)) = true /\
              byte_at ENT_MATCH_KIND e = Ok MATCH_KIND_EXACT) (entries_of ENT_SIZE n blob).
Proof.
  intros Hb. unfold validate_blob. intros ([n' sb'] & Hp & Hrun)%bind_Ok. apply bind_Ok in Hrun as (seen & Hf & [= -> ->]).
  split; [done|]. apply check_entries_Ok in Hf as (ids & Hids & -> & Hnd & Hes). exists ids. split_and!; [done| |done].
  specialize (Hnd (NoDup_nil_2)). rewrite app_nil_r in Hnd. by rewrite <- Permutation_rev in Hnd.
Qed.

Lemma decode_raises raw : raises ["UnicodeDecodeError"] (decode raw).
Proof. unfold decode. destruct (utf8_valid raw); [apply raises_Ok|]. apply raises_Err. cbn. set_solver. Qed.

Lemma read_entry_raises sb strings e off : length e = ENT_SIZE -> name_offset sb e = Ok off ->
  existsb (Z.eqb 0) (drop off strings) = true -> raises ["UnicodeDecodeError"] (read_entry strings e).
Proof.
  intros Hl Ho (raw & Hn)%until_nul_Some. unfold read_entry, name_offset in *. rewrite unpack_slice in Ho by (rewrite Hl; vm_compute; lia).
  cbn [mbind result_bind] in Ho. apply bind_Ok in Ho as (u & _ & [= <-]).
  rewrite !unpack_slice by (rewrite Hl; vm_compute; lia). cbn [mbind result_bind]. raising.
  - unfold name_at. change (32 + 4) with 36. rewrite Hn. cbn [of_option mbind result_bind]. apply decode_raises.
  - destruct (byte_at_Ok ENT_MATCH_KIND e) as [k ->]; [rewrite Hl; vm_compute; lia|]. apply raises_Ok.
Qed.

Lemma read_entry_wire strings e entry : read_entry strings e = Ok entry -> e_wire_entry entry = e.
Proof. unfold read_entry. intros H0. by repeat (apply bind_Ok in H0 as (? & _ & H0)); injection H0 as <-. Qed.

Lemma header_of_Ok blob : REPLAY_HEADER_SIZE <= length blob -> exists h, header_of blob = Ok h.
Proof. unfold REPLAY_HEADER_SIZE. intros Hl. unfold header_of. rewrite !unpack_slice by lia. by eexists. Qed.

End ReaderProofs.
(** ** Theorem *)

(** C30 The reader of replay caches is safe on any bytes: the preflight check
    raises nothing but SystemExit, and what the reader may raise besides is
    only the decoding error of a name, so no read is ever out of bounds.  A
    file that passes is exactly its header, as many entries as the header says
    and its string table, with nothing left over; no two entries have the same
    dispatch, manifest, revision and generation; every entry is read, in order,
    from its own 93 bytes, and says that it is an exact match.  Nothing behind
    the header can be changed without a collision of the hash, and no file is
    read by the readers of both versions. *)
Theorem cache_reader_exact `{DispatchHash} m enforce blob :
  Forall byte blob ->
  raises ["SystemExit"] (validate_blob m enforce blob) /\
  raises ["SystemExit"; "UnicodeDecodeError"] (read_cache enforce blob) /\
  forall n sb, validate_blob m enforce blob = Ok (n, sb) ->
    let es := entries_of ENT_SIZE n blob in
    blob = take REPLAY_HEADER_SIZE blob ++ concat es ++ strings_of ENT_SIZE n sb blob /\
    length blob = REPLAY_HEADER_SIZE + n * ENT_SIZE + sb /\
    (exists ids, mapR identity_of es = Ok ids /\ NoDup ids) /\
    (forall header entries, read_cache enforce blob = Ok (header, entries) ->
       map e_wire_entry entries = es /\ forall e, e ∈ entries -> e_match_kind e = Some MATCH_KIND_EXACT) /\
    (forall blob' n' sb', take REPLAY_HEADER_SIZE blob' = take REPLAY_HEADER_SIZE blob -> Forall byte blob' ->
       validate_blob m enforce blob' = Ok (n', sb') ->
       blake2b_digest (drop REPLAY_HEADER_SIZE blob') = blake2b_digest (drop REPLAY_HEADER_SIZE blob)) /\
    (forall enforce', is_ok (read_cache_legacy_v4 enforce' blob) = false).
Proof.
  intros Hb. split_and!; [by apply validate_raises|..].
  - unfold read_cache. raising; [eapply raises_weaken, validate_raises; [set_solver|done]|]. destruct a as [n sb].
    apply validate_Ok in H0 as (Hp & ids & _ & _ & Hes); [|done]. apply preflight_Ok in Hp as (Hl & _); [|done].
    destruct (header_of_Ok blob) as [h ->]; [lia|]. cbn [mbind result_bind]. raising; [|raising].
    apply raises_mapR. intros e He. rewrite Forall_forall in Hes. destruct (Hes e He) as (off & Ho & Hn & _).
    eapply raises_weaken, read_entry_raises; [set_solver|by eapply entries_of_lengths|done..].
  - intros n sb Hv. pose proof Hv as (Hp & ids & Hids & Hnd & Hes)%validate_Ok; [|done].
    pose proof Hp as (Hl & Hsum & Hver)%preflight_Ok; [|done]. cbv zeta. split_and!; [by apply blob_parts|done|by exists ids|..].
    + intros header entries Hr. unfold read_cache in Hr. apply bind_Ok in Hr as ([n' sb'] & Hv' & Hr).
      apply validate_Ok in Hv' as (Hp' & _); [|done].
      apply bind_Ok in Hr as (h & _ & Hr). apply bind_Ok in Hr as (es' & Hes' & [= _ <-]).
      destruct (preflight_count _ _ _ _ _ _ _ Hp) as [En Es]. destruct (preflight_count _ _ _ _ _ _ _ Hp') as [En' Es'].
      rewrite <- En in En'. rewrite <- Es in Es'. subst n' sb'. clear En Es.
      apply mapR_Ok in Hes'. clear Hids Hv. induction Hes' as [|e en es1 es2 He Hes' IH]; [split; [done|by intros ? ?%elem_of_nil]|].
      apply Forall_cons in Hes as [(off & _ & _ & Hk) Hes]. destruct (IH Hes) as [Hm Hx]. split.
      * cbn. by rewrite Hm, (read_entry_wire _ _ _ He).
      * intros x [->|Hin]%elem_of_cons; [|by apply Hx]. unfold read_entry in He. rewrite Hk in He.
        repeat (apply bind_Ok in He as (? & ? & He)). injection He as <-. cbn. congruence.
    + intros blob' n' sb' Hh Hb' Hv'. apply validate_Ok in Hv' as (Hp' & _); [|done].
      apply preflight_Ok in Hp' as (_ & Hsum' & _); [|done]. rewrite <- Hsum, <- Hsum'.
      transitivity (slice 40 56 (take REPLAY_HEADER_SIZE blob')); [by rewrite slice_take|]. rewrite Hh. by rewrite slice_take.
    + intros enforce'. destruct (read_cache_legacy_v4 enforce' blob) as [r|] eqn:E; [|done]. unfold read_cache_legacy_v4 in E.
      apply bind_Ok in E as ([n' sb'] & Hp' & _). apply preflight_Ok in Hp' as (_ & _ & Hv4); [|done].
      unfold check_v5, check_v4, ensure in *. destruct (_ =? REPLAY_VERSION)%Z eqn:E5; [|done]. apply Z.eqb_eq in E5.
      rewrite E5 in Hv4. done.
Qed.

(** ** Concrete caches *)

(** A hash that tells short files apart. *)
#[local] Instance toy_hash : DispatchHash :=
  {| blake2b_digest data := le 16 (fold_left (fun a b => (a * 257 + b + 1) mod 2 ^ 128)%Z data 0%Z) |}.

#[local] Instance toy_laws : DispatchHashLaws.
Proof. split; intros; [apply length_le|apply byte_le]. Qed.

Definition demo_entry (name_at_ kind : Z) (extra : bytes) : bytes :=
  repeat 17%Z 16 ++ repeat 34%Z 16 ++ le 4 name_at_ ++ le 2 1 ++ repeat 0%Z 16 ++ repeat 51%Z 16 ++ repeat 68%Z 16 ++ le 4 7
  ++ (if (kind <? 0)%Z then [] else le 2 9 ++ [kind]) ++ extra.

Definition demo_cache (version : Z) (entries : list bytes) (strings : bytes) : bytes :=
  let payload := concat entries ++ strings in
  le 4 MAGIC ++ le 4 version ++ le 4 1 ++ le 2 2 ++ le 2 1 ++ le 4 (Z.of_nat (length entries)) ++ le 4 (Z.of_nat (length strings))
  ++ repeat 85%Z 16 ++ blake2b_digest payload ++ payload.

Definition demo_blob : bytes := demo_cache 5 [demo_entry 3 0 []] (bytes_of_str "xy" ++ [0%Z] ++ bytes_of_str "fast" ++ [0%Z]).

Example demo_read :
  match read_cache true demo_blob with
  | Ok (h, [e]) => (h_manifest_hash h, e_winner e, e_generation e, e_transform_id e)
      = ("55555555555555555555555555555555", "fast", 7%Z, 9%Z)
  | _ => False
  end.
Proof. vm_compute. reflexivity. Qed.

(** An entry that is cut short, a second entry of the same identity, and a key
    form of the future are refused. *)
Example demo_refused :
  (is_ok (validate_blob None true (removelast demo_blob)),
   is_ok (validate_blob None true (demo_cache 5 [demo_entry 0 0 []; demo_entry 1 0 []] [120; 0; 0]%Z)),
   is_ok (validate_blob None true (demo_cache 5 [demo_entry 0 1 []] [120; 0]%Z)))
  = (false, false, false).
Proof. vm_compute. reflexivity. Qed.

(** The reader of version 4 does not look for the NUL before it looks the name
    up: a table without one is a ValueError, not the SystemExit of every other
    structural defect. *)
Example v4_unterminated_is_value_error :
  (match read_cache_legacy_v4 true (demo_cache 4 [demo_entry 0 (-1) []] [120]%Z) with Err e => exn_class e | Ok _ => "" end,
   match read_cache true (demo_cache 5 [demo_entry 0 0 []] [120]%Z) with Err e => exn_class e | Ok _ => "" end)
  = ("ValueError", "SystemExit").
Proof. vm_compute. reflexivity. Qed.

Lemma demo_blob_bytes : Forall byte demo_blob.
Proof. apply Forall_forall. intros b Hb. refine (_ (proj1 (forallb_true (fun b => (0 <=? b)%Z && (b <? 256)%Z) demo_blob) _ b Hb)).
  - intros [H1%Z.leb_le H2%Z.ltb_lt]%andb_prop. by split.
  - vm_compute. reflexivity.
Qed.

Lemma cache_reader_exact_witness :
  validate_blob None true demo_blob = Ok (1, 8) /\
  demo_blob = take REPLAY_HEADER_SIZE demo_blob ++ concat (entries_of ENT_SIZE 1 demo_blob) ++ strings_of ENT_SIZE 1 8 demo_blob.
Proof.
  assert (validate_blob None true demo_blob = Ok (1, 8)) as Hv by (vm_compute; reflexivity). split; [exact Hv|].
  destruct (cache_reader_exact None true demo_blob demo_blob_bytes) as (_ & _ & Hall). exact (proj1 (Hall 1 8 Hv)).
Defined.

End Wire.
