(* ===== verification/Winners.v ===== *)
(** The selection of replay winners: provenance, the portable key and
    [select_newest_winners] of [src/tools/bigcherry/tuning/replay.py].

    A record is a decoded object; one that was read from a cache carries the
    bytes of its entry as well.  Texts are held as their UTF-8 bytes. *)

From S2P Require Import Prelude Json Capabilities Wire.

Module Winners.
Import Json Capabilities Wire.

Notation obj := (list (string * json)).

Record Rec : Type := mkRec { fields : obj; wire_entry : option (list Z) }.

(** [record.get(k)] *)
Definition field (o : obj) (k : string) : json := get_or o k JNull.

(** What [read_cache] gives for an entry. *)
Definition entry_record (e : Entry) : Rec :=
  mkRec [("portable_key", JStr (e_portable_key e)); ("dispatch", JStr (e_portable_key e)); ("signature", JStr (e_signature e));
         ("winner", JStr (e_winner e)); ("manifest_hash", JStr (e_manifest_hash e));
         ("source_revision_digest", JStr (e_source_revision_digest e)); ("generation", JInt (e_generation e));
         ("transform_id", JInt (e_transform_id e)); ("match_kind", jopt JInt (e_match_kind e))]
    (Some (e_wire_entry e)).

Definition validate_provenance_namespace (value : json) (where_ : string) : res obj :=
  match value with
  | JObj o =>
      let bad := SystemExit (where_ +:+ ".source_revision must be a 20-byte hexadecimal revision") in
      revision ← match field o "source_revision" with JStr r => if hex_text 40 r then Ok r else Err bad | _ => Err bad end;
      manifest ← digest_hex (field o "manifest_hash") (where_ +:+ ".manifest_hash");
      descriptor ← match field o "build_descriptor_hash" with
        | JNull => Ok []
        | v => d ← digest_hex v (where_ +:+ ".build_descriptor_hash"); Ok [("build_descriptor_hash", JStr d)]
        end;
      variant_set ← match field o "variant_set" with
        | JNull => Ok []
        | v => match v with
               | JStr s => if blank s then Err (SystemExit (where_ +:+ ".variant_set must be a non-empty string"))
                           else Ok [("variant_set", JStr s)]
               | _ => Err (SystemExit (where_ +:+ ".variant_set must be a non-empty string"))
               end
        end;
      Ok ([("source_revision", JStr (py_lower revision)); ("manifest_hash", JStr manifest)] ++ descriptor ++ variant_set)
  | _ => Err (SystemExit (where_ +:+ " must be an object"))
  end.

(** [p in s] *)
Fixpoint occurs (p s : string) : bool :=
  startswith p s || match s with String _ s' => occurs p s' | EmptyString => false end.

(** [k in value] *)
Definition contains_key (k : string) (value : json) : res bool :=
  match value with
  | JObj o => Ok (has_key o k)
  | JArr l => Ok (existsb (py_eqb (JStr k)) l)
  | JStr s => Ok (occurs k s)
  | v => Err (TypeError ("argument of type '" +:+ type_name v +:+ "' is not iterable"))
  end.

(** A winner as the selection leaves it: the fields it writes to the record,
    and the record. *)
Record Winner : Type := mkWinner {
  w_key : string;
  w_generation : Z;
  w_identity : string * string;    (**r digest of the source revision, manifest *)
  w_winner : string;
  w_provenance : obj;
  w_record : Rec;
}.

Section Selection.
Context `{DispatchHash}.

Definition source_revision_digest (source_revision : json) : res string :=
  match source_revision with
  | JStr r => if hex_text 40 r then Ok (bytes_hex (blake2b_digest (bytes_of_str (py_lower r))))
              else Err (SystemExit "source_revision must be a 20-byte hexadecimal revision")
  | _ => Err (SystemExit "source_revision must be a 20-byte hexadecimal revision")
  end.

Definition portable_tuning_key (hardware signature objective : json) : res string :=
  hardware ← digest_hex hardware "hardware digest";
  signature ← digest_hex signature "signature digest";
  match objective with
  | JStr o =>
      _ ← ensure (truthy o) (SystemExit "objective must be a non-empty string");
      Ok (bytes_hex (blake2b_digest (bytes_of_str
            (dumps (JObj [("hardware", JStr hardware); ("objective", JStr o); ("signature", JStr signature)])))))
  | _ => Err (SystemExit "objective must be a non-empty string")
  end.

(** The provenance of a record: its own, or what its fields say. *)
Definition raw_provenance (index : nat) (record : obj) : res json :=
  match field record "provenance" with
  | JNull =>
      match field record "source_revision_digest" with
      | JNull =>
          Ok (JObj (List.filter (fun kv => str_in kv.1 ["source_revision"; "manifest_hash"; "build_descriptor_hash"; "variant_set"]) record))
      | d =>
          manifest ← digest_hex (field record "manifest_hash") ("winner record " +:+ show_nat index +:+ ".manifest_hash");
          revision_digest ← digest_hex d ("winner record " +:+ show_nat index +:+ ".source_revision_digest");
          Ok (JObj [("manifest_hash", JStr manifest); ("source_revision_digest", JStr revision_digest)])
      end
  | p => Ok p
  end.

Definition provenance_of (index : nat) (record : obj) : res obj :=
  provenance ← raw_provenance index record;
  known ← contains_key "source_revision_digest" provenance;
  let at_ := "winner record " +:+ show_nat index +:+ ".provenance" in
  if (known : bool) then
    match provenance with
    | JObj p =>
        manifest ← digest_hex (field p "manifest_hash") (at_ +:+ ".manifest_hash");
        revision_digest ← digest_hex (field p "source_revision_digest") (at_ +:+ ".source_revision_digest");
        Ok [("manifest_hash", JStr manifest); ("source_revision_digest", JStr revision_digest)]
    | v => Err (no_get v)
    end
  else validate_provenance_namespace provenance at_.

(** [(provenance.get("source_revision_digest") or source_revision_digest(provenance["source_revision"]),
    provenance["manifest_hash"])] *)
Definition identity_in (provenance : obj) : res (string * string) :=
  revision ← match field provenance "source_revision_digest" with
    | JStr d => if truthy d then Ok d else v ← item provenance "source_revision"; source_revision_digest v
    | _ => v ← item provenance "source_revision"; source_revision_digest v
    end;
  manifest ← item_str provenance "manifest_hash";
  Ok (revision, manifest).

(** What the loop does with a record before it looks at the others. *)
Definition normalize (index : nat) (original : Rec) : res Winner :=
  let record := fields original in
  provenance ← provenance_of index record;
  generation ← match get_or record "generation" (JInt 0) with
    | JInt g => if (0 <=? g)%Z then Ok g
                else Err (SystemExit ("winner record " +:+ show_nat index +:+ ".generation must be a non-negative integer"))
    | _ => Err (SystemExit ("winner record " +:+ show_nat index +:+ ".generation must be a non-negative integer"))
    end;
  key ← match field record "portable_key" with
    | JNull => k ← portable_tuning_key (field record "hardware") (field record "signature") (get_or record "objective" (JStr "latency"));
               Ok (JStr k)
    | v => Ok v
    end;
  key ← digest_hex key ("winner record " +:+ show_nat index +:+ ".portable_key");
  winner ← match field record "winner" with
    | JStr w => if truthy w then Ok w
                else Err (SystemExit ("winner record " +:+ show_nat index +:+ ".winner must be a non-empty string"))
    | _ => Err (SystemExit ("winner record " +:+ show_nat index +:+ ".winner must be a non-empty string"))
    end;
  identity ← identity_in provenance;
  Ok (mkWinner key generation identity winner provenance original).

Notation generation_map := (gmap (string * string) Winner).
Notation grouping := (gmap string (gmap Z generation_map)).

Definition bucket (grouped : grouping) (key : string) : gmap Z generation_map := default ∅ (grouped !! key).
Definition existing (grouped : grouping) (key : string) (generation : Z) : generation_map :=
  default ∅ (bucket grouped key !! generation).

Definition group (grouped : grouping) (w : Winner) : res grouping :=
  let old := existing grouped (w_key w) (w_generation w) in
  _ ← ensure (match old !! w_identity w with Some prior => String.eqb (w_winner prior) (w_winner w) | None => true end)
        (SystemExit ("conflicting winners for portable key " +:+ w_key w +:+ " generation " +:+ show_Z (w_generation w)));
  Ok (<[w_key w := <[w_generation w := <[w_identity w := w]> old]> (bucket grouped (w_key w))]> grouped).

Definition group_record (grouped : grouping) (ir : nat * Rec) : res grouping :=
  w ← normalize ir.1 ir.2; group grouped w.

Definition descending (x y : Z) : bool := (y <=? x)%Z.

Definition by_identity (a b : string * string) : bool := lex_leb String.leb String.leb a b.

(** The winners of one generation, in the order of their identities. *)
Definition of_generation (g : generation_map) : list Winner :=
  omap (fun i => g !! i) (py_sorted by_identity (map fst (map_to_list g))).

Definition of_key (keep : nat) (b : gmap Z generation_map) : list Winner :=
  concat (map (fun n => of_generation (default ∅ (b !! n))) (firstn keep (py_sorted descending (map fst (map_to_list b))))).

Definition select_newest_winners (records : list Rec) (keep_generations : Z) : res (list Winner) :=
  _ ← ensure (1 <=? keep_generations)%Z (SystemExit "keep_generations must be a positive integer");
  grouped ← foldR group_record (combine (seq 0 (length records)) records) ∅;
  Ok (concat (map (fun key => of_key (Z.to_nat keep_generations) (bucket grouped key))
                (py_sorted String.leb (map fst (map_to_list grouped))))).

End Selection.

(** ** Sorted lists *)

#[global] Instance descending_total : TotalLeb descending.
Proof. split; unfold descending; intros; rewrite ?Z.leb_le in *; lia. Qed.

#[global] Instance descending_antisym : AntisymLeb descending.
Proof. intros x y. unfold descending. rewrite !Z.leb_le. lia. Qed.

#[global] Instance by_identity_total : TotalLeb by_identity.
Proof. unfold by_identity. split; intros; [apply (leb_refl (leb := lex_leb String.leb String.leb))|by eapply (leb_trans (leb := lex_leb String.leb String.leb))|apply (leb_total (leb := lex_leb String.leb String.leb))]. Qed.

#[global] Instance by_identity_antisym : AntisymLeb by_identity.
Proof. intros x y. apply (leb_antisym (leb := lex_leb String.leb String.leb)). Qed.

(** In order, and no two alike. *)
Definition strictly {A} (leb : A -> A -> bool) (x y : A) : Prop := leb x y = true /\ x <> y.

Lemma strictly_sorted {A} (leb : A -> A -> bool) `{!TotalLeb leb} l : NoDup l -> StronglySorted (strictly leb) (py_sorted leb l).
Proof.
  intros Hnd. pose proof (py_sorted_StronglySorted leb l) as Hs. rewrite <- (NoDup_py_sorted leb) in Hnd. revert Hs Hnd.
  generalize (py_sorted leb l). clear l. intros l. induction 1 as [|x l Hl IH Hx]; intros Hnd; constructor.
  - by apply IH; inversion Hnd.
  - apply NoDup_cons in Hnd as [Hn _]. rewrite Forall_forall in Hx. apply Forall_forall. intros y Hy. split; [by apply Hx|]. by intros <-.
Qed.

Lemma sorted_omap {A B} (S : A -> A -> Prop) (R : B -> B -> Prop) (f : A -> option B) l :
  (forall a b x y, S a b -> f a = Some x -> f b = Some y -> R x y) -> StronglySorted S l -> StronglySorted R (omap f l).
Proof.
  intros Hf. induction 1 as [|a l Hl IH Ha]; [constructor|]. cbn. destruct (f a) as [x|] eqn:E; [|done]. constructor; [done|].
  rewrite Forall_forall in Ha. apply Forall_forall. intros y (b & Hb & Hy)%list_elem_of_omap. by eapply Hf; [apply Ha|..].
Qed.

Lemma sorted_app {A} (R : A -> A -> Prop) l k : StronglySorted R l -> StronglySorted R k ->
  (forall x y, x ∈ l -> y ∈ k -> R x y) -> StronglySorted R (l ++ k).
Proof.
  intros Hl Hk HR. induction Hl as [|x l Hl IH Hx]; [done|]. cbn. constructor.
  - apply IH. intros. apply HR; [by right|done].
  - apply Forall_app. split; [done|]. apply Forall_forall. intros y Hy. apply HR; [left|done].
Qed.

Lemma sorted_concat {A B} (S : A -> A -> Prop) (R : B -> B -> Prop) (f : A -> list B) l :
  (forall a, StronglySorted R (f a)) -> (forall a b x y, S a b -> x ∈ f a -> y ∈ f b -> R x y) ->
  StronglySorted S l -> StronglySorted R (concat (map f l)).
Proof.
  intros Hf HR. induction 1 as [|a l Hl IH Ha]; [constructor|]. cbn. apply sorted_app; [apply Hf|done|].
  intros x y Hx Hy. apply list_elem_of_In, in_concat in Hy as (ys & (b & <- & Hb)%in_map_iff & Hy%list_elem_of_In). apply list_elem_of_In in Hb. rewrite Forall_forall in Ha.
  eapply HR; [by apply Ha|done..].
Qed.

Lemma sorted_take {A} (R : A -> A -> Prop) k l : StronglySorted R l -> StronglySorted R (firstn k l).
Proof. intros Hl. apply (sublist_StronglySorted R (firstn k l) l); [apply sublist_take|done]. Qed.

(** The first [k] of a descending list are those with fewer than [k] above. *)
Lemma elem_of_newest k l n : NoDup l ->
  n ∈ firstn k (py_sorted descending l) <-> n ∈ l /\ length (List.filter (fun m => n <? m)%Z l) < k.
Proof.
  intros Hnd. assert (length (List.filter (fun m => n <? m)%Z l) = length (List.filter (fun m => n <? m)%Z (py_sorted descending l))) as ->.
  { apply Permutation_length. by rewrite <- (py_sorted_perm descending l) at 1. }
  rewrite <- (elem_of_py_sorted descending n l). pose proof (strictly_sorted descending l Hnd) as Hs. revert k Hs.
  generalize (py_sorted descending l). clear. intros l k Hs. revert k. induction Hs as [|x l Hl IH Hx]; intros k.
  - destruct k; cbn; split; try set_solver; by intros [?%elem_of_nil _].
  - rewrite Forall_forall in Hx. assert (forall y, y ∈ l -> (y < x)%Z) as Hlt.
    { intros y Hy. specialize (Hx y Hy) as [Hd Hne]. unfold descending in Hd. apply Z.leb_le in Hd. lia. }
    destruct k as [|k]; [cbn; split; [by intros ?%elem_of_nil|lia]|]. cbn [firstn List.filter]. rewrite !elem_of_cons, IH.
    destruct (n <? x)%Z eqn:E; [apply Z.ltb_lt in E|apply Z.ltb_ge in E]; cbn [length].
    + split; [intros [->|[H1 H2]]; [lia|split; [by right|lia]]|]. intros [[->|H1] H2]; [lia|right; split; [done|lia]].
    + assert (List.filter (fun m => n <? m)%Z l = []) as ->.
      { apply filterb_nil. intros y Hy. apply Z.ltb_ge. specialize (Hlt y Hy). lia. }
      cbn. split; [intros [->|[H1 H2]]; (split; [by auto|lia])|]. intros [[->|H1] _]; [by left|].
      exfalso. specialize (Hlt n H1). lia.
Qed.

(** ** Groups *)

(** The place of a winner: its key, generation and identity; and the order of
    the places, newest generation first. *)
Definition slot (w : Winner) : string * (Z * (string * string)) := (w_key w, (w_generation w, w_identity w)).

Definition place_leb (p q : string * (Z * (string * string))) : bool :=
  lex_leb String.leb (lex_leb descending by_identity) p q.

#[global] Instance place_total : TotalLeb place_leb.
Proof. exact (_ : TotalLeb (lex_leb String.leb (lex_leb descending by_identity))). Qed.

#[global] Instance place_antisym : AntisymLeb place_leb.
Proof. exact (_ : AntisymLeb (lex_leb String.leb (lex_leb descending by_identity))). Qed.

(** Earlier in the order, at another place. *)
Definition before (v w : Winner) : Prop := strictly place_leb (slot v) (slot w).

Notation generation_map := (gmap (string * string) Winner).
Notation grouping := (gmap string (gmap Z generation_map)).

Definition find (g : grouping) (p : string * (Z * (string * string))) : option Winner := existing g p.1 p.2.1 !! p.2.2.

Definition put (w : Winner) (g : grouping) : grouping :=
  <[w_key w := <[w_generation w := <[w_identity w := w]> (existing g (w_key w) (w_generation w))]> (bucket g (w_key w))]> g.

Lemma group_Ok g w g' : group g w = Ok g' <->
  g' = put w g /\ forall prior, find g (slot w) = Some prior -> w_winner prior = w_winner w.
Proof.
  unfold group, find, slot, put. cbn [fst snd]. split.
  - intros (u & Hp%ensure_Ok & [= <-])%bind_Ok. split; [done|]. intros prior Hprior. rewrite Hprior in Hp. by apply String.eqb_eq.
  - intros [-> Hp]. destruct (_ !! w_identity w) as [prior|]; [|done]. rewrite (Hp prior eq_refl). by rewrite String.eqb_refl.
Qed.

Lemma bucket_put w g k : bucket (put w g) k =
  if decide (k = w_key w) then <[w_generation w := <[w_identity w := w]> (existing g (w_key w) (w_generation w))]> (bucket g (w_key w))
  else bucket g k.
Proof.
  unfold bucket at 1, put. destruct (decide (k = w_key w)) as [->|Hne]; [by rewrite lookup_insert_eq|by rewrite lookup_insert_ne].
Qed.

Lemma find_put w g p : find (put w g) p = if decide (p = slot w) then Some w else find g p.
Proof.
  destruct p as [k [n i]]. unfold find, existing at 1, slot. cbn [fst snd]. rewrite bucket_put.
  destruct (decide (k = w_key w)) as [->|Hk]; [|rewrite decide_False by congruence; done].
  destruct (decide (n = w_generation w)) as [->|Hn].
  - rewrite lookup_insert_eq. cbn [default from_option id]. destruct (decide (i = w_identity w)) as [->|Hi].
    + by rewrite lookup_insert_eq, decide_True.
    + rewrite lookup_insert_ne, decide_False by congruence. done.
  - rewrite lookup_insert_ne, decide_False by congruence. done.
Qed.

(** Every winner is at its own place, and no generation is empty. *)
Record grouped_ok (g : grouping) : Prop := {
  in_place : forall p w, find g p = Some w -> slot w = p;
  in_use : forall k n m, bucket g k !! n = Some m -> exists i w, m !! i = Some w;
}.

Lemma find_empty p : find ∅ p = None.
Proof. unfold find, existing, bucket. rewrite lookup_empty. cbn. by rewrite !lookup_empty. Qed.

Lemma grouped_empty : grouped_ok ∅.
Proof. split; intros *; [by rewrite find_empty|]. unfold bucket. rewrite lookup_empty. cbn. by rewrite lookup_empty. Qed.

Lemma grouped_put g w : grouped_ok g -> grouped_ok (put w g).
Proof.
  intros [Hp Hu]. split.
  - intros p v. rewrite find_put. case_decide; [by intros [= <-]|apply Hp].
  - intros k n m. rewrite bucket_put. case_decide; [|apply Hu]. subst k. destruct (decide (n = w_generation w)) as [->|Hn].
    + rewrite lookup_insert_eq. intros [= <-]. exists (w_identity w), w. by rewrite lookup_insert_eq.
    + rewrite lookup_insert_ne by done. apply Hu.
Qed.

(** What a run of the loop has grouped: of each place the last winner. *)
Lemma group_all ns g g' : grouped_ok g -> foldR group ns g = Ok g' ->
  grouped_ok g' /\
  (forall p w, find g' p = Some w -> find g p = Some w \/ w ∈ ns) /\
  (forall p w, find g p = Some w \/ w ∈ ns /\ slot w = p -> exists v, find g' p = Some v /\ w_winner v = w_winner w).
Proof.
  revert g; induction ns as [|w ns IH]; intros g Hg; cbn [foldR].
  - intros [= <-]. split_and!; [done|by left|]. intros p w [Hw|[?%elem_of_nil _]]; [by exists w|done].
  - intros (g1 & [-> Hsame]%group_Ok & Hrun)%bind_Ok. destruct (IH _ (grouped_put _ w Hg) Hrun) as (Hg' & Hin & Hout).
    split_and!; [done|..].
    + intros p v [Hv|Hv]%Hin; [|by right; right]. rewrite find_put in Hv. case_decide; [|by left]. injection Hv as <-. right. left.
    + intros p v Hv. destruct Hv as [Hv|[[->|Hv]%elem_of_cons Hp]].
      * destruct (decide (p = slot w)) as [->|Hne].
        -- destruct (Hout (slot w) w) as (x & Hx & Hxw); [left; by rewrite find_put, decide_True|]. exists x. split; [done|].
           rewrite Hxw. symmetry. by apply Hsame.
        -- destruct (Hout p v) as (x & Hx); [left; by rewrite find_put, decide_False|by exists x].
      * apply Hout. left. by rewrite find_put, decide_True.
      * apply Hout. by right.
Qed.

(** Winners at one place agree. *)
Definition agree (ns : list Winner) : Prop :=
  forall v w, v ∈ ns -> w ∈ ns -> slot v = slot w -> w_winner v = w_winner w.

Lemma group_all_ok ns g : grouped_ok g -> agree ns ->
  (forall v w, find g (slot w) = Some v -> w ∈ ns -> w_winner v = w_winner w) -> exists g', foldR group ns g = Ok g'.
Proof.
  revert g; induction ns as [|w ns IH]; intros g Hg Ha Hold; cbn [foldR]; [by eexists|].
  assert (group g w = Ok (put w g)) as ->.
  { apply group_Ok. split; [done|]. intros prior Hp. apply Hold; [done|left]. }
  cbn [mbind result_bind]. apply IH; [by apply grouped_put|intros v x Hv Hx; apply Ha; by right|].
  intros v x. rewrite find_put. case_decide as E.
  - intros [= <-] Hx. apply Ha; [left|by right|done].
  - intros Hv Hx. apply Hold; [done|by right].
Qed.

Lemma group_all_agree ns g g' : grouped_ok g -> foldR group ns g = Ok g' -> agree ns.
Proof.
  intros Hg Hrun v w Hv Hw Hs. destruct (group_all _ _ _ Hg Hrun) as (_ & _ & Hout).
  destruct (Hout (slot v) v) as (x & Hx & <-); [by right|]. destruct (Hout (slot v) w) as (y & Hy & <-); [by right|]. congruence.
Qed.

(** ** What comes out *)

Definition chosen (keep : nat) (g : grouping) : list Winner :=
  concat (map (fun key => of_key keep (bucket g key)) (py_sorted String.leb (map fst (map_to_list g)))).

Lemma elem_of_keys `{Countable K} {A} (m : gmap K A) k : k ∈ map fst (map_to_list m) <-> exists a, m !! k = Some a.
Proof.
  split.
  - intros ([k' a] & -> & Hin%elem_of_map_to_list)%list_elem_of_fmap. by exists a.
  - intros [a Ha]. apply (list_elem_of_fmap_2 fst _ (k, a)). by apply elem_of_map_to_list.
Qed.

Lemma elem_of_of_generation m w : w ∈ of_generation m <-> exists i, m !! i = Some w.
Proof.
  unfold of_generation. rewrite list_elem_of_omap. split; [intros (i & _ & Hi); by exists i|]. intros [i Hi]. exists i.
  split; [|done]. apply elem_of_py_sorted, elem_of_keys. by eexists.
Qed.

Lemma elem_of_of_key keep b w :
  w ∈ of_key keep b <-> exists n m, n ∈ firstn keep (py_sorted descending (map fst (map_to_list b))) /\ b !! n = Some m /\ w ∈ of_generation m.
Proof.
  unfold of_key. rewrite list_elem_of_In, in_concat. split.
  - intros (l & (n & <- & Hn)%in_map_iff & Hw). apply list_elem_of_In in Hn, Hw. exists n.
    destruct (b !! n) as [m|] eqn:E; [by exists m|]. apply elem_of_of_generation in Hw as [i Hi]. cbn in Hi. by rewrite lookup_empty in Hi.
  - intros (n & m & Hn & Hm & Hw). exists (of_generation (default ∅ (b !! n))). split.
    + apply in_map_iff. exists n. split; [done|]. by apply list_elem_of_In.
    + apply list_elem_of_In. by rewrite Hm.
Qed.

(** How many generations of its key are newer than [n]. *)
Definition newer (g : grouping) (k : string) (n : Z) : list Z :=
  List.filter (fun m => n <? m)%Z (map fst (map_to_list (bucket g k))).

Lemma elem_of_chosen keep g w : grouped_ok g ->
  w ∈ chosen keep g <-> find g (slot w) = Some w /\ length (newer g (w_key w) (w_generation w)) < keep.
Proof.
  intros Hg. unfold chosen. rewrite list_elem_of_In, in_concat. split.
  - intros (l & (k & <- & Hk)%in_map_iff & Hw). apply list_elem_of_In, elem_of_of_key in Hw as (n & m & Hn & Hm & Hw).
    apply elem_of_of_generation in Hw as [i Hi].
    assert (find g (k, (n, i)) = Some w) as Hf by (unfold find, existing; cbn [fst snd]; by rewrite Hm).
    pose proof (in_place _ Hg _ _ Hf) as Hs. rewrite Hs. split; [done|]. injection Hs as <- <- <-.
    by apply elem_of_newest in Hn as [_ Hn]; [|apply NoDup_fst_map_to_list].
  - intros [Hf Hn]. destruct (bucket g (w_key w) !! w_generation w) as [m|] eqn:Em.
    2:{ unfold find, existing, slot in Hf. cbn [fst snd] in Hf. by rewrite Em in Hf. }
    exists (of_key keep (bucket g (w_key w))). split.
    + apply in_map_iff. exists (w_key w). split; [done|]. apply list_elem_of_In, elem_of_py_sorted, elem_of_keys.
      unfold bucket in Em. destruct (g !! w_key w) as [b|]; [by eexists|]. cbn in Em. by rewrite lookup_empty in Em.
    + apply list_elem_of_In, elem_of_of_key. exists (w_generation w), m. split_and!; [|done|].
      * apply elem_of_newest; [apply NoDup_fst_map_to_list|]. split; [apply elem_of_keys; by eexists|done].
      * apply elem_of_of_generation. exists (w_identity w). unfold find, existing, slot in Hf. cbn [fst snd] in Hf. by rewrite Em in Hf.
Qed.

Lemma chosen_sorted keep g : grouped_ok g -> StronglySorted before (chosen keep g).
Proof.
  intros Hg.
  assert (forall k n m i w, bucket g k !! n = Some m -> m !! i = Some w -> slot w = (k, (n, i))) as Hslot.
  { intros k n m i w Hm Hi. apply (in_place _ Hg). unfold find, existing. cbn [fst snd]. by rewrite Hm. }
  unfold chosen. apply (sorted_concat (strictly String.leb)); [|..|apply strictly_sorted; [apply _|apply NoDup_fst_map_to_list]].
  - intros k. unfold of_key. set (l := map _ _).
    assert (StronglySorted (strictly descending) (firstn keep (py_sorted descending (map fst (map_to_list (bucket g k))))))
      as Hs by (apply sorted_take, strictly_sorted; [apply _|apply NoDup_fst_map_to_list]).
    apply (sorted_concat (strictly descending)); [|..|done].
    + intros n. unfold of_generation. eapply sorted_omap; [|apply (strictly_sorted by_identity), NoDup_fst_map_to_list].
      intros i j v w [Hle Hne] Hv Hw. destruct (bucket g k !! n) as [m|] eqn:Em; [|by cbn in Hv; rewrite lookup_empty in Hv].
      cbn in Hv, Hw. unfold before, strictly, place_leb. rewrite (Hslot _ _ _ _ _ Em Hv), (Hslot _ _ _ _ _ Em Hw). split; [|congruence].
      unfold lex_leb. cbn [fst snd]. by rewrite !decide_True by done.
    + intros n n' v w [Hle Hne] [i Hv]%elem_of_of_generation [j Hw]%elem_of_of_generation.
      destruct (bucket g k !! n) as [m|] eqn:Em; [|by cbn in Hv; rewrite lookup_empty in Hv].
      destruct (bucket g k !! n') as [m'|] eqn:Em'; [|by cbn in Hw; rewrite lookup_empty in Hw].
      cbn in Hv, Hw. unfold before, strictly, place_leb. rewrite (Hslot _ _ _ _ _ Em Hv), (Hslot _ _ _ _ _ Em' Hw). split; [|congruence].
      unfold lex_leb. cbn [fst snd]. rewrite decide_True by done. by rewrite decide_False.
  - intros k k' v w [Hle Hne] (n & m & _ & Hm & [i Hv]%elem_of_of_generation)%elem_of_of_key
      (n' & m' & _ & Hm' & [j Hw]%elem_of_of_generation)%elem_of_of_key.
    unfold before, strictly, place_leb. rewrite (Hslot _ _ _ _ _ Hm Hv), (Hslot _ _ _ _ _ Hm' Hw). split; [|congruence].
    unfold lex_leb. cbn [fst snd]. by rewrite decide_False.
Qed.

Lemma before_slots l : StronglySorted before l -> NoDup (map slot l).
Proof.
  induction 1 as [|w l Hl IH Hw]; [constructor|]. cbn. constructor; [|done].
  intros (v & Hs & Hv)%list_elem_of_fmap. rewrite Forall_forall in Hw. by destruct (Hw v Hv) as [_ []].
Qed.

(** A list in this order is determined by what is in it. *)
Lemma before_unique l k : StronglySorted before l -> StronglySorted before k -> (forall w, w ∈ l <-> w ∈ k) -> l = k.
Proof.
  intros Hl Hk Hlk. pose proof (before_slots _ Hl) as Hnl. pose proof (before_slots _ Hk) as Hnk.
  assert (forall m, StronglySorted before m -> py_sorted (on_key slot place_leb) m = m) as Hid.
  { intros m Hm. apply py_sorted_id. induction Hm as [|v m Hm IH Hv]; constructor; [done|].
    eapply Forall_impl; [exact Hv|]. by intros w [Hvw _]. }
  rewrite <- (Hid l), <- (Hid k) by done. apply py_sorted_key_perm; [apply _|apply _|done|].
  apply NoDup_Permutation; [by eapply NoDup_fmap_1|by eapply NoDup_fmap_1|done].
Qed.

(** ** Records one by one *)

Lemma map_inj {A B} (f : A -> B) l x y : NoDup (map f l) -> x ∈ l -> y ∈ l -> f x = f y -> x = y.
Proof.
  intros Hnd [i Hi]%list_elem_of_lookup_1 [j Hj]%list_elem_of_lookup_1 Hf.
  assert (i = j) as ->; [|congruence]. eapply (NoDup_lookup (map f l)); [done|rewrite list_lookup_fmap, Hi; done|].
  rewrite list_lookup_fmap, Hj. cbn. by rewrite Hf.
Qed.

(** Two computations with the same results, whatever their errors are. *)
Definition same_ok {A} (m m' : res A) : Prop := forall a, m = Ok a <-> m' = Ok a.

Lemma same_refl {A} (m : res A) : same_ok m m.
Proof. done. Qed.

Lemma same_Err {A} e e' : same_ok (Err e : res A) (Err e').
Proof. done. Qed.

Lemma same_bind {A B} (m m' : res A) (f f' : A -> res B) :
  same_ok m m' -> (forall a, same_ok (f a) (f' a)) -> same_ok (m ≫= f) (m' ≫= f').
Proof. intros Hm Hf b. rewrite !bind_Ok. split; intros (a & Ha & Hb); exists a; (split; [by apply Hm|by apply Hf]). Qed.

Lemma same_digest_hex v l l' : same_ok (digest_hex v l) (digest_hex v l').
Proof. unfold digest_hex. destruct v; try done. by destruct (hex_text 32 s). Qed.

Ltac same := repeat first
  [ apply same_refl | apply same_Err | apply same_digest_hex
  | apply same_bind; [|intros ?]
  | match goal with |- same_ok (match ?x with _ => _ end) _ => destruct x end ].

Section Spec.
Context `{DispatchHash}.

Lemma normalize_index i j r : same_ok (normalize i r) (normalize j r).
Proof. unfold normalize, provenance_of, raw_provenance, validate_provenance_namespace. cbv zeta. same. Qed.

Definition normalized (records : list Rec) : res (list Winner) :=
  mapR (fun ir => normalize ir.1 ir.2) (combine (seq 0 (length records)) records).

Lemma normalized_from k records ns :
  mapR (fun ir => normalize ir.1 ir.2) (combine (seq k (length records)) records) = Ok ns <-> mapR (normalize 0) records = Ok ns.
Proof.
  revert k ns; induction records as [|r records IH]; intros k ns; [done|]. cbn [length seq combine mapR fst snd].
  apply (same_bind _ _ _ _ (normalize_index k 0 r)). intros w. apply same_bind; [|intros; apply same_refl]. intros l. apply IH.
Qed.

Lemma mapR_perm {A B} (f : A -> res B) l k bs : l ≡ₚ k -> mapR f l = Ok bs -> exists bs', mapR f k = Ok bs' /\ bs ≡ₚ bs'.
Proof.
  intros Hp. revert bs. induction Hp as [|x l k Hp IH|x y l|l k m _ IH1 _ IH2]; intros bs; cbn.
  - intros [= <-]. by exists [].
  - intros (b & Hb & (bs' & (cs & Hcs & Hp')%IH & [= <-])%bind_Ok)%bind_Ok. exists (b :: cs). rewrite Hb. cbn. rewrite Hcs. cbn. by rewrite Hp'.
  - intros (b & Hb & (bs' & (c & Hc & (bs2 & Hbs & [= <-])%bind_Ok)%bind_Ok & [= <-])%bind_Ok)%bind_Ok. exists (c :: b :: bs2).
    rewrite Hc. cbn. rewrite Hb. cbn. rewrite Hbs. cbn. split; [done|apply Permutation_swap].
  - intros (cs & Hcs & Hp1)%IH1. destruct (IH2 _ Hcs) as (ds & Hds & Hp2). exists ds. split; [done|by rewrite Hp1].
Qed.

Lemma group_records l g g' : foldR group_record l g = Ok g' -> exists ns, mapR (fun ir => normalize ir.1 ir.2) l = Ok ns /\ foldR group ns g = Ok g'.
Proof.
  revert g; induction l as [|ir l IH]; intros g; cbn [foldR mapR]; [intros [= <-]; by exists []|].
  unfold group_record at 1. intros (g1 & (w & Hw & Hg)%bind_Ok & (ns & Hns & Hrun)%IH)%bind_Ok.
  exists (w :: ns). rewrite Hw. cbn [mbind result_bind]. rewrite Hns. cbn [mbind result_bind foldR]. by rewrite Hg.
Qed.

Lemma group_normalized l ns g : mapR (fun ir => normalize ir.1 ir.2) l = Ok ns -> foldR group_record l g = foldR group ns g.
Proof.
  revert ns g; induction l as [|ir l IH]; intros ns g; cbn [foldR mapR]; [by intros [= <-]|].
  intros (w & Hw & (ws & Hws & [= <-])%bind_Ok)%bind_Ok. cbn [foldR].
  assert (group_record g ir = group g w) as -> by (unfold group_record; by rewrite Hw).
  destruct (group g w); cbn [mbind result_bind]; [by apply IH|done].
Qed.

Lemma select_chosen records keep out : select_newest_winners records keep = Ok out ->
  (1 <= keep)%Z /\ exists ns g, normalized records = Ok ns /\ foldR group ns ∅ = Ok g /\ out = chosen (Z.to_nat keep) g.
Proof.
  unfold select_newest_winners. intros (u & Hk%ensure_Ok%Z.leb_le & Hrun)%bind_Ok. split; [done|].
  apply bind_Ok in Hrun as (g & (ns & Hns & Hg)%group_records & [= <-]). by exists ns, g.
Qed.

Lemma chosen_select records keep ns g : (1 <= keep)%Z -> normalized records = Ok ns -> foldR group ns ∅ = Ok g ->
  select_newest_winners records keep = Ok (chosen (Z.to_nat keep) g).
Proof.
  intros Hk Hns Hg. unfold select_newest_winners. rewrite (proj2 (Z.leb_le _ _) Hk). cbn [ensure mbind result_bind].
  rewrite (group_normalized _ _ _ Hns), Hg. done.
Qed.

(** How many generations of the key of [w] are newer. *)
Definition newer_than (ns : list Winner) (w : Winner) : nat :=
  size (list_to_set (map w_generation (List.filter (fun v => String.eqb (w_key v) (w_key w) && (w_generation w <? w_generation v)%Z) ns)) : gset Z).

Lemma newer_grouped ns g w : foldR group ns ∅ = Ok g -> length (newer g (w_key w) (w_generation w)) = newer_than ns w.
Proof.
  intros Hrun. destruct (group_all _ _ _ grouped_empty Hrun) as (Hg & Hin & Hout). unfold newer_than.
  rewrite <- (size_list_to_set (C := gset Z)).
  - f_equal. apply set_eq. intros n. rewrite !elem_of_list_to_set. unfold newer. rewrite elem_of_filterb, elem_of_keys, list_elem_of_fmap. split.
    + intros [[m Hm] Hn]. destruct (in_use _ Hg _ _ _ Hm) as (i & v & Hv).
      assert (find g (w_key w, (n, i)) = Some v) as Hf by (unfold find, existing; cbn [fst snd]; by rewrite Hm).
      pose proof (in_place _ Hg _ _ Hf) as Hs. injection Hs as Hsk Hsn Hsi. exists v. split; [done|]. apply elem_of_filterb. split.
      * apply Hin in Hf as [Hf|Hf]; [|done]. by rewrite find_empty in Hf.
      * by rewrite Hsk, String.eqb_refl, Hsn.
    + intros (v & -> & [Hv [Hk%String.eqb_eq Hn]%andb_prop]%elem_of_filterb). split; [|done].
      destruct (Hout (slot v) v) as (x & Hx & _); [by right|]. unfold find, existing, slot in Hx. cbn [fst snd] in Hx. rewrite <- Hk.
      destruct (bucket g (w_key v) !! w_generation v) as [m|]; [by exists m|]. by cbn in Hx; rewrite lookup_empty in Hx.
  - unfold newer. eapply sublist_NoDup; [|apply filterb_sublist]. apply NoDup_fst_map_to_list.
Qed.

End Spec.

Lemma newer_than_perm ns ns' w : ns ≡ₚ ns' -> newer_than ns w = newer_than ns' w.
Proof.
  intros Hp. unfold newer_than. f_equal. apply set_eq. intros n. rewrite !elem_of_list_to_set, !list_elem_of_fmap.
  split; intros (v & -> & [Hv Ht]%elem_of_filterb); exists v; (split; [done|]); apply elem_of_filterb; (split; [|done]).
  - by rewrite <- Hp.
  - by rewrite Hp.
Qed.

(** Without two at one place, all are found. *)
Lemma find_all ns g w : foldR group ns ∅ = Ok g -> NoDup (map slot ns) -> find g (slot w) = Some w <-> w ∈ ns.
Proof.
  intros Hg Hnd. destruct (group_all _ _ _ grouped_empty Hg) as (Hok & Hin & Hout). split.
  - intros [Hw|Hw]%Hin; [|done]. by rewrite find_empty in Hw.
  - intros Hw. destruct (Hout (slot w) w) as (v & Hv & _); [by right|]. rewrite Hv. f_equal.
    eapply (map_inj slot ns); [done| |done|by apply (in_place _ Hok)].
    apply Hin in Hv as [Hv|Hv]; [|done]. by rewrite find_empty in Hv.
Qed.

Lemma selection_facts `{DispatchHash} records keep out : select_newest_winners records keep = Ok out ->
  (1 <= keep)%Z /\ exists ns, normalized records = Ok ns /\ agree ns /\ StronglySorted before out /\
    (forall w, w ∈ out -> w ∈ ns /\ newer_than ns w < Z.to_nat keep) /\
    (forall w, w ∈ ns -> newer_than ns w < Z.to_nat keep -> exists v, v ∈ out /\ slot v = slot w /\ w_winner v = w_winner w).
Proof.
  intros (Hk & ns & g & Hns & Hg & ->)%select_chosen. split; [done|]. exists ns. destruct (group_all _ _ _ grouped_empty Hg) as (Hok & Hin & Hout).
  split_and!; [done|eapply group_all_agree; [apply grouped_empty|done]|by apply chosen_sorted|..].
  - intros w [Hf Hn]%elem_of_chosen; [|done]. rewrite <- (newer_grouped _ _ _ Hg). split; [|done].
    apply Hin in Hf as [Hf|Hf]; [by rewrite find_empty in Hf|done].
  - intros w Hw Hn. destruct (Hout (slot w) w) as (v & Hv & Hvw); [by right|]. exists v. pose proof (in_place _ Hok _ _ Hv) as Hs.
    split_and!; [|done|done]. apply elem_of_chosen; [done|]. rewrite Hs. split; [done|]. injection Hs as -> -> _.
    by rewrite (newer_grouped _ _ _ Hg).
Qed.

(** C31 The selection of replay winners keeps exactly the newest generations.
    It succeeds when every record is well formed, two records of one key,
    generation and provenance identity name the same winner, and at least one
    generation is to be kept, and only then; its result is ordered by key,
    newest generation and identity, without repetition; what it holds are
    records that were given whose generation is among the newest of their key,
    and every such record is represented at its place with its winner; and when
    no two records share a place the result does not depend on their order. *)
Theorem winners_spec `{DispatchHash} records keep :
  (is_ok (select_newest_winners records keep) = true <-> (1 <= keep)%Z /\ exists ns, normalized records = Ok ns /\ agree ns) /\
  forall out, select_newest_winners records keep = Ok out -> exists ns, normalized records = Ok ns /\ agree ns /\
    StronglySorted before out /\
    (forall w, w ∈ out -> w ∈ ns /\ newer_than ns w < Z.to_nat keep) /\
    (forall w, w ∈ ns -> newer_than ns w < Z.to_nat keep -> exists v, v ∈ out /\ slot v = slot w /\ w_winner v = w_winner w) /\
    (NoDup (map slot ns) -> forall records', records ≡ₚ records' -> select_newest_winners records' keep = Ok out).
Proof.
  split.
  - split.
    + destruct (select_newest_winners records keep) as [out|] eqn:E; [|done]. intros _.
      apply select_chosen in E as (Hk & ns & g & Hns & Hg & _). split; [done|]. exists ns. split; [done|].
      eapply group_all_agree; [apply grouped_empty|done].
    + intros (Hk & ns & Hns & Ha). destruct (group_all_ok ns ∅ grouped_empty Ha) as [g Hg].
      { intros v w Hv. by rewrite find_empty in Hv. }
      by rewrite (chosen_select _ _ _ _ Hk Hns Hg).
  - intros out Hsel. destruct (selection_facts _ _ _ Hsel) as (Hk & ns & Hns & Ha & Hs & Hin & Hall). exists ns. split_and!; try done.
    intros Hnd records' Hp. apply select_chosen in Hsel as (_ & ns0 & g & Hns0 & Hg & ->). rewrite Hns in Hns0. injection Hns0 as <-.
    destruct (group_all _ _ _ grouped_empty Hg) as (Hok & _).
    apply normalized_from in Hns. destruct (mapR_perm _ _ _ _ Hp Hns) as (ns' & Hns' & Hpn).
    apply (normalized_from 0) in Hns'. assert (NoDup (map slot ns')) as Hnd' by (by rewrite <- Hpn).
    assert (agree ns') as Ha'.
    { intros v w Hv Hw Hvw. assert (v = w) as ->; [|done]. by eapply (map_inj slot ns'). }
    destruct (group_all_ok ns' ∅ grouped_empty Ha') as [g' Hg'].
    { intros v w Hv. by rewrite find_empty in Hv. }
    rewrite (chosen_select _ _ _ _ Hk Hns' Hg'). f_equal. destruct (group_all _ _ _ grouped_empty Hg') as (Hok' & _).
    apply before_unique; [by apply chosen_sorted..|]. intros w.
    rewrite !elem_of_chosen by done. rewrite (newer_grouped _ _ _ Hg), (newer_grouped _ _ _ Hg').
    rewrite (newer_than_perm _ _ w Hpn), (find_all _ _ w Hg Hnd), (find_all _ _ w Hg' Hnd'). by rewrite Hpn.
Qed.

(** ** Concrete records *)

#[local] Existing Instance toy_hash.

Definition demo_record (key winner : string) (generation : Z) (manifest : string) (more : obj) : Rec :=
  mkRec ([("portable_key", JStr key); ("winner", JStr winner); ("generation", JInt generation);
          ("source_revision", JStr "0123456789abcdef0123456789abcdef01234567"); ("manifest_hash", JStr manifest)] ++ more) None.

Definition demo_a : string := "AAAAAAAAAAAAAAAAAAAAAAAAAAAAAAAA".
Definition demo_b : string := "bbbbbbbbbbbbbbbbbbbbbbbbbbbbbbbb".
Definition demo_records : list Rec :=
  [demo_record demo_a "one" 1 demo_b []; demo_record demo_b "other" 0 demo_b []; demo_record demo_a "three" 3 demo_b [];
   demo_record demo_a "two" 2 demo_a []].

Definition names (r : res (list Winner)) : list string := match r with Ok l => map w_winner l | Err _ => [] end.

Example demo_selected : (names (select_newest_winners demo_records 2), names (select_newest_winners (rev demo_records) 2))
  = (["three"; "two"; "other"], ["three"; "two"; "other"]).
Proof. vm_compute. reflexivity. Qed.

(** Two winners for one place are a conflict. *)
Example demo_conflict :
  is_ok (select_newest_winners [demo_record demo_a "one" 1 demo_b []; demo_record demo_a "two" 1 demo_b []] 1) = false.
Proof. vm_compute. reflexivity. Qed.

(** Only the names of two winners at one place are compared: of two records
    that differ in the transform the later one is taken, so the selection
    depends on the order after all. *)
Example transform_conflict_undetected :
  let one := demo_record demo_a "one" 1 demo_b [("transform_id", JInt 1)] in
  let two := demo_record demo_a "one" 1 demo_b [("transform_id", JInt 2)] in
  let transforms r := match r with Ok l => map (fun w => field (fields (w_record w)) "transform_id") l | Err _ => [] end in
  (transforms (select_newest_winners [one; two] 1), transforms (select_newest_winners [two; one] 1)) = ([JInt 2], [JInt 1]).
Proof. vm_compute. reflexivity. Qed.

Lemma winners_spec_witness :
  exists out, select_newest_winners demo_records 2 = Ok out /\ StronglySorted before out /\ names (Ok out) = ["three"; "two"; "other"].
Proof.
  destruct (select_newest_winners demo_records 2) as [out|e] eqn:E; [|exfalso; vm_compute in E; discriminate E].
  exists out. split; [done|]. split.
  - destruct (proj2 (winners_spec demo_records 2) out E) as (ns & _ & _ & Hs & _). exact Hs.
  - apply (f_equal names) in E. by vm_compute in E |- *.
Defined.

End Winners.
