(* ===== verification/Replay.v ===== *)
(** The export of a replay cache: [read_results], the seeds, the gates and
    [build] of [src/tools/bigcherry/tuning/replay.py], the check of identities
    of [src/tools/bigcherry/identity_separation.py], and the numbers of a
    variant of [src/tools/bigcherry/tuning/catalog.py].

    The files are given by what is in them: texts, bytes, and the manifest as a
    decoded value.  The dispatch database answers the four questions that are
    asked of it. *)

From S2P Require Import Prelude Json Lines Capabilities Tree Csource Wire Winners.

Module Replay.
Import Json Capabilities Wire Winners.

(** ** Identities of measurements *)

Definition IdentitySeparationError (msg : string) : exn := Exn "IdentitySeparationError" msg.

Definition identity_digest (value : json) (name : string) : res unit :=
  match value with
  | JStr s => ensure (hex_text 32 s) (IdentitySeparationError (name +:+ " must be a 16-byte hexadecimal digest"))
  | _ => Err (IdentitySeparationError (name +:+ " must be a 16-byte hexadecimal digest"))
  end.

Definition IDENTITY_FIELDS : list string := ["dispatch"; "signature"; "hardware"; "candidate_digest"].

Definition check_identity_fields (row : obj) (where_ : string) : res unit :=
  _ ← mapR (fun k =>
    match jget row k with
    | None => Ok tt
    | Some v =>
        match identity_digest v (where_ +:+ "." +:+ k) with
        | Err e => Err (if String.eqb k "dispatch" then IdentitySeparationError (where_ +:+ ": invalid dispatch digest") else e)
        | Ok u => Ok u
        end
    end) IDENTITY_FIELDS;
  Ok tt.

Definition is_object (v : option json) : bool := match v with Some (JObj _) => true | _ => false end.

Definition check_candidate (where_ : string) (names : list string) (ic : nat * json) : res (list string) :=
  let cwhere := where_ +:+ ".candidates[" +:+ show_nat ic.1 +:+ "]" in
  match ic.2 with
  | JObj c =>
      let bad := IdentitySeparationError (cwhere +:+ ".name is not a unique candidate identity") in
      name ← match field c "name" with JStr n => if negb (truthy n) || str_in n names then Err bad else Ok n | _ => Err bad end;
      _ ← match List.find (has_key c) (IDENTITY_FIELDS ++ ["canonical"; "observations"; "hardware_key"]) with
          | Some k => Err (IdentitySeparationError (cwhere +:+ "." +:+ k
                        +:+ " conflates candidate identity with signature, context, or observation data"))
          | None => Ok tt
          end;
      Ok (name :: names)
  | _ => Err (IdentitySeparationError (cwhere +:+ " must be an object"))
  end.

Definition check_candidates (row : obj) (where_ : string) : res unit :=
  match field row "candidates" with
  | JNull => Ok tt
  | JArr l =>
      names ← foldR (check_candidate where_) (combine (seq 0 (length l)) l) [];
      match field row "winner" with
      | JNull => Ok tt
      | JStr w => ensure (str_in w names) (IdentitySeparationError (where_ +:+ ".winner is not one of the candidate identities"))
      | _ => Err (IdentitySeparationError (where_ +:+ ".winner is not one of the candidate identities"))
      end
  | _ => Err (IdentitySeparationError (where_ +:+ ".candidates must be a list"))
  end.

Definition check_observations (row : obj) (where_ : string) : res unit :=
  match field row "observations" with
  | JNull => Ok tt
  | JArr l =>
      _ ← mapR (fun io : nat * json =>
        let at_ := where_ +:+ ".observations[" +:+ show_nat io.1 +:+ "]" in
        match io.2 with
        | JObj o => ensure (negb (existsb (has_key o) IDENTITY_FIELDS))
                      (IdentitySeparationError (at_ +:+ " must not carry durable identity fields"))
        | _ => Err (IdentitySeparationError (at_ +:+ " must be an object"))
        end) (combine (seq 0 (length l)) l);
      Ok tt
  | _ => Err (IdentitySeparationError (where_ +:+ ".observations must be a list"))
  end.

Definition check_row_provenance (row : obj) (where_ : string) : res unit :=
  match field row "provenance" with
  | JNull => Ok tt
  | JObj p =>
      _ ← mapR (fun k => match jget p k with Some v => identity_digest v (where_ +:+ ".provenance." +:+ k) | None => Ok tt end)
            ["manifest_hash"; "build_descriptor_hash"];
      _ ← match jget p "source_revision" with
          | Some v => ensure (hex_text 40 (jstr v)) (IdentitySeparationError (where_ +:+ ".provenance.source_revision is invalid"))
          | None => Ok tt
          end;
      ensure (negb (has_key p "hardware" || has_key p "signature"))
        (IdentitySeparationError (where_ +:+ ".provenance must not carry signature or hardware identity"))
  | _ => Err (IdentitySeparationError (where_ +:+ ".provenance must be a build-context object"))
  end.

Definition check_header (header : option obj) : res unit :=
  match header with
  | None => Ok tt
  | Some h =>
      _ ← match field h "manifest_hash" with JNull => Ok tt | v => identity_digest v "header.manifest_hash" end;
      ensure (negb (has_key h "hardware" || has_key h "signature"))
        (IdentitySeparationError "header must not carry per-operation identity")
  end.

Definition validate_measurement_identity (row : obj) (header : option obj) (where_ : string) : res unit :=
  _ ← check_identity_fields row where_;
  _ ← ensure (negb (has_key row "canonical") || is_object (jget row "canonical"))
        (IdentitySeparationError (where_ +:+ ".canonical must be an operation-signature object"));
  _ ← ensure (negb (has_key row "hardware_key") || is_object (jget row "hardware_key"))
        (IdentitySeparationError (where_ +:+ ".hardware_key must be a hardware-context object"));
  _ ← check_candidates row where_;
  _ ← check_observations row where_;
  _ ← check_row_provenance row where_;
  check_header header.

(** ** Measurements *)

(** [except cls as exc: raise SystemExit(str(exc))] *)
Definition to_exit {A} (cls prefix : string) (m : res A) : res A :=
  match m with
  | Err e => if String.eqb (exn_class e) cls then Err (SystemExit (prefix +:+ exn_message e)) else Err e
  | Ok a => Ok a
  end.

(** The header, and the results with the digests that were seen. *)
Record Results : Type := mkResults { r_header : option obj; r_seen : list string; r_results : list obj }.

Definition read_line (st : Results) (line : string) : res Results :=
  let line := py_strip line in
  if negb (truthy line) then Ok st else
  record ← of_option (SystemExit "malformed measurements JSONL") (loads line);
  match record with
  | JObj o =>
      if is_str (jget o "kind") "header" then
        _ ← ensure (match r_header st with None => true | Some _ => false end) (SystemExit "duplicate measurements header");
        Ok (mkResults (Some o) (r_seen st) (r_results st))
      else if is_str (jget o "kind") "result" && jtruthy (field o "winner") then
        _ ← to_exit "IdentitySeparationError" ""
              (validate_measurement_identity o (r_header st) ("result " +:+ show_nat (length (r_results st))));
        dispatch ← digest_hex (field o "dispatch") "result dispatch digest";
        _ ← ensure (negb (str_in dispatch (r_seen st))) (SystemExit ("duplicate dispatch digest: " +:+ dispatch));
        Ok (mkResults (r_header st) (dispatch :: r_seen st) (r_results st ++ [dict_set o "dispatch" (JStr dispatch)]))
      else
        _ ← ensure (negb (jtruthy record)) (SystemExit "unknown measurements record kind");
        Ok st
  | v => Err (no_get v)
  end.

Definition read_results (text : string) (require_header : bool) : res (option obj * list obj) :=
  st ← foldR read_line (split_on (Ascii.ascii_of_nat 10) (Tree.Tree.universal text)) (mkResults None [] []);
  _ ← ensure (negb require_header || match r_header st with Some _ => true | None => false end)
        (SystemExit "measurements header required");
  Ok (r_header st, r_results st).

(** ** The manifest *)

(** [value[key]] for a key that is a string. *)
Definition subscript (v : json) (k : string) : res json :=
  match v with JObj o => item o k | _ => Err (TypeError ("'" +:+ type_name v +:+ "' object is not subscriptable by a string")) end.

Definition candidates_by_name (manifest : json) : res (list (string * obj)) :=
  listed ← subscript manifest "candidates";
  l ← json_iter listed;
  foldR (fun d c =>
    match c with
    | JObj o =>
        name ← item o "stable_name";
        match name with
        | JStr n => Ok (dict_set d n o)
        | JArr _ | JObj _ => Err (TypeError ("unhashable type: '" +:+ type_name name +:+ "'"))
        | _ => Ok d
        end
    | v => v' ← subscript v "stable_name"; Ok d
    end) l [].

Fixpoint span (f : Ascii.ascii -> bool) (s : string) : string * string :=
  match s with
  | String c s' => if f c then let '(a, r) := span f s' in (String c a, r) else ("", s)
  | EmptyString => ("", "")
  end.

Definition is_digit (c : Ascii.ascii) : bool := match digit_val c with Some _ => true | None => false end.

(** A match of [(GGML_TYPE_\w+)\s*=\s*(\d+)] at the head of a text, and what
    follows it. *)
Definition type_at (s : string) : option (string * Z * string) :=
  if startswith "GGML_TYPE_" s then
    let '(name, r) := span Csource.Csource.word_char (str_drop 10 s) in
    let '(_, r1) := span py_isspace r in
    match r1 with
    | String "="%char r2 =>
        let '(_, r3) := span py_isspace r2 in
        let '(digits, rest) := span is_digit r3 in
        if truthy name && truthy digits then Some ("GGML_TYPE_" +:+ name, Z.of_N (read_digits 0 digits).1, rest) else None
    | _ => None
    end
  else None.

(** [re.findall], as the dict of its results. *)
Fixpoint find_types (skip : nat) (d : list (string * Z)) (s : string) : list (string * Z) :=
  match s with
  | EmptyString => d
  | String _ s' =>
      match skip with
      | S k => find_types k d s'
      | O =>
          match type_at s with
          | Some (name, v, rest) => find_types (String.length s' - String.length rest) (dict_set d name v) s'
          | None => find_types 0 d s'
          end
      end
  end.

Definition ggml_type_values (text : string) : res (list (string * Z)) :=
  let values := find_types 0 [] text in
  _ ← ensure (has_key values "GGML_TYPE_F32") (SystemExit "could not parse ggml_type enum");
  Ok values.

(** ** The numbers of a variant *)

Record Variant : Type := mkVariant {
  v_primary : Z; v_secondary : Z; v_width : Z; v_acc_f16 : Z; v_fallback : Z; v_small_k : Z; v_src0_type : string;
}.

(** [str.upper] on ASCII letters. *)
Definition py_upper (s : string) : string :=
  String.string_of_list_ascii (map (fun c => let n := Ascii.nat_of_ascii c in
    if bool_decide (97 <= n <= 122) then Ascii.ascii_of_nat (n - 32) else c) (String.list_ascii_of_string s)).

Definition int_text (v : json) : res string := z ← json_int v; Ok (show_Z z).

(** The seven fields, as they are printed. *)
Definition variant_texts (candidate : obj) : res (list string) :=
  config ← item candidate "config";
  family ← item candidate "family";
  source_class ← item candidate "source_class";
  if is_str (Some source_class) "native_wrapper" then Ok ["0"; "0"; "0"; "0"; "0"; "0"; "0"] else
  match config with
  | JObj c =>
      src0_type ← match field c "type" with
        | JStr t => Ok (if truthy t then "GGML_TYPE_" +:+ py_upper t else "0")
        | v => if jtruthy v then Err (AttributeError ("'" +:+ type_name v +:+ "' object has no attribute 'upper'")) else Ok "0"
        end;
      let fam := is_str (Some family) in
      if fam "mmq" then
        primary ← item c "j"; fallback ← item c "fallback"; f ← int_text fallback;
        Ok [jstr primary; "0"; "0"; "0"; f; "0"; src0_type]
      else if fam "mmvf" then
        primary ← item c "block_size"; width ← item c "width"; accumulator ← item c "accumulator";
        Ok [jstr primary; "0"; jstr width; (if is_str (Some accumulator) "f16" then "1" else "0"); "0"; "0"; src0_type]
      else if fam "mmf" then
        primary ← item c "nwarps"; width ← item c "width";
        Ok [jstr primary; "0"; jstr width; "0"; "0"; "0"; src0_type]
      else if fam "mmvq" then
        primary ← item c "nwarps"; secondary ← item c "rows_per_block"; width ← item c "width";
        k ← int_text (get_or c "small_k" (JBool false));
        Ok [jstr primary; jstr secondary; jstr width; "0"; "0"; k; src0_type]
      else Ok ["0"; "0"; "0"; "0"; "0"; "0"; src0_type]
  | v => Err (no_get v)
  end.

Definition variant_initialiser (candidate : obj) : res string :=
  texts ← variant_texts candidate; Ok ("{ " +:+ String.concat ", " texts +:+ " }").

Fixpoint lstrip_char (c : Ascii.ascii) (s : string) : string :=
  match s with String d s' => if Ascii.eqb c d then lstrip_char c s' else s | EmptyString => "" end.
Definition rev_str (s : string) : string := String.string_of_list_ascii (rev (String.list_ascii_of_string s)).
Definition rstrip_char (c : Ascii.ascii) (s : string) : string := rev_str (lstrip_char c (rev_str s)).

Definition int_part (parts : list string) (i : nat) : res Z :=
  t ← of_option (Exn "IndexError" "list index out of range") (parts !! i);
  of_option (ValueError ("invalid literal for int() with base 10: " +:+ py_repr t)) (py_int t).

Definition variant_fields (candidate : obj) : res Variant :=
  text ← variant_initialiser candidate;
  let inner := py_strip (rstrip_char "}"%char (lstrip_char "{"%char (py_strip text))) in
  let parts := map py_strip (split_on ","%char inner) in
  primary ← int_part parts 0; secondary ← int_part parts 1; width ← int_part parts 2;
  acc_f16 ← int_part parts 3; fallback ← int_part parts 4; small_k ← int_part parts 5;
  src0_type ← of_option (Exn "IndexError" "list index out of range") (parts !! 6);
  Ok (mkVariant primary secondary width acc_f16 fallback small_k src0_type).

(** ** The gates *)

Record Binding : Type := mkBinding {
  dispatch_hex : string; signature_hex : string; hardware_hex : string; native_name : string; candidate_name : json;
  source_build_id : option Z;
}.

(** What is asked of the dispatch database: the identity of a build, whether
    the evidence of a binding passes ([require_correctness_binding]), which
    winner a row is ([require_winner_row]), and whether it was verified. *)
Record DispatchDb : Type := mkDb {
  build_row : Z -> option (json * json * json);
  require_correctness_binding : Binding -> res unit;
  require_winner_row : obj -> json -> res Z;
  is_winner_verified : Z -> bool;
}.

Notation by_name_t := (list (string * obj)).
Notation entries_t := (list (string * obj)).

Definition native_claim_is_authoritative (native : json) (by_name : by_name_t) : bool :=
  match native with
  | JStr n => truthy n && match jget by_name n with Some c => is_str (jget c "source_class") "native_wrapper" | None => false end
  | _ => false
  end.

(** The winner is the native implementation, and the manifest confirms it. *)
Definition is_native (by_name : by_name_t) (record : obj) : bool :=
  py_eqb (field record "winner") (field record "native") && native_claim_is_authoritative (field record "native") by_name.

(** Why an entry may not be exported, if it may not. *)
Definition promotion_violation (by_name : by_name_t) (record : obj) : option json :=
  if jtruthy (field record "measurement_failure") then Some (JStr "measurement_failure")
  else if is_native by_name record then None
  else if is_str (jget record "promotion_status") "promoted" then None
  else Some (field record "promotion_status").

Definition more_text {A} (violations : list A) : string :=
  if (20 <? length violations)%nat then newline +:+ "  ... and " +:+ show_nat (length violations - 20) +:+ " more" else "".

Definition validate_promotion_gate (entries : entries_t) (by_name : by_name_t) : res unit :=
  let violations := omap (fun e : string * obj => status ← promotion_violation by_name e.2; Some (e.1, field e.2 "winner", status)) entries in
  ensure (bool_decide (violations = []))
    (SystemExit ("refusing to export: " +:+ show_nat (length violations) +:+ " unsafe measurement result(s) lack a valid "
       +:+ "replay promotion gate (failed measurements are never exportable):" +:+ newline
       +:+ String.concat newline (map (fun v : string * json * json => "  " +:+ Lines.str_take 16 v.1.1 +:+ "...: winner=" +:+ jrepr v.1.2
                                          +:+ " promotion_status=" +:+ jrepr v.2) (firstn 20 violations))
       +:+ more_text violations)).

(** That the build a projected artifact claims is the one its provenance names. *)
Definition check_source_build (db : option DispatchDb) (id : Z) (source_provenance : json) : res unit :=
  match source_provenance with
  | JObj p =>
      d ← of_option (SystemExit "refusing to export: hi121_source_provenance.source_build_id is present but no --dispatch-db was supplied to verify it against") db;
      '(revision, manifest, descriptor) ← of_option
         (SystemExit ("refusing to export: hi121_source_provenance.source_build_id=" +:+ show_Z id +:+ " does not exist")) (build_row d id);
      _ ← ensure (py_eqb (field p "source_revision") revision && py_eqb (field p "manifest_hash") manifest)
            (SystemExit ("refusing to export: hi121_source_provenance claims source_build_id=" +:+ show_Z id
               +:+ " but its source_revision/manifest_hash do not match that build's real DB row"));
      ensure (match descriptor, field p "build_descriptor_hash" with
              | JNull, _ | _, JNull => true | v, c => py_eqb c v end)
        (SystemExit ("refusing to export: hi121_source_provenance claims source_build_id=" +:+ show_Z id
           +:+ " but its build_descriptor_hash does not match that build's real DB row"))
  | _ => Err (SystemExit "refusing to export: source_build_id present without its hi121_source_provenance tuple to bind it to")
  end.

(** One entry that is not native: whether its evidence holds, or why not. *)
Definition correctness_of (db : option DispatchDb) (build_id : option Z) (digest_hex : string) (record : obj) : res (option string) :=
  match field record "signature", field record "hardware" with
  | JStr signature, JStr hardware =>
      match field record "native" with
      | JStr native =>
          if negb (truthy native) then Ok (Some "missing native baseline identity") else
          match db with
          | None => Ok (Some "no --dispatch-db supplied to verify RV49 correctness evidence")
          | Some d =>
              match require_correctness_binding d (mkBinding digest_hex signature hardware native (field record "winner") build_id) with
              | Ok _ => Ok None
              | Err e => if String.eqb (exn_class e) "CorrectnessGateError" then Ok (Some (exn_message e)) else Err e
              end
          end
      | _ => Ok (Some "missing native baseline identity")
      end
  | _, _ => Ok (Some "missing explicit signature/hardware identity needed to resolve real correctness evidence")
  end.

Definition correctness_step (db : option DispatchDb) (by_name : by_name_t) (build_id : option Z) (source_provenance : json)
    (st : bool * list (string * json * string)) (e : string * obj) : res (bool * list (string * json * string)) :=
  if jtruthy (field e.2 "measurement_failure") then Ok st
  else if is_native by_name e.2 then Ok st
  else
    _ ← match build_id with
        | Some id => if (st.1 : bool) then Ok tt else check_source_build db id source_provenance
        | None => Ok tt
        end;
    why ← correctness_of db build_id e.1 e.2;
    Ok (match build_id with Some _ => true | None => st.1 end,
        match why with Some w => st.2 ++ [(e.1, field e.2 "winner", w)] | None => st.2 end).

Definition by_digest {A} (a b : string * A) : bool := String.leb a.1 b.1.

Definition validate_correctness_gate (entries : entries_t) (db : option DispatchDb) (by_name : by_name_t) (build_id : option Z)
    (source_provenance : json) : res unit :=
  st ← foldR (correctness_step db by_name build_id source_provenance) (py_sorted by_digest entries) (false, []);
  let violations := st.2 in
  ensure (bool_decide (violations = []))
    (SystemExit ("refusing to export: " +:+ show_nat (length violations) +:+ " non-native winner(s) lack "
       +:+ "real RV49 correctness-gate evidence for their exact dispatch/hardware binding:" +:+ newline
       +:+ String.concat newline (map (fun v : string * json * string => "  " +:+ Lines.str_take 16 v.1.1 +:+ "...: winner=" +:+ jrepr v.1.2
                                          +:+ ": " +:+ v.2) (firstn 20 violations))
       +:+ more_text violations)).

(** ** Seeds *)

Record Override : Type := mkOverride {
  o_winner : string; o_candidate_digest : string; o_signature : option string; o_hardware : option string; o_native : option string;
}.

Section Build.
Context `{DispatchHash}.

Definition candidate_identity (candidate : obj) : string := bytes_hex (blake2b_digest (bytes_of_str (dumps (JObj candidate)))).

Definition opt_digest (v : json) (label : string) : res (option string) :=
  match v with JNull => Ok None | _ => d ← digest_hex v label; Ok (Some d) end.

(** The object of overrides of a seed file: the envelope, when it has one, must
    be for this manifest. *)
Definition seed_overrides_of (document : obj) (manifest : obj) (manifest_hash : string) : res json :=
  if has_key document "overrides" then
    let unknown := List.filter (fun k => negb (str_in k ["version"; "provenance"; "overrides"])) (map fst document) in
    _ ← ensure (bool_decide (unknown = []))
          (SystemExit ("seed file has unknown top-level fields: " +:+ py_repr_list (py_sorted String.leb unknown)));
    _ ← ensure (num_eqb 1 (get_or document "version" (JInt 1))) (SystemExit "unsupported seed file version");
    _ ← ensure (is_object (jget document "provenance")) (SystemExit "seed file is missing its provenance object");
    provenance ← validate_provenance_namespace (field document "provenance") "seed provenance";
    _ ← ensure (match field manifest "source_revision" with
                | JStr r => is_str (jget provenance "source_revision") (py_lower r) && is_str (jget provenance "manifest_hash") manifest_hash
                | _ => false
                end) (SystemExit "seed provenance does not match supplied manifest");
    Ok (field document "overrides")
  else Ok (JObj document).

Definition load_override (by_name : by_name_t) (manifest : obj) (manifest_hash : string)
    (normalized : list (string * Override)) (raw : string * json) : res (list (string * Override)) :=
  digest ← digest_hex (JStr raw.1) "seed override dispatch digest";
  _ ← ensure (negb (has_key normalized digest)) (SystemExit ("duplicate seed override dispatch digest: " +:+ digest));
  let value := match raw.2 with JStr w => JObj [("winner", JStr w)] | v => v end in
  let bad := SystemExit "seed override must be a candidate name or object with winner" in
  match value with
  | JObj v =>
      stable_name ← match field v "winner" with JStr w => Ok w | _ => Err bad end;
      let unknown := List.filter (fun k => negb (str_in k ["winner"; "signature"; "candidate_digest"; "provenance"; "hardware"; "native"])) (map fst v) in
      _ ← ensure (bool_decide (unknown = [])) (SystemExit ("seed override has unknown fields: " +:+ py_repr_list (py_sorted String.leb unknown)));
      candidate ← of_option (SystemExit ("seed override '" +:+ stable_name +:+ "' for dispatch " +:+ Lines.str_take 16 digest
                    +:+ "... is not in the manifest")) (jget by_name stable_name);
      let candidate_digest := candidate_identity candidate in
      supplied ← digest_hex (get_or v "candidate_digest" (JStr candidate_digest)) "seed override candidate digest";
      _ ← ensure (String.eqb supplied candidate_digest)
            (SystemExit ("seed override candidate identity does not match manifest for '" +:+ stable_name +:+ "'"));
      _ ← match jget v "provenance" with
          | None => Ok tt
          | Some (JObj p) =>
              provenance ← validate_provenance_namespace (JObj p) "seed override provenance";
              ensure (is_str (jget provenance "manifest_hash") manifest_hash
                      && match field manifest "source_revision" with JStr r => is_str (jget provenance "source_revision") (py_lower r) | _ => true end)
                (SystemExit "seed override provenance does not match supplied manifest")
          | Some _ => Err (SystemExit ("seed override '" +:+ stable_name +:+ "' has a non-object provenance"))
          end;
      signature ← opt_digest (field v "signature") "seed override signature digest";
      hardware ← opt_digest (field v "hardware") "seed override hardware digest";
      native ← match field v "native" with
        | JNull => Ok None
        | JStr n =>
            c ← of_option (SystemExit ("seed override native '" +:+ n +:+ "' for dispatch " +:+ Lines.str_take 16 digest
                  +:+ "... is not in the manifest")) (jget by_name n);
            _ ← ensure (is_str (jget c "source_class") "native_wrapper")
                  (SystemExit ("seed override native '" +:+ n +:+ "' for dispatch " +:+ Lines.str_take 16 digest
                     +:+ "... is not a native_wrapper candidate"));
            Ok (if truthy n then Some n else None)
        | _ => Err (SystemExit ("seed override native for dispatch " +:+ Lines.str_take 16 digest +:+ "... must be a string"))
        end;
      Ok (normalized ++ [(digest, mkOverride stable_name candidate_digest signature hardware native)])
  | _ => Err bad
  end.

Definition lower_key (a b : string * json) : bool := String.leb (py_lower a.1) (py_lower b.1).

Definition load_seed_overrides (text : string) (by_name : by_name_t) (manifest : obj) (manifest_hash : string) :
    res (list (string * Override)) :=
  document ← of_option (SystemExit "seed file is not valid JSON") (loads (Tree.Tree.universal text));
  match document with
  | JObj d =>
      raw ← seed_overrides_of d manifest manifest_hash;
      match raw with
      | JObj overrides => foldR (load_override by_name manifest manifest_hash) (py_sorted lower_key overrides) []
      | _ => Err (SystemExit "seed overrides must be an object")
      end
  | _ => Err (SystemExit "seed file must be a JSON object")
  end.

(** The signature of a seed: that of the measured row, or its own. *)
Definition seed_signature (entries : entries_t) (ov : string * Override) : res (string * string * Override) :=
  let signature := match jget entries ov.1 with
    | Some existing => field existing "signature"
    | None => match o_signature ov.2 with Some s => JStr s | None => JNull end
    end in
  match signature with
  | JStr s => if hex_text 32 s then Ok (ov.1, py_lower s, ov.2)
              else Err (SystemExit ("seed override for unseen dispatch " +:+ Lines.str_take 16 ov.1 +:+ "... requires explicit signature"))
  | _ => Err (SystemExit ("seed override for unseen dispatch " +:+ Lines.str_take 16 ov.1 +:+ "... requires explicit signature"))
  end.

Definition opt_member (k : string) (v : option string) : obj := match v with Some s => [(k, JStr s)] | None => [] end.

Definition apply_override (entries : entries_t) (ov : string * string * Override) : entries_t :=
  let '(digest, signature, o) := ov in
  dict_set entries digest
    (dict_update (get_or entries digest [])
       ([("dispatch", JStr digest); ("winner", JStr (o_winner o)); ("signature", JStr signature); ("seeded", JBool true)]
        ++ opt_member "hardware" (o_hardware o) ++ opt_member "native" (o_native o))).

(** ** Packing *)

(** The entries packed so far, the offset of each name, and the string table. *)
Record Packer : Type := mkPacker { p_packed : bytes; p_strings : list (string * Z); p_string_blob : bytes }.

Definition intern (name : string) (st : Packer) : res (Z * Packer) :=
  match jget (p_strings st) name with
  | Some at_ => Ok (at_, st)
  | None =>
      raw ← encode name;
      let at_ := Z.of_nat (length (p_string_blob st)) in
      Ok (at_, mkPacker (p_packed st) (p_strings st ++ [(name, at_)]) (p_string_blob st ++ raw ++ [0%Z]))
  end.

Definition emit (st : Packer) (entry : bytes) : Packer := mkPacker (p_packed st ++ entry) (p_strings st) (p_string_blob st).

(** [int(record.get(k, d) or d)] *)
Definition int_or (v : json) (d : Z) : res Z := if jtruthy v then json_int v else Ok d.

(** A winner whose candidate the manifest does not have keeps its entry, but
    for the offset of its name. *)
Definition retain_entry (st : Packer) (w : Winner) : res Packer :=
  let bad := SystemExit ("winner '" +:+ w_winner w +:+ "' is not in the manifest and has no self-describing wire entry to retain") in
  raw ← of_option bad (wire_entry (w_record w));
  _ ← ensure (length raw =? ENT_SIZE)%nat bad;
  '(at_, st) ← intern (w_winner w) st;
  offset ← pack_uint 4 at_;
  Ok (emit st (take 32 raw ++ offset ++ drop 36 raw)).

Definition src0_type_of (type_values : list (string * Z)) (name type_name : string) : res Z :=
  if String.eqb type_name "0" then Ok 0%Z
  else of_option (SystemExit ("unknown ggml type '" +:+ type_name +:+ "' for '" +:+ name +:+ "'")) (jget type_values type_name).

(** The signature of a winner; its hardware, if it has one, must give its key. *)
Definition signature_of (w : Winner) : res string :=
  let record := fields (w_record w) in
  signature_hex ← match field record "signature" with
    | JNull => Err (SystemExit ("winner " +:+ w_key w +:+ " is missing an explicit signature digest"))
    | v => digest_hex v ("winner " +:+ w_key w +:+ " signature digest")
    end;
  _ ← match field record "hardware" with
      | JNull => Ok tt
      | v =>
          hardware_hex ← digest_hex v ("winner " +:+ w_key w +:+ " hardware digest");
          expected ← portable_tuning_key (JStr hardware_hex) (JStr signature_hex) (get_or record "objective" (JStr "latency"));
          ensure (String.eqb expected (w_key w))
            (SystemExit ("winner " +:+ w_key w +:+ " does not match its hardware/signature dispatch identity"))
      end;
  Ok signature_hex.

Definition fresh_entry (type_values : list (string * Z)) (st : Packer) (w : Winner) (candidate : obj) : res Packer :=
  let record := fields (w_record w) in
  fields ← variant_fields candidate;
  src0_type ← src0_type_of type_values (w_winner w) (v_src0_type fields);
  digest ← fromhex (w_key w);
  _ ← ensure (length digest =? DIGEST_BYTES)%nat (SystemExit ("malformed dispatch digest: " +:+ py_repr (w_key w)));
  signature_hex ← signature_of w;
  signature ← fromhex signature_hex;
  entry_manifest ← fromhex (w_identity w).2;
  entry_revision ← fromhex (w_identity w).1;
  '(at_, st) ← intern (w_winner w) st;
  offset ← pack_uint 4 at_;
  implementation_version ← json_int (get_or candidate "implementation_version" (JInt 1));
  implementation ← pack_uint 2 implementation_version;
  primary ← pack_int 4 (v_primary fields); secondary ← pack_int 4 (v_secondary fields); width ← pack_int 4 (v_width fields);
  acc_f16 ← pack_uint 1 (v_acc_f16 fields); fallback ← pack_uint 1 (v_fallback fields);
  small_k ← pack_uint 1 (v_small_k fields); src0 ← pack_uint 1 src0_type;
  generation ← pack_uint 4 (w_generation w);
  transform_id ← int_or (field record "transform_id") 0;
  _ ← ensure ((0 <=? transform_id)%Z && (transform_id <=? 65535)%Z)
        (SystemExit ("winner " +:+ w_key w +:+ " transform_id out of range: " +:+ show_Z transform_id));
  transform ← pack_uint 2 transform_id;
  match_kind ← int_or (field record "match_kind") MATCH_KIND_EXACT;
  _ ← ensure ((0 <=? match_kind)%Z && (match_kind <=? 255)%Z)
        (SystemExit ("winner " +:+ w_key w +:+ " match_kind out of range: " +:+ show_Z match_kind));
  kind ← pack_uint 1 match_kind;
  Ok (emit st (digest ++ signature ++ offset ++ implementation ++ (primary ++ secondary ++ width)
               ++ (acc_f16 ++ fallback ++ small_k ++ src0) ++ entry_manifest ++ entry_revision ++ generation ++ transform ++ kind)).

Definition pack_entry (by_name : by_name_t) (type_values : list (string * Z)) (st : Packer) (w : Winner) : res Packer :=
  match jget by_name (w_winner w) with
  | None => retain_entry st w
  | Some candidate => fresh_entry type_values st w candidate
  end.

(** The order of the entries. *)
Definition pack_leb (v w : Winner) : bool :=
  lex_leb String.leb (lex_leb Z.leb (lex_leb String.leb String.leb))
    (w_key v, ((- w_generation v)%Z, w_identity v)) (w_key w, ((- w_generation w)%Z, w_identity w)).

Definition pack_header (entry_count string_bytes : nat) (manifest_hash : string) (payload : bytes) : res bytes :=
  magic ← pack_uint 4 MAGIC; version ← pack_uint 4 REPLAY_VERSION; artifact ← pack_uint 4 ARTIFACT_VERSION;
  sig_schema ← pack_uint 2 SIGNATURE_SCHEMA_VERSION; hw_schema ← pack_uint 2 HARDWARE_SCHEMA_VERSION;
  count ← pack_uint 4 (Z.of_nat entry_count); strings ← pack_uint 4 (Z.of_nat string_bytes);
  manifest ← fromhex manifest_hash;
  let header := magic ++ version ++ artifact ++ sig_schema ++ hw_schema ++ count ++ strings ++ manifest ++ blake2b_digest payload in
  _ ← ensure (length header =? REPLAY_HEADER_SIZE)%nat
        (Exn "AssertionError" "replay header layout drifted from the v5 wire format");
  Ok header.

Definition pack_cache (by_name : by_name_t) (type_values : list (string * Z)) (manifest_hash : string) (selected : list Winner) :
    res bytes :=
  st ← foldR (pack_entry by_name type_values) (py_sorted pack_leb selected) (mkPacker [] [] []);
  let payload := p_packed st ++ p_string_blob st in
  header ← pack_header (length (p_packed st) / ENT_SIZE) (length (p_string_blob st)) manifest_hash payload;
  let blob := header ++ payload in
  _ ← validate_blob (Some (JStr manifest_hash)) true blob;
  Ok blob.

(** ** The export *)

(** The arguments of [build]; a file that may be missing is an [option]. *)
Record Inputs : Type := mkInputs {
  in_measurements : string;
  in_manifest : json;
  in_ggml_h : string;
  in_dispatch_db : option DispatchDb;
  in_seed_file : option (option string);
  in_merge_into : option (option bytes);
  in_keep_generations : Z;
  in_generation : Z;
  in_require_winner_verification : bool;
}.

(** Who measured: the header must be of the revision of the manifest. *)
Definition check_producer (manifest : obj) (manifest_hash : string) (header : option obj) (seeded : bool) : res (option Z * json) :=
  if seeded then Ok (None, JNull) else
  let projected := match header with Some h => field h "hi121_source_provenance" | None => JNull end in
  let bad := SystemExit "refusing to export: measurements hi121_source_provenance.source_build_id must be a positive integer" in
  build_id ← match projected with
    | JObj p => match jget p "source_build_id" with
                | None => Ok None
                | Some (JInt z) => if (1 <=? z)%Z then Ok (Some z) else Err bad
                | Some _ => Err bad
                end
    | _ => Ok None
    end;
  expected ← match field manifest "source_revision" with
    | JStr r => if truthy r then Ok r else Err (SystemExit "refusing to export: supplied manifest lacks producer provenance (source_revision/manifest_hash)")
    | _ => Err (SystemExit "refusing to export: supplied manifest lacks producer provenance (source_revision/manifest_hash)")
    end;
  provenance ← validate_provenance_namespace (JObj [("source_revision", JStr expected); ("manifest_hash", JStr manifest_hash)])
                 "manifest provenance";
  let mismatch := SystemExit "refusing to export: measurements producer source_revision does not match the supplied manifest's source_revision" in
  _ ← match header with
      | None => Err mismatch
      | Some h =>
          match get_or h "source_revision" (JStr "") with
          | JStr r => ensure (is_str (jget provenance "source_revision") (py_lower r)) mismatch
          | v => Err (AttributeError ("'" +:+ type_name v +:+ "' object has no attribute 'lower'"))
          end
      end;
  Ok (build_id, projected).

Definition dispatch_of (record : obj) : string := match field record "dispatch" with JStr d => d | _ => "" end.

(** The measured rows by their dispatch. *)
Definition entries_of_results (results : list obj) : entries_t :=
  fold_left (fun d r => dict_set d (dispatch_of r) r) results [].

Definition seeds_of (i : Inputs) (by_name : by_name_t) (manifest : obj) (manifest_hash : string) : res (list (string * Override)) :=
  match in_seed_file i with
  | Some (Some text) => load_seed_overrides text by_name manifest manifest_hash
  | _ => Ok []
  end.

Definition verify_winners (i : Inputs) (entries : entries_t) (seeds : list (string * Override)) : res entries_t :=
  if negb (in_require_winner_verification i) then Ok entries else
  d ← of_option (SystemExit "refusing to export: require_winner_verification=True requires --dispatch-db") (in_dispatch_db i);
  kept ← foldR (fun kept e =>
    if has_key seeds e.1 then Ok (kept ++ [e])
    else
      winner_id ← to_exit "WinnerRowIdentityError"
                    ("refusing to export: measured result " +:+ py_repr e.1 +:+ " failed exact winner identity binding: ")
                    (require_winner_row d e.2 (field e.2 "signature"));
      Ok (if is_winner_verified d winner_id then kept ++ [e] else kept)) (py_sorted by_digest entries) [];
  _ ← ensure (negb (bool_decide (kept = [])))
        (SystemExit "refusing to export: no measured winners carry current winner_verification");
  Ok kept.

(** The rows that go to the export, through every gate. *)
Definition gated_entries (i : Inputs) (by_name : by_name_t) (manifest : obj) (manifest_hash : string) (results : list obj)
    (build_id : option Z) (projected : json) : res entries_t :=
  let entries := entries_of_results results in
  seeds ← seeds_of i by_name manifest manifest_hash;
  overrides ← mapR (seed_signature entries) seeds;
  let entries := fold_left apply_override overrides entries in
  entries ← verify_winners i entries seeds;
  _ ← validate_promotion_gate (List.filter (fun e => negb (has_key seeds e.1)) entries) by_name;
  _ ← validate_correctness_gate entries (in_dispatch_db i) by_name build_id projected;
  Ok entries.

Definition producer_revision (manifest : obj) (seeded : bool) : res string :=
  match field manifest "source_revision" with
  | JStr r => Ok r
  | _ => if seeded then Ok "0000000000000000000000000000000000000000"
         else Err (SystemExit "manifest source_revision is required for v4 export")
  end.

Definition current_entry (revision manifest_hash : string) (generation : Z) (e : string * obj) : res Rec :=
  transform_id ← int_or (field e.2 "winner_transform_id") 0;
  Ok (mkRec (dict_update e.2 [("portable_key", JStr e.1); ("generation", JInt generation); ("transform_id", JInt transform_id);
       ("provenance", JObj [("source_revision", JStr revision); ("manifest_hash", JStr manifest_hash)])]) None).

(** The entries of the cache to merge, but for those this run replaces. *)
Definition existing_entries (i : Inputs) (manifest_hash revision_digest : string) : res (list Rec) :=
  match in_merge_into i with
  | Some (Some blob) =>
      version ← (if (8 <=? length blob)%nat then v ← unpack 4 4 blob; Ok (Some v) else Ok None);
      '(_, entries) ← (if bool_decide (version = Some REPLAY_VERSION_V4) then read_cache_legacy_v4 true blob else read_cache true blob);
      Ok (map entry_record (List.filter (fun e => negb ((e_generation e =? in_generation i)%Z
            && String.eqb (e_manifest_hash e) manifest_hash && String.eqb (e_source_revision_digest e) revision_digest)) entries))
  | _ => Ok []
  end.

Definition build (i : Inputs) : res bytes :=
  by_name ← candidates_by_name (in_manifest i);
  type_values ← ggml_type_values (in_ggml_h i);
  match in_manifest i with
  | JObj manifest =>
      let seeded := match in_seed_file i with Some _ => true | None => false end in
      manifest_hash ← digest_hex (field manifest "manifest_hash") "manifest_hash";
      '(header, results) ← read_results (in_measurements i) (negb seeded);
      _ ← ensure (negb (bool_decide (length results = 0))) (SystemExit "no winning results");
      '(build_id, projected) ← check_producer manifest manifest_hash header seeded;
      _ ← ensure (0 <=? in_generation i)%Z (SystemExit "generation must be a non-negative integer");
      _ ← ensure (match in_merge_into i with Some None => false | _ => true end) (SystemExit "merge source does not exist");
      entries ← gated_entries i by_name manifest manifest_hash results build_id projected;
      revision ← producer_revision manifest seeded;
      revision_digest ← source_revision_digest (JStr revision);
      current ← mapR (current_entry revision manifest_hash (in_generation i)) (py_sorted by_digest entries);
      existing ← existing_entries i manifest_hash revision_digest;
      selected ← select_newest_winners (existing ++ current) (in_keep_generations i);
      pack_cache by_name type_values manifest_hash selected
  | v => Err (no_get v)
  end.

End Build.

(** ** Packed integers and digests *)

Lemma pack_uint_Ok n v l : pack_uint n v = Ok l -> l = le n v /\ (0 <= v < 256 ^ Z.of_nat n)%Z.
Proof.
  unfold pack_uint. destruct ((0 <=? v)%Z && _) eqn:E; [|done]. intros [= <-]. split; [done|].
  apply andb_prop in E as [H1%Z.leb_le H2%Z.ltb_lt]. lia.
Qed.

Lemma pack_uint_length n v l : pack_uint n v = Ok l -> length l = n /\ Forall byte l.
Proof. intros [-> _]%pack_uint_Ok. split; [apply length_le|apply byte_le]. Qed.

Lemma pack_int_length n v l : pack_int n v = Ok l -> length l = n /\ Forall byte l.
Proof. unfold pack_int. destruct (_ && _); [|done]. intros [= <-]. split; [apply length_le|apply byte_le]. Qed.

Lemma slice_mid {A} a b (pre c post e : list A) : e = pre ++ c ++ post -> length pre = a -> a + length c = b -> slice a b e = c.
Proof.
  intros -> <- <-. rewrite slice_app_r by lia. replace (length pre - length pre) with 0 by lia.
  replace (length pre + length c - length pre) with (length c) by lia. by apply slice_head.
Qed.

(** A digest as it is written: lower-case hexadecimal digits. *)
Definition canonical (h : string) : Prop := hex_text 32 h = true /\ py_lower h = h.

Lemma py_lower_idem s : py_lower (py_lower s) = py_lower s.
Proof.
  induction s as [|c s IH]; [done|]. cbn [py_lower]. rewrite IH. f_equal.
  by destruct c as [[] [] [] [] [] [] [] []].
Qed.

Lemma hex_text_lower n s : hex_text n s = true -> hex_text n (py_lower s) = true.
Proof.
  intros [Hl Hs]%hex_text_digits. unfold hex_text. apply andb_true_intro. split.
  - apply Nat.eqb_eq. rewrite <- Hl. clear. induction s; cbn; congruence.
  - apply forallb_true. revert Hs. clear. induction s as [|c s IH]; [by intros _ ? ?%elem_of_nil|]. intros Hs d. cbn [py_lower String.list_ascii_of_string].
    intros [->|Hd]%elem_of_cons; [|apply IH; [|done]; intros; apply Hs; by right].
    destruct (Hs c ltac:(left)) as [v [_ Hv]%digit_value_py_lower]. by rewrite Hv.
Qed.

Lemma digest_hex_canonical v label h : digest_hex v label = Ok h -> canonical h.
Proof.
  unfold digest_hex. destruct v; try done. destruct (hex_text 32 s) eqn:E; [|done]. intros [= <-].
  split; [by apply hex_text_lower|apply py_lower_idem].
Qed.

Lemma canonical_bytes h raw : canonical h -> fromhex h = Ok raw -> length raw = DIGEST_BYTES /\ Forall byte raw /\ bytes_hex raw = h.
Proof.
  intros [Hx Hl] Hraw. apply hex_text_digits in Hx as [Hlen Hx].
  destruct (fromhex_lower 16 h Hx Hlen) as (l & Hf & Hn). rewrite Hl in Hf. unfold fromhex in Hraw. rewrite Hf in Hraw. injection Hraw as <-.
  destruct (bytes_fromhex_inv (String.length h) h l ltac:(lia) Hf) as [_ Hinv]. destruct (Hinv ltac:(lia) Hl) as [-> Hb]. by split_and!.
Qed.

Lemma hex_canonical raw : length raw = DIGEST_BYTES -> Forall byte raw -> canonical (bytes_hex raw).
Proof.
  intros Hn Hb. split; [|by apply py_lower_hex]. unfold hex_text. rewrite length_bytes_hex, Hn. cbn [Nat.mul Nat.eqb andb].
  apply forallb_true. clear Hn. induction Hb as [|b l Hb Hl IH]; [by intros ? ?%elem_of_nil|]. apply nibbles in Hb as (H1 & H2 & _).
  change (bytes_hex (b :: l)) with (String (hexdigit (Z.to_nat (b / 16))) (String (hexdigit (Z.to_nat (b mod 16))) (bytes_hex l))).
  cbn [String.list_ascii_of_string]. intros c [->|[->|Hc]%elem_of_cons]%elem_of_cons; [rewrite hexdigit_value by lia; done..|by apply IH].
Qed.

(** ** Winners as they come from the selection *)

(** What the bytes of an entry say agrees with the fields of its winner. *)
Record wire_agrees (w : Winner) (raw : bytes) : Prop := {
  wire_byte : Forall byte raw;
  wire_key : bytes_hex (take DIGEST_BYTES raw) = w_key w;
  wire_revision : bytes_hex (slice ENT_SOURCE_REVISION ENT_GENERATION raw) = (w_identity w).1;
  wire_manifest : bytes_hex (slice ENT_MANIFEST ENT_SOURCE_REVISION raw) = (w_identity w).2;
  wire_generation : unpack 4 ENT_GENERATION raw = Ok (w_generation w);
  wire_kind : byte_at ENT_MATCH_KIND raw = Ok MATCH_KIND_EXACT;
}.

Record winner_ok (w : Winner) : Prop := {
  ok_key : canonical (w_key w);
  ok_revision : canonical (w_identity w).1;
  ok_manifest : canonical (w_identity w).2;
  ok_wire : forall raw, wire_entry (w_record w) = Some raw -> length raw = ENT_SIZE -> wire_agrees w raw;
}.

(** ** Packing one entry *)

(** A name at an offset of the string table. *)
Definition holds_name (strings : bytes) (at_ : Z) (name : string) : Prop :=
  (0 <= at_)%Z /\ utf8_valid (bytes_of_str name) = true /\ exists rest, drop (Z.to_nat at_) strings = bytes_of_str name ++ 0%Z :: rest.

Lemma holds_name_app strings more at_ name : holds_name strings at_ name -> holds_name (strings ++ more) at_ name.
Proof.
  intros (H0 & Hu & rest & Hd). split_and!; [done..|]. exists (rest ++ more). rewrite drop_app_le.
  - rewrite Hd. by rewrite <- app_assoc.
  - destruct (decide (Z.to_nat at_ <= length strings)); [done|]. rewrite drop_ge in Hd by lia. by destruct (bytes_of_str name).
Qed.

(** The names that were interned are where the table says. *)
Definition interned (st : Packer) : Prop :=
  Forall byte (p_string_blob st) /\ forall name at_, jget (p_strings st) name = Some at_ -> holds_name (p_string_blob st) at_ name.

Lemma jget_snoc {A} (d : list (string * A)) k v k' : jget d k = None ->
  jget (d ++ [(k, v)]) k' = if String.eqb k' k then Some v else jget d k'.
Proof.
  induction d as [|[a b] d IH]; [done|]. cbn. destruct (String.eqb_spec k a) as [->|Hne]; [done|]. intros Hk.
  destruct (String.eqb_spec k' a) as [->|]; [|by apply IH]. by rewrite (proj2 (String.eqb_neq a k)) by congruence.
Qed.

Lemma intern_Ok name st at_ st' : interned st -> intern name st = Ok (at_, st') ->
  interned st' /\ holds_name (p_string_blob st') at_ name /\ p_packed st' = p_packed st /\
  exists more, p_string_blob st' = p_string_blob st ++ more.
Proof.
  intros [Hb Hi]. unfold intern. destruct (jget (p_strings st) name) as [o|] eqn:E.
  - intros [= <- <-]. split_and!; [by split|by apply Hi|done|exists []; by rewrite app_nil_r].
  - intros (raw & Hraw & [= <- <-])%bind_Ok. pose proof Hraw as [-> Hdec]%decode_encode.
    assert (holds_name (p_string_blob st ++ bytes_of_str name ++ [0%Z]) (Z.of_nat (length (p_string_blob st))) name) as Hn.
    { split_and!; [lia| |]. { unfold encode in Hraw. by destruct (utf8_valid _). }
      exists []. rewrite Nat2Z.id, drop_app_ge, Nat.sub_diag by lia. done. }
    split_and!; [|done|done|by eexists]. split.
    + cbn. apply Forall_app. split; [done|]. apply Forall_app. split; [apply byte_of_str|]. constructor; [by split|constructor].
    + intros n o. cbn. rewrite jget_snoc by done. destruct (String.eqb_spec n name) as [->|]; [by intros [= <-]|].
      intros Ho. by apply holds_name_app, Hi.
Qed.

(** The bytes of the entry of a winner, with the offset of its name. *)
Record packed_as (by_name : by_name_t) `{DispatchHash} (w : Winner) (e : bytes) (at_ : Z) : Prop := {
  pa_length : length e = ENT_SIZE;
  pa_byte : Forall byte e;
  pa_offset : unpack 4 32 e = Ok at_;
  pa_key : bytes_hex (take DIGEST_BYTES e) = w_key w;
  pa_revision : bytes_hex (slice ENT_SOURCE_REVISION ENT_GENERATION e) = (w_identity w).1;
  pa_manifest : bytes_hex (slice ENT_MANIFEST ENT_SOURCE_REVISION e) = (w_identity w).2;
  pa_generation : unpack 4 ENT_GENERATION e = Ok (w_generation w);
  pa_fresh : forall c, jget by_name (w_winner w) = Some c ->
    signature_of w = Ok (bytes_hex (slice DIGEST_BYTES (2 * DIGEST_BYTES) e)) /\
    exists t, int_or (field (fields (w_record w)) "transform_id") 0 = Ok t /\ unpack 2 ENT_TRANSFORM e = Ok t;
  pa_retained : jget by_name (w_winner w) = None -> exists raw, wire_entry (w_record w) = Some raw /\ length raw = ENT_SIZE /\
    take 32 e = take 32 raw /\ drop 36 e = drop 36 raw;
}.

Lemma unpack_ext n off d d' : slice off (off + n) d = slice off (off + n) d' -> unpack n off d = unpack n off d'.
Proof. unfold unpack. by intros ->. Qed.

(** Two lists that differ only in the four bytes from 32 on. *)
Lemma slice_low {A} a b (l k : list A) : take 32 l = take 32 k -> b <= 32 -> slice a b l = slice a b k.
Proof. intros H Hb. rewrite <- (slice_take a b 32 l), <- (slice_take a b 32 k) by done. by rewrite H. Qed.

Lemma slice_high {A} a b (l k : list A) : drop 36 l = drop 36 k -> 36 <= a -> slice a b l = slice a b k.
Proof.
  intros H Ha. unfold slice. replace a with (36 + (a - 36)) by lia. rewrite <- !drop_drop. by rewrite H.
Qed.

Lemma lookup_high {A} i (l k : list A) : drop 36 l = drop 36 k -> 36 <= i -> l !! i = k !! i.
Proof. intros H Hi. replace i with (36 + (i - 36)) by lia. rewrite <- !lookup_drop. by rewrite H. Qed.

Lemma take_slice {A} n (l : list A) : take n l = slice 0 n l.
Proof. unfold slice. by rewrite drop_0, Nat.sub_0_r. Qed.

Section PackingProofs.
Context `{DispatchHash} (by_name : by_name_t) (type_values : list (string * Z)).

Lemma retain_packed st w st' : interned st -> winner_ok w -> jget by_name (w_winner w) = None -> retain_entry st w = Ok st' ->
  interned st' /\ (exists more, p_string_blob st' = p_string_blob st ++ more) /\
  exists e at_, p_packed st' = p_packed st ++ e /\ packed_as by_name w e at_ /\ holds_name (p_string_blob st') at_ (w_winner w).
Proof.
  intros Hst Hw Hn Hrun. unfold retain_entry in Hrun. apply bind_Ok in Hrun as (raw & Hraw%of_option_Ok & Hrun).
  apply bind_Ok in Hrun as (u & Hl%ensure_Ok%Nat.eqb_eq & Hrun). apply bind_Ok in Hrun as ([at_ st1] & Hi & Hrun).
  apply bind_Ok in Hrun as (offset & Ho & [= <-]). apply intern_Ok in Hi as (Hst1 & Hname & Hp & Hmore); [|done].
  pose proof (pack_uint_length _ _ _ Ho) as [Hol Hob]. apply pack_uint_Ok in Ho as [-> Hat].
  destruct (ok_wire _ Hw raw Hraw Hl) as [Hb Hk Hr Hm Hg Hkind].
  split; [destruct Hst1; by split|]. split; [done|]. set (e := take 32 raw ++ le 4 at_ ++ drop 36 raw). exists e, at_.
  split; [cbn; by rewrite Hp|]. split; [|done].
  assert (length (take 32 raw) = 32) as H32 by (rewrite length_take, Hl; done).
  assert (take 32 e = take 32 raw) as Hlow by (unfold e; rewrite take_app_le by lia; by rewrite take_take).
  assert (drop 36 e = drop 36 raw) as Hhigh.
  { unfold e. rewrite app_assoc, drop_app_ge by (rewrite length_app, H32, length_le; lia).
    rewrite length_app, H32, length_le. cbn [Nat.add Nat.sub]. by rewrite drop_0. }
  split.
  - unfold e. rewrite !length_app, H32, length_le, length_drop, Hl. done.
  - unfold e. apply Forall_app. split; [by apply Forall_take|]. apply Forall_app. split; [done|by apply Forall_drop].
  - apply (unpack_le 4 32); [|done]. by apply (slice_mid 32 36 (take 32 raw) (le 4 at_) (drop 36 raw)); [done|done|rewrite length_le].
  - rewrite <- Hk. f_equal. rewrite !(take_slice DIGEST_BYTES). apply slice_low; [done|vm_compute; lia].
  - rewrite <- Hr. f_equal. apply slice_high; [done|vm_compute; lia].
  - rewrite <- Hm. f_equal. apply slice_high; [done|vm_compute; lia].
  - rewrite <- Hg. apply unpack_ext. apply slice_high; [done|vm_compute; lia].
  - intros c Hc. by rewrite Hc in Hn.
  - intros _. by exists raw.
Qed.

Lemma fresh_packed st w c st' : interned st -> winner_ok w -> jget by_name (w_winner w) = Some c -> fresh_entry type_values st w c = Ok st' ->
  interned st' /\ (exists more, p_string_blob st' = p_string_blob st ++ more) /\
  exists e at_, p_packed st' = p_packed st ++ e /\ packed_as by_name w e at_ /\ holds_name (p_string_blob st') at_ (w_winner w).
Proof.
  intros Hst Hw Hn Hrun. unfold fresh_entry in Hrun. apply bind_Ok in Hrun as (fs & _ & Hrun). apply bind_Ok in Hrun as (src & _ & Hrun).
  apply bind_Ok in Hrun as (dg & Hdg & Hrun). apply bind_Ok in Hrun as (u & _ & Hrun). apply bind_Ok in Hrun as (sh & Hsh & Hrun).
  apply bind_Ok in Hrun as (sg & Hsg & Hrun). apply bind_Ok in Hrun as (mf & Hmf & Hrun). apply bind_Ok in Hrun as (rv & Hrv & Hrun).
  apply bind_Ok in Hrun as ([at_ st1] & Hi & Hrun). apply bind_Ok in Hrun as (off & Ho & Hrun). apply bind_Ok in Hrun as (iv & _ & Hrun).
  apply bind_Ok in Hrun as (im & [Him Himb]%pack_uint_length & Hrun). apply bind_Ok in Hrun as (pr & [Hpr Hprb]%pack_int_length & Hrun).
  apply bind_Ok in Hrun as (sc & [Hsc Hscb]%pack_int_length & Hrun). apply bind_Ok in Hrun as (wd & [Hwd Hwdb]%pack_int_length & Hrun).
  apply bind_Ok in Hrun as (ac & [Hac Hacb]%pack_uint_length & Hrun). apply bind_Ok in Hrun as (fb & [Hfb Hfbb]%pack_uint_length & Hrun).
  apply bind_Ok in Hrun as (sk & [Hsk Hskb]%pack_uint_length & Hrun). apply bind_Ok in Hrun as (s0 & [Hs0 Hs0b]%pack_uint_length & Hrun).
  apply bind_Ok in Hrun as (gn & Hgn & Hrun). apply bind_Ok in Hrun as (t & Ht & Hrun). apply bind_Ok in Hrun as (u1 & _ & Hrun).
  apply bind_Ok in Hrun as (tr & Htr & Hrun). apply bind_Ok in Hrun as (mk & _ & Hrun). apply bind_Ok in Hrun as (u2 & _ & Hrun).
  apply bind_Ok in Hrun as (kd & [Hkd Hkdb]%pack_uint_length & Hrun). injection Hrun as <-.
  apply intern_Ok in Hi as (Hst1 & Hname & Hp & Hmore); [|done].
  pose proof (canonical_bytes _ _ (ok_key _ Hw) Hdg) as (Hdl & Hdb & Hdh). pose proof (canonical_bytes _ _ (ok_revision _ Hw) Hrv) as (Hrl & Hrb & Hrh).
  pose proof (canonical_bytes _ _ (ok_manifest _ Hw) Hmf) as (Hml & Hmb & Hmh).
  assert (canonical sh) as Hshc.
  { unfold signature_of in Hsh. apply bind_Ok in Hsh as (x & Hx & Hsh). apply bind_Ok in Hsh as (? & _ & [= <-]).
    destruct (field _ "signature"); try done; by apply digest_hex_canonical in Hx. }
  pose proof (canonical_bytes _ _ Hshc Hsg) as (Hsl & Hsb & Hshx).
  pose proof (pack_uint_length _ _ _ Ho) as [Hol Hob]. pose proof (pack_uint_length _ _ _ Hgn) as [Hgl Hgb].
  pose proof (pack_uint_length _ _ _ Htr) as [Htl Htb]. apply pack_uint_Ok in Ho as [Hoe Hat], Hgn as [Hge Hgr], Htr as [Hte Htrr].
  split; [destruct Hst1; by split|]. split; [done|].
  set (e := dg ++ sg ++ off ++ im ++ (pr ++ sc ++ wd) ++ (ac ++ fb ++ sk ++ s0) ++ mf ++ rv ++ gn ++ tr ++ kd). exists e, at_.
  split; [cbn; by rewrite Hp|]. split; [|done]. unfold DIGEST_BYTES in Hdl, Hrl, Hml, Hsl.
  set (core := off ++ im ++ (pr ++ sc ++ wd) ++ ac ++ fb ++ sk ++ s0).
  assert (length core = 22) as Hcl by (unfold core; rewrite !length_app; lia).
  assert (e = dg ++ sg ++ core ++ mf ++ rv ++ gn ++ tr ++ kd) as He by (unfold e, core; by rewrite <- !app_assoc).
  assert (length e = ENT_SIZE) as Hel by (rewrite He, !length_app, Hcl; cbn; lia).
  split; [done| |..].
  - rewrite He. unfold core. by repeat (apply Forall_app; split).
  - rewrite (unpack_le 4 32 e at_); [done| |done]. rewrite <- Hoe.
    apply (slice_mid 32 36 (dg ++ sg) off (im ++ (pr ++ sc ++ wd) ++ (ac ++ fb ++ sk ++ s0) ++ mf ++ rv ++ gn ++ tr ++ kd));
      [unfold e; by rewrite <- !app_assoc|rewrite length_app; lia|lia].
  - rewrite He, take_app_le, take_ge by (unfold DIGEST_BYTES; lia). done.
  - rewrite (slice_mid 70 86 (dg ++ sg ++ core ++ mf) rv (gn ++ tr ++ kd)); [done|by rewrite He, <- !app_assoc|rewrite !length_app; lia|lia].
  - rewrite (slice_mid 54 70 (dg ++ sg ++ core) mf (rv ++ gn ++ tr ++ kd)); [done|by rewrite He, <- !app_assoc|rewrite !length_app; lia|lia].
  - apply (unpack_le 4 86); [|done]. rewrite <- Hge.
    apply (slice_mid 86 90 (dg ++ sg ++ core ++ mf ++ rv) gn (tr ++ kd)); [by rewrite He, <- !app_assoc|rewrite !length_app; lia|lia].
  - intros _ _. split.
    + rewrite (slice_mid 16 32 dg sg (core ++ mf ++ rv ++ gn ++ tr ++ kd)); [by rewrite Hshx|by rewrite He|lia|lia].
    + exists t. split; [done|]. apply (unpack_le 2 90); [|done]. rewrite <- Hte.
      apply (slice_mid 90 92 (dg ++ sg ++ core ++ mf ++ rv ++ gn) tr kd); [by rewrite He, <- !app_assoc|rewrite !length_app; lia|lia].
  - intros Hnone. by rewrite Hn in Hnone.
Qed.

Lemma pack_loop ws st st' : interned st -> Forall winner_ok ws -> foldR (pack_entry by_name type_values) ws st = Ok st' ->
  interned st' /\ (exists more, p_string_blob st' = p_string_blob st ++ more) /\
  exists es, p_packed st' = p_packed st ++ concat es /\
    Forall2 (fun w e => exists at_, packed_as by_name w e at_ /\ holds_name (p_string_blob st') at_ (w_winner w)) ws es.
Proof.
  intros Hst Hws. revert st Hst. induction Hws as [|w ws Hw Hws IH]; intros st Hst; cbn [foldR].
  - intros [= <-]. split; [done|]. split; [exists []; by rewrite app_nil_r|]. exists []. split; [by rewrite app_nil_r|constructor].
  - intros (st1 & H1 & Hrun)%bind_Ok.
    assert (interned st1 /\ (exists more, p_string_blob st1 = p_string_blob st ++ more) /\
      exists e at_, p_packed st1 = p_packed st ++ e /\ packed_as by_name w e at_ /\ holds_name (p_string_blob st1) at_ (w_winner w))
      as (Hst1 & [m1 Hm1] & e & at_ & Hp1 & He & Hn).
    { unfold pack_entry in H1. destruct (jget by_name (w_winner w)) eqn:E; [by eapply fresh_packed|by apply retain_packed]. }
    destruct (IH st1 Hst1 Hrun) as (Hst' & [m2 Hm2] & es & Hp2 & Hes). split; [done|]. split.
    + exists (m1 ++ m2). by rewrite Hm2, Hm1, <- app_assoc.
    + exists (e :: es). split; [cbn; by rewrite Hp2, Hp1, <- app_assoc|]. constructor; [|done]. exists at_. split; [done|].
      rewrite Hm2. by apply holds_name_app.
Qed.

(** What a reader of the cache sees of a winner. *)
Record exports (w : Winner) (en : Entry) : Prop := {
  exp_key : e_portable_key en = w_key w;
  exp_winner : e_winner en = w_winner w;
  exp_generation : e_generation en = w_generation w;
  exp_identity : (e_source_revision_digest en, e_manifest_hash en) = w_identity w;
  exp_fresh : forall c, jget by_name (w_winner w) = Some c ->
    signature_of w = Ok (e_signature en) /\ int_or (field (fields (w_record w)) "transform_id") 0 = Ok (e_transform_id en);
  exp_retained : jget by_name (w_winner w) = None -> exists raw, wire_entry (w_record w) = Some raw /\
    e_signature en = bytes_hex (slice DIGEST_BYTES (2 * DIGEST_BYTES) raw) /\ unpack 2 ENT_TRANSFORM raw = Ok (e_transform_id en) /\
    drop 36 (e_wire_entry en) = drop 36 raw;
}.

Lemma read_packed strings w e at_ : packed_as by_name w e at_ -> holds_name strings at_ (w_winner w) -> no_nul (w_winner w) = true ->
  exists en, read_entry strings e = Ok en /\ exports w en.
Proof.
  intros He (Hat & Hu & rest & Hd) Hnul. destruct He as [Hl Hb Ho Hk Hr Hm Hg Hf Hret]. unfold read_entry. rewrite Ho. cbn [mbind result_bind].
  assert (name_at (Z.to_nat at_) strings = Ok (w_winner w)) as ->.
  { unfold name_at. rewrite Hd, until_nul_app by done. cbn [of_option mbind result_bind]. unfold decode. by rewrite Hu, str_of_bytes_of_str. }
  rewrite Hg. cbn [mbind result_bind]. destruct (byte_at_Ok ENT_MATCH_KIND e) as [k ->]; [rewrite Hl; vm_compute; lia|].
  assert (exists t, unpack 2 ENT_TRANSFORM e = Ok t) as [t Ht] by (rewrite unpack_slice by (rewrite Hl; vm_compute; lia); by eexists).
  rewrite Ht. cbn [mbind result_bind]. eexists. split; [done|].
  split; cbn [e_portable_key e_winner e_generation e_source_revision_digest e_manifest_hash e_signature e_transform_id e_wire_entry];
    [done..|by rewrite Hr, Hm; destruct (w_identity w)| |].
  - intros c Hc. destruct (Hf c Hc) as (Hs & t' & Hi & Ht'). split; [done|]. rewrite Ht in Ht'. by injection Ht' as <-.
  - intros Hn. destruct (Hret Hn) as (raw & Hraw & Hrl & Hlow & Hhigh). exists raw. split_and!; [done| |rewrite <- Ht|done].
    + f_equal. apply slice_low; [done|vm_compute; lia].
    + apply unpack_ext. apply slice_high; [done|vm_compute; lia].
Qed.

Lemma read_all_packed strings ws es :
  Forall2 (fun w e => exists at_, packed_as by_name w e at_ /\ holds_name strings at_ (w_winner w)) ws es ->
  Forall (fun w => no_nul (w_winner w) = true) ws ->
  exists ens, mapR (read_entry strings) es = Ok ens /\ Forall2 exports ws ens.
Proof.
  induction 1 as [|w e ws es (at_ & He & Hn) _ IH]; intros Hws; [by exists []; split; [|constructor]|].
  apply Forall_cons in Hws as [Hw Hws]. destruct (IH Hws) as (ens & Hens & Hex).
  destruct (read_packed _ _ _ _ He Hn Hw) as (en & Hen & Hx). exists (en :: ens). cbn. rewrite Hen. cbn. rewrite Hens. cbn.
  split; [done|by constructor].
Qed.

Lemma concat_inj {A} n (l k : list (list A)) : Forall (fun x => length x = n) l -> Forall (fun x => length x = n) k ->
  length l = length k -> concat l = concat k -> l = k.
Proof.
  intros Hl. revert k. induction Hl as [|x l Hx Hl IH]; intros [|y k] Hk Hlen Hc; cbn in *; try done; try lia.
  apply Forall_cons in Hk as [Hy Hk]. apply app_inj_1 in Hc as [-> Hc]; [|lia]. f_equal. apply IH; [done|lia|done].
Qed.

Lemma pack_header_Ok `{!DispatchHashLaws} n sb mh payload hd : canonical mh -> pack_header n sb mh payload = Ok hd ->
  length hd = REPLAY_HEADER_SIZE /\ Forall byte hd /\ unpack 4 16 hd = Ok (Z.of_nat n) /\ unpack 4 20 hd = Ok (Z.of_nat sb) /\
  bytes_hex (slice 24 40 hd) = mh.
Proof.
  intros Hmh Hrun. unfold pack_header in Hrun. apply bind_Ok in Hrun as (a & [Ha Hab]%pack_uint_length & Hrun).
  apply bind_Ok in Hrun as (b & [Hb Hbb]%pack_uint_length & Hrun). apply bind_Ok in Hrun as (c & [Hc Hcb]%pack_uint_length & Hrun).
  apply bind_Ok in Hrun as (d & [Hd Hdb]%pack_uint_length & Hrun). apply bind_Ok in Hrun as (f & [Hf Hfb]%pack_uint_length & Hrun).
  apply bind_Ok in Hrun as (x & Hx & Hrun). apply bind_Ok in Hrun as (y & Hy & Hrun). apply bind_Ok in Hrun as (m & Hm & Hrun).
  apply bind_Ok in Hrun as (u & Hl%ensure_Ok%Nat.eqb_eq & [= Hhd]). pose proof (pack_uint_length _ _ _ Hx) as [Hxl Hxb].
  pose proof (pack_uint_length _ _ _ Hy) as [Hyl Hyb]. apply pack_uint_Ok in Hx as [Hx Hxr], Hy as [Hy Hyr].
  destruct (canonical_bytes _ _ Hmh Hm) as (Hml & Hmb & Hmx). unfold DIGEST_BYTES in Hml. rewrite Hhd in Hl. split_and!; [done|..].
  - rewrite <- Hhd. by repeat (apply Forall_app; split); try done; apply digest_bytes.
  - apply (unpack_le 4 16); [|done]. rewrite <- Hx.
    apply (slice_mid 16 20 (a ++ b ++ c ++ d ++ f) x (y ++ m ++ blake2b_digest payload)); [by rewrite <- Hhd, <- !app_assoc|rewrite !length_app; lia|lia].
  - apply (unpack_le 4 20); [|done]. rewrite <- Hy.
    apply (slice_mid 20 24 (a ++ b ++ c ++ d ++ f ++ x) y (m ++ blake2b_digest payload)); [by rewrite <- Hhd, <- !app_assoc|rewrite !length_app; lia|lia].
  - rewrite (slice_mid 24 40 (a ++ b ++ c ++ d ++ f ++ x ++ y) m (blake2b_digest payload)); [done|by rewrite <- Hhd, <- !app_assoc|rewrite !length_app; lia|lia].
Qed.

Lemma unpack_app n off l k : off + n <= length l -> unpack n off (l ++ k) = unpack n off l.
Proof. intros Hl. apply unpack_ext. by apply slice_app_l. Qed.

(** ** Packing and reading back *)

(** The two orders are one. *)
Lemma pack_order ws : StronglySorted before ws -> py_sorted pack_leb ws = ws.
Proof.
  intros Hs. apply py_sorted_id. induction Hs as [|w ws Hs IH Hw]; constructor; [done|]. eapply Forall_impl; [exact Hw|].
  intros v [Hle _]. unfold leb_rel, pack_leb, place_leb, by_identity, lex_leb, slot in *. cbn [fst snd] in *. unfold descending in Hle.
  destruct (decide (w_key w = w_key v)); [|done]. destruct (decide (w_generation w = w_generation v)) as [->|Hne].
  - by rewrite decide_True.
  - rewrite decide_False by lia. apply Z.leb_le in Hle. apply Z.leb_le. lia.
Qed.

Lemma concat_length {A} n (l : list (list A)) : Forall (fun x => length x = n) l -> length (concat l) = length l * n.
Proof. induction 1 as [|x l Hx Hl IH]; [done|]. cbn. rewrite length_app. lia. Qed.

(** A check that passes with the manifest passes without. *)
Lemma preflight_any_manifest size check h enforce blob r :
  preflight size check (Some h) enforce blob = Ok r -> preflight size check None enforce blob = Ok r.
Proof.
  assert (forall A B (m : res A) (f f' : A -> res B) b, (forall a, f a = Ok b -> f' a = Ok b) -> (m ≫= f) = Ok b -> (m ≫= f') = Ok b) as Hb.
  { intros A B m f f' b Hf (a & Ha & Hfa)%bind_Ok. apply bind_Ok. exists a. by split; [|apply Hf]. }
  unfold preflight. do 13 (apply Hb; intros ?). intros (u & _ & Hrun)%bind_Ok. cbn [mbind result_bind]. exact Hrun.
Qed.

Lemma packed_read `{!DispatchHashLaws} mh ws blob : canonical mh -> StronglySorted before ws -> Forall winner_ok ws ->
  Forall (fun w => no_nul (w_winner w) = true) ws -> pack_cache by_name type_values mh ws = Ok blob ->
  exists header entries, read_cache true blob = Ok (header, entries) /\ h_manifest_hash header = mh /\ Forall2 exports ws entries.
Proof.
  intros Hmh Hs Hok Hnul Hrun. unfold pack_cache in Hrun. rewrite pack_order in Hrun by done.
  apply bind_Ok in Hrun as (st & Hst & Hrun). apply bind_Ok in Hrun as (hd & Hhd & Hrun). apply bind_Ok in Hrun as ([n sb] & Hv & [= <-]).
  destruct (pack_loop ws (mkPacker [] [] []) st ltac:(split; [constructor|done]) Hok Hst) as (Hint & _ & es & Hp & Hes). cbn in Hp.
  destruct (pack_header_Ok _ _ _ _ _ Hmh Hhd) as (Hhl & Hhb & Hcount & Hstrings & Hm).
  assert (Forall (fun e => length e = ENT_SIZE) es) as Hlens.
  { clear -Hes. induction Hes as [|w e ws es (at_ & He & _) _ IH]; constructor; [by destruct He|done]. }
  assert (length (p_packed st) / ENT_SIZE = length es) as Hn by (rewrite Hp, (concat_length ENT_SIZE) by done; by apply Nat.div_mul).
  rewrite Hn in Hcount. set (blob := hd ++ p_packed st ++ p_string_blob st) in *.
  assert (Forall byte blob) as Hb.
  { unfold blob. apply Forall_app. split; [done|]. apply Forall_app. destruct Hint as [Hsb _]. split; [|done]. rewrite Hp.
    clear -Hes. induction Hes as [|w e ws es (at_ & He & _) _ IH]; [constructor|]. cbn. apply Forall_app. split; [by destruct He|done]. }
  assert (forall off v, off + 4 <= REPLAY_HEADER_SIZE -> unpack 4 off hd = Ok v -> int_of_bytes (rev (slice off (off + 4) blob)) = v) as Hhead.
  { intros off v Ho Hu. rewrite <- (unpack_app 4 off hd (p_packed st ++ p_string_blob st)), unpack_slice in Hu; [by injection Hu| |lia].
    rewrite length_app. lia. }
  destruct (validate_Ok _ _ _ _ _ Hb Hv) as (Hpre & _). destruct (preflight_count _ _ _ _ _ _ _ Hpre) as [En Esb].
  pose proof (Hhead 16 _ ltac:(vm_compute; lia) Hcount) as H16. pose proof (Hhead 20 _ ltac:(vm_compute; lia) Hstrings) as H20.
  change (16 + 4) with 20 in H16. change (20 + 4) with 24 in H20. rewrite H16, Nat2Z.id in En. rewrite H20, Nat2Z.id in Esb.
  subst n sb. pose proof Hpre as (Hlen & _)%preflight_Ok; [|done].
  assert (length (p_packed st) = length es * ENT_SIZE) as Hpl by (rewrite Hp; by apply concat_length).
  assert (entries_of ENT_SIZE (length es) blob = es) as Hents.
  { apply (concat_inj ENT_SIZE); [|done|unfold entries_of; by rewrite length_map, length_seq|].
    - apply Forall_forall. intros e He. by eapply entries_of_lengths.
    - rewrite concat_entries, <- Hp. apply (slice_mid _ _ hd (p_packed st) (p_string_blob st)); [done|done|lia]. }
  assert (strings_of ENT_SIZE (length es) (length (p_string_blob st)) blob = p_string_blob st) as Hstr.
  { unfold strings_of. apply (slice_mid _ _ (hd ++ p_packed st) (p_string_blob st) []); [by rewrite app_nil_r, <- app_assoc|rewrite length_app; lia|lia]. }
  destruct (read_all_packed _ _ _ Hes Hnul) as (ens & Hens & Hex). destruct (header_of_Ok blob) as [h Hh]; [lia|].
  exists h, ens. split_and!; [| |done].
  - unfold read_cache, validate_blob in *. apply bind_Ok in Hv as ([n' sb'] & Hv & Hf). apply preflight_any_manifest in Hv. rewrite Hv.
    cbn [mbind result_bind]. apply bind_Ok in Hf as (seen & Hf & [= -> ->]). rewrite Hf. cbn [mbind result_bind]. rewrite Hh.
    cbn [mbind result_bind]. by rewrite Hents, Hstr, Hens.
  - unfold header_of in Hh. rewrite !unpack_slice in Hh by (rewrite Hlen; unfold REPLAY_HEADER_SIZE; lia). cbn [mbind result_bind] in Hh. injection Hh as <-.
    cbn [h_manifest_hash]. rewrite <- Hm. f_equal. unfold blob. by rewrite slice_app_l by (rewrite Hhl; vm_compute; lia).
Qed.

End PackingProofs.

(** ** Where winners come from *)

Section Origins.
Context `{DispatchHash} `{!DispatchHashLaws}.

Lemma digest_hex_id s label h : canonical s -> digest_hex (JStr s) label = Ok h -> h = s.
Proof. intros [Hx Hl]. unfold digest_hex. rewrite Hx, Hl. by intros [= <-]. Qed.

Lemma canonical_truthy h : canonical h -> truthy h = true.
Proof. intros [Hx _]. apply hex_text_digits in Hx as [Hl _]. apply truthy_true. by intros ->. Qed.

Lemma revision_digest_canonical v d : source_revision_digest v = Ok d -> canonical d.
Proof.
  unfold source_revision_digest. destruct v; try done. destruct (hex_text 40 s); [|done]. intros [= <-].
  apply hex_canonical; [apply digest_length|apply digest_bytes].
Qed.

(** What the two kinds of provenance are. *)
Lemma provenance_shape i r p : provenance_of i r = Ok p ->
  (exists m d, canonical m /\ canonical d /\ p = [("manifest_hash", JStr m); ("source_revision_digest", JStr d)]) \/
  (exists rev m more, canonical m /\ p = [("source_revision", JStr rev); ("manifest_hash", JStr m)] ++ more /\
     jget more "source_revision_digest" = None).
Proof.
  unfold provenance_of. intros (raw & _ & Hrun)%bind_Ok. apply bind_Ok in Hrun as ([] & _ & Hrun).
  - left. destruct raw as [| | | | | |o]; try done. apply bind_Ok in Hrun as (m & Hm%digest_hex_canonical & Hrun).
    apply bind_Ok in Hrun as (d & Hd%digest_hex_canonical & [= <-]). by exists m, d.
  - right. unfold validate_provenance_namespace in Hrun. destruct raw as [| | | | | |o]; try done.
    apply bind_Ok in Hrun as (rev & _ & Hrun). apply bind_Ok in Hrun as (m & Hm%digest_hex_canonical & Hrun).
    apply bind_Ok in Hrun as (de & Hde & Hrun). apply bind_Ok in Hrun as (vs & Hvs & [= <-]). exists (py_lower rev), m, (de ++ vs).
    split_and!; [done|done|].
    assert (de = [] \/ exists d, de = [("build_descriptor_hash", d)]) as Hde'.
    { destruct (field o "build_descriptor_hash"); [by injection Hde; left|..]; right; by apply bind_Ok in Hde as (d & _ & [= <-]); exists (JStr d). }
    assert (vs = [] \/ exists d, vs = [("variant_set", d)]) as Hvs'.
    { destruct (field o "variant_set"); try done; [by injection Hvs; left|]. destruct (blank s); [done|]. injection Hvs as <-. right. by eexists. }
    destruct Hde' as [->|[? ->]], Hvs' as [->|[? ->]]; reflexivity.
Qed.

Lemma identity_canonical i r p id : provenance_of i r = Ok p -> identity_in p = Ok id -> canonical id.1 /\ canonical id.2.
Proof.
  intros [(m & d & Hm & Hd & ->)|(rev & m & more & Hm & -> & Hn)]%provenance_shape; unfold identity_in.
  - change (field _ "source_revision_digest") with (JStr d). cbv iota. rewrite canonical_truthy by done. cbn. by intros [= <-].
  - assert (field ([("source_revision", JStr rev); ("manifest_hash", JStr m)] ++ more) "source_revision_digest" = JNull) as ->.
    { unfold field, get_or. cbn. by rewrite Hn. }
    cbv iota. intros (d & (v & _ & Hd%revision_digest_canonical)%bind_Ok & Hrun)%bind_Ok. apply bind_Ok in Hrun as (mm & Hmm & [= <-]).
    cbn in Hmm. injection Hmm as <-. done.
Qed.

(** An entry that was read says what its bytes say. *)
Record entry_wf (e : Entry) : Prop := {
  ew_key : canonical (e_portable_key e);
  ew_revision : canonical (e_source_revision_digest e);
  ew_manifest : canonical (e_manifest_hash e);
  ew_byte : Forall byte (e_wire_entry e);
  ew_name : no_nul (e_winner e) = true;
  ew_wire : length (e_wire_entry e) = ENT_SIZE ->
    bytes_hex (take DIGEST_BYTES (e_wire_entry e)) = e_portable_key e /\
    bytes_hex (slice ENT_SOURCE_REVISION ENT_GENERATION (e_wire_entry e)) = e_source_revision_digest e /\
    bytes_hex (slice ENT_MANIFEST ENT_SOURCE_REVISION (e_wire_entry e)) = e_manifest_hash e /\
    unpack 4 ENT_GENERATION (e_wire_entry e) = Ok (e_generation e) /\ byte_at ENT_MATCH_KIND (e_wire_entry e) = Ok MATCH_KIND_EXACT;
}.

Lemma normalize_inv i r w : normalize i r = Ok w ->
  w_record w = r /\ field (fields r) "winner" = JStr (w_winner w) /\ get_or (fields r) "generation" (JInt 0) = JInt (w_generation w) /\
  canonical (w_key w) /\ (exists p, provenance_of i (fields r) = Ok p /\ identity_in p = Ok (w_identity w)) /\
  (field (fields r) "portable_key" <> JNull -> exists label, digest_hex (field (fields r) "portable_key") label = Ok (w_key w)).
Proof.
  unfold normalize. cbv zeta. intros (p & Hp & Hrun)%bind_Ok. apply bind_Ok in Hrun as (g & Hg & Hrun). apply bind_Ok in Hrun as (k & Hk & Hrun).
  apply bind_Ok in Hrun as (key & Hkey & Hrun). apply bind_Ok in Hrun as (wn & Hwn & Hrun). apply bind_Ok in Hrun as (id & Hid & [= <-]).
  cbn. split_and!; [done| | |by eapply digest_hex_canonical|by exists p|].
  - destruct (field (fields r) "winner"); try done. destruct (truthy s); [|done]. by injection Hwn as ->.
  - destruct (get_or (fields r) "generation" (JInt 0)); try done. destruct (0 <=? z)%Z; [|done]. by injection Hg as ->.
  - intros Hn. eexists. destruct (field (fields r) "portable_key"); [done|by injection Hk as <-..].
Qed.

(** A winner that was read from a cache has the place of its entry. *)
Lemma normalize_entry i e w : entry_wf e -> normalize i (entry_record e) = Ok w ->
  w_key w = e_portable_key e /\ w_generation w = e_generation e /\
  w_identity w = (e_source_revision_digest e, e_manifest_hash e) /\ w_winner w = e_winner e.
Proof.
  intros He Hn. destruct (normalize_inv _ _ _ Hn) as (_ & Hw & Hg & _ & (p & Hp & Hid) & Hk).
  destruct (Hk ltac:(done)) as [label Hkey]. apply digest_hex_id in Hkey; [|apply He]. split_and!; [done|by injection Hg| |by injection Hw].
  unfold provenance_of, raw_provenance in Hp. change (field _ "provenance") with JNull in Hp.
  change (field (fields (entry_record e)) "source_revision_digest") with (JStr (e_source_revision_digest e)) in Hp.
  change (field (fields (entry_record e)) "manifest_hash") with (JStr (e_manifest_hash e)) in Hp. cbv iota in Hp.
  apply bind_Ok in Hp as (raw & Hraw & Hp). apply bind_Ok in Hraw as (m & Hm%digest_hex_id & Hraw); [|apply He].
  apply bind_Ok in Hraw as (d & Hd%digest_hex_id & [= <-]); [|apply He]. subst m d. cbn [contains_key has_key mbind result_bind] in Hp.
  change (has_key _ "source_revision_digest") with true in Hp. cbv iota in Hp.
  change (field _ "manifest_hash") with (JStr (e_manifest_hash e)) in Hp. change (field _ "source_revision_digest") with (JStr (e_source_revision_digest e)) in Hp.
  apply bind_Ok in Hp as (m & Hm%digest_hex_id & Hp); [|apply He]. apply bind_Ok in Hp as (d & Hd%digest_hex_id & [= <-]); [|apply He]. subst m d.
  unfold identity_in in Hid. change (field _ "source_revision_digest") with (JStr (e_source_revision_digest e)) in Hid. cbv iota in Hid.
  rewrite canonical_truthy in Hid by apply He. cbn in Hid. by injection Hid.
Qed.

Lemma normalize_entry_ok i e w : entry_wf e -> normalize i (entry_record e) = Ok w -> winner_ok w.
Proof.
  intros He Hn. destruct (normalize_entry _ _ _ He Hn) as (Hk & Hg & Hid & _). destruct (normalize_inv _ _ _ Hn) as (Hrec & _).
  destruct He as [? ? ? Hb ? Hwire]. split; [by rewrite Hk|by rewrite Hid..|]. rewrite Hrec. cbn [entry_record wire_entry]. intros raw [= <-] Hl.
  destruct (Hwire Hl) as (H1 & H2 & H3 & H4 & H5). split; rewrite ?Hk, ?Hid, ?Hg; done.
Qed.

Lemma normalize_plain_ok i r w : wire_entry r = None -> normalize i r = Ok w -> winner_ok w.
Proof.
  intros Hr Hn. destruct (normalize_inv _ _ _ Hn) as (Hrec & _ & _ & Hk & (p & Hp & Hid) & _).
  destruct (identity_canonical _ _ _ _ Hp Hid). split; [done..|]. intros raw. by rewrite Hrec, Hr.
Qed.

(** A name that was read has no NUL. *)
Lemma name_at_no_nul off strings s : Forall byte strings -> name_at off strings = Ok s -> no_nul s = true.
Proof.
  intros Hb. unfold name_at. intros (raw & Hraw%of_option_Ok & Hs)%bind_Ok. unfold decode in Hs. destruct (utf8_valid raw); [|done].
  injection Hs as <-. assert (forall l r, Forall byte l -> until_nul l = Some r -> Forall byte r /\ forallb (fun b => negb (b =? 0)%Z) r = true) as Hr.
  { clear. intros l. induction l as [|b l IH]; intros r Hl; [done|]. cbn [until_nul]. apply Forall_cons in Hl as [Hb Hl].
    destruct (b =? 0)%Z eqn:E; [by intros [= <-]|]. intros H0. destruct (until_nul l) as [n|] eqn:En; [|done]. cbn in H0. injection H0 as <-.
    destruct (IH n Hl eq_refl). split; [by constructor|]. cbn [forallb]. by rewrite E. }
  destruct (Hr _ _ (Forall_drop _ off _ Hb) Hraw) as [Hrb Hrn]. unfold no_nul. by rewrite bytes_of_str_of_bytes.
Qed.

(** The entries of a file that was read. *)
Lemma hex_slice_canonical a b (l : bytes) : b <= length l -> b - a = DIGEST_BYTES -> Forall byte l -> canonical (bytes_hex (slice a b l)).
Proof. intros Hb Hd Hl. apply hex_canonical; [by rewrite length_slice|by apply Forall_slice]. Qed.

Lemma read_cache_wf enforce blob h es : Forall byte blob -> read_cache enforce blob = Ok (h, es) -> Forall entry_wf es.
Proof.
  intros Hb Hr. unfold read_cache in Hr. apply bind_Ok in Hr as ([n sb] & Hv & Hr). destruct (validate_Ok _ _ _ _ _ Hb Hv) as (Hp & ids & _ & _ & Hes).
  destruct (preflight_Ok _ _ _ _ _ _ _ Hb Hp) as (Hl & _). apply bind_Ok in Hr as (hd & _ & Hr). apply bind_Ok in Hr as (ens & Hens & [= <- <-]).
  apply mapR_Ok in Hens. assert (Forall (fun e => length e = ENT_SIZE /\ Forall byte e) (entries_of ENT_SIZE n blob)) as Hall.
  { apply Forall_forall. intros e He. split; [by eapply entries_of_lengths|]. unfold entries_of in He.
    apply list_elem_of_fmap in He as (k & -> & _). by apply Forall_slice. }
  induction Hens as [|e en l1 l2 He Hens IH]; [constructor|]. apply Forall_cons in Hall as [[Hel Heb] Hall].
  apply Forall_cons in Hes as [(off & _ & _ & Hk) Hes]. constructor; [|by apply IH]. unfold read_entry in He.
  apply bind_Ok in He as (o & _ & He). apply bind_Ok in He as (wn & Hwn & He). apply bind_Ok in He as (g & Hg & He).
  apply bind_Ok in He as (t & _ & He). apply bind_Ok in He as (k & _ & [= <-]).
  split; cbn [e_portable_key e_source_revision_digest e_manifest_hash e_wire_entry e_generation e_winner]; [..|done|eapply name_at_no_nul, Hwn; by apply Forall_slice|done].
  - rewrite take_slice. apply hex_slice_canonical; [rewrite Hel; vm_compute; lia|done|done].
  - apply hex_slice_canonical; [rewrite Hel; vm_compute; lia|done|done].
  - apply hex_slice_canonical; [rewrite Hel; vm_compute; lia|done|done].
Qed.

Lemma read_v4_wf enforce blob h es : Forall byte blob -> read_cache_legacy_v4 enforce blob = Ok (h, es) -> Forall entry_wf es.
Proof.
  intros Hb Hr. unfold read_cache_legacy_v4 in Hr. apply bind_Ok in Hr as ([n sb] & Hp & Hr).
  destruct (preflight_Ok _ _ _ _ _ _ _ Hb Hp) as (Hl & _). apply bind_Ok in Hr as (st & Hst & Hr). apply bind_Ok in Hr as (hd & _ & [= <- <-]).
  pattern st. eapply foldR_ind; [|..|exact Hst]; [constructor|]. intros [seen es] e st' He Hes Hstep. unfold read_entry_v4 in Hstep.
  assert (length e = ENT_SIZE_V4) as Hel by (by eapply entries_of_lengths).
  assert (Forall byte e) as Heb by (unfold entries_of in He; apply list_elem_of_fmap in He as (k & -> & _); by apply Forall_slice).
  apply bind_Ok in Hstep as (s & _ & Hstep). apply bind_Ok in Hstep as (o & _ & Hstep). apply bind_Ok in Hstep as (wn & Hwn & Hstep).
  apply bind_Ok in Hstep as (g & Hg & [= <-]). cbn [snd] in *. apply Forall_app. split; [done|]. constructor; [|constructor].
  split; cbn [e_portable_key e_source_revision_digest e_manifest_hash e_wire_entry e_generation e_winner]; [..|done|eapply name_at_no_nul, Hwn; by apply Forall_slice|by rewrite Hel].
  - rewrite take_slice. apply hex_slice_canonical; [rewrite Hel; vm_compute; lia|done|done].
  - apply hex_slice_canonical; [rewrite Hel; vm_compute; lia|done|done].
  - apply hex_slice_canonical; [rewrite Hel; vm_compute; lia|done|done].
Qed.

End Origins.

(** ** The rows of this run *)

Lemma jget_in {A} (o : list (string * A)) k v : jget o k = Some v -> (k, v) ∈ o.
Proof.
  induction o as [|[a b] o IH]; [done|]. cbn. destruct (String.eqb_spec k a) as [->|]; [intros [= <-]; left|intros ?%IH; by right].
Qed.

Section Rows.
Context `{DispatchHash} `{!DispatchHashLaws}.

Lemma field_update o k v k' : field (dict_set o k v) k' = if String.eqb k' k then v else field o k'.
Proof. unfold field, get_or. rewrite jget_dict_set. by destruct (String.eqb k' k). Qed.

Definition keys_canonical {A} (d : list (string * A)) : Prop := forall k, k ∈ map fst d -> canonical k.

Lemma keys_canonical_set {A} (d : list (string * A)) k v : canonical k -> keys_canonical d -> keys_canonical (dict_set d k v).
Proof. intros Hk Hd k' [->|Hin]%elem_of_dict_set; [done|by apply Hd]. Qed.

Lemma read_line_dispatch st line st' : read_line st line = Ok st' ->
  Forall (fun r => canonical (dispatch_of r)) (r_results st) -> Forall (fun r => canonical (dispatch_of r)) (r_results st').
Proof.
  unfold read_line. intros Hrun Hst. destruct (negb (truthy (py_strip line))); [by injection Hrun as <-|].
  apply bind_Ok in Hrun as (record & _ & Hrun). destruct record as [| | | | | |o]; try done. destruct (is_str _ "header").
  - by apply bind_Ok in Hrun as (u & _ & [= <-]).
  - destruct (_ && _); [|by apply bind_Ok in Hrun as (u & _ & [= <-])]. apply bind_Ok in Hrun as (u & _ & Hrun).
    apply bind_Ok in Hrun as (d & Hd%digest_hex_canonical & Hrun). apply bind_Ok in Hrun as (u1 & _ & [= <-]).
    cbn [r_results]. apply Forall_app. split; [done|]. constructor; [|constructor]. unfold dispatch_of. by rewrite field_update.
Qed.

Lemma results_keys text b header results : read_results text b = Ok (header, results) -> keys_canonical (entries_of_results results).
Proof.
  unfold read_results. intros (st & Hst & Hrun)%bind_Ok. apply bind_Ok in Hrun as (u & _ & [= _ <-]).
  assert (Forall (fun r => canonical (dispatch_of r)) (r_results st)) as Hall.
  { eapply (foldR_ind (fun st => Forall (fun r => canonical (dispatch_of r)) (r_results st))); [|..|exact Hst]; [constructor|].
    intros s l s' _ Hs Hl. by eapply read_line_dispatch. }
  unfold entries_of_results. assert (keys_canonical ([] : list (string * obj))) as Hd by (by intros k ?%elem_of_nil). revert Hd.
  generalize ([] : list (string * obj)). induction Hall as [|r l Hr Hl IH]; intros d Hd; [done|]. cbn [fold_left].
  by apply IH, keys_canonical_set.
Qed.

Lemma load_override_keys by_name manifest mh d raw d' : load_override by_name manifest mh d raw = Ok d' ->
  keys_canonical d -> keys_canonical d'.
Proof.
  unfold load_override. intros (digest & Hdg%digest_hex_canonical & Hrun)%bind_Ok Hd. apply bind_Ok in Hrun as (u & _ & Hrun). cbv zeta in Hrun.
  destruct (match raw.2 with JStr w => JObj [("winner", JStr w)] | v => v end) as [| | | | | |v]; try done.
  repeat (apply bind_Ok in Hrun as (? & _ & Hrun)). injection Hrun as <-. intros k. rewrite map_app, elem_of_app. cbn.
  intros [Hk|Hk%list_elem_of_singleton]; [by apply Hd|by subst].
Qed.

Lemma seeds_keys i by_name manifest mh seeds : seeds_of i by_name manifest mh = Ok seeds -> keys_canonical seeds.
Proof.
  unfold seeds_of. destruct (in_seed_file i) as [[text|]|]; [|by intros [= <-] k ?%elem_of_nil..].
  unfold load_seed_overrides. intros (doc & _ & Hrun)%bind_Ok. destruct doc as [| | | | | |o]; try done.
  apply bind_Ok in Hrun as (raw & _ & Hrun). destruct raw as [| | | | | |ov]; try done.
  eapply (foldR_ind keys_canonical); [|..|exact Hrun]; [by intros k ?%elem_of_nil|]. intros s a s' _ Hs Ha. by eapply load_override_keys.
Qed.

Lemma gated_keys i by_name manifest mh results build_id projected entries text b header :
  read_results text b = Ok (header, results) ->
  gated_entries i by_name manifest mh results build_id projected = Ok entries -> keys_canonical entries.
Proof.
  intros Hres%results_keys Hrun. unfold gated_entries in Hrun. apply bind_Ok in Hrun as (seeds & Hseeds%seeds_keys & Hrun).
  apply bind_Ok in Hrun as (ovs & Hovs & Hrun). apply bind_Ok in Hrun as (es & Hes & Hrun). apply bind_Ok in Hrun as (u & _ & Hrun).
  apply bind_Ok in Hrun as (u1 & _ & [= <-]).
  assert (Forall (fun ov => canonical ov.1.1) ovs) as Hall.
  { apply mapR_Ok in Hovs. clear -Hovs Hseeds. induction Hovs as [|s ov l1 l2 Hs Hl IH]; constructor.
    - assert (ov.1.1 = s.1) as ->; [|apply Hseeds; by left]. unfold seed_signature in Hs.
      destruct (match jget _ s.1 with Some _ => _ | None => _ end); try done. destruct (hex_text 32 s0); [|done]. by injection Hs as <-.
    - apply IH. intros k Hk. apply Hseeds. by right. }
  assert (keys_canonical (fold_left apply_override ovs (entries_of_results results))) as Hover.
  { revert Hres. generalize (entries_of_results results). clear -Hall. induction Hall as [|[[d s] o] l Hd Hl IH]; intros e He; [done|].
    cbn [fold_left]. apply IH. cbn [apply_override]. by apply keys_canonical_set. }
  revert Hes Hover. generalize (fold_left apply_override ovs (entries_of_results results)). clear. intros e He Hk.
  unfold verify_winners in He. destruct (negb _); [by injection He as <-|]. apply bind_Ok in He as (d & _ & He).
  apply bind_Ok in He as (kept & Hkept & He). apply bind_Ok in He as (u & _ & [= <-]).
  eapply (foldR_ind keys_canonical); [|..|exact Hkept]; [by intros k ?%elem_of_nil|]. intros s a s' Ha Hs Hstep.
  assert (keys_canonical (s ++ [a])) as Hsa.
  { intros k. rewrite map_app, elem_of_app. cbn. intros [Hin|Hin%list_elem_of_singleton]; [by apply Hs|]. subst k. apply Hk.
    apply list_elem_of_fmap_2. by apply elem_of_py_sorted in Ha. }
  cbv beta in Hstep. destruct (has_key seeds a.1); [by injection Hstep as <-|]. apply bind_Ok in Hstep as (id & _ & [= <-]). by destruct (is_winner_verified d id).
Qed.

Lemma current_entry_inv rev mh g e r : current_entry rev mh g e = Ok r ->
  wire_entry r = None /\ field (fields r) "portable_key" = JStr e.1 /\ field (fields r) "generation" = JInt g /\
  field (fields r) "winner" = field e.2 "winner" /\
  field (fields r) "provenance" = JObj [("source_revision", JStr rev); ("manifest_hash", JStr mh)].
Proof.
  unfold current_entry. intros (t & _ & [= <-])%bind_Ok. cbn [wire_entry fields dict_update fold_left fst snd].
  rewrite !field_update. split_and!; reflexivity.
Qed.

Lemma normalize_current j rev mh g e r rd w : canonical mh -> canonical e.1 -> source_revision_digest (JStr rev) = Ok rd ->
  current_entry rev mh g e = Ok r -> normalize j r = Ok w ->
  w_key w = e.1 /\ w_generation w = g /\ w_identity w = (rd, mh) /\ field e.2 "winner" = JStr (w_winner w).
Proof.
  intros Hmh He Hrd Hr Hn. destruct (current_entry_inv _ _ _ _ _ Hr) as (_ & Hkey & Hgen & Hwin & Hprov).
  destruct (normalize_inv _ _ _ Hn) as (_ & Hw & Hg & _ & (p & Hp & Hid) & Hk).
  destruct (Hk ltac:(by rewrite Hkey)) as [label Hkk]. rewrite Hkey in Hkk. apply digest_hex_id in Hkk; [|done].
  split_and!; [done| | |by rewrite <- Hwin].
  - unfold field in Hgen. unfold get_or in Hgen, Hg. destruct (jget _ "generation"); [|done]. cbn in Hgen, Hg. congruence.
  - unfold provenance_of, raw_provenance in Hp. rewrite Hprov in Hp. cbn [mbind result_bind] in Hp.
    change (contains_key "source_revision_digest" _) with (Ok (E := exn) false) in Hp. cbn [mbind result_bind] in Hp.
    unfold validate_provenance_namespace in Hp. cbv zeta in Hp. change (field _ "source_revision") with (JStr rev) in Hp. cbv iota in Hp.
    unfold source_revision_digest in Hrd. destruct (hex_text 40 rev) eqn:E; [|done]. cbn [mbind result_bind] in Hp.
    change (field _ "manifest_hash") with (JStr mh) in Hp. apply bind_Ok in Hp as (m & Hm%digest_hex_id & Hp); [|done]. subst m.
    change (field _ "build_descriptor_hash") with JNull in Hp. change (field _ "variant_set") with JNull in Hp.
    cbn [mbind result_bind app] in Hp. injection Hp as <-. unfold identity_in in Hid. change (field _ "source_revision_digest") with JNull in Hid.
    cbv iota in Hid. change (item _ "source_revision") with (Ok (E := exn) (JStr (py_lower rev))) in Hid. cbn [mbind result_bind] in Hid.
    unfold source_revision_digest in Hid. rewrite hex_text_lower, py_lower_idem, Hrd in Hid by done. cbn in Hid. by injection Hid.
Qed.

End Rows.

(** ** The gates *)

Definition failed (record : obj) : bool := jtruthy (field record "measurement_failure").
Definition promoted (record : obj) : bool := is_str (jget record "promotion_status") "promoted".

(** The evidence of a binding holds, for the build the artifact claims. *)
Definition proven (db : option DispatchDb) (build_id : option Z) (projected : json) (d : string) (record : obj) : Prop :=
  exists base signature hardware native,
    db = Some base /\ field record "signature" = JStr signature /\ field record "hardware" = JStr hardware /\
    field record "native" = JStr native /\
    is_ok (require_correctness_binding base (mkBinding d signature hardware native (field record "winner") build_id)) = true /\
    forall id, build_id = Some id -> check_source_build db id projected = Ok tt.

(** The winner of the row is its native candidate, and the manifest says that
    this candidate is the one that wraps the native implementation. *)
Definition confirmed_native (by_name : by_name_t) (record : obj) : Prop :=
  exists n c, field record "winner" = JStr n /\ field record "native" = JStr n /\ truthy n = true /\ jget by_name n = Some c /\ jget c "source_class" = Some (JStr "native_wrapper").

Lemma is_native_confirmed by_name record : is_native by_name record = true -> confirmed_native by_name record.
Proof.
  unfold is_native, native_claim_is_authoritative. destruct (field record "native") as [| | | |n| |] eqn:En; rewrite ?andb_false_r; try done.
  intros [Hw [Hn Hc]%andb_true_iff]%andb_true_iff. destruct (jget by_name n) as [c|] eqn:Ec; [|done]. exists n, c.
  destruct (field record "winner") as [| | | |w| |]; try done. apply String.eqb_eq in Hw as ->. unfold is_str in Hc.
  destruct (jget c "source_class") as [[| | | |t| |]|]; try done. apply String.eqb_eq in Hc as ->.
  by split_and!.
Qed.

Section Gates.
Context (by_name : by_name_t).

Lemma promotion_gate entries u : validate_promotion_gate entries by_name = Ok u -> forall e, e ∈ entries ->
  failed e.2 = false /\ (is_native by_name e.2 = true \/ promoted e.2 = true).
Proof.
  unfold validate_promotion_gate. intros Hrun%ensure_Ok%bool_decide_eq_true e He.
  assert (promotion_violation by_name e.2 = None) as Hv.
  { destruct (promotion_violation by_name e.2) as [s|] eqn:E; [|done]. exfalso. apply (not_elem_of_nil (e.1, field e.2 "winner", s)).
    rewrite <- Hrun. apply list_elem_of_omap. exists e. by rewrite E. }
  unfold promotion_violation in Hv. unfold failed, promoted. destruct (jtruthy _); [done|]. destruct (is_native by_name e.2); [by auto|].
  destruct (is_str _ "promoted"); [by auto|done].
Qed.

Lemma correctness_ok db build_id d record : correctness_of db build_id d record = Ok None ->
  exists base signature hardware native,
    db = Some base /\ field record "signature" = JStr signature /\ field record "hardware" = JStr hardware /\
    field record "native" = JStr native /\
    is_ok (require_correctness_binding base (mkBinding d signature hardware native (field record "winner") build_id)) = true.
Proof.
  unfold correctness_of. destruct (field record "signature") as [| | | |s| |]; try done. destruct (field record "hardware") as [| | | |h| |]; try done.
  destruct (field record "native") as [| | | |n| |]; try done. destruct (negb (truthy n)); [done|]. destruct db as [b|]; [|done].
  destruct (require_correctness_binding b _) as [u|e] eqn:E; [|by destruct (String.eqb _ _)]. intros _. exists b, s, h, n.
  split_and!; [done..|by rewrite E].
Qed.

Lemma correctness_gate entries db build_id projected u : validate_correctness_gate entries db by_name build_id projected = Ok u ->
  forall e, e ∈ entries -> failed e.2 = true \/ is_native by_name e.2 = true \/ proven db build_id projected e.1 e.2.
Proof.
  unfold validate_correctness_gate. intros (st & Hst & Hnil%ensure_Ok%bool_decide_eq_true)%bind_Ok.
  assert (forall l st0 st1, foldR (correctness_step db by_name build_id projected) l st0 = Ok st1 -> st1.2 = [] ->
    (st0.1 = true -> forall id, build_id = Some id -> check_source_build db id projected = Ok tt) ->
    st0.2 = [] /\ forall e, e ∈ l -> failed e.2 = true \/ is_native by_name e.2 = true \/ proven db build_id projected e.1 e.2) as Hloop.
  { clear. induction l as [|e l IH]; intros st0 st1 Hrun Hnil Hver; [injection Hrun as <-; by split; [|intros ? ?%elem_of_nil]|].
    cbn [foldR] in Hrun. apply bind_Ok in Hrun as (st & Hstep & Hrun). unfold correctness_step in Hstep. fold (failed e.2) in Hstep.
    destruct (failed e.2) eqn:Ef; [injection Hstep as <-; destruct (IH _ _ Hrun Hnil Hver) as [H0 Hl]; split; [done|];
      intros x [->|Hx]%elem_of_cons; [by left|by apply Hl]|].
    destruct (is_native by_name e.2) eqn:En; [injection Hstep as <-; destruct (IH _ _ Hrun Hnil Hver) as [H0 Hl]; split; [done|];
      intros x [->|Hx]%elem_of_cons; [by right; left|by apply Hl]|].
    apply bind_Ok in Hstep as (u & Hsrc & Hstep). apply bind_Ok in Hstep as (why & Hwhy & [= <-]).
    assert (forall id, build_id = Some id -> check_source_build db id projected = Ok tt) as Hchk.
    { intros id ->. destruct st0.1; [by apply Hver|]. by destruct u. }
    destruct (IH _ _ Hrun Hnil ltac:(by intros _)) as [H0 Hl]. cbn [snd] in H0. destruct why as [w|]; [by destruct st0.2|]. split; [done|].
    intros x [->|Hx]%elem_of_cons; [|by apply Hl]. right. right. destruct (correctness_ok _ _ _ _ Hwhy) as (b & s & h & n & H1 & H2 & H3 & H4 & H5).
    exists b, s, h, n. by split_and!. }
  intros e He. destruct (Hloop _ _ _ Hst Hnil ltac:(done)) as [_ Hall]. apply Hall. by apply elem_of_py_sorted.
Qed.

End Gates.

(** A row may be exported. *)
Record allowed (i : Inputs) (by_name : by_name_t) (seeds : list (string * Override)) (build_id : option Z) (projected : json)
    (d : string) (record : obj) : Prop := {
  al_promoted : has_key seeds d = true \/ failed record = false /\ (confirmed_native by_name record \/ promoted record = true);
  al_correct : has_key seeds d = true /\ failed record = true \/ confirmed_native by_name record \/
    proven (in_dispatch_db i) build_id projected d record;
}.

(** What [build] works out on the way. *)
Record export_run `{DispatchHash} (i : Inputs) (by_name : by_name_t) (manifest_hash revision_digest : string)
    (seeds : list (string * Override)) (build_id : option Z) (projected : json) (entries : entries_t) : Prop := {
  er_by_name : candidates_by_name (in_manifest i) = Ok by_name;
  er_manifest : exists manifest header results, in_manifest i = JObj manifest /\
    digest_hex (field manifest "manifest_hash") "manifest_hash" = Ok manifest_hash /\
    read_results (in_measurements i) (bool_decide (in_seed_file i = None)) = Ok (header, results) /\
    check_producer manifest manifest_hash header (negb (bool_decide (in_seed_file i = None))) = Ok (build_id, projected) /\
    seeds_of i by_name manifest manifest_hash = Ok seeds /\
    gated_entries i by_name manifest manifest_hash results build_id projected = Ok entries /\
    exists revision, producer_revision manifest (negb (bool_decide (in_seed_file i = None))) = Ok revision /\
      source_revision_digest (JStr revision) = Ok revision_digest;
}.

Section Exports.
Context `{DispatchHash} `{!DispatchHashLaws}.

Lemma gated_allowed i by_name manifest mh results build_id projected seeds entries :
  seeds_of i by_name manifest mh = Ok seeds -> gated_entries i by_name manifest mh results build_id projected = Ok entries ->
  forall e, e ∈ entries -> allowed i by_name seeds build_id projected e.1 e.2.
Proof.
  intros Hs Hrun e He. unfold gated_entries in Hrun. rewrite Hs in Hrun. cbn [mbind result_bind] in Hrun.
  apply bind_Ok in Hrun as (ovs & _ & Hrun). apply bind_Ok in Hrun as (es & _ & Hrun). apply bind_Ok in Hrun as (u & Hprom & Hrun).
  apply bind_Ok in Hrun as (u1 & Hcorr & [= <-]). pose proof (correctness_gate _ _ _ _ _ _ Hcorr e He) as Hc.
  destruct (has_key seeds e.1) eqn:Ek.
  - split; [by left|]. rewrite Ek. destruct Hc as [Hc|[Hc|Hc]]; auto using is_native_confirmed.
  - destruct (promotion_gate _ _ _ Hprom e) as [Hf Hp]; [apply elem_of_filterb; by rewrite Ek|].
    split; [right; destruct Hp|destruct Hc as [Hc|[Hc|Hc]]; [congruence|..]]; auto using is_native_confirmed.
Qed.

(** The entries that are merged, and the run they do not belong to. *)
Definition merged (i : Inputs) (mh rd : string) (old : Entry) : Prop :=
  exists blob header es, in_merge_into i = Some (Some blob) /\
    (read_cache true blob = Ok (header, es) \/ read_cache_legacy_v4 true blob = Ok (header, es)) /\ old ∈ es /\
    ~ (e_generation old = in_generation i /\ e_manifest_hash old = mh /\ e_source_revision_digest old = rd).

Lemma existing_merged i mh rd existing : existing_entries i mh rd = Ok existing ->
  (forall blob, in_merge_into i = Some (Some blob) -> Forall byte blob) ->
  forall r, r ∈ existing -> exists old, r = entry_record old /\ entry_wf old /\ merged i mh rd old.
Proof.
  unfold existing_entries, merged. destruct (in_merge_into i) as [[blob|]|]; [|by intros [= <-] _ r ?%elem_of_nil..].
  intros (v & _ & Hrun)%bind_Ok Hb. specialize (Hb blob eq_refl). apply bind_Ok in Hrun as ([h es] & Hes & [= <-]).
  intros r (old & -> & Hin)%list_elem_of_fmap. apply elem_of_filterb in Hin as [Hin Hf]. exists old. split; [done|].
  assert (Forall entry_wf es) as Hwf by (destruct (bool_decide _); [by eapply read_v4_wf|by eapply read_cache_wf]).
  rewrite Forall_forall in Hwf. split; [by apply Hwf|]. exists blob, h, es. split; [done|].
  split; [destruct (bool_decide _); by auto|]. split; [done|]. intros (Hg & Hm & Hr). rewrite Hg, Hm, Hr, Z.eqb_refl, !String.eqb_refl in Hf. done.
Qed.

(** Every winner of the export is a row of this run or a merged entry. *)
Lemma selected_origin i mh rd revision entries existing current :
  canonical mh -> keys_canonical entries -> source_revision_digest (JStr revision) = Ok rd ->
  mapR (current_entry revision mh (in_generation i)) (py_sorted by_digest entries) = Ok current ->
  existing_entries i mh rd = Ok existing -> (forall blob, in_merge_into i = Some (Some blob) -> Forall byte blob) ->
  forall ns, normalized (existing ++ current) = Ok ns -> forall w, w ∈ ns -> winner_ok w /\
  ((exists record, (w_key w, record) ∈ entries /\ w_generation w = in_generation i /\ w_identity w = (rd, mh) /\
      field record "winner" = JStr (w_winner w) /\ wire_entry (w_record w) = None) \/
   (exists old, merged i mh rd old /\ w_key w = e_portable_key old /\ w_generation w = e_generation old /\
      w_identity w = (e_source_revision_digest old, e_manifest_hash old) /\ w_winner w = e_winner old)).
Proof.
  intros Hmh Hkeys Hrd Hcur Hex Hb ns Hns w Hw. apply (normalized_from 0) in Hns.
  apply mapR_Ok in Hns. destruct (list_elem_of_lookup_1 _ _ Hw) as [k Hk]. destruct (Forall2_lookup_r _ _ _ _ _ Hns Hk) as (r & Hr & Hn).
  apply list_elem_of_lookup_2, elem_of_app in Hr as [Hr|Hr].
  - destruct (existing_merged _ _ _ _ Hex Hb _ Hr) as (old & -> & Hwf & Hm). split; [by eapply normalize_entry_ok|]. right.
    destruct (normalize_entry _ _ _ Hwf Hn) as (H1 & H2 & H3 & H4). by exists old.
  - apply mapR_Ok in Hcur. destruct (list_elem_of_lookup_1 _ _ Hr) as [j Hj]. destruct (Forall2_lookup_r _ _ _ _ _ Hcur Hj) as (e & He & Hce).
    apply list_elem_of_lookup_2, elem_of_py_sorted in He. destruct (current_entry_inv _ _ _ _ _ Hce) as (Hwire & _).
    split; [by eapply normalize_plain_ok|]. left. destruct (normalize_inv _ _ _ Hn) as (Hrec & _).
    destruct (normalize_current _ _ _ _ _ _ _ _ Hmh ltac:(by apply Hkeys; apply list_elem_of_fmap_2) Hrd Hce Hn) as (H1 & H2 & H3 & H4).
    exists e.2. rewrite H1, Hrec. split_and!; try done. by destruct e.
Qed.

End Exports.

Section ExportTheorem.
Context `{DispatchHash} `{!DispatchHashLaws}.

Lemma row_selected i mh rd rev entries existing current selected d record :
  canonical mh -> keys_canonical entries -> source_revision_digest (JStr rev) = Ok rd ->
  mapR (current_entry rev mh (in_generation i)) (py_sorted by_digest entries) = Ok current ->
  existing_entries i mh rd = Ok existing -> select_newest_winners (existing ++ current) (in_keep_generations i) = Ok selected ->
  in_merge_into i = None -> (d, record) ∈ entries ->
  exists v, v ∈ selected /\ w_key v = d /\ field record "winner" = JStr (w_winner v).
Proof.
  intros Hmhc Hkeys Hrd Hcur Hex Hsel Hnone He. pose proof Hex as Hnil. unfold existing_entries in Hnil. rewrite Hnone in Hnil. injection Hnil as <-.
  destruct (selection_facts _ _ _ Hsel) as (Hkeep & ns & Hns & _ & _ & _ & Hall).
  pose proof (selected_origin _ _ _ _ _ _ _ Hmhc Hkeys Hrd Hcur Hex ltac:(by rewrite Hnone) _ Hns) as Horigin.
  assert (exists r, current_entry rev mh (in_generation i) (d, record) = Ok r /\ r ∈ current) as (r & Hr & Hrin).
  { apply mapR_Ok in Hcur. pose proof (proj2 (elem_of_py_sorted by_digest _ _) He) as Hes. destruct (list_elem_of_lookup_1 _ _ Hes) as [k Hk].
    destruct (Forall2_lookup_l _ _ _ _ _ Hcur Hk) as (r & Hr & Hcr). exists r. split; [done|by eapply list_elem_of_lookup_2]. }
  assert (exists w, normalize 0 r = Ok w /\ w ∈ ns) as (w & Hnw & Hw).
  { apply (normalized_from 0), mapR_Ok in Hns. destruct (list_elem_of_lookup_1 _ _ Hrin) as [k Hk].
    destruct (Forall2_lookup_l _ _ _ _ _ Hns Hk) as (w & Hw & Hcw). exists w. split; [done|by eapply list_elem_of_lookup_2]. }
  destruct (normalize_current _ _ _ _ _ _ _ _ Hmhc ltac:(by apply Hkeys, (list_elem_of_fmap_2 fst _ (d, record))) Hrd Hr Hnw) as (H1 & H2 & _ & H4).
  assert (newer_than ns w = 0) as Hnew.
  { unfold newer_than. match goal with |- context [List.filter ?f ns] => assert (List.filter f ns = []) as ->; [|apply size_empty] end.
    apply filterb_nil. intros v Hv. apply andb_false_iff. right. apply Z.ltb_ge. rewrite H2.
    destruct (Horigin v Hv) as [_ [(? & _ & -> & _)|(old & (mb & ? & ? & Hmi & _) & _)]]; [lia|congruence]. }
  destruct (Hall w Hw ltac:(rewrite Hnew; lia)) as (v & Hv & Hs & Hvw). exists v. injection Hs as Hsk _ _. by rewrite Hsk, Hvw.
Qed.

Lemma packed_names by_name types ws st st' : foldR (pack_entry by_name types) ws st = Ok st' ->
  forall w, w ∈ ws -> has_key by_name (w_winner w) = true \/ wire_entry (w_record w) <> None.
Proof.
  revert st. induction ws as [|w ws IH]; intros st Hrun v; [by intros ?%elem_of_nil|]. cbn [foldR] in Hrun.
  apply bind_Ok in Hrun as (st1 & H1 & Hrun). intros [->|Hv]%elem_of_cons; [|by eapply IH]. unfold has_key, pack_entry in *.
  destruct (jget by_name (w_winner w)); [by left|]. right. unfold retain_entry in H1. apply bind_Ok in H1 as (raw & Hraw%of_option_Ok & _). by rewrite Hraw.
Qed.

(** The steps of a run of [build] that returned. *)
Record built (i : Inputs) (blob : bytes) (manifest : obj) (by_name : by_name_t) (types : list (string * Z)) (mh : string)
    (header : option obj) (results : list obj) (build_id : option Z) (projected : json) (entries : entries_t)
    (revision rd : string) (current existing : list Rec) (selected : list Winner) : Prop := {
  b_by_name : candidates_by_name (in_manifest i) = Ok by_name;
  b_types : ggml_type_values (in_ggml_h i) = Ok types;
  b_manifest : in_manifest i = JObj manifest;
  b_hash : digest_hex (field manifest "manifest_hash") "manifest_hash" = Ok mh;
  b_results : read_results (in_measurements i) (bool_decide (in_seed_file i = None)) = Ok (header, results);
  b_some : negb (bool_decide (length results = 0)) = true;
  b_producer : check_producer manifest mh header (negb (bool_decide (in_seed_file i = None))) = Ok (build_id, projected);
  b_generation : (0 <=? in_generation i)%Z = true;
  b_entries : gated_entries i by_name manifest mh results build_id projected = Ok entries;
  b_revision : producer_revision manifest (negb (bool_decide (in_seed_file i = None))) = Ok revision;
  b_digest : source_revision_digest (JStr revision) = Ok rd;
  b_current : mapR (current_entry revision mh (in_generation i)) (py_sorted by_digest entries) = Ok current;
  b_existing : existing_entries i mh rd = Ok existing;
  b_merge : (match in_merge_into i with Some None => false | _ => true end) = true;
  b_selected : select_newest_winners (existing ++ current) (in_keep_generations i) = Ok selected;
  b_packed : pack_cache by_name types mh selected = Ok blob;
}.

Lemma seeded_eq i : (match in_seed_file i with Some _ => true | None => false end) = negb (bool_decide (in_seed_file i = None)).
Proof. by destruct (in_seed_file i). Qed.

Lemma build_built i blob : build i = Ok blob <->
  exists manifest by_name types mh header results build_id projected entries revision rd current existing selected,
    built i blob manifest by_name types mh header results build_id projected entries revision rd current existing selected.
Proof.
  unfold build. cbv zeta. split.
  - intros (by_name & Hby & Hrun)%bind_Ok. apply bind_Ok in Hrun as (types & Ht & Hrun). rewrite seeded_eq, negb_involutive in Hrun.
    destruct (in_manifest i) as [| | | | | |manifest] eqn:Em; try done. apply bind_Ok in Hrun as (mh & Hmh & Hrun).
    apply bind_Ok in Hrun as ([header results] & Hres & Hrun). apply bind_Ok in Hrun as (u & Hsome%ensure_Ok & Hrun).
    apply bind_Ok in Hrun as ([build_id projected] & Hprod & Hrun). apply bind_Ok in Hrun as (u1 & Hg%ensure_Ok & Hrun).
    apply bind_Ok in Hrun as (u2 & Hmerge%ensure_Ok & Hrun). apply bind_Ok in Hrun as (entries & Hent & Hrun).
    apply bind_Ok in Hrun as (rev & Hrev & Hrun). apply bind_Ok in Hrun as (rd & Hrd & Hrun). apply bind_Ok in Hrun as (current & Hcur & Hrun).
    apply bind_Ok in Hrun as (existing & Hex & Hrun). apply bind_Ok in Hrun as (selected & Hsel & Hrun).
    exists manifest, by_name, types, mh, header, results, build_id, projected, entries, rev, rd, current, existing, selected.
    split; try done. by rewrite Em.
  - intros (manifest & by_name & types & mh & header & results & build_id & projected & entries & rev & rd & current & existing & selected & []).
    rewrite b_by_name0. cbn [mbind result_bind]. rewrite b_types0. cbn [mbind result_bind]. rewrite b_manifest0, b_hash0, seeded_eq, negb_involutive.
    cbn [mbind result_bind]. rewrite b_results0. cbn [mbind result_bind]. rewrite b_some0. cbn [ensure mbind result_bind]. rewrite b_producer0.
    cbn [mbind result_bind]. rewrite b_generation0, b_merge0. cbn [ensure mbind result_bind]. rewrite b_entries0. cbn [mbind result_bind].
    rewrite b_revision0. cbn [mbind result_bind]. rewrite b_digest0. cbn [mbind result_bind]. rewrite b_current0. cbn [mbind result_bind].
    rewrite b_existing0. cbn [mbind result_bind]. by rewrite b_selected0.
Qed.

(** What is taken for granted of the inputs: a file is made of bytes, and no
    candidate has a NUL in its name. *)
Record sane (i : Inputs) : Prop := {
  sane_merge : forall old, in_merge_into i = Some (Some old) -> Forall byte old;
  sane_names : forall by_name n c, candidates_by_name (in_manifest i) = Ok by_name -> jget by_name n = Some c -> no_nul n = true;
}.

(** A winner of the export: of a row of this run, or of a merged entry. *)
Definition origin (i : Inputs) (mh rd : string) (entries : entries_t) (w : Winner) : Prop :=
  (exists record, (w_key w, record) ∈ entries /\ w_generation w = in_generation i /\ w_identity w = (rd, mh) /\
     field record "winner" = JStr (w_winner w) /\ wire_entry (w_record w) = None) \/
  (exists old, merged i mh rd old /\ w_key w = e_portable_key old /\ w_generation w = e_generation old /\
     w_identity w = (e_source_revision_digest old, e_manifest_hash old) /\ w_winner w = e_winner old).

Lemma built_read i blob manifest by_name types mh header results build_id projected entries rev rd current existing selected :
  built i blob manifest by_name types mh header results build_id projected entries rev rd current existing selected -> sane i ->
  keys_canonical entries /\ canonical mh /\ StronglySorted before selected /\
  (forall w, w ∈ selected -> origin i mh rd entries w /\ (has_key by_name (w_winner w) = true \/ wire_entry (w_record w) <> None)) /\
  exists hd out, read_cache true blob = Ok (hd, out) /\ h_manifest_hash hd = mh /\ Forall2 (exports by_name) selected out.
Proof.
  intros [Hby _ _ Hmh Hres _ _ _ Hent _ Hrd Hcur Hex _ Hsel Hrun] [Hmb Hnames].
  pose proof (digest_hex_canonical _ _ _ Hmh) as Hmhc. pose proof (gated_keys _ _ _ _ _ _ _ _ _ _ _ Hres Hent) as Hkeys.
  destruct (selection_facts _ _ _ Hsel) as (Hkeep & ns & Hns & _ & Hsorted & Hin & Hall).
  pose proof (selected_origin _ _ _ _ _ _ _ Hmhc Hkeys Hrd Hcur Hex Hmb _ Hns) as Horigin.
  assert (Forall winner_ok selected) as Hok by (apply Forall_forall; intros w Hw; by apply Horigin, Hin).
  assert (forall w, w ∈ selected -> has_key by_name (w_winner w) = true \/ wire_entry (w_record w) <> None) as Hpack.
  { pose proof Hrun as Hp. unfold pack_cache in Hp. apply bind_Ok in Hp as (st & Hst & _). intros w Hw. eapply packed_names; [exact Hst|].
    by rewrite pack_order. }
  assert (Forall (fun w => no_nul (w_winner w) = true) selected) as Hnul.
  { apply Forall_forall. intros w Hw. destruct (Horigin w ltac:(by apply Hin)) as [_ [(record & _ & _ & _ & _ & Hwire)|(old & Hm & _ & _ & _ & ->)]].
    - destruct (Hpack w Hw) as [Hk|]; [|done]. unfold has_key in Hk. destruct (jget by_name (w_winner w)) as [c|] eqn:Ec; [|done].
      by eapply Hnames.
    - destruct Hm as (mb & h & es & Hmi & Hread & Hold & _). specialize (Hmb _ Hmi).
      assert (Forall entry_wf es) as Hwf by (destruct Hread; [by eapply read_cache_wf|by eapply read_v4_wf]).
      rewrite Forall_forall in Hwf. by apply Hwf. }
  split_and!; [done|done|done| |by eapply packed_read]. intros w Hw. split; [|by apply Hpack]. by apply Horigin, Hin.
Qed.

(** C1 Nothing unproven is exported.  Every entry that can be read from a
    cache that [build] returns is either an entry of the cache that was merged,
    of another generation, manifest or revision, with its key, identity and
    winner; or it carries the identity of this run, its winner is a candidate
    of the manifest, and it is the winner of a row of the measurements or the
    seeds that passed the gates: it is a seed, or it did not fail and is promoted
    or confirmed as native by the manifest; and unless it is so confirmed, the correctness evidence of exactly
    its dispatch, signature, hardware, baseline and winner holds in the
    database, of the build that was claimed; the one exception is a seed on a
    row that is marked as failed.  Conversely, when nothing is merged, every
    row that passed the gates is in the cache. *)
Theorem export_gated i blob :
  build i = Ok blob -> sane i ->
  exists by_name mh rd seeds build_id projected entries header out,
    export_run i by_name mh rd seeds build_id projected entries /\
    read_cache true blob = Ok (header, out) /\ h_manifest_hash header = mh /\
    (forall en, en ∈ out ->
      (exists record, (e_portable_key en, record) ∈ entries /\ field record "winner" = JStr (e_winner en) /\
         e_generation en = in_generation i /\ e_manifest_hash en = mh /\ e_source_revision_digest en = rd /\
         has_key by_name (e_winner en) = true /\ allowed i by_name seeds build_id projected (e_portable_key en) record) \/
      (exists old, merged i mh rd old /\ e_portable_key en = e_portable_key old /\ e_generation en = e_generation old /\
         e_manifest_hash en = e_manifest_hash old /\ e_source_revision_digest en = e_source_revision_digest old /\ e_winner en = e_winner old)) /\
    (in_merge_into i = None -> forall d record, (d, record) ∈ entries ->
      exists en, en ∈ out /\ e_portable_key en = d /\ field record "winner" = JStr (e_winner en)).
Proof.
  intros (manifest & by_name & types & mh & header & results & build_id & projected & entries & rev & rd & current & existing & selected & Hb)%build_built Hsane.
  destruct (built_read _ _ _ _ _ _ _ _ _ _ _ _ _ _ _ _ Hb Hsane) as (Hkeys & Hmhc & _ & Horigin & hd & out & Hread & Hhm & Hexp).
  destruct Hb as [Hby _ Em Hmh Hres _ Hprod _ Hent Hrev Hrd Hcur Hex _ Hsel _].
  assert (exists seeds, seeds_of i by_name manifest mh = Ok seeds) as [seeds Hseeds].
  { pose proof Hent as Hs. unfold gated_entries in Hs. apply bind_Ok in Hs as (seeds & Hs & _). by exists seeds. }
  exists by_name, mh, rd, seeds, build_id, projected, entries, hd, out.
  split; [split; [done|by exists manifest, header, results; split_and!; [..|exists rev]]|]. split_and!; [done|done|..].
  - intros en Hen. destruct (list_elem_of_lookup_1 _ _ Hen) as [k Hk]. destruct (Forall2_lookup_r _ _ _ _ _ Hexp Hk) as (w & Hw & [X1 X2 X3 X4 X5 X6]).
    apply list_elem_of_lookup_2 in Hw. destruct (Horigin w Hw) as [[(record & He & Hg & Hid & Hwin & Hwire)|(old & Hm & H1 & H2 & H3 & H4)] Hpack].
    + left. exists record. rewrite Hid in X4. injection X4 as -> ->. rewrite X1, X2, X3. split_and!; try done.
      * by destruct Hpack.
      * by apply (gated_allowed _ _ _ _ _ _ _ _ _ Hseeds Hent (w_key w, record)).
    + right. exists old. rewrite H3 in X4. injection X4 as -> ->. rewrite X1, X2, X3. by split_and!.
  - intros Hnone d record He. destruct (row_selected _ _ _ _ _ _ _ _ _ _ Hmhc Hkeys Hrd Hcur Hex Hsel Hnone He) as (v & Hv & Hvk & Hvw).
    destruct (list_elem_of_lookup_1 _ _ Hv) as [k Hk]. destruct (Forall2_lookup_l _ _ _ _ _ Hexp Hk) as (en & Hen & [X1 X2 X3 X4 X5 X6]).
    exists en. split; [by eapply list_elem_of_lookup_2|]. by rewrite X1, X2.
Qed.

Lemma read_cache_version enforce blob r : read_cache enforce blob = Ok r -> 8 <= length blob /\ unpack 4 4 blob = Ok REPLAY_VERSION.
Proof.
  unfold read_cache, validate_blob. intros ([n sb] & ([n' sb'] & Hp & _)%bind_Ok & _)%bind_Ok. unfold preflight in Hp.
  apply bind_Ok in Hp as (u & Hl%ensure_Ok%Nat.leb_le & Hp). unfold REPLAY_HEADER_SIZE in Hl. apply bind_Ok in Hp as (m & _ & Hp).
  apply bind_Ok in Hp as (v & Hv & Hp). apply bind_Ok in Hp as (a & _ & Hp). apply bind_Ok in Hp as (u1 & _ & Hp).
  apply bind_Ok in Hp as (u2 & Hc%ensure_Ok%Z.eqb_eq & _). subst v. split; [lia|done].
Qed.

(** The same export, into the file it has made. *)
Definition into (i : Inputs) (blob : bytes) : Inputs :=
  mkInputs (in_measurements i) (in_manifest i) (in_ggml_h i) (in_dispatch_db i) (in_seed_file i) (Some (Some blob))
    (in_keep_generations i) (in_generation i) (in_require_winner_verification i).


End ExportTheorem.

(** ** A concrete export *)

#[local] Existing Instances toy_hash toy_laws.

Definition demo_revision : string := "0123456789abcdef0123456789abcdef01234567".
Definition demo_manifest_hash : string := "cccccccccccccccccccccccccccccccc".
Definition demo_signature : string := "11111111111111111111111111111111".
Definition demo_hardware : string := "22222222222222222222222222222222".

Definition demo_dispatch : string :=
  match portable_tuning_key (JStr demo_hardware) (JStr demo_signature) (JStr "latency") with Ok k => k | Err _ => "" end.

Definition demo_manifest : json :=
  JObj [("manifest_hash", JStr demo_manifest_hash); ("source_revision", JStr demo_revision);
        ("candidates", JArr
          [JObj [("stable_name", JStr "native"); ("source_class", JStr "native_wrapper"); ("family", JStr "mmq"); ("config", JObj [])];
           JObj [("stable_name", JStr "fast"); ("source_class", JStr "generated"); ("family", JStr "mmvq"); ("implementation_version", JInt 3);
                 ("config", JObj [("nwarps", JInt 4); ("rows_per_block", JInt 2); ("width", JInt (-1)); ("type", JStr "q4_0")])]])].

Definition demo_row (winner status : string) : json :=
  JObj [("kind", JStr "result"); ("dispatch", JStr demo_dispatch); ("signature", JStr demo_signature); ("hardware", JStr demo_hardware);
        ("winner", JStr winner); ("native", JStr "native"); ("promotion_status", JStr status)].

Definition demo_measurements (rows : list json) : string :=
  Lines.text_of (JObj [("kind", JStr "header"); ("source_revision", JStr demo_revision)] :: rows).

Definition demo_db (passes : bool) : DispatchDb :=
  mkDb (fun _ => None) (fun _ => ensure passes (Exn "CorrectnessGateError" "no evidence")) (fun _ _ => Ok 1%Z) (fun _ => true).

Definition demo_inputs (text : string) (passes : bool) (merge : option (option bytes)) : Inputs :=
  mkInputs text demo_manifest ("enum ggml_type { GGML_TYPE_F32 = 0, GGML_TYPE_Q4_0 =" +:+ newline +:+ " 2 };") (Some (demo_db passes)) None merge 3 7 false.

Definition summary (r : res bytes) : list (string * Z * Z) + string :=
  match (blob ← r; read_cache true blob) with
  | Ok (_, es) => inl (map (fun e => (e_winner e, e_generation e, Z.of_nat (length (e_wire_entry e)))) es)
  | Err e => inr (exn_message e)
  end.

Example demo_export : summary (build (demo_inputs (demo_measurements [demo_row "fast" "promoted"]) true None)) = inl [("fast", 7%Z, 93%Z)].
Proof. vm_compute. reflexivity. Qed.

(** A winner that was not promoted, one without evidence, and a manifest for
    another revision are refused; a native winner needs neither. *)
Example demo_refusals :
  (is_ok (build (demo_inputs (demo_measurements [demo_row "fast" "pending_bh"]) true None)),
   is_ok (build (demo_inputs (demo_measurements [demo_row "fast" "promoted"]) false None)),
   is_ok (build (demo_inputs (Lines.text_of [JObj [("kind", JStr "header"); ("source_revision", JStr demo_dispatch)]; demo_row "fast" "promoted"]) true None)),
   is_ok (build (demo_inputs (demo_measurements [demo_row "native" "pending_bh"]) false None))) = (false, false, false, true).
Proof. vm_compute. reflexivity. Qed.

(** A measurements file whose last line is torn is refused as a whole, although
    [read_results] says that it tolerates one. *)
Example torn_line_refused :
  match build (demo_inputs (demo_measurements [demo_row "fast" "promoted"] +:+ Lines.str_take 40 (dumps (demo_row "native" ""))) true None) with
  | Err e => exn_message e | Ok _ => ""
  end = "malformed measurements JSONL".
Proof. vm_compute. reflexivity. Qed.

Definition failed_row : json :=
  match demo_row "fast" "" with JObj o => JObj (o ++ [("measurement_failure", JBool true)]) | v => v end.

Definition seeded_inputs (row : json) (passes : bool) : Inputs :=
  mkInputs (demo_measurements [row]) demo_manifest "GGML_TYPE_F32 = 0, GGML_TYPE_Q4_0 = 2" (Some (demo_db passes))
    (Some (Some (dumps (JObj [(demo_dispatch, JStr "fast")])))) None 3 7 false.

(** A seed needs evidence like any other winner, unless the row it overrides is
    marked as failed: the correctness gate leaves such rows to the promotion
    gate, which leaves seeds to the correctness gate, and an unproven winner is
    exported. *)
Example failed_seed_passes_unproven :
  (is_ok (build (demo_inputs (demo_measurements [failed_row]) true None)),
   is_ok (build (seeded_inputs (demo_row "native" "") false)),
   summary (build (seeded_inputs failed_row false))) = (false, false, inl [("fast", 7%Z, 93%Z)]).
Proof. vm_compute. reflexivity. Qed.

(** With any seed file the revision of the measurements is no longer looked at:
    rows measured on another revision are exported as this one's, next to a
    seed for another dispatch. *)
Definition other_dispatch : string := "99999999999999999999999999999999".

Example seed_skips_producer_check :
  let text := Lines.text_of [JObj [("kind", JStr "header"); ("source_revision", JStr (demo_dispatch +:+ "00000000"))]; demo_row "fast" "promoted"] in
  let seed := JObj [(other_dispatch, JObj [("winner", JStr "native"); ("native", JStr "native"); ("signature", JStr demo_signature)])] in
  let run s := mkInputs text demo_manifest "GGML_TYPE_F32 = 0, GGML_TYPE_Q4_0 = 2" (Some (demo_db true)) s None 3 7 false in
  (is_ok (build (run None)), summary (build (run (Some (Some (dumps seed))))))
  = (false, inl [("fast", 7%Z, 93%Z); ("native", 7%Z, 93%Z)]).
Proof. vm_compute. reflexivity. Qed.

(** An entry of an older generation and another manifest that is kept because
    its winner is still in the manifest is packed with the numbers the winner
    has now: here the implementation version, at byte 36, goes from 1 to 3. *)
Definition old_cache : bytes := demo_cache 5 [demo_entry 0 0 []] (bytes_of_str "fast" ++ [0%Z]).

Example merged_entry_is_rewritten :
  let versions r := match (blob ← r; read_cache true blob) with
                    | Ok (_, es) => map (fun e => (e_generation e, e_manifest_hash e, (e_wire_entry e) !! 36)) es
                    | Err _ => [] end in
  (versions (Ok old_cache),
   List.filter (fun v : Z * string * option Z => negb (String.eqb v.1.2 demo_manifest_hash))
     (versions (build (demo_inputs (demo_measurements [demo_row "fast" "promoted"]) true (Some (Some old_cache))))))
  = ([(7%Z, "33333333333333333333333333333333", Some 1%Z)], [(7%Z, "33333333333333333333333333333333", Some 3%Z)]).
Proof. vm_compute. reflexivity. Qed.

Definition demo_run : Inputs := demo_inputs (demo_measurements [demo_row "fast" "promoted"]) true None.

Lemma demo_sane : sane demo_run.
Proof.
  split; [done|]. intros by_name n c Hb Hn. assert (forallb (fun nc : string * obj => no_nul nc.1) by_name = true) as Hall.
  { apply (f_equal (fun r => match r with Ok l => forallb (fun nc : string * obj => no_nul nc.1) l | Err _ => true end)) in Hb.
    vm_compute in Hb. done. }
  exact (proj1 (forallb_true _ _) Hall (n, c) (jget_in _ _ _ Hn)).
Qed.

Lemma export_gated_witness :
  exists blob header out, build demo_run = Ok blob /\ read_cache true blob = Ok (header, out) /\ map e_winner out = ["fast"].
Proof.
  destruct (build demo_run) as [blob|e] eqn:E; [|exfalso; vm_compute in E; discriminate E].
  destruct (export_gated demo_run blob E demo_sane) as (_ & _ & _ & _ & _ & _ & _ & header & out & _ & Hr & _).
  exists blob, header, out. split; [done|]. split; [done|]. apply (f_equal summary) in E. unfold summary in E. cbn [mbind result_bind] in E.
  rewrite Hr in E. vm_compute in E. destruct out as [|[] [|]]; try discriminate E. by injection E as ->.
Defined.


End Replay.
