(* ===== verification/Campaign.v ===== *)
(** Campaigns: [src/tools/bigcherry/campaign/graph.py], [plan.py],
    [campaign.py] and [planner.py].

    A lane is a graph of stages; a run executes them in order, reuses what has
    not changed, and holds the locks of a stage while it is executed.  The
    sorter of the standard library is written out; the order in which Python
    iterates over a set is a parameter. *)

From S2P Require Import Prelude Json Tree Artifacts Apply Resources.

Module Campaign.
Import Json Artifacts.

(** ** [graphlib.TopologicalSorter] *)

(** What the sorter keeps of a node; its dictionary is in insertion order. *)
Record NodeInfo : Type := mkInfo { npredecessors : nat; successors : list string }.
Notation sorter := (list (string * NodeInfo)).

Definition no_info : NodeInfo := mkInfo 0 [].

(** [_get_nodeinfo]: a node that is not there yet is made. *)
Definition get_info (st : sorter) (n : string) : sorter := if has_key st n then st else st ++ [(n, no_info)].

Definition update_info (st : sorter) (n : string) (f : NodeInfo -> NodeInfo) : sorter :=
  map (fun kv => if String.eqb kv.1 n then (kv.1, f kv.2) else kv) st.

(** [add(node, *predecessors)] *)
Definition add (st : sorter) (node : string) (predecessors : list string) : sorter :=
  fold_left (fun st p => update_info (get_info st p) p (fun i => mkInfo (npredecessors i) (successors i ++ [node])))
    predecessors
    (update_info (get_info st node) node (fun i => mkInfo (npredecessors i + length predecessors) (successors i))).

Definition info_of (st : sorter) (n : string) : NodeInfo := default no_info (jget st n).

(** [done] of one node: each successor waits for one node less, and is ready
    when it waits for none. *)
Definition finish (acc : sorter * list string) (node : string) : sorter * list string :=
  fold_left (fun acc s =>
    let st := update_info acc.1 s (fun i => mkInfo (npredecessors i - 1) (successors i)) in
    (st, if (npredecessors (info_of st s) =? 0)%nat then acc.2 ++ [s] else acc.2))
    (successors (info_of acc.1 node)) acc.

(** The loop of [static_order]: what is ready is given out and finished. *)
Fixpoint rounds (fuel : nat) (st : sorter) (ready out : list string) : list string :=
  match fuel, ready with
  | O, _ | _, [] => out
  | S fuel', _ => let '(st', next) := fold_left finish ready (st, []) in rounds fuel' st' next (out ++ ready)
  end.

Definition CycleError : exn := Exn "CycleError" "nodes are in a cycle".

(** [static_order]: a cycle is an error; with one, some nodes are never ready. *)
Definition static_order (st : sorter) : res (list string) :=
  let ready := map fst (List.filter (fun kv : string * NodeInfo => (npredecessors kv.2 =? 0)%nat) st) in
  let out := rounds (length st) st ready [] in
  if (length out =? length st)%nat then Ok out else Err CycleError.

(** ** Stages *)

Record ResourceClaim : Type := mkClaim { claim_kind : string; resource_id : string; exclusive : bool }.

Record StageNode : Type := mkNode {
  stage_id : string;
  kind : string;
  source_slice_id : option string;
  build_plan_id : option string;
  workload_id : option string;
  dependencies : list string;
  resources : list ResourceClaim;
}.

Record CampaignGraph : Type := mkGraph { nodes : list (string * StageNode); order : list string }.

Definition CampaignGraphError (msg : string) : exn := Exn "CampaignGraphError" msg.

(** The order in which Python iterates over the set of these elements. *)
Class SetOrder : Type := { set_iter : list string -> list string }.
Class SetOrderLaws `{SetOrder} : Prop := { set_iter_perm : forall l, set_iter l ≡ₚ sorted_set l }.

Definition check_known (nodes : list (string * StageNode)) (node : StageNode) : res unit :=
  let unknown := sorted_set (List.filter (fun d => negb (has_key nodes d)) (dependencies node)) in
  ensure (bool_decide (unknown = []))
    (CampaignGraphError (stage_id node +:+ " has unknown dependencies: " +:+ py_repr_list unknown)).

Definition new_graph `{SetOrder} (ns : list StageNode) : res CampaignGraph :=
  let nodes := dict_of_pairs (map (fun n => (stage_id n, n)) ns) in
  _ ← ensure (length nodes =? length ns)%nat (CampaignGraphError "duplicate stage ID");
  _ ← mapR (check_known nodes) ns;
  let st := fold_left (fun st n => add st (stage_id n) (set_iter (dependencies n))) ns [] in
  match static_order st with
  | Ok order => Ok (mkGraph nodes order)
  | Err _ => Err (CampaignGraphError "campaign stage graph is cyclic")
  end.

(** ** The two graphs of a lane *)

Section Plan.
(** [hashlib.blake2b(_, digest_size=8).hexdigest()] *)
Context (blake2b_8 : string -> string) `{SetOrder}.

Definition resource_key (prefix value : string) : string := prefix +:+ "-" +:+ blake2b_8 value.

Definition materialize_stage_graph (source_name build_name upstream_repo_path : string) : res CampaignGraph :=
  new_graph
    [mkNode (source_name +:+ ":" +:+ build_name +:+ ":materialize") "materialize" None None None []
       [mkClaim "upstream-worktree" (resource_key "upstream" upstream_repo_path) true]].

Definition build_stage_graph (source_name build_name source_slice build_plan : string) (workload : option string)
    (include_generate include_runtime_smoke : bool) (gpu_resource_ids : list string) : res CampaignGraph :=
  _ ← ensure (truthy source_slice) (ValueError "source_slice_id must be resolved before building this graph");
  _ ← ensure (truthy build_plan) (ValueError "build_plan_id must be resolved before building this graph");
  let prefix := source_name +:+ ":" +:+ build_name in
  let generate_id := prefix +:+ ":generate" in
  let build_id := prefix +:+ ":build" in
  let smoke_id := prefix +:+ ":runtime-smoke" in
  let build_lock := mkClaim "build-plan" ("build-" +:+ build_plan) true in
  let gpu_claims := map (fun r => mkClaim "gpu" r true) (py_sorted String.leb gpu_resource_ids) in
  let node id kind := mkNode id kind (Some source_slice) (Some build_plan) workload in
  new_graph
    ((if include_generate then [node generate_id "generate" [] [build_lock]] else [])
     ++ [node build_id "build" (if include_generate then [generate_id] else []) [build_lock]]
     ++ (if include_runtime_smoke then [node smoke_id "runtime-smoke" [build_id] gpu_claims] else [])).

End Plan.
(** ** Runs *)

(** [_spec_hash] of a stage is the hash of the canonical text of this. *)
Definition stage_spec (node : StageNode) : json :=
  JObj [("stage_id", JStr (stage_id node)); ("kind", JStr (kind node));
        ("source_slice_id", jopt JStr (source_slice_id node)); ("build_plan_id", jopt JStr (build_plan_id node));
        ("workload_id", jopt JStr (workload_id node)); ("dependencies", jstrs (dependencies node))].

Definition spec_hash_of `{Hashes} (node : StageNode) : string := sha256 (dumps (stage_spec node)).

Record StageRecord : Type := mkRecord {
  rec_stage_id : string;
  state : string;
  spec_hash : string;
  output_hashes : list string;
  error : option string;
}.

Definition with_state (s : string) (r : StageRecord) : StageRecord :=
  mkRecord (rec_stage_id r) s (spec_hash r) (output_hashes r) (error r).

(** How a call on a lock ends: as it should; not, because another process has
    the directory; or with an exception, [stays] saying that the directory is
    left behind. *)
Inductive answer : Type := Fine | Busy | Fails (e : exn) (stays : bool).

(** A run, with the lock directories its process has made, the answers of the
    calls on locks to come, and the world its stages work on. *)
Record Run (W : Type) : Type := mkRun {
  records : list (string * StageRecord);
  dirs : gset string;
  answers : list answer;
  world : W;
}.
Arguments mkRun {W} _ _ _ _.
Arguments records {W} _.
Arguments dirs {W} _.
Arguments answers {W} _.
Arguments world {W} _.

(** A [ResourceLock] object. *)
Record Lock : Type := mkLock { lock_path : string; lock_resource : string; acquired : bool }.

(** [except Exception]; nothing is caught in a process that is killed. *)
Definition caught (e : exn) : bool := Apply.is_Exception e && negb (bool_decide (e = Killed)).

Section Run.
Context {W : Type}.
Notation run := (Run W).

Definition set_record (id : string) (r : StageRecord) : stm run unit :=
  modify (fun w => mkRun (dict_set (records w) id r) (dirs w) (answers w) (world w)).

Definition set_dirs (f : gset string -> gset string) : stm run unit :=
  modify (fun w => mkRun (records w) (f (dirs w)) (answers w) (world w)).

Definition next_answer : stm run answer := fun w =>
  match answers w with
  | [] => (Ok Fine, w)
  | a :: l => (Ok a, mkRun (records w) (dirs w) l (world w))
  end.

(** [acquire], whose steps are those of [Resources.act].  A directory of this
    process stays, so waiting for it ends at the deadline. *)
Definition acquire (l : Lock) : stm run Lock :=
  a ← next_answer;
  w ← get;
  let claimed := Resources.claimed (lock_resource l) "300.0" in
  match a with
  | Fails e stays => _ ← set_dirs (fun d => if stays : bool then {[lock_path l]} ∪ d else d); raise e
  | Busy => raise claimed
  | Fine =>
      if bool_decide (lock_path l ∈ dirs w) then raise claimed
      else _ ← set_dirs (union {[lock_path l]}); mret (mkLock (lock_path l) (lock_resource l) true)
  end.

(** [inspect() is not None] *)
Definition inspect (l : Lock) : stm run bool :=
  a ← next_answer;
  match a with
  | Fails e _ => raise e
  | Busy => mret true
  | Fine => w ← get; mret (bool_decide (lock_path l ∈ dirs w))
  end.

Definition release (l : Lock) : stm run unit :=
  if acquired l then
    a ← next_answer;
    match a with
    | Fails e stays => _ ← set_dirs (fun d => if stays : bool then d else d ∖ {[lock_path l]}); raise e
    | _ => set_dirs (fun d => d ∖ {[lock_path l]})
    end
  else mret tt.

(** [for lock in locks: lock.acquire()]: the objects after it, and what it raised. *)
Fixpoint acquire_all (ls : list Lock) : run -> (list Lock * option exn) * run := fun w =>
  match ls with
  | [] => (([], None), w)
  | l :: ls' =>
      match acquire l w with
      | (Err e, w1) => ((l :: ls', Some e), w1)
      | (Ok l', w1) => let '((got, e), w2) := acquire_all ls' w1 in ((l' :: got, e), w2)
      end
  end.

(** The body of [finally]. *)
Definition release_all (ls : list Lock) : stm run unit :=
  iterM (fun l => there ← inspect l; if there : bool then release l else mret tt) (rev ls).

Section Execute.
Context `{Hashes} (g : CampaignGraph) (resource_root : string).
(** [executor] and [reuse]; [reuse] only reads. *)
Context (executor : string -> stm run (list string)) (reuse : option (StageRecord -> run -> res bool)).

Definition locks_of (node : StageNode) : list Lock :=
  map (fun c => mkLock (Resources.lock_path resource_root (resource_id c)) (resource_id c) false)
    (List.filter exclusive (resources node)).

Definition state_of (rs : list (string * StageRecord)) (id : string) : string :=
  match jget rs id with Some r => state r | None => "blocked" end.

Definition stopped (s : string) : bool := str_in s ["failed"; "blocked"].
Definition finished (s : string) : bool := str_in s ["succeeded"; "reused"].

(** What is reused, if the stage is. *)
Definition reusable (digest : string) (previous : option StageRecord) (w : run) : res (option StageRecord) :=
  match previous, reuse with
  | Some p, Some ask =>
      if String.eqb (spec_hash p) digest && finished (state p) then
        yes ← ask p w; Ok (if yes : bool then Some p else None)
      else Ok None
  | _, _ => Ok None
  end.

(** The body of [try], without the locks. *)
Definition attempt (id digest : string) : stm run unit :=
  _ ← set_record id (mkRecord id "running" digest [] None);
  outputs ← executor id;
  set_record id (mkRecord id "succeeded" digest outputs None).

Definition failed_record (id digest : string) (e : exn) : StageRecord :=
  mkRecord id "failed" digest [] (Some (exn_class e +:+ ": " +:+ exn_message e)).

(** [try] with its handler, once the locks have been asked for. *)
Definition attempted (id digest : string) (refused : option exn) : stm run unit := fun w =>
  match (match refused with Some e => raise e | None => attempt id digest end) w with
  | (Err e, w1) => if caught e then set_record id (failed_record id digest e) w1 else (Err e, w1)
  | done_ => done_
  end.

(** [try], its handler and its [finally]. *)
Definition execute_stage (node : StageNode) (digest : string) : stm run unit := fun w =>
  let id := stage_id node in
  let '((ls, refused), w1) := acquire_all (locks_of node) w in
  match attempted id digest refused w1 with
  | (Err e, w2) => if bool_decide (e = Killed) then (Err e, w2) else (_ ← release_all ls; raise e) w2
  | (Ok _, w2) => release_all ls w2
  end.

Definition step (id : string) : stm run unit :=
  node ← lift (of_option (KeyError (py_repr id)) (jget (nodes g) id));
  let digest := spec_hash_of node in
  w ← get;
  if existsb (fun d => stopped (state_of (records w) d)) (dependencies node) then
    set_record id (mkRecord id "blocked" digest [] None)
  else
    again ← lift (reusable digest (jget (records w) id) w);
    match again with
    | Some p => set_record id (with_state "reused" p)
    | None => execute_stage node digest
    end.

Definition execute : stm run (list (string * StageRecord)) :=
  _ ← iterM step (order g); gets records.

End Execute.
End Run.

Definition CampaignExecutionError (msg : string) : exn := Exn "CampaignExecutionError" msg.

(** [require_campaign_success] of [execution.py] *)
Definition require_campaign_success (rs : list (string * StageRecord)) (label : string) : res unit :=
  let bad := List.filter (fun kr : string * StageRecord => negb (finished (state kr.2))) rs in
  ensure (bool_decide (map fst bad = []))
    (CampaignExecutionError (label +:+ " campaign failed: "
       +:+ String.concat ", " (map (fun kr : string * StageRecord =>
             kr.1 +:+ "=" +:+ state kr.2 +:+ (if opt_truthy (error kr.2) then " (" +:+ opt_or (error kr.2) "" +:+ ")" else ""))
             (py_sorted by_key bad)))).

(** ** The sorter *)

Lemma jget_app {A} (d e : list (string * A)) k : jget (d ++ e) k = match jget d k with Some v => Some v | None => jget e k end.
Proof. induction d as [|[a b] d IH]; [done|]. cbn. by destruct (String.eqb k a). Qed.

Lemma has_key_in {A} (d : list (string * A)) k : has_key d k = true <-> k ∈ map fst d.
Proof.
  unfold has_key. induction d as [|[a b] d IH]; cbn; [split; [done|by intros ?%elem_of_nil]|].
  rewrite elem_of_cons, <- IH. destruct (String.eqb_spec k a); naive_solver.
Qed.

Lemma info_of_get st n x : info_of (get_info st n) x = info_of st x.
Proof.
  unfold get_info, info_of. destruct (has_key st n) eqn:E; [done|]. rewrite jget_app. cbn.
  destruct (jget st x); [done|]. by destruct (String.eqb x n).
Qed.

Lemma keys_get st n : map fst (get_info st n) = if has_key st n then map fst st else map fst st ++ [n].
Proof. unfold get_info. destruct (has_key st n); [done|]. by rewrite map_app. Qed.

Lemma keys_update st n f : map fst (update_info st n f) = map fst st.
Proof. unfold update_info. rewrite map_map. apply map_ext. intros [k v]. cbn. by destruct (String.eqb k n). Qed.

Lemma info_of_update st n f x : n ∈ map fst st ->
  info_of (update_info st n f) x = if String.eqb x n then f (info_of st n) else info_of st x.
Proof.
  unfold info_of, update_info. induction st as [|[a i] st IH]; intros Hn; [by apply elem_of_nil in Hn|]. cbn.
  destruct (String.eqb_spec a n) as [->|Ha]; cbn.
  - clear IH Hn. rewrite String.eqb_refl. destruct (String.eqb x n) eqn:Hx; [done|].
    induction st as [|[b j] st IH]; [done|]. cbn.
    destruct (String.eqb_spec b n) as [->|]; cbn; [by rewrite Hx|]. by destruct (String.eqb x b).
  - apply elem_of_cons in Hn as [|Hn]; [done|]. specialize (IH Hn).
    destruct (String.eqb_spec x a) as [->|Hx].
    + by rewrite (proj2 (String.eqb_neq a n) Ha).
    + rewrite (proj2 (String.eqb_neq n a)) by done. exact IH.
Qed.

Lemma keys_get_in st n : n ∈ map fst (get_info st n).
Proof. rewrite keys_get. destruct (has_key st n) eqn:E; [by apply has_key_in|set_solver]. Qed.

Lemma elem_of_keys_get st n x : x ∈ map fst (get_info st n) <-> x ∈ map fst st \/ x = n.
Proof.
  rewrite keys_get. destruct (has_key st n) eqn:E; [|set_solver]. apply has_key_in in E. split; [by left|]. by intros [| ->].
Qed.

Lemma NoDup_keys_get st n : NoDup (map fst st) -> NoDup (map fst (get_info st n)).
Proof.
  intros Hnd. rewrite keys_get. destruct (has_key st n) eqn:E; [done|]. apply NoDup_app. split_and!; [done| |apply NoDup_singleton].
  intros x Hx Hn%list_elem_of_singleton. subst x. apply has_key_in in Hx. congruence.
Qed.

Lemma info_of_in st k i : NoDup (map fst st) -> (k, i) ∈ st -> info_of st k = i.
Proof.
  unfold info_of. induction st as [|[a j] st IH]; intros Hnd Hin; [by apply elem_of_nil in Hin|]. apply NoDup_cons in Hnd as [Ha Hnd]. cbn.
  apply elem_of_cons in Hin as [[= -> ->]|Hin]; [by rewrite String.eqb_refl|]. destruct (String.eqb_spec k a) as [->|]; [|auto].
  exfalso. apply Ha. by apply (list_elem_of_fmap_2 fst) in Hin.
Qed.

(** What one [add] changes. *)
Lemma add_spec st node preds : NoDup preds -> NoDup (map fst st) ->
  let st' := add st node preds in
  NoDup (map fst st') /\ (forall x, x ∈ map fst st' <-> x ∈ map fst st \/ x = node \/ x ∈ preds) /\
  forall x, info_of st' x = mkInfo (npredecessors (info_of st x) + (if String.eqb x node then length preds else 0))
                              (successors (info_of st x) ++ (if str_in x preds then [node] else [])).
Proof.
  intros Hnd Hst. cbv zeta. unfold add. set (n := length preds). clearbody n.
  set (st0 := update_info (get_info st node) node _).
  assert (NoDup (map fst st0) /\ (forall x, x ∈ map fst st0 <-> x ∈ map fst st \/ x = node) /\
    forall x, info_of st0 x = mkInfo (npredecessors (info_of st x) + (if String.eqb x node then n else 0)) (successors (info_of st x))) as Hst0.
  { unfold st0. rewrite keys_update. split_and!; [by apply NoDup_keys_get|intros x; apply elem_of_keys_get|].
    intros x. rewrite info_of_update by apply keys_get_in. rewrite !info_of_get. destruct (String.eqb_spec x node) as [->|]; [done|].
    rewrite Nat.add_0_r. by destruct (info_of st x). }
  clearbody st0. revert st0 Hst0.
  assert (forall l st0 past, NoDup (past ++ l) -> NoDup (map fst st0) ->
    (forall x, x ∈ map fst st0 <-> x ∈ map fst st \/ x = node \/ x ∈ past) ->
    (forall x, info_of st0 x = mkInfo (npredecessors (info_of st x) + (if String.eqb x node then n else 0))
       (successors (info_of st x) ++ (if str_in x past then [node] else []))) ->
    let st' := fold_left (fun st p => update_info (get_info st p) p (fun i => mkInfo (npredecessors i) (successors i ++ [node]))) l st0 in
    NoDup (map fst st') /\ (forall x, x ∈ map fst st' <-> x ∈ map fst st \/ x = node \/ x ∈ past ++ l) /\
    (forall x, info_of st' x = mkInfo (npredecessors (info_of st x) + (if String.eqb x node then n else 0))
       (successors (info_of st x) ++ (if str_in x (past ++ l) then [node] else [])))) as Hloop.
  { induction l as [|p l IH]; intros st0 past Hp H0 Hk Hi; cbn [fold_left]; [rewrite app_nil_r; by split_and!|].
    assert (p ∉ past) as Hpp by (apply NoDup_app in Hp as (_ & Hd & _); intros Hin; apply (Hd p Hin); by left).
    replace (past ++ p :: l) with ((past ++ [p]) ++ l) in * by (by rewrite <- app_assoc).
    apply IH; [done|by rewrite keys_update; apply NoDup_keys_get|..]; intros x.
    - rewrite keys_update, elem_of_keys_get, Hk. set_solver.
    - rewrite info_of_update by apply keys_get_in. rewrite !info_of_get, !Hi. cbn [npredecessors successors].
      unfold str_in. destruct (String.eqb_spec x p) as [->|Hx].
      + rewrite (bool_decide_eq_false_2 (p ∈ past)) by done. rewrite (bool_decide_eq_true_2 (p ∈ past ++ [p])) by set_solver.
        by rewrite app_nil_r.
      + rewrite (bool_decide_ext (x ∈ past ++ [p]) (x ∈ past)) by set_solver. done. }
  intros st0 (H1 & H2 & H3). apply (Hloop preds st0 []); [done|done|..]; intros x.
  - rewrite H2. set_solver.
  - rewrite H3. cbn. by rewrite app_nil_r.
Qed.

(** What finishing one node changes. *)
Lemma finish_spec st next p : NoDup (successors (info_of st p)) ->
  (forall s, s ∈ successors (info_of st p) -> s ∈ map fst st) ->
  let succ := successors (info_of st p) in
  let '(st', next') := finish (st, next) p in
  map fst st' = map fst st /\
  (forall x, info_of st' x = mkInfo (npredecessors (info_of st x) - (if str_in x succ then 1 else 0)) (successors (info_of st x))) /\
  next' = next ++ List.filter (fun x => (npredecessors (info_of st x) - 1 =? 0)%nat) succ.
Proof.
  unfold finish. cbn [fst]. generalize (successors (info_of st p)) as l. intros l Hnd Hin. cbv zeta.
  set (step := fun acc s => _).
  assert (forall l0 l1 st0, NoDup (l0 ++ l1) -> (forall s, s ∈ l1 -> s ∈ map fst st) -> map fst st0 = map fst st ->
    (forall x, info_of st0 x = mkInfo (npredecessors (info_of st x) - (if str_in x l0 then 1 else 0)) (successors (info_of st x))) ->
    let '(st', next') := fold_left step l1 (st0, next ++ List.filter (fun x => (npredecessors (info_of st x) - 1 =? 0)%nat) l0) in
    map fst st' = map fst st /\
    (forall x, info_of st' x = mkInfo (npredecessors (info_of st x) - (if str_in x (l0 ++ l1) then 1 else 0)) (successors (info_of st x))) /\
    next' = next ++ List.filter (fun x => (npredecessors (info_of st x) - 1 =? 0)%nat) (l0 ++ l1)) as Hloop.
  { intros l0 l1. revert l0. induction l1 as [|s l1 IH]; intros l0 st0 Hd Hk Hm Hi; cbn [fold_left]; [by rewrite app_nil_r|].
    assert (s ∉ l0) as Hs by (apply NoDup_app in Hd as (_ & Hd & _); intros Hx; apply (Hd s Hx); by left).
    assert (s ∈ map fst st0) as Hs0 by (rewrite Hm; apply Hk; by left).
    replace (l0 ++ s :: l1) with ((l0 ++ [s]) ++ l1) in * by (by rewrite <- app_assoc).
    unfold step at 2. cbn [fst snd]. rewrite (info_of_update _ _ _ s Hs0), String.eqb_refl, (Hi s). cbn [npredecessors successors].
    unfold str_in at 1. rewrite (bool_decide_eq_false_2 _ Hs), Nat.sub_0_r.
    assert ((if (npredecessors (info_of st s) - 1 =? 0)%nat then (next ++ List.filter (fun x => (npredecessors (info_of st x) - 1 =? 0)%nat) l0) ++ [s]
             else next ++ List.filter (fun x => (npredecessors (info_of st x) - 1 =? 0)%nat) l0)
      = next ++ List.filter (fun x => (npredecessors (info_of st x) - 1 =? 0)%nat) (l0 ++ [s])) as ->.
    { rewrite List.filter_app. cbn [List.filter]. destruct (_ =? 0)%nat; by rewrite ?app_nil_r, ?app_assoc. }
    apply IH; [done| |by rewrite keys_update|].
    - intros x Hx. apply Hk. by right.
    - intros x. rewrite info_of_update by done. rewrite !Hi. cbn [npredecessors successors]. unfold str_in.
      destruct (String.eqb_spec x s) as [->|Hx].
      + rewrite (bool_decide_eq_true_2 (s ∈ l0 ++ [s])) by set_solver. rewrite (bool_decide_eq_false_2 _ Hs). f_equal. lia.
      + rewrite (bool_decide_ext (x ∈ l0 ++ [s]) (x ∈ l0)) by set_solver. done. }
  specialize (Hloop [] l st Hnd Hin eq_refl). cbn [List.filter app] in Hloop. rewrite app_nil_r in Hloop. apply Hloop.
  intros x. cbn. rewrite Nat.sub_0_r. by destruct (info_of st x).
Qed.

(** ** The order *)

Section Order.
(** The nodes, and what each waits for. *)
Context (ids : list string) (P : string -> list string).
Context (ids_nodup : NoDup ids) (P_nodup : forall x, NoDup (P x)) (P_known : forall x d, x ∈ ids -> d ∈ P x -> d ∈ ids).

Definition ready_after (past : list string) (x : string) : Prop := forall d, d ∈ P x -> d ∈ past.

Fixpoint in_turn (past l : list string) : Prop :=
  match l with [] => True | x :: l' => ready_after past x /\ in_turn (past ++ [x]) l' end.

Lemma in_turn_snoc past l x : in_turn past l -> ready_after (past ++ l) x -> in_turn past (l ++ [x]).
Proof.
  revert past. induction l as [|y l IH]; intros past; cbn; [by rewrite app_nil_r|]. intros [Hy Hl] Hx. split; [done|].
  apply IH; [done|]. by rewrite <- app_assoc.
Qed.

Lemma in_turn_app past l k : in_turn past (l ++ k) -> in_turn past l.
Proof. revert past. induction l as [|y l IH]; intros past; cbn; [done|]. intros [Hy Hl]. split; [done|]. by apply IH. Qed.

Lemma in_turn_closed past l d : in_turn past l -> (exists x, x ∈ l /\ d ∈ P x) -> d ∈ past ++ l.
Proof.
  revert past. induction l as [|y l IH]; intros past; cbn; [by intros _ (x & ?%elem_of_nil & _)|].
  intros [Hy Hl] (x & [->|Hx]%elem_of_cons & Hd); [apply elem_of_app; left; by apply Hy|].
  specialize (IH _ Hl (ex_intro _ x (conj Hx Hd))). by rewrite <- app_assoc in IH.
Qed.

(** Nodes each of which waits for another one of them. *)
Definition deadlock (stuck : list string) : Prop :=
  stuck <> [] /\ forall x, x ∈ stuck -> x ∈ ids /\ exists d, d ∈ P x /\ d ∈ stuck.

(** The sorter after [past] was finished, while [queue] is to be. *)
Record sorted_so_far (st : sorter) (past queue : list string) : Prop := {
  so_keys : map fst st ≡ₚ ids;
  so_nodup : NoDup (past ++ queue);
  so_known : forall x, x ∈ past ++ queue -> x ∈ ids;
  so_ready : forall x, x ∈ ids -> x ∈ past ++ queue <-> ready_after past x;
  so_turn : in_turn [] past;
  so_waits : forall x, x ∈ ids -> npredecessors (info_of st x) = length (List.filter (fun d => negb (str_in d past)) (P x));
  so_succ : forall p x, x ∈ successors (info_of st p) <-> x ∈ ids /\ p ∈ P x;
  so_succ_nodup : forall p, NoDup (successors (info_of st p));
}.

Lemma waits_less past p x : p ∉ past ->
  length (List.filter (fun d => negb (str_in d (past ++ [p]))) (P x))
  = length (List.filter (fun d => negb (str_in d past)) (P x)) - (if str_in p (P x) then 1 else 0).
Proof.
  intros Hp. pose proof (P_nodup x) as Hnd. induction (P x) as [|d l IH]; [done|]. apply NoDup_cons in Hnd as [Hd Hnd].
  specialize (IH Hnd). cbn [List.filter]. unfold str_in in *. rewrite (bool_decide_ext (d ∈ past ++ [p]) (d ∈ past \/ d = p)) by set_solver.
  destruct (decide (d = p)) as [->|Hdp].
  - rewrite (bool_decide_eq_true_2 (p ∈ past \/ p = p)), (bool_decide_eq_false_2 _ Hp), (bool_decide_eq_true_2 (p ∈ p :: l)) by set_solver.
    cbn. rewrite (bool_decide_eq_false_2 _ Hd) in IH. lia.
  - rewrite (bool_decide_ext (d ∈ past \/ d = p) (d ∈ past)) by tauto. rewrite (bool_decide_ext (p ∈ d :: l) (p ∈ l)) by set_solver.
    destruct (decide (d ∈ past)) as [Hpast|Hpast].
    + by rewrite (bool_decide_eq_true_2 _ Hpast).
    + rewrite (bool_decide_eq_false_2 _ Hpast). cbn. rewrite IH. destruct (bool_decide (p ∈ l)) eqn:E; [|lia].
      apply bool_decide_eq_true in E. enough (0 < length (List.filter (fun d => negb (bool_decide (d ∈ past))) l)) by lia.
      assert (p ∈ List.filter (fun d => negb (bool_decide (d ∈ past))) l) as Hin
        by (apply elem_of_filterb; by rewrite bool_decide_eq_false_2).
      destruct (List.filter (fun d => negb (bool_decide (d ∈ past))) l); [by apply elem_of_nil in Hin|cbn; lia].
Qed.

Lemma waits_none past x : length (List.filter (fun d => negb (str_in d past)) (P x)) = 0 <-> ready_after past x.
Proof.
  unfold ready_after. split.
  - intros H0%nil_length_inv d Hd. destruct (decide (d ∈ past)) as [|Hn]; [done|]. exfalso. apply (not_elem_of_nil d).
    rewrite <- H0. apply elem_of_filterb. split; [done|]. unfold str_in. by rewrite bool_decide_eq_false_2.
  - intros Hr. assert (List.filter (fun d => negb (str_in d past)) (P x) = []) as ->; [|done].
    apply filterb_nil. intros d Hd. unfold str_in. by rewrite bool_decide_eq_true_2 by auto.
Qed.

Lemma finish_sorted st past p queue next :
  sorted_so_far st past (p :: queue ++ next) ->
  let '(st', next') := finish (st, next) p in sorted_so_far st' (past ++ [p]) (queue ++ next').
Proof.
  intros [Hk Hnd Hkn Hr Ht Hw Hs Hsn]. pose proof (finish_spec st next p (Hsn p)) as Hf.
  destruct (finish (st, next) p) as [st' next']. cbv zeta in Hf. destruct Hf as (Hkeys & Hinfo & Hnext).
  { intros s [Hin _]%Hs. by rewrite Hk. }
  assert (p ∉ past) as Hp by (apply NoDup_app in Hnd as (_ & Hd & _); intros Hx; apply (Hd p Hx); by left).
  assert (forall x, x ∈ ids -> x ∈ past ++ p :: queue ++ next \/ x ∈ List.filter (fun x => (npredecessors (info_of st x) - 1 =? 0)%nat)
            (successors (info_of st p)) <-> ready_after (past ++ [p]) x) as Hnew.
  { intros x Hx. rewrite (Hr x Hx), elem_of_filterb, Hs, Nat.eqb_eq, (Hw x Hx).
    rewrite <- (waits_none (past ++ [p]) x), (waits_less _ _ _ Hp), <- waits_none. unfold str_in.
    destruct (decide (p ∈ P x)) as [Hpx|Hpx]; [rewrite bool_decide_eq_true_2 by done|rewrite bool_decide_eq_false_2 by done]; [|rewrite Nat.sub_0_r; tauto].
    split; [|by right]. intros [H0|[_ H0]]; [by rewrite H0|done]. }
  assert (forall x, x ∈ List.filter (fun x => (npredecessors (info_of st x) - 1 =? 0)%nat) (successors (info_of st p)) ->
            x ∈ ids /\ p ∈ P x) as Hfil by (intros x [Hx%Hs _]%elem_of_filterb; done).
  subst next'. split; [by rewrite Hkeys|..].
  - replace ((past ++ [p]) ++ queue ++ next ++ _) with ((past ++ p :: queue ++ next) ++
      List.filter (fun x => (npredecessors (info_of st x) - 1 =? 0)%nat) (successors (info_of st p))) by (by rewrite <- !app_assoc; cbn; rewrite <- !app_assoc).
    apply NoDup_app. split_and!; [done| |by eapply sublist_NoDup, filterb_sublist].
    intros x Hx Hf. destruct (Hfil x Hf) as [Hxi Hpx]. apply (Hr x Hxi) in Hx. by apply Hp, Hx.
  - intros x Hx. assert (x ∈ past ++ p :: queue ++ next \/ x ∈ List.filter (fun x => (npredecessors (info_of st x) - 1 =? 0)%nat) (successors (info_of st p)))
      as [Ho|Hn] by (revert Hx; rewrite !elem_of_app, !elem_of_cons, !elem_of_app; set_solver); [by apply Hkn|by apply Hfil].
  - intros x Hx. rewrite <- (Hnew x Hx), !elem_of_app, !elem_of_cons, !elem_of_app. set_solver.
  - apply in_turn_snoc; [done|]. cbn [app]. apply Hr; [apply Hkn|]; apply elem_of_app; right; by left.
  - intros x Hx. rewrite Hinfo, (waits_less _ _ _ Hp), <- (Hw x Hx). cbn [npredecessors]. unfold str_in.
    rewrite (bool_decide_ext (x ∈ successors (info_of st p)) (p ∈ P x)) by (rewrite Hs; tauto). done.
  - intros q x. rewrite Hinfo. cbn [successors]. apply Hs.
  - intros q. rewrite Hinfo. apply Hsn.
Qed.

Lemma finish_all_sorted ready st past next :
  sorted_so_far st past (ready ++ next) ->
  let '(st', next') := fold_left finish ready (st, next) in sorted_so_far st' (past ++ ready) next'.
Proof.
  revert st past next. induction ready as [|p ready IH]; intros st past next Hi; cbn [fold_left]; [by rewrite app_nil_r|].
  pose proof (finish_sorted st past p ready next Hi) as Hf. destruct (finish (st, next) p) as [st1 next1].
  specialize (IH _ _ _ Hf). destruct (fold_left finish ready (st1, next1)) as [st' next']. by rewrite <- app_assoc in IH.
Qed.

Lemma rounds_sorted fuel st ready out :
  sorted_so_far st out ready -> length ids <= fuel + length out -> exists st', sorted_so_far st' (rounds fuel st ready out) [].
Proof.
  revert st ready out. induction fuel as [|fuel IH]; intros st ready out Hi Hlen.
  - exists st. cbn. assert (length (out ++ ready) <= length ids) as Hle
      by (apply NoDup_incl_length; [apply NoDup_ListNoDup, Hi|intros x Hx%list_elem_of_In; apply list_elem_of_In; by eapply so_known]).
    rewrite length_app in Hle. destruct ready; [done|cbn in Hle; lia].
  - cbn [rounds]. destruct ready as [|x ready]; [by exists st|]. rewrite <- (app_nil_r (x :: ready)) in Hi.
    pose proof (finish_all_sorted _ _ _ _ Hi) as Hf. destruct (fold_left finish (x :: ready) (st, [])) as [st' next].
    apply (IH _ _ _ Hf). rewrite length_app. cbn. lia.
Qed.

Lemma static_order_spec st :
  sorted_so_far st [] (map fst (List.filter (fun kv : string * NodeInfo => (npredecessors kv.2 =? 0)%nat) st)) ->
  match static_order st with
  | Ok out => out ≡ₚ ids /\ in_turn [] out
  | Err _ => exists stuck, deadlock stuck
  end.
Proof.
  intros Hi. assert (length st = length ids) as Hlen by (rewrite <- (length_map fst st); by rewrite (so_keys _ _ _ Hi)).
  destruct (rounds_sorted (length st) _ _ _ Hi) as [st' Hf]; [cbn; lia|]. unfold static_order. cbv zeta.
  set (out := rounds _ _ _ _) in *. rewrite Hlen. destruct Hf as [_ Hnd Hkn Hr Ht _ _ _]. rewrite app_nil_r in *.
  destruct (length out =? length ids)%nat eqn:E.
  - apply Nat.eqb_eq in E. split; [|done]. apply submseteq_length_Permutation; [|lia]. by apply NoDup_submseteq.
  - apply Nat.eqb_neq in E. exists (List.filter (fun x => negb (str_in x out)) ids). split.
    + intros H0. apply E. apply Permutation_length, submseteq_length_Permutation; [by apply NoDup_submseteq|].
      apply submseteq_length, NoDup_submseteq; [done|]. intros x Hx. destruct (decide (x ∈ out)) as [|Hn]; [done|]. exfalso.
      apply (not_elem_of_nil x). rewrite <- H0. apply elem_of_filterb. unfold str_in. by rewrite bool_decide_eq_false_2.
    + intros x [Hx Ho]%elem_of_filterb. split; [done|]. unfold str_in in Ho. apply negb_true_iff, bool_decide_eq_false in Ho.
      rewrite (Hr x Hx) in Ho. rewrite <- waits_none in Ho.
      destruct (List.filter (fun d => negb (str_in d out)) (P x)) as [|d l] eqn:Ef; [done|].
      assert (d ∈ List.filter (fun d => negb (str_in d out)) (P x)) as [Hd Hdo]%elem_of_filterb by (rewrite Ef; by left).
      exists d. split; [done|]. apply elem_of_filterb. split; [by eapply P_known|done].
Qed.

End Order.

(** ** The graph *)

Section Graph.
Context `{SetOrder} `{!SetOrderLaws}.

Definition deps_of (ns : list StageNode) (id : string) : list string :=
  match List.find (fun n => String.eqb (stage_id n) id) ns with Some n => dependencies n | None => [] end.

Definition waits_for (ns : list StageNode) (id : string) : list string := set_iter (deps_of ns id).

Lemma elem_of_set_iter l x : x ∈ set_iter l <-> x ∈ l.
Proof. by rewrite set_iter_perm, elem_of_sorted_set. Qed.

Lemma NoDup_set_iter l : NoDup (set_iter l).
Proof. rewrite set_iter_perm. apply NoDup_sorted_set. Qed.

Lemma find_app {A} (f : A -> bool) l k : List.find f (l ++ k) = match List.find f l with Some x => Some x | None => List.find f k end.
Proof. induction l as [|x l IH]; [done|]. cbn. by destruct (f x). Qed.

Lemma set_iter_nil : set_iter [] = [].
Proof. apply Permutation_nil. symmetry. by rewrite set_iter_perm. Qed.

Lemma find_node ns n : NoDup (map stage_id ns) -> n ∈ ns -> List.find (fun m => String.eqb (stage_id m) (stage_id n)) ns = Some n.
Proof.
  induction ns as [|m ns IH]; intros Hnd Hin; [by apply elem_of_nil in Hin|]. apply NoDup_cons in Hnd as [Hm Hnd]. cbn.
  apply elem_of_cons in Hin as [->|Hin]; [by rewrite String.eqb_refl|]. destruct (String.eqb_spec (stage_id m) (stage_id n)) as [E|]; [|auto].
  exfalso. apply Hm. rewrite E. by apply list_elem_of_fmap_2.
Qed.

(** The sorter that is built. *)
Lemma build_sorter ns st : NoDup (map stage_id ns) ->
  let build := fold_left (fun st n => add st (stage_id n) (set_iter (dependencies n))) in
  st = build ns [] ->
  NoDup (map fst st) /\ (forall x, x ∈ map fst st <-> x ∈ map stage_id ns \/ exists n, n ∈ ns /\ x ∈ dependencies n) /\
  forall x, npredecessors (info_of st x) = length (waits_for ns x) /\
    successors (info_of st x) = map stage_id (List.filter (fun n => str_in x (dependencies n)) ns).
Proof.
  intros Hnd build ->. revert Hnd. induction ns as [|n ns IH] using rev_ind; intros Hnd.
  { cbn. split_and!; [constructor| |]. all: intros x. 2: { unfold waits_for, deps_of. cbn. by rewrite set_iter_nil. } split; [by intros ?%elem_of_nil|]. intros [?%elem_of_nil|(n & ?%elem_of_nil & _)]; done. }
  rewrite map_app in Hnd. apply NoDup_app in Hnd as (Hnd & Hd & _). destruct (IH Hnd) as (H1 & H2 & H3). clear IH.
  unfold build in *. rewrite fold_left_app. cbn [fold_left]. set (st := fold_left _ ns []) in *.
  destruct (add_spec st (stage_id n) (set_iter (dependencies n)) (NoDup_set_iter _) H1) as (A1 & A2 & A3). split_and!; [done|..].
  - intros x. rewrite A2, H2, map_app, elem_of_app, elem_of_set_iter. cbn [map]. rewrite list_elem_of_singleton.
    setoid_rewrite elem_of_app. setoid_rewrite list_elem_of_singleton. naive_solver.
  - intros x. rewrite A3. cbn [npredecessors successors]. destruct (H3 x) as [-> ->]. split.
    + unfold waits_for, deps_of. rewrite find_app. cbn [List.find]. rewrite (String.eqb_sym (stage_id n) x).
      destruct (List.find (fun m => String.eqb (stage_id m) x) ns) as [m|] eqn:E.
      * apply List.find_some in E as [Hm <-%String.eqb_eq]. apply list_elem_of_In in Hm.
        rewrite (proj2 (String.eqb_neq (stage_id m) (stage_id n))); [apply Nat.add_0_r|]. intros Heq.
        apply (Hd (stage_id m)); [by apply list_elem_of_fmap_2|rewrite Heq; by left].
      * destruct (String.eqb x (stage_id n)); rewrite ?set_iter_nil; cbn; lia.
    + rewrite List.filter_app, map_app. f_equal. cbn [List.filter]. unfold str_in.
      rewrite (bool_decide_ext (x ∈ set_iter (dependencies n)) (x ∈ dependencies n)) by apply elem_of_set_iter.
      by destruct (bool_decide _).
Qed.

Lemma mapR_Err {E A B} (f : A -> result E B) l e : mapR f l = Err e -> exists x, x ∈ l /\ f x = Err e.
Proof.
  induction l as [|x l IH]; [done|]. cbn. destruct (f x) as [b|e'] eqn:E1; cbn.
  - destruct (mapR f l) as [bs|e']; [done|]. intros Hl. destruct (IH Hl) as (y & Hy & He). exists y. split; [by right|done].
  - intros [= <-]. exists x. split; [by left|done].
Qed.

Lemma ensure_Err {E} b (e e' : E) : ensure b e = Err e' -> b = false /\ e' = e.
Proof. destruct b; [done|]. by intros [= <-]. Qed.

Lemma dict_of_pairs_length {A} (l : list (string * A)) : length (dict_of_pairs l) = length l -> NoDup (map fst l).
Proof.
  intros Hl. assert (NoDup (map fst (dict_of_pairs l)) /\ forall x, x ∈ map fst (dict_of_pairs l) -> x ∈ map fst l) as [Hnd Hin].
  { clear Hl. unfold dict_of_pairs. induction l as [|kv l IH] using rev_ind; [split; [constructor|done]|].
    rewrite fold_left_app. cbn [fold_left]. destruct IH as [H1 H2]. split; [by apply dict_set_keys|].
    intros x. rewrite elem_of_dict_set, map_app, elem_of_app. cbn. rewrite list_elem_of_singleton. naive_solver. }
  apply NoDup_ListNoDup. apply (NoDup_incl_NoDup (l := map fst (dict_of_pairs l))).
  - by apply NoDup_ListNoDup.
  - rewrite !length_map. lia.
  - intros x Hx%list_elem_of_In. by apply list_elem_of_In, Hin.
Qed.

Lemma no_past l : List.filter (fun d => negb (str_in d [])) l = l.
Proof. apply filterb_all. intros d _. unfold str_in. by rewrite bool_decide_eq_false_2 by apply not_elem_of_nil. Qed.

(** What a graph that was built is like. *)
Record well_ordered (g : CampaignGraph) (ns : list StageNode) : Prop := {
  wo_nodup : NoDup (map stage_id ns);
  wo_known : forall n d, n ∈ ns -> d ∈ dependencies n -> d ∈ map stage_id ns;
  wo_nodes : nodes g = map (fun n => (stage_id n, n)) ns;
  wo_order : order g ≡ₚ map stage_id ns;
  wo_turn : in_turn (deps_of ns) [] (order g);
}.

Lemma in_turn_ext P Q past l : (forall x d, d ∈ P x <-> d ∈ Q x) -> in_turn P past l -> in_turn Q past l.
Proof.
  intros HPQ. revert past. induction l as [|x l IH]; intros past; [done|]. cbn. intros [Hx Hl]. split; [|by apply IH].
  intros d Hd. by apply Hx, HPQ.
Qed.

Lemma new_graph_spec ns :
  match new_graph ns with
  | Ok g => well_ordered g ns
  | Err _ => ~ NoDup (map stage_id ns) \/ (exists n d, n ∈ ns /\ d ∈ dependencies n /\ d ∉ map stage_id ns)
             \/ exists stuck, deadlock (map stage_id ns) (deps_of ns) stuck
  end.
Proof.
  unfold new_graph. cbv zeta. destruct (decide (NoDup (map stage_id ns))) as [Hnd|Hdup].
  2: { unfold ensure. destruct (Nat.eqb_spec (length (dict_of_pairs (map (fun n => (stage_id n, n)) ns))) (length ns)) as [E|]; [|by left].
       exfalso. apply Hdup. rewrite <- (length_map (fun n => (stage_id n, n)) ns) in E. apply dict_of_pairs_length in E. by rewrite map_map in E. }
  assert (dict_of_pairs (map (fun n => (stage_id n, n)) ns) = map (fun n => (stage_id n, n)) ns) as Hdict
    by (apply dict_of_pairs_NoDup; by rewrite map_map).
  rewrite Hdict, length_map, Nat.eqb_refl. cbn [ensure mbind result_bind].
  assert (forall d, has_key (map (fun n => (stage_id n, n)) ns) d = true <-> d ∈ map stage_id ns) as Hkey
    by (intros d; rewrite has_key_in, map_map; done).
  destruct (mapR (check_known _) ns) as [us|e] eqn:Eknown.
  2: { cbn. right. left. apply mapR_Err in Eknown as (n & Hn & He). unfold check_known in He. apply ensure_Err in He as [Hb _].
       apply bool_decide_eq_false in Hb. destruct (sorted_set _) as [|d l] eqn:Es; [done|].
       assert (d ∈ sorted_set (List.filter (fun d => negb (has_key (map (fun n => (stage_id n, n)) ns) d)) (dependencies n))) as Hd by (rewrite Es; by left).
       apply elem_of_sorted_set, elem_of_filterb in Hd as [Hd Hk]. exists n, d. split_and!; [done..|]. intros Hc%Hkey. by rewrite Hc in Hk. }
  assert (forall n d, n ∈ ns -> d ∈ dependencies n -> d ∈ map stage_id ns) as Hknown.
  { intros n d Hn Hd. apply mapR_Ok in Eknown. destruct (list_elem_of_lookup_1 _ _ Hn) as [k Hk].
    destruct (Forall2_lookup_l _ _ _ _ _ Eknown Hk) as (u & _ & Hu). unfold check_known in Hu. apply ensure_Ok, bool_decide_eq_true in Hu.
    apply Hkey. destruct (has_key _ d) eqn:E; [done|]. exfalso. apply (not_elem_of_nil d). rewrite <- Hu.
    apply elem_of_sorted_set, elem_of_filterb. by rewrite E. }
  cbn. set (st := fold_left _ ns []).
  pose proof (static_order_spec (map stage_id ns) (waits_for ns) Hnd (fun x => NoDup_set_iter _)) as Hs.
  destruct (build_sorter ns st Hnd eq_refl) as (K1 & K2 & K3).
  assert (forall x d, d ∈ waits_for ns x <-> d ∈ deps_of ns x) as HPQ by (intros; apply elem_of_set_iter).
  assert (forall x d, x ∈ map stage_id ns -> d ∈ waits_for ns x -> d ∈ map stage_id ns) as Hwk.
  { intros x d (n & -> & Hn)%list_elem_of_fmap. rewrite HPQ. unfold deps_of. rewrite find_node by done. eauto. }
  specialize (Hs Hwk st). assert (map fst st ≡ₚ map stage_id ns) as Hkeys.
  { apply NoDup_Permutation; [done..|]. intros x. rewrite K2. split; [|by left]. intros [|(n & Hn & Hx)]; [done|eauto]. }
  assert (sorted_so_far (map stage_id ns) (waits_for ns) st []
     (map fst (List.filter (fun kv : string * NodeInfo => (npredecessors kv.2 =? 0)%nat) st))) as Hstart.
  { assert (forall x, x ∈ map stage_id ns -> npredecessors (info_of st x) = length (waits_for ns x)) as Hw by (intros; apply K3).
    split; cbn [app].
    - done.
    - eapply sublist_NoDup; [exact K1|]. apply sublist_map, filterb_sublist.
    - intros x (kv & -> & [Hkv _]%elem_of_filterb)%list_elem_of_fmap. rewrite <- Hkeys. by apply list_elem_of_fmap_2.
    - intros x Hx. rewrite <- (waits_none (waits_for ns) [] x). rewrite no_past. rewrite <- (Hw x Hx).
      rewrite list_elem_of_fmap. split.
      + intros ([k i] & -> & [Hkv Hz%Nat.eqb_eq]%elem_of_filterb). cbn in *. by rewrite (info_of_in st k i).
      + intros Hz. assert (x ∈ map fst st) as ([k i] & -> & Hkv)%list_elem_of_fmap by (by rewrite Hkeys). exists (k, i). split; [done|].
        apply elem_of_filterb. split; [done|]. cbn in *. rewrite (info_of_in st k i) in Hz by done. by apply Nat.eqb_eq.
    - done.
    - intros x Hx. rewrite no_past. by apply Hw.
    - intros p x. destruct (K3 p) as [_ ->]. rewrite list_elem_of_fmap. setoid_rewrite elem_of_filterb. unfold waits_for. rewrite elem_of_set_iter.
      unfold deps_of. split.
      + intros (n & -> & Hn & Hp%str_in_true). split; [by apply list_elem_of_fmap_2|]. by rewrite find_node.
      + intros [(n & -> & Hn)%list_elem_of_fmap Hp]. rewrite find_node in Hp by done. exists n. by rewrite str_in_true.
    - intros p. destruct (K3 p) as [_ ->]. eapply sublist_NoDup; [exact Hnd|]. apply sublist_map, filterb_sublist. }
  destruct (static_order st) as [out|e].
  - destruct Hs as [Hp Ht]; [done|]. split; try done. by eapply in_turn_ext.
  - right. right. destruct Hs as (stuck & Hne & Hst); [done|]. exists stuck. split; [done|]. intros x Hx.
    destruct (Hst x Hx) as (? & d & Hd & ?). split; [done|]. exists d. by rewrite <- HPQ.
Qed.
End Graph.

(** ** Locks of a stage *)

Definition fails (a : answer) : bool := match a with Fails _ _ => true | _ => false end.
Definition no_fails {W} (w : Run W) : Prop := Forall (fun a => fails a = false) (answers w).

Definition paths_of (ls : list Lock) : list string := map lock_path (List.filter acquired ls).

Section Locks.
Context {W : Type}.
Notation run := (Run W).

(** What no call on a lock changes. *)
Definition same_but_locks (w w' : run) : Prop := records w' = records w /\ world w' = world w /\ (no_fails w -> no_fails w').

Lemma locks_same_refl w : same_but_locks w w.
Proof. done. Qed.

Lemma same_trans w1 w2 w3 : same_but_locks w1 w2 -> same_but_locks w2 w3 -> same_but_locks w1 w3.
Proof. intros (? & ? & ?) (? & ? & ?). split_and!; [congruence..|auto]. Qed.

Lemma next_answer_spec (w : run) : exists a w', next_answer w = (Ok a, w') /\ dirs w' = dirs w /\ same_but_locks w w' /\ (no_fails w -> fails a = false).
Proof.
  unfold next_answer, same_but_locks, no_fails. destruct (answers w) as [|a l] eqn:E.
  - exists Fine, w. rewrite E. by split_and!.
  - exists a, (mkRun (records w) (dirs w) l (world w)). split_and!; [done..| |]; by intros [? ?]%Forall_cons.
Qed.

Lemma acquire_spec (l : Lock) (w : run) r w' : acquire l w = (r, w') ->
  same_but_locks w w' /\
  match r with
  | Ok l' => l' = mkLock (lock_path l) (lock_resource l) true /\ dirs w' = {[lock_path l]} ∪ dirs w /\ lock_path l ∉ dirs w
  | Err e => (no_fails w -> dirs w' = dirs w)
  end.
Proof.
  unfold acquire. destruct (next_answer_spec w) as (a & w1 & Ha & Hd & Hs & Hf). unfold mbind, stm_bind. rewrite Ha. cbn. destruct a as [| |e stays].
  - destruct (decide (lock_path l ∈ dirs w1)) as [Hin|Hin]; [rewrite bool_decide_eq_true_2 by done|rewrite bool_decide_eq_false_2 by done]; intros [= <- <-].
    + split; [done|]. by rewrite Hd.
    + cbn. rewrite Hd in *. by split_and!.
  - intros [= <- <-]. split; [done|]. by rewrite Hd.
  - intros [= <- <-]. split; [done|]. intros Hn. by specialize (Hf Hn).
Qed.

Lemma acquire_all_spec (ls : list Lock) : Forall (fun l => acquired l = false) ls -> forall (w : run) got refused w', acquire_all ls w = ((got, refused), w') ->
  same_but_locks w w' /\ map lock_path got = map lock_path ls /\
  (refused = None -> Forall (fun l => acquired l = true) got) /\
  (no_fails w \/ refused = None -> NoDup (paths_of got) /\ (forall p, p ∈ paths_of got -> p ∉ dirs w) /\ dirs w' = list_to_set (paths_of got) ∪ dirs w).
Proof.
  induction 1 as [|l ls Hl Hls IH]; intros w got refused w'; cbn [acquire_all].
  { intros [= <- <- <-]. split_and!; [done..|]. intros _. split_and!; [constructor|by intros ? ?%elem_of_nil|]. unfold paths_of. cbn. set_solver. }
  destruct (acquire l w) as [[l'|e] w1] eqn:Ea; apply acquire_spec in Ea as [Hs Ha].
  - destruct Ha as (-> & Hd & Hn). destruct (acquire_all ls w1) as [[got' e] w2] eqn:Er. intros [= <- <- <-].
    destruct (IH _ _ _ _ Er) as (Hs2 & Hp & Hall & Hd2). split_and!.
    + by eapply same_trans.
    + cbn. by rewrite Hp.
    + intros He. constructor; [done|by apply Hall].
    + intros Hc. destruct Hd2 as (H1 & H2 & H3); [destruct Hc; [left; by apply Hs|by right]|]. unfold paths_of in *. cbn. rewrite Hd in *. split_and!.
      * apply NoDup_cons. split; [|done]. intros Hin. specialize (H2 _ Hin). set_solver.
      * intros p [->|Hp']%elem_of_cons; [done|]. specialize (H2 _ Hp'). set_solver.
      * rewrite H3. set_solver.
  - intros [= <- <- <-]. split_and!; [done..|]. unfold paths_of. cbn. rewrite Hl, (proj2 (filterb_nil acquired ls)) by (intros x Hx; by eapply Forall_forall in Hls).
    intros [Hc|]; [|done]. split_and!; [constructor|by intros ? ?%elem_of_nil|]. rewrite Ha by done. cbn. set_solver.
Qed.

Lemma inspect_spec (l : Lock) (w : run) r w' : inspect l w = (r, w') ->
  same_but_locks w w' /\ dirs w' = dirs w /\ (no_fails w -> exists there, r = Ok there /\ (lock_path l ∈ dirs w -> there = true)).
Proof.
  unfold inspect. destruct (next_answer_spec w) as (a & w1 & Ha & Hd & Hs & Hf). unfold mbind, stm_bind. rewrite Ha. cbn.
  destruct a as [| |e stays]; cbn; intros [= <- <-]; (split_and!; [done..|]); intros Hn; [by eexists; split; [done|]; intros; apply bool_decide_eq_true; rewrite Hd|eauto|].
  by specialize (Hf Hn).
Qed.

Lemma release_spec (l : Lock) (w : run) r w' : release l w = (r, w') ->
  same_but_locks w w' /\ (no_fails w -> r = Ok tt /\ dirs w' = if acquired l then dirs w ∖ {[lock_path l]} else dirs w).
Proof.
  unfold release. destruct (acquired l); [|by intros [= <- <-]]. destruct (next_answer_spec w) as (a & w1 & Ha & Hd & Hs & Hf).
  unfold mbind, stm_bind. rewrite Ha. cbn. destruct a as [| |e stays]; cbn; intros [= <- <-]; (split; [done|]); cbn; rewrite ?Hd; [done..|].
  intros Hn. by specialize (Hf Hn).
Qed.

Lemma release_one_spec (l : Lock) (w : run) r w' :
  (there ← inspect l; if there : bool then release l else mret tt) w = (r, w') ->
  same_but_locks w w' /\
  (no_fails w -> (acquired l = true -> lock_path l ∈ dirs w) ->
    r = Ok tt /\ dirs w' = if acquired l then dirs w ∖ {[lock_path l]} else dirs w).
Proof.
  unfold mbind, stm_bind. destruct (inspect l w) as [[there|e] w1] eqn:Ei; apply inspect_spec in Ei as (Hs & Hd & Hi).
  - intros Hrun. assert (same_but_locks w1 w' /\ (no_fails w1 -> there = true \/ acquired l = false -> r = Ok tt /\
      dirs w' = if acquired l then dirs w1 ∖ {[lock_path l]} else dirs w1)) as [Hs2 Hr].
    { destruct there; [apply release_spec in Hrun as [? ?]; eauto|]. injection Hrun as <- <-. split; [done|]. by intros _ [|E]; [|rewrite E]. }
    split; [by eapply same_trans|]. intros Hn Hin. rewrite <- Hd. apply Hr; [by apply Hs|]. destruct (Hi Hn) as (t & [= <-] & Ht).
    destruct (acquired l); [left; by apply Ht, Hin|by right].
  - intros [= <- <-]. split; [done|]. intros Hn. by destruct (Hi Hn) as (? & ? & _).
Qed.

Lemma release_all_spec (ls : list Lock) (w : run) r w' : release_all ls w = (r, w') ->
  same_but_locks w w' /\
  (no_fails w -> NoDup (paths_of ls) -> (forall p, p ∈ paths_of ls -> p ∈ dirs w) -> r = Ok tt /\ dirs w' = dirs w ∖ list_to_set (paths_of ls)).
Proof.
  unfold release_all. assert (paths_of (rev ls) ≡ₚ paths_of ls) as Hperm by (unfold paths_of; by rewrite <- (Permutation_rev ls)).
  intros Hrun. enough (same_but_locks w w' /\ (no_fails w -> NoDup (paths_of (rev ls)) -> (forall p, p ∈ paths_of (rev ls) -> p ∈ dirs w) ->
     r = Ok tt /\ dirs w' = dirs w ∖ list_to_set (paths_of (rev ls)))) as [H1 H2].
  { split; [done|]. intros Hn Hnd Hin. destruct H2 as [H2 H3]; [done|by rewrite Hperm|intros p; rewrite Hperm; apply Hin|]. split; [done|].
    rewrite H3. f_equal. apply leibniz_equiv. by rewrite Hperm. }
  clear Hperm. revert Hrun. generalize (rev ls) as l. intros l. revert w. induction l as [|x l IH]; intros w; cbn [iterM].
  { intros [= <- <-]. split; [done|]. intros _ _ _. split; [done|]. unfold paths_of. cbn. set_solver. }
  unfold mbind at 1, stm_bind at 1. destruct ((there ← inspect x; if there : bool then release x else mret tt) w) as [[u|e] w1] eqn:E1;
    apply release_one_spec in E1 as [Hs1 Hd1].
  - intros Hrun. destruct (IH _ Hrun) as [Hs2 Hd2]. split; [by eapply same_trans|]. intros Hn. unfold paths_of in *. cbn [List.filter].
    destruct (acquired x) eqn:Ex; cbn; intros Hnd Hin.
    + apply NoDup_cons in Hnd as [Hx Hnd]. destruct Hd1 as [_ Hd1]; [done|intros _; apply Hin; by left|].
      destruct Hd2 as [-> ->]; [by apply Hs1|done| |split; [done|set_solver]]. intros p Hp. rewrite Hd1.
      assert (p ∈ dirs w) by (apply Hin; by right). assert (p <> lock_path x) by (by intros ->). set_solver.
    + destruct Hd1 as [_ Hd1]; [done..|]. destruct Hd2 as [-> ->]; [by apply Hs1|done|by rewrite Hd1|by rewrite Hd1].
  - intros [= <- <-]. split; [done|]. intros Hn Hnd Hin. destruct Hd1 as [? _]; [done| |done]. intros Ex. apply Hin. unfold paths_of.
    cbn. rewrite Ex. by left.
Qed.

End Locks.

(** ** Runs *)

(** A call of the executor: the stage, the lock directories this process had,
    and the records. *)
Record Call : Type := mkCall {
  call_stage : string;
  call_dirs : gset string;
  call_records : list (string * StageRecord);
}.

(** An executor over its own world, with its calls written down. *)
Definition watched {E} (ex : string -> stm E (list string)) : string -> stm (Run (E * list Call)) (list string) := fun id w =>
  let '(r, e) := ex id (world w).1 in
  (r, mkRun (records w) (dirs w) (answers w) (e, (world w).2 ++ [mkCall id (dirs w) (records w)])).

Section Runs.
Context {E : Type} `{Hashes} (ex : string -> stm E (list string)).
Notation run := (Run (E * list Call)).
Context (root : string) (reuse : option (StageRecord -> run -> res bool)) (g : CampaignGraph).

Definition calls (w : run) : list Call := (world w).2.
Definition called (w : run) (id : string) : Prop := id ∈ map call_stage (calls w).

(** A call that was made when it should be. *)
Definition due (node : StageNode) (c : Call) : Prop :=
  stage_id node = call_stage c /\
  (forall d, d ∈ dependencies node -> finished (state_of (call_records c) d) = true) /\
  (forall claim, claim ∈ resources node -> exclusive claim = true -> Resources.lock_path root (resource_id claim) ∈ call_dirs c).

(** How a stage ended, when the run is at [w]. *)
Inductive ended (w0 w : run) (node : StageNode) : Prop :=
| ended_blocked :
    jget (records w) (stage_id node) = Some (mkRecord (stage_id node) "blocked" (spec_hash_of node) [] None) ->
    (exists d, d ∈ dependencies node /\ stopped (state_of (records w) d) = true) -> ~ called w (stage_id node) -> ended w0 w node
| ended_reused p ask asked :
    jget (records w0) (stage_id node) = Some p -> spec_hash p = spec_hash_of node -> finished (state p) = true ->
    reuse = Some ask -> ask p asked = Ok true ->
    jget (records w) (stage_id node) = Some (with_state "reused" p) ->
    (forall d, d ∈ dependencies node -> finished (state_of (records w) d) = true) -> ~ called w (stage_id node) -> ended w0 w node
| ended_succeeded outputs :
    jget (records w) (stage_id node) = Some (mkRecord (stage_id node) "succeeded" (spec_hash_of node) outputs None) ->
    (forall d, d ∈ dependencies node -> finished (state_of (records w) d) = true) -> called w (stage_id node) -> ended w0 w node
| ended_failed e :
    jget (records w) (stage_id node) = Some (failed_record (stage_id node) (spec_hash_of node) e) -> caught e = true ->
    (forall d, d ∈ dependencies node -> finished (state_of (records w) d) = true) -> ended w0 w node.

Lemma ended_state w0 w node : ended w0 w node ->
  stopped (state_of (records w) (stage_id node)) = negb (finished (state_of (records w) (stage_id node))).
Proof. intros He. unfold state_of. destruct He as [-> ? ?|p ask asked ? ? ? ? ? -> ? ?|o -> ? ?|e -> ? ?]; reflexivity. Qed.

(** What a later stage leaves of it. *)
Lemma ended_later w0 w w' node : ended w0 w node ->
  jget (records w') (stage_id node) = jget (records w) (stage_id node) ->
  (forall d, d ∈ dependencies node -> jget (records w') d = jget (records w) d) ->
  (called w' (stage_id node) <-> called w (stage_id node)) -> ended w0 w' node.
Proof.
  intros He Hid Hd Hc. assert (forall d, d ∈ dependencies node -> state_of (records w') d = state_of (records w) d) as Hs
    by (intros d Hin; unfold state_of; by rewrite Hd).
  destruct He as [Hj (d & Hin & Hst) Hn|p ask asked ? ? ? ? ? Hj Hf Hn|o Hj Hf Hcl|e Hj Hca Hf].
  - eapply ended_blocked; [by rewrite Hid|exists d; split; [done|by rewrite Hs]|by rewrite Hc].
  - eapply ended_reused; try done; [by rewrite Hid|intros d Hin; rewrite Hs by done; auto|by rewrite Hc].
  - eapply ended_succeeded; [by rewrite Hid|intros d Hin; rewrite Hs by done; auto|by rewrite Hc].
  - eapply ended_failed; [by rewrite Hid|done|intros d Hin; rewrite Hs by done; auto].
Qed.

(** What an attempt at a stage does. *)
Record attempt_of (node : StageNode) (w w' : run) : Prop := {
  at_records : forall k, k <> stage_id node -> jget (records w') k = jget (records w) k;
  at_dirs : dirs w' = dirs w;
  at_answers : answers w' = answers w;
  at_calls : calls w' = calls w \/ exists rs, calls w' = calls w ++ [mkCall (stage_id node) (dirs w) rs] /\
     forall k, k <> stage_id node -> jget rs k = jget (records w) k;
}.

Lemma attempted_spec node refused (w : run) r w' :
  attempted (watched ex) (stage_id node) (spec_hash_of node) refused w = (r, w') ->
  attempt_of node w w' /\ (refused <> None -> calls w' = calls w) /\
  match r with
  | Ok _ => (exists outputs, jget (records w') (stage_id node) = Some (mkRecord (stage_id node) "succeeded" (spec_hash_of node) outputs None) /\ called w' (stage_id node))
            \/ exists e, jget (records w') (stage_id node) = Some (failed_record (stage_id node) (spec_hash_of node) e) /\ caught e = true
  | Err e => caught e = false
  end.
Proof.
  assert (forall (v : list (string * StageRecord)) k rec k', k' <> k -> jget (dict_set v k rec) k' = jget v k') as Hother
    by (intros; rewrite jget_dict_set; by rewrite (proj2 (String.eqb_neq _ _))).
  assert (forall (v : list (string * StageRecord)) k rec, jget (dict_set v k rec) k = Some rec) as Hsame by (intros; by rewrite jget_dict_set, String.eqb_refl).
  unfold attempted. destruct refused as [e|].
  - cbn. destruct (caught e) eqn:Ec; intros [= <- <-].
    + split_and!; [|done|right; exists e; by cbn]. split; cbn; [intros; by apply Hother|done..|by left].
    + split_and!; [split; by auto|done|done].
  - unfold attempt, watched, mbind, stm_bind, set_record, modify. cbn. destruct (ex (stage_id node) (world w).1) as [[outputs|e] v] eqn:Ex; cbn.
    + intros [= <- <-]. split_and!; [|done|left; exists outputs; split; [apply Hsame|]].
      * split; cbn; [intros; by rewrite !Hother|done..|]. right. eexists. split; [done|]. intros; by apply Hother.
      * unfold called, calls. cbn. rewrite map_app. apply elem_of_app. right. by left.
    + destruct (caught e) eqn:Ec; intros [= <- <-]; (split_and!; [|done|]); [|right; exists e; split; [apply Hsame|done]| |done];
      split; cbn; try done; [intros; by rewrite !Hother|right; eexists; split; [done|]; intros; by apply Hother
        |intros; by rewrite !Hother|right; eexists; split; [done|]; intros; by apply Hother].
Qed.

(** What a step changes, and how it ends. *)
Record step_of (node : StageNode) (w : run) (r : res unit) (w' : run) : Prop := {
  sp_records : forall k, k <> stage_id node -> jget (records w') k = jget (records w) k;
  sp_calls : calls w' = calls w \/ exists c, calls w' = calls w ++ [c] /\ due node c;
  sp_no_fails : no_fails w -> no_fails w';
  sp_dirs : no_fails w -> r <> Err Killed -> dirs w' = dirs w;
  sp_raised : forall e, no_fails w -> r = Err e -> caught e = false \/ exists ask p asked, reuse = Some ask /\ ask p asked = Err e;
}.

Lemma locks_fresh node : Forall (fun l => acquired l = false) (locks_of root node).
Proof. apply List.Forall_forall. intros l (c & <- & _)%in_map_iff. done. Qed.

Lemma paths_acquired ls : Forall (fun l => acquired l = true) ls -> paths_of ls = map lock_path ls.
Proof. intros Hl. unfold paths_of. by rewrite filterb_all by (by apply Forall_forall). Qed.

Lemma execute_stage_spec node (w : run) r w' :
  stage_id node ∉ dependencies node -> (forall d, d ∈ dependencies node -> finished (state_of (records w) d) = true) ->
  execute_stage root (watched ex) node (spec_hash_of node) w = (r, w') ->
  step_of node w r w' /\
  (r = Ok tt -> (exists outputs, jget (records w') (stage_id node) = Some (mkRecord (stage_id node) "succeeded" (spec_hash_of node) outputs None) /\ called w' (stage_id node))
            \/ exists e, jget (records w') (stage_id node) = Some (failed_record (stage_id node) (spec_hash_of node) e) /\ caught e = true).
Proof.
  intros Hself Hdeps. unfold execute_stage. cbv zeta. destruct (acquire_all (locks_of root node) w) as [[ls refused] w1] eqn:Ea.
  destruct (acquire_all_spec _ (locks_fresh node) _ _ _ _ Ea) as ((Hr1 & Hw1 & Hn1) & Hpaths & Hgot & Hdirs).
  destruct (attempted (watched ex) (stage_id node) (spec_hash_of node) refused w1) as [r2 w2] eqn:Et.
  destruct (attempted_spec _ _ _ _ _ Et) as ([A1 A2 A3 A4] & Hrefused & Hres).
  assert (forall k, k <> stage_id node -> jget (records w2) k = jget (records w) k) as Hrec by (intros k Hk; by rewrite A1, Hr1).
  assert (calls w2 = calls w \/ exists c, calls w2 = calls w ++ [c] /\ due node c) as Hcalls.
  { assert (calls w1 = calls w) as Hc1 by (unfold calls; by rewrite Hw1). rewrite <- Hc1. destruct A4 as [A4|(rs & A4 & Hrs)]; [by left|].
    destruct refused as [e|]; [left; by apply Hrefused|]. right. eexists. split; [exact A4|]. split_and!; [done|..]; cbn.
    - intros d Hd. rewrite <- (Hdeps d Hd). unfold state_of. rewrite Hrs, Hr1; [done|]. by intros ->.
    - intros claim Hc Hex. destruct Hdirs as (_ & _ & ->); [by right|]. apply elem_of_union. left. apply elem_of_list_to_set.
      rewrite (paths_acquired _ (Hgot eq_refl)), Hpaths. unfold locks_of. rewrite map_map. cbn.
      apply list_elem_of_fmap. exists claim. split; [done|]. by apply elem_of_filterb. }
  assert (no_fails w -> no_fails w2) as Hn2 by (intros Hn; unfold no_fails; rewrite A3; by apply Hn1).
  assert (forall r3 w3, release_all ls w2 = (r3, w3) -> records w3 = records w2 /\ calls w3 = calls w2 /\ (no_fails w -> no_fails w3) /\
            (no_fails w -> r3 = Ok tt /\ dirs w3 = dirs w)) as Hrel.
  { intros r3 w3 Er. apply release_all_spec in Er as ((R1 & R2 & R3) & Hd). split_and!; [done|unfold calls; by rewrite R2|auto|].
    intros Hn. destruct Hdirs as (D1 & D2 & D3); [by left|]. rewrite A2, D3 in Hd. destruct Hd as [-> Hd]; [auto|done| |].
    - intros p Hp. apply elem_of_union. left. by apply elem_of_list_to_set.
    - split; [done|]. rewrite Hd. apply set_eq. intros p. specialize (D2 p). rewrite elem_of_difference, elem_of_union, !elem_of_list_to_set. naive_solver. }
  destruct r2 as [u|e].
  - intros Hrun. destruct (Hrel _ _ Hrun) as (R1 & R2 & R3 & R4). split.
    + split; [by rewrite R1|by rewrite R2|done|by intros Hn; destruct (R4 Hn)|]. intros e Hn ->. by destruct (R4 Hn).
    + intros ->. unfold called. rewrite R1, R2. exact Hres.
  - destruct (bool_decide (e = Killed)) eqn:Ek.
    + intros [= <- <-]. apply bool_decide_eq_true in Ek as ->. split; [|done]. split; try done. intros e _ [= <-]. by left.
    + unfold mbind, stm_bind. destruct (release_all ls w2) as [r3 w3]. destruct (Hrel _ _ eq_refl) as (R1 & R2 & R3 & R4).
      intros Hrun. assert (w3 = w' /\ r <> Ok tt /\ (no_fails w -> r = Err e)) as (-> & Hne & He).
      { destruct r3 as [u3|e3]; injection Hrun as <- <-; split_and!; try done. intros Hn. by destruct (R4 Hn). }
      split; [|done]. split; [by rewrite R1|by rewrite R2|done|by intros Hn; destruct (R4 Hn)|].
      intros e' Hn Hr. rewrite (He Hn) in Hr. injection Hr as <-. by left.
Qed.

Lemma step_spec (ns : list StageNode) node (w0 w : run) r w' :
  jget (nodes g) (stage_id node) = Some node ->
  stage_id node ∉ dependencies node ->
  (forall d, d ∈ dependencies node -> stopped (state_of (records w) d) = negb (finished (state_of (records w) d))) ->
  jget (records w) (stage_id node) = jget (records w0) (stage_id node) -> ~ called w (stage_id node) ->
  step g root (watched ex) reuse (stage_id node) w = (r, w') ->
  step_of node w r w' /\ (r = Ok tt -> ended w0 w' node).
Proof.
  intros Hg Hself Hst Hw0 Hnc. unfold step. rewrite Hg. cbn [lift of_option]. unfold mbind at 1, stm_bind at 1, lift at 1. cbv beta zeta.
  unfold mbind at 1, stm_bind at 1, get. cbv beta zeta.
  assert (forall rec, step_of node w (Ok tt) (mkRun (dict_set (records w) (stage_id node) rec) (dirs w) (answers w) (world w))) as Hset.
  { intros rec. split; cbn; [|by left|done..]. intros k Hk. rewrite jget_dict_set. by rewrite (proj2 (String.eqb_neq _ _)). }
  assert (forall rec, jget (dict_set (records w) (stage_id node) rec) (stage_id node) = Some rec) as Hsame
    by (intros; by rewrite jget_dict_set, String.eqb_refl).
  assert (forall rs, (forall k, k <> stage_id node -> jget rs k = jget (records w) k) ->
     forall d, d ∈ dependencies node -> state_of rs d = state_of (records w) d) as Hstates
    by (intros rs Hrs d Hd; unfold state_of; rewrite Hrs; [done|by intros ->]).
  destruct (existsb (fun d => stopped (state_of (records w) d)) (dependencies node)) eqn:Eb.
  - intros [= <- <-]. split; [apply Hset|]. intros _. apply existsb_true in Eb as (d & Hd & Hs). eapply ended_blocked; cbn; [apply Hsame| |done].
    exists d. split; [done|]. rewrite (Hstates (dict_set (records w) (stage_id node) _)); [done| |done]. apply (sp_records _ _ _ _ (Hset _)).
  - assert (forall d, d ∈ dependencies node -> finished (state_of (records w) d) = true) as Hfin.
    { intros d Hd. specialize (Hst d Hd). rewrite existsb_false in Eb. rewrite (Eb d Hd) in Hst. by destruct (finished _). }
    unfold mbind at 1, stm_bind at 1, lift. cbv beta zeta. destruct (reusable reuse (spec_hash_of node) (jget (records w) (stage_id node)) w) as [again|e] eqn:Er.
    + unfold reusable in Er. rewrite Hw0 in Er. destruct again as [p|].
      * intros [= <- <-]. split; [apply Hset|]. intros _. destruct (jget (records w0) (stage_id node)) as [q|] eqn:Eq; [|done].
        destruct reuse as [ask|] eqn:Eask; [|done]. destruct (String.eqb (spec_hash q) (spec_hash_of node) && finished (state q)) eqn:Ec; [|done].
        apply andb_true_iff in Ec as [Eh%String.eqb_eq Ef]. apply bind_Ok in Er as ([] & Eask' & [= ->]).
        eapply (ended_reused _ _ _ p ask w); try done; cbn; [apply Hsame|]. intros d Hd. rewrite <- (Hfin d Hd).
        f_equal. apply Hstates; [|done]. apply (sp_records _ _ _ _ (Hset _)).
      * clear Er. intros Hrun. destruct (execute_stage_spec _ _ _ _ Hself Hfin Hrun) as [Hs Hres]. split; [done|]. intros Hr.
        assert (forall d, d ∈ dependencies node -> finished (state_of (records w') d) = true) as Hfin'
          by (intros d Hd; rewrite <- (Hfin d Hd); f_equal; apply Hstates; [apply Hs|done]).
        destruct (Hres Hr) as [(o & Ho & Hc)|(e & He & Hc)]; [by eapply ended_succeeded|by eapply ended_failed].
    + intros [= <- <-]. split; [|done]. split; [done|by left|done..|]. intros e' _ [= <-]. right. unfold reusable in Er.
      destruct (jget (records w) (stage_id node)) as [q|]; [|done]. destruct reuse as [ask|]; [|done]. destruct (_ && _); [|done].
      exists ask, q, w. split; [done|]. destruct (ask q w); [done|]. by injection Er as ->.
Qed.

Lemma step_of_weaken_sublist past id node (w : run) r w' : step_of node w r w' -> stage_id node = id ->
  map call_stage (calls w) `sublist_of` past -> map call_stage (calls w') `sublist_of` past ++ [id].
Proof.
  intros [_ Hc _ _ _] <- Hs. destruct Hc as [->|(c & -> & (Hc & _))]; [by apply sublist_inserts_r|]. rewrite map_app. cbn. rewrite <- Hc.
  by apply sublist_app.
Qed.

Lemma well_ordered_node ns n : well_ordered g ns -> n ∈ ns -> jget (nodes g) (stage_id n) = Some n.
Proof.
  intros Hg Hn. rewrite (wo_nodes _ _ Hg). destruct Hg as [Hnd _ _ _ _]. induction ns as [|m ns IH]; [by apply elem_of_nil in Hn|].
  apply NoDup_cons in Hnd as [Hm Hnd]. cbn. apply elem_of_cons in Hn as [->|Hn]; [by rewrite String.eqb_refl|].
  rewrite (proj2 (String.eqb_neq _ _)); [by apply IH|]. intros E1. apply Hm. rewrite <- E1. by apply list_elem_of_fmap_2.
Qed.

(** The run after the stages of [past]. *)
Record so_far (ns : list StageNode) (w0 : run) (past : list string) (w : run) : Prop := {
  sf_calls : map call_stage (calls w) `sublist_of` past;
  sf_due : forall c, c ∈ calls w -> exists node, node ∈ ns /\ due node c;
  sf_ended : forall node, node ∈ ns -> stage_id node ∈ past -> ended w0 w node;
  sf_rest : forall id, id ∉ past -> jget (records w) id = jget (records w0) id;
  sf_no_fails : no_fails w0 -> no_fails w /\ dirs w = dirs w0;
}.

Lemma step_so_far ns (w0 w : run) past id rest r w' : well_ordered g ns -> order g = past ++ id :: rest ->
  so_far ns w0 past w -> step g root (watched ex) reuse id w = (r, w') ->
  (exists node, node ∈ ns /\ stage_id node = id /\ step_of node w r w') /\ (r = Ok tt -> so_far ns w0 (past ++ [id]) w').
Proof.
  intros Hg Hord Hsf Hrun. assert (id ∈ map stage_id ns) as (node & -> & Hn)%list_elem_of_fmap
    by (rewrite <- (wo_order _ _ Hg), Hord; apply elem_of_app; right; by left).
  assert (NoDup (order g)) as Hnd by (rewrite (wo_order _ _ Hg); apply Hg). rewrite Hord in Hnd.
  assert (stage_id node ∉ past) as Hpast by (apply NoDup_app in Hnd as (_ & Hd & _); intros Hin; apply (Hd _ Hin); by left).
  assert (forall l a, in_turn (deps_of ns) a (l ++ stage_id node :: rest) -> ready_after (deps_of ns) (a ++ l) (stage_id node)) as Hturn.
  { induction l as [|x l IH]; intros a; cbn; [intros [Ht _]; by rewrite app_nil_r|]. intros [_ Ht]. specialize (IH _ Ht). by rewrite <- app_assoc in IH. }
  pose proof (wo_turn _ _ Hg) as Ht. rewrite Hord in Ht. specialize (Hturn _ _ Ht). cbn [app] in Hturn.
  assert (forall d, d ∈ dependencies node -> d ∈ past) as Hdeps
    by (intros d Hd; apply Hturn; unfold deps_of; by rewrite (find_node ns node (wo_nodup _ _ Hg) Hn)).
  destruct (step_spec ns node w0 w r w') as [Hs He]; try done.
  - by apply (well_ordered_node ns).
  - by intros Hd%Hdeps.
  - intros d Hd. apply Hdeps in Hd as Hp. assert (d ∈ map stage_id ns) as (m & -> & Hm)%list_elem_of_fmap by (by eapply wo_known).
    apply (ended_state w0). by apply (sf_ended _ _ _ _ Hsf).
  - by apply (sf_rest _ _ _ _ Hsf).
  - intros Hc. apply Hpast. eapply elem_of_submseteq; [exact Hc|]. apply sublist_submseteq, Hsf.
  - split; [by exists node|]. intros ->. destruct Hs as [S1 S2 S3 S4 S5]. destruct Hsf as [F1 F2 F3 F4 F5]. split.
    + by eapply step_of_weaken_sublist.
    + intros c Hc. destruct S2 as [S2|(c' & S2 & Hdue)]; rewrite S2 in Hc; [by apply F2|]. apply elem_of_app in Hc as [Hc| ->%list_elem_of_singleton]; [by apply F2|]. by exists node.
    + intros m Hm [Hp| Hp%list_elem_of_singleton]%elem_of_app.
      * assert (stage_id m <> stage_id node) as Hne by (intros E1; by rewrite E1 in Hp). specialize (F3 m Hm Hp).
        eapply ended_later; [exact F3|by apply S1| |].
        -- intros d Hd. apply S1. intros ->. apply Hpast. apply (in_turn_closed (deps_of ns) [] past); [by eapply in_turn_app|]. exists (stage_id m).
           split; [done|]. unfold deps_of. by rewrite (find_node ns m (wo_nodup _ _ Hg) Hm).
        -- unfold called. destruct S2 as [->|(c & -> & (Hc & _))]; [done|]. rewrite map_app, elem_of_app. cbn. rewrite list_elem_of_singleton.
           split; [intros [|Heq]; [done|]|by left]. by rewrite Heq, <- Hc in Hne.
      * assert (m = node) as ->; [|by apply He]. pose proof (find_node ns m (wo_nodup _ _ Hg) Hm) as Hf. rewrite Hp in Hf.
        rewrite (find_node ns node (wo_nodup _ _ Hg) Hn) in Hf. by injection Hf.
    + intros k Hk. rewrite S1; [apply F4|]; set_solver.
    + intros Hn0. destruct (F5 Hn0) as [Hnw <-]. split; [auto|]. by apply S4.
Qed.

Lemma run_so_far ns (w0 : run) rest : forall past (w : run) r w', well_ordered g ns -> order g = past ++ rest -> so_far ns w0 past w ->
  iterM (step g root (watched ex) reuse) rest w = (r, w') ->
  map call_stage (calls w') `sublist_of` order g /\
  (forall c, c ∈ calls w' -> exists node, node ∈ ns /\ due node c) /\
  (r = Ok tt -> so_far ns w0 (order g) w') /\
  (no_fails w0 -> (r <> Err Killed -> dirs w' = dirs w0) /\
     forall e, r = Err e -> caught e = false \/ exists ask p asked, reuse = Some ask /\ ask p asked = Err e).
Proof.
  induction rest as [|id rest IH]; intros past w r w' Hg Hord Hsf; cbn [iterM].
  - intros [= <- <-]. rewrite app_nil_r in Hord. rewrite Hord. split_and!; [apply Hsf..|done|].
    intros Hn. split; [|done]. intros _. by apply (sf_no_fails _ _ _ _ Hsf).
  - unfold mbind, stm_bind. destruct (step g root (watched ex) reuse id w) as [r1 w1] eqn:Es.
    destruct (step_so_far _ _ _ _ _ _ _ _ Hg Hord Hsf Es) as [(node & Hn & Hid & Hs) Hnext]. destruct r1 as [u|e].
    + destruct u. intros Hrun. eapply (IH (past ++ [id])); [done|by rewrite <- app_assoc|by apply Hnext|done].
    + intros [= <- <-]. split_and!; [|..|done|].
      * etrans; [by eapply step_of_weaken_sublist; [done|done|apply Hsf]|]. rewrite Hord. apply sublist_app; [done|].
        apply sublist_skip, sublist_nil_l.
      * intros c Hc. destruct (sp_calls _ _ _ _ Hs) as [S2|(c' & S2 & Hdue)]; rewrite S2 in Hc; [by apply (sf_due _ _ _ _ Hsf)|].
        apply elem_of_app in Hc as [Hc| ->%list_elem_of_singleton]; [by apply (sf_due _ _ _ _ Hsf)|]. by exists node.
      * intros Hn0. destruct (sf_no_fails _ _ _ _ Hsf Hn0) as [Hnw <-]. split; [by apply Hs|]. intros e' [= <-]. by apply Hs.
Qed.

End Runs.


(** ** Runs *)

#[local] Existing Instance toy_hashes.
#[local] Instance sorted_sets : SetOrder := { set_iter := sorted_set }.
#[local] Instance sorted_sets_laws : SetOrderLaws.
Proof. by split. Qed.

Definition nodes_of (g : res CampaignGraph) : list StageNode := match g with Ok g => map snd (nodes g) | Err _ => [] end.

Definition demo_graph : res CampaignGraph :=
  build_stage_graph "llama" "tune" "slice" "plan" (Some "workload") true true ["gpu-1"; "gpu-0"].

Definition the_graph (g : res CampaignGraph) : CampaignGraph := match g with Ok g => g | Err _ => mkGraph [] [] end.

Example demo_stage_order : order (the_graph demo_graph) = ["llama:tune:generate"; "llama:tune:build"; "llama:tune:runtime-smoke"].
Proof. vm_compute. reflexivity. Qed.

(** An executor whose outputs are what a counter says; one stage fails. *)
Definition counting (fails : list string) (id : string) : stm nat (list string) := fun n =>
  if str_in id fails then (Err (ValueError "no"), n) else (Ok [show_nat n], S n).

Definition demo_world (rs : list (string * StageRecord)) (n : nat) (a : list answer) : Run (nat * list Call) := mkRun rs ∅ a (n, []).

Definition demo_pass g failing reuse w := execute (the_graph g) "/locks" (watched (counting failing)) reuse w.
Definition summary {E} (w : Run E) : list (string * string * list string) :=
  map (fun kr : string * StageRecord => (kr.1, state kr.2, output_hashes kr.2)) (records w).

Example demo_blocked : summary (demo_pass demo_graph ["llama:tune:build"] None (demo_world [] 0 [])).2 =
  [("llama:tune:generate", "succeeded", ["0"]); ("llama:tune:build", "failed", []); ("llama:tune:runtime-smoke", "blocked", [])].
Proof. vm_compute. reflexivity. Qed.

(** The hash of a stage does not cover what it consumed.  A stage whose output
    is gone is executed again and gives another output; the stages after it are
    reused all the same, made from the old one. *)
Definition first_pass := (demo_pass demo_graph [] None (demo_world [] 0 [])).2.
Definition lost_generate : option (StageRecord -> Run (nat * list Call) -> res bool) :=
  Some (fun r _ => Ok (negb (String.eqb (rec_stage_id r) "llama:tune:generate"))).

Example stale_reuse : summary (demo_pass demo_graph [] lost_generate (demo_world (records first_pass) 7 [])).2 =
  [("llama:tune:generate", "succeeded", ["7"]); ("llama:tune:build", "reused", ["1"]); ("llama:tune:runtime-smoke", "reused", ["2"])].
Proof. vm_compute. reflexivity. Qed.

(** A stage that waited in vain for its second lock looks at it again to
    release it.  When the file of its holder is just being written, reading it
    raises: the pass ends there, and the first lock is kept for ever. *)
Definition torn_owner : exn := Exn "JSONDecodeError" "Expecting value: line 1 column 1 (char 0)".

Example refused_lock_leaks :
  let '(r, w) := demo_pass demo_graph [] None (demo_world (records first_pass) 7
     [Fine; Fine; Fine; Fine; Fine; Fine; Fine; Busy; Fails torn_owner true]) in
  (is_ok r, elements (dirs w), jget (records w) "llama:tune:runtime-smoke" ≫= (fun r => Some (state r)))
  = (false, ["/locks/gpu-0.lock"], Some "failed").
Proof. vm_compute. reflexivity. Qed.

(** Two claims whose names give one lock file are a deadlock of the stage with
    itself: it waits for the lock it holds, and fails. *)
Example self_deadlock :
  summary (demo_pass (build_stage_graph "llama" "tune" "slice" "plan" None false true ["gpu/0"; "gpu:0"]) [] None (demo_world [] 0 [])).2
  = [("llama:tune:build", "succeeded", ["0"]); ("llama:tune:runtime-smoke", "failed", [])].
Proof. vm_compute. reflexivity. Qed.


End Campaign.
