(* ===== verification/Planner.v ===== *)
(** The planner of campaigns: [src/tools/bigcherry/campaign/planner.py].

    A request is expanded to lanes, and the lanes are run one after the other.
    What a lane's inputs and its validation are, and how one lane is executed,
    is left open. *)

From S2P Require Import Prelude Json Campaign.

Module Planner.
Import Json.

Definition CampaignPlannerError (msg : string) : exn := Exn "CampaignPlannerError" msg.

(** [config.CampaignLaneSelector], and what the planner reads of [Config]:
    names, the targets of a platform and the lanes of a profile. *)
Record Selector : Type := mkSelector {
  sel_source : string;
  sel_build : string;
  sel_platform : string;
  sel_experiment : option string;
  sel_binary : option string;
}.

Record Config : Type := mkConfig {
  sources : list string;
  builds : list string;
  platforms : list (string * list string);
  campaigns : list (string * list Selector);
}.

(** What [expand_contract] reads of an [ExperimentContract]. *)
Record EvaluationSet : Type := mkEvaluation { models : list string; workloads : list string }.
Record ExperimentContract : Type := mkContract {
  contract_id_of : string;
  atomic_part : string;
  positive : EvaluationSet;
  controls : EvaluationSet;
  dimensions : list (string * list json);
}.

Section Planner.
Context {LaneInputs RuntimeSmokeSpec : Type} (no_inputs : LaneInputs).

Record CampaignLane : Type := mkLane {
  source_name : string;
  build_name : string;
  platform_name : string;
  architectures : list string;
  inputs : LaneInputs;
  validation : option RuntimeSmokeSpec;
  binary_relative_path : string;
  c_compiler : option string;
  cxx_compiler : option string;
  smoke_environment : option (list (string * string));
  experiment : option string;
  contract_id : option string;
  optimization_id : option string;
  role : option string;
  workload_tag : option string;
  model_ref : option string;
  boundary_dimension : option string;
  boundary_value : option string;
}.

Record CampaignRequest : Type := mkRequest {
  selectors : list Selector;
  profile_name : option string;
  rq_architectures : list string;
  inputs_by_build : list (string * LaneInputs);
  validation_by_build : list (string * option RuntimeSmokeSpec);
  rq_binary : string;
  rq_c_compiler : option string;
  rq_cxx_compiler : option string;
  rq_smoke_environment : option (list (string * string));
  rq_experiment : option string;
}.

Definition triple (source build platform : string) : string := source +:+ ":" +:+ build +:+ ":" +:+ platform.

Definition with_experiment (base : string) (experiment : option string) : string :=
  match experiment with Some e => base +:+ "+" +:+ e | None => base end.

Definition lane_id (lane : CampaignLane) : string :=
  let base := with_experiment (triple (source_name lane) (build_name lane) (platform_name lane)) (experiment lane) in
  match contract_id lane with
  | None => base
  | Some c => String.concat ":" [base; c; opt_or (role lane) ""; opt_or (workload_tag lane) ""; opt_or (model_ref lane) "";
                opt_or (boundary_dimension lane) ""; opt_or (boundary_value lane) ""]
  end.

(** [a or b] for optional strings. *)
Definition or_else (a b : option string) : option string := if opt_truthy a then a else b.

Definition resolve_architectures (request : list string) (platform : string) (targets : list string) : res (list string) :=
  match request with
  | [] => Ok targets
  | _ =>
      let unknown := sorted_set (List.filter (fun a => negb (str_in a targets)) request) in
      _ ← ensure (bool_decide (unknown = []))
            (CampaignPlannerError ("architecture(s) " +:+ py_repr_list unknown +:+ " are not in platform " +:+ py_repr platform
               +:+ "'s targets " +:+ py_repr_list targets));
      Ok request
  end.

(** What names a selector when duplicates are looked for. *)
Definition selector_id (s : Selector) : string :=
  with_experiment (triple (sel_source s) (sel_build s) (sel_platform s)) (sel_experiment s).

Definition selected_lanes (request : CampaignRequest) (cfg : Config) : res (list Selector) :=
  _ ← ensure (negb (Bool.eqb (bool_decide (selectors request <> [])) (opt_truthy (profile_name request))))
        (CampaignPlannerError "exactly one of request.selectors or request.profile_name must be set");
  match profile_name request with
  | Some name => of_option (CampaignPlannerError ("no campaign profile named " +:+ py_repr name)) (jget (campaigns cfg) name)
  | None => Ok (selectors request)
  end.

Definition check_names (cfg : Config) (source build platform : string) : res (list string) :=
  _ ← ensure (str_in source (sources cfg)) (CampaignPlannerError ("unknown source " +:+ py_repr source));
  _ ← ensure (str_in build (builds cfg)) (CampaignPlannerError ("unknown build " +:+ py_repr build));
  of_option (CampaignPlannerError ("unknown platform " +:+ py_repr platform)) (jget (platforms cfg) platform).

Definition lane_of (request : CampaignRequest) (s : Selector) (archs : list string) : CampaignLane :=
  mkLane (sel_source s) (sel_build s) (sel_platform s) archs
    (get_or (inputs_by_build request) (sel_build s) no_inputs) (get_or (validation_by_build request) (sel_build s) None)
    (opt_or (or_else (sel_binary s) (Some (rq_binary request))) "")
    (rq_c_compiler request) (rq_cxx_compiler request) (rq_smoke_environment request)
    (or_else (sel_experiment s) (rq_experiment request)) None None None None None None None.

Definition plan_one (request : CampaignRequest) (cfg : Config) (st : list string * list CampaignLane) (s : Selector) :
    res (list string * list CampaignLane) :=
  targets ← check_names cfg (sel_source s) (sel_build s) (sel_platform s);
  _ ← ensure (negb (str_in (selector_id s) st.1))
        (CampaignPlannerError ("duplicate lane " +:+ py_repr (selector_id s) +:+ " in request"));
  archs ← resolve_architectures (rq_architectures request) (sel_platform s) targets;
  Ok (selector_id s :: st.1, st.2 ++ [lane_of request s archs]).

Definition plan (request : CampaignRequest) (cfg : Config) : res (list CampaignLane) :=
  ss ← selected_lanes request cfg;
  st ← foldR (plan_one request cfg) ss ([], []);
  Ok st.2.

(** ** Lanes of a contract *)

(** The shape the lanes of one contract share. *)
Definition contract_lane (shape : CampaignLane) (contract : ExperimentContract) (role workload model dimension value : option string) :
    CampaignLane :=
  mkLane (source_name shape) (build_name shape) (platform_name shape) (architectures shape) (inputs shape) (validation shape)
    (binary_relative_path shape) (c_compiler shape) (cxx_compiler shape) (smoke_environment shape) (experiment shape)
    (Some (contract_id_of contract)) (Some (atomic_part contract)) role workload model dimension value.

Definition pairs_of (e : EvaluationSet) : list (string * string) :=
  concat (map (fun m => map (fun w => (m, w)) (workloads e)) (models e)).

Definition points_of (contract : ExperimentContract) : list (string * json) :=
  concat (map (fun dv : string * list json => map (fun v => (dv.1, v)) dv.2) (dimensions contract)).

Definition contract_lanes (shape : CampaignLane) (contract : ExperimentContract) : list CampaignLane :=
  map (fun mw => contract_lane shape contract (Some "positive") (Some mw.2) (Some mw.1) None None) (pairs_of (positive contract))
  ++ map (fun mw => contract_lane shape contract (Some "control") (Some mw.2) (Some mw.1) None None) (pairs_of (controls contract))
  ++ map (fun dv => contract_lane shape contract (Some "boundary") None None (Some dv.1)
       (match dv.2 with JNull => None | v => Some (jstr v) end)) (points_of contract).

Definition check_distinct (contract : ExperimentContract) (seen : list string) (lane : CampaignLane) : res (list string) :=
  _ ← ensure (negb (str_in (lane_id lane) seen))
        (CampaignPlannerError ("duplicate contract lane " +:+ py_repr (lane_id lane) +:+ " -- contract "
           +:+ py_repr (contract_id_of contract) +:+ "'s positive/controls/boundary sections produced two identical lanes"));
  Ok (lane_id lane :: seen).

(** [shape]: a lane with the arguments of the call, whose architectures are
    those that were asked for. *)
Definition expand_contract (contract : ExperimentContract) (cfg : Config) (shape : CampaignLane) : res (list CampaignLane) :=
  targets ← check_names cfg (source_name shape) (build_name shape) (platform_name shape);
  archs ← resolve_architectures (architectures shape) (platform_name shape) targets;
  let shape := mkLane (source_name shape) (build_name shape) (platform_name shape) archs (inputs shape) (validation shape)
    (binary_relative_path shape) (c_compiler shape) (cxx_compiler shape) (smoke_environment shape) (experiment shape)
    None None None None None None None in
  let lanes := contract_lanes shape contract in
  _ ← foldR (check_distinct contract) lanes [];
  Ok lanes.

(** ** Running the lanes *)

(** [hashlib.blake2b(_, digest_size=6).hexdigest()], the world, and
    [execute_campaign_lane] for a lane under a run identifier. *)
Context {W LaneResult : Type} (blake2b_6 : string -> string) (execute_lane : CampaignLane -> string -> stm W LaneResult).

Definition lane_run_id (campaign_run_id : string) (lane : CampaignLane) : string :=
  campaign_run_id +:+ "-" +:+ blake2b_6 (lane_id lane).

Notation results := (list (string * (LaneResult + exn))).

(** One lane; what it raises is its result. *)
Definition run_lane (campaign_run_id : string) (rs : results) (lane : CampaignLane) : stm W results := fun w =>
  match execute_lane lane (lane_run_id campaign_run_id lane) w with
  | (Ok r, w') => (Ok (dict_set rs (lane_id lane) (inl r)), w')
  | (Err e, w') => if Campaign.caught e then (Ok (dict_set rs (lane_id lane) (inr e)), w') else (Err e, w')
  end.

Fixpoint run_lanes (campaign_run_id : string) (lanes : list CampaignLane) (rs : results) : stm W results :=
  match lanes with
  | [] => mret rs
  | lane :: lanes' => rs' ← run_lane campaign_run_id rs lane; run_lanes campaign_run_id lanes' rs'
  end.

Definition count (id : string) (lanes : list CampaignLane) : nat :=
  length (List.filter (fun other => String.eqb (lane_id other) id) lanes).

(** [fresh]: the identifier that is made up when none is given. *)
Definition run_campaign (lanes : list CampaignLane) (run_id : option string) (fresh : string) : stm W results :=
  let duplicate_ids := sorted_set (List.filter (fun id => (1 <? count id lanes)%nat) (map lane_id lanes)) in
  _ ← lift (ensure (bool_decide (duplicate_ids = []))
        (CampaignPlannerError ("duplicate lane(s) in run_campaign(): " +:+ py_repr_list duplicate_ids)));
  run_lanes (opt_or (or_else run_id (Some fresh)) "") lanes [].


(** ** What a plan is *)

Lemma str_app_inj_l (s t u : string) : s +:+ t = s +:+ u -> t = u.
Proof. induction s as [|c s IH]; [done|]. rewrite !str_app_cons. intros [= Hs]. by apply IH. Qed.

(** A lane is the one its selector asks for, in a configuration that has it. *)
Record planned (request : CampaignRequest) (cfg : Config) (s : Selector) (lane : CampaignLane) : Prop := {
  pl_source : sel_source s ∈ sources cfg;
  pl_build : sel_build s ∈ builds cfg;
  pl_lane : exists targets, jget (platforms cfg) (sel_platform s) = Some targets /\
    lane = lane_of request s (if bool_decide (rq_architectures request = []) then targets else rq_architectures request) /\
    forall a, a ∈ rq_architectures request -> a ∈ targets;
}.

Lemma resolve_architectures_Ok asked platform targets archs : resolve_architectures asked platform targets = Ok archs ->
  archs = (if bool_decide (asked = []) then targets else asked) /\ forall a, a ∈ asked -> a ∈ targets.
Proof.
  unfold resolve_architectures. destruct asked as [|a l]; [intros [= <-]; split; [done|by intros ? ?%elem_of_nil]|]. cbv zeta.
  intros (u & Hu%ensure_Ok%bool_decide_eq_true & [= <-])%bind_Ok. split; [done|]. intros x Hx. destruct (str_in x targets) eqn:E; [by apply str_in_true|].
  exfalso. apply (not_elem_of_nil x). rewrite <- Hu. apply elem_of_sorted_set, elem_of_filterb. by rewrite E.
Qed.

Lemma check_names_Ok cfg source build platform targets : check_names cfg source build platform = Ok targets ->
  source ∈ sources cfg /\ build ∈ builds cfg /\ jget (platforms cfg) platform = Some targets.
Proof.
  unfold check_names. intros (u & H1%ensure_Ok%str_in_true & (v & H2%ensure_Ok%str_in_true & H3%of_option_Ok)%bind_Ok)%bind_Ok. done.
Qed.

Lemma plan_loop request cfg ss st st' : foldR (plan_one request cfg) ss st = Ok st' -> NoDup st.1 ->
  exists lanes, st'.2 = st.2 ++ lanes /\ Forall2 (planned request cfg) ss lanes /\ NoDup (map selector_id ss) /\
    forall s, s ∈ ss -> selector_id s ∉ st.1.
Proof.
  revert st. induction ss as [|s ss IH]; intros st; cbn [foldR].
  - intros [= <-] _. exists []. split_and!; [by rewrite app_nil_r|constructor|constructor|by intros ? ?%elem_of_nil].
  - intros (st1 & Hone & Hrun)%bind_Ok Hnd. unfold plan_one in Hone.
    apply bind_Ok in Hone as (targets & (N1 & N2 & N3)%check_names_Ok & Hone). apply bind_Ok in Hone as (u & Hdup%ensure_Ok%negb_true_iff & Hone).
    apply bind_Ok in Hone as (archs & [-> Hsub]%resolve_architectures_Ok & [= <-]).
    assert (selector_id s ∉ st.1) as Hs by (unfold str_in in Hdup; by apply bool_decide_eq_false in Hdup).
    destruct (IH _ Hrun) as (lanes & Hl & HF & HN & Hfresh); [by constructor|]. cbn in *. eexists (_ :: lanes). split_and!.
    + rewrite Hl. by rewrite <- app_assoc.
    + constructor; [|done]. split; [done..|]. exists targets. by split_and!.
    + constructor; [|done]. intros (s' & Hid & Hs')%list_elem_of_fmap. apply (Hfresh s' Hs'). rewrite <- Hid. by left.
    + intros s' [->|Hs']%elem_of_cons; [done|]. intros Hin. apply (Hfresh s' Hs'). by right.
Qed.

Lemma lane_id_of request s archs : or_else (sel_experiment s) (rq_experiment request) = sel_experiment s ->
  lane_id (lane_of request s archs) = selector_id s.
Proof. unfold lane_id, selector_id. cbn. by intros ->. Qed.

(** ** What a run is *)

(** Each lane in turn, under a run identifier of its own, in the world the one
    before has left; what it gave or raised is its result. *)
Inductive ran (campaign_run_id : string) : list CampaignLane -> W -> results -> W -> Prop :=
| ran_nil w : ran campaign_run_id [] w [] w
| ran_cons lane lanes w r w1 rs w' :
    execute_lane lane (lane_run_id campaign_run_id lane) w = (r, w1) ->
    (forall e, r = Err e -> Campaign.caught e = true) ->
    ran campaign_run_id lanes w1 rs w' ->
    ran campaign_run_id (lane :: lanes) w ((lane_id lane, match r with Ok a => inl a | Err e => inr e end) :: rs) w'.

Lemma run_lanes_ran campaign_run_id lanes : forall rs w r w', NoDup (map fst rs ++ map lane_id lanes) ->
  run_lanes campaign_run_id lanes rs w = (r, w') ->
  match r with
  | Ok out => exists more, out = rs ++ more /\ ran campaign_run_id lanes w more w'
  | Err e => Campaign.caught e = false
  end.
Proof.
  induction lanes as [|lane lanes IH]; intros rs w r w' Hnd; cbn [run_lanes].
  - intros [= <- <-]. exists []. by rewrite app_nil_r; split; [|constructor].
  - assert (lane_id lane ∉ map fst rs) as Hl by (apply NoDup_app in Hnd as (_ & Hd & _); intros Hin; apply (Hd _ Hin); by left).
    unfold mbind, stm_bind. unfold run_lane at 1. destruct (execute_lane lane (lane_run_id campaign_run_id lane) w) as [[a|e] w1] eqn:E.
    + rewrite dict_set_fresh by done. intros Hrun. specialize (IH (rs ++ [(lane_id lane, inl a)]) w1 r w').
      destruct r as [out|e']; [destruct IH as (more & -> & Hran); [by rewrite map_app, <- app_assoc|done|]|by apply IH; [rewrite map_app, <- app_assoc|]].
      eexists (_ :: more). split; [by rewrite <- app_assoc|]. by apply (ran_cons _ lane lanes w (Ok a) w1).
    + destruct (Campaign.caught e) eqn:Ec; [|by intros [= <- <-]]. rewrite dict_set_fresh by done. intros Hrun.
      specialize (IH (rs ++ [(lane_id lane, inr e)]) w1 r w').
      destruct r as [out|e']; [destruct IH as (more & -> & Hran); [by rewrite map_app, <- app_assoc|done|]|by apply IH; [rewrite map_app, <- app_assoc|]].
      eexists (_ :: more). split; [by rewrite <- app_assoc|]. apply (ran_cons _ lane lanes w (Err e) w1); [done| |done]. by intros ? [= <-].
Qed.

Lemma ran_ids campaign_run_id lanes w rs w' : ran campaign_run_id lanes w rs w' -> map fst rs = map lane_id lanes.
Proof. induction 1 as [|lane lanes w r w1 rs w' Hx Hr Hran IH]; [done|]. cbn. by f_equal. Qed.

Lemma count_nodup lanes id : NoDup (map lane_id lanes) -> count id lanes <= 1.
Proof.
  unfold count. induction lanes as [|l lanes IH]; intros Hnd; cbn; [lia|]. apply NoDup_cons in Hnd as [Hl Hnd]. specialize (IH Hnd).
  destruct (String.eqb_spec (lane_id l) id) as [<-|]; [|done]. cbn. rewrite (proj2 (filterb_nil _ _)); [done|].
  intros x Hx. apply String.eqb_neq. intros E. apply Hl. rewrite <- E. by apply list_elem_of_fmap_2.
Qed.

Lemma run_campaign_nodup lanes run_id fresh w : NoDup (map lane_id lanes) ->
  run_campaign lanes run_id fresh w = run_lanes (opt_or (or_else run_id (Some fresh)) "") lanes [] w.
Proof.
  intros Hnd. unfold run_campaign. cbv zeta. rewrite (proj2 (filterb_nil _ (map lane_id lanes))); [done|].
  intros id _. apply Nat.ltb_ge. by apply count_nodup.
Qed.

End Planner.



(** ** Runs *)

Definition demo_cfg : Config :=
  mkConfig ["llama"; "bigcherry"] ["stock"; "tune"] [("rdna3", ["gfx1100"; "gfx1101"])]
    [("bad", [mkSelector "llama" "stock" "cdna" None None])].

Definition demo_lane_request (ss : list Selector) (experiment : option string) : CampaignRequest (LaneInputs := unit) (RuntimeSmokeSpec := unit) :=
  mkRequest ss None [] [] [] "bin/llama-bench" None None None experiment.

Definition demo_selectors : list Selector :=
  [mkSelector "llama" "stock" "rdna3" None None; mkSelector "bigcherry" "tune" "rdna3" None (Some "bin/llama-server");
   mkSelector "bigcherry" "tune" "rdna3" (Some "patch") None].

Definition ids_of (r : res (list (CampaignLane (LaneInputs := unit) (RuntimeSmokeSpec := unit)))) : list string :=
  match r with Ok l => map lane_id l | Err _ => [] end.

Example demo_plan : ids_of (plan tt (demo_lane_request demo_selectors None) demo_cfg) =
  ["llama:stock:rdna3"; "bigcherry:tune:rdna3"; "bigcherry:tune:rdna3+patch"].
Proof. vm_compute. reflexivity. Qed.

(** The test for duplicates looks at the experiment a selector names, a lane
    carries the one of the request when it names none.  A baseline and its
    patched arm then become one lane twice: the plan accepts them, the run
    refuses the whole campaign. *)
Example request_experiment_collides :
  let ids := ids_of (plan tt (demo_lane_request demo_selectors (Some "patch")) demo_cfg) in
  (ids, bool_decide (NoDup ids)) = (["llama:stock:rdna3+patch"; "bigcherry:tune:rdna3+patch"; "bigcherry:tune:rdna3+patch"], false).
Proof. vm_compute. reflexivity. Qed.

(** A campaign whose second lane fails. *)
Definition demo_execute (lane : CampaignLane (LaneInputs := unit) (RuntimeSmokeSpec := unit)) (run_id : string) : stm (list string) string :=
  fun w => if opt_truthy (experiment lane) || String.eqb (source_name lane) "llama" then (Ok (binary_relative_path lane), w ++ [run_id])
           else (Err (ValueError "no compiler"), w ++ [run_id]).

Definition demo_lanes := match plan tt (demo_lane_request demo_selectors None) demo_cfg with Ok l => l | Err _ => [] end.


End Planner.
