(* ===== verification/Execution.v ===== *)
(** The stages of a campaign: [src/tools/bigcherry/core/pipeline.py] and
    [campaign/execution.py].

    The workers of the stages are given to the executor by its caller; they may
    do anything to the store and raise anything.  A worker gives a tuple of
    artifacts, or something else that holds them ([Untupled]).  A path outside
    of the store begins with [..]. *)

From S2P Require Import Prelude Json Tree Operations Provenance Artifacts Campaign.

Module Execution.
Import Json Tree Artifacts Campaign.

Notation obj := (list (string * json)).

Definition PipelineError (msg : string) : exn := Exn "PipelineError" msg.

(** ** [PipelineService] *)

(** What a worker returns. *)
Inductive produced : Type := Tuple (refs : list ArtifactRef) | Untupled (refs : list ArtifactRef).

Definition refs_of (p : produced) : list ArtifactRef := match p with Tuple refs | Untupled refs => refs end.

(** [except provenance.ProvenanceError as exc: raise PipelineError(...)] *)
Definition as_PipelineError {A} (prefix : string) (m : res A) : res A :=
  match m with
  | Err e => Err (if String.eqb (exn_class e) "ProvenanceError" then PipelineError (prefix +:+ exn_message e) else e)
  | m => m
  end.

Definition imported_legacy (document : obj) : bool :=
  match jget document "project" with
  | Some (JObj p) => is_str (jget p "provenance_class") "imported-legacy"
  | _ => false
  end.

Definition check_input (expected : list (string * string)) (artifact : ArtifactRef) : res unit :=
  let refused := ref_kind artifact +:+ " cannot be consumed by this lifecycle stage: " in
  document ← as_PipelineError (refused +:+ "malformed provenance: ") (Provenance.validate (ref_provenance artifact));
  if imported_legacy document then Ok tt
  else _ ← as_PipelineError refused (Provenance.require_compatible (ref_provenance artifact) expected); Ok tt.

Definition check_output (stage : string) (expected : list (string * string)) (artifact : ArtifactRef) : res unit :=
  _ ← as_PipelineError ("stage " +:+ stage +:+ " returned incompatible output: ")
        (Provenance.require_compatible (ref_provenance artifact) expected); Ok tt.

(** [PipelineService.run] *)
Definition pipeline_run {W} (executor : string -> list ArtifactRef -> stm W produced) (stage : string) (inputs : list ArtifactRef)
    (expected : list (string * string)) : stm W (list ArtifactRef) :=
  _ ← lift (mapR (check_input expected) inputs);
  outputs ← (fun w => match executor stage inputs w with
                      | (Err e, w') =>
                          (Err (if caught e then PipelineError ("stage " +:+ stage +:+ " failed before publishing outputs: " +:+ exn_message e) else e), w')
                      | ok => ok
                      end);
  match outputs with
  | Untupled _ => raise (PipelineError ("stage " +:+ stage +:+ " executor returned a non-tuple output set"))
  | Tuple refs => _ ← lift (mapR (check_output stage expected) refs); mret refs
  end.

(** ** Envelopes *)

Definition source_expected (source_slice_id : string) : list (string * string) := [("source.source_slice_id", source_slice_id)].

Definition build_expected (source_slice_id build_plan_id : string) : list (string * string) :=
  [("source.source_slice_id", source_slice_id); ("build.build_plan_id", build_plan_id)].

Definition execution_expected (source_slice_id build_plan_id run_id : string) (workload_id : option string) : list (string * string) :=
  [("source.source_slice_id", source_slice_id); ("build.build_plan_id", build_plan_id); ("campaign.run_id", run_id)]
  ++ match workload_id with Some w => [("workload.workload_id", w)] | None => [] end.

Definition workload_expected (source_slice_id build_plan_id workload_id run_id : string) : list (string * string) :=
  execution_expected source_slice_id build_plan_id run_id (Some workload_id).

(** ** The executor *)

(** The store, and what the executor remembers between stages. *)
Record Exec : Type := mkExec {
  store : Disk;
  slice_holder : option string;
  source_provenance : option Provenance.SourceProvenance;
  outputs : list (string * list ArtifactRef);
}.

Record Worker : Type := mkWorkers {
  materialize : stm Disk obj;
  generate : option (list (string * ArtifactRef) -> stm Disk obj);
  build : option (list ArtifactRef -> stm Disk produced);
  smoke : option (list ArtifactRef -> stm Disk produced);
}.

(** The other arguments of the constructor. *)
Record Identity : Type := mkIdentity {
  run_id : string;
  generate_inputs : list (string * ArtifactRef);
  generate_needs : list string;
  build_plan : option string;
  workload : option string;
  project_revision : string;
  local_provenance_class : Provenance.ProvenanceClass;
}.

(** [source_provenance_from_metadata], as a document: the values of the fields
    are taken as they are. *)
Definition raw_module (item : obj) : res json :=
  p ← Json.item item "patch_id"; c ← Json.item item "content_hash";
  Ok (JObj [("patch_id", p); ("content_hash", c)]).

Definition dict_items (v : json) : list obj :=
  match v with JArr l => omap (fun x => match x with JObj o => Some o | _ => None end) l | _ => [] end.

(** [raw_patches or []], iterated over. *)
Definition iterate (v : json) : res (list obj) :=
  if jtruthy v then l ← json_iter v; Ok (dict_items (JArr l)) else Ok [].

Definition source_metadata_document (metadata : obj) : res json :=
  let plan := match jget metadata "plan" with Some (JObj p) => p | _ => [] end in
  items ← iterate (get_or plan "patches" JNull);
  modules ← mapR raw_module items;
  Ok (JObj (map (fun k => (k, get_or metadata k JNull))
              ["upstream_revision"; "source_plan_id"; "materialization_plan_id"; "source_tree_oid"; "source_slice_id";
               "git_object_format"; "overlay_content_hash"]
            ++ [("patch_set_id", get_or plan "patch_set_id" JNull); ("patch_classification", get_or plan "classification" JNull);
                ("patch_modules", JArr modules)])).

Section Executor.
Context `{Hashes} `{TempNames} (root : path) (g : CampaignGraph) (x : Identity) (work : Worker).

Definition on_store {A} (m : stm Disk A) : stm Exec A := fun w =>
  let '(r, d) := m (store w) in (r, mkExec d (slice_holder w) (source_provenance w) (outputs w)).

Definition set_slice (s : string) : stm Exec unit :=
  modify (fun w => mkExec (store w) (Some s) (source_provenance w) (outputs w)).
Definition set_source (s : Provenance.SourceProvenance) : stm Exec unit :=
  modify (fun w => mkExec (store w) (slice_holder w) (Some s) (outputs w)).
Definition set_outputs (stage : string) (refs : list ArtifactRef) : stm Exec unit :=
  modify (fun w => mkExec (store w) (slice_holder w) (source_provenance w) (dict_set (outputs w) stage refs)).

Definition no_build : Provenance.BuildProvenance := Provenance.mkBuild None None None None [] [] [].

Definition stage_provenance (source : Provenance.SourceProvenance) (b : Provenance.BuildProvenance) (workload_id : option string)
    (producer_stage : string) (parent_artifact_ids : list string) : Provenance.ProvenanceV2 :=
  Provenance.mkProvenance Provenance.SCHEMA_VERSION
    (Provenance.mkProject (local_provenance_class x) (if truthy (project_revision x) then Some (project_revision x) else None))
    source b (Provenance.mkWorkload workload_id None)
    (Provenance.mkCampaign (Some (run_id x)) None (Some producer_stage) (py_sorted String.leb parent_artifact_ids) None).

(** [path.resolve().relative_to(store.root)]: the path inside, if it is. *)
Definition relative_path (a : ArtifactRef) : option string :=
  match ref_path a with ".." :: _ => None | p => Some (String.concat "/" p) end.

Definition path_text (p : path) : string := "/" +:+ String.concat "/" (root ++ p).

Definition require_stored_bytes (t : tree) (a : ArtifactRef) : res unit :=
  relative ← of_option (CampaignExecutionError (ref_kind a +:+ " at " +:+ path_text (ref_path a)
                +:+ " is not owned by this campaign's ArtifactStore (" +:+ path_text [] +:+ ")")) (relative_path a);
  good ← verify root t relative (ref_content_hash a);
  ensure good (CampaignExecutionError (ref_kind a +:+ " bytes do not match its own content_hash " +:+ ref_content_hash a)).

Definition check_stored (refs : list ArtifactRef) : stm Exec unit :=
  w ← get; _ ← lift (mapR (require_stored_bytes (files (store w))) refs); mret tt.

(** The pipeline of a stage, and what it leaves. *)
Definition run_stage (stage : string) (ins : list ArtifactRef) (expected : list (string * string)) (body : list ArtifactRef -> stm Exec produced) :
    stm Exec (list ArtifactRef) :=
  outs ← pipeline_run (fun _ => body) stage ins expected;
  _ ← set_outputs stage outs;
  mret outs.

Definition materialize_body : stm Exec produced :=
  metadata ← on_store (materialize work);
  slice ← lift (of_option (CampaignExecutionError "materialize did not return a source_slice_id") (nonempty_str (jget metadata "source_slice_id")));
  _ ← set_slice slice;
  document ← lift (source_metadata_document metadata);
  let relative := "runs/" +:+ run_id x +:+ "/materialize/source-metadata.json" in
  source ← lift (wrapping ("refusing to publish " +:+ relative +:+ " with kind 'source-metadata': ") (Provenance.source_from document));
  _ ← set_source source;
  r ← on_store (publish_json_ref root relative (JObj metadata) "source-metadata"
                  (inl (stage_provenance source no_build None "materialize" [])));
  mret (Tuple [r]).

Definition run_materialize (stage : string) : stm Exec (list ArtifactRef) :=
  run_stage stage [] [] (fun _ => materialize_body).

Definition disagrees (stage name actual : string) (node_value : option string) : res unit :=
  match node_value with
  | Some v => ensure (String.eqb v actual)
      (CampaignExecutionError ("stage " +:+ py_repr stage +:+ " node." +:+ name +:+ " " +:+ py_repr v
         +:+ " disagrees with the executor's actual " +:+ name +:+ " " +:+ py_repr actual))
  | None => Ok tt
  end.

(** [_require_node_identity_agreement] *)
Definition require_node_identity_agreement (node : StageNode) (slice : string) (plan wid : option string) : res unit :=
  _ ← disagrees (stage_id node) "source_slice_id" slice (source_slice_id node);
  _ ← match plan with Some p => disagrees (stage_id node) "build_plan_id" p (build_plan_id node) | None => Ok tt end;
  match wid with Some w => disagrees (stage_id node) "workload_id" w (workload_id node) | None => Ok tt end.

(** The slice, and the build plan, or why the stage cannot run yet. *)
Definition require_slice (label : string) : stm Exec string :=
  w ← get;
  lift (of_option (CampaignExecutionError (label +:+ " stage requires source_slice_id from a completed materialize stage"))
          (match slice_holder w with Some s => if truthy s then Some s else None | None => None end)).

Definition require_plan (label : string) : res string :=
  of_option (CampaignExecutionError (label +:+ " stage requires build_plan_id")) (build_plan x).

(** [ref.artifact_id or ref.content_hash] *)
Definition identity_of (r : ArtifactRef) : string := if truthy (ref_artifact_id r) then ref_artifact_id r else ref_content_hash r.

Definition generate_inputs_sorted : list (string * ArtifactRef) := py_sorted by_key (generate_inputs x).

Definition generate_build (plan : string) : Provenance.BuildProvenance :=
  Provenance.mkBuild (Some plan) None None None [] []
    (map (fun nr : string * ArtifactRef => Provenance.mkBuildInput nr.1 (identity_of nr.2) (ref_content_hash nr.2)) generate_inputs_sorted).

Definition parents_of (ins : list ArtifactRef) : res (list Provenance.ProvenanceV2) :=
  match mapR (fun r => Provenance.from_document (ref_provenance r)) ins with
  | Err e => Err (if String.eqb (exn_class e) "ProvenanceError"
                  then CampaignExecutionError ("generate input provenance is not a schema-v2 document: " +:+ exn_message e) else e)
  | ok => ok
  end.

Definition generate_body (worker : list (string * ArtifactRef) -> stm Disk obj) (plan : string) (ins : list ArtifactRef) : stm Exec produced :=
  result ← on_store (worker (dict_of_pairs (map (fun r => (ref_kind r, r)) ins)));
  manifest ← lift (Json.item result "manifest");
  w ← get;
  source ← lift (of_option (CampaignExecutionError "generate stage requires the completed materialize stage's source provenance")
                   (source_provenance w));
  parents ← lift (parents_of ins);
  let p := Provenance.derive parents (map identity_of ins) (project_revision x) source (generate_build plan)
             (Provenance.mkWorkload (workload x) None) (run_id x) "generate" None None (local_provenance_class x) in
  let there name := "runs/" +:+ run_id x +:+ "/generate/" +:+ name in
  manifest_ref ← on_store (publish_json_ref root (there "hip-autotune-manifest.json") manifest "manifest" (inl p));
  match jget result "generated_tree" with
  | Some (JObj doc) =>
      tree_ref ← on_store (publish_json_ref root (there "generated-tree.json") (JObj doc) "generated-tree" (inl p));
      mret (Tuple [manifest_ref; tree_ref])
  | _ => raise (CampaignExecutionError "generate did not return a generated_tree manifest")
  end.

Definition check_generate_input (t : tree) (nr : string * ArtifactRef) : res unit :=
  _ ← ensure (String.eqb (ref_kind nr.2) nr.1)
        (CampaignExecutionError ("generate input " +:+ py_repr nr.1 +:+ " has artifact kind " +:+ py_repr (ref_kind nr.2)));
  require_stored_bytes t nr.2.

Definition node_of (stage : string) : res StageNode := of_option (KeyError (py_repr stage)) (jget (nodes g) stage).

Definition run_generate (stage : string) : stm Exec (list ArtifactRef) :=
  slice ← require_slice "generate";
  plan ← lift (require_plan "generate");
  worker ← lift (of_option (CampaignExecutionError "no generate worker was configured") (generate work));
  let required := sorted_set (generate_needs x) in
  let actual := sorted_set (map fst (generate_inputs x)) in
  _ ← lift (ensure (bool_decide (required = actual))
        (CampaignExecutionError ("generate stage input keys disagree with declared needs: required=" +:+ py_repr_list required
           +:+ ", actual=" +:+ py_repr_list actual)));
  w ← get;
  _ ← lift (mapR (check_generate_input (files (store w))) (generate_inputs x));
  node ← lift (node_of stage);
  _ ← lift (require_node_identity_agreement node slice (Some plan) None);
  run_stage stage (map snd generate_inputs_sorted) (source_expected slice) (generate_body worker plan).

Definition dependency_outputs (node : StageNode) (outs : list (string * list ArtifactRef)) : res (list ArtifactRef) :=
  ls ← mapR (fun d => of_option (CampaignExecutionError ("stage " +:+ py_repr (stage_id node) +:+ " depends on " +:+ py_repr d
                         +:+ ", which has not produced outputs yet")) (jget outs d)) (dependencies node);
  Ok (concat ls).

Definition scoped_body (worker : list ArtifactRef -> stm Disk produced) (ins : list ArtifactRef) : stm Exec produced :=
  p ← on_store (worker ins); _ ← check_stored (refs_of p); mret p.

Definition run_build_scoped (stage : string) (node : StageNode) (worker : option (list ArtifactRef -> stm Disk produced)) (label : string) :
    stm Exec (list ArtifactRef) :=
  slice ← require_slice label;
  plan ← lift (require_plan label);
  worker ← lift (of_option (CampaignExecutionError ("no " +:+ label +:+ " worker was configured")) worker);
  _ ← lift (require_node_identity_agreement node slice (Some plan) (workload x));
  w ← get;
  ins ← lift (dependency_outputs node (outputs w));
  _ ← check_stored ins;
  run_stage stage ins (execution_expected slice plan (run_id x) (workload x)) (scoped_body worker).

(** [__call__] *)
Definition call_stage (stage : string) : stm Exec (list string) :=
  node ← lift (node_of stage);
  outs ← (if String.eqb (kind node) "materialize" then run_materialize stage
          else if String.eqb (kind node) "generate" then run_generate stage
          else if String.eqb (kind node) "build" then run_build_scoped stage node (build work) "build"
          else if String.eqb (kind node) "runtime-smoke" then run_build_scoped stage node (smoke work) "runtime-smoke"
          else raise (CampaignExecutionError ("stage kind " +:+ py_repr (kind node) +:+ " is not recognised by CampaignStageExecutor")));
  mret (map ref_content_hash outs).

(** ** Under a run *)

(** The executor as [CampaignRun] calls it. *)
Definition stage_executor (stage : string) : stm (Run Exec) (list string) := fun w =>
  let '(r, e) := call_stage stage (world w) in (r, mkRun (records w) (dirs w) (answers w) e).

(** [make_artifact_reuse_checker] *)
Definition still_stored (t : tree) (a : ArtifactRef) : res bool :=
  match relative_path a with Some relative => verify root t relative (ref_content_hash a) | None => Ok false end.

Fixpoint all_stored (t : tree) (refs : list ArtifactRef) : res bool :=
  match refs with
  | [] => Ok true
  | a :: refs' => good ← still_stored t a; if good : bool then all_stored t refs' else Ok false
  end.

Definition artifact_reusable (record : StageRecord) (w : Run Exec) : res bool :=
  match jget (outputs (world w)) (rec_stage_id record) with
  | None => Ok false
  | Some refs =>
      if bool_decide (map ref_content_hash refs = output_hashes record) then all_stored (files (store (world w))) refs else Ok false
  end.

End Executor.

(** ** Paths of the store *)

(** A component of a resolved path. *)
Definition clean (c : string) : bool := truthy c && negb (String.eqb c ".") && negb (String.eqb c "..") && negb (str_has "/"%char c).

Lemma clean_parts (comps : list string) : Forall (fun c => truthy c && negb (String.eqb c ".") && negb (str_has "/"%char c) = true) comps ->
  forall stack, Forall (fun c => clean c = true) stack -> Forall (fun c => clean c = true) (Operations.resolve_parts stack comps).
Proof.
  induction 1 as [|c comps Hc Hcomps IH]; intros stack Hs; [by apply Forall_rev|]. cbn [Operations.resolve_parts].
  destruct (String.eqb_spec c "..") as [->|Hne]; [apply IH; by destruct stack; [|apply Forall_cons in Hs as [_ ?]]|].
  assert (Operations.resolve_parts stack (c :: comps) = Operations.resolve_parts (c :: stack) comps) as Heq.
  { cbn [Operations.resolve_parts]. repeat (case_match; try done; subst). }
  change (Forall (fun c => clean c = true) (Operations.resolve_parts stack (c :: comps))). rewrite Heq. apply IH. constructor; [|done].
  unfold clean. apply String.eqb_neq in Hne. rewrite Hne. cbn. by rewrite andb_true_r.
Qed.

Lemma parts_clean p : Forall (fun c => truthy c && negb (String.eqb c ".") && negb (str_has "/"%char c) = true) (Operations.parts p).
Proof.
  apply Forall_forall. intros c. unfold Operations.parts. intros [Hc Hg]%elem_of_filterb. rewrite Hg. cbn.
  pose proof (split_on_parts "/"%char p) as Hs. rewrite Forall_forall in Hs. by rewrite (Hs c Hc).
Qed.

Lemma relative_to_app r p q : Operations.relative_to r p = Some q -> p = r ++ q.
Proof.
  revert p. induction r as [|a r IH]; intros p; cbn; [by intros [= ->]|]. destruct p as [|b p]; [done|].
  destruct (String.eqb_spec a b) as [->|]; [|done]. intros H. by rewrite (IH _ H).
Qed.

Lemma relative_to_self r q : Operations.relative_to r (r ++ q) = Some q.
Proof. induction r as [|a r IH]; [done|]. cbn. by rewrite String.eqb_refl. Qed.

Lemma resolve_clean comps : Forall (fun c => clean c = true) comps -> forall stack, Operations.resolve_parts stack comps = rev stack ++ comps.
Proof.
  induction 1 as [|c comps Hc Hcomps IH]; intros stack; [by rewrite app_nil_r|].
  assert (Operations.resolve_parts stack (c :: comps) = Operations.resolve_parts (c :: stack) comps) as ->.
  { cbn [Operations.resolve_parts]. repeat (case_match; try done; subst). }
  rewrite IH. cbn [rev]. by rewrite <- app_assoc.
Qed.

Section Paths.
Context (root : path) (root_clean : Forall (fun c => clean c = true) root).

Lemma path_of_clean relative p : path_of root relative = Ok p -> Forall (fun c => clean c = true) p.
Proof.
  unfold path_of, Operations.resolve_inside. intros Hp%of_option_Ok.
  assert (Forall (fun c => clean c = true) (root ++ p)) as [_ ?]%Forall_app; [|done]. destruct (Operations.is_absolute relative); apply relative_to_app in Hp;
    rewrite <- Hp; apply clean_parts; try apply parts_clean; [constructor|by apply Forall_rev].
Qed.

Lemma parts_concat p : Forall (fun c => clean c = true) p -> Operations.parts (String.concat "/" p) = p.
Proof.
  intros Hp. unfold Operations.parts. destruct p as [|c p]; [done|]. change "/" with (String "/"%char ""). rewrite split_on_concat; [|done|].
  - apply filterb_all. intros d Hd. rewrite Forall_forall in Hp. specialize (Hp d Hd). unfold clean in Hp.
    by apply andb_true_iff in Hp as [[? _]%andb_true_iff _].
  - eapply Forall_impl; [exact Hp|]. cbn. unfold clean. intros d Hd. apply andb_true_iff in Hd as [_ Hd]. by apply negb_true_iff.
Qed.

Lemma concat_relative p : Forall (fun c => clean c = true) p -> Operations.is_absolute (String.concat "/" p) = false.
Proof.
  intros Hp. destruct p as [|c p]; [done|]. apply Forall_cons in Hp as [Hc _]. unfold clean in Hc. rewrite str_concat_cons.
  destruct c as [|a c]; [done|]. unfold Operations.is_absolute. rewrite str_app_cons. cbn [startswith]. apply andb_true_iff in Hc as [_ Hc].
  apply negb_true_iff in Hc. cbn [str_has] in Hc. apply orb_false_iff in Hc as [Hc _]. by rewrite Hc.
Qed.

(** The text of a path of the store names it. *)
Lemma path_of_text relative p : path_of root relative = Ok p -> path_of root (String.concat "/" p) = Ok p.
Proof.
  intros Hp%path_of_clean. unfold path_of, Operations.resolve_inside. rewrite concat_relative, parts_concat by done.
  rewrite resolve_clean by done. rewrite rev_involutive. by rewrite relative_to_self.
Qed.

Lemma relative_path_of a relative : path_of root relative = Ok (ref_path a) -> relative_path a = Some (String.concat "/" (ref_path a)).
Proof.
  intros Hp%path_of_clean. unfold relative_path. destruct (ref_path a) as [|c p]; [done|]. apply Forall_cons in Hp as [Hc _].
  repeat (case_match; try done; subst).
Qed.

End Paths.


(** ** What a stage leaves *)

Section Stages.
Context `{Hashes} `{TempNames} `{!TempNamesLaws} (root : path) (root_clean : Forall (fun c => clean c = true) root).
Context (g : CampaignGraph) (x : Identity) (work : Worker).

(** The bytes of an artifact are in the store, as its hash says. *)
Definition stored (t : tree) (a : ArtifactRef) : Prop := require_stored_bytes root t a = Ok tt.

Definition compatible (expected : list (string * string)) (a : ArtifactRef) : Prop :=
  is_ok (Provenance.require_compatible (ref_provenance a) expected) = true.

(** Its document says that it is imported. *)
Definition legacy (a : ArtifactRef) : Prop :=
  exists o, Provenance.validate (ref_provenance a) = Ok o /\ imported_legacy o = true.

Lemma stored_iff t a : stored t a <-> exists relative, relative_path a = Some relative /\ verify root t relative (ref_content_hash a) = Ok true.
Proof.
  unfold stored, require_stored_bytes. split.
  - intros (relative & Hr%of_option_Ok & (good & Hv & Hg%ensure_Ok)%bind_Ok)%bind_Ok. subst good. eauto.
  - intros (relative & -> & Hv). cbn. by rewrite Hv.
Qed.

Lemma mapR_unit {A} (f : A -> res unit) l us : mapR f l = Ok us -> forall a, a ∈ l -> f a = Ok tt.
Proof.
  intros Hm%mapR_Ok a Ha. destruct (list_elem_of_lookup_1 _ _ Ha) as [k Hk].
  destruct (Forall2_lookup_l _ _ _ _ _ Hm Hk) as ([] & _ & Hf). done.
Qed.

(** What was published is stored, and keeps what it was given. *)
Lemma published relative value kind p w ref w' :
  publish_json_ref root relative value kind (inl p) w = (Ok ref, w') ->
  files w ⊆ files w' /\ ref_provenance ref = Provenance.document p /\ forall t, files w' ⊆ t -> stored t ref.
Proof.
  unfold publish_json_ref. intros Hrun. assert (files w ⊆ files w') as Hsub.
  { eapply (has_publish_ref root (files w)); [|exact (reflexivity (files w))|exact Hrun]. apply has_publish_bytes. }
  split; [done|]. unfold publish_ref in Hrun.
  apply stm_bind_Ok in Hrun as (q & w1 & [= <- <-] & Hrun). apply stm_bind_Ok in Hrun as (q' & w2 & [= _ ->] & Hrun).
  apply stm_bind_Ok in Hrun as (h & w3 & _ & Hrun). apply stm_bind_Ok in Hrun as (w4 & w5 & [= <- <-] & Hrun).
  apply stm_bind_Ok in Hrun as (good & w4 & [= Hver ->] & Hrun). apply stm_bind_Ok in Hrun as (u & w6 & [= Hgood ->] & Hrun).
  apply ensure_Ok in Hgood. subst good. apply verify_ok in Hver as (target & c & Hp & Hc & Hh).
  cbv zeta in Hrun. apply stm_bind_Ok in Hrun as (dp & w7 & Hpers & Hrun). apply stm_bind_Ok in Hrun as (target' & w8 & [= Hp' ->] & Hrun).
  rewrite Hp in Hp'. injection Hp' as <-. injection Hrun as <- ->. split; [done|]. intros t Ht. apply stored_iff.
  pose proof (has_persist root _ _ _ _ _ (reflexivity (files _)) Hpers) as Hs. exists (String.concat "/" target). split.
  - by apply (relative_path_of root root_clean (mkRef _ target _ _ _) relative).
  - unfold verify. rewrite (path_of_text root root_clean relative) by done. cbn.
    assert (bytes_at t target = Some c) as -> by (eapply bytes_at_mono; [exact Ht|]; by eapply bytes_at_mono). by rewrite <- Hh, String.eqb_refl.
Qed.

(** A computation that leaves a part of what the executor remembers. *)
Definition leaves {T A} (f : Exec -> T) (m : stm Exec A) : Prop := forall o, keeps (fun w => f w = o) m.

Section Leaves.
Context {T : Type} (f : Exec -> T) (f_store : forall d w, f (mkExec d (slice_holder w) (source_provenance w) (outputs w)) = f w).
Context (f_source : forall s w, f (mkExec (store w) (slice_holder w) s (outputs w)) = f w).

Lemma leaves_on_store {A} (m : stm Disk A) : leaves f (on_store m).
Proof. intros o w r w' <-. unfold on_store. destruct (m (store w)) as [r1 d]. intros [= <- <-]. apply f_store. Qed.

Lemma leaves_lift {A} (m : res A) : leaves f (lift m).
Proof. intros o. apply keeps_lift. Qed.

Lemma leaves_get : leaves f get.
Proof. intros o. apply keeps_get. Qed.

Lemma leaves_ret {A} (a : A) : leaves f (mret a).
Proof. intros o. apply keeps_ret. Qed.

Lemma leaves_raise {A} e : leaves f (raise (A := A) e).
Proof. intros o. apply keeps_raise. Qed.

Lemma leaves_source s : leaves f (set_source s).
Proof. intros o. apply keeps_modify. intros w <-. apply f_source. Qed.

Lemma leaves_bind {A B} (m : stm Exec A) (k : A -> stm Exec B) : leaves f m -> (forall a, leaves f (k a)) -> leaves f (m ≫= k).
Proof. intros Hm Hk o. apply keeps_bind; [apply Hm|intros a; apply Hk]. Qed.

#[local] Hint Resolve leaves_on_store leaves_lift leaves_get leaves_ret leaves_raise leaves_source : leaves.

Ltac leave := repeat first [ solve [auto with leaves] | apply leaves_bind; [solve [auto with leaves]|intros ?] | case_match ].

Lemma leaves_check_stored refs : leaves f (check_stored root refs).
Proof. unfold check_stored. leave. Qed.

Lemma leaves_pipeline body stage ins expected : leaves f (body ins) -> leaves f (pipeline_run (fun _ => body) stage ins expected).
Proof.
  intros Hb. apply leaves_bind; [apply leaves_lift|intros _]. apply leaves_bind.
  - intros o w r w' Hw. destruct (body ins w) as [[p|e] w1] eqn:E; intros [= <- <-]; by apply (Hb o w _ w1 Hw E).
  - intros [refs|refs]; leave.
Qed.

Lemma leaves_generate worker plan ins : leaves f (generate_body root x worker plan ins).
Proof. unfold generate_body. leave. Qed.

Lemma leaves_scoped worker ins : leaves f (scoped_body root worker ins).
Proof. unfold scoped_body. apply leaves_bind; [leave|intros p]. apply leaves_bind; [apply leaves_check_stored|intros _; leave]. Qed.

Lemma leaves_materialize : (forall s, leaves f (set_slice s)) -> leaves f (materialize_body root x work).
Proof.
  intros Hs. unfold materialize_body. do 2 (apply leaves_bind; [leave|intros ?]). apply leaves_bind; [apply Hs|intros _]. leave.
Qed.

End Leaves.

Lemma leaves_slice s : leaves outputs (set_slice s).
Proof. intros o. by apply keeps_modify. Qed.

(** The outputs of a stage are set when it has not failed, and no others. *)
Lemma run_stage_outputs stage ins expected body w r w' : leaves outputs (body ins) -> run_stage stage ins expected body w = (r, w') ->
  outputs w' = match r with Ok refs => dict_set (outputs w) stage refs | Err _ => outputs w end.
Proof.
  intros Hb. unfold run_stage. destruct (pipeline_run (fun _ => body) stage ins expected w) as [[refs|e] w1] eqn:E;
    unfold mbind, stm_bind; rewrite E; pose proof (leaves_pipeline outputs body stage ins expected Hb _ _ _ _ eq_refl E) as Ho.
  - cbn. intros [= <- <-]. cbn. by rewrite Ho.
  - by intros [= <- <-].
Qed.

(** What a pipeline that returns has checked. *)
Lemma run_stage_Ok stage ins expected body w refs w' : run_stage stage ins expected body w = (Ok refs, w') ->
  (forall a, a ∈ ins -> legacy a \/ compatible expected a) /\ (forall a, a ∈ refs -> compatible expected a) /\
  exists w1, body ins w = (Ok (Tuple refs), w1) /\ w' = mkExec (store w1) (slice_holder w1) (source_provenance w1) (dict_set (outputs w1) stage refs).
Proof.
  unfold run_stage, pipeline_run. intros (outs & w1 & Hrun & Hset)%stm_bind_Ok. apply stm_bind_Ok in Hset as ([] & w2 & [= <-] & [= -> <-]).
  apply stm_bind_Ok in Hrun as (us & w2 & [= Hin ->] & Hrun). apply stm_bind_Ok in Hrun as (p & w3 & Hbody & Hrun).
  destruct (body ins w2) as [[p'|e] w4] eqn:Eb; [|done]. injection Hbody as -> ->. destruct p as [outs|outs]; [|done].
  apply stm_bind_Ok in Hrun as (vs & w4 & [= Hout ->] & [= -> ->]). split_and!.
  - intros a Ha. pose proof (mapR_unit _ _ _ Hin a Ha) as Hc. unfold check_input in Hc. apply bind_Ok in Hc as (o & Ho & Hc).
    destruct (imported_legacy o) eqn:El.
    + left. exists o. split; [|done]. unfold as_PipelineError in Ho. by destruct (Provenance.validate _) eqn:?; [injection Ho as ->|].
    + right. apply bind_Ok in Hc as (o' & Hc & _). unfold as_PipelineError in Hc. unfold compatible. by destruct (Provenance.require_compatible _ _).
  - intros a Ha. pose proof (mapR_unit _ _ _ Hout a Ha) as Hc. unfold check_output in Hc. apply bind_Ok in Hc as (o' & Hc & _).
    unfold as_PipelineError in Hc. unfold compatible. by destruct (Provenance.require_compatible _ _).
  - by exists w1.
Qed.

(** ** A stage *)

(** What the artifacts of a stage must say of the campaign. *)
Definition envelope (node : StageNode) (slice : string) : list (string * string) :=
  if str_in (kind node) ["materialize"; "generate"] then source_expected slice
  else execution_expected slice (opt_or (build_plan x) "") (run_id x) (workload x).

Definition inputs_of (node : StageNode) (w : Exec) : list ArtifactRef :=
  if String.eqb (kind node) "generate" then map snd (generate_inputs_sorted x)
  else match dependency_outputs node (outputs w) with Ok l => l | Err _ => [] end.

(** A stage that has returned these hashes. *)
Record stage_done (stage : string) (w w' : Exec) (hashes : list string) (node : StageNode) (slice : string) (refs : list ArtifactRef) : Prop := {
  sd_node : node_of g stage = Ok node;
  sd_slice : slice_holder w' = Some slice;
  sd_outputs : outputs w' = dict_set (outputs w) stage refs;
  sd_hashes : hashes = map ref_content_hash refs;
  sd_stored : forall a, a ∈ refs -> stored (files (store w')) a;
  sd_compatible : forall a, a ∈ refs -> compatible (envelope node slice) a;
  sd_agrees : kind node <> "materialize" ->
    slice_holder w = Some slice /\ (forall s, source_slice_id node = Some s -> s = slice) /\
    (forall p, build_plan_id node = Some p -> build_plan x = Some p);
  sd_inputs : kind node <> "materialize" -> forall a, a ∈ inputs_of node w ->
    stored (files (store w)) a /\ (legacy a \/ compatible (envelope node slice) a);
  sd_class : kind node = "generate" -> exists parents, parents_of (inputs_of node w) = Ok parents /\
    forall a, a ∈ refs -> exists p, ref_provenance a = Provenance.document p /\
      Provenance.provenance_class (Provenance.project p) = Provenance.derived_provenance_class parents (local_provenance_class x);
}.

Lemma source_compatible p slice : Provenance.schema_version p = Provenance.SCHEMA_VERSION ->
  Provenance.source_slice_id (Provenance.source p) = Some slice ->
  is_ok (Provenance.require_compatible (Provenance.document p) (source_expected slice)) = true.
Proof.
  intros Hs Hi. unfold Provenance.require_compatible, Provenance.document, Provenance.source_document. rewrite Hs, Hi. cbn.
  by rewrite String.eqb_refl.
Qed.

(** The slice a source document names is the slice of the source. *)
Lemma metadata_slice metadata slice document source :
  nonempty_str (jget metadata "source_slice_id") = Some slice -> source_metadata_document metadata = Ok document ->
  Provenance.source_from document = Ok source -> Provenance.source_slice_id source = Some slice /\ truthy slice = true.
Proof.
  intros Hm Hd Hs. unfold nonempty_str in Hm. destruct (jget metadata "source_slice_id") as [[| | | |s| |]|] eqn:E; try done.
  destruct (truthy s) eqn:Et; [|done]. injection Hm as ->. split; [|done].
  unfold source_metadata_document in Hd. apply bind_Ok in Hd as (items & _ & Hd). apply bind_Ok in Hd as (modules & _ & [= <-]).
  unfold Provenance.source_from in Hs. cbn [Provenance.as_dict mbind result_bind map app] in Hs.
  repeat (apply bind_Ok in Hs as (? & ? & Hs)). injection Hs as <-. cbn [Provenance.source_slice_id].
  match goal with H : Provenance.require_str_or_none _ "source_slice_id" _ = Ok ?v |- ?v = _ => revert H end.
  unfold Provenance.require_str_or_none. cbn. unfold get_or at 1. rewrite E. cbn. by intros [= <-].
Qed.

Lemma materialize_done stage w refs w' : run_materialize root x work stage w = (Ok refs, w') ->
  exists slice, slice_holder w' = Some slice /\ outputs w' = dict_set (outputs w) stage refs /\
    (forall a, a ∈ refs -> stored (files (store w')) a /\ compatible (source_expected slice) a).
Proof.
  unfold run_materialize. intros Hrun.
  pose proof (run_stage_outputs _ _ _ _ _ _ _ (leaves_materialize outputs (fun _ _ => eq_refl) (fun _ _ => eq_refl) leaves_slice) Hrun) as Hout.
  apply run_stage_Ok in Hrun as (_ & _ & w1 & Hbody & ->).
  unfold materialize_body in Hbody. apply stm_bind_Ok in Hbody as (metadata & wa & _ & Hbody). apply stm_bind_Ok in Hbody as (slice & wb & [= Hslice ->] & Hbody).
  apply of_option_Ok in Hslice. apply stm_bind_Ok in Hbody as (u & wc & [= <- <-] & Hbody). apply stm_bind_Ok in Hbody as (document & wd & [= Hdoc <-] & Hbody).
  cbv zeta in Hbody. apply stm_bind_Ok in Hbody as (source & we & [= Hsource <-] & Hbody). apply stm_bind_Ok in Hbody as (u' & wf & [= <- <-] & Hbody).
  apply stm_bind_Ok in Hbody as (r & wg & Hpub & [= <- <-]). unfold on_store in Hpub. cbn in Hpub.
  match type of Hpub with context [publish_json_ref ?a ?b ?c ?d ?e ?f] => destruct (publish_json_ref a b c d e f) as [r0 d0] eqn:Ep end.
  injection Hpub as -> <-. apply published in Ep as (_ & Hprov & Hst). cbn. exists slice. split_and!; [done|done|].
  intros a ->%list_elem_of_singleton. split; [by apply Hst|]. unfold compatible. rewrite Hprov.
  assert (Provenance.source_from document = Ok source) as Hs by (unfold wrapping in Hsource; destruct (Provenance.source_from document); [done|by case_match]).
  apply source_compatible; [done|]. by eapply metadata_slice.
Qed.

Definition memory (w : Exec) : option string * list (string * list ArtifactRef) := (slice_holder w, outputs w).

(** A stage whose body leaves the slice alone. *)
Lemma run_stage_memory stage ins expected body w refs w' : leaves memory (body ins) -> run_stage stage ins expected body w = (Ok refs, w') ->
  slice_holder w' = slice_holder w /\ outputs w' = dict_set (outputs w) stage refs /\
  (forall a, a ∈ ins -> legacy a \/ compatible expected a) /\ (forall a, a ∈ refs -> compatible expected a) /\
  exists w1, body ins w = (Ok (Tuple refs), w1) /\ store w' = store w1.
Proof.
  intros Hb Hrun. apply run_stage_Ok in Hrun as (H1' & H2' & w1 & Hbody & ->). pose proof (Hb _ _ _ _ eq_refl Hbody) as Hm.
  unfold memory in Hm. injection Hm as Hm1 Hm2. cbn. rewrite Hm1, Hm2. split_and!; try done. by exists w1.
Qed.

Lemma leaves_memory_generate worker plan ins : leaves memory (generate_body root x worker plan ins).
Proof. by apply leaves_generate. Qed.

Lemma leaves_memory_scoped worker ins : leaves memory (scoped_body root worker ins).
Proof. by apply leaves_scoped. Qed.

Lemma require_slice_Ok label w slice w' : require_slice label w = (Ok slice, w') -> w' = w /\ slice_holder w = Some slice.
Proof.
  unfold require_slice. intros (w1 & w2 & [= <- <-] & Hl)%stm_bind_Ok. injection Hl as Hl <-. apply of_option_Ok in Hl. split; [done|].
  destruct (slice_holder w) as [s|]; [|done]. destruct (truthy s); [|done]. exact Hl.
Qed.

Lemma disagrees_Ok stage name actual v : disagrees stage name actual v = Ok tt -> forall s, v = Some s -> s = actual.
Proof. intros Hd s ->. unfold disagrees in Hd. by apply ensure_Ok, String.eqb_eq in Hd. Qed.

Lemma agreement_Ok node slice plan wid u : require_node_identity_agreement node slice (Some plan) wid = Ok u ->
  (forall s, source_slice_id node = Some s -> s = slice) /\ (forall p, build_plan_id node = Some p -> p = plan).
Proof.
  unfold require_node_identity_agreement. intros ([] & Hs & ([] & Hp & _)%bind_Ok)%bind_Ok. split; by eapply disagrees_Ok.
Qed.

(** What generate publishes. *)
Lemma generate_published worker plan ins w refs w1 : generate_body root x worker plan ins w = (Ok (Tuple refs), w1) ->
  exists parents, parents_of ins = Ok parents /\ forall a, a ∈ refs -> stored (files (store w1)) a /\
    exists p, ref_provenance a = Provenance.document p /\
      Provenance.provenance_class (Provenance.project p) = Provenance.derived_provenance_class parents (local_provenance_class x).
Proof.
  unfold generate_body. intros Hrun. apply stm_bind_Ok in Hrun as (result & wa & _ & Hrun). apply stm_bind_Ok in Hrun as (manifest & wb & [= _ ->] & Hrun).
  apply stm_bind_Ok in Hrun as (wc & wd & [= <- <-] & Hrun). apply stm_bind_Ok in Hrun as (source & wd & [= _ ->] & Hrun).
  apply stm_bind_Ok in Hrun as (parents & we & [= Hpar ->] & Hrun). cbv zeta in Hrun.
  apply stm_bind_Ok in Hrun as (m & wf & Hm & Hrun). destruct (jget result "generated_tree") as [[| | | | | |doc]|]; try done.
  apply stm_bind_Ok in Hrun as (t & wg & Ht & [= <- <-]). unfold on_store in Hm, Ht.
  match type of Hm with context [publish_json_ref ?a ?b ?c ?d ?e ?f] => destruct (publish_json_ref a b c d e f) as [r0 d0] eqn:Em end.
  injection Hm as -> <-. cbn [store] in Ht.
  match type of Ht with context [publish_json_ref ?a ?b ?c ?d ?e ?f] => destruct (publish_json_ref a b c d e f) as [r1 d1] eqn:Et end.
  injection Ht as -> <-. apply published in Em as (_ & Pm & Sm). apply published in Et as (Hsub & Pt & St). exists parents. split; [done|].
  intros a [->| ->%list_elem_of_singleton]%elem_of_cons; (split; [by auto|]); eexists; (split; [eassumption|]); done.
Qed.

Lemma check_stored_Ok refs w u w' : check_stored root refs w = (Ok u, w') -> w' = w /\ forall a, a ∈ refs -> stored (files (store w)) a.
Proof.
  unfold check_stored. intros (w1 & w2 & [= <- <-] & Hrun)%stm_bind_Ok. apply stm_bind_Ok in Hrun as (us & w3 & [= Hm ->] & [= _ ->]).
  split; [done|]. by apply (mapR_unit _ _ _ Hm).
Qed.

Lemma generate_done stage node w refs w' : node_of g stage = Ok node -> kind node = "generate" -> run_generate root g x work stage w = (Ok refs, w') ->
  exists slice, stage_done stage w w' (map ref_content_hash refs) node slice refs.
Proof.
  intros Hnode Hkind. unfold run_generate. intros Hrun. apply stm_bind_Ok in Hrun as (slice & w1 & [-> Hslice]%require_slice_Ok & Hrun).
  apply stm_bind_Ok in Hrun as (plan & w1 & [= Hplan ->] & Hrun). apply of_option_Ok in Hplan.
  apply stm_bind_Ok in Hrun as (worker & w2 & [= _ ->] & Hrun). cbv zeta in Hrun. apply stm_bind_Ok in Hrun as (u1 & w3 & [= _ ->] & Hrun).
  apply stm_bind_Ok in Hrun as (w4 & w5 & [= <- <-] & Hrun). apply stm_bind_Ok in Hrun as (us & w4 & [= Hins ->] & Hrun).
  apply stm_bind_Ok in Hrun as (node' & w5 & [= Hnode' ->] & Hrun). rewrite Hnode in Hnode'. injection Hnode' as <-.
  apply stm_bind_Ok in Hrun as (u2 & w6 & [= Hagree ->] & Hrun). destruct (agreement_Ok _ _ _ _ _ Hagree) as [A1 A2].
  apply run_stage_memory in Hrun as (S1 & S2 & S3 & S4 & wb & Hbody & S5); [|apply leaves_memory_generate].
  destruct (generate_published _ _ _ _ _ _ Hbody) as (parents & Hpar & Hpub).
  assert (envelope node slice = source_expected slice) as Henv by (unfold envelope; by rewrite Hkind).
  assert (forall v, inputs_of node v = map snd (generate_inputs_sorted x)) as Hinp by (intros; unfold inputs_of; by rewrite Hkind).
  exists slice. split; rewrite ?Henv; try done.
  - congruence.
  - rewrite S5. intros a Ha. by apply Hpub.
  - intros _. split_and!; [done|done|]. intros p Hp. rewrite Hplan. by rewrite (A2 p Hp).
  - intros _ a. rewrite Hinp. intros Ha. split; [|by apply S3]. apply list_elem_of_fmap in Ha as (nr & -> & Hnr).
    apply elem_of_py_sorted in Hnr. pose proof (mapR_unit _ _ _ Hins nr Hnr) as Hc. unfold check_generate_input in Hc.
    apply bind_Ok in Hc as (? & _ & Hc). done.
  - intros _. exists parents. rewrite Hinp. split; [done|]. intros a Ha. by apply Hpub.
Qed.

Lemma scoped_done stage node worker label w refs w' : node_of g stage = Ok node -> kind node <> "generate" -> kind node <> "materialize" ->
  run_build_scoped root x stage node worker label w = (Ok refs, w') ->
  exists slice, stage_done stage w w' (map ref_content_hash refs) node slice refs.
Proof.
  intros Hnode Hk1 Hk2. unfold run_build_scoped. intros Hrun. apply stm_bind_Ok in Hrun as (slice & w1 & [-> Hslice]%require_slice_Ok & Hrun).
  apply stm_bind_Ok in Hrun as (plan & w1 & [= Hplan ->] & Hrun). apply of_option_Ok in Hplan.
  apply stm_bind_Ok in Hrun as (work' & w2 & [= _ ->] & Hrun). apply stm_bind_Ok in Hrun as (u1 & w3 & [= Hagree ->] & Hrun).
  destruct (agreement_Ok _ _ _ _ _ Hagree) as [A1 A2]. apply stm_bind_Ok in Hrun as (w4 & w5 & [= <- <-] & Hrun).
  apply stm_bind_Ok in Hrun as (ins & w4 & [= Hins ->] & Hrun). apply stm_bind_Ok in Hrun as (u2 & w5 & [-> Hst]%check_stored_Ok & Hrun).
  apply run_stage_memory in Hrun as (S1 & S2 & S3 & S4 & wb & Hbody & S5); [|apply leaves_memory_scoped].
  unfold scoped_body in Hbody. apply stm_bind_Ok in Hbody as (p & wc & _ & Hbody). apply stm_bind_Ok in Hbody as (u3 & wd & [-> Hout]%check_stored_Ok & [= -> ->]).
  exists slice. assert (str_in (kind node) ["materialize"; "generate"] = false) as Hk.
  { unfold str_in. apply bool_decide_eq_false. by intros [?|[?|?%elem_of_nil]%elem_of_cons]%elem_of_cons. }
  assert (envelope node slice = execution_expected slice plan (run_id x) (workload x)) as Henv
    by (unfold envelope; rewrite Hk, Hplan; by destruct plan).
  assert (inputs_of node w4 = ins) as Hinp by (unfold inputs_of; rewrite (proj2 (String.eqb_neq _ _) Hk1); by rewrite Hins).
  split; rewrite ?Henv, ?Hinp; try done.
  - congruence.
  - rewrite S5. exact Hout.
  - intros _. split_and!; [done|done|]. intros p Hp. rewrite Hplan. by rewrite (A2 p Hp).
  - intros _ a Ha. split; [by apply Hst|by apply S3].
Qed.

(** A stage sets its own outputs when it returns, and nothing else ever. *)
Definition own (stage : string) (m : stm Exec (list ArtifactRef)) : Prop := forall w r w', m w = (r, w') ->
  outputs w' = match r with Ok refs => dict_set (outputs w) stage refs | Err _ => outputs w end.

Lemma own_bind {A} stage (m : stm Exec A) k : leaves outputs m -> (forall a, own stage (k a)) -> own stage (m ≫= k).
Proof.
  intros Hm Hk w r w' Hrun. unfold mbind, stm_bind in Hrun. destruct (m w) as [[a|e] w1] eqn:E; pose proof (Hm _ _ _ _ eq_refl E) as Ho.
  - rewrite (Hk a _ _ _ Hrun). by rewrite Ho.
  - by injection Hrun as <- <-.
Qed.

Lemma own_raise stage e : own stage (raise e).
Proof. by intros w r w' [= <- <-]. Qed.

Lemma own_run_stage stage ins expected body : leaves outputs (body ins) -> own stage (run_stage stage ins expected body).
Proof. intros Hb w r w' Hrun. by eapply run_stage_outputs. Qed.

Lemma own_scoped stage node worker label : own stage (run_build_scoped root x stage node worker label).
Proof.
  unfold run_build_scoped, require_slice.
  repeat first [apply own_bind; [by (apply leaves_check_stored || apply leaves_lift || apply leaves_get || (apply leaves_bind; [apply leaves_get|intros; apply leaves_lift]))|intros ?]].
  apply own_run_stage. by apply leaves_scoped.
Qed.

Lemma own_generate stage : own stage (run_generate root g x work stage).
Proof.
  unfold run_generate, require_slice. cbv zeta.
  repeat first [apply own_bind; [by (apply leaves_lift || apply leaves_get || (apply leaves_bind; [apply leaves_get|intros; apply leaves_lift]))|intros ?]].
  apply own_run_stage. by apply leaves_generate.
Qed.

Lemma own_materialize stage : own stage (run_materialize root x work stage).
Proof. apply own_run_stage. apply leaves_materialize; [done|done|apply leaves_slice]. Qed.

Definition stage_body (stage : string) (node : StageNode) : stm Exec (list ArtifactRef) :=
  if String.eqb (kind node) "materialize" then run_materialize root x work stage
  else if String.eqb (kind node) "generate" then run_generate root g x work stage
  else if String.eqb (kind node) "build" then run_build_scoped root x stage node (build work) "build"
  else if String.eqb (kind node) "runtime-smoke" then run_build_scoped root x stage node (smoke work) "runtime-smoke"
  else raise (CampaignExecutionError ("stage kind " +:+ py_repr (kind node) +:+ " is not recognised by CampaignStageExecutor")).

Lemma own_body stage node : own stage (stage_body stage node).
Proof. unfold stage_body. repeat case_match; auto using own_materialize, own_generate, own_scoped, own_raise. Qed.

Lemma call_stage_Ok stage w hashes w' : call_stage root g x work stage w = (Ok hashes, w') ->
  exists node slice refs, stage_done stage w w' hashes node slice refs.
Proof.
  intros Hrun. change (call_stage root g x work stage) with (node ← lift (node_of g stage); outs ← stage_body stage node; mret (M := stm Exec) (map ref_content_hash outs)) in Hrun.
  apply stm_bind_Ok in Hrun as (node & w1 & [= Hnode ->] & Hrun). apply stm_bind_Ok in Hrun as (refs & w2 & Hbody & [= <- <-]).
  exists node. unfold stage_body in Hbody. destruct (String.eqb_spec (kind node) "materialize") as [Hm|Hm].
  { apply materialize_done in Hbody as (slice & S1 & S2 & S3). exists slice, refs.
    assert (envelope node slice = source_expected slice) as Henv by (unfold envelope; by rewrite Hm).
    split; rewrite ?Henv; try done; [intros a Ha; by apply S3..|]. intros Hg. congruence. }
  destruct (String.eqb_spec (kind node) "generate") as [Hg|Hg].
  { destruct (generate_done _ _ _ _ _ Hnode Hg Hbody) as (slice & Hd). by exists slice, refs. }
  destruct (String.eqb_spec (kind node) "build") as [Hb|Hb]; [|destruct (String.eqb_spec (kind node) "runtime-smoke") as [Hs|Hs]; [|done]].
  all: destruct (scoped_done _ _ _ _ _ _ _ Hnode Hg Hm Hbody) as (slice & Hd); by exists slice, refs.
Qed.

Lemma call_stage_own stage w r w' : call_stage root g x work stage w = (r, w') ->
  (forall e, r = Err e -> outputs w' = outputs w) /\ forall other, other <> stage -> jget (outputs w') other = jget (outputs w) other.
Proof.
  intros Hrun. change (call_stage root g x work stage) with (node ← lift (node_of g stage); outs ← stage_body stage node; mret (M := stm Exec) (map ref_content_hash outs)) in Hrun.
  unfold mbind at 1, stm_bind at 1, lift in Hrun. destruct (node_of g stage) as [node|e]; [|by injection Hrun as <- <-].
  unfold mbind, stm_bind in Hrun. destruct (stage_body stage node w) as [[refs|e] w1] eqn:Eb; pose proof (own_body _ _ _ _ _ Eb) as Ho;
    injection Hrun as <- <-; rewrite Ho; (split; [done|]); intros other Hne; [|done]. rewrite jget_dict_set.
  by rewrite (proj2 (String.eqb_neq _ _)).
Qed.

(** ** Under a run *)

(** What a finished record stands for: outputs the executor has, with these
    hashes, each of which says that it belongs to the campaign. *)
Definition backed (slice : string) (w : Exec) (id : string) (rec : StageRecord) : Prop :=
  exists node refs, node_of g id = Ok node /\ jget (outputs w) id = Some refs /\ output_hashes rec = map ref_content_hash refs /\
    forall a, a ∈ refs -> compatible (envelope node slice) a.

Record belongs (slice : string) (w : Run Exec) : Prop := {
  bg_slice : slice_holder (world w) = Some slice;
  bg_records : forall id rec, jget (records w) id = Some rec -> finished (state rec) = true -> backed slice (world w) id rec;
}.

Context (no_materialize : forall id node, node_of g id = Ok node -> kind node <> "materialize").

Lemma slice_kept stage w r w' : call_stage root g x work stage w = (r, w') -> slice_holder w' = slice_holder w.
Proof.
  assert (forall A (m : stm Exec A) (k : A -> stm Exec (list ArtifactRef)), leaves slice_holder m -> (forall a, leaves slice_holder (k a)) -> leaves slice_holder (m ≫= k)) as Hbind
    by (intros; by apply leaves_bind).
  assert (forall ins expected body, leaves slice_holder (body ins) -> leaves slice_holder (run_stage stage ins expected body)) as Hrs.
  { intros ins expected body Hb. unfold run_stage. apply leaves_bind; [by apply leaves_pipeline|intros outs]. apply leaves_bind; [|intros; apply leaves_ret].
    intros o. by apply keeps_modify. }
  assert (forall label, leaves slice_holder (require_slice label)) as Hsl by (intros; unfold require_slice; apply leaves_bind; [apply leaves_get|intros; apply leaves_lift]).
  intros Hrun. change (call_stage root g x work stage) with (node ← lift (node_of g stage); outs ← stage_body stage node; mret (M := stm Exec) (map ref_content_hash outs)) in Hrun.
  unfold mbind at 1, stm_bind at 1, lift in Hrun. destruct (node_of g stage) as [node|e] eqn:Enode; [|by injection Hrun as <- <-].
  specialize (no_materialize stage node Enode). enough (leaves slice_holder (stage_body stage node)) as Hl.
  { unfold mbind, stm_bind in Hrun. destruct (stage_body stage node w) as [[refs|e] w1] eqn:Eb; pose proof (Hl _ _ _ _ eq_refl Eb) as Ho; by injection Hrun as <- <-. }
  unfold stage_body. rewrite (proj2 (String.eqb_neq _ _) no_materialize). repeat case_match; try apply leaves_raise; unfold run_generate, run_build_scoped; cbv zeta.
  all: repeat first [apply Hbind; [by (apply Hsl || apply leaves_lift || apply leaves_get || apply leaves_check_stored)|intros ?]].
  all: apply Hrs; first [by apply leaves_generate | by apply leaves_scoped].
Qed.

Lemma belongs_records slice w rs : slice_holder (world w) = Some slice ->
  (forall id rec, jget rs id = Some rec -> finished (state rec) = true -> backed slice (world w) id rec) ->
  forall d a, belongs slice (mkRun rs d a (world w)).
Proof. intros Hs Hr d a. by split. Qed.

Lemma set_record_belongs slice id rec (w : Run Exec) r w' : belongs slice w -> (finished (state rec) = true -> backed slice (world w) id rec) ->
  set_record id rec w = (r, w') -> belongs slice w'.
Proof.
  intros [B1 B2] Hrec. unfold set_record, modify. intros [= <- <-]. apply belongs_records; [done|].
  intros id' rec'. rewrite jget_dict_set. destruct (String.eqb_spec id' id) as [->|]; [|apply B2]. by intros [= <-].
Qed.

Lemma same_belongs slice (w w' : Run Exec) : same_but_locks w w' -> belongs slice w -> belongs slice w'.
Proof. intros (Hr & Hw & _) [B1 B2]. split; rewrite Hw; [done|]. by rewrite Hr. Qed.

Lemma attempt_belongs slice id digest (w : Run Exec) r w' : belongs slice w ->
  attempt (stage_executor root g x work) id digest w = (r, w') -> belongs slice w'.
Proof.
  intros [B1 B2]. unfold attempt, stage_executor, set_record, modify, mbind, stm_bind. cbn.
  destruct (call_stage root g x work id (world w)) as [[hashes|e] v] eqn:Ec; cbn; intros [= <- <-];
    pose proof (slice_kept _ _ _ _ Ec) as Hsl; destruct (call_stage_own _ _ _ _ Ec) as [Hone Hother]; (split; cbn; [by rewrite Hsl|]); intros id' rec'.
  - rewrite !jget_dict_set. destruct (String.eqb_spec id' id) as [->|Hne].
    + intros [= <-] _. destruct (call_stage_Ok _ _ _ _ Ec) as (node & slice' & refs & [S1 S2 S3 S4 S5 S6 _ _ _]). exists node, refs. cbn.
      assert (slice' = slice) as -> by congruence. split_and!; [done| |done|done]. by rewrite S3, jget_dict_set, String.eqb_refl.
    + intros Hj Hf. destruct (B2 _ _ Hj Hf) as (node & refs & ? & Ho & ?). exists node, refs. by rewrite Hother.
  - rewrite jget_dict_set. destruct (String.eqb_spec id' id) as [->|Hne]; [by intros [= <-]|]. intros Hj Hf.
    destruct (B2 _ _ Hj Hf) as (node & refs & ? & Ho & ?). exists node, refs. by rewrite Hother.
Qed.

Lemma attempted_belongs slice id digest refused : keeps (belongs slice) (attempted (stage_executor root g x work) id digest refused).
Proof.
  intros w r w' Hb. unfold attempted. destruct ((match refused with Some e => raise e | None => attempt (stage_executor root g x work) id digest end) w) as [r1 w1] eqn:Em.
  assert (belongs slice w1) as Hb1 by (destruct refused; [by injection Em as <- <-|by eapply attempt_belongs]).
  destruct r1 as [u|e]; [by intros [= <- <-]|]. destruct (caught e); [|by intros [= <- <-]]. intros Hrun.
  by eapply (set_record_belongs slice id (failed_record id digest e)).
Qed.

Lemma execute_stage_belongs slice lock_root node digest : keeps (belongs slice) (execute_stage lock_root (stage_executor root g x work) node digest).
Proof.
  intros w r w' Hb. unfold execute_stage. cbv zeta. destruct (acquire_all (locks_of lock_root node) w) as [[ls refused] w1] eqn:Ea.
  destruct (acquire_all_spec _ (locks_fresh lock_root node) _ _ _ _ Ea) as (Hs & _). pose proof (same_belongs _ _ _ Hs Hb) as Hb1.
  assert (forall v r v', belongs slice v -> release_all ls v = (r, v') -> belongs slice v') as Hrel
    by (intros v r0 v' Hv Hr; apply release_all_spec in Hr as [Hs' _]; by eapply same_belongs).
  destruct (attempted _ _ _ refused w1) as [[u|e] w2] eqn:Et; pose proof (attempted_belongs _ _ _ _ _ _ _ Hb1 Et) as Hb2; [by apply Hrel|].
  destruct (bool_decide _); [by intros [= <- <-]|]. unfold mbind, stm_bind. destruct (release_all ls w2) as [[u|e'] w3] eqn:Er;
    pose proof (Hrel _ _ _ Hb2 Er) as Hb3; by intros [= <- <-].
Qed.

Lemma reusable_record {W} (reuse : option (StageRecord -> Run W -> res bool)) digest previous w p : reusable reuse digest previous w = Ok (Some p) ->
  previous = Some p /\ finished (state p) = true /\ spec_hash p = digest /\ exists ask, reuse = Some ask /\ ask p w = Ok true.
Proof.
  unfold reusable. destruct previous as [q|]; [|done]. destruct reuse as [ask|]; [|done].
  destruct (String.eqb_spec (spec_hash q) digest) as [Hh|]; [|done]. destruct (finished (state q)) eqn:Hf; [|done]. cbn [andb].
  intros ([] & Ha & [= ->])%bind_Ok. split_and!; try done. by exists ask.
Qed.

Lemma step_belongs slice lock_root reuse id : keeps (belongs slice) (step g lock_root (stage_executor root g x work) reuse id).
Proof.
  intros w r w' Hb. unfold step. unfold mbind at 1, stm_bind at 1, lift at 1. destruct (of_option _ _) as [node|e]; [|by intros [= <- <-]].
  cbv zeta beta iota. unfold mbind at 1, stm_bind at 1, get. cbv beta iota. destruct (existsb _ _).
  - intros Hrun. by eapply (set_record_belongs slice id (mkRecord id "blocked" (spec_hash_of node) [] None)).
  - unfold mbind at 1, stm_bind at 1, lift at 1. cbv beta iota. destruct (reusable _ _ _ _) as [[p|]|e] eqn:Er; [..|by intros [= <- <-]].
    + intros Hrun. apply reusable_record in Er as (Hj & Hf & _). eapply (set_record_belongs slice id (with_state "reused" p)); [done| |exact Hrun].
      intros _. exact (bg_records _ _ Hb id p Hj Hf).
    + by apply execute_stage_belongs.
Qed.

End Stages.





(** ** Runs *)

#[local] Existing Instance toy_hashes.
#[local] Existing Instance long_names.
#[local] Existing Instance long_names_laws.
#[local] Existing Instance sorted_sets.

Lemma jget_elem {A} (o : list (string * A)) k v : jget o k = Some v -> (k, v) ∈ o.
Proof.
  induction o as [|[a b] o IH]; [done|]. cbn. destruct (String.eqb_spec k a) as [->|]; [intros [= ->]; by left|right; by apply IH].
Qed.

Lemma no_materialize_in g : forallb (fun kv : string * StageNode => negb (String.eqb (kind kv.2) "materialize")) (nodes g) = true ->
  forall id node, node_of g id = Ok node -> kind node <> "materialize".
Proof.
  intros Hall id node Hn Hk. apply of_option_Ok in Hn. rewrite forallb_true in Hall. apply jget_elem in Hn.
  specialize (Hall (id, node) Hn). cbn in Hall. by rewrite Hk in Hall.
Qed.

Lemma demo_root_clean : Forall (fun c => clean c = true) demo_root.
Proof. repeat constructor. Qed.

(** An inventory that was imported, and a development checkout. *)
Definition demo_inventory : ArtifactRef :=
  match (publish_bytes_ref demo_root "inventory.json" "{}" "inventory" (inl (Provenance.demo_stage [] Provenance.ImportedLegacy)) (demo_disk [])).1 with
  | Ok r => r | Err _ => mkRef "" [] "" JNull "" end.

Definition demo_store : Disk :=
  (publish_bytes_ref demo_root "inventory.json" "{}" "inventory" (inl (Provenance.demo_stage [] Provenance.ImportedLegacy)) (demo_disk [])).2.

Definition demo_identity : Identity :=
  mkIdentity "run" [("inventory", demo_inventory)] ["inventory"] (Some "plan") (Some "workload") "revision" Provenance.Production.

Definition binary_provenance : Provenance.ProvenanceV2 :=
  stage_provenance demo_identity Provenance.demo_source Provenance.demo_build (Some "workload") "build" [].

Definition demo_work : Worker :=
  mkWorkers (raise (ValueError "no")) (Some (fun _ => mret [("manifest", JObj []); ("generated_tree", JObj [])]))
    (Some (fun _ => r ← publish_bytes_ref demo_root "bin/server" "ELF" "binary" (inl binary_provenance); mret (Tuple [r])))
    (Some (fun _ => mret (Tuple []))).

Definition demo_exec : Exec := mkExec demo_store (Some "slice") (Some Provenance.demo_source) [].
Definition lane := the_graph demo_graph.

Definition demo_generate := call_stage demo_root lane demo_identity demo_work "llama:tune:generate" demo_exec.

(** What is generated from an imported inventory is imported itself, though the
    checkout is a production one. *)
Example generated_class :
  map (fun a => jrepr (Provenance.get_dotted (ref_provenance a) "project.provenance_class"))
    (default [] (jget (outputs demo_generate.2) "llama:tune:generate")) = ["'imported-legacy'"; "'imported-legacy'"].
Proof. vm_compute. reflexivity. Qed.


Definition demo_start : Run Exec := mkRun [] ∅ [] demo_exec.

(** Two passes; the second one reuses what the first has made. *)
Definition reuse_check : option (StageRecord -> Run Exec -> res bool) := Some (artifact_reusable demo_root).
Definition demo_passes := iterM (fun reuse => _ ← execute lane "/locks" (stage_executor demo_root lane demo_identity demo_work) reuse; mret tt)
  [None; reuse_check] demo_start.

Example demo_states : map (fun kr : string * StageRecord => (kr.1, state kr.2)) (records demo_passes.2) =
  [("llama:tune:generate", "reused"); ("llama:tune:build", "reused"); ("llama:tune:runtime-smoke", "reused")].
Proof. vm_compute. reflexivity. Qed.

Example demo_record : exists rec, jget (records demo_passes.2) "llama:tune:build" = Some rec /\ finished (state rec) = true.
Proof. vm_compute. eexists. split; reflexivity. Qed.

Lemma demo_no_materialize : forall id node, node_of lane id = Ok node -> kind node <> "materialize".
Proof. apply no_materialize_in. vm_compute. reflexivity. Qed.

Lemma demo_passes_run : exists rs, iterM (fun reuse => _ ← execute lane "/locks" (stage_executor demo_root lane demo_identity demo_work) reuse; mret tt)
  [None; reuse_check] demo_start = (rs, demo_passes.2).
Proof. exists (fst demo_passes). unfold demo_passes. apply surjective_pairing. Qed.


End Execution.
